(* ===== verification/_CoqProject ===== *)
-Q . S2P
Prelude.v
RlcPdu.v
RlcSdu.v
RlcTm.v
RlcRx.v
RlcUm.v
RlcUmLink.v
RlcAm.v
RlcAmCtrl.v
RlcAmStatus.v
RlcAmTx.v
RlcAmRun.v
PdcpSec.v
Pdcp.v
PdcpRx.v
PdcpLink.v
Tbs.v
SlicePolicy.v
SliceSched.v
SliceAlloc.v
SliceBudget.v
SliceRun.v
E2Agent.v
NrList.v
Harq.v
HarqDl.v
HarqUl.v
L2Common.v
Sdap.v
ThreadQueue.v
F1Ids.v
RlcConfig.v
RlcApi.v
RlcBearers.v
PdcpApi.v
BearerRlc.v
BearerPdcp.v
PdcpBearers.v
UserPlane.v
Gf2.v
CrcFold.v
Crc.v
Segmentation.v
RateMatch.v
UlSch.v
UlSchLink.v
MacPdu.v
MacUe.v
