(* ===== verification/Prelude.v ===== *)
(** * Verification of the user plane, of the slicing and of the uplink coding chain of an O-RAN gNB

    This development models, from the C sources under src/oai_ran, the parts of the gNB (and of
    the UE, which shares them) that carry user data, the RAN slicing added to the MAC scheduler, and
    the coding chain of the uplink shared channel:

      core network -> SDAP -> PDCP -> queue -> RLC -> MAC scheduler -> PHY
                                                         ^ slices and policies <- E2 agent

    SDAP maps the QoS flows of a PDU session to data radio bearers; the PDCP entity of a bearer
    numbers, ciphers and protects SDUs; a queue with a thread of its own takes them to RLC,
    another one takes received SDUs from RLC to PDCP; an RLC entity (transparent,
    unacknowledged or acknowledged mode) segments them to the size the MAC asks for and
    reassembles them at the other end.  PDCP and RLC keep a context for each UE, found by its identity,
    with the entities of its bearers.  The MAC chooses in each slot, for each UE, one of the slices its
    logical channels belong to, according to what the RLC holds for them, and shares the resource
    blocks of the cell between the slices by the ratios of their policies, which the configuration, the
    rrmPolicy file and the control messages of the E2 agent set.  Below, the physical layer of the UE adds
    a CRC to a transport block, cuts it into code blocks, codes, rate matches and interleaves them, and that of
    the gNB undoes this, each code block in a job of its own.

    ** Conventions

    A C function is a Rocq function with the same name.  [outcome] (below) separates
    a normal return from the end of the process (exit, failed AssertFatal) and from undefined behaviour
    (an access outside an array, a null dereference) or a call that does not return; every access to an
    array goes through [rd], [wr], [slice] or [blit], which check it.  Structures are records with an
    update notation; arrays and linked lists are lists; SDUs shared by several segments live in a store with
    their reference counts; a callback is an event appended to a trace, which the layer above
    takes up when the call returns.  An [int] is a [Z]; unsigned
    fields wrap where the C wraps ([u8], [u16], [u32], [u64]).  Two functions of the same C name in two
    files are told apart by their Rocq file (RlcUm.resegment, RlcAmTx.resegment).

    ** Files and what their theorems show

    - Prelude: outcomes, record update, machine integers, memory, tactics.

    RLC entities (openair2/LAYER2/nr_rlc)
    - RlcPdu (nr_rlc_pdu.c): bit codec of the headers, list of received PDUs.  What the encoder
      writes the decoder reads (C39).
    - RlcSdu (nr_rlc_sdu.c): SDUs, segments and reference counts.
    - RlcTm (nr_rlc_entity_tm.c): the entity implements a bounded FIFO (lemma tm_refines_fifo).
    - RlcRx: the walks of the receive list and the reassembly, which UM and AM share.
    - RlcUm, RlcUmLink (nr_rlc_entity_um.c): every operation.  The accounting of the store,
      of the buffer status and of the sizes is an invariant (lemma um_accounting); a link that loses nothing delivers
      every SDU once, whole and in order, for every sequence of grants (C8).
      The lemmas um_grant_two_bytes, um_discard_keeps_tx_size, um_timer_keeps_rx_size and um_inconsistent_segments_overread
      state what the code does where it loses an SDU, leaks buffer space or reads outside of a PDU.
    - RlcAm, RlcAmCtrl, RlcAmStatus, RlcAmTx, RlcAmRun (nr_rlc_entity_am.c): every operation.
      Duplicates are recognised exactly (C30); the announced size of a STATUS PDU is the size
      of the STATUS PDU sent (C28); the processing of any STATUS PDU, well formed or not, ends
      safely, and keeps the lists, the store and the counters consistent when its NACKs are below its ACK (C10).  The lemmas
      am_poll_timer_empty_wait and am_nack_at_ack_loses_sdu are executions that end in a
      null dereference and in the loss of an SDU.

    PDCP entities (openair2/LAYER2/nr_pdcp)
    - PdcpSec: the calls of the security algorithms, AES and SNOW 3G being parameters (class [Crypto]) with the
      laws their users rely on (class [CryptoLaws]); an instance shows the laws can hold.
    - Pdcp (nr_pdcp_entity.c, nr_pdcp_sdu.c): every operation of an entity.
    - PdcpRx: SDUs are delivered with increasing COUNTs, whatever is received (C11).
    - PdcpLink: with a COUNT in the window, the peer recovers every SDU from PDUs in any order and
      with repetitions (C9).  Lemma pdcp_count_below_zero_exits is the PDU that ends the process.

    Layers of the user plane
    - L2Common: the protocol context and the list of UE contexts that the two managers keep (class [UeContext]).
    - Sdap (SDAP/nr_sdap): every operation, against the interface of PDCP (class [PdcpService]).  The
      directory of the entities under every sequence of operations (C20); a packet crosses the layer
      unchanged (C40); where it loses a byte (lemma sdap_default_drb_drops_byte).
    - ThreadQueue (nr_pdcp_oai_api.c): the two queues between PDCP and RLC as a step relation over
      producers, consumer and condition variable.  For every interleaving they are FIFOs (C18) and no
      wake-up is lost (C19); the example queue_deadlock shows that the bound on the threads
      is needed.
    - F1Ids (F1AP/f1ap_ids.c): the identities of a UE on the two sides of F1.
    - RlcConfig, RlcApi (nr_rlc/asn1_utils.c, nr_rlc_ue_manager.c, nr_rlc_oai_api.c): the configuration of a bearer and
      the interface of the layer, under its lock.  RlcBearers: contexts stay well typed and the lock is free but after
      one lookup, which never gives it back (C24, lemma rlc_lcid_lookup_keeps_lock); a new bearer is reached from both
      sides (lemma rlc_drb_routes).
    - PdcpApi (nr_pdcp_ue_manager.c, nr_pdcp_oai_api.c, nr_pdcp_timer_thread.c, nr_pdcp/asn1_utils.c): the
      interface of the layer with SDAP above, the instance of [PdcpService].  PdcpBearers: contexts
      stay well formed and the recursive lock is balanced (C25), the timer thread reaches every bearer
      (lemma pdcp_timer_reaches_all).
    - BearerRlc, BearerPdcp: what the entity theorems give for a bearer seen through the two interfaces.
    - UserPlane: a gNB and a UE with a bearer in unacknowledged mode, from SDAP to SDAP.  Whatever the
      interleaving of packets, queue threads, grants and ticks, what is handed up is a prefix of what was
      sent (C1), and every reachable state can be drained (C2).

    MAC (openair2/LAYER2/NR_MAC_COMMON, NR_MAC_gNB)
    - Tbs (nr_compute_tbs_common.c, gNB_scheduler_primitives.c): transport block sizes (lemma nr_compute_tbs_bytes), search of
      the number of resource blocks (C36).
    - SlicePolicy (nr_mac_gNB.h, gnb_config.c, gNB_scheduler_dlsch.c, e2_message_handlers.c): slices, their
      configuration and the two updates of their policies (C32, lemmas
      apply_slicing_ctrl_spec and SL_iterator_configured).
    - SliceSched (gNB_scheduler_dlsch.c): the slices of a UE, the bytes awaiting in each and
      the slice chosen for the slot, as a refinement of a short specification (C5); in
      slots of different parity the slices of a UE take turns (C31); lemma three_slices_exit: more than two slices end the process.
    - SliceAlloc, SliceBudget, SliceRun (gNB_scheduler_dlsch.c): the resource blocks.  Retransmissions, then the new
      transmissions of one slice, on the mask of free resource blocks (SliceAlloc), shared
      between the slices by their ratios (SliceBudget); concrete slots (SliceRun).  What the scheduler calls outside
      of this (control channel, feedback channel, time domain allocation, link adaptation, order of the UEs by
      their coefficients) is the class [SchedEnv], and what it relies on the class [SchedEnvLaws], with an
      instance in SliceRun.  A retransmission takes free blocks only (C35); the slices together
      use no more than the free blocks and each no more than its maximum ratio (C4); what
      each slice is offered, and when that is its minimum ratio (C6; the first slice of the sorted array depends on
      uninitialised memory); a whole slot without retransmissions keeps this budget (C7).  Lemmas of SliceRun
      are slots where the code reads uninitialised memory, allocates a block in use and fails its own assertion.
    - NrList (gNB_scheduler_primitives.c): the linked arrays of identifiers implement lists without duplicates (C23).
    - Harq, HarqDl, HarqUl (gNB_scheduler_uci.c, gNB_scheduler_ulsch.c, gNB_scheduler_RA.c,
      gNB_scheduler_primitives.c): the HARQ processes of a UE, built on NrList; Harq has the invariant of the three lists for any
      kind of process (class [HarqProcess]).  Step relations over transmissions, feedback, random access, reset and
      reconfiguration; every reachable state has each process in its list and no assertion
      fails (C21 downlink, C22 uplink); feedback goes to the process it is due
      for (lemma find_harq_spec); lemma rx_without_process is the indication that reads outside of the array of processes.

    - MacPdu (gNB_scheduler_ulsch.c, nr_mac.h): the walk over the sub-PDUs of an uplink MAC PDU.  A PDU of well-formed
      sub-PDUs is taken apart into exactly these (C15); the walk ends on every input, after at most as many turns
      as there are bytes (C29); the look-ahead finds a C-RNTI (lemma lcid_crnti_lookahead_finds).  Lemmas
      nr_process_mac_pdu_overread, nr_process_mac_pdu_srb3 and ul_lc_bytes_3_constant: a length that is not checked, SDUs that
      are dropped and a counter that never moves.
    - MacUe (NR_MAC_UE/nr_ue_scheduler.c, mac_defs.h, common/utils/nr/nr_common.c): the buffer status of the UE, with RLC
      behind the class [UeRlc] and its laws [UeRlcOk].  Every slot it says what RLC holds (C16); what the
      gNB reads from a report covers the buffer (C17), but for the overflow of lemma
      bsr_estimate_overflows; lemma update_Bj_forgets_debt is the token bucket that forgets its debt.

    O-RAN (openair2/E2_AGENT)
    - E2Agent (e2_message_handlers.c, e2_agent_app.c): the loop on datagrams and the handlers.  An indication request is
      answered faithfully, up to the precision of the floats of the message (C34); no datagram of a peer that follows the protocol makes the
      agent do something undefined (C33); lemma e2_agent_fragile lists single datagrams that end it.  The decoder
      generated by protobuf-c is an argument [unpack]; floats that are only copied are an abstract type with the conversion to an
      integer as an argument, the conversion of an integer to a float is [to_float].

    Coding chain of the physical layer (openair1/PHY/CODING, NR_TRANSPORT, NR_UE_TRANSPORT)
    - Gf2: polynomials over GF(2) as integers; multiplication, multiples and congruence modulo a polynomial, as
      a setoid.
    - CrcFold (crc.h, crcext.h, types.h): the CRC by carry-less multiplication, folding and Barrett
      reduction, for any context of constants that satisfy the congruences of class [CtxOk].
    - Crc (crc_byte.c): the tables and every CRC function.  All of them return the remainder of the message by
      their generator (C12); check_crc accepts exactly the multiples of the generator and
      so detects every burst of errors (C26).
    - Segmentation (nr_segmentation.c): the parameters are those of the standard (C37); the code
      blocks carry the transport block (C14; lemma stale_filler_bits: some filler bits are not written); the sizes that the MAC computes split
      into whole bytes (C27).
    - RateMatch (nr_rate_matching.c): interleaver and deinterleaver are inverse (C38); bit
      selection and soft combining agree on the positions (C13); refusals (lemma rate_matching_refuses).
    - UlSch (nr_tbs_tools.c, nr_ulsch_coding.c, nr_ulsch_decoding.c, phy_procedures_nr_gNB.c): the chain of the
      UE and the jobs of the gNB.  The coded bits are shared out without loss (lemma nr_get_E_partition).
    - UlSchLink: what the UE codes, the gNB decodes, in whatever order its jobs end (C3).  The loop of
      the LDPC decoder (nrLDPC_decoder.c) is modelled, its kernels and the LDPC coder, of a library loaded at run time, are parameters
      with the laws [LdpcKernels] and [LdpcEncoder], and a repetition code as instance; lemma decoder_gives_up: fewer than three iterations
      never succeed.

    ** Fuel

    A loop whose number of turns is not bounded by the length of a list has fuel, and running out
    of fuel is [Undef], so that a theorem that gives [Done] also says that the loop ends: the loops of
    a STATUS PDU take the number of bits of the PDU and the lengths of the lists, the search of a number of
    resource blocks the distance of its bounds, the walks of an [NR_list_t] the length of its array.  The
    layers of the user plane need none: their loops run over lists, arrays and configurations.  The loops of rate
    matching take the number of bits to send, those of the folding the length of the message, the walk over a MAC PDU
    the length of the memory, the search of a buffer size the size of its table.

    ** Not modelled

    The physical layer but for the coding chain of the uplink (modulation, channel estimation, scrambling, polar
    codes, the LDPC coder and the kernels of the decoder, the float that classifies the code rate), the LTE stack, nFAPI, RRC and the ASN.1 coders (their decoded configurations are
    records here), NAS, S1/NG/F1/E1/X2 AP, GTP-U, the radio drivers and the executables; inside the parts modelled,
    logging, statistics of elapsed time and the allocation of memory (malloc does not fail).  The locks of the
    RLC and PDCP managers are modelled for the thread that holds them: a call is one step of the interleaving.  AES is
    OpenSSL's.  Of the interfaces of the layers, nr_rlc_get_statistics, the start-up of the TUN interface, the
    reading of sockets and the messages of E1 are left out.  The end-to-end theorems are for bearers in
    unacknowledged mode with one QoS flow; the loop of AM transmissions is modelled but not proved
    lossless.  In the MAC, pf_dl (which nothing calls), the proportional
    fair coefficients (floats: any order of the UEs is considered), the allocation of the uplink, the CSI
    reports, the rest of random access and, at the UE, the multiplexing of the logical channels; in the E2 agent, the sockets and the heartbeat thread.  The
    statistics of HARQ have 8 entries: the theorems on HARQ assume a maximum of 1 to 8 rounds, which the configuration does not
    check. *)

From stdpp Require Export prelude gmap list.
From Stdlib Require Export ZArith Lia Sorted.

#[global] Open Scope Z_scope.

Declare Scope oai_scope.
Delimit Scope oai_scope with oai.

(** ** Outcomes of a C function

    [Done a] is a normal return, [Exit] is [exit(1)] or a failed
    [AssertFatal]/[DevAssert], [Undef] is a behaviour the C standard leaves
    undefined (a read or a write outside an object, a null dereference) or a
    loop that does not end. *)
Inductive outcome (A : Type) : Type :=
| Done (a : A)
| Exit
| Undef.
Arguments Done {A} _.
Arguments Exit {A}.
Arguments Undef {A}.

#[export] Instance outcome_ret : MRet outcome := fun A a => Done a.
#[export] Instance outcome_bind : MBind outcome := fun A B f m =>
  match m with Done a => f a | Exit => Exit | Undef => Undef end.

Lemma outcome_bind_done {A B} (m : outcome A) (f : A -> outcome B) b :
  m ≫= f = Done b -> exists a, m = Done a /\ f a = Done b.
Proof. destruct m; simpl; [eauto | discriminate | discriminate]. Qed.

(** ** Record update

    [r <| f := v |>] is [r] with field [f] set to [v]; [r <| f ::= g |>] applies
    [g] to the field.  A record type takes part by an [Eta] instance, its eta
    expansion; the setter of a field is found by abstracting the field's
    projection in that expansion. *)
Class Eta (R : Type) := eta_expand : R -> R.
Class Setter {R T : Type} (f : R -> T) := upd : (T -> T) -> R -> R.
Arguments upd {R T} f {_} _ _ /.

Ltac find_setter :=
  lazymatch goal with
  | |- @Setter ?R ?T ?f =>
      let i := constr:(@eta_expand R _) in
      let e := lazymatch i with @eta_expand _ ?j => eval red in j end in
      let p := eval pattern f in e in
      lazymatch p with
      | ?body f =>
          let t := constr:(fun (g : T -> T) (r : R) => body (fun r0 => g (f r0)) r) in
          let t := eval cbv beta in t in
          exact t
      end
  end.
#[export] Hint Extern 1 (Setter _) => find_setter : typeclass_instances.

#[local] Set Warnings "-postfix-notation-not-level-1".
Notation "r <| f ::= g |>" := (upd f g r)
  (at level 12, f at next level, left associativity, format "r  <| f  ::=  g |>") : oai_scope.
Notation "r <| f := v |>" := (upd f (fun _ => v) r)
  (at level 12, f at next level, left associativity, format "r  <| f  :=  v |>") : oai_scope.
Notation "r <| f ; f2 ::= g |>" := (upd f (upd f2 g) r)
  (at level 12, f at next level, left associativity) : oai_scope.
Notation "r <| f ; f2 := v |>" := (upd f (upd f2 (fun _ => v)) r)
  (at level 12, f at next level, left associativity) : oai_scope.
#[global] Open Scope oai_scope.

(** ** Machine integers

    [int] values are kept in [Z] (the bounds that make their arithmetic exact
    are part of the invariants); unsigned counters wrap. *)
Definition u8 (z : Z) : Z := z mod 2 ^ 8.
Definition u16 (z : Z) : Z := z mod 2 ^ 16.
Definition u32 (z : Z) : Z := z mod 2 ^ 32.
Definition u64 (z : Z) : Z := z mod 2 ^ 64.
(** The conversion of an unsigned 32-bit value to [int]. *)
Definition s32 (z : Z) : Z := if u32 z <? 2 ^ 31 then u32 z else u32 z - 2 ^ 32.
Definition is_byte (b : Z) : Prop := 0 <= b < 256.
Definition add32 (d x : Z) : Z := u32 (x + d).
Definition add64 (d x : Z) : Z := u64 (x + d).

(** ** Memory: arrays of bytes

    A buffer is a list of byte values; every access outside of it is [Undef]. *)
Definition rd {A} (buf : list A) (i : Z) : outcome A :=
  if i <? 0 then Undef
  else match buf !! Z.to_nat i with Some b => Done b | None => Undef end.
Definition wr {A} (buf : list A) (i : Z) (v : A) : outcome (list A) :=
  if i <? 0 then Undef
  else if i <? Z.of_nat (length buf) then Done (<[Z.to_nat i := v]> buf) else Undef.

(** [len] bytes of [buf] from offset [off], the source of a [memcpy]. *)
Definition slice {A} (buf : list A) (off len : Z) : outcome (list A) :=
  if (off <? 0) || (len <? 0) || (Z.of_nat (length buf) <? off + len) then Undef
  else Done (take (Z.to_nat len) (drop (Z.to_nat off) buf)).

(** [memcpy(buf + off, src, length src)]. *)
Definition blit {A} (buf : list A) (off : Z) (src : list A) : outcome (list A) :=
  if (off <? 0) || (Z.of_nat (length buf) <? off + Z.of_nat (length src)) then Undef
  else Done (take (Z.to_nat off) buf ++ src
             ++ drop (Z.to_nat off + length src)%nat buf).

Definition b2z (b : bool) : Z := if b then 1 else 0.

(** The walk of a singly linked list that inserts [x] in front of the first
    element where [stop] holds, or at the end. *)
Fixpoint insert_before {A} (stop : A -> bool) (x : A) (l : list A) : list A :=
  match l with
  | [] => [x]
  | c :: r => if stop c then x :: l else c :: insert_before stop x r
  end.

Lemma insert_before_perm {A} (stop : A -> bool) x l :
  insert_before stop x l ≡ₚ x :: l.
Proof.
  induction l as [|c r IH]; simpl; [done|].
  destruct (stop c); [done|]. rewrite IH. apply Permutation_swap.
Qed.

Lemma insert_before_split {A} (stop : A -> bool) x l :
  exists l1 l2, l = l1 ++ l2 /\ insert_before stop x l = l1 ++ x :: l2 /\
    Forall (fun y => stop y = false) l1 /\
    (forall y r, l2 = y :: r -> stop y = true).
Proof.
  induction l as [|c r IH]; simpl.
  - exists [], []. repeat split; eauto. discriminate.
  - destruct (stop c) eqn:E.
    + exists [], (c :: r). repeat split; eauto. intros y r' [= <- <-]. done.
    + destruct IH as (l1 & l2 & -> & -> & H1 & H2).
      exists (c :: l1), l2. repeat split; eauto.
Qed.

Lemma insert_before_end {A} (stop : A -> bool) x l :
  Forall (fun y => stop y = false) l -> insert_before stop x l = l ++ [x].
Proof. induction 1 as [|y r H _ IH]; simpl; [done|]. by rewrite H, IH. Qed.

Ltac zbool :=
  repeat match goal with
  | H : (_ <? _) = true |- _ => apply Z.ltb_lt in H
  | H : (_ <? _) = false |- _ => apply Z.ltb_ge in H
  | H : (_ <=? _) = true |- _ => apply Z.leb_le in H
  | H : (_ <=? _) = false |- _ => apply Z.leb_gt in H
  | H : (_ >? _) = _ |- _ => rewrite Z.gtb_ltb in H
  | H : (_ >=? _) = _ |- _ => rewrite Z.geb_leb in H
  | H : (_ =? _) = true |- _ => apply Z.eqb_eq in H
  | H : (_ =? _) = false |- _ => apply Z.eqb_neq in H
  | H : (_ || _) = true |- _ => apply orb_true_iff in H
  | H : (_ || _) = false |- _ => apply orb_false_iff in H as [? ?]
  | H : (_ && _) = true |- _ => apply andb_true_iff in H as [? ?]
  | H : (_ && _) = false |- _ => apply andb_false_iff in H
  | H : negb _ = true |- _ => apply negb_true_iff in H
  | H : negb _ = false |- _ => apply negb_false_iff in H
  end.

(** Case analysis on the condition of the first [if] of the goal. *)
Ltac cif :=
  match goal with
  | |- context [if ?c then _ else _] =>
      lazymatch c with context [if _ then _ else _] => fail | _ => idtac end;
      let E := fresh "E" in destruct c eqn:E
  end.

(** Case analysis on the [if] that gives the left-hand side of the premise of the goal. *)
Ltac cif_head :=
  lazymatch goal with
  | |- (if ?c then _ else _) = _ -> _ => let E := fresh "E" in destruct c eqn:E
  | |- (if ?c then _ else _) = _ => let E := fresh "E" in destruct c eqn:E
  end.

Ltac invd H := apply outcome_bind_done in H; destruct H as (? & ? & H).

Lemma rd_done {A} (buf : list A) i x :
  0 <= i -> buf !! Z.to_nat i = Some x -> rd buf i = Done x.
Proof. intros H E. unfold rd. cif; zbool; [lia|]. by rewrite E. Qed.

Lemma wr_done {A} (buf : list A) i x :
  0 <= i < Z.of_nat (length buf) -> wr buf i x = Done (<[Z.to_nat i := x]> buf).
Proof. intros H. unfold wr. do 2 (cif; zbool; try lia). done. Qed.

Lemma slice_done {A} (buf : list A) off len :
  0 <= off -> 0 <= len -> off + len <= Z.of_nat (length buf) ->
  slice buf off len = Done (take (Z.to_nat len) (drop (Z.to_nat off) buf)).
Proof.
  intros. unfold slice. cif; [|done]. zbool.
  destruct E as [E|E]; zbool; [destruct E; zbool; lia | lia].
Qed.

Lemma slice_length {A} (buf : list A) off len r :
  slice buf off len = Done r ->
  Z.of_nat (length r) = len /\ 0 <= off /\ 0 <= len /\ off + len <= Z.of_nat (length buf).
Proof.
  unfold slice. cif; [done|]. intros [= <-]. zbool.
  rewrite length_take, length_drop. lia.
Qed.

Lemma blit_done {A} (buf : list A) off src :
  0 <= off -> off + Z.of_nat (length src) <= Z.of_nat (length buf) ->
  blit buf off src = Done (take (Z.to_nat off) buf ++ src
             ++ drop (Z.to_nat off + length src)%nat buf).
Proof.
  intros. unfold blit. cif; [|done]. zbool. destruct E; zbool; lia.
Qed.

Lemma blit_length {A} (buf : list A) off src r :
  blit buf off src = Done r -> length r = length buf.
Proof.
  unfold blit. cif; [done|]. intros [= <-]. zbool.
  rewrite !length_app, length_take, length_drop. lia.
Qed.

Lemma slice_mid {A} (a b c : list A) off len :
  off = Z.of_nat (length a) -> len = Z.of_nat (length b) -> slice (a ++ b ++ c) off len = Done b.
Proof.
  intros -> ->. rewrite slice_done; [|lia|lia|rewrite !length_app; lia].
  rewrite !Nat2Z.id, drop_app_length, take_app_length. done.
Qed.

Lemma slice_head {A} (b c : list A) len : len = Z.of_nat (length b) -> slice (b ++ c) 0 len = Done b.
Proof. intros E. exact (slice_mid [] b c 0 len eq_refl E). Qed.

Lemma slice_all {A} (b : list A) len : len = Z.of_nat (length b) -> slice b 0 len = Done b.
Proof. intros E. rewrite <- (app_nil_r b) at 1. by apply slice_head. Qed.

Lemma blit_mid {A} (a b c b' : list A) off :
  off = Z.of_nat (length a) -> length b' = length b -> blit (a ++ b ++ c) off b' = Done (a ++ b' ++ c).
Proof.
  intros -> E. rewrite blit_done; [|lia|rewrite !length_app; lia].
  rewrite Nat2Z.id, take_app_length, E. f_equal. f_equal. f_equal.
  rewrite (app_assoc a b c), <- length_app, drop_app_length. done.
Qed.

(** Writing the first bytes of a buffer, one by one. *)
Lemma wr_mid {A} (a : list A) x b (v : A) i :
  i = Z.of_nat (length a) -> wr (a ++ x :: b) i v = Done (a ++ v :: b).
Proof.
  intros ->. rewrite wr_done by (rewrite length_app; simpl; lia).
  rewrite Nat2Z.id, insert_app_r_alt, Nat.sub_diag by lia. done.
Qed.

(** A big-endian field, put together by a shift and a bitwise or. *)
Lemma lor_shift_add a b n : 0 <= n -> 0 <= b < 2 ^ n -> Z.lor (Z.shiftl a n) b = a * 2 ^ n + b.
Proof.
  intros Hn Hb. rewrite Z.shiftl_mul_pow2 by done.
  destruct (decide (b = 0)) as [->|Hz]; [rewrite Z.lor_0_r; lia|]. pose proof (Z.add_lor_land (a * 2 ^ n) b) as E.
  assert (E0 : Z.land (a * 2 ^ n) b = 0); [|lia]. clear E. apply Z.bits_inj'. intros i Hi.
  rewrite Z.land_spec, Z.bits_0. destruct (decide (i < n)).
  - by rewrite Z.mul_pow2_bits_low by lia.
  - rewrite (Z.bits_above_log2 b i); [by rewrite andb_false_r|lia|].
    assert (Z.log2 b < n) by (apply Z.log2_lt_pow2; lia). lia.
Qed.

(** Reads behind a prefix of the memory. *)
Lemma rd_off {A} (a b : list A) i : 0 <= i -> rd (a ++ b) (Z.of_nat (length a) + i) = rd b i.
Proof.
  intros. unfold rd. rewrite (proj2 (Z.ltb_ge (Z.of_nat (length a) + i) 0)) by lia.
  rewrite (proj2 (Z.ltb_ge i 0)) by lia. rewrite lookup_app_r by lia.
  replace (Z.to_nat (Z.of_nat (length a) + i) - length a)%nat with (Z.to_nat i) by lia. done.
Qed.

Lemma rd_off0 {A} (a b : list A) : rd (a ++ b) (Z.of_nat (length a)) = rd b 0.
Proof. rewrite <- (rd_off a b 0) by lia. f_equal. lia. Qed.

Lemma slice_off {A} (a b : list A) i len :
  0 <= i -> slice (a ++ b) (Z.of_nat (length a) + i) len = slice b i len.
Proof.
  intros. unfold slice. rewrite length_app, Nat2Z.inj_add.
  rewrite (proj2 (Z.ltb_ge (Z.of_nat (length a) + i) 0)) by lia. rewrite (proj2 (Z.ltb_ge i 0)) by lia.
  replace (Z.of_nat (length a) + Z.of_nat (length b) <? Z.of_nat (length a) + i + len)
    with (Z.of_nat (length b) <? i + len)
    by (apply eq_true_iff_eq; rewrite !Z.ltb_lt; lia).
  cif; [done|]. do 2 f_equal.
  replace (Z.to_nat (Z.of_nat (length a) + i)) with (length a + Z.to_nat i)%nat by lia.
  by rewrite drop_app_add.
Qed.

Lemma slice_off0 {A} (a b : list A) len : slice (a ++ b) (Z.of_nat (length a)) len = slice b 0 len.
Proof. rewrite <- (slice_off a b 0) by lia. f_equal. lia. Qed.

(** Bytes that are read, small values of an [int]. *)
Lemma rd_byte buf i b : Forall is_byte buf -> rd buf i = Done b -> is_byte b.
Proof.
  unfold rd. intros F. cif; [done|]. destruct (buf !! Z.to_nat i) as [x|] eqn:Ex; [|done].
  intros [= <-]. by eapply Forall_lookup_1.
Qed.

Lemma s32_small v : 0 <= v < 2 ^ 31 -> s32 v = v.
Proof.
  intros. unfold s32, u32. rewrite Z.mod_small by lia. by rewrite (proj2 (Z.ltb_lt _ _)) by lia.
Qed.
