(* ===== verification/RlcPdu.v ===== *)
(** RLC PDUs: the receive list and the bit level codec
    (openair2/LAYER2/nr_rlc/nr_rlc_pdu.c and .h).

    [nr_rlc_pdu_t] is a received PDU (its [data] is [None] once the C code has
    freed it and set the pointer to NULL); the [next] pointers are the order of
    the list.  The decoder and the encoder are translated bit by bit; their
    specification is the stream of bits they still have to read, or have
    written so far. *)

From S2P Require Import Prelude.

(** ** RX PDU management *)

Record nr_rlc_pdu_t := mk_pdu {
  pdu_sn : Z;
  pdu_data : option (list Z);
  pdu_size : Z;
  pdu_so : Z;
  pdu_is_first : bool;
  pdu_is_last : bool
}.
#[export] Instance eta_pdu : Eta nr_rlc_pdu_t := fun r =>
  mk_pdu (pdu_sn r) (pdu_data r) (pdu_size r) (pdu_so r) (pdu_is_first r) (pdu_is_last r).

(** [data] is the memory from the source pointer on: [size] bytes are copied. *)
Definition nr_rlc_new_pdu (sn so : Z) (is_first is_last : bool) (data : list Z) (size : Z)
  : outcome nr_rlc_pdu_t :=
  d ← slice data 0 size;
  Done (mk_pdu sn (Some d) size so is_first is_last).

Definition pdu_after (sn_compare : Z -> Z -> Z) (pdu cur : nr_rlc_pdu_t) : bool :=
  (sn_compare (pdu_sn cur) (pdu_sn pdu) >? 0)
  || ((pdu_sn cur =? pdu_sn pdu) && (pdu_so cur >? pdu_so pdu)).

Definition nr_rlc_pdu_list_add (sn_compare : Z -> Z -> Z)
    (l : list nr_rlc_pdu_t) (pdu : nr_rlc_pdu_t) : list nr_rlc_pdu_t :=
  insert_before (pdu_after sn_compare pdu) pdu l.

(** ** PDU decoder *)

Record nr_rlc_pdu_decoder_t := mk_dec {
  d_error : bool;
  d_byte : Z;
  d_bit : Z;
  d_buffer : list Z;
  d_size : Z
}.
#[export] Instance eta_dec : Eta nr_rlc_pdu_decoder_t := fun r =>
  mk_dec (d_error r) (d_byte r) (d_bit r) (d_buffer r) (d_size r).

Definition nr_rlc_pdu_decoder_init (buffer : list Z) (size : Z) : nr_rlc_pdu_decoder_t :=
  mk_dec false 0 0 buffer size.

Definition get_bit (d : nr_rlc_pdu_decoder_t) : outcome (Z * nr_rlc_pdu_decoder_t) :=
  if d_byte d >=? d_size d then Done (0, d <| d_error := true |>)
  else
    b ← rd (d_buffer d) (d_byte d);
    let ret := Z.land (Z.shiftr b (7 - d_bit d)) 1 in
    let d := d <| d_bit ::= Z.add 1 |> in
    let d := if d_bit d =? 8 then d <| d_bit := 0 |> <| d_byte ::= Z.add 1 |> else d in
    Done (ret, d).

Fixpoint get_bits_loop (n : nat) (ret : Z) (d : nr_rlc_pdu_decoder_t)
  : outcome (Z * nr_rlc_pdu_decoder_t) :=
  match n with
  | O => Done (ret, d)
  | S n =>
      '(b, d) ← get_bit d;
      let ret := Z.lor (Z.shiftl ret 1) b in
      if d_error d then Done (-1, d) else get_bits_loop n ret d
  end.

Definition nr_rlc_pdu_decoder_get_bits (d : nr_rlc_pdu_decoder_t) (count : Z)
  : outcome (Z * nr_rlc_pdu_decoder_t) :=
  if count >? 31 then Exit else get_bits_loop (Z.to_nat count) 0 d.

(** ** PDU encoder *)

Record nr_rlc_pdu_encoder_t := mk_enc {
  e_byte : Z;
  e_bit : Z;
  e_buffer : list Z;
  e_size : Z
}.
#[export] Instance eta_enc : Eta nr_rlc_pdu_encoder_t := fun r =>
  mk_enc (e_byte r) (e_bit r) (e_buffer r) (e_size r).

Definition nr_rlc_pdu_encoder_init (buffer : list Z) (size : Z) : nr_rlc_pdu_encoder_t :=
  mk_enc 0 0 buffer size.

Definition put_bit (e : nr_rlc_pdu_encoder_t) (bit : Z) : outcome nr_rlc_pdu_encoder_t :=
  if e_byte e =? e_size e then Exit
  else
    b ← rd (e_buffer e) (e_byte e);
    let b := u8 (Z.shiftl b 1) in
    let b := if bit =? 0 then b else Z.lor b 1 in
    buf ← wr (e_buffer e) (e_byte e) b;
    let e := e <| e_buffer := buf |> <| e_bit ::= Z.add 1 |> in
    Done (if e_bit e =? 8 then e <| e_bit := 0 |> <| e_byte ::= Z.add 1 |> else e).

Fixpoint put_bits_loop (n : nat) (x value : Z) (e : nr_rlc_pdu_encoder_t)
  : outcome nr_rlc_pdu_encoder_t :=
  match n with
  | O => Done e
  | S n =>
      e ← put_bit e (Z.land value x);
      put_bits_loop n (Z.shiftr x 1) value e
  end.

(** [1 << (count - 1)] is undefined when [count] is not positive. *)
Definition nr_rlc_pdu_encoder_put_bits (e : nr_rlc_pdu_encoder_t) (value count : Z)
  : outcome nr_rlc_pdu_encoder_t :=
  if count >? 31 then Exit
  else if count <=? 0 then Undef
  else put_bits_loop (Z.to_nat count) (Z.shiftl 1 (count - 1)) value e.

(** ** Specification: streams of bits *)

(** The bits of a byte, most significant first. *)
Definition byte_bits (b : Z) : list bool :=
  map (Z.testbit b) [7; 6; 5; 4; 3; 2; 1; 0].
Definition bytes_bits (l : list Z) : list bool := flat_map byte_bits l.

(** The number a list of bits denotes, and the [n] bits of a number. *)
Fixpoint bits_val (acc : Z) (bs : list bool) : Z :=
  match bs with [] => acc | b :: r => bits_val (2 * acc + b2z b) r end.
Fixpoint val_bits (n : nat) (v : Z) : list bool :=
  match n with O => [] | S n => Z.testbit v (Z.of_nat n) :: val_bits n v end.

(** What a decoder still has to read. *)
Definition dec_bits (d : nr_rlc_pdu_decoder_t) : list bool :=
  drop (Z.to_nat (8 * d_byte d + d_bit d)) (bytes_bits (d_buffer d)).
Definition dec_wf (d : nr_rlc_pdu_decoder_t) : Prop :=
  d_error d = false /\ 0 <= d_byte d <= d_size d /\ 0 <= d_bit d < 8 /\
  d_size d = Z.of_nat (length (d_buffer d)) /\ (d_byte d = d_size d -> d_bit d = 0) /\
  Forall is_byte (d_buffer d).

(** What an encoder has written: whole bytes, then the low bits of the current one. *)
Definition enc_bits (e : nr_rlc_pdu_encoder_t) : list bool :=
  bytes_bits (take (Z.to_nat (e_byte e)) (e_buffer e)) ++
  match e_buffer e !! Z.to_nat (e_byte e) with
  | Some b => val_bits (Z.to_nat (e_bit e)) b
  | None => []
  end.
Definition enc_wf (e : nr_rlc_pdu_encoder_t) : Prop :=
  0 <= e_byte e <= e_size e /\ 0 <= e_bit e < 8 /\
  e_size e <= Z.of_nat (length (e_buffer e)) /\ (e_byte e = e_size e -> e_bit e = 0) /\
  Forall is_byte (e_buffer e).

(** ** Lemmas on streams of bits *)

Lemma length_bytes_bits l : length (bytes_bits l) = (8 * length l)%nat.
Proof. induction l as [|b l IH]; [done|]. simpl in *. rewrite IH. lia. Qed.

Lemma bytes_bits_app l1 l2 : bytes_bits (l1 ++ l2) = bytes_bits l1 ++ bytes_bits l2.
Proof. apply flat_map_app. Qed.

Lemma drop_bytes_bits i l : drop (8 * i) (bytes_bits l) = bytes_bits (drop i l).
Proof.
  revert l; induction i as [|i IH]; intros l; [done|].
  destruct l as [|b l]; [by rewrite !drop_nil|].
  replace (8 * S i)%nat with (8 + 8 * i)%nat by lia.
  change (bytes_bits (b :: l)) with (byte_bits b ++ bytes_bits l).
  rewrite drop_app_add' by done. apply IH.
Qed.

Lemma take_bytes_bits i l : take (8 * i) (bytes_bits l) = bytes_bits (take i l).
Proof.
  revert l; induction i as [|i IH]; intros l; [done|].
  destruct l as [|b l]; [done|].
  replace (8 * S i)%nat with (8 + 8 * i)%nat by lia.
  change (bytes_bits (b :: l)) with (byte_bits b ++ bytes_bits l).
  rewrite take_app_add' by done. rewrite IH. done.
Qed.

Lemma land_shiftr_testbit b n : 0 <= n -> Z.land (Z.shiftr b n) 1 = b2z (Z.testbit b n).
Proof.
  intros Hn. change 1 with (Z.ones 1) at 1. rewrite Z.land_ones by lia.
  rewrite Z.shiftr_div_pow2 by lia. change (2 ^ 1) with 2.
  rewrite <- Z.testbit_spec' by lia. by destruct (Z.testbit b n).
Qed.

Lemma lor_shiftl_b2z v b : Z.lor (Z.shiftl v 1) (b2z b) = 2 * v + b2z b.
Proof.
  rewrite Z.shiftl_mul_pow2 by lia. change (2 ^ 1) with 2.
  rewrite (Z.mul_comm v). destruct b; simpl b2z; [|by rewrite Z.lor_0_r, Z.add_0_r].
  rewrite <- Z.lxor_lor; [rewrite <- Z.add_nocarry_lxor; [done|]|];
    apply Z.bits_inj'; intros n Hn; rewrite Z.land_spec, Z.bits_0;
    (destruct (decide (n = 0)) as [->|]; [by rewrite Z.testbit_even_0|]);
    change 1 with (Z.ones 1); rewrite (Z.ones_spec_high 1 n) by lia; apply andb_false_r.
Qed.

Lemma drop_bits_at d b :
  dec_wf d -> d_buffer d !! Z.to_nat (d_byte d) = Some b ->
  dec_bits d = drop (Z.to_nat (d_bit d)) (byte_bits b)
               ++ bytes_bits (drop (S (Z.to_nat (d_byte d))) (d_buffer d)).
Proof.
  intros (_ & Hb & Hk & _) E. unfold dec_bits.
  rewrite Z2Nat.inj_add, Z2Nat.inj_mul by lia. change (Z.to_nat 8) with 8%nat.
  rewrite <- drop_drop, drop_bytes_bits, (drop_S _ _ _ E).
  change (bytes_bits (b :: ?l)) with (byte_bits b ++ bytes_bits l).
  rewrite drop_app_le; [done|]. simpl. lia.
Qed.

#[local] Arguments Z.testbit : simpl never.
#[local] Arguments byte_bits : simpl never.

Ltac cases_to k :=
  let H := fresh in
  assert (H : k = 0 \/ k = 1 \/ k = 2 \/ k = 3 \/ k = 4 \/ k = 5 \/ k = 6 \/ k = 7) by lia;
  destruct H as [H|[H|[H|[H|[H|[H|[H|H]]]]]]].

(** A decoder that is not at the end reads the next bit of its stream. *)
Lemma get_bit_ok d :
  dec_wf d -> d_byte d < d_size d ->
  exists b r d', dec_bits d = b :: r /\ get_bit d = Done (b2z b, d') /\
    dec_wf d' /\ dec_bits d' = r /\ d_buffer d' = d_buffer d /\ d_size d' = d_size d.
Proof.
  intros Hwf Hlt. pose proof Hwf as (He & Hb & Hk & Hsz & Hz & HB).
  destruct (lookup_lt_is_Some_2 (d_buffer d) (Z.to_nat (d_byte d))) as [b E]; [lia|].
  rewrite (drop_bits_at d b Hwf E). unfold get_bit.
  destruct (d_byte d >=? d_size d) eqn:C; [zbool; lia|].
  erewrite rd_done by (lia || exact E). cbn -[Z.land Z.shiftr Z.testbit].
  rewrite land_shiftr_testbit by lia.
  exists (Z.testbit b (7 - d_bit d)),
    (drop (S (Z.to_nat (d_bit d))) (byte_bits b)
     ++ bytes_bits (drop (S (Z.to_nat (d_byte d))) (d_buffer d))).
  eexists. split; [|split; [reflexivity|]].
  { cases_to (d_bit d); rewrite H; reflexivity. }
  destruct (1 + d_bit d =? 8) eqn:E8; zbool; cbn.
  - split; [unfold dec_wf; cbn; split_and!; done || lia|].
    split; [|done].
    replace (d_bit d) with 7 by lia. unfold dec_bits; cbn [d_byte d_bit d_buffer].
    change (drop (S (Z.to_nat 7)) (byte_bits b)) with (@nil bool).
    rewrite <- drop_bytes_bits. simpl app. f_equal. lia.
  - set (d' := mk_dec _ _ _ _ _).
    assert (Hwf' : dec_wf d') by (unfold dec_wf; cbn; split_and!; done || lia).
    split; [done|]. split; [|done].
    rewrite (drop_bits_at d' b Hwf' E). cbn [d' d_byte d_bit d_buffer].
    replace (Z.to_nat (1 + d_bit d)) with (S (Z.to_nat (d_bit d))) by lia. done.
Qed.

Lemma dec_bits_length d :
  dec_wf d -> Z.of_nat (length (dec_bits d)) = 8 * (d_size d - d_byte d) - d_bit d.
Proof.
  intros (_ & Hb & Hk & Hsz & Hz & _). unfold dec_bits.
  rewrite length_drop, length_bytes_bits. lia.
Qed.

Lemma get_bits_loop_ok n : forall acc d, dec_wf d -> (n <= length (dec_bits d))%nat ->
  exists d', get_bits_loop n acc d = Done (bits_val acc (take n (dec_bits d)), d') /\
    dec_wf d' /\ dec_bits d' = drop n (dec_bits d) /\
    d_buffer d' = d_buffer d /\ d_size d' = d_size d.
Proof.
  induction n as [|n IH]; intros acc d Hwf Hn; [eexists; split; [reflexivity|done]|].
  pose proof (dec_bits_length d Hwf). pose proof Hwf as (_ & ? & ? & _).
  destruct (get_bit_ok d Hwf) as (b & r & d1 & E & G & W & D & B & S); [lia|].
  rewrite E in *. simpl. rewrite G. simpl.
  pose proof W as (-> & _). rewrite lor_shiftl_b2z.
  destruct (IH (2 * acc + b2z b) d1 W) as (d' & G' & W' & D' & B' & S');
    [rewrite D; simpl in Hn; lia|].
  rewrite G', D. eexists; split; [reflexivity|]. rewrite D', D. split_and!; congruence || done.
Qed.

(** [nr_rlc_pdu_decoder_get_bits] takes [count] bits off the stream. *)
Lemma get_bits_ok d count :
  dec_wf d -> 0 <= count <= 31 -> count <= Z.of_nat (length (dec_bits d)) ->
  exists d', nr_rlc_pdu_decoder_get_bits d count
      = Done (bits_val 0 (take (Z.to_nat count) (dec_bits d)), d') /\
    dec_wf d' /\ dec_bits d' = drop (Z.to_nat count) (dec_bits d) /\
    d_buffer d' = d_buffer d /\ d_size d' = d_size d.
Proof.
  intros. unfold nr_rlc_pdu_decoder_get_bits. cif; zbool; [lia|].
  apply get_bits_loop_ok; [done|lia].
Qed.

Lemma get_bits_loop_short n : forall acc d, dec_wf d -> (length (dec_bits d) < n)%nat ->
  exists d', get_bits_loop n acc d = Done (-1, d') /\ d_error d' = true.
Proof.
  induction n as [|n IH]; intros acc d Hwf Hn; [lia|].
  pose proof (dec_bits_length d Hwf). pose proof Hwf as (_ & ? & ? & _ & Hz & _).
  destruct (decide (d_byte d < d_size d)) as [Hlt|Hge].
  - destruct (get_bit_ok d Hwf Hlt) as (b & r & d1 & E & G & W & D & _).
    simpl. rewrite G. simpl. pose proof W as (-> & _).
    apply IH; [done|]. rewrite E in Hn. simpl in Hn. rewrite D. lia.
  - simpl. unfold get_bit. destruct (d_byte d >=? d_size d) eqn:C; [|zbool; lia].
    eexists; split; reflexivity.
Qed.

(** Too few bits left: -1 and the error flag, never a read outside the buffer. *)
Lemma get_bits_short d count :
  dec_wf d -> 0 <= count <= 31 -> Z.of_nat (length (dec_bits d)) < count ->
  exists d', nr_rlc_pdu_decoder_get_bits d count = Done (-1, d') /\ d_error d' = true.
Proof.
  intros. unfold nr_rlc_pdu_decoder_get_bits. cif; zbool; [lia|].
  apply get_bits_loop_short; [done|lia].
Qed.

(** ** The encoder appends to its stream *)

Definition shift_in (b : Z) (bit : bool) : Z :=
  let b := u8 (Z.shiftl b 1) in if bit then Z.lor b 1 else b.

Lemma shift_in_byte b bit : is_byte (shift_in b bit).
Proof.
  unfold shift_in, is_byte.
  assert (H : 0 <= u8 (Z.shiftl b 1) < 256) by (apply Z.mod_pos_bound; lia).
  destruct bit; [|done].
  split; [apply Z.lor_nonneg; lia|].
  change 256 with (2 ^ 8). apply Z.log2_lt_cancel. change (Z.log2 (2 ^ 8)) with 8.
  rewrite Z.log2_lor by lia. change (Z.log2 1) with 0.
  pose proof (Z.log2_nonneg (u8 (Z.shiftl b 1))).
  rewrite Z.max_l by done.
  destruct (decide (u8 (Z.shiftl b 1) = 0)) as [->|]; [done|].
  apply Z.log2_lt_pow2; lia.
Qed.

Lemma shift_in_testbit b bit n :
  0 <= n < 8 ->
  Z.testbit (shift_in b bit) n = if n =? 0 then bit else Z.testbit b (n - 1).
Proof.
  intros Hn.
  assert (Hl : Z.testbit (u8 (Z.shiftl b 1)) n = if n =? 0 then false else Z.testbit b (n - 1)).
  { unfold u8. rewrite Z.mod_pow2_bits_low by lia. rewrite Z.shiftl_spec by lia.
    destruct (n =? 0) eqn:E; zbool; [|done]. rewrite Z.testbit_neg_r by lia. done. }
  unfold shift_in. destruct bit; [rewrite Z.lor_spec|]; rewrite Hl.
  - destruct (n =? 0) eqn:E; zbool; [subst; done|].
    change 1 with (Z.ones 1) at 2. rewrite Z.ones_spec_high by lia. apply orb_false_r.
  - done.
Qed.

Lemma val_bits_shift_in k b bit :
  (k < 8)%nat -> val_bits (S k) (shift_in b bit) = val_bits k b ++ [bit].
Proof.
  intros Hk. cut (forall m, (m <= k)%nat ->
    val_bits (S m) (shift_in b bit) = val_bits m b ++ [bit]); [intros H; by apply H|].
  induction m as [|m IH]; intros Hm.
  - simpl. by rewrite shift_in_testbit by lia.
  - change (val_bits (S (S m)) ?x) with (Z.testbit x (Z.of_nat (S m)) :: val_bits (S m) x).
    rewrite IH, shift_in_testbit by lia. destruct (Z.of_nat (S m) =? 0) eqn:E; zbool; [lia|].
    simpl. f_equal. f_equal. lia.
Qed.

Lemma val_bits_byte b : val_bits 8 b = byte_bits b.
Proof. done. Qed.

(** [put_bit] on an encoder with room left. *)
Lemma put_bit_ok e (bit : bool) z :
  enc_wf e -> e_byte e < e_size e -> bit = negb (z =? 0) ->
  exists e', put_bit e z = Done e' /\ enc_wf e' /\ enc_bits e' = enc_bits e ++ [bit] /\
    e_size e' = e_size e /\ length (e_buffer e') = length (e_buffer e) /\
    8 * e_byte e' + e_bit e' = 8 * e_byte e + e_bit e + 1 /\
    drop (S (Z.to_nat (e_byte e))) (e_buffer e') = drop (S (Z.to_nat (e_byte e))) (e_buffer e).
Proof.
  intros (Hb & Hk & Hsz & Hz & HB) Hlt ->.
  destruct (lookup_lt_is_Some_2 (e_buffer e) (Z.to_nat (e_byte e))) as [b E]; [lia|].
  unfold put_bit. destruct (e_byte e =? e_size e) eqn:C; [zbool; lia|].
  erewrite rd_done by (lia || exact E). simpl.
  replace (if z =? 0 then u8 (Z.shiftl b 1) else Z.lor (u8 (Z.shiftl b 1)) 1)
    with (shift_in b (negb (z =? 0))) by (unfold shift_in; by destruct (z =? 0)).
  rewrite wr_done by lia. simpl. set (s := shift_in b _).
  assert (Htk : forall l : list Z, take (S (Z.to_nat (e_byte e))) (<[Z.to_nat (e_byte e):=s]> (e_buffer e))
     = take (Z.to_nat (e_byte e)) (e_buffer e) ++ [s]).
  { intros _. erewrite take_S_r by (apply list_lookup_insert_eq; lia).
    by rewrite take_insert_ge by lia. }
  assert (HF : Forall is_byte (<[Z.to_nat (e_byte e):=s]> (e_buffer e)))
    by (apply Forall_insert; [done|apply shift_in_byte]).
  eexists; split; [reflexivity|].
  unfold enc_bits at 2. rewrite E.
  destruct (1 + e_bit e =? 8) eqn:E8; zbool; cbn.
  - split_and!; rewrite ?length_insert; try done; try lia.
    + unfold enc_wf; cbn. rewrite length_insert. split_and!; done || lia.
    + unfold enc_bits; cbn. replace (Z.to_nat (1 + e_byte e)) with (S (Z.to_nat (e_byte e))) by lia.
      rewrite (Htk []), bytes_bits_app, <- !app_assoc. f_equal.
      replace (Z.to_nat (e_bit e)) with 7%nat by lia.
      rewrite <- (val_bits_shift_in 7) by lia. fold s.
      change (bytes_bits [s]) with (val_bits 8 s ++ []).
      case_match; change (val_bits (Z.to_nat 0) ?x) with (@nil bool);
        by rewrite !app_nil_r.
    + rewrite drop_insert_lt by lia. done.
  - split_and!; rewrite ?length_insert; try done; try lia.
    + unfold enc_wf; cbn. rewrite length_insert. split_and!; done || lia.
    + unfold enc_bits; cbn. rewrite take_insert_ge by lia.
      rewrite list_lookup_insert_eq by lia.
      rewrite <- app_assoc. f_equal.
      replace (Z.to_nat (1 + e_bit e)) with (S (Z.to_nat (e_bit e))) by lia.
      apply val_bits_shift_in. lia.
    + rewrite drop_insert_lt by lia. done.
Qed.

Lemma land_pow2_zero v n : 0 <= n -> negb (Z.land v (2 ^ n) =? 0) = Z.testbit v n.
Proof.
  intros Hn. destruct (Z.testbit v n) eqn:E.
  - apply negb_true_iff, Z.eqb_neq. intros H.
    assert (H1 : Z.testbit (Z.land v (2 ^ n)) n = true)
      by (rewrite Z.land_spec, E, Z.pow2_bits_true by lia; done).
    by rewrite H, Z.bits_0 in H1.
  - apply negb_false_iff, Z.eqb_eq, Z.bits_inj'. intros m Hm.
    rewrite Z.land_spec, Z.bits_0, Z.pow2_bits_eqb by lia.
    destruct (n =? m) eqn:C; zbool; [subst; by rewrite E | apply andb_false_r].
Qed.

Lemma put_bits_loop_ok n : forall v e,
  enc_wf e -> 8 * e_byte e + e_bit e + Z.of_nat n <= 8 * e_size e ->
  exists e', put_bits_loop n (if n is S m then 2 ^ Z.of_nat m else 0) v e = Done e' /\
    enc_wf e' /\ enc_bits e' = enc_bits e ++ val_bits n v /\
    e_size e' = e_size e /\ length (e_buffer e') = length (e_buffer e) /\
    8 * e_byte e' + e_bit e' = 8 * e_byte e + e_bit e + Z.of_nat n.
Proof.
  induction n as [|n IH]; intros v e W L.
  - exists e. simpl. rewrite app_nil_r. split_and!; try done. lia.
  - pose proof W as (? & ? & _).
    destruct (put_bit_ok e (Z.testbit v (Z.of_nat n)) (Z.land v (2 ^ Z.of_nat n)) W)
      as (e1 & P & W1 & B1 & S1 & L1 & K1 & _); [lia|by rewrite land_pow2_zero by lia|].
    destruct (IH v e1 W1) as (e' & P' & W' & B' & S' & L' & K'); [lia|].
    exists e'. simpl. rewrite P. simpl. split_and!; try congruence; try lia; try done.
    + rewrite <- P'. f_equal. rewrite Z.shiftr_div_pow2 by lia.
      destruct n as [|n]; [done|]. rewrite Nat2Z.inj_succ, Z.pow_succ_r by lia.
      rewrite Z.mul_comm. apply Z.div_mul. lia.
    + rewrite B', B1, <- app_assoc. done.
Qed.

(** [nr_rlc_pdu_encoder_put_bits] appends the [count] low bits of [value]. *)
Lemma put_bits_ok e v count :
  enc_wf e -> 1 <= count <= 31 -> 8 * e_byte e + e_bit e + count <= 8 * e_size e ->
  exists e', nr_rlc_pdu_encoder_put_bits e v count = Done e' /\
    enc_wf e' /\ enc_bits e' = enc_bits e ++ val_bits (Z.to_nat count) v /\
    e_size e' = e_size e /\ length (e_buffer e') = length (e_buffer e) /\
    8 * e_byte e' + e_bit e' = 8 * e_byte e + e_bit e + count.
Proof.
  intros W C L. unfold nr_rlc_pdu_encoder_put_bits. do 2 (cif; zbool; [lia|]).
  destruct (put_bits_loop_ok (Z.to_nat count) v e W) as (e' & P & R); [lia|].
  exists e'. split; [|destruct R as (? & ? & ? & ? & ?); split_and!; done || lia].
  rewrite <- P. destruct (Z.to_nat count) eqn:En; [lia|].
  rewrite Z.shiftl_mul_pow2, Z.mul_1_l by lia. f_equal. f_equal. lia.
Qed.

(** An encoder without room left stops the program. *)
Lemma put_bit_full e z : e_byte e = e_size e -> put_bit e z = Exit.
Proof. intros H. unfold put_bit. rewrite H, Z.eqb_refl. done. Qed.

Lemma enc_bits_aligned e :
  e_bit e = 0 -> enc_bits e = bytes_bits (take (Z.to_nat (e_byte e)) (e_buffer e)).
Proof. intros H. unfold enc_bits. rewrite H. case_match; apply app_nil_r. Qed.

Lemma length_val_bits n v : length (val_bits n v) = n.
Proof. induction n; simpl; congruence. Qed.

Lemma bits_val_app acc l1 l2 : bits_val acc (l1 ++ l2) = bits_val (bits_val acc l1) l2.
Proof. revert acc; induction l1; simpl; auto. Qed.

Lemma bits_val_val_bits n v acc :
  bits_val acc (val_bits n v) = acc * 2 ^ Z.of_nat n + v mod 2 ^ Z.of_nat n.
Proof.
  revert acc; induction n as [|n IH]; intros acc; simpl.
  - rewrite Z.mod_1_r. lia.
  - rewrite IH. replace (Z.of_nat (S n)) with (Z.of_nat n + 1) by lia.
    rewrite Z.pow_add_r by lia. change (2 ^ 1) with 2.
    rewrite (Z.rem_mul_r v (2 ^ Z.of_nat n) 2) by lia.
    rewrite <- Z.testbit_spec' by lia.
    destruct (Z.testbit v (Z.of_nat n)); simpl; lia.
Qed.

Lemma bits_val_small n v :
  0 <= v < 2 ^ Z.of_nat n -> bits_val 0 (val_bits n v) = v.
Proof. intros. rewrite bits_val_val_bits, Z.mod_small by done. lia. Qed.

Lemma dec_init_wf buf : Forall is_byte buf ->
  dec_wf (nr_rlc_pdu_decoder_init buf (Z.of_nat (length buf))).
Proof. intros H. unfold dec_wf; cbn. split_and!; done || lia. Qed.

Lemma dec_init_bits buf : forall size, dec_bits (nr_rlc_pdu_decoder_init buf size) = bytes_bits buf.
Proof. done. Qed.

Lemma enc_init_wf buf size : Forall is_byte buf -> 0 <= size <= Z.of_nat (length buf) ->
  enc_wf (nr_rlc_pdu_encoder_init buf size).
Proof. intros H L. unfold enc_wf; cbn. split_and!; done || lia. Qed.

Lemma enc_init_bits buf size : enc_bits (nr_rlc_pdu_encoder_init buf size) = [].
Proof. by rewrite enc_bits_aligned. Qed.

(** ** Sequences of fields *)

(** The fields of a header: values with the number of bits of each. *)
Fixpoint put_fields (e : nr_rlc_pdu_encoder_t) (fs : list (Z * Z)) : outcome nr_rlc_pdu_encoder_t :=
  match fs with
  | [] => Done e
  | (v, c) :: r => e ← nr_rlc_pdu_encoder_put_bits e v c; put_fields e r
  end.
Fixpoint get_fields (d : nr_rlc_pdu_decoder_t) (cs : list Z)
  : outcome (list Z * nr_rlc_pdu_decoder_t) :=
  match cs with
  | [] => Done ([], d)
  | c :: r =>
      '(v, d) ← nr_rlc_pdu_decoder_get_bits d c;
      '(vs, d) ← get_fields d r;
      Done (v :: vs, d)
  end.

Definition field_ok (f : Z * Z) : Prop := 1 <= f.2 <= 31 /\ 0 <= f.1 < 2 ^ f.2.
Definition fields_width (fs : list (Z * Z)) : Z := foldr (fun f a => f.2 + a) 0 fs.
Definition fields_bits (fs : list (Z * Z)) : list bool :=
  flat_map (fun f => val_bits (Z.to_nat f.2) f.1) fs.

Lemma fields_width_pos fs : Forall field_ok fs -> 0 <= fields_width fs.
Proof. induction 1 as [|[v c] r [H _] _ IH]; simpl in *; lia. Qed.

Lemma put_fields_ok fs : forall e,
  enc_wf e -> Forall (fun f => 1 <= f.2 <= 31) fs ->
  8 * e_byte e + e_bit e + fields_width fs <= 8 * e_size e ->
  exists e', put_fields e fs = Done e' /\ enc_wf e' /\
    enc_bits e' = enc_bits e ++ fields_bits fs /\ e_size e' = e_size e /\
    length (e_buffer e') = length (e_buffer e) /\
    8 * e_byte e' + e_bit e' = 8 * e_byte e + e_bit e + fields_width fs.
Proof.
  induction fs as [|[v c] fs IH]; intros e W F L; simpl in *.
  - exists e. rewrite app_nil_r. split_and!; done || lia.
  - apply Forall_cons in F as [Hc F]. simpl in Hc.
    assert (0 <= fields_width fs) by
      (clear -F; induction F; simpl in *; lia).
    destruct (put_bits_ok e v c W Hc) as (e1 & P & W1 & B1 & S1 & L1 & K1); [lia|].
    destruct (IH e1 W1 F) as (e' & P' & W' & B' & S' & L' & K'); [lia|].
    exists e'. rewrite P. simpl. rewrite B', B1, <- app_assoc. split_and!; done || congruence || lia.
Qed.

Lemma get_fields_ok fs : forall d rest,
  dec_wf d -> Forall field_ok fs -> dec_bits d = fields_bits fs ++ rest ->
  exists d', get_fields d (map snd fs) = Done (map fst fs, d') /\ dec_wf d' /\ dec_bits d' = rest /\
    d_buffer d' = d_buffer d /\ d_size d' = d_size d.
Proof.
  induction fs as [|[v c] fs IH]; intros d rest W F B; simpl in *.
  - exists d. done.
  - apply Forall_cons in F as [[Hc Hv] F]. simpl in Hc, Hv. rewrite <- app_assoc in B.
    assert (Hlen : length (val_bits (Z.to_nat c) v) = Z.to_nat c) by apply length_val_bits.
    destruct (get_bits_ok d c W) as (d1 & G & W1 & B1 & U1 & S1); [lia|..].
    { rewrite B, length_app, Hlen. lia. }
    rewrite B, take_app_length', drop_app_length' in * by done.
    destruct (IH d1 rest W1 F B1) as (d' & G' & W' & B' & U' & S').
    exists d'. rewrite G. simpl. rewrite G'. simpl.
    rewrite bits_val_small by (rewrite Z2Nat.id by lia; done).
    split_and!; done || congruence.
Qed.

Lemma Forall_field_width fs : Forall field_ok fs -> Forall (fun f : Z * Z => 1 <= f.2 <= 31) fs.
Proof. intros F. eapply Forall_impl; [exact F|]. by intros ? [? _]. Qed.

(** C39. Decoding undoes encoding: any sequence of header fields, each of 1 to
    31 bits with a value that fits, whose total width is a whole number of
    bytes, written by [nr_rlc_pdu_encoder_put_bits] into a large enough buffer
    (whatever it contained), is read back value by value by
    [nr_rlc_pdu_decoder_get_bits]; neither side stops nor leaves the buffer. *)
Theorem codec_roundtrip (fs : list (Z * Z)) (buf : list Z) (size n : Z) :
  Forall field_ok fs -> fields_width fs = 8 * n -> n <= size <= Z.of_nat (length buf) ->
  Forall is_byte buf ->
  exists e d,
    put_fields (nr_rlc_pdu_encoder_init buf size) fs = Done e /\
    e_byte e = n /\ e_bit e = 0 /\
    get_fields (nr_rlc_pdu_decoder_init (take (Z.to_nat n) (e_buffer e)) n) (map snd fs)
    = Done (map fst fs, d) /\ d_error d = false.
Proof.
  intros F Hw Hn HB. pose proof (fields_width_pos fs F).
  destruct (put_fields_ok fs (nr_rlc_pdu_encoder_init buf size))
    as (e & P & W & B & S & L & K);
    [by apply enc_init_wf; [|lia] | by apply Forall_field_width | simpl; lia|].
  rewrite enc_init_bits in B. simpl in S, L, K. pose proof W as (? & ? & _ & _ & HB').
  rewrite enc_bits_aligned in B by lia.
  replace (e_byte e) with n in B by lia.
  set (b := take (Z.to_nat n) (e_buffer e)) in *.
  assert (Hlb : Z.of_nat (length b) = n) by (unfold b; rewrite length_take; lia).
  destruct (get_fields_ok fs (nr_rlc_pdu_decoder_init b n) []) as (d & G & D & _).
  { rewrite <- Hlb. apply dec_init_wf. by apply Forall_take. }
  { done. }
  { rewrite dec_init_bits, B, app_nil_r. done. }
  exists e, d. split_and!; try done; try lia. apply D.
Qed.

Lemma codec_roundtrip_witness :
  exists e d,
    put_fields (nr_rlc_pdu_encoder_init [7; 7; 7] 3) [(1, 1); (0, 1); (2, 2); (0x123, 12)] = Done e /\
    e_byte e = 2 /\ e_bit e = 0 /\
    get_fields (nr_rlc_pdu_decoder_init (take (Z.to_nat 2) (e_buffer e)) 2) [1; 1; 2; 12]
    = Done ([1; 0; 2; 0x123], d) /\ d_error d = false.
Proof.
  apply (codec_roundtrip [(1, 1); (0, 1); (2, 2); (0x123, 12)] [7; 7; 7] 3 2).
  - repeat constructor; simpl; lia.
  - reflexivity.
  - simpl; lia.
  - repeat constructor; unfold is_byte; lia.
Defined.

(** ** The receive list is kept sorted *)

(** The order of the list: by the key of the SN (its distance to the modulus
    base), then by the segment offset. *)
Definition pdu_le (key : Z -> Z) (a b : nr_rlc_pdu_t) : Prop :=
  key (pdu_sn a) < key (pdu_sn b) \/
  (key (pdu_sn a) = key (pdu_sn b) /\ pdu_so a <= pdu_so b).

Lemma pdu_list_add_sorted key l p :
  (forall q, In q l -> key (pdu_sn q) = key (pdu_sn p) -> pdu_sn q = pdu_sn p) ->
  StronglySorted (pdu_le key) l ->
  StronglySorted (pdu_le key) (nr_rlc_pdu_list_add (fun a b => key a - key b) l p).
Proof.
  unfold nr_rlc_pdu_list_add. induction l as [|c r IH]; intros Hinj HS; simpl.
  - repeat constructor.
  - apply StronglySorted_inv in HS as [HS HF].
    destruct (pdu_after _ p c) eqn:E.
    + constructor; [by constructor|]. unfold pdu_after in E.
      assert (Hpc : pdu_le key p c).
      { unfold pdu_le. zbool. destruct E as [E|E]; zbool; [lia|].
        right. split; [congruence|lia]. }
      constructor; [done|]. eapply Forall_impl; [exact HF|]. unfold pdu_le in *. simpl. lia.
    + constructor; [apply IH; [|done]; intros; apply Hinj; simpl; auto|].
      assert (Hcp : pdu_le key c p).
      { unfold pdu_after in E. zbool. unfold pdu_le.
        destruct (decide (key (pdu_sn c) = key (pdu_sn p))) as [Ek|Ek]; [|lia].
        pose proof (Hinj c (or_introl eq_refl) Ek) as Es.
        destruct H0 as [H0|H0]; zbool; [done|lia]. }
      apply Forall_forall. intros q Hq.
      rewrite insert_before_perm in Hq.
      apply elem_of_cons in Hq as [->|Hq]; [done|].
      rewrite Forall_forall in HF. by apply HF.
Qed.

Lemma pdu_list_add_perm cmp l p : nr_rlc_pdu_list_add cmp l p ≡ₚ p :: l.
Proof. apply insert_before_perm. Qed.

(** [nr_rlc_pdu_decoder_get_bits] followed by the macro [R]: go to [err] when the
    decoder is in error. *)
Definition get_or {A} (d : nr_rlc_pdu_decoder_t) (count : Z) (err : outcome A)
    (k : Z -> nr_rlc_pdu_decoder_t -> outcome A) : outcome A :=
  '(v, d) ← nr_rlc_pdu_decoder_get_bits d count;
  if d_error d then err else k v d.

Lemma get_or_ok {A} d v c rest (err : outcome A) k :
  dec_wf d -> 1 <= c <= 31 -> 0 <= v < 2 ^ c ->
  dec_bits d = val_bits (Z.to_nat c) v ++ rest ->
  exists d', get_or d c err k = k v d' /\ dec_wf d' /\ dec_bits d' = rest /\
    d_size d' = d_size d.
Proof.
  intros W Hc Hv B. destruct (get_fields_ok [(v, c)] d rest W) as (d' & G & W' & B' & _ & S').
  - constructor; [done|constructor].
  - simpl. by rewrite app_nil_r.
  - exists d'. split; [|done]. unfold get_or. simpl in G. invd G.
    destruct x as [v' d1]. injection G as -> ->. rewrite H. simpl. by destruct W' as (-> & _).
Qed.

(** A header followed by data. *)

(** [B] is the header made of the fields [fs]. *)
Definition header_of (fs : list (Z * Z)) (B : list Z) : Prop :=
  Forall is_byte B /\ bytes_bits B = fields_bits fs.

Lemma length_fields_bits fs :
  Forall (fun f : Z * Z => 1 <= f.2 <= 31) fs -> Z.of_nat (length (fields_bits fs)) = fields_width fs.
Proof.
  induction 1 as [|[v c] r H _ IH]; [done|]. simpl in *.
  rewrite length_app, length_val_bits. lia.
Qed.

Lemma header_of_length fs B n :
  Forall (fun f : Z * Z => 1 <= f.2 <= 31) fs -> fields_width fs = 8 * n -> header_of fs B ->
  Z.of_nat (length B) = n.
Proof.
  intros F Hw [_ HB]. pose proof (length_fields_bits fs F) as L.
  rewrite <- HB, length_bytes_bits in L. lia.
Qed.

(** Writing the fields [fs] and copying [data] behind them. *)
Lemma put_header fs buf size n data :
  Forall (fun f : Z * Z => 1 <= f.2 <= 31) fs -> fields_width fs = 8 * n ->
  0 <= n -> n + Z.of_nat (length data) <= size <= Z.of_nat (length buf) -> Forall is_byte buf ->
  exists e B, put_fields (nr_rlc_pdu_encoder_init buf size) fs = Done e /\ e_byte e = n /\
    header_of fs B /\
    exists buf', blit (e_buffer e) n data = Done buf' /\
      take (Z.to_nat (n + Z.of_nat (length data))) buf' = B ++ data /\
      length buf' = length buf /\ (Forall is_byte data -> Forall is_byte buf').
Proof.
  intros F Hw Hn0 Hn HB.
  destruct (put_fields_ok fs (nr_rlc_pdu_encoder_init buf size))
    as (e & P & W & Bt & S & L & K); [by apply enc_init_wf; [|lia]|done|simpl; lia|].
  rewrite enc_init_bits in Bt. simpl in S, L, K, Bt. pose proof W as (? & ? & _ & _ & HB').
  rewrite enc_bits_aligned in Bt by lia. replace (e_byte e) with n in Bt by lia.
  exists e, (take (Z.to_nat n) (e_buffer e)). split; [done|]. split; [lia|].
  split; [split; [by apply Forall_take|done]|].
  rewrite blit_done by lia. eexists. split; [reflexivity|].
  split; [|split].
  - rewrite app_assoc. apply take_app_length'. rewrite length_app, length_take. lia.
  - rewrite !length_app, length_take, length_drop. lia.
  - intros Hd. repeat apply Forall_app_2; [by apply Forall_take|done|by apply Forall_drop].
Qed.
