(* ===== verification/RlcSdu.v ===== *)
(** RLC SDUs and SDU segments on the transmit side
    (openair2/LAYER2/nr_rlc/nr_rlc_sdu.c and .h), and what the three kinds of
    RLC entity share (nr_rlc_entity.h): statistics, buffer status, callbacks.

    Segments of one SDU share the [nr_rlc_sdu_t] they point to (its SN, its
    retransmission and reference counters), so the SDUs live in a store
    [sdu_heap] and a segment holds the address of its SDU.  A segment also has
    its own address: the C code keeps pointers to the last segment of a list. *)

From S2P Require Import Prelude.

Definition NR_SDU_MAX : Z := 16000.

Record nr_rlc_sdu_t := mk_sdu {
  sdu_sn : Z;
  sdu_upper_layer_id : Z;
  sdu_data : list Z;
  sdu_size : Z;
  sdu_retx_count : Z;
  sdu_ref_count : Z;
  sdu_free_count : Z;
  sdu_time_of_arrival : Z
}.
#[export] Instance eta_sdu : Eta nr_rlc_sdu_t := fun r =>
  mk_sdu (sdu_sn r) (sdu_upper_layer_id r) (sdu_data r) (sdu_size r) (sdu_retx_count r)
    (sdu_ref_count r) (sdu_free_count r) (sdu_time_of_arrival r).

Record nr_rlc_sdu_segment_t := mk_seg {
  seg_id : nat;
  seg_sdu : nat;
  seg_size : Z;
  seg_so : Z;
  seg_is_first : bool;
  seg_is_last : bool
}.
#[export] Instance eta_seg : Eta nr_rlc_sdu_segment_t := fun r =>
  mk_seg (seg_id r) (seg_sdu r) (seg_size r) (seg_so r) (seg_is_first r) (seg_is_last r).

(** The store of SDUs and the next unused address. *)
Record sdu_heap := mk_heap {
  h_sdus : gmap nat nr_rlc_sdu_t;
  h_next : nat
}.
#[export] Instance eta_heap : Eta sdu_heap := fun r => mk_heap (h_sdus r) (h_next r).

Definition empty_heap : sdu_heap := mk_heap ∅ 0.

(** [seg->sdu]: undefined when the SDU has been freed. *)
Definition sdu_of (h : sdu_heap) (s : nr_rlc_sdu_segment_t) : outcome nr_rlc_sdu_t :=
  match h_sdus h !! seg_sdu s with Some u => Done u | None => Undef end.
Definition set_sdu (h : sdu_heap) (p : nat) (u : nr_rlc_sdu_t) : sdu_heap :=
  h <| h_sdus ::= fun m => <[p := u]> m |>.

Definition nr_rlc_new_sdu (h : sdu_heap) (buffer : list Z) (size upper_layer_id : Z)
  : outcome (nr_rlc_sdu_segment_t * sdu_heap) :=
  d ← slice buffer 0 size;
  let p := h_next h in
  let sdu := mk_sdu (-1) upper_layer_id d size (-1) 1 0 0 in
  Done (mk_seg (S p) p size 0 true true,
        mk_heap (<[p := sdu]> (h_sdus h)) (S (S p))).

(** Returns whether the SDU has been freed too. *)
Definition nr_rlc_free_sdu_segment (h : sdu_heap) (s : nr_rlc_sdu_segment_t)
  : outcome (bool * sdu_heap) :=
  u ← sdu_of h s;
  let u := u <| sdu_free_count ::= Z.add 1 |> in
  if sdu_free_count u =? sdu_ref_count u
  then Done (true, h <| h_sdus ::= delete (seg_sdu s) |>)
  else Done (false, set_sdu h (seg_sdu s) u).

(** The list up to and including the segment at address [i]. *)
Fixpoint cut_after (i : nat) (l : list nr_rlc_sdu_segment_t)
  : option (list nr_rlc_sdu_segment_t) :=
  match l with
  | [] => None
  | s :: r => if (seg_id s =? i)%nat then Some [s] else cons s <$> cut_after i r
  end.

(** [list] and [end_] are the two pointers the C function updates. *)
Definition nr_rlc_sdu_segment_list_append (l : list nr_rlc_sdu_segment_t) (end_ : option nat)
    (s : nr_rlc_sdu_segment_t) : outcome (list nr_rlc_sdu_segment_t * option nat) :=
  match l, end_ with
  | [], _ => Done ([s], Some (seg_id s))
  | _, None => Undef
  | _, Some i =>
      match cut_after i l with
      | Some l' => Done (l' ++ [s], Some (seg_id s))
      | None => Undef
      end
  end.

Fixpoint nr_rlc_sdu_segment_list_add (h : sdu_heap) (sn_compare : Z -> Z -> Z)
    (l : list nr_rlc_sdu_segment_t) (s : nr_rlc_sdu_segment_t)
  : outcome (list nr_rlc_sdu_segment_t) :=
  match l with
  | [] => Done [s]
  | c :: r =>
      cu ← sdu_of h c; su ← sdu_of h s;
      if (sn_compare (sdu_sn cu) (sdu_sn su) >? 0)
         || ((sdu_sn cu =? sdu_sn su) && (seg_so c >? seg_so s))
      then Done (s :: l)
      else r' ← nr_rlc_sdu_segment_list_add h sn_compare r s; Done (c :: r')
  end.

Fixpoint nr_rlc_free_sdu_segment_list (h : sdu_heap) (l : list nr_rlc_sdu_segment_t)
  : outcome sdu_heap :=
  match l with
  | [] => Done h
  | s :: r => '(_, h) ← nr_rlc_free_sdu_segment h s; nr_rlc_free_sdu_segment_list h r
  end.

(** The search of an SDU in the transmit list, as [discard_sdu] of the UM and AM
    entities does it: the segments before the first one of [sdu_id], that one, those after it. *)
Fixpoint find_sdu (h : sdu_heap) (sdu_id : Z) (l : list nr_rlc_sdu_segment_t)
  : outcome (list nr_rlc_sdu_segment_t * option (nr_rlc_sdu_segment_t * list nr_rlc_sdu_segment_t)) :=
  match l with
  | [] => Done ([], None)
  | s :: r =>
      u ← sdu_of h s;
      if sdu_upper_layer_id u =? sdu_id then Done ([], Some (s, r))
      else '(pre, x) ← find_sdu h sdu_id r; Done (s :: pre, x)
  end.

(** ** Shared by the entities *)

Record nr_rlc_statistics_t := mk_stats {
  txpdu_pkts : Z; txpdu_bytes : Z;
  txpdu_retx_pkts : Z; txpdu_retx_bytes : Z; txpdu_segmented : Z;
  txpdu_status_pkts : Z; txpdu_status_bytes : Z;
  rxpdu_pkts : Z; rxpdu_bytes : Z;
  rxpdu_dup_pkts : Z; rxpdu_dup_bytes : Z;
  rxpdu_dd_pkts : Z; rxpdu_dd_bytes : Z;
  rxpdu_ow_pkts : Z; rxpdu_ow_bytes : Z;
  txsdu_pkts : Z; txsdu_bytes : Z;
  rxsdu_pkts : Z; rxsdu_bytes : Z;
  rxsdu_dd_pkts : Z; rxsdu_dd_bytes : Z
}.
#[export] Instance eta_stats : Eta nr_rlc_statistics_t := fun r =>
  mk_stats (txpdu_pkts r) (txpdu_bytes r)
    (txpdu_retx_pkts r) (txpdu_retx_bytes r) (txpdu_segmented r)
    (txpdu_status_pkts r) (txpdu_status_bytes r)
    (rxpdu_pkts r) (rxpdu_bytes r) (rxpdu_dup_pkts r) (rxpdu_dup_bytes r)
    (rxpdu_dd_pkts r) (rxpdu_dd_bytes r) (rxpdu_ow_pkts r) (rxpdu_ow_bytes r)
    (txsdu_pkts r) (txsdu_bytes r) (rxsdu_pkts r) (rxsdu_bytes r)
    (rxsdu_dd_pkts r) (rxsdu_dd_bytes r).
Definition zero_stats : nr_rlc_statistics_t :=
  mk_stats 0 0 0 0 0 0 0 0 0 0 0 0 0 0 0 0 0 0 0 0 0.

Record nr_rlc_entity_buffer_status_t := mk_bs {
  bs_status_size : Z;
  bs_tx_size : Z;
  bs_retx_size : Z
}.
#[export] Instance eta_bs : Eta nr_rlc_entity_buffer_status_t := fun r =>
  mk_bs (bs_status_size r) (bs_tx_size r) (bs_retx_size r).

(** The calls an entity makes to the layers around it: the callbacks
    [deliver_sdu], [sdu_successful_delivery] and [max_retx_reached], and
    [time_average_add] of the time statistics. *)
Inductive event :=
| DeliverSdu (buf : list Z)
| SduSuccessfulDelivery (sdu_id : Z)
| MaxRetxReached
| TimeAverageAdd (now waited : Z).

(** ** Lemmas on lists of segments *)

Definition seg_end (l : list nr_rlc_sdu_segment_t) : option nat := seg_id <$> last l.

Lemma cut_after_last l i :
  NoDup (seg_id <$> l) -> seg_end l = Some i -> cut_after i l = Some l.
Proof.
  unfold seg_end. induction l as [|s r IH]; intros ND E; [done|]. simpl in *.
  apply NoDup_cons in ND as [Hnin ND].
  destruct r as [|s' r].
  - simpl in E. injection E as <-. by rewrite Nat.eqb_refl.
  - change (last (s :: s' :: r)) with (last (s' :: r)) in E.
    destruct (Nat.eqb_spec (seg_id s) i) as [He|Hne].
    + exfalso. apply Hnin. rewrite He.
      destruct (last (s' :: r)) as [t|] eqn:L; [|done]. injection E as <-.
      apply list_elem_of_fmap_2. apply last_Some_elem_of in L. done.
    + rewrite IH by done. done.
Qed.

(** With [end_] at the last segment, appending is appending. *)
Lemma list_append_ok l s :
  NoDup (seg_id <$> l) ->
  nr_rlc_sdu_segment_list_append l (seg_end l) s = Done (l ++ [s], Some (seg_id s)).
Proof.
  intros ND. unfold nr_rlc_sdu_segment_list_append.
  destruct l as [|c r]; [done|].
  destruct (seg_end (c :: r)) as [i|] eqn:E.
  - by rewrite cut_after_last.
  - unfold seg_end in E. apply fmap_None, last_None in E. done.
Qed.

Lemma seg_end_app l s : seg_end (l ++ [s]) = Some (seg_id s).
Proof. unfold seg_end. by rewrite last_snoc. Qed.

Lemma list_add_spec h cmp s : forall l l',
  nr_rlc_sdu_segment_list_add h cmp l s = Done l' ->
  exists l1 l2, l = l1 ++ l2 /\ l' = l1 ++ s :: l2.
Proof.
  induction l as [|c r IH]; simpl; intros l' E.
  - injection E as <-. by exists [], [].
  - invd E. invd E. revert E. cif.
    + intros [= <-]. by exists [], (c :: r).
    + intros Hd. invd Hd. injection Hd as <-.
      destruct (IH _ H1) as (l1 & l2 & -> & ->). by exists (c :: l1), l2.
Qed.

Lemma list_add_perm h cmp s l l' :
  nr_rlc_sdu_segment_list_add h cmp l s = Done l' -> l' ≡ₚ s :: l.
Proof.
  intros E. apply list_add_spec in E as (l1 & l2 & -> & ->).
  by rewrite Permutation_middle.
Qed.

(** ** Reference counting

    [heap_ok h segs]: [segs] are all the segments in use.  Every SDU of the
    store is referenced, as often as its counters say; every segment lies
    inside the data of an SDU of the store. *)
Definition seg_refs (p : nat) (segs : list nr_rlc_sdu_segment_t) : Z :=
  Z.of_nat (length (filter (fun s => seg_sdu s = p) segs)).

Definition seg_in (h : sdu_heap) (s : nr_rlc_sdu_segment_t) : Prop :=
  (seg_id s < h_next h)%nat /\
  exists u, h_sdus h !! seg_sdu s = Some u /\
    0 <= seg_so s /\ 0 <= seg_size s /\ seg_so s + seg_size s <= sdu_size u.

Definition sdu_ok (h : sdu_heap) (segs : list nr_rlc_sdu_segment_t) (p : nat) (u : nr_rlc_sdu_t)
  : Prop :=
  (p < h_next h)%nat /\ sdu_ref_count u - sdu_free_count u = seg_refs p segs /\
  0 < seg_refs p segs /\ 0 <= sdu_free_count u /\
  Z.of_nat (length (sdu_data u)) = sdu_size u /\ Forall (fun b => 0 <= b < 256) (sdu_data u).

Record heap_ok (h : sdu_heap) (segs : list nr_rlc_sdu_segment_t) : Prop := {
  ho_segs : Forall (seg_in h) segs;
  ho_sdus : map_Forall (sdu_ok h segs) (h_sdus h);
  ho_nodup : NoDup (seg_id <$> segs)
}.

(** The bytes of all the SDUs of the store. *)
Definition heap_bytes (h : sdu_heap) : Z :=
  map_fold (fun _ u acc => sdu_size u + acc) 0 (h_sdus h).

Lemma seg_refs_cons p s segs :
  seg_refs p (s :: segs) = seg_refs p segs + (if decide (seg_sdu s = p) then 1 else 0).
Proof. unfold seg_refs. rewrite filter_cons. case_decide; simpl; lia. Qed.

Lemma seg_refs_nonneg p segs : 0 <= seg_refs p segs.
Proof. unfold seg_refs. lia. Qed.

#[export] Instance seg_refs_proper p : Proper ((≡ₚ) ==> (=)) (seg_refs p).
Proof. intros l1 l2 E. unfold seg_refs. by rewrite E. Qed.

#[export] Instance heap_ok_proper h : Proper ((≡ₚ) ==> iff) (heap_ok h).
Proof.
  assert (H : forall l1 l2, l1 ≡ₚ l2 -> heap_ok h l1 -> heap_ok h l2).
  { intros l1 l2 E [A B C]. split.
    - by rewrite <- E.
    - intros p u Hp. destruct (B p u Hp) as (? & ? & ? & ?). unfold sdu_ok.
      rewrite <- E. done.
    - by rewrite <- E. }
  intros l1 l2 E. split; by apply H.
Qed.

Lemma heap_ok_perm h l1 l2 : l1 ≡ₚ l2 -> heap_ok h l1 -> heap_ok h l2.
Proof. intros E. by rewrite E. Qed.

Lemma heap_ok_empty : heap_ok empty_heap [].
Proof. split; [constructor| |constructor]. intros p u E. simpl in E. by rewrite lookup_empty in E. Qed.

(** With no segment in use the store is empty: nothing leaks. *)
Lemma heap_ok_nil h : heap_ok h [] -> h_sdus h = ∅.
Proof.
  intros [_ B _]. apply map_empty. intros p. destruct (h_sdus h !! p) as [u|] eqn:E; [|done].
  destruct (B p u E) as (_ & _ & Hpos & _). unfold seg_refs in Hpos. simpl in Hpos. lia.
Qed.

Lemma heap_ok_sdu_of h segs s :
  heap_ok h segs -> s ∈ segs ->
  exists u, sdu_of h s = Done u /\ h_sdus h !! seg_sdu s = Some u /\
    0 <= seg_so s /\ 0 <= seg_size s /\ seg_so s + seg_size s <= sdu_size u.
Proof.
  intros [A _ _] Hs. rewrite Forall_forall in A. destruct (A s Hs) as (_ & u & E & ?).
  exists u. unfold sdu_of. rewrite E. done.
Qed.

Lemma heap_bytes_insert h p u :
  h_sdus h !! p = None ->
  heap_bytes (set_sdu h p u) = heap_bytes h + sdu_size u.
Proof.
  intros E. unfold heap_bytes, set_sdu; simpl.
  rewrite map_fold_insert_L; [lia|intros; lia|done].
Qed.

Lemma heap_bytes_delete h p u :
  h_sdus h !! p = Some u ->
  heap_bytes h = heap_bytes (h <| h_sdus ::= delete p |>) + sdu_size u.
Proof.
  intros E. unfold heap_bytes; simpl.
  rewrite (map_fold_delete_L _ _ p u (h_sdus h)); [lia|intros; lia|done].
Qed.

(** Changing an SDU without changing its size. *)
Lemma heap_bytes_set h p u u' :
  h_sdus h !! p = Some u -> sdu_size u' = sdu_size u ->
  heap_bytes (set_sdu h p u') = heap_bytes h.
Proof.
  intros E Hs. rewrite (heap_bytes_delete h p u E).
  rewrite (heap_bytes_delete (set_sdu h p u') p u') by (simpl; apply lookup_insert_eq).
  rewrite Hs. unfold heap_bytes; simpl. by rewrite delete_insert_eq.
Qed.

Lemma seg_refs_fresh h segs p :
  heap_ok h segs -> h_sdus h !! p = None -> seg_refs p segs = 0.
Proof.
  intros [A _ _] E. unfold seg_refs.
  destruct (filter _ segs) as [|s l] eqn:Ef; [done|].
  assert (Hs : s ∈ filter (fun s => seg_sdu s = p) segs) by (rewrite Ef; left).
  apply list_elem_of_filter in Hs as [Hp Hs].
  rewrite Forall_forall in A. destruct (A s Hs) as (_ & u & Hu & _). congruence.
Qed.

Lemma new_sdu_ok h segs buffer size id s h' :
  heap_ok h segs -> nr_rlc_new_sdu h buffer size id = Done (s, h') ->
  Forall (fun b => 0 <= b < 256) buffer ->
  heap_ok h' (s :: segs) /\ heap_bytes h' = heap_bytes h + size /\
  s = mk_seg (S (h_next h)) (h_next h) size 0 true true /\
  h_sdus h !! seg_sdu s = None /\
  h_sdus h' = <[seg_sdu s := mk_sdu (-1) id (take (Z.to_nat size) buffer) size (-1) 1 0 0]> (h_sdus h).
Proof.
  intros Hok E HB. unfold nr_rlc_new_sdu in E. invd E. injection E as <- <-.
  pose proof H as (Hl & _ & Hsz & Hle)%slice_length.
  unfold slice in H. revert H. cif; [done|]. intros [= <-]. simpl Z.to_nat in *. rewrite drop_0 in *.
  assert (Hfresh : h_sdus h !! h_next h = None).
  { destruct (h_sdus h !! h_next h) as [u|] eqn:Eu; [|done].
    destruct (ho_sdus _ _ Hok _ _ Eu) as (? & _). lia. }
  split; [|split; [|split; [done|split; done]]].
  - split.
    + constructor.
      * split; simpl; [lia|]. eexists. rewrite lookup_insert_eq. split; [done|]. simpl. lia.
      * eapply Forall_impl; [apply (ho_segs _ _ Hok)|].
        intros t (Ht & u & Hu & ?). split; simpl; [lia|]. exists u.
        rewrite lookup_insert_ne; [done|]. intros Hc. rewrite <- Hc in Hu. congruence.
    + simpl. intros p u. rewrite lookup_insert. unfold sdu_ok. rewrite seg_refs_cons. cbn [seg_sdu h_next].
      case_decide as Hp.
      * subst p. intros [= <-]. rewrite (seg_refs_fresh h) by done.
        simpl. split_and!; try lia. by apply Forall_take.
      * intros Hu. destruct (ho_sdus _ _ Hok _ _ Hu) as (? & ? & ? & ? & ? & ?).
        split_and!; done || lia.
    + simpl. apply NoDup_cons. split; [|apply Hok].
      intros Hin. apply list_elem_of_fmap in Hin as (t & Ht & Hin).
      pose proof (ho_segs _ _ Hok) as A. rewrite Forall_forall in A.
      destruct (A t Hin) as (? & _). lia.
  - unfold heap_bytes; simpl. rewrite map_fold_insert_L; [simpl; lia|intros; lia|done].
Qed.

(** Freeing the segment [s]. *)
Lemma free_segment_ok h s segs :
  heap_ok h (s :: segs) ->
  exists u b h', h_sdus h !! seg_sdu s = Some u /\
    nr_rlc_free_sdu_segment h s = Done (b, h') /\ heap_ok h' segs /\
    h_next h' = h_next h /\
    heap_bytes h' = heap_bytes h - (if b : bool then sdu_size u else 0) /\
    h_sdus h' = (if b : bool then delete (seg_sdu s) (h_sdus h)
      else <[seg_sdu s := u <| sdu_free_count ::= Z.add 1 |>]> (h_sdus h)).
Proof.
  intros Hok. destruct (heap_ok_sdu_of h _ s Hok) as (u & E & Eu & Hb); [left|].
  pose proof (ho_sdus _ _ Hok _ _ Eu) as (Hn & Hc & Hp & Hf & Hl & HBy).
  rewrite seg_refs_cons, decide_True in Hc by done.
  pose proof (ho_segs _ _ Hok) as A. apply Forall_cons in A as [_ A].
  pose proof (ho_nodup _ _ Hok) as ND. simpl in ND. apply NoDup_cons in ND as [_ ND].
  unfold nr_rlc_free_sdu_segment. rewrite E. simpl.
  destruct (1 + sdu_free_count u =? sdu_ref_count u) eqn:Ef; zbool;
    eexists u, _, _; (split; [done|]); (split; [reflexivity|]).
  - split; [|split; [done|split; [rewrite (heap_bytes_delete h _ u Eu); simpl; lia|done]]].
    split; simpl; [|intros p u'; rewrite lookup_delete; case_decide as Hp'|done].
    + apply Forall_forall. intros t Ht. rewrite Forall_forall in A. destruct (A t Ht) as (? & u' & ? & ?).
      split; simpl; [done|]. exists u'. rewrite lookup_delete_ne; [done|]. intros Hc'.
      assert (0 < seg_refs (seg_sdu s) segs); [|lia].
      unfold seg_refs. assert (Hin : t ∈ filter (fun s0 => seg_sdu s0 = seg_sdu s) segs)
        by (apply list_elem_of_filter; done).
      destruct (filter _ segs); [by apply not_elem_of_nil in Hin|simpl; lia].
    + done.
    + intros Hu'. destruct (ho_sdus _ _ Hok _ _ Hu') as (? & Hr & Hpos & ? & ? & ?).
      rewrite seg_refs_cons, decide_False in Hr, Hpos by done.
      unfold sdu_ok; simpl. split_and!; done || lia.
  - split; [|split; [done|split; [rewrite (heap_bytes_set h _ u) by done; lia|done]]].
    split; simpl; [|intros p u'; rewrite lookup_insert; case_decide as Hp'|done].
    + eapply Forall_impl; [exact A|]. intros t (? & u' & Hu' & ?). split; simpl; [done|].
      rewrite lookup_insert. case_decide as Hd; [|by exists u'].
      rewrite <- Hd, Eu in Hu'. injection Hu' as <-. eexists; split; [done|]. simpl. done.
    + intros [= <-]. subst p. unfold sdu_ok; simpl.
      rewrite seg_refs_cons, decide_True in Hp by done.
      pose proof (seg_refs_nonneg (seg_sdu s) segs). split_and!; done || lia.
    + intros Hu'. destruct (ho_sdus _ _ Hok _ _ Hu') as (? & Hr & Hpos & ? & ? & ?).
      rewrite seg_refs_cons, decide_False in Hr, Hpos by done.
      unfold sdu_ok; simpl. split_and!; done || lia.
Qed.

(** Freeing a list of segments in use leaves the others in use. *)
Lemma free_list_ok l : forall h segs,
  heap_ok h (l ++ segs) ->
  exists h', nr_rlc_free_sdu_segment_list h l = Done h' /\ heap_ok h' segs.
Proof.
  induction l as [|s r IH]; intros h segs Hok; simpl; [eauto|].
  destruct (free_segment_ok h s (r ++ segs) Hok) as (u & b & h' & _ & -> & Hok' & _).
  simpl. by apply IH.
Qed.

(** What freeing a segment leaves of the SDUs still in use. *)
Lemma free_segment_lookup h s segs b h' t :
  heap_ok h (s :: segs) -> nr_rlc_free_sdu_segment h s = Done (b, h') -> t ∈ segs ->
  exists u u', h_sdus h !! seg_sdu t = Some u /\ h_sdus h' !! seg_sdu t = Some u' /\
    u' = u <| sdu_free_count := sdu_free_count u' |>.
Proof.
  intros Hok E Ht. destruct (free_segment_ok h s segs Hok) as (v & b' & h2 & Hv & E2 & Hok' & _ & _ & Hs).
  rewrite E in E2. injection E2 as <- <-.
  destruct (heap_ok_sdu_of h (s :: segs) t Hok) as (u & _ & Hu & _); [by right|].
  destruct (heap_ok_sdu_of h' segs t Hok' Ht) as (u' & _ & Hu' & _).
  exists u, u'. split; [done|]. split; [done|].
  rewrite Hs in Hu'. destruct b.
  - apply lookup_delete_Some in Hu' as [_ Hu']. rewrite Hu in Hu'. injection Hu' as <-.
    by destruct u.
  - rewrite lookup_insert in Hu'. case_decide as Hd.
    + rewrite Hd, Hu in Hv. injection Hv as <-. injection Hu' as <-. done.
    + rewrite Hu in Hu'. injection Hu' as <-. by destruct u.
Qed.

(** Updating an SDU in place (its SN, retransmission counter or time of
    arrival): the counters, the data and the size stay. *)
Definition sdu_eqv (u u' : nr_rlc_sdu_t) : Prop :=
  sdu_ref_count u' = sdu_ref_count u /\ sdu_free_count u' = sdu_free_count u /\
  sdu_data u' = sdu_data u /\ sdu_size u' = sdu_size u.

Lemma set_sdu_ok h segs p u u' :
  heap_ok h segs -> h_sdus h !! p = Some u -> sdu_eqv u u' -> heap_ok (set_sdu h p u') segs.
Proof.
  intros [A B C] Hu (H1 & H2 & H3 & H4). split; [| |done].
  - eapply Forall_impl; [exact A|]. intros t (Ht & v & Hv & ?). split; [done|]. simpl.
    rewrite lookup_insert. case_decide as Hd; [|by exists v].
    subst p. rewrite Hu in Hv. injection Hv as <-. exists u'. rewrite H4. done.
  - intros q v. simpl. rewrite lookup_insert. case_decide as Hd; [|intros Hv; by apply B].
    intros [= <-]. subst q. destruct (B p u Hu) as (? & ? & ? & ? & ? & ?).
    unfold sdu_ok. rewrite H1, H2, H3, H4. done.
Qed.

(** The data a segment refers to, [] for a dangling segment. *)
Definition seg_data (h : sdu_heap) (s : nr_rlc_sdu_segment_t) : list Z :=
  match h_sdus h !! seg_sdu s with Some u => sdu_data u | None => [] end.

Lemma set_sdu_data h p u u' t :
  h_sdus h !! p = Some u -> sdu_eqv u u' -> seg_data (set_sdu h p u') t = seg_data h t.
Proof.
  intros Hu (_ & _ & H3 & _). unfold seg_data, set_sdu; simpl. rewrite lookup_insert.
  case_decide as Hd; [|done]. by rewrite <- Hd, Hu.
Qed.

Lemma free_segment_data h s segs b h' t :
  heap_ok h (s :: segs) -> nr_rlc_free_sdu_segment h s = Done (b, h') -> t ∈ segs ->
  seg_data h' t = seg_data h t.
Proof.
  intros Hok E Ht. destruct (free_segment_lookup _ _ _ _ _ t Hok E Ht) as (u & u' & Hu & Hu' & Hq).
  unfold seg_data. by rewrite Hu, Hu', Hq.
Qed.

(** The SDUs in use are not moved by an allocation. *)
Lemma new_sdu_lookup h segs buffer size id s h' t :
  heap_ok h segs -> nr_rlc_new_sdu h buffer size id = Done (s, h') -> t ∈ segs ->
  h_sdus h' !! seg_sdu t = h_sdus h !! seg_sdu t.
Proof.
  intros Hok E Ht. unfold nr_rlc_new_sdu in E. invd E. injection E as <- <-. simpl.
  destruct (heap_ok_sdu_of _ _ t Hok Ht) as (u & _ & Hu & _).
  rewrite lookup_insert_ne; [done|]. intros Hc.
  destruct (ho_sdus _ _ Hok _ _ Hu) as (Hlt & _). lia.
Qed.

Lemma new_sdu_done h buffer size id :
  0 <= size <= Z.of_nat (length buffer) ->
  exists s h', nr_rlc_new_sdu h buffer size id = Done (s, h').
Proof. intros. unfold nr_rlc_new_sdu. rewrite slice_done by lia. simpl. eauto. Qed.

Lemma seg_end_cons s t r : seg_end (s :: t :: r) = seg_end (t :: r).
Proof. done. Qed.

(** The bytes of the segments of a list. *)
Definition segs_bytes (l : list nr_rlc_sdu_segment_t) : Z := foldr (fun s a => seg_size s + a) 0 l.

Lemma segs_bytes_app l1 l2 : segs_bytes (l1 ++ l2) = segs_bytes l1 + segs_bytes l2.
Proof. unfold segs_bytes. induction l1; simpl; lia. Qed.


(** ** Splitting a segment in two *)

Definition seg_range (u : nr_rlc_sdu_t) (s : nr_rlc_sdu_segment_t) : Prop :=
  0 <= seg_so s /\ 0 <= seg_size s /\ seg_so s + seg_size s <= sdu_size u.

(** The SDU is referenced once more, by a segment with a new address. *)
Lemma split_segment_ok h s s1 s2 r u :
  heap_ok h (s :: r) -> h_sdus h !! seg_sdu s = Some u ->
  seg_sdu s1 = seg_sdu s -> seg_sdu s2 = seg_sdu s ->
  seg_id s1 = seg_id s -> seg_id s2 = h_next h ->
  seg_range u s1 -> seg_range u s2 ->
  heap_ok (set_sdu h (seg_sdu s) (u <| sdu_ref_count ::= Z.add 1 |>) <| h_next ::= S |>)
    (s1 :: s2 :: r).
Proof.
  intros Hok Hu P1 P2 I1 I2 R1 R2.
  pose proof (ho_segs _ _ Hok) as A. apply Forall_cons in A as [[Hid _] A].
  assert (Hin : forall t, seg_sdu t = seg_sdu s -> (seg_id t < S (h_next h))%nat -> seg_range u t ->
    seg_in (set_sdu h (seg_sdu s) (u <| sdu_ref_count ::= Z.add 1 |>) <| h_next ::= S |>) t).
  { intros t Ht Hl Hr. split; [done|]. eexists. simpl. rewrite Ht, lookup_insert_eq. by split. }
  split.
  - constructor; [apply Hin; done || lia|]. constructor; [apply Hin; done || lia|].
    eapply Forall_impl; [exact A|]. intros t (Ht & v & Hv & Hr). split; [simpl; lia|]. simpl.
    rewrite lookup_insert. case_decide as Hd; [|by exists v].
    rewrite <- Hd, Hu in Hv. injection Hv as <-. eexists; split; [done|]. done.
  - intros p v. simpl. rewrite lookup_insert. unfold sdu_ok. rewrite !seg_refs_cons, P1, P2.
    simpl. case_decide as Hd.
    + intros [= <-]. destruct (ho_sdus _ _ Hok _ _ Hu) as (? & Hc & ? & ? & ? & ?).
      rewrite seg_refs_cons, decide_True in Hc by done. simpl. subst p.
      pose proof (seg_refs_nonneg (seg_sdu s) r). rewrite ?decide_True by done.
      split_and!; done || lia.
    + intros Hv. destruct (ho_sdus _ _ Hok _ _ Hv) as (? & Hc & Hp & ? & ? & ?).
      rewrite seg_refs_cons, decide_False in Hc, Hp by done. rewrite ?decide_False by done.
      split_and!; done || lia.
  - simpl. rewrite I1, I2. pose proof (ho_nodup _ _ Hok) as ND. simpl in ND.
    apply NoDup_cons in ND as [Hn ND]. constructor.
    + rewrite not_elem_of_cons. split; [lia|done].
    + constructor; [|done]. intros Hc. apply list_elem_of_fmap in Hc as (t & Ht & Hc).
      rewrite Forall_forall in A. destruct (A t Hc) as [? _]. lia.
Qed.

(** ** Changes of the store that keep SDUs *)

(** The SDUs of a list of segments survive a change of the store that keeps
    their data and size. *)
Definition heap_same (h h' : sdu_heap) (l : list nr_rlc_sdu_segment_t) : Prop :=
  Forall (fun s => exists u u', h_sdus h !! seg_sdu s = Some u /\ h_sdus h' !! seg_sdu s = Some u' /\
    sdu_data u' = sdu_data u /\ sdu_size u' = sdu_size u /\
    sdu_upper_layer_id u' = sdu_upper_layer_id u) l.

Lemma heap_same_data h h' l :
  heap_same h h' l -> map (seg_data h') l = map (seg_data h) l.
Proof.
  intros S. apply map_ext_in. intros s Hs. unfold heap_same in S. rewrite Forall_forall in S.
  destruct (S s) as (u & u' & Hu & Hu' & Hd & _); [by apply list_elem_of_In|].
  unfold seg_data. by rewrite Hu, Hu'.
Qed.

Lemma heap_same_trans h1 h2 h3 l : heap_same h1 h2 l -> heap_same h2 h3 l -> heap_same h1 h3 l.
Proof.
  unfold heap_same. rewrite !Forall_forall. intros A B s Hs.
  destruct (A s Hs) as (u & u' & ? & H & ? & ? & ?), (B s Hs) as (v & v' & Hv & ? & ? & ? & ?).
  rewrite H in Hv. injection Hv as <-. exists u, v'. split_and!; congruence.
Qed.

Lemma heap_same_elem h h' l s u :
  heap_same h h' l -> s ∈ l -> h_sdus h !! seg_sdu s = Some u ->
  exists u', h_sdus h' !! seg_sdu s = Some u' /\ sdu_data u' = sdu_data u /\
    sdu_size u' = sdu_size u /\ sdu_upper_layer_id u' = sdu_upper_layer_id u.
Proof.
  unfold heap_same. rewrite Forall_forall. intros S Hs Hu.
  destruct (S s Hs) as (v & u' & Hv & H). rewrite Hu in Hv. injection Hv as <-. by exists u'.
Qed.

(** Updating an SDU in place. *)
Lemma heap_same_set h p u u' l :
  Forall (seg_in h) l -> h_sdus h !! p = Some u ->
  sdu_data u' = sdu_data u -> sdu_size u' = sdu_size u ->
  sdu_upper_layer_id u' = sdu_upper_layer_id u -> heap_same h (set_sdu h p u') l.
Proof.
  intros A Hu H1 H2 H3. eapply Forall_impl; [exact A|]. intros s (_ & v & Hv & _).
  simpl. rewrite lookup_insert. case_decide as Hd; [|by exists v, v].
  subst p. rewrite Hv in Hu. injection Hu as ->. by exists u, u'.
Qed.

Lemma heap_same_free h s segs b h' :
  heap_ok h (s :: segs) -> nr_rlc_free_sdu_segment h s = Done (b, h') -> heap_same h h' segs.
Proof.
  intros Hok E. apply Forall_forall. intros t Ht.
  destruct (free_segment_lookup _ _ _ _ _ t Hok E Ht) as (u & u' & Hu & Hu' & Hq).
  exists u, u'. split_and!; [done|done|by rewrite Hq..].
Qed.

Lemma heap_same_new h segs buffer size id s h' :
  heap_ok h segs -> nr_rlc_new_sdu h buffer size id = Done (s, h') -> heap_same h h' segs.
Proof.
  intros Hok E. apply Forall_forall. intros t Ht.
  destruct (heap_ok_sdu_of _ _ t Hok Ht) as (u & _ & Hu & _).
  exists u, u. rewrite (new_sdu_lookup _ _ _ _ _ _ _ t Hok E Ht). done.
Qed.

Lemma find_sdu_ok h id l :
  Forall (seg_in h) l ->
  exists pre x, find_sdu h id l = Done (pre, x) /\
    match x with
    | None => pre = l
    | Some (s, post) => l = pre ++ s :: post /\
        exists u, h_sdus h !! seg_sdu s = Some u /\ sdu_upper_layer_id u = id
    end.
Proof.
  induction 1 as [|s r (Hid & u & Hu & _) _ (pre & x & E & Hx)]; simpl; [by exists [], None|].
  unfold sdu_of. rewrite Hu. simpl. cif; zbool.
  - exists [], (Some (s, r)). split; [done|]. split; [done|]. by exists u.
  - rewrite E. simpl. exists (s :: pre), x. split; [done|].
    destruct x as [[t post]|]; [|by subst]. destruct Hx as [-> Hx]. done.
Qed.
