(* ===== verification/RlcTm.v ===== *)
(** The RLC entity in transparent mode
    (openair2/LAYER2/nr_rlc/nr_rlc_entity_tm.c), and its refinement of a FIFO of
    SDUs with a byte capacity. *)

From S2P Require Import Prelude RlcSdu.

(** [trace] records the calls to the callbacks; [heap] is the memory of the
    SDUs.  [bstatus] and [stats] are [common.bstatus] and [common.stats]. *)
Record nr_rlc_entity_tm_t := mk_tm {
  avg_time_is_on : bool;
  stats : nr_rlc_statistics_t;
  bstatus : nr_rlc_entity_buffer_status_t;
  t_current : Z;
  tx_list : list nr_rlc_sdu_segment_t;
  tx_end : option nat;
  tx_size : Z;
  tx_maxsize : Z;
  heap : sdu_heap;
  trace : list event
}.
#[export] Instance eta_tm : Eta nr_rlc_entity_tm_t := fun r =>
  mk_tm (avg_time_is_on r) (stats r) (bstatus r) (t_current r) (tx_list r) (tx_end r)
    (tx_size r) (tx_maxsize r) (heap r) (trace r).

Definition new_nr_rlc_entity_tm (tx_maxsize : Z) : nr_rlc_entity_tm_t :=
  mk_tm false zero_stats (mk_bs 0 0 0) 0 [] None 0 tx_maxsize empty_heap [].

Definition nr_rlc_entity_tm_recv_pdu (e : nr_rlc_entity_tm_t) (buffer : list Z) (size : Z)
  : outcome nr_rlc_entity_tm_t :=
  let e := e <| stats; rxpdu_pkts ::= add32 1 |> <| stats; rxpdu_bytes ::= add32 size |> in
  d ← slice buffer 0 size;
  let e := e <| trace ::= fun t => t ++ [DeliverSdu d] |> in
  Done (e <| stats; txsdu_pkts ::= add32 1 |> <| stats; txsdu_bytes ::= add64 size |>).

(** Returns the number of bytes written, the entity and the buffer. *)
Definition generate_tx_pdu (e : nr_rlc_entity_tm_t) (buffer : list Z) (size now : Z)
  : outcome (Z * nr_rlc_entity_tm_t * list Z) :=
  match tx_list e with
  | [] => Done (0, e, buffer)
  | sdu :: next =>
      if seg_size sdu >? size then Done (0, e, buffer)
      else
        let e := e <| tx_list := next |> in
        let e := if next is [] then e <| tx_end := None |> else e in
        let ret := seg_size sdu in
        u ← sdu_of (heap e) sdu;
        d ← slice (sdu_data u) 0 (seg_size sdu);
        buffer ← blit buffer 0 d;
        let e := e <| tx_size ::= fun x => x - seg_size sdu |>
                   <| stats; txpdu_pkts ::= add32 1 |> <| stats; txpdu_bytes ::= add32 size |> in
        let e := if avg_time_is_on e
                 then e <| trace ::= fun t =>
                   t ++ [TimeAverageAdd now (u64 (now - sdu_time_of_arrival u))] |>
                 else e in
        let e := e <| bstatus; bs_tx_size ::= fun x => x - seg_size sdu |> in
        '(_, h) ← nr_rlc_free_sdu_segment (heap e) sdu;
        Done (ret, e <| heap := h |>, buffer)
  end.

Definition nr_rlc_entity_tm_buffer_status (e : nr_rlc_entity_tm_t) (maxsize : Z)
  : nr_rlc_entity_buffer_status_t :=
  mk_bs 0 (bs_tx_size (bstatus e)) 0.

Definition nr_rlc_entity_tm_generate_pdu (e : nr_rlc_entity_tm_t) (buffer : list Z)
    (size now : Z) : outcome (Z * nr_rlc_entity_tm_t * list Z) :=
  generate_tx_pdu e buffer size now.

Definition nr_rlc_entity_tm_recv_sdu (e : nr_rlc_entity_tm_t) (buffer : list Z)
    (size sdu_id now : Z) : outcome nr_rlc_entity_tm_t :=
  let e := e <| stats; rxsdu_pkts ::= add32 1 |> <| stats; rxsdu_bytes ::= add64 size |> in
  if size >? NR_SDU_MAX then Exit
  else if tx_size e + size >? tx_maxsize e
  then Done (e <| stats; rxsdu_dd_pkts ::= add32 1 |> <| stats; rxsdu_dd_bytes ::= add32 size |>)
  else
    let e := e <| tx_size ::= Z.add size |> in
    '(sdu, h) ← nr_rlc_new_sdu (heap e) buffer size sdu_id;
    '(l, en) ← nr_rlc_sdu_segment_list_append (tx_list e) (tx_end e) sdu;
    let e := e <| heap := h |> <| tx_list := l |> <| tx_end := en |>
               <| bstatus; bs_tx_size ::= Z.add (seg_size sdu) |> in
    if avg_time_is_on e then
      u ← sdu_of h sdu;
      Done (e <| heap := set_sdu h (seg_sdu sdu) (u <| sdu_time_of_arrival := now |>) |>)
    else Done e.

Definition nr_rlc_entity_tm_set_time (e : nr_rlc_entity_tm_t) (now : Z) : nr_rlc_entity_tm_t :=
  e <| t_current := now |>.

Definition nr_rlc_entity_tm_discard_sdu (e : nr_rlc_entity_tm_t) (sdu_id : Z)
  : nr_rlc_entity_tm_t := e.

Definition clear_entity (e : nr_rlc_entity_tm_t) : outcome nr_rlc_entity_tm_t :=
  h ← nr_rlc_free_sdu_segment_list (heap e) (tx_list e);
  Done (e <| heap := h |> <| tx_list := [] |> <| tx_end := None |> <| tx_size := 0 |>
          <| bstatus; bs_tx_size := 0 |>).

Definition nr_rlc_entity_tm_reestablishment (e : nr_rlc_entity_tm_t)
  : outcome nr_rlc_entity_tm_t := clear_entity e.

(** What is left of the heap when the entity is gone. *)
Definition nr_rlc_entity_tm_delete (e : nr_rlc_entity_tm_t) : outcome sdu_heap :=
  e ← clear_entity e; Done (heap e).

Definition nr_rlc_entity_tm_available_tx_space (e : nr_rlc_entity_tm_t) : Z :=
  tx_maxsize e - tx_size e.

(** ** Invariant *)

Definition whole_sdu (h : sdu_heap) (s : nr_rlc_sdu_segment_t) : Prop :=
  seg_so s = 0 /\ forall u, h_sdus h !! seg_sdu s = Some u -> seg_size s = sdu_size u.

Record tm_ok (e : nr_rlc_entity_tm_t) : Prop := {
  tm_heap : heap_ok (heap e) (tx_list e);
  tm_whole : Forall (whole_sdu (heap e)) (tx_list e);
  tm_end : tx_end e = seg_end (tx_list e);
  tm_size : tx_size e = segs_bytes (tx_list e);
  tm_bs : bs_tx_size (bstatus e) = tx_size e;
  tm_max : tx_size e <= tx_maxsize e
}.

(** ** Abstract specification: a FIFO of SDUs of at most [cap] bytes *)
Module Spec.
(** A grant of the MAC is a buffer to fill. *)
Inductive op :=
| RecvSdu (sdu : list Z) (id now : Z)
| Generate (buffer : list Z) (now : Z)
| SetTime (now : Z)
| Discard (id : Z)
| Reestablish.

Definition queue_bytes (q : list (list Z)) : Z :=
  foldr (fun d a => Z.of_nat (length d) + a) 0 q.

(** The next queue and the PDU given to the MAC (empty if there is none). *)
Definition step (cap : Z) (q : list (list Z)) (o : op) : list (list Z) * list Z :=
  match o with
  | RecvSdu d _ _ => (if queue_bytes q + Z.of_nat (length d) >? cap then q else q ++ [d], [])
  | Generate buffer _ =>
      match q with
      | d :: r => if Z.of_nat (length d) >? Z.of_nat (length buffer) then (q, []) else (r, d)
      | [] => (q, [])
      end
  | SetTime _ | Discard _ => (q, [])
  | Reestablish => ([], [])
  end.

Fixpoint run (cap : Z) (q : list (list Z)) (os : list op) : list (list Z) * list (list Z) :=
  match os with
  | [] => (q, [])
  | o :: r => let '(q, out) := step cap q o in
              let '(q, outs) := run cap q r in (q, out :: outs)
  end.

Definition op_ok (o : op) : Prop :=
  match o with
  | RecvSdu d _ _ => Z.of_nat (length d) <= NR_SDU_MAX /\ Forall (fun b => 0 <= b < 256) d
  | _ => True
  end.
End Spec.

(** The same operations on the entity. *)
Definition tm_step (e : nr_rlc_entity_tm_t) (o : Spec.op)
  : outcome (nr_rlc_entity_tm_t * list Z) :=
  match o with
  | Spec.RecvSdu d id now =>
      e ← nr_rlc_entity_tm_recv_sdu e d (Z.of_nat (length d)) id now; Done (e, [])
  | Spec.Generate buffer now =>
      '(n, e, buf) ← nr_rlc_entity_tm_generate_pdu e buffer (Z.of_nat (length buffer)) now;
      Done (e, take (Z.to_nat n) buf)
  | Spec.SetTime now => Done (nr_rlc_entity_tm_set_time e now, [])
  | Spec.Discard id => Done (nr_rlc_entity_tm_discard_sdu e id, [])
  | Spec.Reestablish => e ← nr_rlc_entity_tm_reestablishment e; Done (e, [])
  end.

Fixpoint tm_run (e : nr_rlc_entity_tm_t) (os : list Spec.op)
  : outcome (nr_rlc_entity_tm_t * list (list Z)) :=
  match os with
  | [] => Done (e, [])
  | o :: r => '(e, out) ← tm_step e o; '(e, outs) ← tm_run e r; Done (e, out :: outs)
  end.

(** The SDUs of the queue of an entity. *)
Definition tm_abs (e : nr_rlc_entity_tm_t) : list (list Z) :=
  map (seg_data (heap e)) (tx_list e).

(** ** Each operation keeps the invariant and simulates the specification *)

Lemma tm_abs_bytes e : tm_ok e -> Spec.queue_bytes (tm_abs e) = tx_size e.
Proof.
  intros [Hh Hw _ Hs _ _]. rewrite Hs. clear Hs. unfold tm_abs.
  assert (Hin : Forall (fun s => s ∈ tx_list e) (tx_list e)) by (by apply Forall_forall).
  revert Hw Hin. generalize (tx_list e) at 1 3 4 5. intros l.
  induction l as [|s r IH]; intros Hw Hin; [done|]. simpl.
  apply Forall_cons in Hw as [[_ Hw] Hws]. apply Forall_cons in Hin as [Hs Hin].
  rewrite IH by done. destruct (heap_ok_sdu_of _ _ s Hh Hs) as (u & _ & Hu & _).
  unfold seg_data. rewrite Hu, (Hw u Hu).
  pose proof (ho_sdus _ _ Hh _ _ Hu) as (_ & _ & _ & _ & <- & _). done.
Qed.

Lemma tm_ok_set e p u u' :
  tm_ok e -> h_sdus (heap e) !! p = Some u -> sdu_eqv u u' ->
  tm_ok (e <| heap ::= fun h => set_sdu h p u' |>) /\
  tm_abs (e <| heap ::= fun h => set_sdu h p u' |>) = tm_abs e.
Proof.
  intros [Hh Hw He Hs Hb Hm] Hu Heq. split; [split; simpl; try done|].
  - by apply (set_sdu_ok _ _ _ u).
  - eapply Forall_impl; [exact Hw|]. intros t [H0 Ht]. split; [done|]. intros v.
    simpl. rewrite lookup_insert. case_decide as Hd; [|apply Ht].
    intros [= <-]. subst p. destruct Heq as (_ & _ & _ & ->). by apply Ht.
  - unfold tm_abs; simpl. apply map_ext. intros t. by apply (set_sdu_data _ _ u).
Qed.

(** The part of [recv_sdu] that queues an SDU. *)
Lemma tm_enqueue e d id s h' st :
  tm_ok e -> tx_size e + Z.of_nat (length d) <= tx_maxsize e ->
  Forall (fun b => 0 <= b < 256) d ->
  nr_rlc_new_sdu (heap e) d (Z.of_nat (length d)) id = Done (s, h') ->
  let e' := mk_tm (avg_time_is_on e) st
    (bstatus e <| bs_tx_size ::= Z.add (seg_size s) |>) (t_current e)
    (tx_list e ++ [s]) (Some (seg_id s)) (Z.of_nat (length d) + tx_size e) (tx_maxsize e) h' (trace e) in
  tm_ok e' /\ tm_abs e' = tm_abs e ++ [d] /\ is_Some (h_sdus h' !! seg_sdu s).
Proof.
  intros [Hh Hw He Hs Hb Hm] Hsz HB Hn.
  destruct (new_sdu_ok _ _ _ _ _ _ _ Hh Hn HB) as (Hh' & _ & Hseg & _ & Hsd).
  pose proof (fun t => new_sdu_lookup _ _ _ _ _ _ _ t Hh Hn) as Hold.
  rewrite Nat2Z.id, take_ge in Hsd by done.
  assert (Hss : seg_size s = Z.of_nat (length d) /\ seg_so s = 0) by (by subst s).
  destruct Hss as [Hss Hso].
  split; [split; simpl|split].
  - by rewrite Permutation_app_comm.
  - apply Forall_app. split.
    + apply Forall_forall. intros t Ht. rewrite Forall_forall in Hw.
      destruct (Hw t Ht) as [? Hwt]. split; [done|]. intros u. rewrite Hold by done. apply Hwt.
    + constructor; [|constructor]. split; [done|]. rewrite Hsd, lookup_insert_eq.
      intros u [= <-]. done.
  - by rewrite seg_end_app.
  - rewrite segs_bytes_app, Hs. simpl. lia.
  - simpl. lia.
  - lia.
  - unfold tm_abs; simpl. rewrite map_app. f_equal.
    + apply map_ext_in. intros t Ht. unfold seg_data. by rewrite Hold by (by apply list_elem_of_In).
    + simpl. unfold seg_data. by rewrite Hsd, lookup_insert_eq.
  - rewrite Hsd, lookup_insert_eq. eauto.
Qed.

Lemma recv_sdu_sim e d id now :
  tm_ok e -> Spec.op_ok (Spec.RecvSdu d id now) ->
  exists e', nr_rlc_entity_tm_recv_sdu e d (Z.of_nat (length d)) id now = Done e' /\
    tm_ok e' /\ tx_maxsize e' = tx_maxsize e /\
    tm_abs e' = (Spec.step (tx_maxsize e) (tm_abs e) (Spec.RecvSdu d id now)).1.
Proof.
  intros Hok [Hd HB]. pose proof Hok as [Hh Hw He Hs Hb Hm]. simpl.
  rewrite tm_abs_bytes by done. unfold nr_rlc_entity_tm_recv_sdu. simpl.
  destruct (_ >? NR_SDU_MAX) eqn:E1; zbool; [lia|].
  destruct (tx_size e + _ >? tx_maxsize e) eqn:E2; zbool.
  { eexists; split; [reflexivity|]. split; [by split|done]. }
  destruct (new_sdu_done (heap e) d (Z.of_nat (length d)) id) as (s & h' & Hn); [lia|].
  rewrite Hn. simpl. rewrite He, list_append_ok by apply Hh. simpl.
  set (st := stats e <| rxsdu_pkts ::= add32 1 |> <| rxsdu_bytes ::= add64 (Z.of_nat (length d)) |>).
  destruct (tm_enqueue e d id s h' st Hok) as (Hok' & Ha & [u Hu]); [lia|done|done|].
  destruct (avg_time_is_on e) eqn:Eavg.
  - unfold sdu_of. rewrite Hu. simpl. eexists; split; [reflexivity|].
    destruct (tm_ok_set _ (seg_sdu s) u (u <| sdu_time_of_arrival := now |>) Hok' Hu) as [G1 G2]; [done|].
    split; [exact G1|]. split; [done|]. rewrite <- Ha. exact G2.
  - eexists; split; [reflexivity|]. split; [exact Hok'|]. split; [done|exact Ha].
Qed.

(** Unlinking the head of the queue keeps the end pointer right. *)
Lemma tx_unlink e s r :
  tx_end e = seg_end (tx_list e) -> tx_list e = s :: r ->
  (if r is [] then e <| tx_list := r |> <| tx_end := None |> else e <| tx_list := r |>)
  = e <| tx_list := r |> <| tx_end := seg_end r |>.
Proof. intros He El. destruct r; [done|]. simpl. by rewrite He, El. Qed.

Lemma tm_dequeue e s r b h' st tr :
  tm_ok e -> tx_list e = s :: r -> nr_rlc_free_sdu_segment (heap e) s = Done (b, h') ->
  let e' := mk_tm (avg_time_is_on e) st (bstatus e <| bs_tx_size ::= fun x => x - seg_size s |>)
    (t_current e) r (seg_end r) (tx_size e - seg_size s) (tx_maxsize e) h' tr in
  tm_ok e' /\ tm_abs e = seg_data (heap e) s :: tm_abs e'.
Proof.
  intros [Hh Hw He Hs Hb Hm] El Hf. rewrite El in *.
  apply Forall_cons in Hw as [_ Hw].
  destruct (free_segment_ok _ _ _ Hh) as (v & b' & h2 & Hv & Hf2 & Hh' & _).
  rewrite Hf in Hf2. injection Hf2 as <- <-.
  pose proof (fun t => free_segment_lookup _ _ _ _ _ t Hh Hf) as Hlk.
  destruct (heap_ok_sdu_of _ _ s Hh) as (_ & _ & _ & _ & Hpos & _); [left|].
  split; [split; simpl; try done|].
  - apply Forall_forall. intros t Ht. rewrite Forall_forall in Hw. destruct (Hw t Ht) as [? Hwt].
    split; [done|]. intros x Hx. destruct (Hlk t Ht) as (y & y' & Hy & Hy' & Hyy).
    rewrite Hy' in Hx. injection Hx as <-. rewrite Hyy. simpl. by apply Hwt.
  - rewrite Hs. simpl. lia.
  - lia.
  - lia.
  - unfold tm_abs. rewrite El. simpl. f_equal. apply map_ext_in. intros t Ht.
    symmetry. eapply free_segment_data; [done..|]. by apply list_elem_of_In.
Qed.

Lemma generate_sim e buf now :
  tm_ok e ->
  exists n e' buf', nr_rlc_entity_tm_generate_pdu e buf (Z.of_nat (length buf)) now = Done (n, e', buf') /\
    tm_ok e' /\ tx_maxsize e' = tx_maxsize e /\
    (tm_abs e', take (Z.to_nat n) buf') = Spec.step (tx_maxsize e) (tm_abs e) (Spec.Generate buf now).
Proof.
  intros Hok. pose proof Hok as [Hh Hw He Hs Hb Hm].
  unfold nr_rlc_entity_tm_generate_pdu, generate_tx_pdu.
  destruct (tx_list e) as [|s r] eqn:El.
  { eexists 0, e, buf. split; [done|]. split; [done|]. split; [done|].
    simpl. unfold tm_abs. by rewrite El. }
  destruct (heap_ok_sdu_of _ _ s Hh) as (u & Eu & Hu & Hb0); [left|].
  apply Forall_cons in Hw as [[_ Hws] _]. pose proof (Hws u Hu) as Hsz.
  pose proof (ho_sdus _ _ Hh _ _ Hu) as (_ & _ & _ & _ & Hlen & _).
  destruct (free_segment_ok _ _ _ Hh) as (v & b & h' & _ & Hf & _).
  assert (Hd : seg_data (heap e) s = sdu_data u) by (unfold seg_data; by rewrite Hu).
  set (st := stats e <| txpdu_pkts ::= add32 1 |> <| txpdu_bytes ::= add32 (Z.of_nat (length buf)) |>).
  set (tr := if avg_time_is_on e
    then trace e ++ [TimeAverageAdd now (u64 (now - sdu_time_of_arrival u))] else trace e).
  destruct (tm_dequeue e s r b h' st tr Hok El Hf) as [Hok' Ha].
  simpl Spec.step. rewrite Ha, Hd, Hlen, <- Hsz.
  destruct (seg_size s >? Z.of_nat (length buf)) eqn:E1; zbool.
  { eexists 0, e, buf. split; [done|]. split; [done|]. split; [done|]. by rewrite Ha, Hd. }
  rewrite (tx_unlink e s r) by (by rewrite ?El). simpl. rewrite Eu. simpl.
  rewrite slice_done by lia. simpl.
  rewrite drop_0, take_ge by lia. rewrite blit_done by lia. simpl.
  destruct (avg_time_is_on e) eqn:Eavg; simpl; rewrite Hf; simpl;
    (eexists _, _, _; split; [reflexivity|]; split; [exact Hok'|]; split; [done|];
     f_equal; rewrite take_app_length'; [done|lia]).
Qed.

Lemma reestablish_sim e :
  tm_ok e -> 0 <= tx_maxsize e ->
  exists e', nr_rlc_entity_tm_reestablishment e = Done e' /\ tm_ok e' /\
    tx_maxsize e' = tx_maxsize e /\ tm_abs e' = [].
Proof.
  intros [Hh _ _ _ _ Hm] H0. unfold nr_rlc_entity_tm_reestablishment, clear_entity.
  destruct (free_list_ok (tx_list e) (heap e) []) as (h' & -> & Hh'); [by rewrite app_nil_r|].
  simpl. eexists; split; [reflexivity|]. split; [by split|done].
Qed.

Lemma tm_step_sim e o :
  tm_ok e -> 0 <= tx_maxsize e -> Spec.op_ok o ->
  exists e' out, tm_step e o = Done (e', out) /\ tm_ok e' /\ tx_maxsize e' = tx_maxsize e /\
    (tm_abs e', out) = Spec.step (tx_maxsize e) (tm_abs e) o.
Proof.
  intros Hok H0 Ho. destruct o as [d id now|buf now|now|id|].
  - destruct (recv_sdu_sim e d id now Hok Ho) as (e' & E & Hok' & Hm & Ha).
    unfold tm_step. rewrite E. simpl in *. eexists _, _; split; [reflexivity|].
    split; [done|]. split; [done|]. rewrite Ha. done.
  - destruct (generate_sim e buf now Hok) as (n & e' & buf' & E & Hok' & Hm & Ha).
    unfold tm_step. rewrite E. simpl in *. eexists _, _; split; [reflexivity|]. done.
  - eexists _, _; split; [reflexivity|]. split; [by destruct Hok|done].
  - eexists _, _; split; [reflexivity|]. done.
  - destruct (reestablish_sim e Hok H0) as (e' & E & Hok' & Hm & Ha).
    unfold tm_step. rewrite E. simpl. eexists _, _; split; [reflexivity|].
    split; [done|]. split; [done|]. by rewrite Ha.
Qed.

Lemma tm_new_ok cap : 0 <= cap -> tm_ok (new_nr_rlc_entity_tm cap).
Proof. intros H. split; simpl; (apply heap_ok_empty || constructor || done). Qed.

(** A transparent mode entity is a FIFO of SDUs.  From its creation, under
    any sequence of SDUs from above, grants of the MAC, timer ticks, discards
    and re-establishments, every operation returns (no [exit], no access
    outside an object, no use of freed memory) and the PDUs it gives to the MAC
    are those of the abstract queue that drops an SDU when the capacity would
    be exceeded and sends the oldest SDU as soon as a grant is large enough. *)
Theorem tm_refines_fifo (cap : Z) (os : list Spec.op) :
  0 <= cap -> Forall Spec.op_ok os ->
  exists e outs,
    tm_run (new_nr_rlc_entity_tm cap) os = Done (e, outs) /\
    (tm_abs e, outs) = Spec.run cap [] os /\
    nr_rlc_entity_tm_available_tx_space e = cap - Spec.queue_bytes (tm_abs e).
Proof.
  intros Hc Ho. change (@nil (list Z)) with (tm_abs (new_nr_rlc_entity_tm cap)).
  pose proof (tm_new_ok cap Hc) as Hok.
  assert (Hm : tx_maxsize (new_nr_rlc_entity_tm cap) = cap) by done.
  revert Hok Hm. generalize (new_nr_rlc_entity_tm cap).
  induction Ho as [|o os Ho Hos IH]; intros e Hok Hm.
  - exists e, []. split; [done|]. split; [done|].
    unfold nr_rlc_entity_tm_available_tx_space. rewrite tm_abs_bytes by done. lia.
  - destruct (tm_step_sim e o Hok) as (e1 & out & E & Hok1 & Hm1 & Ha); [lia|done|].
    destruct (IH e1 Hok1) as (e2 & outs & E2 & Ha2 & Hs2); [congruence|].
    exists e2, (out :: outs). simpl. rewrite E. simpl. rewrite E2. simpl.
    split; [done|]. split; [|done]. rewrite <- Hm, <- Ha. rewrite Hm, <- Ha2. done.
Qed.

Lemma tm_refines_fifo_witness :
  exists e outs,
    tm_run (new_nr_rlc_entity_tm 6)
      [Spec.RecvSdu [1; 2; 3] 1 0; Spec.RecvSdu [4; 5] 2 0; Spec.RecvSdu [6; 7] 3 0;
       Spec.Generate [0; 0] 0; Spec.Generate [9; 9; 9; 9] 0; Spec.Generate [0; 0] 0] = Done (e, outs) /\
    (tm_abs e, outs) = ([], [[]; []; []; []; [1; 2; 3]; [4; 5]]) /\
    nr_rlc_entity_tm_available_tx_space e = 6 - Spec.queue_bytes (tm_abs e).
Proof.
  apply (tm_refines_fifo 6
      [Spec.RecvSdu [1; 2; 3] 1 0; Spec.RecvSdu [4; 5] 2 0; Spec.RecvSdu [6; 7] 3 0;
       Spec.Generate [0; 0] 0; Spec.Generate [9; 9; 9; 9] 0; Spec.Generate [0; 0] 0]).
  - lia.
  - repeat constructor; simpl; unfold NR_SDU_MAX; lia.
Defined.
