(* ===== verification/RlcRx.v ===== *)
(** What the receive sides of the UM and AM entities have in common: the walks
    of the receive list that decide whether an SDU is complete, delivered or
    has a hole, the reassembly, and the search of the next SN not delivered
    (functions [sdu_full], [sdu_delivered], [sdu_has_missing_bytes] and
    [reassemble_and_deliver] of nr_rlc_entity_um.c and nr_rlc_entity_am.c, which
    have the same text in both files). *)

From S2P Require Import Prelude RlcPdu RlcSdu.

(** [while (l != NULL) { if (l->sn == sn) break; l = l->next; }] *)
Fixpoint go_to_sn (sn : Z) (l : list nr_rlc_pdu_t) : list nr_rlc_pdu_t :=
  match l with
  | [] => []
  | p :: r => if pdu_sn p =? sn then l else go_to_sn sn r
  end.

Definition processed (l : list nr_rlc_pdu_t) : bool :=
  match l with p :: _ => if pdu_data p is None then true else false | [] => false end.

Fixpoint full_scan (sn last_byte : Z) (l : list nr_rlc_pdu_t) : bool :=
  match l with
  | [] => false
  | p :: r =>
      if negb (pdu_sn p =? sn) then false
      else if pdu_so p >? last_byte + 1 then false
      else if pdu_is_last p then true
      else
        let new_last_byte := pdu_so p + pdu_size p - 1 in
        full_scan sn (if new_last_byte >? last_byte then new_last_byte else last_byte) r
  end.

Definition list_sdu_full (l : list nr_rlc_pdu_t) (sn : Z) : bool :=
  let l := go_to_sn sn l in
  if processed l then false else full_scan sn (-1) l.

Definition list_sdu_delivered (l : list nr_rlc_pdu_t) (sn : Z) : bool :=
  processed (go_to_sn sn l).

Fixpoint missing_scan (sn last_byte : Z) (l : list nr_rlc_pdu_t) : bool :=
  match l with
  | [] => false
  | p :: r =>
      if negb (pdu_sn p =? sn) then false
      else if pdu_so p >? last_byte + 1 then true
      else
        let new_last_byte := pdu_so p + pdu_size p - 1 in
        missing_scan sn (if new_last_byte >? last_byte then new_last_byte else last_byte) r
  end.

Definition list_sdu_has_missing_bytes (l : list nr_rlc_pdu_t) (sn : Z) : bool :=
  let l := go_to_sn sn l in
  if processed l then false else missing_scan sn (-1) l.

(** [while (sdu_delivered(entity, sn)) sn = (sn + 1) % sn_modulus;] with as many
    turns as PDUs in the list, plus one. *)
Fixpoint skip_delivered (fuel : nat) (l : list nr_rlc_pdu_t) (sn_modulus sn : Z) : outcome Z :=
  match fuel with
  | O => Undef
  | S fuel =>
      if list_sdu_delivered l sn then skip_delivered fuel l sn_modulus (Z.rem (sn + 1) sn_modulus)
      else Done sn
  end.
Definition next_undelivered (l : list nr_rlc_pdu_t) (sn_modulus sn : Z) : outcome Z :=
  skip_delivered (S (length l)) l sn_modulus sn.

(** ** Reassembly *)

(** [ra_sdu] is the used part of the array [sdu], of length [so]; [ra_freed] is
    what has been subtracted from [rx_size]. *)
Record reassembly := mk_ra {
  ra_sdu : list Z;
  ra_so : Z;
  ra_bad_sdu : bool;
  ra_freed : Z
}.
#[export] Instance eta_ra : Eta reassembly := fun r =>
  mk_ra (ra_sdu r) (ra_so r) (ra_bad_sdu r) (ra_freed r).

(** [free(pdu->data); pdu->data = NULL;]; [zero_size] tells whether the size of a
    processed PDU is reset too, as the UM entity does. *)
Definition process_pdu (zero_size : bool) (p : nr_rlc_pdu_t) : nr_rlc_pdu_t :=
  let p := p <| pdu_data := None |> in if zero_size then p <| pdu_size := 0 |> else p.
#[global] Arguments process_pdu : simpl never.

(** The loop [while (pdu != NULL && pdu->sn == sn)]. *)
Fixpoint reassemble_loop (zero_size : bool) (sn : Z) (l : list nr_rlc_pdu_t) (st : reassembly)
  : outcome (list nr_rlc_pdu_t * reassembly) :=
  match l with
  | [] => Done ([], st)
  | p :: r =>
      if negb (pdu_sn p =? sn) then Done (l, st)
      else
        let len := pdu_size p - (ra_so st - pdu_so p) in
        let st := if (ra_so st + len >? NR_SDU_MAX) && negb (ra_bad_sdu st)
                  then st <| ra_bad_sdu := true |> else st in
        st ← (if negb (ra_bad_sdu st) && (len >? 0) then
                match pdu_data p with
                | None => Undef
                | Some data =>
                    d ← slice data (ra_so st - pdu_so p) len;
                    Done (st <| ra_sdu ::= fun b => b ++ d |> <| ra_so ::= Z.add len |>)
                end
              else Done st);
        let st := st <| ra_freed ::= Z.add (pdu_size p) |> in
        '(r, st) ← reassemble_loop zero_size sn r st;
        Done (process_pdu zero_size p :: r, st)
  end.

(** [while (pdu->sn != sn) pdu = pdu->next;] then the loop above. *)
Fixpoint reassemble (zero_size : bool) (sn : Z) (l : list nr_rlc_pdu_t)
  : outcome (list nr_rlc_pdu_t * reassembly) :=
  match l with
  | [] => Undef
  | p :: r =>
      if pdu_sn p =? sn then reassemble_loop zero_size sn l (mk_ra [] 0 false 0)
      else '(r, st) ← reassemble zero_size sn r; Done (p :: r, st)
  end.

(** ** Bytes received *)

(** [p] carries bytes of the SDU [D]. *)
Definition pdu_of (D : list Z) (p : nr_rlc_pdu_t) : Prop :=
  pdu_data p = Some (take (Z.to_nat (pdu_size p)) (drop (Z.to_nat (pdu_so p)) D)) /\
  0 <= pdu_so p /\ 0 < pdu_size p /\ pdu_so p + pdu_size p <= Z.of_nat (length D) /\
  (pdu_is_last p = true -> pdu_so p + pdu_size p = Z.of_nat (length D)).

(** The segments of SDU [sn] in the list are pieces of [D]. *)
Definition sn_of (D : list Z) (sn : Z) (l : list nr_rlc_pdu_t) : Prop :=
  Forall (fun p => pdu_sn p = sn -> pdu_of D p) l.

(** Byte [b] of SDU [sn] is in a segment of the list. *)
Definition covered (l : list nr_rlc_pdu_t) (sn b : Z) : Prop :=
  exists p, p ∈ l /\ pdu_sn p = sn /\ pdu_so p <= b < pdu_so p + pdu_size p.

Lemma go_to_sn_suffix sn l : exists pre, l = pre ++ go_to_sn sn l /\
  Forall (fun p => pdu_sn p <> sn) pre.
Proof.
  induction l as [|p r (pre & E & F)]; simpl; [by exists []|].
  destruct (pdu_sn p =? sn) eqn:C; zbool; [by exists []|].
  exists (p :: pre). split; [simpl; by f_equal|by constructor].
Qed.

Lemma full_scan_covered sn l : forall lb,
  full_scan sn lb l = true -> -1 <= lb ->
  exists p, p ∈ l /\ pdu_sn p = sn /\ pdu_is_last p = true /\
    forall b, lb < b < pdu_so p + pdu_size p -> covered l sn b.
Proof.
  induction l as [|p r IH]; intros lb Hf Hlb; [done|]. simpl in Hf.
  destruct (negb (pdu_sn p =? sn)) eqn:C; [done|].
  destruct (pdu_so p >? lb + 1) eqn:C2; [done|]. zbool.
  destruct (pdu_is_last p) eqn:C3.
  - exists p. split; [left|]. split; [done|]. split; [done|].
    intros b Hb. exists p. split; [left|]. split; [done|lia].
  - destruct (IH _ Hf) as (q & Hq & Hsn & Hl & Hcov); [destruct (_ >? _) eqn:C4; zbool; lia|].
    exists q. split; [by right|]. split; [done|]. split; [done|].
    intros b Hb. destruct (decide (b < pdu_so p + pdu_size p)) as [Hin|Hout].
    + exists p. split; [left|]. split; [done|lia].
    + destruct (Hcov b) as (q' & ? & ?); [destruct (_ >? _) eqn:C4; zbool; lia|].
      exists q'. split; [by right|done].
Qed.

(** [sdu_full] is sound: it holds only when every byte of the SDU, from the
    first to the last of a segment marked as the last one, has been received. *)
Lemma list_sdu_full_sound l sn :
  list_sdu_full l sn = true ->
  exists p, p ∈ l /\ pdu_sn p = sn /\ pdu_is_last p = true /\
    forall b, 0 <= b < pdu_so p + pdu_size p -> covered l sn b.
Proof.
  unfold list_sdu_full. destruct (processed _); [done|]. intros Hf.
  destruct (full_scan_covered _ _ _ Hf) as (p & Hp & Hsn & Hl & Hcov); [lia|].
  destruct (go_to_sn_suffix sn l) as (pre & El & _).
  assert (Hsub : forall q, q ∈ go_to_sn sn l -> q ∈ l)
    by (intros q Hq; rewrite El; apply elem_of_app; by right).
  exists p. split; [by apply Hsub|]. split; [done|]. split; [done|].
  intros b Hb. destruct (Hcov b) as (q & Hq & ?); [lia|]. exists q. split; [by apply Hsub|done].
Qed.

(** The PDUs of [sn] at the head of the list, processed, and their bytes. *)
Fixpoint process_block (zero_size : bool) (sn : Z) (l : list nr_rlc_pdu_t) : list nr_rlc_pdu_t :=
  match l with
  | [] => []
  | p :: r => if pdu_sn p =? sn then process_pdu zero_size p :: process_block zero_size sn r else l
  end.
Fixpoint block_bytes (sn : Z) (l : list nr_rlc_pdu_t) : Z :=
  match l with
  | [] => 0
  | p :: r => if pdu_sn p =? sn then pdu_size p + block_bytes sn r else 0
  end.

(** Once the whole of [D] is there, the other segments add nothing. *)
Lemma reassemble_loop_rest z D sn l : forall fr,
  sn_of D sn l -> Z.of_nat (length D) <= NR_SDU_MAX ->
  reassemble_loop z sn l (mk_ra D (Z.of_nat (length D)) false fr)
  = Done (process_block z sn l, mk_ra D (Z.of_nat (length D)) false (fr + block_bytes sn l)).
Proof.
  induction l as [|p r IH]; intros fr F M; simpl.
  - by rewrite Z.add_0_r.
  - destruct (pdu_sn p =? sn) eqn:C; zbool; simpl; [|by rewrite Z.add_0_r].
    apply Forall_cons in F as [Hp F]. destruct (Hp C) as (Hd & H0 & H1 & H2 & _).
    destruct (_ >? NR_SDU_MAX) eqn:C1; zbool; [lia|]. simpl.
    destruct (_ >? 0) eqn:C2; zbool; [lia|]. simpl.
    rewrite IH by done. simpl. do 3 f_equal. lia.
Qed.

Lemma reassemble_loop_ok z D sn l : forall lb fr,
  full_scan sn lb l = true -> -1 <= lb -> lb + 1 <= Z.of_nat (length D) ->
  sn_of D sn l -> Z.of_nat (length D) <= NR_SDU_MAX ->
  reassemble_loop z sn l (mk_ra (take (Z.to_nat (lb + 1)) D) (lb + 1) false fr)
  = Done (process_block z sn l, mk_ra D (Z.of_nat (length D)) false (fr + block_bytes sn l)).
Proof.
  induction l as [|p r IH]; intros lb fr Hf Hlb Hle F M; [done|]. simpl in *.
  destruct (pdu_sn p =? sn) eqn:C; simpl in *; [|done].
  destruct (pdu_so p >? lb + 1) eqn:C2; [done|]. zbool.
  apply Forall_cons in F as [Hp F]. destruct (Hp C) as (Hd & H0 & H1 & H2 & H3).
  destruct (lb + 1 + _ >? NR_SDU_MAX) eqn:C1; zbool; [lia|]. simpl.
  set (e := pdu_so p + pdu_size p).
  replace (pdu_size p - (lb + 1 - pdu_so p)) with (e - (lb + 1)) by lia.
  (* the bytes copied from [p] extend the prefix of [D] *)
  assert (Hcp : e - (lb + 1) > 0 ->
    slice (take (Z.to_nat (pdu_size p)) (drop (Z.to_nat (pdu_so p)) D)) (lb + 1 - pdu_so p) (e - (lb + 1))
    = Done (take (Z.to_nat (e - (lb + 1))) (drop (Z.to_nat (lb + 1)) D))).
  { intros Hpos. rewrite slice_done; [|lia|lia|].
    - f_equal. rewrite skipn_firstn_comm, take_take, drop_drop.
      f_equal; [|f_equal]; lia.
    - rewrite length_take, length_drop. lia. }
  assert (Htk : e - (lb + 1) > 0 ->
    take (Z.to_nat (lb + 1)) D ++ take (Z.to_nat (e - (lb + 1))) (drop (Z.to_nat (lb + 1)) D)
    = take (Z.to_nat e) D).
  { intros Hpos. rewrite take_take_drop. f_equal. lia. }
  destruct (e - (lb + 1) >? 0) eqn:C4; zbool.
  - rewrite Hd, Hcp by lia. simpl. rewrite Htk by lia.
    replace (e - (lb + 1) + (lb + 1)) with e by lia.
    destruct (pdu_is_last p) eqn:C5.
    + replace e with (Z.of_nat (length D)) by (symmetry; by apply H3).
      rewrite Nat2Z.id, take_ge by done. rewrite reassemble_loop_rest by done. simpl. do 3 f_equal. lia.
    + destruct (_ >? lb) eqn:C6; zbool; [|lia].
      pose proof (IH (e - 1) (pdu_size p + fr)) as IH'.
      replace (e - 1 + 1) with e in IH' by lia.
      rewrite IH' by (done || lia). simpl. do 3 f_equal. lia.
  - simpl. destruct (pdu_is_last p) eqn:C5.
    + pose proof (H3 eq_refl) as Hend.
      replace (lb + 1) with (Z.of_nat (length D)) by lia.
      rewrite Nat2Z.id, take_ge by done. rewrite reassemble_loop_rest by done. simpl. do 3 f_equal. lia.
    + destruct (_ >? lb) eqn:C6; zbool; [lia|].
      rewrite IH by (done || lia). simpl. do 3 f_equal. lia.
Qed.

(** The list after reassembly of [sn]: its first block of segments is processed. *)
Fixpoint process_sn (zero_size : bool) (sn : Z) (l : list nr_rlc_pdu_t) : list nr_rlc_pdu_t :=
  match l with
  | [] => []
  | p :: r => if pdu_sn p =? sn then process_block zero_size sn l else p :: process_sn zero_size sn r
  end.

(** A complete SDU is reassembled: the bytes are exactly those of [D]. *)
Lemma reassemble_ok z D sn l :
  list_sdu_full l sn = true -> sn_of D sn l -> Z.of_nat (length D) <= NR_SDU_MAX ->
  reassemble z sn l = Done (process_sn z sn l,
    mk_ra D (Z.of_nat (length D)) false (block_bytes sn (go_to_sn sn l))).
Proof.
  unfold list_sdu_full. induction l as [|p r IH]; intros Hf F M; [done|].
  cbn [go_to_sn reassemble process_sn] in *.
  destruct (pdu_sn p =? sn) eqn:C.
  - destruct (processed (p :: r)); [done|].
    apply (reassemble_loop_ok z D sn (p :: r) (-1) 0); [done|lia|lia|done|done].
  - apply Forall_cons in F as [_ F]. rewrite IH by done. done.
Qed.

(** ** Termination of the search of the next SN not delivered *)

Lemma delivered_in l sn : list_sdu_delivered l sn = true -> sn ∈ (pdu_sn <$> l).
Proof.
  unfold list_sdu_delivered, processed.
  destruct (go_to_sn_suffix sn l) as (pre & El & _).
  destruct (go_to_sn sn l) as [|p r] eqn:E; [done|]. intros _.
  assert (Hp : pdu_sn p = sn).
  { clear El. induction l as [|q l IH]; [done|]. simpl in E.
    destruct (pdu_sn q =? sn) eqn:C; zbool; [injection E as -> _; done|by apply IH]. }
  rewrite El, <- Hp. apply list_elem_of_fmap_2, elem_of_app. right. left.
Qed.

Lemma skip_delivered_spec l m n : forall sn, 0 < m -> 0 <= sn < m ->
  (exists sn', skip_delivered n l m sn = Done sn' /\ 0 <= sn' < m /\
     list_sdu_delivered l sn' = false) \/
  (forall k, (k < n)%nat -> list_sdu_delivered l ((sn + Z.of_nat k) mod m) = true).
Proof.
  induction n as [|n IH]; intros sn Hm Hsn; [right; lia|]. simpl.
  destruct (list_sdu_delivered l sn) eqn:E; [|left; by exists sn].
  rewrite Z.rem_mod_nonneg by lia.
  destruct (IH ((sn + 1) mod m) Hm) as [H|H]; [apply Z.mod_pos_bound; lia|by left|].
  right. intros [|k] Hk.
  - by rewrite Z.add_0_r, Z.mod_small.
  - specialize (H k ltac:(lia)). rewrite Zplus_mod_idemp_l in H. rewrite <- H. do 2 f_equal. lia.
Qed.

(** The loop ends: with fewer PDUs in the list than SNs, [length l + 1] turns
    reach an SN that is not delivered. *)
Lemma next_undelivered_ok l m sn :
  Z.of_nat (length l) < m -> 0 <= sn < m ->
  exists sn', next_undelivered l m sn = Done sn' /\ 0 <= sn' < m /\
    list_sdu_delivered l sn' = false.
Proof.
  intros Hl Hsn. unfold next_undelivered.
  destruct (skip_delivered_spec l m (S (length l)) sn) as [H|H]; [lia|done|done|exfalso].
  set (xs := map (fun k => (sn + Z.of_nat k) mod m) (seq 0 (S (length l)))).
  assert (ND : List.NoDup xs).
  { apply NoDup_ListNoDup, NoDup_fmap_2_strong; [|apply NoDup_seq].
    intros i j Hi Hj E. apply elem_of_seq in Hi, Hj.
    pose proof (Z.div_mod (sn + Z.of_nat i) m ltac:(lia)).
    pose proof (Z.div_mod (sn + Z.of_nat j) m ltac:(lia)).
    assert (Hd : (sn + Z.of_nat i) / m = (sn + Z.of_nat j) / m \/
                 (sn + Z.of_nat i) / m <> (sn + Z.of_nat j) / m) by lia.
    destruct Hd as [Hd|Hd]; nia. }
  assert (Hin : incl xs (pdu_sn <$> l)).
  { intros x Hx. apply in_map_iff in Hx as (k & <- & Hk). apply in_seq in Hk.
    apply list_elem_of_In, delivered_in, H. lia. }
  pose proof (NoDup_incl_length ND Hin) as HL.
  unfold xs in HL. rewrite length_map, length_seq, length_fmap in HL. lia.
Qed.
