(* ===== verification/RlcUm.v ===== *)
(** The RLC entity in unacknowledged mode
    (openair2/LAYER2/nr_rlc/nr_rlc_entity_um.c): segmentation, reassembly with
    the t-Reassembly timer, buffer accounting. *)

From S2P Require Import Prelude RlcPdu RlcSdu RlcRx.

Record nr_rlc_entity_um_t := mk_um {
  avg_time_is_on : bool;
  stats : nr_rlc_statistics_t;
  bstatus : nr_rlc_entity_buffer_status_t;
  t_reassembly : Z;
  sn_field_length : Z;
  sn_modulus : Z;
  window_size : Z;
  rx_next_highest : Z;
  rx_next_reassembly : Z;
  rx_timer_trigger : Z;
  tx_next : Z;
  t_current : Z;
  t_reassembly_start : Z;
  rx_list : list nr_rlc_pdu_t;
  rx_size : Z;
  rx_maxsize : Z;
  tx_list : list nr_rlc_sdu_segment_t;
  tx_end : option nat;
  tx_size : Z;
  tx_maxsize : Z;
  heap : sdu_heap;
  trace : list event
}.
#[export] Instance eta_um : Eta nr_rlc_entity_um_t := fun r =>
  mk_um (avg_time_is_on r) (stats r) (bstatus r) (t_reassembly r) (sn_field_length r)
    (sn_modulus r) (window_size r) (rx_next_highest r) (rx_next_reassembly r)
    (rx_timer_trigger r) (tx_next r) (t_current r) (t_reassembly_start r)
    (rx_list r) (rx_size r) (rx_maxsize r) (tx_list r) (tx_end r) (tx_size r) (tx_maxsize r)
    (heap r) (trace r).

(** nr_rlc_entity.c; the callbacks of the new entity are the events of [trace]. *)
Definition new_nr_rlc_entity_um (rx_maxsize tx_maxsize t_reassembly sn_field_length : Z)
  : outcome nr_rlc_entity_um_t :=
  if (sn_field_length =? 6) || (sn_field_length =? 12) then
    let sn_modulus := Z.shiftl 1 sn_field_length in
    Done (mk_um false zero_stats (mk_bs 0 0 0) t_reassembly sn_field_length
            sn_modulus (Z.quot sn_modulus 2) 0 0 0 0 0 0 [] 0 rx_maxsize [] None 0 tx_maxsize
            empty_heap [])
  else Exit.

Definition nr_rlc_entity_um_reconfigure (e : nr_rlc_entity_um_t) (t_reass : Z)
    (sn_field_len : option Z) : nr_rlc_entity_um_t :=
  let e := e <| t_reassembly := t_reass |> in
  match sn_field_len with Some n => e <| sn_field_length := n |> | None => e end.

Definition compute_pdu_header_size (e : nr_rlc_entity_um_t) (sdu : nr_rlc_sdu_segment_t) : Z :=
  let header_size := 1 in
  let header_size :=
    if negb (seg_is_first sdu && seg_is_last sdu) && (sn_field_length e =? 12)
    then header_size + 1 else header_size in
  if negb (seg_is_first sdu) then header_size + 2 else header_size.

(** ** PDU RX functions *)

Definition modulus_rx (e : nr_rlc_entity_um_t) (a : Z) : Z :=
  let r := a - (rx_next_highest e - window_size e) in
  let r := if r <? 0 then r + sn_modulus e else r in
  Z.rem r (sn_modulus e).

Definition sn_compare_rx (e : nr_rlc_entity_um_t) (a b : Z) : Z := modulus_rx e a - modulus_rx e b.

Definition sdu_full (e : nr_rlc_entity_um_t) (sn : Z) : bool := list_sdu_full (rx_list e) sn.
Definition sdu_delivered (e : nr_rlc_entity_um_t) (sn : Z) : bool :=
  list_sdu_delivered (rx_list e) sn.
Definition sdu_has_missing_bytes (e : nr_rlc_entity_um_t) (sn : Z) : bool :=
  list_sdu_has_missing_bytes (rx_list e) sn.

Definition reassemble_and_deliver (e : nr_rlc_entity_um_t) (sn : Z) : outcome nr_rlc_entity_um_t :=
  '(l, st) ← reassemble true sn (rx_list e);
  let e := e <| rx_list := l |> <| rx_size ::= fun x => x - ra_freed st |> in
  if ra_bad_sdu st then Done e
  else
    let e := e <| trace ::= fun t => t ++ [DeliverSdu (ra_sdu st)] |> in
    Done (e <| stats; txsdu_pkts ::= add32 1 |> <| stats; txsdu_bytes ::= add64 (ra_so st) |>).

(** [while (rx_list != NULL && sn_compare_rx(rx_list->sn, rx_next_highest) >= 0)] *)
Fixpoint discard_out_of_window (l : list nr_rlc_pdu_t) (e : nr_rlc_entity_um_t)
  : nr_rlc_entity_um_t :=
  match l with
  | [] => e
  | p :: r =>
      if sn_compare_rx e (pdu_sn p) (rx_next_highest e) >=? 0 then
        let e := e <| rx_size ::= fun x => x - pdu_size p |> <| rx_list := r |>
                   <| stats; rxpdu_dd_pkts ::= add32 1 |> <| stats; rxpdu_dd_bytes ::= add32 (pdu_size p) |>
                   <| stats; rxpdu_ow_pkts ::= add32 1 |> <| stats; rxpdu_ow_bytes ::= add32 (pdu_size p) |> in
        discard_out_of_window r e
      else e
  end.

(** The update of the t-Reassembly timer at the end of [reception_actions]. *)
Definition reception_timers (e : nr_rlc_entity_um_t) : nr_rlc_entity_um_t :=
  let next := Z.rem (rx_next_reassembly e + 1) (sn_modulus e) in
  let e :=
    if negb (t_reassembly_start e =? 0) &&
       ((sn_compare_rx e (rx_timer_trigger e) (rx_next_reassembly e) <=? 0) ||
        (sn_compare_rx e (rx_timer_trigger e) (rx_next_highest e) >? 0) ||
        ((rx_next_highest e =? next) && negb (sdu_has_missing_bytes e (rx_next_reassembly e))))
    then e <| t_reassembly_start := 0 |> else e in
  if (t_reassembly_start e =? 0) &&
     ((sn_compare_rx e (rx_next_highest e) next >? 0) ||
      ((rx_next_highest e =? next) && sdu_has_missing_bytes e (rx_next_reassembly e)))
  then e <| t_reassembly_start := t_current e |> <| rx_timer_trigger := rx_next_highest e |>
  else e.

Definition reception_actions (e : nr_rlc_entity_um_t) (x : Z) : outcome nr_rlc_entity_um_t :=
  e ← (if sdu_full e x then
         e ← reassemble_and_deliver e x;
         if x =? rx_next_reassembly e then
           n ← next_undelivered (rx_list e) (sn_modulus e) (rx_next_reassembly e);
           Done (e <| rx_next_reassembly := n |>)
         else Done e
       else if sn_compare_rx e x (rx_next_highest e) >=? 0 then
         let e := e <| rx_next_highest := Z.rem (x + 1) (sn_modulus e) |> in
         let e := discard_out_of_window (rx_list e) e in
         if sn_compare_rx e (rx_next_reassembly e) (rx_next_highest e) >=? 0 then
           n ← next_undelivered (rx_list e) (sn_modulus e)
                 (Z.rem (rx_next_highest e - window_size e + sn_modulus e) (sn_modulus e));
           Done (e <| rx_next_reassembly := n |>)
         else Done e
       else Done e);
  Done (reception_timers e).

(** The label [discard]. *)
Definition discard_pdu (e : nr_rlc_entity_um_t) (size : Z) : outcome nr_rlc_entity_um_t :=
  Done (e <| stats; rxpdu_dd_pkts ::= add32 1 |> <| stats; rxpdu_dd_bytes ::= add32 size |>).

(** From the reading of SO on. *)
Definition recv_segment (e : nr_rlc_entity_um_t) (buffer : list Z) (size : Z)
    (is_first is_last : bool) (sn so : Z) (d : nr_rlc_pdu_decoder_t)
  : outcome nr_rlc_entity_um_t :=
  let data_size := size - d_byte d in
  if data_size <=? 0 then discard_pdu e size
  else if rx_size e + data_size >? rx_maxsize e then discard_pdu e size
  else if sn_compare_rx e sn (rx_next_reassembly e) <? 0 then discard_pdu e size
  else
    let e := e <| rx_size ::= Z.add data_size |> in
    data ← slice buffer (size - data_size) data_size;
    pdu ← nr_rlc_new_pdu sn so is_first is_last data data_size;
    let e := e <| rx_list ::= fun l => nr_rlc_pdu_list_add (sn_compare_rx e) l pdu |> in
    reception_actions e (pdu_sn pdu).

(** From the reading of SN on. *)
Definition recv_sn (e : nr_rlc_entity_um_t) (buffer : list Z) (size : Z)
    (is_first is_last : bool) (d : nr_rlc_pdu_decoder_t) : outcome nr_rlc_entity_um_t :=
  get_or d (sn_field_length e) (discard_pdu e size) (fun sn d =>
  if negb is_first then
    get_or d 16 (discard_pdu e size) (fun so d =>
    if so =? 0 then discard_pdu e size
    else recv_segment e buffer size is_first is_last sn so d)
  else recv_segment e buffer size is_first is_last sn 0 d).

Definition nr_rlc_entity_um_recv_pdu (e : nr_rlc_entity_um_t) (buffer : list Z) (size : Z)
  : outcome nr_rlc_entity_um_t :=
  let e := e <| stats; rxpdu_pkts ::= add32 1 |> <| stats; rxpdu_bytes ::= add32 size |> in
  get_or (nr_rlc_pdu_decoder_init buffer size) 2 (discard_pdu e size) (fun si d =>
  let is_first := Z.land si 2 =? 0 in
  let is_last := Z.land si 1 =? 0 in
  if is_first && is_last then
    if size <? 2 then discard_pdu e size
    else
      data ← slice buffer 1 (size - 1);
      let e := e <| trace ::= fun t => t ++ [DeliverSdu data] |> in
      Done (e <| stats; txsdu_pkts ::= add32 1 |> <| stats; txsdu_bytes ::= add64 (size - 1) |>)
  else if sn_field_length e =? 12
  then get_or d 2 (discard_pdu e size) (fun _ d => recv_sn e buffer size is_first is_last d)
  else recv_sn e buffer size is_first is_last d).

(** ** TX functions *)

(** Returns the size of the PDU and the buffer. *)
Definition serialize_sdu (e : nr_rlc_entity_um_t) (sdu : nr_rlc_sdu_segment_t) (buffer : list Z)
    (bufsize : Z) : outcome (Z * list Z) :=
  u ← sdu_of (heap e) sdu;
  let enc := nr_rlc_pdu_encoder_init buffer bufsize in
  enc ← nr_rlc_pdu_encoder_put_bits enc (1 - b2z (seg_is_first sdu)) 1;
  enc ← nr_rlc_pdu_encoder_put_bits enc (1 - b2z (seg_is_last sdu)) 1;
  enc ← (if seg_is_first sdu && seg_is_last sdu
         then nr_rlc_pdu_encoder_put_bits enc 0 6
         else
           enc ← (if sn_field_length e =? 12
                  then nr_rlc_pdu_encoder_put_bits enc 0 2 else Done enc);
           nr_rlc_pdu_encoder_put_bits enc (sdu_sn u) (sn_field_length e));
  enc ← (if negb (seg_is_first sdu)
         then nr_rlc_pdu_encoder_put_bits enc (seg_so sdu) 16 else Done enc);
  data ← slice (sdu_data u) (seg_so sdu) (seg_size sdu);
  buffer ← blit (e_buffer enc) (e_byte enc) data;
  Done (e_byte enc + seg_size sdu, buffer).

(** Returns the entity, the shortened segment and, unless there is no room for
    a byte of data, the segment of the rest. *)
Definition resegment (sdu : nr_rlc_sdu_segment_t) (e : nr_rlc_entity_um_t) (pdu_size : Z)
  : outcome (nr_rlc_entity_um_t * nr_rlc_sdu_segment_t * option nr_rlc_sdu_segment_t) :=
  u ← sdu_of (heap e) sdu;
  let e := e <| heap ::= fun h => set_sdu h (seg_sdu sdu) (u <| sdu_ref_count ::= Z.add 1 |>) |> in
  let pdu_header_size := compute_pdu_header_size e (sdu <| seg_is_last := false |>) in
  if pdu_header_size + 1 >? pdu_size then Done (e, sdu, None)
  else
    let over_size := pdu_header_size + seg_size sdu - pdu_size in
    let first := sdu <| seg_size ::= fun x => x - over_size |> <| seg_is_last := false |> in
    let next := sdu <| seg_id := h_next (heap e) |> <| seg_size := over_size |>
                    <| seg_so := seg_so first + seg_size first |> <| seg_is_first := false |> in
    let e := e <| heap; h_next ::= S |> <| stats; txpdu_segmented ::= add32 1 |> in
    Done (e, first, Some next).

(** From the update of [tx_next] to the end of [generate_tx_pdu]. *)
Definition send_segment (e : nr_rlc_entity_um_t) (sdu : nr_rlc_sdu_segment_t) (buffer : list Z)
    (size now : Z) : outcome (Z * nr_rlc_entity_um_t * list Z) :=
  let e := if negb (seg_is_first sdu) && seg_is_last sdu
           then e <| tx_next := Z.rem (tx_next e + 1) (sn_modulus e) |> else e in
  '(ret, buffer) ← serialize_sdu e sdu buffer size;
  let e := e <| tx_size ::= fun x => x - seg_size sdu |>
             <| stats; txpdu_pkts ::= add32 1 |> <| stats; txpdu_bytes ::= add32 size |> in
  u ← sdu_of (heap e) sdu;
  let e := if avg_time_is_on e
           then e <| trace ::= fun t =>
             t ++ [TimeAverageAdd now (u64 (now - sdu_time_of_arrival u))] |>
           else e in
  '(_, h) ← nr_rlc_free_sdu_segment (heap e) sdu;
  Done (ret, e <| heap := h |>, buffer).

Definition generate_tx_pdu (e : nr_rlc_entity_um_t) (buffer : list Z) (size now : Z)
  : outcome (Z * nr_rlc_entity_um_t * list Z) :=
  match tx_list e with
  | [] => Done (0, e, buffer)
  | sdu :: next =>
      let pdu_header_size := compute_pdu_header_size e sdu in
      if pdu_header_size + 1 >? size then Done (0, e, buffer)
      else
        let e := e <| tx_list := next |> in
        let e := if next is [] then e <| tx_end := None |> else e in
        u ← sdu_of (heap e) sdu;
        let e := e <| heap ::= fun h => set_sdu h (seg_sdu sdu) (u <| sdu_sn := tx_next e |>) |> in
        let pdu_size := pdu_header_size + seg_size sdu in
        let e := e <| bstatus; bs_tx_size ::= fun x => x - pdu_size |> in
        if pdu_size >? size then
          '(e, sdu, next_sdu) ← resegment sdu e size;
          match next_sdu with
          | None => Done (0, e, buffer)
          | Some next_sdu =>
              let e := e <| tx_list ::= cons next_sdu |> in
              let e := if tx_end e is None then e <| tx_end := Some (seg_id next_sdu) |> else e in
              let e := e <| stats; txpdu_segmented ::= add32 1 |>
                         <| bstatus; bs_tx_size ::=
                              Z.add (compute_pdu_header_size e next_sdu + seg_size next_sdu) |> in
              send_segment e sdu buffer size now
          end
        else send_segment e sdu buffer size now
  end.

Definition nr_rlc_entity_um_buffer_status (e : nr_rlc_entity_um_t) (maxsize : Z)
  : nr_rlc_entity_buffer_status_t := mk_bs 0 (bs_tx_size (bstatus e)) 0.

Definition nr_rlc_entity_um_generate_pdu (e : nr_rlc_entity_um_t) (buffer : list Z) (size now : Z)
  : outcome (Z * nr_rlc_entity_um_t * list Z) := generate_tx_pdu e buffer size now.

(** ** SDU RX functions *)

Definition nr_rlc_entity_um_recv_sdu (e : nr_rlc_entity_um_t) (buffer : list Z)
    (size sdu_id now : Z) : outcome nr_rlc_entity_um_t :=
  let e := e <| stats; rxsdu_pkts ::= add32 1 |> <| stats; rxsdu_bytes ::= add64 size |> in
  if size >? NR_SDU_MAX then Exit
  else if tx_size e + size >? tx_maxsize e
  then Done (e <| stats; rxsdu_dd_pkts ::= add32 1 |> <| stats; rxsdu_dd_bytes ::= add32 size |>)
  else
    let e := e <| tx_size ::= Z.add size |> in
    '(sdu, h) ← nr_rlc_new_sdu (heap e) buffer size sdu_id;
    '(l, en) ← nr_rlc_sdu_segment_list_append (tx_list e) (tx_end e) sdu;
    let e := e <| heap := h |> <| tx_list := l |> <| tx_end := en |>
               <| bstatus; bs_tx_size ::= Z.add (compute_pdu_header_size e sdu + seg_size sdu) |> in
    if avg_time_is_on e then
      u ← sdu_of h sdu;
      Done (e <| heap := set_sdu h (seg_sdu sdu) (u <| sdu_time_of_arrival := now |>) |>)
    else Done e.

(** ** Timers *)

(** [while (cur != NULL && sn_compare_rx(cur->sn, rx_next_reassembly) < 0)] *)
Fixpoint discard_before (l : list nr_rlc_pdu_t) (e : nr_rlc_entity_um_t) : nr_rlc_entity_um_t :=
  match l with
  | [] => e
  | p :: r =>
      if sn_compare_rx e (pdu_sn p) (rx_next_reassembly e) <? 0 then
        discard_before r
          (e <| rx_list := r |>
             <| stats; rxpdu_dd_pkts ::= add32 1 |> <| stats; rxpdu_dd_bytes ::= add32 (pdu_size p) |>)
      else e
  end.

Definition check_t_reassembly (e : nr_rlc_entity_um_t) : outcome nr_rlc_entity_um_t :=
  if (t_reassembly_start e =? 0)
     || (t_current e <=? u64 (t_reassembly_start e + u64 (t_reassembly e)))
  then Done e
  else
    let e := e <| t_reassembly_start := 0 |> in
    n ← next_undelivered (rx_list e) (sn_modulus e) (rx_timer_trigger e);
    let e := e <| rx_next_reassembly := n |> in
    let e := discard_before (rx_list e) e in
    if (sn_compare_rx e (rx_next_highest e) (Z.rem (rx_next_reassembly e + 1) (sn_modulus e)) >? 0)
       || ((rx_next_highest e =? rx_next_reassembly e + 1)
           && sdu_has_missing_bytes e (rx_next_reassembly e))
    then Done (e <| t_reassembly_start := t_current e |> <| rx_timer_trigger := rx_next_highest e |>)
    else Done e.

Definition nr_rlc_entity_um_set_time (e : nr_rlc_entity_um_t) (now : Z)
  : outcome nr_rlc_entity_um_t := check_t_reassembly (e <| t_current := now |>).

(** ** Discard, re-establishment, delete *)

Definition nr_rlc_entity_um_discard_sdu (e : nr_rlc_entity_um_t) (sdu_id : Z)
  : outcome nr_rlc_entity_um_t :=
  '(pre, x) ← find_sdu (heap e) sdu_id (tx_list e);
  match x with
  | None => Done e
  | Some (cur, post) =>
      if negb (seg_is_first cur) || negb (seg_is_last cur) then Done e
      else
        let e := e <| tx_list := pre ++ post |> in
        let e := if bool_decide (tx_end e = Some (seg_id cur))
                 then e <| tx_end := seg_end pre |> else e in
        let e := e <| bstatus; bs_tx_size ::= fun x =>
                   x - (compute_pdu_header_size e cur + seg_size cur) |> in
        '(_, h) ← nr_rlc_free_sdu_segment (heap e) cur;
        Done (e <| heap := h |>)
  end.

Definition clear_entity (e : nr_rlc_entity_um_t) : outcome nr_rlc_entity_um_t :=
  let e := e <| rx_next_highest := 0 |> <| rx_next_reassembly := 0 |> <| rx_timer_trigger := 0 |>
             <| tx_next := 0 |> <| t_current := 0 |> <| t_reassembly_start := 0 |>
             <| rx_list := [] |> <| rx_size := 0 |> in
  h ← nr_rlc_free_sdu_segment_list (heap e) (tx_list e);
  Done (e <| heap := h |> <| tx_list := [] |> <| tx_end := None |> <| tx_size := 0 |>
          <| bstatus; bs_tx_size := 0 |>).

Definition nr_rlc_entity_um_reestablishment (e : nr_rlc_entity_um_t)
  : outcome nr_rlc_entity_um_t := clear_entity e.

Definition nr_rlc_entity_um_delete (e : nr_rlc_entity_um_t) : outcome sdu_heap :=
  e ← clear_entity e; Done (heap e).

Definition nr_rlc_entity_um_available_tx_space (e : nr_rlc_entity_um_t) : Z :=
  tx_maxsize e - tx_size e.

(** ** The PDU format *)

(** The header fields of the segment [s] of an SDU with number [sn]. *)
Definition um_fields (snl sn : Z) (s : nr_rlc_sdu_segment_t) : list (Z * Z) :=
  [(1 - b2z (seg_is_first s), 1); (1 - b2z (seg_is_last s), 1)]
  ++ (if seg_is_first s && seg_is_last s then [(0, 6)]
      else (if snl =? 12 then [(0, 2)] else []) ++ [(sn, snl)])
  ++ (if seg_is_first s then [] else [(seg_so s, 16)]).

Record um_cfg (e : nr_rlc_entity_um_t) : Prop := {
  cfg_len : sn_field_length e = 6 \/ sn_field_length e = 12;
  cfg_mod : sn_modulus e = 2 ^ sn_field_length e;
  cfg_win : 2 * window_size e = sn_modulus e
}.

Lemma um_cfg_bounds e : um_cfg e -> 64 <= sn_modulus e <= 4096 /\ 2 * window_size e = sn_modulus e.
Proof. intros [[L|L] M W]; rewrite L in M; lia. Qed.

Lemma um_fields_ok e sn s : um_cfg e ->
  Forall (fun f : Z * Z => 1 <= f.2 <= 31) (um_fields (sn_field_length e) sn s) /\
  fields_width (um_fields (sn_field_length e) sn s) = 8 * compute_pdu_header_size e s.
Proof.
  intros [L _ _]. unfold um_fields, compute_pdu_header_size.
  destruct L as [->| ->], (seg_is_first s), (seg_is_last s); cbn -[Z.mul];
    (split; [repeat constructor; simpl; lia|lia]).
Qed.

Lemma header_size_bounds e s : 1 <= compute_pdu_header_size e s <= 4.
Proof. unfold compute_pdu_header_size. do 2 cif; lia. Qed.

(** [serialize_sdu] writes these fields, then the data of the segment. *)
Lemma serialize_fields e s u buf size :
  sdu_of (heap e) s = Done u ->
  serialize_sdu e s buf size =
    (enc ← put_fields (nr_rlc_pdu_encoder_init buf size)
             (um_fields (sn_field_length e) (sdu_sn u) s);
     data ← slice (sdu_data u) (seg_so s) (seg_size s);
     buffer ← blit (e_buffer enc) (e_byte enc) data;
     Done (e_byte enc + seg_size s, buffer)).
Proof.
  intros E. unfold serialize_sdu, um_fields. rewrite E. simpl.
  destruct (nr_rlc_pdu_encoder_put_bits _ _ 1) as [e1| |]; [simpl|done|done].
  destruct (nr_rlc_pdu_encoder_put_bits e1 _ 1) as [e2| |]; [simpl|done|done].
  destruct (seg_is_first s), (seg_is_last s); simpl;
    try (destruct (sn_field_length e =? 12); simpl);
    repeat (destruct (nr_rlc_pdu_encoder_put_bits _ _ _); simpl; try done).
Qed.

(** The data bytes of a segment. *)
Definition seg_bytes (h : sdu_heap) (s : nr_rlc_sdu_segment_t) : list Z :=
  take (Z.to_nat (seg_size s)) (drop (Z.to_nat (seg_so s)) (seg_data h s)).

(** [P] is the PDU of segment [s], numbered [sn]. *)
Definition um_pdu (snl sn : Z) (s : nr_rlc_sdu_segment_t) (D P : list Z) : Prop :=
  exists B, P = B ++ D /\ header_of (um_fields snl sn s) B /\
    Forall is_byte D /\ Z.of_nat (length D) = seg_size s.

Lemma serialize_ok e s u buf size :
  um_cfg e -> h_sdus (heap e) !! seg_sdu s = Some u ->
  0 <= seg_so s -> 0 <= seg_size s -> seg_so s + seg_size s <= Z.of_nat (length (sdu_data u)) ->
  Forall is_byte (sdu_data u) -> Forall is_byte buf ->
  compute_pdu_header_size e s + seg_size s <= size <= Z.of_nat (length buf) ->
  exists buf', serialize_sdu e s buf size
      = Done (compute_pdu_header_size e s + seg_size s, buf') /\
    length buf' = length buf /\
    um_pdu (sn_field_length e) (sdu_sn u) s (seg_bytes (heap e) s)
      (take (Z.to_nat (compute_pdu_header_size e s + seg_size s)) buf').
Proof.
  intros C Hu H0 H1 H2 HB HB' Hsz. pose proof (header_size_bounds e s).
  rewrite (serialize_fields e s u) by (unfold sdu_of; by rewrite Hu).
  destruct (um_fields_ok e (sdu_sn u) s C) as [F W].
  unfold seg_bytes, seg_data. rewrite Hu.
  set (D := take (Z.to_nat (seg_size s)) (drop (Z.to_nat (seg_so s)) (sdu_data u))).
  assert (HD : Z.of_nat (length D) = seg_size s) by (unfold D; rewrite length_take, length_drop; lia).
  destruct (put_header _ buf size _ D F W) as (enc & B & -> & Hb & HH & buf' & Hbl & Ht & Hl & _);
    [lia|lia|done|].
  simpl. rewrite slice_done by lia. fold D. simpl. rewrite Hb, Hbl. simpl.
  eexists. split; [reflexivity|]. split; [done|]. rewrite HD in Ht. exists B. split; [done|].
  split; [done|]. split; [|done]. by apply Forall_take, Forall_drop.
Qed.

(** ** Reception of a PDU made of the fields of a segment *)

(** What [recv_pdu] does once the header is decoded. *)
Definition recv_data (e : nr_rlc_entity_um_t) (is_first is_last : bool) (sn so size : Z)
    (D : list Z) : outcome nr_rlc_entity_um_t :=
  if rx_size e + Z.of_nat (length D) >? rx_maxsize e then discard_pdu e size
  else if sn_compare_rx e sn (rx_next_reassembly e) <? 0 then discard_pdu e size
  else
    let e := e <| rx_size ::= Z.add (Z.of_nat (length D)) |> in
    reception_actions
      (e <| rx_list ::= fun l => nr_rlc_pdu_list_add (sn_compare_rx e) l
              (mk_pdu sn (Some D) (Z.of_nat (length D)) so is_first is_last) |>) sn.

Lemma recv_segment_data e B D is_first is_last sn so d :
  dec_wf d -> dec_bits d = bytes_bits D -> d_size d = Z.of_nat (length (B ++ D)) ->
  0 < Z.of_nat (length D) ->
  recv_segment e (B ++ D) (Z.of_nat (length (B ++ D))) is_first is_last sn so d
  = recv_data e is_first is_last sn so (Z.of_nat (length (B ++ D))) D.
Proof.
  intros W Hb Hs HD. pose proof (dec_bits_length d W) as L.
  rewrite Hb, length_bytes_bits, Hs in L. destruct W as (_ & ? & ? & _).
  unfold recv_segment, recv_data.
  replace (Z.of_nat (length (B ++ D)) - d_byte d) with (Z.of_nat (length D)) by lia.
  cif; zbool; [lia|]. do 2 (cif; [done|]).
  rewrite slice_done by (rewrite ?length_app; lia). simpl.
  rewrite drop_app_length', take_ge by (rewrite ?length_app; lia).
  unfold nr_rlc_new_pdu. rewrite slice_done by lia. simpl.
  by rewrite drop_0, take_ge by lia.
Qed.

(** A segment as the receiver expects it. *)
Definition rx_seg (s : nr_rlc_sdu_segment_t) : Prop :=
  0 < seg_size s /\ (if seg_is_first s then seg_so s = 0 else 0 < seg_so s < 65536).

Lemma recv_sn_data e s sn B D d :
  um_cfg e -> rx_seg s -> 0 <= sn < sn_modulus e -> Z.of_nat (length D) = seg_size s ->
  dec_wf d -> d_size d = Z.of_nat (length (B ++ D)) ->
  dec_bits d = val_bits (Z.to_nat (sn_field_length e)) sn
    ++ (if seg_is_first s then [] else val_bits (Z.to_nat 16) (seg_so s)) ++ bytes_bits D ->
  recv_sn e (B ++ D) (Z.of_nat (length (B ++ D))) (seg_is_first s) (seg_is_last s) d
  = recv_data e (seg_is_first s) (seg_is_last s) sn (seg_so s) (Z.of_nat (length (B ++ D))) D.
Proof.
  intros [L M _] [Hsz Hso] Hsn Hlen Wd Sd Bd. rewrite M in Hsn. unfold recv_sn.
  match goal with |- get_or _ _ ?er ?k = _ =>
    destruct (get_or_ok d sn (sn_field_length e) _ er k Wd ltac:(destruct L; lia) Hsn Bd)
      as (d2 & -> & W2 & D2 & S2) end.
  cbv beta. destruct (seg_is_first s) eqn:Ef; cbn [negb].
  - rewrite recv_segment_data by (done || congruence || lia). by rewrite Hso.
  - match goal with |- get_or _ _ ?er ?k = _ =>
      destruct (get_or_ok d2 (seg_so s) 16 (bytes_bits D) er k W2)
        as (d3 & -> & W3 & D3 & S3); [lia|lia|done|] end.
    cbv beta. cif; zbool; [lia|]. by rewrite recv_segment_data by (done || congruence || lia).
Qed.

(** The bits of a PDU: SI, then what follows. *)
Lemma um_pdu_bits snl sn s B D :
  bytes_bits B = fields_bits (um_fields snl sn s) ->
  bytes_bits (B ++ D) =
    val_bits (Z.to_nat 2) (2 * (1 - b2z (seg_is_first s)) + (1 - b2z (seg_is_last s)))
    ++ (if seg_is_first s && seg_is_last s then val_bits 6 0
        else (if snl =? 12 then val_bits (Z.to_nat 2) 0 else []) ++ val_bits (Z.to_nat snl) sn)
    ++ (if seg_is_first s then [] else val_bits (Z.to_nat 16) (seg_so s)) ++ bytes_bits D.
Proof.
  intros H. rewrite bytes_bits_app, H. unfold um_fields.
  destruct (seg_is_first s), (seg_is_last s), (snl =? 12); simpl; by rewrite <- ?app_assoc.
Qed.

(** A PDU with the header of a segment: a complete SDU is delivered at once, a
    segment goes to the receive list. *)
Lemma um_recv_pdu e sn s D P :
  um_cfg e -> um_pdu (sn_field_length e) sn s D P -> 0 <= sn < sn_modulus e -> rx_seg s ->
  exists st,
    nr_rlc_entity_um_recv_pdu e P (Z.of_nat (length P)) =
    if seg_is_first s && seg_is_last s
    then Done (e <| stats := st |> <| trace ::= fun t => t ++ [DeliverSdu D] |>)
    else recv_data (e <| stats := st |>) (seg_is_first s) (seg_is_last s) sn (seg_so s)
           (Z.of_nat (length P)) D.
Proof.
  intros C (B & -> & (HB & Hbits) & HD & Hlen) Hsn Hs.
  pose proof (um_fields_ok e sn s C) as [F W].
  pose proof (header_of_length _ B _ F W (conj HB Hbits)) as HBl.
  assert (W0 : dec_wf (nr_rlc_pdu_decoder_init (B ++ D) (Z.of_nat (length (B ++ D)))))
    by (apply dec_init_wf, Forall_app_2; done).
  pose proof (um_pdu_bits _ _ _ _ D Hbits) as B0.
  set (si := 2 * (1 - b2z (seg_is_first s)) + (1 - b2z (seg_is_last s))) in B0.
  assert (Hsi : 0 <= si < 2 ^ 2)
    by (unfold si; destruct (seg_is_first s), (seg_is_last s); simpl; lia).
  unfold nr_rlc_entity_um_recv_pdu.
  match goal with |- exists st, get_or _ _ ?er ?k = _ =>
    destruct (get_or_ok _ si 2 _ er k W0 ltac:(lia) Hsi B0) as (d1 & -> & W1 & D1 & S1) end.
  simpl in S1. cbv beta zeta.
  replace (Z.land si 2 =? 0) with (seg_is_first s)
    by (unfold si; by destruct (seg_is_first s), (seg_is_last s)).
  replace (Z.land si 1 =? 0) with (seg_is_last s)
    by (unfold si; by destruct (seg_is_first s), (seg_is_last s)).
  destruct (seg_is_first s && seg_is_last s) eqn:Efl.
  - assert (HB1 : Z.of_nat (length B) = 1).
    { rewrite HBl. unfold compute_pdu_header_size. rewrite Efl.
      apply andb_true_iff in Efl as [-> _]. done. }
    destruct Hs as [Hsz _]. rewrite length_app in *. cif; zbool; [lia|].
    rewrite slice_done by (rewrite ?length_app; lia). simpl.
    rewrite drop_app_length', take_ge by lia. eexists; reflexivity.
  - eexists (_ <| rxpdu_pkts ::= add32 1 |> <| rxpdu_bytes ::= add32 _ |>).
    cbn [sn_field_length upd]. rewrite <- app_assoc in D1. destruct (sn_field_length e =? 12).
    + match goal with |- get_or _ _ ?er ?k = _ =>
        destruct (get_or_ok d1 0 2 _ er k W1 ltac:(lia) ltac:(lia) D1)
          as (d3 & -> & W3 & D3 & S3) end.
      apply recv_sn_data; done || congruence || by destruct C.
    + apply recv_sn_data; done || congruence || by destruct C.
Qed.

(** ** Invariant of the transmit side *)

(** A segment waiting for transmission: the rest of an SDU from [seg_so] on. *)
Definition tx_seg_ok (h : sdu_heap) (s : nr_rlc_sdu_segment_t) : Prop :=
  exists u, h_sdus h !! seg_sdu s = Some u /\ sdu_size u <= NR_SDU_MAX /\
    seg_is_last s = true /\ seg_so s + seg_size s = sdu_size u /\ 0 < seg_size s /\
    (if seg_is_first s then seg_so s = 0 else 0 < seg_so s).

(** What the segments need as PDUs, headers included. *)
Definition pdus_bytes (e : nr_rlc_entity_um_t) (l : list nr_rlc_sdu_segment_t) : Z :=
  foldr (fun s a => compute_pdu_header_size e s + seg_size s + a) 0 l.

(** [leak] bytes are counted in [tx_size] without being queued. *)
Record um_tx_ok (leak : Z) (e : nr_rlc_entity_um_t) : Prop := {
  tx_cfg : um_cfg e;
  tx_heap : heap_ok (heap e) (tx_list e);
  tx_segs : Forall (tx_seg_ok (heap e)) (tx_list e);
  tx_tail : Forall (fun s => seg_is_first s = true) (tail (tx_list e));
  tx_endp : tx_end e = seg_end (tx_list e);
  tx_bytes : tx_size e = segs_bytes (tx_list e) + leak;
  tx_bs : bs_tx_size (bstatus e) = pdus_bytes e (tx_list e);
  tx_max : tx_size e <= tx_maxsize e;
  tx_sn : 0 <= tx_next e < sn_modulus e
}.

(** The SDUs not entirely sent. *)
Definition pending (e : nr_rlc_entity_um_t) : list (list Z) := map (seg_data (heap e)) (tx_list e).

Lemma um_new_ok rxm txm t snl :
  snl = 6 \/ snl = 12 -> 0 <= txm ->
  exists e, new_nr_rlc_entity_um rxm txm t snl = Done e /\ um_tx_ok 0 e /\ sn_field_length e = snl /\
    rx_maxsize e = rxm /\ tx_maxsize e = txm /\ trace e = [] /\ tx_list e = [] /\ um_cfg e.
Proof.
  intros L H. unfold new_nr_rlc_entity_um.
  destruct L as [-> | ->]; simpl; (eexists; split; [reflexivity|]; split; [|split_and!; try done;
    constructor; simpl; auto]); (constructor; simpl; try done; try lia; try apply heap_ok_empty;
    constructor; simpl; auto).
Qed.

Lemma heap_same_segs h h' l :
  heap_same h h' l -> Forall (tx_seg_ok h) l -> Forall (tx_seg_ok h') l.
Proof.
  intros S F. apply Forall_forall. intros s Hs. rewrite Forall_forall in F. unfold heap_same in S.
  rewrite Forall_forall in S. destruct (F s Hs) as (v & Hv & ?).
  destruct (S s Hs) as (u & u' & Hu & Hu' & _ & Hz & _). rewrite Hv in Hu. injection Hu as <-.
  exists u'. rewrite Hz. done.
Qed.

(** ** Transmission *)

Definition next_tx_sn (e : nr_rlc_entity_um_t) (s : nr_rlc_sdu_segment_t) : Z :=
  if negb (seg_is_first s) && seg_is_last s then Z.rem (tx_next e + 1) (sn_modulus e) else tx_next e.

(** Sending the segment [s], taken out of the list before. *)
Lemma send_segment_ok e s u buf size now :
  um_cfg e -> heap_ok (heap e) (s :: tx_list e) -> h_sdus (heap e) !! seg_sdu s = Some u ->
  Forall is_byte buf -> compute_pdu_header_size e s + seg_size s <= size <= Z.of_nat (length buf) ->
  exists b h' st tr buf',
    send_segment e s buf size now = Done (compute_pdu_header_size e s + seg_size s,
      e <| tx_next := next_tx_sn e s |> <| tx_size ::= fun x => x - seg_size s |>
        <| stats := st |> <| trace := tr |> <| heap := h' |>, buf') /\
    nr_rlc_free_sdu_segment (heap e) s = Done (b, h') /\ heap_ok h' (tx_list e) /\
    length buf' = length buf /\
    um_pdu (sn_field_length e) (sdu_sn u) s (seg_bytes (heap e) s)
      (take (Z.to_nat (compute_pdu_header_size e s + seg_size s)) buf').
Proof.
  intros C Hok Hu HB Hsz.
  destruct (heap_ok_sdu_of _ _ s Hok) as (u' & _ & Hu' & H0 & H1 & H2); [left|].
  rewrite Hu in Hu'. injection Hu' as <-.
  destruct (ho_sdus _ _ Hok _ _ Hu) as (_ & _ & _ & _ & Hlen & HBu).
  destruct (free_segment_ok _ _ _ Hok) as (u' & b & h' & _ & Hf & Hok' & _).
  destruct (serialize_ok (e <| tx_next := next_tx_sn e s |>) s u buf size)
    as (buf' & Hser & Hl & Hp); [by destruct C|done..|lia|done|done|done|].
  assert (E : (if negb (seg_is_first s) && seg_is_last s
           then e <| tx_next := Z.rem (tx_next e + 1) (sn_modulus e) |> else e)
     = e <| tx_next := next_tx_sn e s |>).
  { unfold next_tx_sn. destruct (negb _ && _); [done|by destruct e]. }
  unfold send_segment. rewrite E, Hser. unfold mbind, outcome_bind, sdu_of. simpl. rewrite Hu.
  simpl. exists b, h'. destruct (avg_time_is_on e); simpl; rewrite Hf; simpl;
    (eexists _, _, buf'; split; [reflexivity|]; split_and!; done).
Qed.

(** Unlinking the head of the list keeps the end pointer right. *)
Lemma um_unlink e s r :
  tx_end e = seg_end (tx_list e) -> tx_list e = s :: r ->
  (if r is [] then e <| tx_list := r |> <| tx_end := None |> else e <| tx_list := r |>)
  = e <| tx_list := r |> <| tx_end := seg_end r |>.
Proof. intros He El. destruct r; [done|]. simpl. by rewrite He, El. Qed.

(** Linking [s] in front of the list. *)
Lemma um_link e s :
  tx_end e = seg_end (tx_list e) ->
  (if tx_end (e <| tx_list ::= cons s |>) is None
   then e <| tx_list ::= cons s |> <| tx_end := Some (seg_id s) |> else e <| tx_list ::= cons s |>)
  = e <| tx_list ::= cons s |> <| tx_end := seg_end (s :: tx_list e) |>.
Proof.
  intros He. simpl. rewrite He. destruct (tx_list e) as [|t r] eqn:El; [done|].
  rewrite seg_end_cons. destruct (seg_end (t :: r)) eqn:E; [|].
  - done.
  - unfold seg_end in E. apply fmap_None, last_None in E. done.
Qed.

(** What a grant of [size] bytes does to the queue [s :: r]: the segment [s1] of
    [s] is sent; [l] is the queue after it. *)
Definition sent (e : nr_rlc_entity_um_t) (s s1 : nr_rlc_sdu_segment_t) (l : list nr_rlc_sdu_segment_t)
    (r : list nr_rlc_sdu_segment_t) (size : Z) : Prop :=
  seg_sdu s1 = seg_sdu s /\ seg_so s1 = seg_so s /\ seg_is_first s1 = seg_is_first s /\
  0 < seg_size s1 <= seg_size s /\ compute_pdu_header_size e s1 + seg_size s1 <= size /\
  if seg_is_last s1 then seg_size s1 = seg_size s /\ l = r
  else compute_pdu_header_size e s1 + seg_size s1 = size /\
    exists s2, l = s2 :: r /\ seg_sdu s2 = seg_sdu s /\ seg_so s2 = seg_so s + seg_size s1 /\
      seg_size s2 = seg_size s - seg_size s1 /\ 0 < seg_size s2 /\
      seg_is_first s2 = false /\ seg_is_last s2 = seg_is_last s.

(** The queue after a grant, with its invariant. *)
Record granted (leak : Z) (e : nr_rlc_entity_um_t) (s : nr_rlc_sdu_segment_t)
    (r : list nr_rlc_sdu_segment_t) (size n : Z) (e' : nr_rlc_entity_um_t) (P : list Z) : Prop := {
  gr_ok : um_tx_ok leak e';
  gr_max : tx_maxsize e' = tx_maxsize e;
  gr_snl : sn_field_length e' = sn_field_length e;
  gr_sent : exists s1, sent e s s1 (tx_list e') r size /\
    n = compute_pdu_header_size e s1 + seg_size s1 /\ tx_next e' = next_tx_sn e s1 /\
    um_pdu (sn_field_length e) (tx_next e) s1 (seg_bytes (heap e) s1) P;
  gr_same : heap_same (heap e) (heap e') (tx_list e')
}.

Lemma next_tx_sn_bounds e s :
  0 < sn_modulus e -> 0 <= tx_next e < sn_modulus e -> 0 <= next_tx_sn e s < sn_modulus e.
Proof.
  intros. unfold next_tx_sn. cif; [|done]. rewrite Z.rem_mod_nonneg by lia. apply Z.mod_pos_bound. lia.
Qed.

(** A grant that holds the whole of the segment at the head. *)
Lemma grant_whole leak e s r buf size now :
  um_tx_ok leak e -> tx_list e = s :: r -> Forall is_byte buf ->
  compute_pdu_header_size e s + seg_size s <= size <= Z.of_nat (length buf) ->
  exists n e' buf', generate_tx_pdu e buf size now = Done (n, e', buf') /\
    length buf' = length buf /\ granted leak e s r size n e' (take (Z.to_nat n) buf').
Proof.
  intros [C Hh Hs Ht He Hb Hbs Hm Hsn] El HB Hsz. rewrite El in *.
  pose proof (header_size_bounds e s). pose proof (um_cfg_bounds e C).
  apply Forall_cons in Hs as [(u & Hu & Hmax & Hlast & Hso & Hpos & Hfst) Hs].
  set (u' := u <| sdu_sn := tx_next e |>).
  set (h0 := set_sdu (heap e) (seg_sdu s) u').
  assert (Hh0 : heap_ok h0 (s :: r)) by (by apply (set_sdu_ok _ _ _ u)).
  unfold generate_tx_pdu. rewrite El.
  cif; zbool; [lia|]. rewrite (um_unlink e s r) by (by rewrite ?El).
  unfold sdu_of. simpl. rewrite Hu. simpl. cif; zbool; [lia|].
  set (e0 := mk_um _ _ _ _ _ _ _ _ _ _ _ _ _ _ _ _ _ _ _ _ _ _).
  destruct (send_segment_ok e0 s u' buf size now) as (b & h' & st & tr & buf' & -> & Hf & Hh' & Hl & Hp);
    [by destruct C|done|by apply lookup_insert_eq|done|done|].
  eexists _, _, _. split; [reflexivity|]. split; [done|].
  assert (Hsame : heap_same (heap e) h' r).
  { eapply heap_same_trans; [|by eapply (heap_same_free h0)].
    apply (heap_same_set _ _ u); try done. pose proof (ho_segs _ _ Hh) as A.
    by apply Forall_cons in A as [_ A]. }
  assert (Hdat : seg_bytes h0 s = seg_bytes (heap e) s).
  { unfold seg_bytes. unfold h0. by rewrite (set_sdu_data _ _ u). }
  split; try done.
  - simpl in Hb, Hbs. split; simpl; try done.
    + by destruct C.
    + by eapply heap_same_segs.
    + simpl in Ht. by destruct r as [|t r]; [|apply Forall_cons in Ht as [_ Ht]].
    + lia.
    + transitivity (pdus_bytes e r); [|done]. rewrite Hbs.
      change (pdus_bytes e (s :: r)) with (compute_pdu_header_size e s + seg_size s + pdus_bytes e r).
      change (compute_pdu_header_size (e <| tx_list := r |> <| tx_end := seg_end r |>) s)
        with (compute_pdu_header_size e s). lia.
    + lia.
    + by apply (next_tx_sn_bounds e0); simpl; [lia|].
  - exists s. split; [|split; [done|split; [done|]]].
    + unfold sent. simpl. rewrite Hlast. split_and!; done || lia.
    + simpl in Hp. by rewrite <- Hdat.
Qed.

Lemma resegment_ok e s u size hd :
  h_sdus (heap e) !! seg_sdu s = Some u ->
  compute_pdu_header_size e (s <| seg_is_last := false |>) = hd -> hd + 1 <= size ->
  let s1 := s <| seg_size ::= fun x => x - (hd + seg_size s - size) |> <| seg_is_last := false |> in
  resegment s e size = Done
    (e <| heap := set_sdu (heap e) (seg_sdu s) (u <| sdu_ref_count ::= Z.add 1 |>) <| h_next ::= S |> |>
       <| stats; txpdu_segmented ::= add32 1 |>,
     s1,
     Some (s <| seg_id := h_next (heap e) |> <| seg_size := hd + seg_size s - size |>
             <| seg_so := seg_so s + seg_size s1 |> <| seg_is_first := false |>)).
Proof.
  intros Hu Hhd Hsz s1. unfold resegment, sdu_of. rewrite Hu. simpl.
  match goal with |- context [compute_pdu_header_size ?a ?b + 1 >? size] =>
    change (compute_pdu_header_size a b)
      with (compute_pdu_header_size e (s <| seg_is_last := false |>)) end.
  rewrite Hhd. cif; zbool; [lia|]. done.
Qed.

(** A grant smaller than the segment at the head, with room for its header as
    a segment that is not the last and for one byte. *)
Lemma grant_split leak e s r buf size now :
  um_tx_ok leak e -> tx_list e = s :: r -> Forall is_byte buf ->
  compute_pdu_header_size e s + 1 <= size ->
  compute_pdu_header_size e (s <| seg_is_last := false |>) + 1 <= size ->
  size < compute_pdu_header_size e s + seg_size s -> size <= Z.of_nat (length buf) ->
  exists n e' buf', generate_tx_pdu e buf size now = Done (n, e', buf') /\
    length buf' = length buf /\ granted leak e s r size n e' (take (Z.to_nat n) buf').
Proof.
  intros [C Hh Hs Ht He Hb Hbs Hm Hsn] El HB Hsz1 Hsz2 Hsz Hlen. rewrite El in *.
  pose proof (um_cfg_bounds e C).
  set (hd := compute_pdu_header_size e (s <| seg_is_last := false |>)) in *.
  assert (Hhd : compute_pdu_header_size e s <= hd <= 4).
  { unfold hd. split; [|apply header_size_bounds]. unfold compute_pdu_header_size. simpl.
    destruct (seg_is_first s), (seg_is_last s), (_ =? 12); simpl; lia. }
  apply Forall_cons in Hs as [(u & Hu & Hmax & Hlast & Hso & Hpos & Hfst) Hs].
  set (u' := u <| sdu_sn := tx_next e |>).
  set (u'' := u' <| sdu_ref_count ::= Z.add 1 |>).
  set (h0 := set_sdu (heap e) (seg_sdu s) u').
  set (h1 := set_sdu h0 (seg_sdu s) u'').
  set (s1 := s <| seg_size ::= fun x => x - (hd + seg_size s - size) |> <| seg_is_last := false |>).
  set (s2 := s <| seg_id := h_next h1 |> <| seg_size := hd + seg_size s - size |>
               <| seg_so := seg_so s + seg_size s1 |> <| seg_is_first := false |>).
  assert (Hh0 : heap_ok h0 (s :: r)) by (by apply (set_sdu_ok _ _ _ u)).
  assert (Hh1 : heap_ok (h1 <| h_next ::= S |>) (s1 :: s2 :: r)).
  { apply (split_segment_ok h0 s); try done; [by apply lookup_insert_eq|..];
      unfold seg_range, s1, s2, u'; simpl; destruct (seg_is_first s); lia. }
  unfold generate_tx_pdu. rewrite El.
  cif; zbool; [lia|]. rewrite (um_unlink e s r) by (by rewrite ?El).
  set (e1 := e <| tx_list := r |> <| tx_end := seg_end r |>).
  assert (Hsdu : sdu_of (heap e1) s = Done u) by (unfold sdu_of; simpl; by rewrite Hu).
  cbv zeta. rewrite Hsdu. unfold mbind, outcome_bind. cbv beta iota zeta.
  cif; zbool; [|lia].
  match goal with |- context [resegment s ?e1 size] =>
    rewrite (resegment_ok e1 s u' size hd) by (done || by apply lookup_insert_eq);
    unfold mbind, outcome_bind; cbv beta iota zeta; rewrite um_link by done end.
  simpl.
  set (e0 := mk_um _ _ _ _ _ _ _ _ _ _ _ _ _ _ _ _ _ _ _ _ _ _).
  change (mk_seg (seg_id s) (seg_sdu s) _ (seg_so s) (seg_is_first s) false) with s1.
  destruct (send_segment_ok e0 s1 u'' buf size now)
    as (b & h' & st & tr & buf' & -> & Hf & Hh' & Hl & Hp);
    [by destruct C|done|by apply lookup_insert_eq|done|change (compute_pdu_header_size e0 s1) with hd;
      unfold s1; simpl; lia|].
  eexists _, _, _. split; [reflexivity|]. split; [done|].
  assert (Hsame : heap_same (heap e) h' (s2 :: r)).
  { assert (A : Forall (seg_in (heap e)) (s :: r)) by apply Hh.
    apply heap_same_trans with (h1 <| h_next ::= S |>); [|by eapply heap_same_free].
    apply Forall_cons in A as [_ A].
    assert (S0 : heap_same (heap e) h1 r).
    { apply heap_same_trans with h0; [by apply (heap_same_set _ _ u)|].
      apply (heap_same_set _ _ u'); [|by apply lookup_insert_eq|done..].
      pose proof (ho_segs _ _ Hh0) as A0. by apply Forall_cons in A0 as [_ A0]. }
    apply Forall_cons. split; [|exact S0].
    exists u, u''. split; [done|]. split; [apply lookup_insert_eq|done]. }
  assert (Hdat : seg_bytes (heap e0) s1 = seg_bytes (heap e) s1).
  { unfold seg_bytes, seg_data, e0; simpl. by rewrite lookup_insert_eq, Hu. }
  split; try done.
  - simpl in Hb, Hbs. split; simpl; try done.
    + by destruct C.
    + apply (heap_same_segs _ _ _ Hsame). constructor; [|done]. exists u.
      unfold s2, s1; simpl. split_and!; try done; destruct (seg_is_first s); lia.
    + lia.
    + transitivity (pdus_bytes e (s2 :: r)); [|done]. rewrite Hbs.
      change (pdus_bytes e (?x :: r)) with (compute_pdu_header_size e x + seg_size x + pdus_bytes e r).
      match goal with |- compute_pdu_header_size ?a ?b + _ + (_ - (?c + _)) = _ =>
        change (compute_pdu_header_size a b) with (compute_pdu_header_size e s2);
        change c with (compute_pdu_header_size e s) end.
      change (seg_size s2) with (hd + seg_size s - size). lia.
    + lia.
    + by apply (next_tx_sn_bounds e0); simpl; [lia|].
  - exists s1. split; [|split; [done|split; [done|]]].
    + unfold sent. change (compute_pdu_header_size e s1) with hd. simpl. split_and!; try done; try lia.
      exists s2. split_and!; try done; unfold s2; simpl; lia.
    + simpl in Hp. by rewrite <- Hdat.
Qed.

(** A grant too small for the header of the head segment and a byte. *)
Definition no_room (e : nr_rlc_entity_um_t) (size : Z) : bool :=
  match tx_list e with [] => true | s :: _ => compute_pdu_header_size e s + 1 >? size end.

Lemma generate_no_room e buf size now :
  no_room e size = true -> nr_rlc_entity_um_generate_pdu e buf size now = Done (0, e, buf).
Proof.
  unfold no_room, nr_rlc_entity_um_generate_pdu, generate_tx_pdu.
  destruct (tx_list e); [done|]. by intros ->.
Qed.

Lemma generate_ok leak e s r buf size now :
  um_tx_ok leak e -> tx_list e = s :: r -> no_room e size = false ->
  Forall is_byte buf -> size <= Z.of_nat (length buf) ->
  (sn_field_length e = 12 -> size <> 2) ->
  exists n e' buf', nr_rlc_entity_um_generate_pdu e buf size now = Done (n, e', buf') /\
    length buf' = length buf /\ granted leak e s r size n e' (take (Z.to_nat n) buf').
Proof.
  intros Hok El Hroom HB Hsz H2. unfold no_room in Hroom. rewrite El in Hroom. zbool.
  destruct (decide (compute_pdu_header_size e s + seg_size s <= size)) as [Hw|Hw].
  - by apply grant_whole.
  - apply grant_split; try done; try lia.
    pose proof (tx_segs _ _ Hok) as F. rewrite El in F.
    apply Forall_cons in F as [(u & _ & _ & Hlast & _) _].
    destruct (tx_cfg _ _ Hok) as [L _ _]. revert Hroom. unfold compute_pdu_header_size. simpl.
    rewrite Hlast. destruct (seg_is_first s); simpl; destruct L as [L|L]; rewrite L in *; simpl; lia.
Qed.

(** ** Queueing, discarding, clearing *)

Lemma um_set_arrival leak e p u now :
  um_tx_ok leak e -> h_sdus (heap e) !! p = Some u ->
  let e' := e <| heap ::= fun h => set_sdu h p (u <| sdu_time_of_arrival := now |>) |> in
  um_tx_ok leak e' /\ pending e' = pending e.
Proof.
  intros [C Hh Hs Ht He Hb Hbs Hm Hsn] Hu. simpl.
  assert (Hsame : heap_same (heap e) (set_sdu (heap e) p (u <| sdu_time_of_arrival := now |>)) (tx_list e))
    by (apply (heap_same_set _ _ u); [apply Hh|done..]).
  split; [split; simpl; try done|].
  - by destruct C.
  - by apply (set_sdu_ok _ _ _ u).
  - by eapply heap_same_segs.
  - by apply heap_same_data.
Qed.

Lemma um_enqueue leak e d id s h' st :
  um_tx_ok leak e -> tx_size e + Z.of_nat (length d) <= tx_maxsize e ->
  Forall is_byte d -> 0 < Z.of_nat (length d) <= NR_SDU_MAX ->
  nr_rlc_new_sdu (heap e) d (Z.of_nat (length d)) id = Done (s, h') ->
  let e' := e <| stats := st |> <| tx_size ::= Z.add (Z.of_nat (length d)) |> <| heap := h' |>
              <| tx_list := tx_list e ++ [s] |> <| tx_end := Some (seg_id s) |>
              <| bstatus; bs_tx_size ::= Z.add (compute_pdu_header_size e s + seg_size s) |> in
  um_tx_ok leak e' /\ pending e' = pending e ++ [d] /\ is_Some (h_sdus h' !! seg_sdu s).
Proof.
  intros [C Hh Hs Ht He Hb Hbs Hm Hsn] Hsz HB Hd Hn.
  destruct (new_sdu_ok _ _ _ _ _ _ _ Hh Hn HB) as (Hh' & _ & Hseg & _ & Hsd).
  rewrite Nat2Z.id, take_ge in Hsd by done.
  pose proof (heap_same_new _ _ _ _ _ _ _ Hh Hn) as Hsame.
  assert (Hu : h_sdus h' !! seg_sdu s = Some (mk_sdu (-1) id d (Z.of_nat (length d)) (-1) 1 0 0))
    by (by rewrite Hsd, lookup_insert_eq).
  split; [split; simpl; try done|split].
  - by destruct C.
  - by rewrite Permutation_app_comm.
  - apply Forall_app_2; [by eapply heap_same_segs|]. constructor; [|constructor].
    eexists. split; [exact Hu|]. subst s. simpl. split_and!; done || lia.
  - destruct (tx_list e) as [|t l]; simpl in *; [constructor|].
    apply Forall_app_2; [done|]. constructor; [by subst s|constructor].
  - by rewrite seg_end_app.
  - rewrite segs_bytes_app, Hb. subst s. simpl. lia.
  - transitivity (pdus_bytes e (tx_list e ++ [s])); [|done]. rewrite Hbs.
    unfold pdus_bytes. rewrite foldr_app. simpl. generalize (tx_list e).
    induction l as [|t l IH]; simpl; lia.
  - lia.
  - unfold pending; simpl. rewrite map_app. f_equal; [by apply heap_same_data|].
    simpl. unfold seg_data. by rewrite Hu.
  - by rewrite Hu.
Qed.

Lemma um_recv_sdu_ok leak e d id now :
  um_tx_ok leak e -> Forall is_byte d -> 0 < Z.of_nat (length d) <= NR_SDU_MAX ->
  exists e', nr_rlc_entity_um_recv_sdu e d (Z.of_nat (length d)) id now = Done e' /\
    um_tx_ok leak e' /\ tx_maxsize e' = tx_maxsize e /\ sn_field_length e' = sn_field_length e /\
    tx_next e' = tx_next e /\
    (if tx_size e + Z.of_nat (length d) >? tx_maxsize e
     then tx_list e' = tx_list e /\ heap e' = heap e
     else exists s, tx_list e' = tx_list e ++ [s] /\ seg_is_first s = true /\
       pending e' = pending e ++ [d]).
Proof.
  intros Hok HB Hd. unfold nr_rlc_entity_um_recv_sdu. simpl.
  destruct (_ >? NR_SDU_MAX) eqn:E1; zbool; [lia|].
  destruct (tx_size e + _ >? tx_maxsize e) eqn:E2; zbool.
  { eexists; split; [reflexivity|]. split; [|done]. destruct Hok as [[] ? ? ? ? ? ? ? ?]. by split. }
  destruct (new_sdu_done (heap e) d (Z.of_nat (length d)) id) as (s & h' & Hn); [lia|].
  assert (Hfs : seg_is_first s = true).
  { destruct (new_sdu_ok _ _ _ _ _ _ _ (tx_heap _ _ Hok) Hn HB) as (_ & _ & -> & _). done. }
  rewrite Hn. simpl. rewrite (tx_endp _ _ Hok), list_append_ok by apply Hok. simpl.
  destruct (um_enqueue leak e d id s h'
    (stats e <| rxsdu_pkts ::= add32 1 |> <| rxsdu_bytes ::= add64 (Z.of_nat (length d)) |>)
    Hok ltac:(lia) HB Hd Hn) as (Hok' & Hp & [u Hu]).
  revert Hok' Hp. simpl. destruct (avg_time_is_on e); intros Hok' Hp.
  - unfold sdu_of. rewrite Hu. simpl. eexists; split; [reflexivity|].
    destruct (um_set_arrival leak _ (seg_sdu s) u now Hok' Hu) as [G1 G2].
    split; [exact G1|]. do 3 (split; [done|]). exists s. split; [done|]. split; [done|].
    rewrite <- Hp. exact G2.
  - eexists; split; [reflexivity|]. split; [exact Hok'|]. do 3 (split; [done|]). by exists s.
Qed.

Lemma pdus_bytes_app e l1 l2 : pdus_bytes e (l1 ++ l2) = pdus_bytes e l1 + pdus_bytes e l2.
Proof. unfold pdus_bytes. induction l1; simpl; lia. Qed.

(** Discarding an SDU not yet sent in part takes it out of the queue, but its
    bytes stay counted in [tx_size]. *)
Lemma um_discard_ok leak e id :
  um_tx_ok leak e ->
  exists e' lost, nr_rlc_entity_um_discard_sdu e id = Done e' /\ um_tx_ok (leak + lost) e' /\
    tx_maxsize e' = tx_maxsize e /\ sn_field_length e' = sn_field_length e /\ tx_size e' = tx_size e /\
    ((lost = 0 /\ e' = e) \/
     exists pre s post, tx_list e = pre ++ s :: post /\ tx_list e' = pre ++ post /\
       lost = seg_size s /\ 0 < lost).
Proof.
  intros Hok. pose proof Hok as [C Hh Hs Ht He Hb Hbs Hm Hsn].
  unfold nr_rlc_entity_um_discard_sdu.
  destruct (find_sdu_ok (heap e) id (tx_list e)) as (pre & x & -> & Hx); [apply Hh|].
  unfold mbind, outcome_bind. destruct x as [[s post]|].
  2: { exists e, 0. rewrite Z.add_0_r. split_and!; try done. by left. }
  destruct (_ || _) eqn:Efl.
  { exists e, 0. rewrite Z.add_0_r. split_and!; try done. by left. }
  destruct Hx as [El _]. rewrite El in Hs, Ht, Hb, Hbs.
  apply Forall_app in Hs as [Hpre Hs]. apply Forall_cons in Hs as [(u & Hu & Hmax & Hl & Hso & Hpos & Hf) Hpost].
  assert (Hh' : heap_ok (heap e) (s :: pre ++ post)) by (by rewrite Permutation_middle, <- El).
  destruct (free_segment_ok _ _ _ Hh') as (v & b & h' & _ & Hfr & Hh2 & _).
  pose proof (heap_same_free _ _ _ _ _ Hh' Hfr) as Hsame.
  assert (Hend : (if bool_decide (tx_end (e <| tx_list := pre ++ post |>) = Some (seg_id s))
      then e <| tx_list := pre ++ post |> <| tx_end := seg_end pre |> else e <| tx_list := pre ++ post |>)
    = e <| tx_list := pre ++ post |> <| tx_end := seg_end (pre ++ post) |>).
  { simpl. rewrite He, El. unfold seg_end. rewrite last_app. destruct post as [|t post].
    - simpl. rewrite bool_decide_true by done. by rewrite app_nil_r.
    - rewrite last_cons_cons, bool_decide_false.
      + by rewrite last_app.
      + destruct (last (t :: post)) as [z|] eqn:Elz; [|by apply last_None in Elz]. simpl. intros [= Ez].
        pose proof (ho_nodup _ _ Hh') as ND. simpl in ND. apply NoDup_cons in ND as [Hnin _].
        apply Hnin. rewrite <- Ez. apply list_elem_of_fmap_2, elem_of_app. right.
        by apply last_Some_elem_of. }
  cbv zeta. rewrite Hend.
  match goal with |- context [nr_rlc_free_sdu_segment ?h s] => change h with (heap e) end. rewrite Hfr.
  eexists _, (seg_size s). split; [reflexivity|]. split; [|split_and!; try done].
  - rewrite segs_bytes_app in Hb. rewrite pdus_bytes_app in Hbs. simpl in Hb.
    split; simpl; try done.
    + by destruct C.
    + apply (heap_same_segs _ _ _ Hsame). by apply Forall_app_2.
    + destruct pre as [|q pre]; simpl in *.
      * by destruct post; [|apply Forall_cons in Ht as [_ Ht]].
      * apply Forall_app in Ht as [? Ht]. apply Forall_cons in Ht as [_ ?]. by apply Forall_app_2.
    + rewrite segs_bytes_app. lia.
    + transitivity (pdus_bytes e (pre ++ post)); [|done]. rewrite pdus_bytes_app, Hbs.
      change (pdus_bytes e (s :: post)) with (compute_pdu_header_size e s + seg_size s + pdus_bytes e post).
      match goal with |- context [_ - (?c + _)] => change c with (compute_pdu_header_size e s) end. lia.
  - right. exists pre, s, post. done.
Qed.

Lemma um_reestablish_ok leak e :
  um_tx_ok leak e -> 0 <= tx_maxsize e ->
  exists e', nr_rlc_entity_um_reestablishment e = Done e' /\ um_tx_ok 0 e' /\
    tx_maxsize e' = tx_maxsize e /\ sn_field_length e' = sn_field_length e /\
    tx_list e' = [] /\ rx_list e' = [] /\ h_sdus (heap e') = ∅.
Proof.
  intros [C Hh _ _ _ _ _ _ _] Hm. pose proof (um_cfg_bounds e C).
  unfold nr_rlc_entity_um_reestablishment, clear_entity.
  destruct (free_list_ok (tx_list e) (heap e) []) as (h' & E & Hh'); [by rewrite app_nil_r|].
  match goal with |- context [nr_rlc_free_sdu_segment_list ?h ?l] =>
    change h with (heap e); change l with (tx_list e) end. rewrite E. eexists; split; [reflexivity|].
  split; [|split_and!; try done; by apply heap_ok_nil].
  split; simpl; try done; try lia. by destruct C.
Qed.

(** ** Sequences of transmit operations *)

Inductive tx_op :=
| TxSend (sdu : list Z) (id now : Z)
| TxGrant (buffer : list Z) (now : Z)
| TxDiscard (id : Z)
| TxReestablish.

Definition tx_op_ok (snl : Z) (o : tx_op) : Prop :=
  match o with
  | TxSend d _ _ => Forall is_byte d /\ 0 < Z.of_nat (length d) <= NR_SDU_MAX
  | TxGrant buffer _ => Forall is_byte buffer /\ (snl = 12 -> length buffer <> 2%nat)
  | _ => True
  end.

Definition tx_step (e : nr_rlc_entity_um_t) (o : tx_op) : outcome nr_rlc_entity_um_t :=
  match o with
  | TxSend d id now => nr_rlc_entity_um_recv_sdu e d (Z.of_nat (length d)) id now
  | TxGrant buffer now =>
      '(_, e, _) ← nr_rlc_entity_um_generate_pdu e buffer (Z.of_nat (length buffer)) now; Done e
  | TxDiscard id => nr_rlc_entity_um_discard_sdu e id
  | TxReestablish => nr_rlc_entity_um_reestablishment e
  end.

Fixpoint tx_run (e : nr_rlc_entity_um_t) (os : list tx_op) : outcome nr_rlc_entity_um_t :=
  match os with [] => Done e | o :: r => e ← tx_step e o; tx_run e r end.

Definition is_discard (o : tx_op) : bool := match o with TxDiscard _ => true | _ => false end.

Lemma tx_step_ok snl leak e o :
  um_tx_ok leak e -> 0 <= leak -> sn_field_length e = snl -> 0 <= tx_maxsize e -> tx_op_ok snl o ->
  exists e' leak', tx_step e o = Done e' /\ um_tx_ok leak' e' /\ 0 <= leak' /\
    sn_field_length e' = snl /\ tx_maxsize e' = tx_maxsize e /\
    (is_discard o = false -> leak' <= leak).
Proof.
  intros Hok H0 Hs Hm Ho. destruct o as [d id now|buf now|id|]; simpl in *.
  - destruct (um_recv_sdu_ok leak e d id now Hok) as (e' & -> & Hok' & ? & ? & _); [apply Ho..|].
    exists e', leak. split_and!; done || congruence || lia.
  - destruct (no_room e (Z.of_nat (length buf))) eqn:Er.
    + rewrite (generate_no_room _ _ _ _ Er). exists e, leak. by split_and!; try lia.
    + destruct (tx_list e) as [|s r] eqn:El; [by unfold no_room in Er; rewrite El in Er|].
      destruct (generate_ok leak e s r buf (Z.of_nat (length buf)) now)
        as (n & e' & buf' & -> & _ & [Hok' Hmx Hsn _ _]); try done; [apply Ho| |].
      { rewrite Hs. intros E E2. destruct Ho as [_ H2]. apply (H2 E). lia. }
      exists e', leak. split_and!; done || congruence || lia.
  - destruct (um_discard_ok leak e id Hok) as (e' & lost & -> & Hok' & ? & ? & _ & Hl).
    exists e', (leak + lost). split_and!; try done; try congruence.
    destruct Hl as [[-> _]|(? & ? & ? & _ & _ & -> & ?)]; lia.
  - destruct (um_reestablish_ok leak e Hok Hm) as (e' & -> & Hok' & ? & ? & _).
    exists e', 0. split_and!; done || congruence || lia.
Qed.

(** Accounting of the transmit side of a UM entity.  From its creation, under
    every sequence of SDUs, grants (of any size other than two bytes with 12-bit
    SNs), discards and re-establishments, every call returns without touching
    freed memory, and then: the store holds exactly the SDUs of the queue, each
    referenced as often as its counters say; the buffer status is the size of
    the queue as PDUs, headers included; [tx_size] is at least the size of the
    queue and never above its limit; without a discard it is exactly the size
    of the queue. *)
Theorem um_accounting (snl rxm txm t : Z) (os : list tx_op) :
  snl = 6 \/ snl = 12 -> 0 <= txm -> Forall (tx_op_ok snl) os ->
  exists e0 e, new_nr_rlc_entity_um rxm txm t snl = Done e0 /\ tx_run e0 os = Done e /\
    heap_ok (heap e) (tx_list e) /\ tx_end e = seg_end (tx_list e) /\
    nr_rlc_entity_um_buffer_status e 0 = mk_bs 0 (pdus_bytes e (tx_list e)) 0 /\
    segs_bytes (tx_list e) <= tx_size e <= txm /\
    (Forall (fun o => is_discard o = false) os ->
     nr_rlc_entity_um_available_tx_space e = txm - segs_bytes (tx_list e)).
Proof.
  intros L Ht Hos.
  destruct (um_new_ok rxm txm t snl L Ht) as (e0 & E & Hok & Hs & _ & Hm & _).
  assert (Hgen : forall leak e, um_tx_ok leak e -> 0 <= leak -> sn_field_length e = snl ->
    tx_maxsize e = txm -> exists e' leak', tx_run e os = Done e' /\ um_tx_ok leak' e' /\ 0 <= leak' /\
      tx_maxsize e' = txm /\ (Forall (fun o => is_discard o = false) os -> leak' <= leak)).
  { clear -Hos Ht. induction Hos as [|o os Ho _ IH]; intros leak e Hok H0 Hs Hm.
    - exists e, leak. split_and!; done || lia.
    - destruct (tx_step_ok snl leak e o) as (e1 & l1 & E1 & Hok1 & H1 & Hs1 & Hm1 & Hd1); try done; [lia|].
      destruct (IH l1 e1) as (e2 & l2 & E2 & Hok2 & H2 & Hm2 & Hd2); try done; [congruence|].
      exists e2, l2. simpl. rewrite E1. split_and!; try done.
      intros F. apply Forall_cons in F as [F1 F2]. specialize (Hd1 F1). specialize (Hd2 F2). lia. }
  destruct (Hgen 0 e0) as (e & leak & Hr & [C Hh _ _ He Hb Hbs Hmx _] & H0 & Hm' & Hd); try done.
  exists e0, e. split_and!; try done; try lia.
  - unfold nr_rlc_entity_um_buffer_status. by rewrite Hbs.
  - intros F. unfold nr_rlc_entity_um_available_tx_space. specialize (Hd F). lia.
Qed.

Lemma um_accounting_witness :
  exists e0 e, new_nr_rlc_entity_um 100 100 35 6 = Done e0 /\
    tx_run e0 [TxSend [1; 2; 3] 1 0; TxSend [4; 5] 2 0; TxGrant [0; 0; 0] 0; TxDiscard 2] = Done e /\
    heap_ok (heap e) (tx_list e) /\ tx_end e = seg_end (tx_list e) /\
    nr_rlc_entity_um_buffer_status e 0 = mk_bs 0 (pdus_bytes e (tx_list e)) 0 /\
    segs_bytes (tx_list e) <= tx_size e <= 100 /\
    (Forall (fun o => is_discard o = false)
       [TxSend [1; 2; 3] 1 0; TxSend [4; 5] 2 0; TxGrant [0; 0; 0] 0; TxDiscard 2] ->
     nr_rlc_entity_um_available_tx_space e = 100 - segs_bytes (tx_list e)).
Proof.
  apply (um_accounting 6 100 100 35
    [TxSend [1; 2; 3] 1 0; TxSend [4; 5] 2 0; TxGrant [0; 0; 0] 0; TxDiscard 2]).
  - by left.
  - lia.
  - unfold tx_op_ok, NR_SDU_MAX, is_byte. repeat constructor; simpl; try lia; try done.
Defined.

(** Discarding leaks transmit space.  When an SDU none of whose bytes has been
    sent is discarded, it leaves the queue but [tx_size] keeps its bytes: the
    space reported as available does not grow, and stays smaller than what
    the queue leaves by at least the size of the discarded SDU. *)
Theorem um_discard_keeps_tx_size (leak : Z) (e : nr_rlc_entity_um_t) (id : Z) (s : nr_rlc_sdu_segment_t)
    (u : nr_rlc_sdu_t) :
  um_tx_ok leak e -> tx_list e = [s] -> seg_is_first s = true ->
  h_sdus (heap e) !! seg_sdu s = Some u -> sdu_upper_layer_id u = id ->
  exists e', nr_rlc_entity_um_discard_sdu e id = Done e' /\ tx_list e' = [] /\
    nr_rlc_entity_um_available_tx_space e' = nr_rlc_entity_um_available_tx_space e /\
    nr_rlc_entity_um_available_tx_space e' = tx_maxsize e' - (seg_size s + leak) /\ 0 < seg_size s.
Proof.
  intros Hok El Hf Hu Hid.
  destruct (um_discard_ok leak e id Hok) as (e' & lost & Hd & Hok' & Hm & _ & Hts & Hc).
  exists e'. split; [done|]. unfold nr_rlc_entity_um_available_tx_space.
  pose proof (tx_bytes _ _ Hok) as Hb. rewrite El in Hb. simpl in Hb.
  pose proof (tx_segs _ _ Hok) as Hs. rewrite El in Hs.
  apply Forall_cons in Hs as [(v & _ & _ & Hl & _ & Hpos & _) _].
  destruct Hc as [[-> ->]|(pre & s0 & post & E0 & E1 & -> & Hp)].
  - (* the SDU is found: the entity changes *)
    exfalso. revert Hd. unfold nr_rlc_entity_um_discard_sdu. rewrite El. simpl.
    unfold sdu_of. rewrite Hu. simpl. rewrite (proj2 (Z.eqb_eq _ _) Hid). simpl. rewrite Hf, Hl. simpl.
    intros E. invd E. destruct x as [b h]. injection E as E. apply (f_equal tx_list) in E.
    revert E. destruct (bool_decide _); simpl; congruence.
  - rewrite El in E0. destruct pre as [|p pre]; [injection E0 as <- <-|by destruct pre]. 
    simpl in E1. split_and!; done || lia.
Qed.

Lemma um_discard_keeps_tx_size_witness :
  exists e s u e',
    (e0 ← new_nr_rlc_entity_um 100 100 35 6; tx_run e0 [TxSend [1; 2; 3] 7 0]) = Done e /\
    tx_list e = [s] /\ h_sdus (heap e) !! seg_sdu s = Some u /\
    nr_rlc_entity_um_discard_sdu e 7 = Done e' /\ tx_list e' = [] /\
    nr_rlc_entity_um_available_tx_space e' = nr_rlc_entity_um_available_tx_space e /\
    nr_rlc_entity_um_available_tx_space e' = tx_maxsize e' - (seg_size s + 0) /\ 0 < seg_size s.
Proof.
  destruct (um_new_ok 100 100 35 6) as (e0 & E0 & Hok0 & Hs & _); [by left|lia|].
  destruct (um_recv_sdu_ok 0 e0 [1; 2; 3] 7 0 Hok0) as (e & E & Hok & _);
    [unfold is_byte; repeat constructor; lia|unfold NR_SDU_MAX; simpl; lia|].
  vm_compute in E0. injection E0 as <-. vm_compute in E. injection E as <-.
  eexists _, _, _.
  destruct (um_discard_keeps_tx_size 0 _ 7 _ _ Hok eq_refl eq_refl eq_refl eq_refl) as (e' & H).
  exists e'. split; [vm_compute; reflexivity|]. split; [reflexivity|]. split; [reflexivity|]. exact H.
Defined.

(** A two-byte grant loses an SDU.  With 12-bit SNs, when the head of the queue
    is a complete SDU of more than one byte, a grant of exactly two bytes passes
    the check of [generate_tx_pdu] (header of a complete SDU plus one byte) but
    [resegment] finds no room for the header of a segment: no PDU is produced,
    yet the SDU has left the queue and is never sent; it stays allocated and
    counted in [tx_size]. *)
Theorem um_grant_two_bytes (leak : Z) (e : nr_rlc_entity_um_t) (s : nr_rlc_sdu_segment_t)
    (r : list nr_rlc_sdu_segment_t) (b0 b1 now : Z) :
  um_tx_ok leak e -> sn_field_length e = 12 -> tx_list e = s :: r -> seg_is_first s = true ->
  1 < seg_size s ->
  exists e', nr_rlc_entity_um_generate_pdu e [b0; b1] 2 now = Done (0, e', [b0; b1]) /\
    tx_list e' = r /\ tx_size e' = tx_size e /\ is_Some (h_sdus (heap e') !! seg_sdu s) /\
    bs_tx_size (bstatus e') = pdus_bytes e' r.
Proof.
  intros [C Hh Hs Ht He Hb Hbs Hm Hsn] Hl El Hf Hsz. rewrite El in Hs, Hbs.
  apply Forall_cons in Hs as [(u & Hu & _ & Hlast & _) _].
  assert (Hhd : forall e', sn_field_length e' = 12 -> compute_pdu_header_size e' s = 1)
    by (intros e' L; unfold compute_pdu_header_size; by rewrite Hf, Hlast).
  unfold nr_rlc_entity_um_generate_pdu, generate_tx_pdu. rewrite El, (Hhd e Hl). simpl (1 + 1 >? 2).
  cbv iota. rewrite (um_unlink e s r) by done.
  unfold sdu_of. simpl. rewrite Hu. simpl. cif; zbool; [|lia].
  unfold resegment, sdu_of. simpl. rewrite lookup_insert_eq. simpl.
  match goal with |- context [compute_pdu_header_size ?a ?b + 1 >? 2] =>
    replace (compute_pdu_header_size a b) with 2
      by (unfold compute_pdu_header_size; simpl; by rewrite Hl, Hf) end. simpl.
  eexists; split; [reflexivity|]. simpl. split; [done|]. split; [done|]. split.
  - rewrite lookup_insert_eq. eauto.
  - rewrite Hbs. unfold pdus_bytes. simpl. rewrite !Hhd by done.
    transitivity (foldr (fun s a => compute_pdu_header_size e s + seg_size s + a) 0 r); [lia|done].
Qed.

Lemma um_grant_two_bytes_witness :
  exists e s e',
    (e0 ← new_nr_rlc_entity_um 100 100 35 12; tx_run e0 [TxSend [1; 2; 3] 7 0]) = Done e /\
    tx_list e = [s] /\
    nr_rlc_entity_um_generate_pdu e [0; 0] 2 0 = Done (0, e', [0; 0]) /\
    tx_list e' = [] /\ tx_size e' = tx_size e /\ is_Some (h_sdus (heap e') !! seg_sdu s) /\
    bs_tx_size (bstatus e') = pdus_bytes e' [].
Proof.
  destruct (um_new_ok 100 100 35 12) as (e0 & E0 & Hok0 & Hs & _); [by right|lia|].
  destruct (um_recv_sdu_ok 0 e0 [1; 2; 3] 7 0 Hok0) as (e & E & Hok & _);
    [unfold is_byte; repeat constructor; lia|unfold NR_SDU_MAX; simpl; lia|].
  vm_compute in E0. injection E0 as <-. vm_compute in E. injection E as <-.
  eexists _, _.
  destruct (um_grant_two_bytes 0 _ _ _ 0 0 0 Hok eq_refl eq_refl eq_refl eq_refl) as (e' & H).
  exists e'. split; [vm_compute; reflexivity|]. split; [reflexivity|]. exact H.
Defined.

(** ** Reception: two defects *)

Lemma discard_before_size l : forall e, rx_size (discard_before l e) = rx_size e.
Proof.
  induction l as [|p l IH]; intros e; simpl; [done|]. cif; [|done]. by rewrite IH.
Qed.

(** The expiry of t-Reassembly leaks receive space: whatever segments it discards
    from the receive list, [rx_size] keeps their bytes, so that the limit
    [rx_maxsize] on later segments is reached earlier. *)
Theorem um_timer_keeps_rx_size (e e' : nr_rlc_entity_um_t) (now : Z) :
  nr_rlc_entity_um_set_time e now = Done e' -> rx_size e' = rx_size e.
Proof.
  unfold nr_rlc_entity_um_set_time, check_t_reassembly. cif; [by intros [= <-]|].
  intros H. invd H. revert H. cif; intros [= <-]; simpl; by rewrite discard_before_size.
Qed.

(** A one-byte segment in the middle of SDU 0, another one of SDU 1; the expiry of
    the timer discards the first one, two bytes are still counted. *)
Definition stale_segment : outcome nr_rlc_entity_um_t :=
  e ← new_nr_rlc_entity_um 100 100 35 6;
  e ← nr_rlc_entity_um_set_time e 1;
  e ← nr_rlc_entity_um_recv_pdu e [0xc0; 0; 5; 9] 4;
  nr_rlc_entity_um_recv_pdu e [0xc1; 0; 5; 9] 4.

Lemma um_timer_keeps_rx_size_witness :
  exists e e', stale_segment = Done e /\ nr_rlc_entity_um_set_time e 100 = Done e' /\
    length (rx_list e) = 2%nat /\ length (rx_list e') = 1%nat /\
    rx_size e' = rx_size e /\ rx_size e = 2.
Proof.
  eexists _, _. split; [vm_compute; reflexivity|].
  match goal with |- ?A /\ _ => assert (H : A) by (vm_compute; reflexivity) end.
  split; [exact H|]. pose proof (um_timer_keeps_rx_size _ _ _ H) as H'.
  split_and!; (exact H' || (vm_compute; reflexivity)).
Defined.

(** Reassembly reads outside a PDU.  Three PDUs with segments of one SDU that
    contradict each other (bytes 20 to 24 of an SDU announced to have 11 bytes)
    pass all the checks of [recv_pdu]; once the SDU is complete the reassembly
    copies from an address before the data of a segment: the behaviour is
    undefined. *)
Theorem um_inconsistent_segments_overread :
  (e ← new_nr_rlc_entity_um 16000 16000 35 6;
   e ← nr_rlc_entity_um_recv_pdu e ([0xc0; 0; 20] ++ repeat 7 5) 8;
   e ← nr_rlc_entity_um_recv_pdu e ([0x40] ++ repeat 7 10) 11;
   nr_rlc_entity_um_recv_pdu e [0x80; 0; 10; 7] 4) = Undef.
Proof. vm_compute. reflexivity. Qed.
