(* ===== verification/RlcUmLink.v ===== *)
(** Two UM entities connected by a link that neither loses nor reorders PDUs:
    what the sender segments, the receiver reassembles.  The first part follows
    the receiver of one SDU after the other; the second part composes it with
    the transmit side of RlcUm.v. *)

From S2P Require Import Prelude RlcPdu RlcSdu RlcRx RlcUm.

(** ** Sequence numbers *)

(** How far behind [sn] the number [a] is. *)
Definition behind (m sn a : Z) : Z := (sn - a) mod m.

Lemma modulus_rx_behind e sn j a :
  um_cfg e -> 0 <= a < sn_modulus e -> 0 <= rx_next_highest e < sn_modulus e ->
  rx_next_highest e = (sn + j) mod sn_modulus e ->
  modulus_rx e a = (window_size e - j - behind (sn_modulus e) sn a) mod sn_modulus e.
Proof.
  intros C Ha Hh E. pose proof (um_cfg_bounds e C) as [HM HW]. unfold modulus_rx, behind.
  set (m := sn_modulus e) in *. set (w := window_size e) in *.
  assert (Hr : Z.rem (if a - (rx_next_highest e - w) <? 0 then a - (rx_next_highest e - w) + m
                      else a - (rx_next_highest e - w)) m = (a - (rx_next_highest e - w)) mod m).
  { cif; zbool; rewrite Z.rem_mod_nonneg by lia; [|done].
    rewrite <- (Z_mod_plus_full (a - _) 1 m). f_equal. lia. }
  rewrite Hr, E.
  rewrite <- (Zminus_mod_idemp_r (w - j) (_ mod _)), Z.mod_mod, Zminus_mod_idemp_r by lia.
  replace (a - ((sn + j) mod m - w)) with ((a + w) - (sn + j) mod m) by lia.
  rewrite Zminus_mod_idemp_r. f_equal. lia.
Qed.

Lemma behind_self m sn : 0 < m -> behind m sn sn = 0.
Proof. intros. unfold behind. by rewrite Z.sub_diag, Z.mod_0_l by lia. Qed.

Lemma behind_next m sn a :
  0 < m -> behind m ((sn + 1) mod m) a = (behind m sn a + 1) mod m.
Proof.
  intros. unfold behind. rewrite Zminus_mod_idemp_l, Zplus_mod_idemp_l. f_equal. lia.
Qed.

Lemma behind_zero m sn a : 0 <= sn < m -> 0 <= a < m -> behind m sn a = 0 -> a = sn.
Proof.
  unfold behind. intros Hs Ha E. apply Z.mod_divide in E as [k E]; [|lia].
  assert (k = 0) by nia. lia.
Qed.

(** ** The receive list while SDUs arrive in order *)

(** [l] holds the bytes [from] to [to] of the SDU [D], segment after segment. *)
Fixpoint contig (D : list Z) (sn from to : Z) (l : list nr_rlc_pdu_t) : Prop :=
  match l with
  | [] => from = to
  | p :: r => pdu_sn p = sn /\ pdu_so p = from /\ pdu_of D p /\ pdu_is_last p = false /\
              contig D sn (from + pdu_size p) to r
  end.

(** [p] remains of an SDU already delivered. *)
Definition old_pdu (e : nr_rlc_entity_um_t) (sn j : Z) (p : nr_rlc_pdu_t) : Prop :=
  pdu_data p = None /\ pdu_size p = 0 /\ 0 <= pdu_sn p < sn_modulus e /\
  1 <= behind (sn_modulus e) sn (pdu_sn p) <= window_size e - j.

Definition older (m sn : Z) (p q : nr_rlc_pdu_t) : Prop :=
  behind m sn (pdu_sn q) <= behind m sn (pdu_sn p).

(** The receiver expects byte [k] of the SDU [D] numbered [sn]. *)
Record rx_inorder (e : nr_rlc_entity_um_t) (sn : Z) (D : list Z) (k : Z) : Prop := {
  ri_cfg : um_cfg e;
  ri_sn : 0 <= sn < sn_modulus e;
  ri_next : rx_next_reassembly e = sn;
  ri_high : rx_next_highest e = (sn + (if k =? 0 then 0 else 1)) mod sn_modulus e;
  ri_list : exists old cur, rx_list e = old ++ cur /\
    Forall (old_pdu e sn (if k =? 0 then 0 else 1)) old /\
    StronglySorted (older (sn_modulus e) sn) old /\ contig D sn 0 k cur;
  ri_timer : t_reassembly_start e = 0;
  ri_size : rx_size e = k;
  ri_k : 0 <= k
}.

Lemma contig_le D sn l : forall from to, contig D sn from to l -> from <= to.
Proof.
  induction l as [|p r IH]; simpl; intros from to H; [lia|].
  destruct H as (_ & _ & (_ & _ & Hp & _) & _ & H). apply IH in H. lia.
Qed.

Lemma contig_nil D D' sn k l : contig D sn k k l -> contig D' sn k k l.
Proof.
  destruct l as [|p r]; simpl; [done|]. intros (_ & _ & (_ & _ & Hp & _) & _ & H).
  apply contig_le in H. lia.
Qed.

Lemma contig_app D sn l p : forall from to,
  contig D sn from to l -> pdu_sn p = sn -> pdu_so p = to -> pdu_of D p -> pdu_is_last p = false ->
  contig D sn from (to + pdu_size p) (l ++ [p]).
Proof.
  induction l as [|q r IH]; simpl; intros from to H H1 H2 H3 H4; [subst; done|].
  destruct H as (? & ? & ? & ? & H). split_and!; try done. by apply IH.
Qed.

Lemma contig_full_scan D sn p l : forall from to,
  contig D sn from to l -> pdu_sn p = sn -> pdu_so p = to ->
  full_scan sn (from - 1) (l ++ [p]) = pdu_is_last p.
Proof.
  induction l as [|q r IH]; simpl; intros from to H H1 H2.
  - rewrite H1, Z.eqb_refl. simpl. cif; zbool; [lia|]. by destruct (pdu_is_last p).
  - destruct H as (-> & Hso & (_ & _ & Hpos & _) & -> & H). rewrite Z.eqb_refl. simpl.
    cif; zbool; [lia|]. cif; zbool; [|lia].
    replace (pdu_so q + pdu_size q - 1) with (from + pdu_size q - 1) by lia. by apply (IH _ to).
Qed.

Lemma contig_missing_scan D sn l : forall from to,
  contig D sn from to l -> missing_scan sn (from - 1) l = false.
Proof.
  induction l as [|q r IH]; simpl; intros from to H; [done|].
  destruct H as (-> & Hso & (_ & _ & Hpos & _) & _ & H). rewrite Z.eqb_refl. simpl.
  cif; zbool; [lia|]. cif; zbool; [|lia].
  replace (pdu_so q + pdu_size q - 1) with (from + pdu_size q - 1) by lia. by apply (IH _ to).
Qed.

Lemma contig_block D sn p l : forall from to,
  contig D sn from to l -> pdu_sn p = sn ->
  block_bytes sn (l ++ [p]) = to - from + pdu_size p /\
  process_block true sn (l ++ [p]) = map (process_pdu true) (l ++ [p]).
Proof.
  induction l as [|q r IH]; simpl; intros from to H H1.
  - rewrite H1, Z.eqb_refl. split; [lia|done].
  - destruct H as (-> & _ & _ & _ & H). rewrite Z.eqb_refl.
    destruct (IH _ _ H H1) as [-> ->]. split; [lia|done].
Qed.

Lemma old_not_sn e sn j old :
  0 <= sn < sn_modulus e -> Forall (old_pdu e sn j) old -> Forall (fun p => pdu_sn p <> sn) old.
Proof.
  intros Hsn F. eapply Forall_impl; [exact F|]. intros p (_ & _ & _ & Hb) E.
  rewrite E, behind_self in Hb; lia.
Qed.

Lemma go_to_sn_app sn old l : Forall (fun p => pdu_sn p <> sn) old ->
  go_to_sn sn (old ++ l) = go_to_sn sn l.
Proof.
  induction 1 as [|p r H _ IH]; simpl; [done|].
  destruct (pdu_sn p =? sn) eqn:E; zbool; done.
Qed.

Lemma process_sn_app z sn old l : Forall (fun p => pdu_sn p <> sn) old ->
  process_sn z sn (old ++ l) = old ++ process_sn z sn l.
Proof.
  induction 1 as [|p r H _ IH]; simpl; [done|].
  destruct (pdu_sn p =? sn) eqn:E; zbool; [done|]. by rewrite IH.
Qed.

Lemma contig_go_to D sn p cur to :
  contig D sn 0 to cur -> pdu_sn p = sn -> go_to_sn sn (cur ++ [p]) = cur ++ [p].
Proof.
  intros H E. destruct cur as [|q r]; simpl in *.
  - by rewrite E, Z.eqb_refl.
  - destruct H as (-> & _). by rewrite Z.eqb_refl.
Qed.

Lemma contig_processed D sn p cur to :
  contig D sn 0 to cur -> is_Some (pdu_data p) -> processed (cur ++ [p]) = false.
Proof.
  intros H [d E]. destruct cur as [|q r]; simpl in *.
  - by rewrite E.
  - destruct H as (_ & _ & (-> & _) & _). done.
Qed.

(** The list [old ++ cur ++ [p]] when [p] is the next segment. *)
Section next_segment.
Context (e : nr_rlc_entity_um_t) (sn j k : Z) (D : list Z) (old cur : list nr_rlc_pdu_t)
  (p : nr_rlc_pdu_t).
Hypothesis Hsn : 0 <= sn < sn_modulus e.
Hypothesis Hold : Forall (old_pdu e sn j) old.
Hypothesis Hcur : contig D sn 0 k cur.
Hypothesis Hp : pdu_sn p = sn.
Hypothesis Hpso : pdu_so p = k.
Hypothesis HpD : pdu_of D p.

Lemma next_go_to : go_to_sn sn (old ++ cur ++ [p]) = cur ++ [p].
Proof using Hsn Hold Hcur Hp.
  rewrite go_to_sn_app by (by eapply old_not_sn). by eapply contig_go_to.
Qed.

Lemma next_processed : processed (cur ++ [p]) = false.
Proof using Hcur HpD. eapply contig_processed; [done|]. destruct HpD as [-> _]. eauto. Qed.

Lemma next_full : list_sdu_full (old ++ cur ++ [p]) sn = pdu_is_last p.
Proof using All.
  unfold list_sdu_full. rewrite next_go_to, next_processed.
  by apply (contig_full_scan D sn p cur 0 k).
Qed.

Lemma next_missing : pdu_is_last p = false -> list_sdu_has_missing_bytes (old ++ cur ++ [p]) sn = false.
Proof using All.
  intros Hl. unfold list_sdu_has_missing_bytes. rewrite next_go_to, next_processed.
  apply (contig_missing_scan D sn _ 0 (k + pdu_size p)). by apply contig_app.
Qed.

Lemma next_sn_of : sn_of D sn (old ++ cur ++ [p]).
Proof using Hsn Hold Hcur HpD.
  apply Forall_app_2; [|apply Forall_app_2].
  - eapply Forall_impl; [by eapply old_not_sn|]. done.
  - clear -Hcur. revert Hcur. generalize 0. induction cur as [|q r IH]; intros z; simpl; [constructor|].
    intros (_ & _ & Hq & _ & H). constructor; [done|]. by apply (IH _ H).
  - constructor; [done|constructor].
Qed.

Lemma next_process :
  process_sn true sn (old ++ cur ++ [p]) = old ++ map (process_pdu true) (cur ++ [p]) /\
  block_bytes sn (cur ++ [p]) = k + pdu_size p.
Proof using Hsn Hold Hcur Hp.
  destruct (contig_block D sn p cur 0 k Hcur Hp) as [Hb Hpb].
  rewrite process_sn_app by (by eapply old_not_sn). split; [f_equal|lia].
  rewrite <- Hpb. destruct cur as [|q r]; simpl.
  - by rewrite Hp, Z.eqb_refl.
  - simpl in Hcur. destruct Hcur as (-> & _). by rewrite Z.eqb_refl.
Qed.
End next_segment.


(** ** Reception of the next segment *)

Lemma high_bounds e sn j :
  um_cfg e -> rx_next_highest e = (sn + j) mod sn_modulus e -> 0 <= rx_next_highest e < sn_modulus e.
Proof. intros C ->. pose proof (um_cfg_bounds e C). apply Z.mod_pos_bound. lia. Qed.

(** Keys of the SNs around [sn] when [rx_next_highest] is [sn + j]. *)
Lemma key_of e sn j a :
  um_cfg e -> 0 <= a < sn_modulus e -> rx_next_highest e = (sn + j) mod sn_modulus e ->
  0 <= j <= 1 -> behind (sn_modulus e) sn a <= window_size e - j ->
  modulus_rx e a = window_size e - j - behind (sn_modulus e) sn a.
Proof.
  intros C Ha Hh Hj Hb. pose proof (um_cfg_bounds e C) as [HM HW].
  rewrite (modulus_rx_behind e sn j) by (done || by eapply high_bounds).
  apply Z.mod_small. unfold behind in *. pose proof (Z.mod_pos_bound (sn - a) (sn_modulus e)). lia.
Qed.

Lemma key_sn e sn j :
  um_cfg e -> 0 <= sn < sn_modulus e -> rx_next_highest e = (sn + j) mod sn_modulus e ->
  0 <= j <= 1 -> modulus_rx e sn = window_size e - j.
Proof.
  intros C Hs Hh Hj. pose proof (um_cfg_bounds e C) as [HM HW].
  rewrite (key_of e sn j) by (rewrite ?behind_self; done || lia).
  rewrite behind_self by lia. lia.
Qed.

Lemma key_high e : um_cfg e -> 0 <= rx_next_highest e < sn_modulus e ->
  modulus_rx e (rx_next_highest e) = window_size e.
Proof.
  intros C H. pose proof (um_cfg_bounds e C) as [HM HW].
  rewrite (key_sn e _ 0); [lia|done|done|by rewrite Z.add_0_r, Z.mod_small|lia].
Qed.

(** The PDUs out of the window once [rx_next_highest] is [sn + 1]. *)
Lemma discard_window_ok sn p rest old : forall e,
  um_cfg e -> 0 <= sn < sn_modulus e -> rx_next_highest e = (sn + 1) mod sn_modulus e ->
  rx_list e = old ++ p :: rest -> pdu_sn p = sn ->
  Forall (old_pdu e sn 0) old -> StronglySorted (older (sn_modulus e) sn) old ->
  exists old' st, discard_out_of_window (old ++ p :: rest) e
    = e <| rx_list := old' ++ p :: rest |> <| stats := st |> /\
    Forall (old_pdu e sn 1) old' /\ StronglySorted (older (sn_modulus e) sn) old'.
Proof.
  induction old as [|q old IH]; intros e C Hsn Hh El Hp F S; pose proof (um_cfg_bounds e C) as [HM HW];
    pose proof (high_bounds _ _ _ C Hh) as Hhb; simpl; unfold sn_compare_rx;
    rewrite (key_high e) by done.
  - exists [], (stats e). rewrite Hp, (key_sn e sn 1) by (done || lia).
    cif; zbool; [lia|]. split; [|by repeat constructor]. simpl in El. destruct e; simpl in *. by subst.
  - apply Forall_cons in F as [Hq F]. apply StronglySorted_inv in S as [S Sq].
    destruct Hq as (Hd & Hz & Hr & Hb).
    destruct (decide (behind (sn_modulus e) sn (pdu_sn q) <= window_size e - 1)) as [Hin|Hout].
    + rewrite (key_of e sn 1) by (done || lia). cif; zbool; [lia|].
      exists (q :: old), (stats e). split; [destruct e; simpl in *; by subst|].
      split; [|by constructor]. constructor; [by split_and!; try lia|].
      apply Forall_forall. intros t Ht. rewrite Forall_forall in F, Sq.
      destruct (F t Ht) as (? & ? & ? & ?). pose proof (Sq t Ht). unfold older in *.
      split_and!; done || lia.
    + rewrite (modulus_rx_behind e sn 1) by done.
      replace (window_size e - 1 - behind (sn_modulus e) sn (pdu_sn q)) with (-1) by lia.
      replace (-1) with (sn_modulus e - 1 + (-1) * sn_modulus e) by lia.
      rewrite Z_mod_plus_full, Z.mod_small by lia. cif; zbool; [|lia].
      match goal with |- context [discard_out_of_window _ ?e1] =>
        destruct (IH e1) as (old' & st & -> & F' & S') end; try done.
      { by destruct C. }
      exists old', st. split; [|done]. simpl. rewrite Hz, Z.sub_0_r. done.
Qed.

Lemma contig_so D sn l : forall from to,
  contig D sn from to l -> Forall (fun q => pdu_sn q = sn /\ pdu_so q < to) l.
Proof.
  induction l as [|q r IH]; simpl; intros from to H; [constructor|].
  destruct H as (? & ? & (_ & _ & Hp & _) & _ & H). constructor; [|by eapply IH].
  apply contig_le in H. split; [done|lia].
Qed.

Lemma add_next e sn j k D old cur p :
  um_cfg e -> 0 <= sn < sn_modulus e -> rx_next_highest e = (sn + j) mod sn_modulus e ->
  0 <= j <= 1 -> Forall (old_pdu e sn j) old -> contig D sn 0 k cur ->
  pdu_sn p = sn -> pdu_so p = k ->
  nr_rlc_pdu_list_add (sn_compare_rx e) (old ++ cur) p = old ++ cur ++ [p].
Proof.
  intros C Hsn Hh Hj Ho Hc Hp Hso. unfold nr_rlc_pdu_list_add.
  rewrite insert_before_end, app_assoc; [done|]. apply Forall_app_2.
  - eapply Forall_impl; [exact Ho|]. intros q (_ & _ & Hq & Hb). unfold pdu_after, sn_compare_rx.
    rewrite Hp, (key_sn e sn j), (key_of e sn j) by (done || lia).
    assert (pdu_sn q <> sn) by (intros E; rewrite E, behind_self in Hb; lia).
    apply orb_false_iff; split; [apply not_true_is_false; intros E; zbool; lia|].
    apply andb_false_iff. left. by apply Z.eqb_neq.
  - eapply Forall_impl; [by eapply contig_so|]. intros q [Hq Hl]. unfold pdu_after, sn_compare_rx.
    rewrite Hp, Hq, Hso, Z.sub_diag. apply orb_false_iff; split; [done|].
    apply andb_false_iff. right. apply not_true_is_false; intros E; zbool; lia.
Qed.

(** The timer does not start while nothing is missing. *)
Lemma timers_idle e :
  t_reassembly_start e = 0 ->
  (let next := Z.rem (rx_next_reassembly e + 1) (sn_modulus e) in
   sn_compare_rx e (rx_next_highest e) next <= 0 /\
   (rx_next_highest e = next -> sdu_has_missing_bytes e (rx_next_reassembly e) = false)) ->
  reception_timers e = e.
Proof.
  intros Ht [H1 H2]. unfold reception_timers. rewrite Ht. simpl.
  assert (E1 : (sn_compare_rx e (rx_next_highest e)
     (Z.rem (rx_next_reassembly e + 1) (sn_modulus e)) >? 0) = false)
    by (apply not_true_is_false; intros E; zbool; lia).
  rewrite Ht, E1. simpl. destruct (_ =? Z.rem _ _) eqn:E2; [|done]. zbool. by rewrite H2.
Qed.

Definition next_pdu (sn k : Z) (last : bool) (data : list Z) : nr_rlc_pdu_t :=
  mk_pdu sn (Some data) (Z.of_nat (length data)) k (k =? 0) last.

(** The next segment of [D] passes the checks and is put at the end of the list. *)
Lemma recv_data_next e sn D k last data size :
  rx_inorder e sn D k -> data = take (length data) (drop (Z.to_nat k) D) -> (0 < length data)%nat ->
  k + Z.of_nat (length data) <= Z.of_nat (length D) -> Z.of_nat (length D) <= rx_maxsize e ->
  (last = true -> k + Z.of_nat (length data) = Z.of_nat (length D)) ->
  exists old cur, Forall (old_pdu e sn (if k =? 0 then 0 else 1)) old /\
    StronglySorted (older (sn_modulus e) sn) old /\ contig D sn 0 k cur /\
    pdu_of D (next_pdu sn k last data) /\
    recv_data e (k =? 0) last sn k size data
    = reception_actions (e <| rx_size := k + Z.of_nat (length data) |>
                           <| rx_list := old ++ cur ++ [next_pdu sn k last data] |>) sn.
Proof.
  intros [C Hsn Hn Hh (old & cur & El & Ho & HS & Hc) Ht Hz Hk] Hd Hpos Hle Hmax Hlast.
  exists old, cur. split; [done|]. split; [done|]. split; [done|]. split.
  { unfold pdu_of; simpl. rewrite Nat2Z.id, <- Hd. split_and!; done || lia. }
  unfold recv_data. rewrite Hn, Hz. unfold sn_compare_rx at 1. rewrite Z.sub_diag.
  cif; zbool; [lia|]. simpl (0 <? 0). cbv iota zeta. f_equal.
  transitivity (e <| rx_size := k + Z.of_nat (length data) |>
    <| rx_list := nr_rlc_pdu_list_add (sn_compare_rx (e <| rx_size := k + Z.of_nat (length data) |>))
                    (old ++ cur) (next_pdu sn k last data) |>).
  { simpl. by rewrite Hz, El, (Z.add_comm k). }
  rewrite (add_next (e <| rx_size := k + Z.of_nat (length data) |>) sn
    (if k =? 0 then 0 else 1) k D old cur); try done.
  - by destruct C.
  - cif; lia.
Qed.

(** Idle receiver: the next SDU is [sn]. *)
Lemma idle_timers e sn :
  um_cfg e -> 0 <= sn < sn_modulus e -> rx_next_reassembly e = sn -> rx_next_highest e = sn ->
  t_reassembly_start e = 0 -> reception_timers e = e.
Proof.
  intros C Hsn Hn Hh Ht. pose proof (um_cfg_bounds e C) as [HM HW].
  apply timers_idle; [done|]. cbv zeta. rewrite Hn, Z.rem_mod_nonneg by lia. split.
  - unfold sn_compare_rx. rewrite (key_high e) by (by rewrite ?Hh).
    rewrite (modulus_rx_behind e sn 0);
      [|done|apply Z.mod_pos_bound; lia|by rewrite Hh|by rewrite Hh, Z.add_0_r, Z.mod_small].
    unfold behind. rewrite Zminus_mod_idemp_r.
    replace (window_size e - 0 - (sn - (sn + 1) mod sn_modulus e))
      with (window_size e - sn + (sn + 1) mod sn_modulus e) by lia.
    rewrite Zplus_mod_idemp_r.
    replace (window_size e - sn + (sn + 1)) with (window_size e + 1) by lia.
    rewrite Z.mod_small by lia. lia.
  - rewrite Hh. intros E. exfalso.
    destruct (decide (sn + 1 = sn_modulus e)) as [H|H].
    + rewrite H, Z.mod_same in E by lia. lia.
    + rewrite Z.mod_small in E by lia. lia.
Qed.

(** A partial SDU without hole. *)
Lemma partial_timers e sn :
  um_cfg e -> 0 <= sn < sn_modulus e -> rx_next_reassembly e = sn ->
  rx_next_highest e = (sn + 1) mod sn_modulus e -> t_reassembly_start e = 0 ->
  sdu_has_missing_bytes e sn = false -> reception_timers e = e.
Proof.
  intros C Hsn Hn Hh Ht Hmiss. pose proof (um_cfg_bounds e C) as [HM HW].
  apply timers_idle; [done|]. cbv zeta. rewrite Hn, Z.rem_mod_nonneg, <- Hh by lia.
  unfold sn_compare_rx. split; [lia|done].
Qed.

(** A segment that is not the last one. *)
Lemma recv_more e sn D k data size :
  rx_inorder e sn D k -> data = take (length data) (drop (Z.to_nat k) D) -> (0 < length data)%nat ->
  k + Z.of_nat (length data) < Z.of_nat (length D) -> Z.of_nat (length D) <= rx_maxsize e ->
  exists e', recv_data e (k =? 0) false sn k size data = Done e' /\
    rx_inorder e' sn D (k + Z.of_nat (length data)) /\ trace e' = trace e /\
    rx_maxsize e' = rx_maxsize e /\ sn_field_length e' = sn_field_length e.
Proof.
  intros RI Hd Hpos Hlt Hmax.
  destruct (recv_data_next e sn D k false data size) as (old & cur & Ho & HS & Hc & HpD & ->);
    [done..|lia|done|done|].
  destruct RI as [C Hsn Hn Hh _ Ht Hz Hk]. pose proof (um_cfg_bounds e C) as [HM HW].
  set (p := next_pdu sn k false data) in *.
  set (e1 := e <| rx_size := k + Z.of_nat (length data) |> <| rx_list := old ++ cur ++ [p] |>).
  assert (C1 : um_cfg e1) by (by destruct C).
  unfold reception_actions. unfold sdu_full. change (rx_list e1) with (old ++ cur ++ [p]).
  rewrite (next_full e sn _ k D) by done. simpl (pdu_is_last p). cbv iota.
  assert (Hc' : contig D sn 0 (k + Z.of_nat (length data)) (cur ++ [p]))
    by (by apply (contig_app D sn cur p 0 k)).
  destruct (k =? 0) eqn:Ek; zbool.
  - (* the first segment *)
    assert (Hhs : rx_next_highest e = sn) by (by rewrite Hh, Z.add_0_r, Z.mod_small).
    unfold sn_compare_rx at 1. change (rx_next_highest e1) with (rx_next_highest e).
    rewrite Hhs, Z.sub_diag. simpl (0 >=? 0). cbv iota zeta.
    rewrite Z.rem_mod_nonneg by (simpl; lia).
    set (e2 := e1 <| rx_next_highest := (sn + 1) mod sn_modulus e1 |>).
    assert (C2 : um_cfg e2) by (by destruct C).
    assert (cur = []) as ->.
    { destruct cur as [|q r]; [done|]. simpl in Hc. destruct Hc as (_ & _ & (_ & _ & ? & _) & _ & Hc).
      apply contig_le in Hc. lia. }
    destruct (discard_window_ok sn p [] old e2) as (old' & st & E & Ho' & HS'); try done.
    change (rx_list e2) with (old ++ [p]). rewrite E. simpl app.
    set (e3 := e2 <| rx_list := old' ++ [p] |> <| stats := st |>).
    assert (C3 : um_cfg e3) by (by destruct C).
    assert (Hcmp : sn_compare_rx e3 (rx_next_reassembly e3) (rx_next_highest e3) = -1).
    { unfold sn_compare_rx. change (rx_next_reassembly e3) with (rx_next_reassembly e).
      rewrite Hn, (key_sn e3 sn 1), (key_high e3); try done; try lia.
      apply Z.mod_pos_bound. simpl; lia. }
    rewrite Hcmp. simpl (-1 >=? 0). cbv iota. simpl mbind.
    rewrite (partial_timers e3 sn); try done.
    + eexists; split; [reflexivity|]. split; [|done].
      assert (Ek' : (k + Z.of_nat (length data) =? 0) = false) by (apply Z.eqb_neq; lia).
      split; try done; try lia; rewrite Ek'; [done|]. exists old', [p]. done.
    + unfold sdu_has_missing_bytes. change (rx_list e3) with (old' ++ [] ++ [p]).
      by apply (next_missing e sn 1 k D).
  - (* a following segment *)
    assert (Hcmp : sn_compare_rx e1 sn (rx_next_highest e1) = -1).
    { unfold sn_compare_rx. rewrite (key_sn e1 sn 1), (key_high e1); try done; try lia.
      simpl. rewrite Hh. apply Z.mod_pos_bound. lia. }
    rewrite Hcmp. simpl (-1 >=? 0). cbv iota. simpl mbind.
    rewrite (partial_timers e1 sn); try done.
    + eexists; split; [reflexivity|]. split; [|done].
      assert (Ek' : (k + Z.of_nat (length data) =? 0) = false) by (apply Z.eqb_neq; lia).
      split; try done; try lia; rewrite Ek'; [done|]. exists old, (cur ++ [p]). done.
    + unfold sdu_has_missing_bytes. by apply (next_missing e sn 1 k D).
Qed.

(** ** Reception of the last segment *)

Lemma go_to_sn_none sn l : Forall (fun p => pdu_sn p <> sn) l -> go_to_sn sn l = [].
Proof. intros F. rewrite <- (app_nil_r l), go_to_sn_app by done. done. Qed.

(** The PDUs of [sn], once delivered, are old ones for the next SDU. *)
Lemma delivered_old e sn cur :
  um_cfg e -> 0 <= sn < sn_modulus e -> Forall (fun q => pdu_sn q = sn) cur ->
  Forall (old_pdu e ((sn + 1) mod sn_modulus e) 0) (map (process_pdu true) cur).
Proof.
  intros C Hsn F. pose proof (um_cfg_bounds e C) as [HM HW].
  apply Forall_fmap. eapply Forall_impl; [exact F|]. intros q Hq.
  unfold old_pdu, process_pdu, compose. simpl. rewrite behind_next, Hq, behind_self by lia.
  simpl. rewrite Z.mod_small by lia. split_and!; done || lia.
Qed.

Lemma old_next e sn old :
  um_cfg e -> Forall (old_pdu e sn 1) old -> Forall (old_pdu e ((sn + 1) mod sn_modulus e) 0) old.
Proof.
  intros C F. pose proof (um_cfg_bounds e C) as [HM HW].
  eapply Forall_impl; [exact F|]. intros q (? & ? & ? & ?).
  unfold old_pdu. rewrite behind_next by lia. rewrite Z.mod_small by lia. split_and!; done || lia.
Qed.

Lemma StronglySorted_app_ext {A} (R R' : A -> A -> Prop) l1 l2 :
  StronglySorted R l1 -> (forall x y, x ∈ l1 -> y ∈ l1 -> R x y -> R' x y) ->
  StronglySorted R' l2 -> (forall x y, x ∈ l1 -> y ∈ l2 -> R' x y) -> StronglySorted R' (l1 ++ l2).
Proof.
  intros S. induction S as [|x l S IH F]; intros H1 H2 H3; [done|]. simpl. constructor.
  - apply IH; [|done|]; intros; [apply H1|apply H3]; done || by right.
  - apply Forall_app_2; apply Forall_forall; intros y Hy.
    + apply H1; [left|by right|]. rewrite Forall_forall in F. by apply F.
    + apply H3; [left|done].
Qed.

Lemma same_sn_sorted m sn0 sn l :
  Forall (fun q => pdu_sn q = sn) l -> StronglySorted (older m sn0) l.
Proof.
  induction 1 as [|q l Hq F IH]; constructor; [done|].
  eapply Forall_impl; [exact F|]. intros t Ht. unfold older. by rewrite Ht, Hq.
Qed.

Lemma delivered_sorted e sn old cur :
  um_cfg e -> 0 <= sn < sn_modulus e -> Forall (old_pdu e sn 1) old ->
  StronglySorted (older (sn_modulus e) sn) old -> Forall (fun q => pdu_sn q = sn) cur ->
  StronglySorted (older (sn_modulus e) ((sn + 1) mod sn_modulus e)) (old ++ cur).
Proof.
  intros C Hsn Ho HS F. pose proof (um_cfg_bounds e C) as [HM HW].
  rewrite Forall_forall in Ho. eapply StronglySorted_app_ext; [exact HS| |by eapply same_sn_sorted|].
  - intros x y Hx Hy. unfold older. rewrite !behind_next by lia.
    destruct (Ho x Hx) as (_ & _ & _ & ?), (Ho y Hy) as (_ & _ & _ & ?).
    rewrite !Z.mod_small by lia. lia.
  - intros x y Hx Hy. rewrite Forall_forall in F. unfold older. rewrite !behind_next by lia.
    destruct (Ho x Hx) as (_ & _ & _ & ?). rewrite (F y Hy), behind_self by lia.
    rewrite !Z.mod_small by lia. lia.
Qed.

(** The search of the next SN stops after one step. *)
Lemma next_undelivered_one e sn l q :
  um_cfg e -> 0 <= sn < sn_modulus e -> go_to_sn sn l = q -> processed q = true ->
  Forall (old_pdu e ((sn + 1) mod sn_modulus e) 0) l ->
  next_undelivered l (sn_modulus e) sn = Done ((sn + 1) mod sn_modulus e).
Proof.
  intros C Hsn Hg Hp F. pose proof (um_cfg_bounds e C) as [HM HW].
  unfold next_undelivered. destruct l as [|p l]; [by subst q|]. simpl length.
  cbn [skip_delivered]. unfold list_sdu_delivered at 1. rewrite Hg, Hp, Z.rem_mod_nonneg by lia.
  unfold list_sdu_delivered. rewrite go_to_sn_none; [done|].
  eapply old_not_sn; [|exact F]. apply Z.mod_pos_bound. lia.
Qed.

(** Delivery of a complete SDU. *)
Lemma deliver_ok e sn D l :
  rx_list e = l -> list_sdu_full l sn = true -> sn_of D sn l -> Z.of_nat (length D) <= NR_SDU_MAX ->
  exists st, reassemble_and_deliver e sn =
    Done (e <| rx_list := process_sn true sn l |>
            <| rx_size := rx_size e - block_bytes sn (go_to_sn sn l) |>
            <| trace := trace e ++ [DeliverSdu D] |> <| stats := st |>).
Proof.
  intros El Hf HD HN. unfold reassemble_and_deliver. rewrite El, (reassemble_ok true D) by done.
  simpl. eexists. reflexivity.
Qed.

Lemma recv_last e sn D k data size :
  rx_inorder e sn D k -> 0 < k -> data = take (length data) (drop (Z.to_nat k) D) ->
  (0 < length data)%nat -> k + Z.of_nat (length data) = Z.of_nat (length D) ->
  Z.of_nat (length D) <= rx_maxsize e -> Z.of_nat (length D) <= NR_SDU_MAX ->
  exists e', recv_data e false true sn k size data = Done e' /\
    (forall D', rx_inorder e' ((sn + 1) mod sn_modulus e) D' 0) /\
    trace e' = trace e ++ [DeliverSdu D] /\
    rx_maxsize e' = rx_maxsize e /\ sn_field_length e' = sn_field_length e.
Proof.
  intros RI Hkp Hd Hpos Heq Hmax HN.
  destruct (recv_data_next e sn D k true data size) as (old & cur & Ho & HS & Hc & HpD & E);
    [done..|lia|done|done|].
  assert (Ek : (k =? 0) = false) by (apply Z.eqb_neq; lia). rewrite Ek in *. rewrite E. clear E.
  destruct RI as [C Hsn Hn Hh _ Ht Hz Hk]. rewrite Ek in Hh.
  pose proof (um_cfg_bounds e C) as [HM HW].
  set (p := next_pdu sn k true data) in *.
  destruct (next_process e sn 1 k D old cur p Hsn Ho Hc eq_refl) as [Hproc Hbytes].
  set (l' := old ++ map (process_pdu true) (cur ++ [p])) in *.
  assert (Hcs : Forall (fun q => pdu_sn q = sn) (cur ++ [p])).
  { apply Forall_app_2; [|constructor; [done|constructor]].
    eapply Forall_impl; [by eapply contig_so|]. by intros q [? _]. }
  assert (Ho' : Forall (old_pdu e ((sn + 1) mod sn_modulus e) 0) l')
    by (apply Forall_app_2; [by apply old_next|by apply delivered_old]).
  set (e1 := e <| rx_size := k + Z.of_nat (length data) |> <| rx_list := old ++ cur ++ [p] |>).
  assert (Hfull : list_sdu_full (old ++ cur ++ [p]) sn = true) by (by apply (next_full e sn 1 k D)).
  destruct (deliver_ok e1 sn D (old ++ cur ++ [p])) as (st & Hdel);
    [done|done|by apply (next_sn_of e sn 1 k)|done|].
  rewrite Hproc, (next_go_to e sn 1 k D), Hbytes in Hdel by done.
  unfold reception_actions. change (sdu_full e1 sn) with (list_sdu_full (old ++ cur ++ [p]) sn).
  rewrite Hfull, Hdel.
  match type of Hdel with _ = Done ?x => set (e2 := x) end.
  unfold mbind, outcome_bind. cbv beta iota.
  change (rx_next_reassembly e2) with (rx_next_reassembly e). rewrite Hn, Z.eqb_refl.
  change (rx_list e2) with l'. change (sn_modulus e2) with (sn_modulus e).
  rewrite (next_undelivered_one e sn l' (map (process_pdu true) (cur ++ [p]))); try done.
  2: { unfold l'. rewrite go_to_sn_app by (by eapply old_not_sn).
       destruct cur as [|q r]; simpl in *; [by rewrite Z.eqb_refl|].
       destruct Hc as (-> & _). by rewrite Z.eqb_refl. }
  2: { by destruct cur. }
  assert (Hsn' : 0 <= (sn + 1) mod sn_modulus e < sn_modulus e) by (apply Z.mod_pos_bound; lia).
  rewrite (idle_timers _ ((sn + 1) mod sn_modulus e)); try done; [|by destruct C].
  eexists; split; [reflexivity|]. split; [|done].
  intros D'. split; try done; try lia.
  - by destruct C.
  - simpl. rewrite Z.add_0_r, Z.mod_mod by lia. done.
  - exists l', []. rewrite app_nil_r. split; [done|]. split; [done|]. split; [|done].
    apply (delivered_sorted e sn old (map (process_pdu true) (cur ++ [p]))); try done.
    by apply Forall_fmap.
  - simpl. lia.
Qed.

(** ** The link *)

Inductive link_op :=
| Send (sdu : list Z) (id now : Z)      (* an SDU from the upper layer of the sender *)
| Grant (buffer : list Z) (now : Z)     (* a grant of the MAC, its PDU goes to the receiver *)
| Tick (now : Z).                       (* a tick of the receiver's clock *)

(** The SDU is accepted by the sender. *)
Definition accepts (e : nr_rlc_entity_um_t) (d : list Z) : bool :=
  negb (tx_size e + Z.of_nat (length d) >? tx_maxsize e).

(** Sender, receiver and the SDUs accepted so far. *)
Definition link_step (st : nr_rlc_entity_um_t * nr_rlc_entity_um_t * list (list Z)) (o : link_op)
  : outcome (nr_rlc_entity_um_t * nr_rlc_entity_um_t * list (list Z)) :=
  let '(tx, rx, acc) := st in
  match o with
  | Send d id now =>
      tx' ← nr_rlc_entity_um_recv_sdu tx d (Z.of_nat (length d)) id now;
      Done (tx', rx, if accepts tx d then acc ++ [d] else acc)
  | Grant buffer now =>
      '(n, tx, buf) ← nr_rlc_entity_um_generate_pdu tx buffer (Z.of_nat (length buffer)) now;
      if n =? 0 then Done (tx, rx, acc)
      else rx ← nr_rlc_entity_um_recv_pdu rx (take (Z.to_nat n) buf) n; Done (tx, rx, acc)
  | Tick now => rx ← nr_rlc_entity_um_set_time rx now; Done (tx, rx, acc)
  end.

Fixpoint link_run (st : nr_rlc_entity_um_t * nr_rlc_entity_um_t * list (list Z)) (os : list link_op)
  : outcome (nr_rlc_entity_um_t * nr_rlc_entity_um_t * list (list Z)) :=
  match os with [] => Done st | o :: r => st ← link_step st o; link_run st r end.

(** A grant of two bytes is excluded with 12-bit SNs: see [um_grant_two_bytes]. *)
Definition link_op_ok (snl : Z) (o : link_op) : Prop :=
  match o with
  | Send d _ _ => Forall is_byte d /\ 0 < Z.of_nat (length d) <= NR_SDU_MAX
  | Grant buffer _ => Forall is_byte buffer /\ (snl = 12 -> length buffer <> 2%nat)
  | Tick _ => True
  end.

(** The receiver expects what the sender sends next. *)
Record link_ok (snl : Z) (tx rx : nr_rlc_entity_um_t) (acc : list (list Z)) : Prop := {
  lk_tx : um_tx_ok 0 tx;
  lk_snl : sn_field_length tx = snl /\ sn_field_length rx = snl;
  lk_max : NR_SDU_MAX <= rx_maxsize rx;
  lk_rx : rx_inorder rx (tx_next tx)
    (match tx_list tx with s :: _ => seg_data (heap tx) s | [] => [] end)
    (match tx_list tx with s :: _ => seg_so s | [] => 0 end);
  lk_sdus : exists dl, trace rx = map DeliverSdu dl /\ dl ++ pending tx = acc
}.

Lemma rx_idle_any e sn D D' : rx_inorder e sn D 0 -> rx_inorder e sn D' 0.
Proof.
  intros [C Hsn Hn Hh (old & cur & El & Ho & HS & Hc) Ht Hz Hk]. split; try done.
  exists old, cur. split_and!; try done. by eapply contig_nil.
Qed.

Lemma rx_inorder_ext e e' sn D k :
  rx_inorder e sn D k -> um_cfg e' -> sn_modulus e' = sn_modulus e -> window_size e' = window_size e ->
  rx_next_reassembly e' = rx_next_reassembly e -> rx_next_highest e' = rx_next_highest e ->
  rx_list e' = rx_list e -> t_reassembly_start e' = t_reassembly_start e -> rx_size e' = rx_size e ->
  rx_inorder e' sn D k.
Proof.
  intros [C Hsn Hn Hh (old & cur & El & Ho & HS & Hc) Ht Hz Hk] C' E1 E2 E3 E4 E5 E6 E7.
  split; try congruence. exists old, cur. unfold old_pdu in *.
  rewrite E1, E2, E5. done.
Qed.

Lemma same_modulus e e' :
  um_cfg e -> um_cfg e' -> sn_field_length e = sn_field_length e' -> sn_modulus e = sn_modulus e'.
Proof. intros [_ M _] [_ M' _] E. congruence. Qed.

(** The data of the segment sent is the next piece of the SDU. *)
Lemma seg_bytes_next h s : 
  0 <= seg_so s -> 0 <= seg_size s -> seg_so s + seg_size s <= Z.of_nat (length (seg_data h s)) ->
  Z.of_nat (length (seg_bytes h s)) = seg_size s /\
  seg_bytes h s = take (length (seg_bytes h s)) (drop (Z.to_nat (seg_so s)) (seg_data h s)).
Proof.
  intros. assert (E : Z.of_nat (length (seg_bytes h s)) = seg_size s)
    by (unfold seg_bytes; rewrite length_take, length_drop; lia).
  split; [done|]. unfold seg_bytes at 1. f_equal. lia.
Qed.

Lemma tx_head_facts e s r :
  um_tx_ok 0 e -> tx_list e = s :: r ->
  seg_is_last s = true /\ 0 < seg_size s /\
  seg_so s + seg_size s = Z.of_nat (length (seg_data (heap e) s)) /\
  Z.of_nat (length (seg_data (heap e) s)) <= NR_SDU_MAX /\
  (if seg_is_first s then seg_so s = 0 else 0 < seg_so s).
Proof.
  intros Hok El. pose proof (tx_segs _ _ Hok) as F. rewrite El in F.
  apply Forall_cons in F as [(u & Hu & Hm & Hl & Hso & Hpos & Hf) _].
  destruct (ho_sdus _ _ (tx_heap _ _ Hok) _ _ Hu) as (_ & _ & _ & _ & Hlen & _).
  unfold seg_data. rewrite Hu, Hlen. split_and!; done.
Qed.

(** The head of the queue after a complete SDU has left it. *)
Lemma tail_head_so e s r : um_tx_ok 0 e -> tx_list e = s :: r ->
  match r with t :: _ => seg_so t | [] => 0 end = 0.
Proof.
  intros Hok El. destruct r as [|t r]; [done|].
  pose proof (tx_segs _ _ Hok) as F. pose proof (tx_tail _ _ Hok) as T. rewrite El in F, T.
  apply Forall_cons in F as [_ F]. apply Forall_cons in F as [(u & _ & _ & _ & _ & _ & Hf) _].
  simpl in T. apply Forall_cons in T as [Ht _]. by rewrite Ht in Hf.
Qed.

(** The last byte of the SDU at the head has been received. *)
Lemma link_delivered snl tx rx acc s r tx' rx' D' :
  link_ok snl tx rx acc -> tx_list tx = s :: r ->
  um_tx_ok 0 tx' -> sn_field_length tx' = snl -> tx_list tx' = r ->
  heap_same (heap tx) (heap tx') (tx_list tx') -> rx_inorder rx' (tx_next tx') D' 0 ->
  trace rx' = trace rx ++ [DeliverSdu (seg_data (heap tx) s)] ->
  rx_maxsize rx' = rx_maxsize rx -> sn_field_length rx' = snl -> link_ok snl tx' rx' acc.
Proof.
  intros [Htx _ Hmax _ (dl & Htr & Hacc)] El Hok' Hs1 El' Hsame Hrx Htr' Hm' Hs2.
  split; [done|done|lia|..].
  - rewrite El', (tail_head_so tx s r) by done. by eapply rx_idle_any.
  - exists (dl ++ [seg_data (heap tx) s]). rewrite Htr', Htr, map_app. split; [done|].
    rewrite <- Hacc. unfold pending. rewrite (heap_same_data _ _ _ Hsame), El, El', <- app_assoc. done.
Qed.

(** The PDU of a grant brings the receiver to the new state of the sender. *)
Lemma link_pdu snl tx rx acc s r size n tx' P :
  link_ok snl tx rx acc -> tx_list tx = s :: r -> granted 0 tx s r size n tx' P ->
  exists rx', nr_rlc_entity_um_recv_pdu rx P (Z.of_nat (length P)) = Done rx' /\
    link_ok snl tx' rx' acc.
Proof.
  intros Hlk El [Hok' Hm' Hsnl' (s1 & Hsent & Hn & Hnx & Hpdu) Hsame].
  pose proof Hlk as [Htx [Hs1 Hs2] Hmax Hrx (dl & Htr & Hacc)]. rewrite El in Hrx. pose proof (ri_cfg _ _ _ _ Hrx) as C.
  pose proof (same_modulus rx tx C (tx_cfg _ _ Htx) ltac:(congruence)) as HM.
  destruct (tx_head_facts tx s r Htx El) as (Hlast & Hpos & Hend & HN & Hfst).
  pose proof (tail_head_so tx s r Htx El) as Htl.
  destruct Hsent as (Hsdu & Hso & Hfs & Hsz & Hfit & Hq).
  assert (Hdat : seg_data (heap tx) s1 = seg_data (heap tx) s) by (unfold seg_data; by rewrite Hsdu).
  destruct (seg_bytes_next (heap tx) s1) as [Hlen Hbytes];
    [destruct (seg_is_first s); lia|lia|rewrite Hdat; lia|].
  rewrite Hdat, Hso in Hbytes. set (D := seg_data (heap tx) s) in *.
  set (data := seg_bytes (heap tx) s1) in *.
  destruct (um_recv_pdu rx (tx_next tx) s1 data P) as (st & ->);
    [done|congruence|rewrite HM; apply Htx|split; [lia|rewrite Hfs, Hso; destruct (seg_is_first s);
      [done|unfold NR_SDU_MAX in HN; lia]]|].
  assert (Hrx1 : rx_inorder (rx <| stats := st |>) (tx_next tx) D (seg_so s))
    by (apply (rx_inorder_ext rx); try done; by destruct C).
  assert (Hpend : pending tx' = map (seg_data (heap tx)) (tx_list tx')) by (by apply heap_same_data).
  assert (Hpend0 : pending tx = D :: map (seg_data (heap tx)) r) by (unfold pending; by rewrite El).
  destruct (seg_is_last s1) eqn:Hl1.
  - destruct Hq as [Hsz1 El'].
    assert (HL : Z.of_nat (length data) = Z.of_nat (length D) - seg_so s) by lia.
    destruct (seg_is_first s) eqn:Hf; rewrite Hfs; cbn [andb].
    + eexists; split; [reflexivity|].
      assert (Hx : next_tx_sn tx s1 = tx_next tx) by (unfold next_tx_sn; by rewrite Hfs).
      eapply (link_delivered snl tx rx acc s r tx' _ D Hlk); try done; try congruence.
      * rewrite Hnx, Hx. rewrite Hfst in Hrx1.
        apply (rx_inorder_ext (rx <| stats := st |>)); try done; by destruct C.
      * simpl. do 3 f_equal. rewrite Hbytes, Hfst. simpl. rewrite drop_0. apply take_ge. fold D. lia.
    + destruct (recv_last (rx <| stats := st |>) (tx_next tx) D (seg_so s) data (Z.of_nat (length P)))
        as (rx' & Hrecv & Hrx' & Htr' & Hm2 & Hs3); try done; try lia; [simpl; lia|].
      rewrite Hso, Hrecv. exists rx'. split; [done|].
      change (sn_field_length (rx <| stats := st |>)) with (sn_field_length rx) in Hs3.
      eapply (link_delivered snl tx rx acc s r tx' rx' D Hlk); try done; try congruence.
      rewrite Hnx. unfold next_tx_sn. rewrite Hfs, Hl1. simpl.
      pose proof (um_cfg_bounds _ (tx_cfg _ _ Htx)). pose proof (tx_sn _ _ Htx).
      rewrite Z.rem_mod_nonneg, <- HM by lia. apply Hrx'.
  - destruct Hq as (Hfill & s2 & El' & Hsdu2 & Hso2 & Hsz2 & Hpos2 & Hf2 & Hl2).
    assert (Hk0 : seg_is_first s1 = (seg_so s =? 0)).
    { rewrite Hfs. destruct (seg_is_first s); symmetry; [by apply Z.eqb_eq|apply Z.eqb_neq; lia]. }
    rewrite andb_false_r, Hk0, Hso.
    destruct (recv_more (rx <| stats := st |>) (tx_next tx) D (seg_so s) data (Z.of_nat (length P)))
      as (rx' & -> & Hrx' & Htr' & Hm2 & Hs3); try done; try lia; [simpl; lia|].
    change (sn_field_length (rx <| stats := st |>)) with (sn_field_length rx) in Hs3.
    exists rx'. split; [done|]. split; try done; [split; congruence|simpl in *; lia|..].
    + assert (Hd2 : seg_data (heap tx') s2 = D).
      { pose proof (heap_same_data _ _ _ Hsame) as E. rewrite El' in E. simpl in E.
        injection E as E _. rewrite E. unfold D, seg_data. by rewrite Hsdu2. }
      rewrite El', Hd2, Hnx, Hso2, <- Hlen. unfold next_tx_sn. by rewrite Hl1, andb_false_r.
    + exists dl. split; [rewrite Htr'; exact Htr|]. rewrite Hpend, El', <- Hacc, Hpend0. simpl. do 2 f_equal.
      unfold D, seg_data. by rewrite Hsdu2.
Qed.

Lemma grant_length leak e s r size n e' P buf :
  granted leak e s r size n e' P -> P = take (Z.to_nat n) buf -> size <= Z.of_nat (length buf) ->
  0 < n <= size /\ Z.of_nat (length P) = n.
Proof.
  intros [_ _ _ (s1 & (_ & _ & _ & Hsz & Hfit & _) & Hn & _) _] -> Hl.
  pose proof (header_size_bounds e s1). rewrite length_take. lia.
Qed.

Lemma link_step_ok snl tx rx acc o :
  link_ok snl tx rx acc -> link_op_ok snl o ->
  exists tx' rx' acc', link_step (tx, rx, acc) o = Done (tx', rx', acc') /\ link_ok snl tx' rx' acc'.
Proof.
  intros Hlk Ho. destruct o as [d id now|buf now|now].
  - destruct Hlk as [Htx [Hs1 Hs2] Hmax Hrx (dl & Htr & Hacc)], Ho as [HB Hd].
    destruct (um_recv_sdu_ok 0 tx d id now Htx HB Hd) as (tx' & E & Hok' & Hm & Hs' & Hnx & Hq).
    unfold link_step, accepts. rewrite E. simpl. eexists _, _, _. split; [reflexivity|].
    destruct (_ >? _); simpl.
    + destruct Hq as [El Eh]. split; try done; [split; congruence|by rewrite Hnx, El, Eh|].
      exists dl. unfold pending. by rewrite El, Eh.
    + destruct Hq as (s & El & Hf & Hp). split; try done; [split; congruence|..].
      * rewrite Hnx, El. destruct (tx_list tx) as [|t l] eqn:El0; simpl in *.
        -- assert (Hso : seg_so s = 0).
           { pose proof (tx_segs _ _ Hok') as F. rewrite El in F.
             apply Forall_cons in F as [(u & _ & _ & _ & _ & _ & H) _]. by rewrite Hf in H. }
           rewrite Hso. by eapply rx_idle_any.
        -- unfold pending in Hp. rewrite El, El0 in Hp. injection Hp as -> _. done.
      * exists dl. by rewrite Hp, <- Hacc, app_assoc.
  - destruct Ho as [HB H2]. unfold link_step. destruct (no_room tx (Z.of_nat (length buf))) eqn:Er.
    + rewrite (generate_no_room _ _ _ _ Er). simpl. eauto.
    + destruct (tx_list tx) as [|s r] eqn:El; [by unfold no_room in Er; rewrite El in Er|].
      destruct (generate_ok 0 tx s r buf (Z.of_nat (length buf)) now)
        as (n & tx' & buf' & -> & Hl & Hg); try done; [apply Hlk| |].
      { destruct Hlk as [_ [-> _] _ _ _]. intros E E2. apply (H2 E). lia. }
      destruct (grant_length _ _ _ _ _ _ _ _ buf' Hg eq_refl) as [Hn Hpl]; [lia|].
      destruct (link_pdu _ _ _ _ _ _ _ _ _ _ Hlk El Hg) as (rx' & Hr & Hlk').
      unfold mbind, outcome_bind. cif; zbool; [lia|]. rewrite Hpl in Hr. rewrite Hr. eauto.
  - unfold link_step, nr_rlc_entity_um_set_time, check_t_reassembly.
    destruct Hlk as [Htx [Hs1 Hs2] Hmax Hrx Hsd]. simpl. rewrite (ri_timer _ _ _ _ Hrx). simpl.
    eexists _, _, _. split; [reflexivity|]. split; try done.
    apply (rx_inorder_ext rx); try done; [by destruct (ri_cfg _ _ _ _ Hrx)|].
    by rewrite (ri_timer _ _ _ _ Hrx).
Qed.

Lemma link_run_ok snl os : Forall (link_op_ok snl) os -> forall tx rx acc,
  link_ok snl tx rx acc ->
  exists tx' rx' acc', link_run (tx, rx, acc) os = Done (tx', rx', acc') /\ link_ok snl tx' rx' acc'.
Proof.
  induction 1 as [|o os Ho _ IH]; intros tx rx acc Hlk; [eauto|].
  destruct (link_step_ok _ _ _ _ _ Hlk Ho) as (tx1 & rx1 & acc1 & E & Hlk1).
  cbn [link_run]. rewrite E. simpl. by apply IH.
Qed.

Lemma new_idle rxm txm t snl e :
  new_nr_rlc_entity_um rxm txm t snl = Done e -> um_cfg e -> rx_inorder e 0 [] 0.
Proof.
  unfold new_nr_rlc_entity_um. cif; [|done]. intros [= <-] C.
  pose proof (um_cfg_bounds _ C). split; simpl in *; try done; try lia.
  exists [], []. split; [done|]. repeat constructor.
Qed.

(** Two new entities. *)
Lemma link_new snl rxm txm t :
  snl = 6 \/ snl = 12 -> NR_SDU_MAX <= rxm -> 0 <= txm ->
  exists e, new_nr_rlc_entity_um rxm txm t snl = Done e /\ link_ok snl e e [] /\
    tx_maxsize e = txm /\ trace e = [] /\ t_reassembly_start e = 0 /\ avg_time_is_on e = false.
Proof.
  intros L Hr Ht. destruct (um_new_ok rxm txm t snl L Ht) as (e & E & Hok & Hs & Hrm & Htm & Htr & Hl & C).
  exists e. split; [done|].
  assert (H0 : tx_next e = 0 /\ t_reassembly_start e = 0 /\ avg_time_is_on e = false).
  { revert E. unfold new_nr_rlc_entity_um. cif; [|done]. by intros [= <-]. }
  destruct H0 as (H0 & H1 & H2). split_and!; try done.
  split; try done; [by rewrite Hrm|..].
  - rewrite Hl, H0. by eapply new_idle.
  - exists []. unfold pending. by rewrite Htr, Hl.
Qed.

(** C8. Lossless transfer in unacknowledged mode.  Two new entities with the same
    SN length (6 or 12 bits), the PDUs of the first one going to the second one
    in order: for every sequence of SDUs from above (1 to 16000 bytes), grants
    of any size (other than two bytes with 12-bit SNs) and clock ticks, every
    call returns, and what the receiver has delivered, followed by what is
    still queued in the sender, is exactly the sequence of SDUs the sender
    accepted: SDUs are segmented and reassembled without loss, duplication,
    corruption or reordering.  Once the queue is empty all of them have been
    delivered, and the sender reports no byte to send. *)
Theorem um_lossless (snl rxm txm t : Z) (os : list link_op) :
  snl = 6 \/ snl = 12 -> NR_SDU_MAX <= rxm -> 0 <= txm -> Forall (link_op_ok snl) os ->
  exists tx0 rx0 tx rx acc dl,
    new_nr_rlc_entity_um rxm txm t snl = Done tx0 /\
    new_nr_rlc_entity_um rxm txm t snl = Done rx0 /\
    link_run (tx0, rx0, []) os = Done (tx, rx, acc) /\
    trace rx = map DeliverSdu dl /\ dl ++ pending tx = acc /\
    (tx_list tx = [] -> dl = acc /\ nr_rlc_entity_um_buffer_status tx 0 = mk_bs 0 0 0).
Proof.
  intros L Hr Ht Hos. destruct (link_new snl rxm txm t L Hr Ht) as (e & E & Hlk & _).
  destruct (link_run_ok snl os Hos _ _ _ Hlk) as (tx & rx & acc & Hrun & [Htx _ _ _ (dl & Hd & Hp)]).
  exists e, e, tx, rx, acc, dl. split_and!; try done.
  intros Hnil. unfold pending in Hp. rewrite Hnil, app_nil_r in Hp. split; [done|].
  unfold nr_rlc_entity_um_buffer_status. by rewrite (tx_bs _ _ Htx), Hnil.
Qed.

Lemma um_lossless_witness :
  exists tx0 rx0 tx rx acc dl,
    new_nr_rlc_entity_um 16000 8 35 12 = Done tx0 /\ new_nr_rlc_entity_um 16000 8 35 12 = Done rx0 /\
    link_run (tx0, rx0, []) [Send [1; 2; 3; 4; 5] 1 0; Send [6; 7] 2 0; Send [8; 9] 3 0;
      Grant [0; 0; 0; 0] 0; Tick 1; Grant [0; 0; 0] 0; Grant [0; 0; 0; 0; 0; 0; 0; 0] 0;
      Grant [0; 0; 0] 0] = Done (tx, rx, acc) /\
    trace rx = map DeliverSdu dl /\ dl ++ pending tx = acc /\
    (tx_list tx = [] -> dl = acc /\ nr_rlc_entity_um_buffer_status tx 0 = mk_bs 0 0 0).
Proof.
  apply (um_lossless 12 16000 8 35 [Send [1; 2; 3; 4; 5] 1 0; Send [6; 7] 2 0; Send [8; 9] 3 0;
      Grant [0; 0; 0; 0] 0; Tick 1; Grant [0; 0; 0] 0; Grant [0; 0; 0; 0; 0; 0; 0; 0] 0;
      Grant [0; 0; 0] 0]).
  - by right.
  - unfold NR_SDU_MAX. lia.
  - lia.
  - unfold link_op_ok, NR_SDU_MAX, is_byte. repeat constructor; simpl; try lia; try done.
Defined.

(** The transfer of the witness, evaluated: three PDUs carry two SDUs, the third
    SDU is refused. *)
Example link_example :
  (tx0 ← new_nr_rlc_entity_um 16000 8 35 12;
   '(tx, rx, acc) ← link_run (tx0, tx0, []) [Send [1; 2; 3; 4; 5] 1 0; Send [6; 7] 2 0; Send [8; 9] 3 0;
      Grant [0; 0; 0; 0] 0; Tick 1; Grant [0; 0; 0] 0; Grant [0; 0; 0; 0; 0; 0; 0; 0] 0;
      Grant [0; 0; 0] 0];
   Done (trace rx, acc, pending tx))
  = Done ([DeliverSdu [1; 2; 3; 4; 5]; DeliverSdu [6; 7]], [[1; 2; 3; 4; 5]; [6; 7]], []).
Proof. vm_compute. reflexivity. Qed.
