(* ===== verification/RlcAm.v ===== *)
(** The RLC entity in acknowledged mode, part 1
    (openair2/LAYER2/nr_rlc/nr_rlc_entity_am.c and .h): the entity, its creation
    and reconfiguration (nr_rlc_entity.c), the arithmetic on sequence numbers
    and the reception of data PDUs. *)

From S2P Require Import Prelude RlcPdu RlcSdu RlcRx.

Record nr_rlc_entity_am_t := mk_am {
  avg_time_is_on : bool;
  stats : nr_rlc_statistics_t;
  bstatus : nr_rlc_entity_buffer_status_t;
  t_poll_retransmit : Z;
  t_reassembly : Z;
  t_status_prohibit : Z;
  poll_pdu : Z;
  poll_byte : Z;
  max_retx_threshold : Z;
  sn_field_length : Z;
  sn_modulus : Z;
  window_size : Z;
  rx_next : Z;
  rx_next_status_trigger : Z;
  rx_highest_status : Z;
  rx_next_highest : Z;
  status_triggered : bool;
  tx_next : Z;
  tx_next_ack : Z;
  poll_sn : Z;
  pdu_without_poll : Z;
  byte_without_poll : Z;
  force_poll : bool;
  t_current : Z;
  t_log_buffer_full : Z;
  sdu_rejected : Z;
  t_poll_retransmit_start : Z;
  t_reassembly_start : Z;
  t_status_prohibit_start : Z;
  rx_list : list nr_rlc_pdu_t;
  rx_size : Z;
  rx_maxsize : Z;
  tx_list : list nr_rlc_sdu_segment_t;
  tx_end : option nat;
  tx_size : Z;
  tx_maxsize : Z;
  wait_list : list nr_rlc_sdu_segment_t;
  wait_end : option nat;
  retransmit_list : list nr_rlc_sdu_segment_t;
  heap : sdu_heap;
  trace : list event
}.
#[export] Instance eta_am : Eta nr_rlc_entity_am_t := fun r =>
  mk_am (avg_time_is_on r) (stats r) (bstatus r) (t_poll_retransmit r) (t_reassembly r)
    (t_status_prohibit r) (poll_pdu r) (poll_byte r) (max_retx_threshold r) (sn_field_length r)
    (sn_modulus r) (window_size r) (rx_next r) (rx_next_status_trigger r) (rx_highest_status r)
    (rx_next_highest r) (status_triggered r) (tx_next r) (tx_next_ack r) (poll_sn r)
    (pdu_without_poll r) (byte_without_poll r) (force_poll r) (t_current r) (t_log_buffer_full r)
    (sdu_rejected r) (t_poll_retransmit_start r) (t_reassembly_start r) (t_status_prohibit_start r)
    (rx_list r) (rx_size r) (rx_maxsize r) (tx_list r) (tx_end r) (tx_size r) (tx_maxsize r)
    (wait_list r) (wait_end r) (retransmit_list r) (heap r) (trace r).

(** nr_rlc_entity.c; the callbacks of the new entity are the events of [trace]. *)
Definition new_nr_rlc_entity_am (rx_maxsize tx_maxsize t_poll_retransmit t_reassembly
    t_status_prohibit poll_pdu poll_byte max_retx_threshold sn_field_length : Z)
  : outcome nr_rlc_entity_am_t :=
  if (sn_field_length =? 12) || (sn_field_length =? 18) then
    let sn_modulus := Z.shiftl 1 sn_field_length in
    Done (mk_am false zero_stats (mk_bs 0 0 0) t_poll_retransmit t_reassembly t_status_prohibit
            poll_pdu poll_byte max_retx_threshold sn_field_length sn_modulus (Z.quot sn_modulus 2)
            0 0 0 0 false 0 0 0 0 0 false 0 0 0 0 0 0 [] 0 rx_maxsize [] None 0 tx_maxsize
            [] None [] empty_heap [])
  else Exit.

Definition nr_rlc_entity_am_reconfigure (e : nr_rlc_entity_am_t)
    (t_poll t_reass t_prohibit ppdu pbyte max_retx : Z) (sn_field_len : option Z)
  : nr_rlc_entity_am_t :=
  let e := e <| t_poll_retransmit := t_poll |> <| t_reassembly := t_reass |>
             <| t_status_prohibit := t_prohibit |> <| poll_pdu := ppdu |> <| poll_byte := pbyte |>
             <| max_retx_threshold := max_retx |> in
  match sn_field_len with Some n => e <| sn_field_length := n |> | None => e end.

Definition compute_pdu_header_size (e : nr_rlc_entity_am_t) (sdu : nr_rlc_sdu_segment_t) : Z :=
  let header_size := 2 in
  let header_size := if sn_field_length e =? 18 then header_size + 1 else header_size in
  if negb (seg_is_first sdu) then header_size + 2 else header_size.

(** ** PDU RX functions *)

Definition modulus_rx (e : nr_rlc_entity_am_t) (a : Z) : Z :=
  let r := a - rx_next e in if r <? 0 then r + sn_modulus e else r.

Definition modulus_tx (e : nr_rlc_entity_am_t) (a : Z) : Z :=
  let r := a - tx_next_ack e in if r <? 0 then r + sn_modulus e else r.

Definition sn_in_recv_window (e : nr_rlc_entity_am_t) (sn : Z) : bool :=
  modulus_rx e sn <? window_size e.

Definition sn_compare_rx (e : nr_rlc_entity_am_t) (a b : Z) : Z := modulus_rx e a - modulus_rx e b.
Definition sn_compare_tx (e : nr_rlc_entity_am_t) (a b : Z) : Z := modulus_tx e a - modulus_tx e b.

(** The loop [while (l != NULL && size > 0)]; the result is the size left. *)
Fixpoint already_received_loop (l : list nr_rlc_pdu_t) (sn so size : Z) : Z :=
  match l with
  | [] => size
  | p :: r =>
      if size <=? 0 then size
      else if pdu_sn p =? sn then
        if (pdu_so p <=? so) && (so <? pdu_so p + pdu_size p) then
          let covered := pdu_size p - (so - pdu_so p) in
          already_received_loop r sn (so + covered) (size - covered)
        else if (pdu_so p <=? so + size - 1) && (so + size - 1 <? pdu_so p + pdu_size p) then
          let covered := size - (pdu_so p - so) in
          already_received_loop r sn so (size - covered)
        else already_received_loop r sn so size
      else already_received_loop r sn so size
  end.

Definition segment_already_received (e : nr_rlc_entity_am_t) (sn so size : Z) : bool :=
  already_received_loop (rx_list e) sn so size <=? 0.

Definition sdu_full (e : nr_rlc_entity_am_t) (sn : Z) : bool := list_sdu_full (rx_list e) sn.
Definition sdu_delivered (e : nr_rlc_entity_am_t) (sn : Z) : bool :=
  list_sdu_delivered (rx_list e) sn.
Definition sdu_has_missing_bytes (e : nr_rlc_entity_am_t) (sn : Z) : bool :=
  list_sdu_has_missing_bytes (rx_list e) sn.

Definition reassemble_and_deliver (e : nr_rlc_entity_am_t) (sn : Z) : outcome nr_rlc_entity_am_t :=
  '(l, st) ← reassemble false sn (rx_list e);
  let e := e <| rx_list := l |> <| rx_size ::= fun x => x - ra_freed st |> in
  if ra_bad_sdu st then Done e
  else
    let e := e <| trace ::= fun t => t ++ [DeliverSdu (ra_sdu st)] |> in
    Done (e <| stats; txsdu_pkts ::= add32 1 |>).

(** [do { ... } while (rx_list != NULL && rx_list->sn == rx_next)]: free the
    segments of the SDU at the head. *)
Fixpoint drop_sn (sn : Z) (l : list nr_rlc_pdu_t) : list nr_rlc_pdu_t :=
  match l with
  | [] => []
  | p :: r => if pdu_sn p =? sn then drop_sn sn r else l
  end.

(** Free the delivered SDUs at the head of the list; the list and [rx_next]. *)
Fixpoint free_delivered (fuel : nat) (l : list nr_rlc_pdu_t) (m rx_next : Z)
  : outcome (list nr_rlc_pdu_t * Z) :=
  match fuel with
  | O => Undef
  | S fuel =>
      match l with
      | [] => Done (l, rx_next)
      | p :: r =>
          if processed l && (pdu_sn p =? rx_next)
          then free_delivered fuel (drop_sn rx_next r) m (Z.rem (rx_next + 1) m)
          else Done (l, rx_next)
      end
  end.

Definition reception_timers (e : nr_rlc_entity_am_t) : nr_rlc_entity_am_t :=
  let next := Z.rem (rx_next e + 1) (sn_modulus e) in
  let e :=
    if negb (t_reassembly_start e =? 0) &&
       ((rx_next_status_trigger e =? rx_next e) ||
        ((rx_next_status_trigger e =? next) && negb (sdu_has_missing_bytes e (rx_next e))) ||
        (negb (sn_in_recv_window e (rx_next_status_trigger e)) &&
         negb (rx_next_status_trigger e =? Z.rem (rx_next e + window_size e) (sn_modulus e))))
    then e <| t_reassembly_start := 0 |> else e in
  if (t_reassembly_start e =? 0) &&
     ((sn_compare_rx e (rx_next_highest e) next >? 0) ||
      ((rx_next_highest e =? next) && sdu_has_missing_bytes e (rx_next e)))
  then e <| t_reassembly_start := t_current e |> <| rx_next_status_trigger := rx_next_highest e |>
  else e.

Definition reception_actions (e : nr_rlc_entity_am_t) (x : Z) : outcome nr_rlc_entity_am_t :=
  let e := if sn_compare_rx e x (rx_next_highest e) >=? 0
           then e <| rx_next_highest := Z.rem (x + 1) (sn_modulus e) |> else e in
  e ← (if sdu_full e x then
         e ← reassemble_and_deliver e x;
         e ← (if x =? rx_highest_status e then
                n ← next_undelivered (rx_list e) (sn_modulus e) (rx_highest_status e);
                Done (e <| rx_highest_status := n |>)
              else Done e);
         if x =? rx_next e then
           '(l, n) ← free_delivered (S (length (rx_list e))) (rx_list e) (sn_modulus e) (rx_next e);
           Done (e <| rx_list := l |> <| rx_next := n |>)
         else Done e
       else Done e);
  Done (reception_timers e).

(** ** Configuration and accounting *)

Record am_cfg (e : nr_rlc_entity_am_t) : Prop := {
  cfg_len : sn_field_length e = 12 \/ sn_field_length e = 18;
  cfg_mod : sn_modulus e = 2 ^ sn_field_length e;
  cfg_win : 2 * window_size e = sn_modulus e
}.

Lemma am_cfg_mod e : am_cfg e -> 4096 <= sn_modulus e.
Proof. intros [[L|L] M _]; rewrite L in M; lia. Qed.

(** What the segments need as PDUs, headers included. *)
Definition pdus_bytes (e : nr_rlc_entity_am_t) (l : list nr_rlc_sdu_segment_t) : Z :=
  foldr (fun s a => compute_pdu_header_size e s + seg_size s + a) 0 l.

Lemma am_pdus_bytes_app e l1 l2 : pdus_bytes e (l1 ++ l2) = pdus_bytes e l1 + pdus_bytes e l2.
Proof. unfold pdus_bytes. induction l1; simpl; lia. Qed.

Lemma pdus_bytes_cons e s l :
  pdus_bytes e (s :: l) = compute_pdu_header_size e s + seg_size s + pdus_bytes e l.
Proof. done. Qed.

Lemma pdus_bytes_ext e e' l :
  sn_field_length e' = sn_field_length e -> pdus_bytes e' l = pdus_bytes e l.
Proof. intros E. unfold pdus_bytes, compute_pdu_header_size. by rewrite E. Qed.

Lemma header_size_ext e e' s :
  sn_field_length e' = sn_field_length e -> compute_pdu_header_size e' s = compute_pdu_header_size e s.
Proof. intros E. unfold compute_pdu_header_size. by rewrite E. Qed.

(** The transmitter, when the segments [lost] are in none of its lists: the three
    lists and these are all the segments of the store, and the ends of the
    lists, the buffer status and the size of the buffer agree with all of them. *)
Record am_tx_missing (lost : list nr_rlc_sdu_segment_t) (e : nr_rlc_entity_am_t) : Prop := {
  at_cfg : am_cfg e;
  at_heap : heap_ok (heap e) (tx_list e ++ wait_list e ++ retransmit_list e ++ lost);
  at_tx_end : tx_end e = seg_end (tx_list e);
  at_wait_end : wait_end e = seg_end (wait_list e);
  at_tx_bs : bs_tx_size (bstatus e) = pdus_bytes e (tx_list e);
  at_retx_bs : bs_retx_size (bstatus e) = pdus_bytes e (retransmit_list e ++ lost);
  at_size : tx_size e = heap_bytes (heap e) /\ tx_size e <= tx_maxsize e
}.

(** The transmitter is consistent: its three lists are all the segments of the store. *)
Definition am_tx_ok (e : nr_rlc_entity_am_t) : Prop := am_tx_missing [] e.

(** ** Detection of segments already received *)

(** The segments of an SDU are in the order of their offsets. *)
Definition so_le (p q : nr_rlc_pdu_t) : Prop := pdu_sn p = pdu_sn q -> pdu_so p <= pdu_so q.

Lemma covered_cons p l sn b :
  covered (p :: l) sn b <->
  (pdu_sn p = sn /\ pdu_so p <= b < pdu_so p + pdu_size p) \/ covered l sn b.
Proof.
  unfold covered. split.
  - intros (q & Hq & Hc). apply elem_of_cons in Hq as [->|Hq]; [by left|right; eauto].
  - intros [H|(q & Hq & H)]; [exists p; split; [left|done]|exists q; split; [by right|done]].
Qed.

Lemma already_received_sound sn l : forall so size,
  already_received_loop l sn so size <= 0 -> forall b, so <= b < so + size -> covered l sn b.
Proof.
  induction l as [|p l IH]; simpl; intros so size H b Hb; [lia|].
  rewrite covered_cons. revert H. cif; zbool; [lia|].
  destruct (pdu_sn p =? sn) eqn:Es; zbool; [|intros Hl; right; by eapply IH].
  destruct ((pdu_so p <=? so) && _) eqn:E1; [|destruct ((pdu_so p <=? so + size - 1) && _) eqn:E2];
    zbool; intros Hl.
  - destruct (decide (b < pdu_so p + pdu_size p)); [left; lia|right]. eapply IH; [exact Hl|lia].
  - destruct (decide (pdu_so p <= b)); [left; lia|right]. eapply IH; [exact Hl|lia].
  - right. by eapply IH.
Qed.

Lemma already_received_complete sn l :
  Forall (fun p => 0 < pdu_size p) l -> StronglySorted so_le l -> forall so size,
  (forall b, so <= b < so + size -> covered l sn b) -> already_received_loop l sn so size <= 0.
Proof.
  induction l as [|p l IH]; simpl; intros F S so size H.
  - destruct (decide (0 < size)) as [Hs|Hs]; [|lia].
    destruct (H so) as (q & Hq & _); [lia|by apply not_elem_of_nil in Hq].
  - apply Forall_cons in F as [Hp F]. apply StronglySorted_inv in S as [S Sp].
    assert (Hr : forall b, so <= b < so + size ->
       ~ (pdu_sn p = sn /\ pdu_so p <= b < pdu_so p + pdu_size p) -> covered l sn b).
    { intros b Hb Hn. specialize (H b Hb). rewrite covered_cons in H. by destruct H. }
    cif; zbool; [done|]. destruct (pdu_sn p =? sn) eqn:Es; zbool.
    2: { apply IH; [done|done|]. intros b Hb. apply Hr; [lia|]. intros [? _]. done. }
    destruct ((pdu_so p <=? so) && _) eqn:E1; [|destruct ((pdu_so p <=? so + size - 1) && _) eqn:E2]; zbool.
    + apply IH; [done|done|]. intros b Hb. apply Hr; [lia|]. intros [_ ?]. lia.
    + apply IH; [done|done|]. intros b Hb. apply Hr; [lia|]. intros [_ ?]. lia.
    + (* [p] does not cover the first byte: with a larger offset, no segment does *)
      apply IH; [done|done|]. intros b Hb. apply Hr; [done|]. intros [_ Hpb].
      destruct (Hr so) as (q & Hq & Hqs & Hqb); [lia|intros [_ ?]; destruct E1; zbool; lia|].
      rewrite Forall_forall in Sp. pose proof (Sp q Hq ltac:(congruence)).
      destruct E1, E2; zbool; lia.
Qed.

(** C30. Duplicate detection of the AM receiver.  When the receive list holds the
    segments of each SDU by increasing offset and no empty segment, a received
    segment is rejected as already received exactly when every one of its bytes
    is in the list, in one segment or spread over several ones. *)
Theorem am_already_received_exact (e : nr_rlc_entity_am_t) (sn so size : Z) :
  Forall (fun p => 0 < pdu_size p) (rx_list e) -> StronglySorted so_le (rx_list e) ->
  segment_already_received e sn so size = true <->
  (forall b, so <= b < so + size -> covered (rx_list e) sn b).
Proof.
  intros F S. unfold segment_already_received. rewrite Z.leb_le. split.
  - apply already_received_sound.
  - by apply already_received_complete.
Qed.

Lemma am_already_received_exact_witness :
  exists e,
    new_nr_rlc_entity_am 100 100 45 35 0 (-1) (-1) 8 12 = Done e /\
    let e := e <| rx_list := [mk_pdu 3 (Some [1; 2]) 2 0 true false; mk_pdu 3 (Some [3; 4; 5]) 3 2 false false] |> in
    segment_already_received e 3 1 4 = true <->
    (forall b, 1 <= b < 1 + 4 -> covered (rx_list e) 3 b).
Proof.
  eexists. split; [vm_compute; reflexivity|]. cbv zeta.
  apply am_already_received_exact.
  - repeat constructor.
  - simpl. repeat constructor; unfold so_le; simpl; lia.
Defined.
