(* ===== verification/RlcAmCtrl.v ===== *)
(** The RLC entity in acknowledged mode, part 2: the processing of a received
    STATUS PDU ([process_control_pdu]) and of received PDUs
    ([nr_rlc_entity_am_recv_pdu]) of nr_rlc_entity_am.c. *)

From S2P Require Import Prelude RlcPdu RlcSdu RlcRx RlcAm.

Definition so_overlap (s1 e1 s2 e2 : Z) : bool :=
  if s1 <? s2 then (e1 =? -1) || (e1 >=? s2)
  else (e2 =? -1) || (s1 <=? e2).

(** ** First pass: validation *)

(** The checks of one NACK of the loop [for (i = 0; i < range; i++)]; the source
    does not update [prev_nack_sn] in this pass. *)
Definition check_nack (e : nr_rlc_entity_am_t) (ack_sn prev_nack_sn prev_so_end cur_nack_sn cur_so_start : Z)
  : bool :=
  negb ((negb (prev_nack_sn =? -1) &&
         (let cmp := sn_compare_tx e cur_nack_sn prev_nack_sn in
          (cmp <? 0) || ((cmp =? 0) && ((prev_so_end =? -1) || (cur_so_start <=? prev_so_end)))))
        || (sn_compare_tx e cur_nack_sn ack_sn >? 0)).

Fixpoint check_range (n : nat) (i : Z) (e : nr_rlc_entity_am_t) (ack_sn prev_nack_sn prev_so_end
    nack_sn so_start : Z) : bool :=
  match n with
  | O => true
  | S n =>
      check_nack e ack_sn prev_nack_sn prev_so_end (Z.rem (nack_sn + i) (sn_modulus e))
        (if i =? 0 then so_start else 0)
      && check_range n (i + 1) e ack_sn prev_nack_sn prev_so_end nack_sn so_start
  end.

Definition r_bits (e : nr_rlc_entity_am_t) : Z := if sn_field_length e =? 18 then 3 else 1.
Definition ack_r_bits (e : nr_rlc_entity_am_t) : Z := if sn_field_length e =? 18 then 1 else 7.

(** The loop [while (e1)]: the fields of each NACK are read, [check] stands for the
    loop on its range.  [Done false] is [goto err]. *)
Fixpoint scan_nacks (check : Z -> Z -> Z -> bool) (fuel : nat) (e : nr_rlc_entity_am_t) (e1 : Z)
    (d : nr_rlc_pdu_decoder_t) : outcome bool :=
  if e1 =? 0 then Done true
  else match fuel with
  | O => Undef
  | S fuel =>
      let err := Done false in
      get_or d (sn_field_length e) err (fun nack_sn d =>
      get_or d 1 err (fun e1 d =>
      get_or d 1 err (fun e2 d =>
      get_or d 1 err (fun e3 d =>
      get_or d (r_bits e) err (fun _ d =>
      let with_range so_start (d : nr_rlc_pdu_decoder_t) :=
        let go range d :=
          if check nack_sn so_start range then scan_nacks check fuel e e1 d else err in
        if negb (e3 =? 0) then get_or d 8 err go else go 1 d in
      if negb (e2 =? 0)
      then get_or d 16 err (fun so_start d => get_or d 16 err (fun _ d => with_range so_start d))
      else with_range 0 d)))))
  end.

(** The whole pass: [Done false] when the control PDU is discarded. *)
Definition scan_control_pdu (check : Z -> Z -> Z -> Z -> bool) (e : nr_rlc_entity_am_t)
    (buffer : list Z) (size : Z) : outcome bool :=
  let err := Done false in
  get_or (nr_rlc_pdu_decoder_init buffer size) 1 err (fun _ d =>
  get_or d 3 err (fun cpt d =>
  if negb (cpt =? 0) then err
  else
    get_or d (sn_field_length e) err (fun ack_sn d =>
    get_or d 1 err (fun e1 d =>
    get_or d (ack_r_bits e) err (fun _ d =>
    if sn_compare_tx e ack_sn (tx_next e) >? 0 then err
    else scan_nacks (check ack_sn) (S (Z.to_nat size)) e e1 d))))).

Definition validate_control_pdu (e : nr_rlc_entity_am_t) (buffer : list Z) (size : Z) : outcome bool :=
  scan_control_pdu (fun ack_sn nack_sn so_start range =>
    check_range (Z.to_nat range) 0 e ack_sn (-1) 0 nack_sn so_start) e buffer size.

(** ** Second pass *)

(** The local variables of the second pass.  [p_kept] are the segments from the
    head of the wait list to [prev_wait_list], [p_wait] those from
    [prev_wait_list->next] on, [p_wait_over] tells that [cur_wait_list] has been
    set to NULL before the end of the list.  [p_new] are the segments of the new
    retransmit list up to [new_retransmit_list] and [p_new_next] those from
    [new_retransmit_list->next] on.  [p_end] is [end_wait_list]: None for NULL,
    Some None for [&head_wait_list]. *)
Record ctrl := mk_ctrl {
  p_e : nr_rlc_entity_am_t;
  p_kept : list nr_rlc_sdu_segment_t;
  p_wait : list nr_rlc_sdu_segment_t;
  p_wait_over : bool;
  p_end : option (option nat);
  p_retx : list nr_rlc_sdu_segment_t;
  p_new : list nr_rlc_sdu_segment_t;
  p_new_next : list nr_rlc_sdu_segment_t
}.
#[export] Instance eta_ctrl : Eta ctrl := fun r =>
  mk_ctrl (p_e r) (p_kept r) (p_wait r) (p_wait_over r) (p_end r) (p_retx r) (p_new r) (p_new_next r).

Definition cur_wait (c : ctrl) : list nr_rlc_sdu_segment_t :=
  if p_wait_over c then [] else p_wait c.

(** [if (cur_wait_list == entity->wait_end) end_wait_list = prev_wait_list;] and
    the unlinking of [cur_wait_list]. *)
Definition unlink_wait (c : ctrl) (s : nr_rlc_sdu_segment_t) (rest : list nr_rlc_sdu_segment_t) : ctrl :=
  let c := c <| p_wait := rest |> in
  if bool_decide (wait_end (p_e c) = Some (seg_id s))
  then c <| p_end := Some (seg_end (p_kept c)) |> else c.

(** Free an acknowledged segment; report the SDU once all of it is. *)
Definition free_acked (e : nr_rlc_entity_am_t) (s : nr_rlc_sdu_segment_t)
  : outcome nr_rlc_entity_am_t :=
  u ← sdu_of (heap e) s;
  '(freed, h) ← nr_rlc_free_sdu_segment (heap e) s;
  let e := e <| heap := h |> in
  if freed : bool then
    Done (e <| tx_size ::= fun x => x - sdu_size u |> <| stats; txsdu_bytes ::= add64 (sdu_size u) |>
            <| trace ::= fun t => t ++ [SduSuccessfulDelivery (sdu_upper_layer_id u)] |>)
  else Done e.

(** What happens after a step: go to [process_next_pdu], [done_nack] or
    [lists_over]. *)
Inductive label := ProcessNextPdu | DoneNack | ListsOver.

(** [process_wait_list_head] *)
Definition process_wait_list_head (c : ctrl) (s : nr_rlc_sdu_segment_t)
    (rest : list nr_rlc_sdu_segment_t) (ack_sn nack_sn so_start so_end : Z)
  : outcome (label * ctrl) :=
  let e := p_e c in
  u ← sdu_of (heap e) s;
  if (sdu_sn u =? nack_sn) && so_overlap so_start so_end (seg_so s) (seg_so s + seg_size s - 1) then
    let c := unlink_wait c s rest in
    let c := c <| p_new ::= fun l => l ++ [s] |> <| p_new_next := [] |> in
    let u := u <| sdu_retx_count ::= Z.add 1 |> in
    let e := e <| heap ::= fun h => set_sdu h (seg_sdu s) u |> in
    let e := if sdu_retx_count u >=? max_retx_threshold e * sdu_ref_count u
             then e <| trace ::= fun t => t ++ [MaxRetxReached] |> else e in
    let e := e <| bstatus; bs_retx_size ::= Z.add (compute_pdu_header_size e s + seg_size s) |> in
    Done (ProcessNextPdu, c <| p_e := e |>)
  else
    let cmp := sn_compare_tx e (sdu_sn u) nack_sn in
    if (cmp >? 0) || ((cmp =? 0) && (seg_so s >? so_start)) then Done (DoneNack, c)
    else if sn_compare_tx e (sdu_sn u) ack_sn <? 0 then
      let c := unlink_wait c s rest in
      e ← free_acked e s;
      Done (ProcessNextPdu, c <| p_e := e |>)
    else if sn_compare_tx e (sdu_sn u) ack_sn >? 0 then
      Done (ProcessNextPdu, c <| p_wait_over := true |>)
    else Done (ProcessNextPdu, c <| p_kept ::= fun l => l ++ [s] |> <| p_wait := rest |>).

(** [process_retransmit_list_head] *)
Definition process_retransmit_list_head (c : ctrl) (s : nr_rlc_sdu_segment_t)
    (rest : list nr_rlc_sdu_segment_t) (ack_sn nack_sn so_start so_end : Z)
  : outcome (label * ctrl) :=
  let e := p_e c in
  u ← sdu_of (heap e) s;
  let keep := c <| p_new ::= fun l => l ++ [s] |> <| p_retx := rest |> <| p_new_next := [] |> in
  if (sdu_sn u =? nack_sn) && so_overlap so_start so_end (seg_so s) (seg_so s + seg_size s - 1)
  then Done (ProcessNextPdu, keep)
  else
    let cmp := sn_compare_tx e (sdu_sn u) nack_sn in
    if (cmp >? 0) || ((cmp =? 0) && (seg_so s >? so_start)) then Done (DoneNack, c)
    else if sn_compare_tx e (sdu_sn u) ack_sn <? 0 then
      let e := e <| bstatus; bs_retx_size ::= fun x => x - (compute_pdu_header_size e s + seg_size s) |> in
      e ← free_acked e s;
      Done (ProcessNextPdu, c <| p_e := e |> <| p_retx := rest |>)
    else
      match cur_wait c with
      | [] => Done (ListsOver, c <| p_new_next := p_retx c |> <| p_retx := [] |>)
      | _ => Done (ProcessNextPdu, keep)
      end.

(** [process_next_pdu]: the head with the smallest SN of the two lists. *)
Definition process_next_pdu (c : ctrl) (ack_sn nack_sn so_start so_end : Z) : outcome (label * ctrl) :=
  match cur_wait c, p_retx c with
  | [], [] => Done (ListsOver, c)
  | [], r :: rs => process_retransmit_list_head c r rs ack_sn nack_sn so_start so_end
  | w :: ws, [] => process_wait_list_head c w ws ack_sn nack_sn so_start so_end
  | w :: ws, r :: rs =>
      wu ← sdu_of (heap (p_e c)) w;
      ru ← sdu_of (heap (p_e c)) r;
      let cmp := sn_compare_tx (p_e c) (sdu_sn wu) (sdu_sn ru) in
      if (cmp <? 0) || ((cmp =? 0) && (seg_so w <? seg_so r))
      then process_wait_list_head c w ws ack_sn nack_sn so_start so_end
      else process_retransmit_list_head c r rs ack_sn nack_sn so_start so_end
  end.

(** The jumps to [process_next_pdu]; true when the lists are over. *)
Fixpoint process_nack (fuel : nat) (c : ctrl) (ack_sn nack_sn so_start so_end : Z)
  : outcome (bool * ctrl) :=
  match fuel with
  | O => Undef
  | S fuel =>
      '(l, c) ← process_next_pdu c ack_sn nack_sn so_start so_end;
      match l with
      | ProcessNextPdu => process_nack fuel c ack_sn nack_sn so_start so_end
      | DoneNack => Done (false, c)
      | ListsOver => Done (true, c)
      end
  end.
Definition nack_fuel (c : ctrl) : nat := (length (p_wait c) + length (p_retx c) + 2)%nat.

(** The loop [for (i = 0; i < range; i++)], with [n] turns left. *)
Fixpoint process_range (n : nat) (i range : Z) (c : ctrl) (ack_sn nack_sn so_start so_end : Z)
  : outcome ctrl :=
  match n with
  | O => Done c
  | S n =>
      '(over, c) ← process_nack (nack_fuel c) c ack_sn (Z.rem (nack_sn + i) (sn_modulus (p_e c)))
                     (if i =? 0 then so_start else 0) (if i =? range - 1 then so_end else -1);
      if over : bool then Done c else process_range n (i + 1) range c ack_sn nack_sn so_start so_end
  end.

(** The loop [while (e1)]. *)
Fixpoint process_nacks (fuel : nat) (c : ctrl) (ack_sn e1 : Z) (d : nr_rlc_pdu_decoder_t)
  : outcome ctrl :=
  if e1 =? 0 then Done c
  else match fuel with
  | O => Undef
  | S fuel =>
      '(nack_sn, d) ← nr_rlc_pdu_decoder_get_bits d (sn_field_length (p_e c));
      '(e1, d) ← nr_rlc_pdu_decoder_get_bits d 1;
      '(e2, d) ← nr_rlc_pdu_decoder_get_bits d 1;
      '(e3, d) ← nr_rlc_pdu_decoder_get_bits d 1;
      '(_, d) ← nr_rlc_pdu_decoder_get_bits d (r_bits (p_e c));
      '(so_start, so_end, d) ←
        (if negb (e2 =? 0) then
           '(so_start, d) ← nr_rlc_pdu_decoder_get_bits d 16;
           '(so_end, d) ← nr_rlc_pdu_decoder_get_bits d 16;
           Done (so_start, so_end, d)
         else Done (0, 0xffff, d));
      '(range, d) ← (if negb (e3 =? 0) then nr_rlc_pdu_decoder_get_bits d 8 else Done (1, d));
      let so_end := if so_end =? 0xffff then -1 else so_end in
      c ← process_range (Z.to_nat range) 0 range c ack_sn nack_sn so_start so_end;
      let e := p_e c in
      let e := if (sn_compare_tx e nack_sn (poll_sn e) <=? 0)
                  && (sn_compare_tx e (poll_sn e) (Z.rem (nack_sn + range) (sn_modulus e)) <? 0)
               then e <| t_poll_retransmit_start := 0 |> else e in
      process_nacks fuel (c <| p_e := e |>) ack_sn e1 d
  end.

(** Nacks done, finish with ack: the wait list. *)
Fixpoint ack_wait (l : list nr_rlc_sdu_segment_t) (c : ctrl) (ack_sn : Z) : outcome ctrl :=
  match l with
  | [] => Done c
  | s :: rest =>
      u ← sdu_of (heap (p_e c)) s;
      if sn_compare_tx (p_e c) (sdu_sn u) ack_sn <? 0 then
        let c := unlink_wait c s rest in
        e ← free_acked (p_e c) s;
        ack_wait rest (c <| p_e := e |>) ack_sn
      else Done c
  end.

(** The retransmit list. *)
Fixpoint ack_retx (l : list nr_rlc_sdu_segment_t) (c : ctrl) (ack_sn : Z) : outcome ctrl :=
  match l with
  | [] => Done c
  | s :: rest =>
      u ← sdu_of (heap (p_e c)) s;
      if sn_compare_tx (p_e c) (sdu_sn u) ack_sn <? 0 then
        let e := p_e c <| bstatus; bs_retx_size ::=
                   fun x => x - (compute_pdu_header_size (p_e c) s + seg_size s) |> in
        e ← free_acked e s;
        ack_retx rest (c <| p_e := e |> <| p_retx := rest |>) ack_sn
      else Done c
  end.

(** The SN of the head of a list if it is smaller than [acc]. *)
Definition min_sn (e : nr_rlc_entity_am_t) (l : list nr_rlc_sdu_segment_t) (acc : Z) : outcome Z :=
  match l with
  | [] => Done acc
  | s :: _ => u ← sdu_of (heap e) s;
              Done (if sn_compare_tx e (sdu_sn u) acc <? 0 then sdu_sn u else acc)
  end.

(** The lists are put back in the entity, [tx_next_ack] is updated. *)
Definition finish_control_pdu (c : ctrl) (ack_sn : Z) : outcome nr_rlc_entity_am_t :=
  c ← ack_wait (cur_wait c) c ack_sn;
  c ← ack_retx (p_retx c) c ack_sn;
  let c := c <| p_new_next := p_retx c |> in
  let e := p_e c <| wait_list := p_kept c ++ p_wait c |>
                 <| retransmit_list := p_new c ++ p_new_next c |> in
  let e := match p_end c with Some en => e <| wait_end := en |> | None => e end in
  n ← min_sn e (wait_list e) (tx_next e);
  n ← min_sn e (retransmit_list e) n;
  let n := if sn_compare_tx e ack_sn n <? 0 then ack_sn else n in
  Done (e <| tx_next_ack := n |>).

Definition process_control_pdu (e : nr_rlc_entity_am_t) (buffer : list Z) (size : Z)
  : outcome nr_rlc_entity_am_t :=
  ok ← validate_control_pdu e buffer size;
  if negb ok then Done e
  else
    let d := nr_rlc_pdu_decoder_init buffer size in
    '(_, d) ← nr_rlc_pdu_decoder_get_bits d 1;
    '(_, d) ← nr_rlc_pdu_decoder_get_bits d 3;
    '(ack_sn, d) ← nr_rlc_pdu_decoder_get_bits d (sn_field_length e);
    '(e1, d) ← nr_rlc_pdu_decoder_get_bits d 1;
    '(_, d) ← nr_rlc_pdu_decoder_get_bits d (ack_r_bits e);
    let e := if sn_compare_tx e (poll_sn e) ack_sn <? 0
             then e <| t_poll_retransmit_start := 0 |> else e in
    let c := mk_ctrl e [] (wait_list e) false None (retransmit_list e) [] [] in
    c ← process_nacks (S (Z.to_nat size)) c ack_sn e1 d;
    finish_control_pdu c ack_sn.

(** ** Reception of a PDU *)

(** The label [discard]. *)
Definition discard_pdu (e : nr_rlc_entity_am_t) (p size : Z) : outcome nr_rlc_entity_am_t :=
  let e := if negb (p =? 0) then e <| status_triggered := true |> else e in
  Done (e <| stats; rxpdu_dd_pkts ::= add32 1 |> <| stats; rxpdu_dd_bytes ::= add32 size |>).

(** Once the header is decoded. *)
Definition recv_segment (e : nr_rlc_entity_am_t) (buffer : list Z) (size : Z)
    (p : Z) (is_first is_last : bool) (sn so : Z) (d : nr_rlc_pdu_decoder_t)
  : outcome nr_rlc_entity_am_t :=
  let data_size := size - d_byte d in
  if data_size <=? 0 then discard_pdu e p size
  else if rx_size e + data_size >? rx_maxsize e then discard_pdu e p size
  else if negb (sn_in_recv_window e sn) then
    discard_pdu (e <| stats; rxpdu_ow_pkts ::= add32 1 |> <| stats; rxpdu_ow_bytes ::= add32 size |>) p size
  else if segment_already_received e sn so data_size then
    discard_pdu (e <| stats; rxpdu_dup_pkts ::= add32 1 |> <| stats; rxpdu_dup_bytes ::= add32 size |>) p size
  else
    let e := e <| rx_size ::= Z.add data_size |> in
    data ← slice buffer (size - data_size) data_size;
    pdu ← nr_rlc_new_pdu sn so is_first is_last data data_size;
    let e := e <| rx_list ::= fun l => nr_rlc_pdu_list_add (sn_compare_rx e) l pdu |> in
    e ← reception_actions e (pdu_sn pdu);
    Done (if negb (p =? 0) then e <| status_triggered := true |> else e).

(** From the reading of SN on. *)
Definition recv_sn (e : nr_rlc_entity_am_t) (buffer : list Z) (size p : Z)
    (is_first is_last : bool) (d : nr_rlc_pdu_decoder_t) : outcome nr_rlc_entity_am_t :=
  get_or d (sn_field_length e) (discard_pdu e p size) (fun sn d =>
  if negb is_first then
    get_or d 16 (discard_pdu e p size) (fun so d =>
    if so =? 0 then discard_pdu e p size
    else recv_segment e buffer size p is_first is_last sn so d)
  else recv_segment e buffer size p is_first is_last sn 0 d).

Definition nr_rlc_entity_am_recv_pdu (e : nr_rlc_entity_am_t) (buffer : list Z) (size : Z)
  : outcome nr_rlc_entity_am_t :=
  let e := e <| stats; rxpdu_pkts ::= add32 1 |> <| stats; rxpdu_bytes ::= add32 size |> in
  get_or (nr_rlc_pdu_decoder_init buffer size) 1 (discard_pdu e 0 size) (fun dc d =>
  if dc =? 0 then process_control_pdu e buffer size
  else
    get_or d 1 (discard_pdu e (-1) size) (fun p d =>
    get_or d 2 (discard_pdu e p size) (fun si d =>
    let is_first := Z.land si 2 =? 0 in
    let is_last := Z.land si 1 =? 0 in
    if sn_field_length e =? 18
    then get_or d 2 (discard_pdu e p size) (fun _ d => recv_sn e buffer size p is_first is_last d)
    else recv_sn e buffer size p is_first is_last d))).

(** ** The second pass keeps the store and the counters consistent *)

(** What the processing of a STATUS PDU does not touch. *)
Record same_tx (e e' : nr_rlc_entity_am_t) : Prop := {
  st_list : tx_list e' = tx_list e;
  st_end : tx_end e' = tx_end e;
  st_bs : bs_tx_size (bstatus e') = bs_tx_size (bstatus e);
  st_len : sn_field_length e' = sn_field_length e;
  st_mod : sn_modulus e' = sn_modulus e;
  st_win : window_size e' = window_size e;
  st_next : tx_next e' = tx_next e;
  st_ack : tx_next_ack e' = tx_next_ack e;
  st_max : tx_maxsize e' = tx_maxsize e;
  st_wend : wait_end e' = wait_end e;
  st_poll : poll_sn e' = poll_sn e
}.

Lemma same_tx_refl e : same_tx e e.
Proof. by split. Qed.

Lemma same_tx_trans e1 e2 e3 : same_tx e1 e2 -> same_tx e2 e3 -> same_tx e1 e3.
Proof. intros [] []. split; congruence. Qed.

Lemma same_tx_compare e e' a b : same_tx e e' -> sn_compare_tx e' a b = sn_compare_tx e a b.
Proof. intros []. unfold sn_compare_tx, modulus_tx. by rewrite st_ack0, st_mod0. Qed.

Definition ctrl_segs (c : ctrl) : list nr_rlc_sdu_segment_t :=
  p_kept c ++ p_wait c ++ p_retx c ++ p_new c ++ p_new_next c.

Record ctrl_ok (e0 : nr_rlc_entity_am_t) (c : ctrl) : Prop := {
  ck_same : same_tx e0 (p_e c);
  ck_heap : heap_ok (heap (p_e c)) (tx_list e0 ++ ctrl_segs c);
  ck_end : match p_end c with
           | None => wait_end e0 = seg_end (p_kept c ++ p_wait c)
           | Some x => p_wait c = [] /\ x = seg_end (p_kept c)
           end;
  ck_bs : bs_retx_size (bstatus (p_e c)) = pdus_bytes e0 (p_retx c ++ p_new c ++ p_new_next c);
  ck_size : tx_size (p_e c) = heap_bytes (heap (p_e c)) /\ tx_size (p_e c) <= tx_maxsize e0;
  ck_over : p_new_next c <> [] -> p_retx c = [] /\ cur_wait c = []
}.

(** [free_acked] takes one segment out of the store. *)
Lemma free_acked_ok e s segs :
  heap_ok (heap e) (s :: segs) -> tx_size e = heap_bytes (heap e) -> tx_size e <= tx_maxsize e ->
  exists e', free_acked e s = Done e' /\ same_tx e e' /\ heap_ok (heap e') segs /\
    bstatus e' = bstatus e /\ tx_size e' = heap_bytes (heap e') /\ tx_size e' <= tx_maxsize e.
Proof.
  intros Hok Hs Hm. destruct (free_segment_ok _ _ _ Hok) as (u & b & h' & Hu & Hf & Hok' & _ & Hb & _).
  destruct (ho_sdus _ _ Hok _ _ Hu) as (_ & _ & _ & _ & Hlen & _).
  unfold free_acked, sdu_of. rewrite Hu. cbn [mbind outcome_bind]. rewrite Hf. cbn [mbind outcome_bind].
  destruct b; (eexists; split; [reflexivity|]); split_and!; try done; simpl; lia.
Qed.

(** Unlinking the head [s] of the wait list keeps track of its end. *)
Lemma unlink_wait_end e0 c s rest :
  NoDup (seg_id <$> ctrl_segs c) -> p_wait c = s :: rest -> wait_end (p_e c) = wait_end e0 ->
  (match p_end c with
   | None => wait_end e0 = seg_end (p_kept c ++ p_wait c)
   | Some x => p_wait c = [] /\ x = seg_end (p_kept c)
   end) ->
  match p_end (unlink_wait c s rest) with
  | None => wait_end e0 = seg_end (p_kept c ++ rest)
  | Some x => rest = [] /\ x = seg_end (p_kept c)
  end.
Proof.
  intros ND Ew Ee Hend. unfold unlink_wait. cbn [p_e upd]. rewrite Ee.
  destruct (p_end c) as [x|] eqn:Ep; [destruct Hend as [Hn _]; by rewrite Ew in Hn|].
  rewrite Ew in Hend. rewrite Hend. unfold seg_end. rewrite last_app.
  destruct rest as [|t rest].
  - simpl. rewrite bool_decide_true by done. simpl. by rewrite ?app_nil_r.
  - rewrite last_cons_cons. destruct (last (t :: rest)) as [z|] eqn:Ez; [|by apply last_None in Ez].
    rewrite bool_decide_false.
    + by rewrite last_app, Ez.
    + simpl. intros [= Eid]. unfold ctrl_segs in ND. rewrite Ew in ND.
      rewrite fmap_app, NoDup_app in ND. destruct ND as (_ & _ & ND). simpl in ND.
      apply NoDup_cons in ND as [Hnin _]. apply Hnin. rewrite <- Eid.
      apply last_Some_elem_of, elem_of_cons in Ez as [-> |Ez]; [left|right].
      apply list_elem_of_fmap_2, elem_of_app. by left.
Qed.

(** The effect of the unlinking: the list without [s], and the end to remember. *)
Lemma unlink_wait_ok e0 c s rest :
  ctrl_ok e0 c -> p_wait c = s :: rest -> p_wait_over c = false ->
  p_new_next c = [] /\ exists en, unlink_wait c s rest = c <| p_wait := rest |> <| p_end := en |> /\
    match en with
    | None => wait_end e0 = seg_end (p_kept c ++ rest)
    | Some x => rest = [] /\ x = seg_end (p_kept c)
    end.
Proof.
  intros [Hs Hh He Hb [Hz Hm] Ho] Ew Eo. split.
  { destruct (p_new_next c); [done|]. destruct Ho as [_ Ho]; [done|]. unfold cur_wait in Ho.
    by rewrite Eo, Ew in Ho. }
  exists (p_end (unlink_wait c s rest)). split.
  - unfold unlink_wait. destruct (bool_decide _); [done|by destruct c].
  - apply unlink_wait_end; try done; [|apply Hs].
    pose proof (ho_nodup _ _ Hh) as ND. rewrite fmap_app in ND. by apply NoDup_app in ND as (_ & _ & ND).
Qed.

(** The segment at the head of the wait list is freed. *)
Lemma wait_acked e0 c s rest :
  ctrl_ok e0 c -> p_wait c = s :: rest -> p_wait_over c = false ->
  exists e', free_acked (p_e c) s = Done e' /\ ctrl_ok e0 (unlink_wait c s rest <| p_e := e' |>).
Proof.
  intros Hc Ew Eo. destruct (unlink_wait_ok e0 c s rest Hc Ew Eo) as (Hnn & en & -> & Hen).
  destruct Hc as [Hs Hh He Hb [Hz Hm] Ho].
  assert (Hh' : heap_ok (heap (p_e c)) (s :: tx_list e0 ++ p_kept c ++ rest ++ p_retx c ++ p_new c)).
  { revert Hh. apply heap_ok_perm. unfold ctrl_segs. rewrite Ew, Hnn. solve_Permutation. }
  destruct (free_acked_ok _ _ _ Hh' Hz) as (e' & Hf & Hs' & Hok & Hbs & Hz' & Hm');
    [by rewrite (st_max _ _ Hs)|].
  exists e'. split; [done|]. rewrite (st_max _ _ Hs) in Hm'. split; simpl; try done.
  - by eapply same_tx_trans.
  - unfold ctrl_segs; simpl. rewrite Hnn, app_nil_r. done.
  - by rewrite Hbs.
Qed.

(** The segment at the head of the wait list goes to the new retransmit list. *)
Lemma wait_nacked e0 c s rest u :
  ctrl_ok e0 c -> p_wait c = s :: rest -> p_wait_over c = false ->
  h_sdus (heap (p_e c)) !! seg_sdu s = Some u ->
  let u' := u <| sdu_retx_count ::= Z.add 1 |> in
  let e := p_e c <| heap ::= fun h => set_sdu h (seg_sdu s) u' |> in
  let e := if sdu_retx_count u' >=? max_retx_threshold e * sdu_ref_count u'
           then e <| trace ::= fun t => t ++ [MaxRetxReached] |> else e in
  let e := e <| bstatus; bs_retx_size ::= Z.add (compute_pdu_header_size e s + seg_size s) |> in
  ctrl_ok e0 (unlink_wait c s rest <| p_new ::= fun l => l ++ [s] |> <| p_new_next := [] |> <| p_e := e |>).
Proof.
  intros Hc Ew Eo Hu u'. destruct (unlink_wait_ok e0 c s rest Hc Ew Eo) as (Hnn & en & -> & Hen).
  destruct Hc as [Hs Hh He Hb [Hz Hm] Ho].
  set (e1 := p_e c <| heap ::= fun h => set_sdu h (seg_sdu s) u' |>). cbv zeta.
  set (e2 := if _ >=? _ then _ else e1).
  assert (H2 : same_tx (p_e c) e2 /\ heap e2 = heap e1 /\ tx_size e2 = tx_size (p_e c) /\
               bstatus e2 = bstatus (p_e c)).
  { unfold e2. cif; (split; [by split|done]). }
  destruct H2 as (S2 & H2 & Z2 & B2).
  assert (Hh' : heap_ok (heap e2) (tx_list e0 ++ p_kept c ++ rest ++ p_retx c ++ (p_new c ++ [s]))).
  { rewrite H2. apply (set_sdu_ok _ _ _ u); [|done|done]. revert Hh. apply heap_ok_perm.
    unfold ctrl_segs. rewrite Ew, Hnn. solve_Permutation. }
  assert (S2' : same_tx e0 e2) by (by eapply same_tx_trans).
  split; simpl; try done.
  - destruct S2'. by split.
  - unfold ctrl_segs; simpl. rewrite app_nil_r. done.
  - rewrite B2, Hb, Hnn, !app_nil_r, !am_pdus_bytes_app. rewrite (header_size_ext e0 e2) by apply S2'.
    rewrite pdus_bytes_cons. simpl. lia.
  - rewrite Z2, H2, Hz. split; [|lia]. unfold e1; simpl. symmetry. by apply (heap_bytes_set _ _ u).
Qed.

(** The segment at the head of the retransmit list stays in it. *)
Lemma retx_kept e0 c s rest :
  ctrl_ok e0 c -> p_retx c = s :: rest ->
  ctrl_ok e0 (c <| p_new ::= fun l => l ++ [s] |> <| p_retx := rest |> <| p_new_next := [] |>).
Proof.
  intros [Hs Hh He Hb [Hz Hm] Ho] Er.
  assert (Hnn : p_new_next c = []).
  { destruct (p_new_next c); [done|]. destruct Ho as [Ho _]; [done|]. by rewrite Er in Ho. }
  split; simpl; try done.
  - revert Hh. apply heap_ok_perm. unfold ctrl_segs; simpl. rewrite Er, Hnn. solve_Permutation.
  - rewrite Hb, Er, Hnn, !app_nil_r. rewrite !am_pdus_bytes_app, !pdus_bytes_cons. simpl. lia.
Qed.

(** The segment at the head of the retransmit list is freed. *)
Lemma retx_acked e0 c s rest :
  ctrl_ok e0 c -> p_retx c = s :: rest ->
  exists e', free_acked (p_e c <| bstatus; bs_retx_size ::=
      fun x => x - (compute_pdu_header_size (p_e c) s + seg_size s) |>) s = Done e' /\
    ctrl_ok e0 (c <| p_e := e' |> <| p_retx := rest |>).
Proof.
  intros [Hs Hh He Hb [Hz Hm] Ho] Er.
  assert (Hnn : p_new_next c = []).
  { destruct (p_new_next c); [done|]. destruct Ho as [Ho _]; [done|]. by rewrite Er in Ho. }
  set (e1 := p_e c <| bstatus; bs_retx_size ::= _ |>).
  assert (Hh' : heap_ok (heap e1) (s :: tx_list e0 ++ p_kept c ++ p_wait c ++ rest ++ p_new c)).
  { revert Hh. apply heap_ok_perm. unfold ctrl_segs. rewrite Er, Hnn. solve_Permutation. }
  destruct (free_acked_ok e1 _ _ Hh' Hz) as (e' & Hf & Hs' & Hok & Hbs & Hz' & Hm');
    [simpl; by rewrite (st_max _ _ Hs)|].
  exists e'. split; [done|]. simpl in Hm'. rewrite (st_max _ _ Hs) in Hm'.
  split; simpl; try done.
  - eapply same_tx_trans; [exact Hs|]. eapply same_tx_trans; [|exact Hs']. by split.
  - unfold ctrl_segs; simpl. rewrite Hnn, app_nil_r. done.
  - rewrite Hbs. simpl. rewrite Hb, Er, !am_pdus_bytes_app, pdus_bytes_cons.
    rewrite (header_size_ext e0 (p_e c)) by apply Hs. lia.
Qed.

(** The segments of the wait list are skipped or left for good. *)
Lemma wait_skipped e0 c s rest :
  ctrl_ok e0 c -> p_wait c = s :: rest -> p_wait_over c = false ->
  ctrl_ok e0 (c <| p_kept ::= fun l => l ++ [s] |> <| p_wait := rest |>) /\
  ctrl_ok e0 (c <| p_wait_over := true |>).
Proof.
  intros Hc Ew Eo. destruct (unlink_wait_ok e0 c s rest Hc Ew Eo) as (Hnn & _).
  destruct Hc as [Hs Hh He Hb Hz Ho]. split; split; simpl; try done.
  - revert Hh. apply heap_ok_perm. unfold ctrl_segs; simpl. rewrite Ew. solve_Permutation.
  - destruct (p_end c); [destruct He as [He _]; by rewrite Ew in He|].
    by rewrite He, Ew, <- app_assoc.
Qed.

(** The turns left. *)
Definition measure (c : ctrl) : nat :=
  (length (p_wait c) + length (p_retx c) + (if p_wait_over c then 0 else 1))%nat.

(** A step is fine: it keeps the invariant, it makes progress, and it loses
    segments only if a NACK is not below the ACK. *)
Definition step_ok (e0 : nr_rlc_entity_am_t) (c : ctrl) (ack nack : Z)
    (r : outcome (label * ctrl)) : Prop :=
  exists l c', r = Done (l, c') /\ ctrl_ok e0 c' /\
    (l = ProcessNextPdu -> (measure c' < measure c)%nat) /\
    (sn_compare_tx e0 nack ack < 0 -> p_new_next c = [] -> p_new_next c' = []).

Lemma ctrl_sdu e0 c s :
  ctrl_ok e0 c -> s ∈ ctrl_segs c ->
  exists u, h_sdus (heap (p_e c)) !! seg_sdu s = Some u /\ sdu_of (heap (p_e c)) s = Done u.
Proof.
  intros Hc Hs. destruct (heap_ok_sdu_of _ _ s (ck_heap _ _ Hc)) as (u & Hu & Hl & _).
  - apply elem_of_app. by right.
  - by exists u.
Qed.

Lemma process_wait_ok e0 c s rest ack nack s1 s2 :
  ctrl_ok e0 c -> p_wait c = s :: rest -> p_wait_over c = false ->
  step_ok e0 c ack nack (process_wait_list_head c s rest ack nack s1 s2).
Proof.
  intros Hc Ew Eo. destruct (ctrl_sdu e0 c s Hc) as (u & Hl & Hu).
  { unfold ctrl_segs. rewrite Ew. set_solver. }
  destruct (unlink_wait_ok e0 c s rest Hc Ew Eo) as (Hnn & en & Hen & _).
  destruct (wait_skipped e0 c s rest Hc Ew Eo) as [Hk Ho].
  unfold process_wait_list_head. rewrite Hu. cbn [mbind outcome_bind]. unfold step_ok. cif.
  { eexists _, _. split; [reflexivity|]. split; [by apply wait_nacked|]. rewrite Hen.
    split; [|done]. intros _. unfold measure; simpl. rewrite Ew. simpl. lia. }
  cif. { exists DoneNack, c. by split_and!. }
  cif. { destruct (wait_acked e0 c s rest Hc Ew Eo) as (e' & -> & Hok). cbn [mbind outcome_bind].
    eexists _, _. split; [reflexivity|]. split; [done|]. rewrite Hen. split; [|done].
    intros _. unfold measure; simpl. rewrite Ew. simpl. lia. }
  cif.
  - eexists _, _. split; [reflexivity|]. split; [done|]. split; [|done].
    intros _. unfold measure; simpl. rewrite Eo. lia.
  - eexists _, _. split; [reflexivity|]. split; [done|]. split; [|done].
    intros _. unfold measure; simpl. rewrite Ew. simpl. lia.
Qed.

Lemma process_retx_ok e0 c s rest ack nack s1 s2 :
  ctrl_ok e0 c -> p_retx c = s :: rest ->
  step_ok e0 c ack nack (process_retransmit_list_head c s rest ack nack s1 s2).
Proof.
  intros Hc Er. destruct (ctrl_sdu e0 c s Hc) as (u & Hl & Hu).
  { unfold ctrl_segs. rewrite Er. set_solver. }
  pose proof (retx_kept e0 c s rest Hc Er) as Hk.
  assert (Hm : (length rest < length (p_retx c))%nat) by (rewrite Er; simpl; lia).
  unfold process_retransmit_list_head. rewrite Hu. cbn [mbind outcome_bind]. unfold step_ok. cif.
  { eexists _, _. split; [reflexivity|]. split; [done|]. split; [|done].
    intros _. unfold measure; simpl. lia. }
  cif. { exists DoneNack, c. by split_and!. }
  cif. { destruct (retx_acked e0 c s rest Hc Er) as (e' & -> & Hok). cbn [mbind outcome_bind].
    eexists _, _. split; [reflexivity|]. split; [done|]. split; [|done].
    intros _. unfold measure; simpl. lia. }
  destruct (cur_wait c) as [|w ws] eqn:Ecw.
  - eexists _, _. split; [reflexivity|]. split; [|split; [done|]].
    + destruct Hc as [Hs Hh He Hb Hz Ho]. assert (Hnn : p_new_next c = []).
      { destruct (p_new_next c); [done|]. destruct Ho as [Ho _]; [done|]. by rewrite Er in Ho. }
      split; simpl; try done.
      * revert Hh. apply heap_ok_perm. unfold ctrl_segs; simpl. rewrite Hnn. solve_Permutation.
      * rewrite Hb, Hnn, !am_pdus_bytes_app. simpl. lia.
    + intros Hlt _. exfalso. zbool.
      rewrite !(same_tx_compare e0 (p_e c)) in * by apply Hc. unfold sn_compare_tx in *. lia.
  - eexists _, _. split; [reflexivity|]. split; [done|]. split; [|done].
    intros _. unfold measure; simpl. lia.
Qed.

Lemma process_next_ok e0 c ack nack s1 s2 :
  ctrl_ok e0 c -> step_ok e0 c ack nack (process_next_pdu c ack nack s1 s2).
Proof.
  intros Hc. unfold process_next_pdu. destruct (cur_wait c) as [|w ws] eqn:Ew.
  - destruct (p_retx c) as [|r rs] eqn:Er; [|by apply process_retx_ok].
    exists ListsOver, c. by split_and!.
  - assert (Hw : p_wait c = w :: ws /\ p_wait_over c = false)
      by (unfold cur_wait in Ew; by destruct (p_wait_over c)).
    destruct Hw as [Hw Ho]. destruct (p_retx c) as [|r rs] eqn:Er; [by apply process_wait_ok|].
    destruct (ctrl_sdu e0 c w Hc) as (wu & _ & ->); [unfold ctrl_segs; rewrite Hw; set_solver|].
    destruct (ctrl_sdu e0 c r Hc) as (ru & _ & ->); [unfold ctrl_segs; rewrite Er; set_solver|].
    cbn [mbind outcome_bind]. cif; [by apply process_wait_ok|by apply process_retx_ok].
Qed.

(** ** Decoding either succeeds or fails *)

Lemma get_or_cases {A} d c (err : outcome A) k :
  dec_wf d -> 1 <= c <= 31 ->
  get_or d c err k = err \/
  (c <= Z.of_nat (length (dec_bits d)) /\
   exists v d', get_or d c err k = k v d' /\ dec_wf d' /\ 0 <= v < 2 ^ c /\
     Z.of_nat (length (dec_bits d')) = Z.of_nat (length (dec_bits d)) - c).
Proof.
  intros W Hc. destruct (decide (c <= Z.of_nat (length (dec_bits d)))) as [Hl|Hl].
  - right. split; [done|]. destruct (get_bits_ok d c W) as (d' & G & W' & B' & _); [lia|done|].
    unfold get_or. rewrite G. simpl. eexists _, d'. rewrite (proj1 W'). split; [done|]. split; [done|].
    split; [|rewrite B', length_drop; lia].
    set (bs := take _ _). assert (Hbs : Z.of_nat (length bs) = c) by (unfold bs; rewrite length_take; lia).
    rewrite <- Hbs. clear. induction bs as [|b bs IH] using rev_ind; [done|].
    rewrite bits_val_app, length_app. simpl.
    replace (Z.of_nat (length bs + 1)) with (Z.of_nat (length bs) + 1) by lia.
    rewrite Z.pow_add_r by lia. destruct b; simpl; lia.
  - left. destruct (get_bits_short d c W) as (d' & G & E); [lia|lia|].
    unfold get_or. rewrite G. simpl. by rewrite E.
Qed.

Lemma get_or_true d c k :
  get_or d c (Done false) k = Done true ->
  exists v d', nr_rlc_pdu_decoder_get_bits d c = Done (v, d') /\ k v d' = Done true.
Proof.
  unfold get_or. intros H. invd H. destruct x as [v d']. exists v, d'.
  destruct (d_error d'); [done|]. by split.
Qed.

(** Case analysis on the next field: an error, or a value [v] and the decoder [d']
    after it, with [W] and [B] about [d']. *)
Ltac get_case v d' W B :=
  match goal with |- exists b, get_or ?d ?c ?err ?k = _ =>
    destruct (get_or_cases d c err k) as [->|(_ & v & d' & -> & W & _ & B)]; [done|lia|eauto|cbv beta]
  end.

(** The first pass ends for any bytes: every NACK takes at least 16 bits. *)
Lemma scan_nacks_total check e : am_cfg e -> forall fuel e1 d,
  dec_wf d -> Z.of_nat (length (dec_bits d)) < 16 * Z.of_nat fuel ->
  exists b, scan_nacks check fuel e e1 d = Done b.
Proof.
  intros [L _ _]. induction fuel as [|fuel IH]; intros e1 d W Hf; cbn [scan_nacks]; [lia|].
  cif; [eauto|].
  assert (Hr : 1 <= r_bits e <= 3 /\ 16 <= sn_field_length e + 3 + r_bits e <= 31 /\
                1 <= sn_field_length e <= 31).
  { unfold r_bits. destruct L as [-> | ->]; simpl; lia. }
  get_case nack d1 W1 B1.
  get_case e1' d2 W2 B2.
  get_case e2 d3 W3 B3.
  get_case e3 d4 W4 B4.
  get_case r d5 W5 B5.
  cbv zeta beta.
  assert (Hgo : forall so_start d, dec_wf d -> Z.of_nat (length (dec_bits d)) < 16 * Z.of_nat fuel ->
    exists b, (if negb (e3 =? 0)
      then get_or d 8 (Done false) (fun range d =>
             if check nack so_start range then scan_nacks check fuel e e1' d else Done false)
      else if check nack so_start 1 then scan_nacks check fuel e e1' d else Done false) = Done b).
  { intros so d' W' Hd'. destruct (negb (e3 =? 0)).
    - get_case rg d6 W6 B6.
      cif; [apply IH; [done|lia]|eauto].
    - cif; [apply IH; [done|lia]|eauto]. }
  destruct (negb (e2 =? 0)); [|apply Hgo; [done|lia]].
  get_case so d6 W6 B6.
  get_case so2 d7 W7 B7.
  apply Hgo; [done|lia].
Qed.

Lemma scan_control_total check e buf :
  am_cfg e -> Forall is_byte buf ->
  exists b, scan_control_pdu check e buf (Z.of_nat (length buf)) = Done b.
Proof.
  intros C HB. pose proof C as [L _ _]. unfold scan_control_pdu. cbv zeta.
  assert (Hr : 1 <= ack_r_bits e <= 7) by (unfold ack_r_bits; cif; lia).
  assert (Hs : 1 <= sn_field_length e <= 31) by (destruct L; lia).
  pose proof (dec_init_wf buf HB) as W0.
  pose proof (dec_init_bits buf (Z.of_nat (length buf))) as B0.
  apply (f_equal (fun l => Z.of_nat (length l))) in B0. rewrite length_bytes_bits in B0.
  get_case v1 d1 W1 B1.
  get_case v2 d2 W2 B2.
  cif; [eauto|].
  get_case ack d3 W3 B3.
  get_case e1 d4 W4 B4.
  get_case r d5 W5 B5.
  cif; [eauto|]. apply scan_nacks_total; [done|done|lia].
Qed.

(** ** The second pass ends *)

Lemma process_nack_ok e0 ack nack s1 s2 : forall fuel c,
  ctrl_ok e0 c -> (measure c < fuel)%nat ->
  exists over c', process_nack fuel c ack nack s1 s2 = Done (over, c') /\ ctrl_ok e0 c' /\
    (sn_compare_tx e0 nack ack < 0 -> p_new_next c = [] -> p_new_next c' = []).
Proof.
  induction fuel as [|fuel IH]; intros c Hc Hf; [lia|]. simpl.
  destruct (process_next_ok e0 c ack nack s1 s2 Hc) as (l & c1 & -> & Hc1 & Hm & Hl).
  cbn [mbind outcome_bind]. destruct l; [|by exists false, c1|by exists true, c1].
  destruct (IH c1 Hc1) as (over & c2 & -> & Hc2 & Hl2); [specialize (Hm eq_refl); lia|].
  exists over, c2. split_and!; auto.
Qed.

(** The SNs [nack + i], [n] of them, are below the ACK. *)
Fixpoint range_below (n : nat) (i : Z) (e : nr_rlc_entity_am_t) (ack nack : Z) : bool :=
  match n with
  | O => true
  | S n => (sn_compare_tx e (Z.rem (nack + i) (sn_modulus e)) ack <? 0)
           && range_below n (i + 1) e ack nack
  end.

Lemma process_range_ok e0 range ack nack s1 s2 : forall n i c,
  ctrl_ok e0 c ->
  exists c', process_range n i range c ack nack s1 s2 = Done c' /\ ctrl_ok e0 c' /\
    (range_below n i e0 ack nack = true -> p_new_next c = [] -> p_new_next c' = []).
Proof.
  induction n as [|n IH]; intros i c Hc; simpl; [by exists c|].
  rewrite (st_mod _ _ (ck_same _ _ Hc)).
  edestruct (process_nack_ok e0 ack) as (over & c1 & -> & Hc1 & Hl1); [exact Hc| |].
  { unfold measure, nack_fuel. destruct (p_wait_over c); lia. }
  cbn [mbind outcome_bind]. destruct over.
  - exists c1. split_and!; try done. intros Hb Hn. zbool. auto.
  - destruct (IH (i + 1) c1 Hc1) as (c2 & -> & Hc2 & Hl2). exists c2. split_and!; try done.
    intros Hb Hn. zbool. auto.
Qed.

(** The entity of the second pass may lose its poll timer. *)
Lemma ctrl_ok_poll e0 c e :
  ctrl_ok e0 c -> e = p_e c \/ e = p_e c <| t_poll_retransmit_start := 0 |> ->
  ctrl_ok e0 (c <| p_e := e |>).
Proof. intros [Hs Hh He Hb Hz Ho] [-> | ->]; [by split|]. split; try done. by destruct Hs. Qed.

Lemma r_bits_same e e' : same_tx e e' -> r_bits e' = r_bits e.
Proof. intros S. unfold r_bits. by rewrite (st_len _ _ S). Qed.

(** The second pass reads the fields the first one has read. *)
Lemma process_nacks_ok e0 ack check : forall fuel c e1 d,
  ctrl_ok e0 c -> scan_nacks check fuel e0 e1 d = Done true ->
  exists c', process_nacks fuel c ack e1 d = Done c' /\ ctrl_ok e0 c' /\
    ((forall nack so range, check nack so range = true ->
        range_below (Z.to_nat range) 0 e0 ack nack = true) ->
     p_new_next c = [] -> p_new_next c' = []).
Proof.
  induction fuel as [|fuel IH]; intros c e1 d Hc; cbn [scan_nacks process_nacks];
    (destruct (e1 =? 0); [by exists c|]); [done|].
  intros H. pose proof (ck_same _ _ Hc) as Hsame.
  rewrite (st_len _ _ Hsame), (r_bits_same _ _ Hsame).
  apply get_or_true in H as (nack & d1 & -> & H). apply get_or_true in H as (e1' & d2 & E2 & H).
  apply get_or_true in H as (e2 & d3 & E3 & H). apply get_or_true in H as (e3 & d4 & E4 & H).
  apply get_or_true in H as (r & d5 & E5 & H).
  cbn [mbind outcome_bind]. rewrite E2. cbn [mbind outcome_bind]. rewrite E3. cbn [mbind outcome_bind].
  rewrite E4. cbn [mbind outcome_bind]. rewrite E5. cbn [mbind outcome_bind]. cbv zeta beta in H.
  set (rest := fun so_start d range d' => (if negb (e3 =? 0) then nr_rlc_pdu_decoder_get_bits d 8
     else Done (1, d)) = Done (range, d') /\ check nack so_start range = true /\
     scan_nacks check fuel e0 e1' d' = Done true).
  assert (Hso : exists so_start so_end d6 range d7,
    (if negb (e2 =? 0) then
       '(so_start, d) ← nr_rlc_pdu_decoder_get_bits d5 16;
       '(so_end, d) ← nr_rlc_pdu_decoder_get_bits d 16; Done (so_start, so_end, d)
     else Done (0, 0xffff, d5)) = Done (so_start, so_end, d6) /\ rest so_start d6 range d7).
  { assert (Hrange : forall so d, (if negb (e3 =? 0)
      then get_or d 8 (Done false) (fun range d =>
             if check nack so range then scan_nacks check fuel e0 e1' d else Done false)
      else if check nack so 1 then scan_nacks check fuel e0 e1' d else Done false) = Done true ->
      exists range d', rest so d range d').
    { intros so d' G. unfold rest. destruct (negb (e3 =? 0)).
      - apply get_or_true in G as (range & d6 & -> & G). exists range, d6. by destruct (check nack so range).
      - exists 1, d'. by destruct (check nack so 1). }
    destruct (negb (e2 =? 0)).
    - apply get_or_true in H as (so & d6 & -> & H). apply get_or_true in H as (so2 & d7 & E7 & H).
      cbn [mbind outcome_bind]. rewrite E7. destruct (Hrange so d7 H) as (range & d8 & Hr).
      exists so, so2, d7, range, d8. done.
    - destruct (Hrange 0 d5 H) as (range & d8 & Hr). exists 0, 0xffff, d5, range, d8. done. }
  destruct Hso as (so & so2 & d6 & range & d7 & Eso & Erg & Hchk & Hscan).
  rewrite Eso. cbn [mbind outcome_bind]. rewrite Erg. cbn [mbind outcome_bind]. cbv zeta.
  edestruct (process_range_ok e0) as (c1 & -> & Hc1 & Hl1); [exact Hc|]. cbn [mbind outcome_bind].
  match goal with |- context [process_nacks fuel ?c2 ack e1' d7] =>
    destruct (IH c2 e1' d7) as (c' & -> & Hc' & Hl2) end.
  { apply ctrl_ok_poll; [done|]. cif; [by right|by left]. }
  { done. }
  exists c'. split_and!; try done. intros Hb Hn. apply Hl2; [done|]. simpl. apply Hl1; [|done]. by eapply Hb.
Qed.

(** ** The acknowledgement *)

Lemma ack_wait_ok e0 ack : forall l c,
  ctrl_ok e0 c -> p_wait c = l -> p_wait_over c = false ->
  exists c', ack_wait l c ack = Done c' /\ ctrl_ok e0 c' /\ p_new_next c' = p_new_next c.
Proof.
  induction l as [|s rest IH]; intros c Hc Ew Eo; cbn [ack_wait]; [by exists c|].
  destruct (ctrl_sdu e0 c s Hc) as (u & _ & ->); [unfold ctrl_segs; rewrite Ew; set_solver|].
  cbn [mbind outcome_bind]. cif; [|by exists c].
  destruct (unlink_wait_ok e0 c s rest Hc Ew Eo) as (_ & en & Hen & _).
  destruct (wait_acked e0 c s rest Hc Ew Eo) as (e' & Hf & Hok). rewrite Hen in *.
  change (p_e (c <| p_wait := rest |> <| p_end := en |>)) with (p_e c). rewrite Hf.
  cbn [mbind outcome_bind]. by destruct (IH _ Hok) as (c' & -> & Hc' & Hn); [done..|exists c'].
Qed.

Lemma ack_retx_ok e0 ack : forall l c,
  ctrl_ok e0 c -> p_retx c = l ->
  exists c', ack_retx l c ack = Done c' /\ ctrl_ok e0 c' /\ p_new_next c' = p_new_next c.
Proof.
  induction l as [|s rest IH]; intros c Hc Er; cbn [ack_retx]; [by exists c|].
  destruct (ctrl_sdu e0 c s Hc) as (u & _ & ->); [unfold ctrl_segs; rewrite Er; set_solver|].
  cbn [mbind outcome_bind]. cif; [|by exists c].
  destruct (retx_acked e0 c s rest Hc Er) as (e' & -> & Hok). cbn [mbind outcome_bind].
  by destruct (IH _ Hok) as (c' & -> & Hc' & Hn); [done..|exists c'].
Qed.

Lemma min_sn_ok e l segs acc :
  heap_ok (heap e) segs -> (forall s, s ∈ l -> s ∈ segs) -> exists n, min_sn e l acc = Done n.
Proof.
  intros Hh Hl. destruct l as [|s l]; cbn [min_sn]; [eauto|].
  destruct (heap_ok_sdu_of _ _ s Hh) as (u & -> & _); [apply Hl; left|]. eexists. reflexivity.
Qed.

Lemma am_cfg_same e e' : same_tx e e' -> am_cfg e -> am_cfg e'.
Proof. intros [] []. split; congruence. Qed.

(** The lists go back in the entity; the segments [p_new_next] are lost. *)
Lemma finish_ok e0 c ack :
  am_cfg e0 -> tx_end e0 = seg_end (tx_list e0) -> bs_tx_size (bstatus e0) = pdus_bytes e0 (tx_list e0) ->
  ctrl_ok e0 c ->
  exists e', finish_control_pdu c ack = Done e' /\ am_tx_missing (p_new_next c) e' /\ tx_list e' = tx_list e0.
Proof.
  intros C0 Te Tb Hc. unfold finish_control_pdu.
  assert (H1 : exists c1, ack_wait (cur_wait c) c ack = Done c1 /\ ctrl_ok e0 c1 /\
                          p_new_next c1 = p_new_next c).
  { unfold cur_wait. destruct (p_wait_over c) eqn:Eo; [by exists c|by apply ack_wait_ok]. }
  destruct H1 as (c1 & -> & H1 & <-). cbn [mbind outcome_bind].
  destruct (ack_retx_ok e0 ack (p_retx c1) c1 H1 eq_refl) as (c2 & -> & H2 & <-).
  cbn [mbind outcome_bind]. clear c c1 Hc H1. destruct H2 as [Hs Hh He Hb Hz Ho].
  cbv zeta. set (e1 := match p_end _ with Some _ => _ | None => _ end).
  assert (Hok : am_tx_missing (p_new_next c2) e1 /\ tx_list e1 = tx_list e0).
  { assert (L : pdus_bytes (p_e c2) (p_retx c2 ++ p_new c2 ++ p_new_next c2) =
                pdus_bytes (p_e c2) ((p_new c2 ++ p_retx c2) ++ p_new_next c2))
      by (rewrite !am_pdus_bytes_app; lia).
    assert (Hh' : heap_ok (heap (p_e c2))
      (tx_list e0 ++ (p_kept c2 ++ p_wait c2) ++ (p_new c2 ++ p_retx c2) ++ p_new_next c2)).
    { revert Hh. apply heap_ok_perm. unfold ctrl_segs. solve_Permutation. }
    pose proof (am_cfg_same _ _ Hs C0) as C1. destruct Hs.
    assert (forall l, pdus_bytes (p_e c2) l = pdus_bytes e0 l) as Le by (intros; by apply pdus_bytes_ext).
    unfold e1; simpl. destruct (p_end c2) as [x|].
    - destruct He as [Ew ->]. split; [|done]. split; simpl; try by destruct C1.
      + by rewrite st_list0.
      + by rewrite st_list0, st_end0.
      + by rewrite Ew, app_nil_r.
      + by rewrite st_bs0, st_list0, Tb, <- Le.
      + by rewrite Hb, <- Le, L.
      + by rewrite st_max0.
    - split; [|done]. split; simpl; try by destruct C1.
      + by rewrite st_list0.
      + by rewrite st_list0, st_end0.
      + by rewrite st_wend0, He.
      + by rewrite st_bs0, st_list0, Tb, <- Le.
      + by rewrite Hb, <- Le, L.
      + by rewrite st_max0. }
  destruct Hok as [Hok Htx]. pose proof (at_heap _ _ Hok) as Hheap.
  destruct (min_sn_ok e1 (wait_list e1) _ (tx_next e1) Hheap) as (n1 & ->);
    [intros s Hs'; rewrite !elem_of_app; tauto|].
  cbn [mbind outcome_bind].
  destruct (min_sn_ok e1 (retransmit_list e1) _ n1 Hheap) as (n2 & ->);
    [intros s Hs'; rewrite !elem_of_app; tauto|].
  cbn [mbind outcome_bind]. eexists. split; [reflexivity|]. split; [|done].
  destruct Hok as [[] ? ? ? ? ? ?]. by split.
Qed.

(** What the first pass has read. *)
Lemma scan_control_true check e buf size :
  scan_control_pdu check e buf size = Done true ->
  exists ack e1 d,
    ('(_, d) ← nr_rlc_pdu_decoder_get_bits (nr_rlc_pdu_decoder_init buf size) 1;
     '(_, d) ← nr_rlc_pdu_decoder_get_bits d 3;
     '(ack_sn, d) ← nr_rlc_pdu_decoder_get_bits d (sn_field_length e);
     '(e1, d) ← nr_rlc_pdu_decoder_get_bits d 1;
     '(_, d) ← nr_rlc_pdu_decoder_get_bits d (ack_r_bits e); Done (ack_sn, e1, d)) = Done (ack, e1, d) /\
    scan_nacks (check ack) (S (Z.to_nat size)) e e1 d = Done true.
Proof.
  unfold scan_control_pdu. cbv zeta. intros H.
  apply get_or_true in H as (v1 & d1 & E1 & H). apply get_or_true in H as (v2 & d2 & E2 & H).
  revert H. cif; [done|]. intros H. apply get_or_true in H as (ack & d3 & E3 & H).
  apply get_or_true in H as (e1 & d4 & E4 & H). apply get_or_true in H as (v5 & d5 & E5 & H).
  revert H. cif; [done|]. intros H. exists ack, e1, d5. split; [|done].
  rewrite E1. cbn [mbind outcome_bind]. rewrite E2. cbn [mbind outcome_bind]. rewrite E3.
  cbn [mbind outcome_bind]. rewrite E4. cbn [mbind outcome_bind]. by rewrite E5.
Qed.

(** The decoding part of [process_control_pdu], as one bind. *)
Lemma process_control_eq e buf size ack e1 d :
  ('(_, d) ← nr_rlc_pdu_decoder_get_bits (nr_rlc_pdu_decoder_init buf size) 1;
   '(_, d) ← nr_rlc_pdu_decoder_get_bits d 3;
   '(ack_sn, d) ← nr_rlc_pdu_decoder_get_bits d (sn_field_length e);
   '(e1, d) ← nr_rlc_pdu_decoder_get_bits d 1;
   '(_, d) ← nr_rlc_pdu_decoder_get_bits d (ack_r_bits e); Done (ack_sn, e1, d)) = Done (ack, e1, d) ->
  validate_control_pdu e buf size = Done true ->
  process_control_pdu e buf size =
  let e := if sn_compare_tx e (poll_sn e) ack <? 0 then e <| t_poll_retransmit_start := 0 |> else e in
  c ← process_nacks (S (Z.to_nat size)) (mk_ctrl e [] (wait_list e) false None (retransmit_list e) [] [])
        ack e1 d;
  finish_control_pdu c ack.
Proof.
  intros H V. unfold process_control_pdu. rewrite V. cbn [mbind outcome_bind negb].
  do 5 (let E := fresh "E" in apply outcome_bind_done in H as ([? ?] & E & H);
        rewrite E; cbn [mbind outcome_bind]).
  by injection H as -> -> ->.
Qed.

Lemma ctrl_ok_init e e1 :
  am_tx_ok e -> e1 = e \/ e1 = e <| t_poll_retransmit_start := 0 |> ->
  ctrl_ok e (mk_ctrl e1 [] (wait_list e1) false None (retransmit_list e1) [] []).
Proof.
  intros [C Hh Te We Tb Rb Hz] E.
  assert (S : same_tx e e1) by (destruct E as [-> | ->]; by split).
  assert (E' : heap e1 = heap e /\ wait_list e1 = wait_list e /\ retransmit_list e1 = retransmit_list e /\
               bstatus e1 = bstatus e /\ tx_size e1 = tx_size e) by (destruct E as [-> | ->]; done).
  destruct E' as (E1 & E2 & E3 & E4 & E5). split; simpl; try done.
  - rewrite E1. unfold ctrl_segs; simpl. by rewrite E2, E3.
  - by rewrite E2.
  - by rewrite E4, Rb, E3.
  - by rewrite E1, E5.
Qed.

(** A STATUS PDU that passed the validation, its NACKs satisfying [check]. *)
Lemma process_control_ok check e buf :
  am_tx_ok e -> validate_control_pdu e buf (Z.of_nat (length buf)) = Done true ->
  scan_control_pdu check e buf (Z.of_nat (length buf)) = Done true ->
  exists e' lost, process_control_pdu e buf (Z.of_nat (length buf)) = Done e' /\ am_tx_missing lost e' /\
    tx_list e' = tx_list e /\
    ((forall ack nack so range, check ack nack so range = true ->
        range_below (Z.to_nat range) 0 e ack nack = true) -> lost = []).
Proof.
  intros Hok V S. destruct (scan_control_true _ _ _ _ S) as (ack & e1 & d & Hd & Hs).
  rewrite (process_control_eq _ _ _ _ _ _ Hd V). cbv zeta.
  edestruct (process_nacks_ok e ack) as (c & -> & Hc & Hl); [|exact Hs|].
  { apply ctrl_ok_init; [done|]. cif; [by right|by left]. }
  cbn [mbind outcome_bind]. destruct Hok as [C Hh Te We Tb Rb Hz].
  destruct (finish_ok e c ack C Te Tb Hc) as (e' & -> & Hok' & Htx).
  exists e', (p_new_next c). split_and!; try done. intros Hb. apply Hl; [|done]. apply Hb.
Qed.

(** The NACKs of a STATUS PDU are all below its ACK, as 38.322 has it. *)
Definition nacks_below (e : nr_rlc_entity_am_t) (buffer : list Z) (size : Z) : bool :=
  match scan_control_pdu (fun ack_sn nack_sn _ range => range_below (Z.to_nat range) 0 e ack_sn nack_sn)
          e buffer size with
  | Done b => b
  | _ => false
  end.

(** C10. Processing of a STATUS PDU.  Whatever bytes the peer sends, the processing
    ends, without an out-of-bounds access, and what waits for its first
    transmission is not touched.  A STATUS PDU that fails the validation changes
    nothing.  One whose NACKs are below its ACK, as 38.322 asks for, keeps the
    transmitter consistent: the three lists partition the segments of the
    store, the ends of the lists, the buffer status and the size of the buffer
    agree with them.  Any other one that passes the validation may drop
    segments out of the lists, which stay in the store and in the counters
    (see [am_nack_at_ack_loses_sdu]), and does no other harm. *)
Theorem am_control_pdu_ok (e : nr_rlc_entity_am_t) (buf : list Z) :
  am_tx_ok e -> Forall is_byte buf ->
  let size := Z.of_nat (length buf) in
  exists e' valid, validate_control_pdu e buf size = Done valid /\ process_control_pdu e buf size = Done e' /\
    tx_list e' = tx_list e /\
    (valid = false -> e' = e) /\
    (nacks_below e buf size = true -> am_tx_ok e') /\
    (exists lost, am_tx_missing lost e').
Proof.
  intros Hok HB size. unfold nacks_below, size.
  destruct (scan_control_total (fun ack nack so range => check_range (Z.to_nat range) 0 e ack (-1) 0 nack so)
    e buf (at_cfg _ _ Hok) HB) as ([|] & V).
  2: { exists e, false. unfold process_control_pdu, validate_control_pdu. rewrite V. split_and!; try done. by exists []. }
  match goal with |- context [scan_control_pdu ?check _ _ _] =>
    destruct (scan_control_total check e buf (at_cfg _ _ Hok) HB) as ([|] & B) end.
  - destruct (process_control_ok _ e buf Hok V B) as (e' & lost & H & Ho & Ht & Hl).
    rewrite Hl in Ho by done. exists e', true. split_and!; try done. by exists [].
  - destruct (process_control_ok _ e buf Hok V V) as (e' & lost & H & Ho & Ht & _).
    exists e', true. rewrite B. split_and!; try done. by exists lost.
Qed.

(** An entity with two SDUs, SN 0 and 1, that wait for their acknowledgement. *)
Definition two_sent : outcome nr_rlc_entity_am_t :=
  e ← new_nr_rlc_entity_am 100 100 45 35 0 (-1) (-1) 8 12;
  '(s0, h) ← nr_rlc_new_sdu (heap e) [1; 2; 3] 3 70;
  u0 ← sdu_of h s0;
  '(s1, h) ← nr_rlc_new_sdu (set_sdu h (seg_sdu s0) (u0 <| sdu_sn := 0 |>)) [4; 5] 2 71;
  u1 ← sdu_of h s1;
  let h := set_sdu h (seg_sdu s1) (u1 <| sdu_sn := 1 |>) in
  Done (e <| heap := h |> <| wait_list := [s0; s1] |> <| wait_end := Some (seg_id s1) |>
          <| tx_size := 5 |> <| tx_next := 2 |>).

Lemma two_sent_ok : exists e, two_sent = Done e /\ am_tx_ok e.
Proof.
  eexists. split; [vm_compute; reflexivity|].
  assert (H : forall h, heap_ok h [] -> heap_bytes h = 0 -> h_next h = 0%nat -> exists s0 h0 u0 s1 h1 u1,
    nr_rlc_new_sdu h [1; 2; 3] 3 70 = Done (s0, h0) /\ h_sdus h0 !! seg_sdu s0 = Some u0 /\
    nr_rlc_new_sdu (set_sdu h0 (seg_sdu s0) (u0 <| sdu_sn := 0 |>)) [4; 5] 2 71 = Done (s1, h1) /\
    h_sdus h1 !! seg_sdu s1 = Some u1 /\
    heap_ok (set_sdu h1 (seg_sdu s1) (u1 <| sdu_sn := 1 |>)) [s1; s0] /\
    heap_bytes (set_sdu h1 (seg_sdu s1) (u1 <| sdu_sn := 1 |>)) = 5).
  { intros h Hh Hb Hn. destruct (new_sdu_done h [1; 2; 3] 3 70) as (s0 & h0 & E0); [simpl; lia|].
    destruct (new_sdu_ok _ _ _ _ _ _ _ Hh E0) as (K0 & B0 & _); [repeat constructor; lia|].
    destruct (heap_ok_sdu_of _ _ s0 K0) as (u0 & _ & L0 & _); [left|].
    pose proof (set_sdu_ok _ _ _ _ (u0 <| sdu_sn := 0 |>) K0 L0 ltac:(done)) as K0'.
    destruct (new_sdu_done (set_sdu h0 (seg_sdu s0) (u0 <| sdu_sn := 0 |>)) [4; 5] 2 71) as (s1 & h1 & E1);
      [simpl; lia|].
    destruct (new_sdu_ok _ _ _ _ _ _ _ K0' E1) as (K1 & B1 & _); [repeat constructor; lia|].
    destruct (heap_ok_sdu_of _ _ s1 K1) as (u1 & _ & L1 & _); [left|].
    pose proof (set_sdu_ok _ _ _ _ (u1 <| sdu_sn := 1 |>) K1 L1 ltac:(done)) as K1'.
    exists s0, h0, u0, s1, h1, u1. split_and!; try done.
    rewrite (heap_bytes_set _ _ u1) by done. rewrite B1, (heap_bytes_set _ _ u0) by done. lia. }
  destruct (H empty_heap heap_ok_empty eq_refl eq_refl)
    as (s0 & h0 & u0 & s1 & h1 & u1 & E0 & L0 & E1 & L1 & K & B).
  vm_compute in E0. injection E0 as <- <-. vm_compute in L0. injection L0 as <-.
  vm_compute in E1. injection E1 as <- <-. vm_compute in L1. injection L1 as <-.
  split; try done.
  - split; [by left|done|done].
  - revert K. apply heap_ok_perm. simpl. solve_Permutation.
Qed.

(** NACK of SN 0, ACK up to SN 2. *)
Lemma am_control_pdu_ok_witness :
  exists e e', two_sent = Done e /\
    process_control_pdu e [0x00; 0x02; 0x80; 0x00; 0x00] 5 = Done e' /\ tx_list e' = tx_list e /\ am_tx_ok e'.
Proof.
  destruct two_sent_ok as (e & E & Hok).
  destruct (am_control_pdu_ok e [0x00; 0x02; 0x80; 0x00; 0x00] Hok) as (e' & valid & _ & H & Ht & _ & Hn & _).
  - unfold is_byte. repeat constructor; lia.
  - exists e, e'. split; [exact E|]. split; [exact H|]. split; [exact Ht|]. apply Hn.
    vm_compute in E. injection E as <-. vm_compute. reflexivity.
Defined.

Lemma control_pdu_example :
  (e ← two_sent; e' ← process_control_pdu e [0x00; 0x02; 0x80; 0x00; 0x00] 5;
   Done (seg_sdu <$> wait_list e', seg_sdu <$> retransmit_list e', trace e', tx_size e', tx_next_ack e',
         nacks_below e [0x00; 0x02; 0x80; 0x00; 0x00] 5))
  = Done ([], [0%nat], [SduSuccessfulDelivery 71], 3, 0, true).
Proof. vm_compute. reflexivity. Qed.
