(* ===== verification/RlcAmStatus.v ===== *)
(** The RLC entity in acknowledged mode, part 3: STATUS reporting
    (nr_rlc_entity_am.c, "TX functions - status reporting"): the search of the
    missing parts, the generation of a STATUS PDU and the prediction of its
    size. *)

From S2P Require Import Prelude RlcPdu RlcSdu RlcRx RlcAm.

(** [m_sn_start] is -1 when there is nothing more to report (the other fields
    are not used then); [m_next] is NULL when empty. *)
Record missing_data_t := mk_missing {
  m_sn_start : Z;
  m_so_start : Z;
  m_sn_end : Z;
  m_so_end : Z;
  m_next : list nr_rlc_pdu_t
}.
#[export] Instance eta_missing : Eta missing_data_t := fun r =>
  mk_missing (m_sn_start r) (m_so_start r) (m_sn_end r) (m_so_end r) (m_next r).

Definition no_missing : missing_data_t := mk_missing (-1) 0 0 0 [].

(** The label [set_end_different_sdu]. *)
Definition set_end_different_sdu (e : nr_rlc_entity_am_t) (cur : nr_rlc_pdu_t)
    (sn_start so_start : Z) (next : list nr_rlc_pdu_t) : missing_data_t :=
  let ret :=
    if pdu_is_first cur
    then mk_missing sn_start so_start
           (Z.rem (pdu_sn cur - 1 + sn_modulus e) (sn_modulus e)) 0xffff next
    else mk_missing sn_start so_start (pdu_sn cur) (pdu_so cur - 1) next in
  if sn_compare_rx e (rx_highest_status e) (m_sn_end ret) <=? 0
  then ret <| m_sn_end := Z.rem (rx_highest_status e - 1 + sn_modulus e) (sn_modulus e) |>
           <| m_so_end := 0xffff |> <| m_next := [] |>
  else ret.

(** The label [next_pdu]; [cur] is the head of [cur :: l]. *)
Fixpoint next_missing_loop (e : nr_rlc_entity_am_t) (cur : nr_rlc_pdu_t) (l : list nr_rlc_pdu_t)
    (max_so : Z) (last_reached : bool) : missing_data_t :=
  let sn := pdu_sn cur in
  let cur_max_so := pdu_so cur + pdu_size cur - 1 in
  let max_so := if cur_max_so >? max_so then cur_max_so else max_so in
  let last_reached := last_reached || pdu_is_last cur in
  let rhs := rx_highest_status e in
  let m := sn_modulus e in
  match l with
  | [] =>
      let '(sn_start, so_start) :=
        match pdu_data cur with
        | None => (Z.rem (pdu_sn cur + 1) m, 0)
        | Some _ => if last_reached then (Z.rem (pdu_sn cur + 1) m, 0) else (pdu_sn cur, max_so + 1)
        end in
      if sn_compare_rx e rhs sn_start <=? 0 then no_missing
      else mk_missing sn_start so_start (Z.rem (rhs - 1 + m) m) 0xffff []
  | cur :: l' =>
      if (pdu_sn cur =? sn) && (max_so >=? pdu_so cur - 1)
      then next_missing_loop e cur l' max_so last_reached
      else if (pdu_sn cur =? Z.rem (sn + 1) m) && last_reached && pdu_is_first cur
      then next_missing_loop e cur l' 0 false
      else if pdu_sn cur =? sn then
        if sn_compare_rx e rhs sn <=? 0 then no_missing
        else mk_missing sn (max_so + 1) sn (pdu_so cur - 1) l
      else
        let '(sn_start, so_start) :=
          if last_reached then (Z.rem (sn + 1) m, 0) else (sn, max_so + 1) in
        if sn_compare_rx e rhs sn_start <=? 0 then no_missing
        else set_end_different_sdu e cur sn_start so_start l
  end.

Definition next_missing (e : nr_rlc_entity_am_t) (cur : nr_rlc_pdu_t) (l : list nr_rlc_pdu_t)
    (check_head : bool) : missing_data_t :=
  if check_head && (negb (pdu_sn cur =? rx_next e) || negb (pdu_is_first cur)) then
    if sn_compare_rx e (rx_highest_status e) (rx_next e) <=? 0 then no_missing
    else set_end_different_sdu e cur (rx_next e) 0 (cur :: l)
  else next_missing_loop e cur l 0 false.

Definition nack_size (e : nr_rlc_entity_am_t) (m : missing_data_t) : Z :=
  let nack_length := 2 + b2z (sn_field_length e =? 18) in
  let whole := (m_so_start m =? 0) && (m_so_end m =? 0xffff) in
  if m_sn_start m =? m_sn_end m then
    if whole then nack_length else nack_length + 4
  else if whole then nack_length + 1 else nack_length + 5.

(** The byte and bit of e1 in the nack block at the position of the encoder. *)
Definition get_e1_position (e : nr_rlc_entity_am_t) (enc : nr_rlc_pdu_encoder_t) : Z * Z :=
  if sn_field_length e =? 18 then (e_byte enc + 2, 5) else (e_byte enc + 1, 3).

(** The next range of at most 255 SNs of [m], of which [sn_count] SNs from
    [sn_start] on are left. *)
Definition next_range (e : nr_rlc_entity_am_t) (m : missing_data_t) (sn_start sn_count : Z)
  : Z * missing_data_t :=
  let cur_sn_count := if sn_count >? 255 then 255 else sn_count in
  let so_start := if sn_start =? m_sn_start m then m_so_start m else 0 in
  let '(sn_end, so_end) :=
    if cur_sn_count =? sn_count then (m_sn_end m, m_so_end m)
    else (Z.rem (sn_start + 254) (sn_modulus e), 0xffff) in
  (cur_sn_count, mk_missing sn_start so_start sn_end so_end []).

Definition range_count (e : nr_rlc_entity_am_t) (m : missing_data_t) : Z :=
  Z.rem (m_sn_end m - m_sn_start m + sn_modulus e) (sn_modulus e) + 1.

(** The variables of the generation: the encoder, the position of the last e1
    bit, [so_end_address] as an offset in the buffer, [last_nack_generated]. *)
Record gen := mk_gen {
  g_enc : nr_rlc_pdu_encoder_t;
  g_e1_byte : Z;
  g_e1_bit : Z;
  g_so_end : option Z;
  g_last : Z
}.
#[export] Instance eta_gen : Eta gen := fun r =>
  mk_gen (g_enc r) (g_e1_byte r) (g_e1_bit r) (g_so_end r) (g_last r).

(** One nack: the e1 bit of the previous one is set, then the fields. *)
Definition put_nack (e : nr_rlc_entity_am_t) (g : gen) (m : missing_data_t) (cur_sn_count : Z)
  : outcome gen :=
  let r_bits := if sn_field_length e =? 18 then 3 else 1 in
  let enc := g_enc g in
  b ← rd (e_buffer enc) (g_e1_byte g);
  buf ← wr (e_buffer enc) (g_e1_byte g) (Z.lor b (Z.shiftl 1 (g_e1_bit g)));
  let enc := enc <| e_buffer := buf |> in
  let '(e1_byte, e1_bit) := get_e1_position e enc in
  let whole := (m_so_start m =? 0) && (m_so_end m =? 0xffff) in
  let e2 := negb whole in
  let e3 := negb (m_sn_start m =? m_sn_end m) in
  enc ← nr_rlc_pdu_encoder_put_bits enc (m_sn_start m) (sn_field_length e);
  enc ← nr_rlc_pdu_encoder_put_bits enc 0 1;
  enc ← nr_rlc_pdu_encoder_put_bits enc (b2z e2) 1;
  enc ← nr_rlc_pdu_encoder_put_bits enc (b2z e3) 1;
  enc ← nr_rlc_pdu_encoder_put_bits enc 0 r_bits;
  '(so_end_address, enc) ←
    (if e2 then
       enc ← nr_rlc_pdu_encoder_put_bits enc (m_so_start m) 16;
       let address := e_byte enc in
       enc ← nr_rlc_pdu_encoder_put_bits enc (m_so_end m) 16;
       Done (Some address, enc)
     else Done (None, enc));
  enc ← (if e3 then nr_rlc_pdu_encoder_put_bits enc cur_sn_count 8 else Done enc);
  let last := if e3 then m_sn_start m + (cur_sn_count - 1) else m_sn_start m in
  Done (mk_gen enc e1_byte e1_bit so_end_address last).

(** The loop [while (sn_count)] of [generate_missing]; true when truncated. *)
Fixpoint generate_missing_loop (fuel : nat) (e : nr_rlc_entity_am_t) (m : missing_data_t)
    (sn_start sn_count : Z) (g : gen) : outcome (bool * gen) :=
  if sn_count =? 0 then Done (false, g)
  else match fuel with
  | O => Undef
  | S fuel =>
      let '(cur_sn_count, m_nack) := next_range e m sn_start sn_count in
      if e_byte (g_enc g) + nack_size e m_nack >? e_size (g_enc g) then Done (true, g)
      else
        g ← put_nack e g m_nack cur_sn_count;
        generate_missing_loop fuel e m (Z.rem (sn_start + cur_sn_count) (sn_modulus e))
          (sn_count - cur_sn_count) g
  end.

(** Enough turns: each one handles 255 SNs or all that are left. *)
Definition range_fuel (n : Z) : nat := Z.to_nat (n / 255 + 2).

(** [m->next = NULL] when truncated; [g_last] is the value returned. *)
Definition generate_missing (e : nr_rlc_entity_am_t) (m : missing_data_t) (g : gen)
  : outcome (bool * gen * list nr_rlc_pdu_t) :=
  let sn_count := range_count e m in
  '(trunc, g) ← generate_missing_loop (range_fuel sn_count) e m (m_sn_start m) sn_count
                  (g <| g_last := -1 |>);
  Done (trunc, g, if trunc : bool then [] else m_next m).

(** The loop [while (cur != NULL)]; [last_nack] and the encoder. *)
Fixpoint generate_status_loop (fuel : nat) (e : nr_rlc_entity_am_t) (cur : list nr_rlc_pdu_t)
    (check_head : bool) (last_nack : Z) (g : gen) : outcome (Z * gen) :=
  match cur with
  | [] => Done (last_nack, g)
  | p :: l =>
      match fuel with
      | O => Undef
      | S fuel =>
          let m := next_missing e p l check_head in
          if m_sn_start m =? -1 then Done (last_nack, g)
          else
            '(trunc, g, next) ← generate_missing e m g;
            let last_nack := if g_last g =? -1 then last_nack else g_last g in
            g ← (match (if trunc : bool then g_so_end g else None) with
                 | Some a =>
                     buf ← wr (e_buffer (g_enc g)) a 0xff;
                     buf ← wr buf (a + 1) 0xff;
                     Done (g <| g_enc; e_buffer := buf |>)
                 | None => Done g
                 end);
            generate_status_loop fuel e next false last_nack g
      end
  end.

Definition put_ack_sn (e : nr_rlc_entity_am_t) (buffer : list Z) (ack_sn : Z) : outcome (list Z) :=
  if sn_field_length e =? 12 then
    buffer ← wr buffer 0 (u8 (Z.shiftr ack_sn 8));
    wr buffer 1 (Z.land ack_sn 255)
  else
    buffer ← wr buffer 0 (u8 (Z.shiftr ack_sn 14));
    buffer ← wr buffer 1 (Z.land (Z.shiftr ack_sn 6) 255);
    b ← rd buffer 2;
    wr buffer 2 (Z.lor b (Z.shiftl (Z.land ack_sn 0x3f) 2)).

Definition generate_status (e : nr_rlc_entity_am_t) (buffer : list Z) (size : Z)
  : outcome (Z * nr_rlc_entity_am_t * list Z) :=
  if size <? 3 then Done (0, e, buffer)
  else
    let last_nack := Z.rem (rx_next e - 1 + sn_modulus e) (sn_modulus e) in
    enc ← nr_rlc_pdu_encoder_put_bits (nr_rlc_pdu_encoder_init buffer size) 0 (8 * 3);
    let g := mk_gen enc 2 (if sn_field_length e =? 18 then 1 else 7) None (-1) in
    '(last_nack, g) ← generate_status_loop (S (length (rx_list e))) e (rx_list e) true last_nack g;
    let ack_sn := Z.rem (last_nack + 1) (sn_modulus e) in
    buffer ← put_ack_sn e (e_buffer (g_enc g)) ack_sn;
    let n := e_byte (g_enc g) in
    let e := e <| status_triggered := false |> <| t_status_prohibit_start := t_current e |>
               <| stats; txpdu_pkts ::= add32 1 |> <| stats; txpdu_bytes ::= add32 n |>
               <| stats; txpdu_status_pkts ::= add32 1 |> <| stats; txpdu_status_bytes ::= add32 n |> in
    Done (n, e, buffer).

Definition status_to_report (e : nr_rlc_entity_am_t) : bool :=
  status_triggered e &&
  ((t_status_prohibit_start e =? 0) ||
   (u64 (t_current e - t_status_prohibit_start e) >? u64 (t_status_prohibit e))).

(** The loop [while (sn_count)] of [missing_size]: the size, the number of ranges
    and whether [m->next] is set to NULL. *)
Fixpoint missing_size_loop (fuel : nat) (e : nr_rlc_entity_am_t) (m : missing_data_t)
    (sn_start sn_count size maxsize count : Z) : outcome (Z * Z * bool) :=
  if sn_count =? 0 then Done (size, count, false)
  else match fuel with
  | O => Undef
  | S fuel =>
      let r_bits := if sn_field_length e =? 18 then 3 else 1 in
      let '(cur_sn_count, m_nack) := next_range e m sn_start sn_count in
      if size + nack_size e m_nack >? maxsize then Done (size, count, true)
      else
        let whole := (m_so_start m_nack =? 0) && (m_so_end m_nack =? 0xffff) in
        let bits := sn_field_length e + 3 + r_bits in
        let size :=
          if m_sn_start m_nack =? m_sn_end m_nack then
            if whole then size + Z.quot bits 8 else size + Z.quot (bits + 16 * 2) 8
          else if whole then size + Z.quot (bits + 8) 8
          else size + Z.quot (bits + 16 * 2 + 8) 8 in
        missing_size_loop fuel e m (Z.rem (sn_start + cur_sn_count) (sn_modulus e))
          (sn_count - cur_sn_count) size maxsize (count + 1)
  end.

(** The number of ranges, the size and [m->next]. *)
Definition missing_size (e : nr_rlc_entity_am_t) (m : missing_data_t) (size maxsize : Z)
  : outcome (Z * Z * list nr_rlc_pdu_t) :=
  let sn_count := range_count e m in
  '(size, count, trunc) ← missing_size_loop (range_fuel sn_count) e m (m_sn_start m) sn_count
                            size maxsize 0;
  Done (count, size, if trunc : bool then [] else m_next m).

Fixpoint status_size_loop (fuel : nat) (e : nr_rlc_entity_am_t) (cur : list nr_rlc_pdu_t)
    (nack_count size maxsize : Z) : outcome Z :=
  match cur with
  | [] => Done size
  | p :: l =>
      match fuel with
      | O => Undef
      | S fuel =>
          let m := next_missing e p l (nack_count =? 0) in
          if m_sn_start m =? -1 then Done size
          else
            '(count, size, next) ← missing_size e m size maxsize;
            status_size_loop fuel e next (nack_count + count) size maxsize
      end
  end.

Definition status_size (e : nr_rlc_entity_am_t) (maxsize : Z) : outcome Z :=
  if maxsize <? 3 then Done 0
  else status_size_loop (S (length (rx_list e))) e (rx_list e) 0 3 maxsize.

(** ** The size of the STATUS PDU *)

(** The sequence numbers of the receiver are in range. *)
Definition sn_ok (e : nr_rlc_entity_am_t) (sn : Z) : Prop := 0 <= sn < sn_modulus e.

Record rx_sns_ok (e : nr_rlc_entity_am_t) : Prop := {
  rs_next : sn_ok e (rx_next e);
  rs_status : sn_ok e (rx_highest_status e);
  rs_list : Forall (fun p => sn_ok e (pdu_sn p)) (rx_list e)
}.

Lemma rem_sn_ok e a : 0 < sn_modulus e -> 0 <= a -> sn_ok e (Z.rem a (sn_modulus e)).
Proof. intros. unfold sn_ok. rewrite Z.rem_mod_nonneg by lia. apply Z.mod_pos_bound. lia. Qed.

(** What [next_missing] finds: SNs in range, and a place to continue from that is
    further in the list. *)
Definition missing_ok (e : nr_rlc_entity_am_t) (n : nat) (m : missing_data_t) : Prop :=
  m_sn_start m = -1 \/
  (sn_ok e (m_sn_start m) /\ sn_ok e (m_sn_end m) /\
   Forall (fun p => sn_ok e (pdu_sn p)) (m_next m) /\ (length (m_next m) <= n)%nat).

Lemma set_end_ok e cur sn so next n :
  am_cfg e -> rx_sns_ok e -> sn_ok e sn -> sn_ok e (pdu_sn cur) ->
  Forall (fun p => sn_ok e (pdu_sn p)) next -> (length next <= n)%nat ->
  missing_ok e n (set_end_different_sdu e cur sn so next).
Proof.
  intros C [_ R _] Hs Hc Hn Hl. pose proof (am_cfg_mod e C). right. unfold set_end_different_sdu.
  assert (Hr : forall a, sn_ok e a -> sn_ok e (Z.rem (a - 1 + sn_modulus e) (sn_modulus e)))
    by (intros a Ha; apply rem_sn_ok; unfold sn_ok in *; lia).
  destruct (pdu_is_first cur); cif; simpl; split_and!; try done; try (by apply Hr); simpl; lia.
Qed.

Lemma next_missing_loop_ok e l : am_cfg e -> rx_sns_ok e -> forall cur so lr,
  sn_ok e (pdu_sn cur) -> Forall (fun p => sn_ok e (pdu_sn p)) l ->
  missing_ok e (length l) (next_missing_loop e cur l so lr).
Proof.
  intros C R. pose proof (am_cfg_mod e C) as HM. pose proof R as [_ Rs _].
  assert (Hnx : forall a, sn_ok e a -> sn_ok e (Z.rem (a + 1) (sn_modulus e)))
    by (intros a Ha; apply rem_sn_ok; unfold sn_ok in *; lia).
  assert (Hpv : forall a, sn_ok e a -> sn_ok e (Z.rem (a - 1 + sn_modulus e) (sn_modulus e)))
    by (intros a Ha; apply rem_sn_ok; unfold sn_ok in *; lia).
  induction l as [|c l IH]; intros cur so lr Hc Hl; cbn [next_missing_loop];
    generalize (if pdu_so cur + pdu_size cur - 1 >? so then pdu_so cur + pdu_size cur - 1 else so);
    intros max_so.
  - assert (Hst : forall x, sn_ok e x.1 -> missing_ok e 0
      (let '(sn_start, so_start) := x in
       if sn_compare_rx e (rx_highest_status e) sn_start <=? 0 then no_missing
       else mk_missing sn_start so_start
              (Z.rem (rx_highest_status e - 1 + sn_modulus e) (sn_modulus e)) 0xffff [])).
    { intros [a b] Ha. cif; [by left|right]. simpl. split_and!; try done. by apply Hpv. }
    apply Hst. destruct (pdu_data cur); [destruct (_ || _)|]; simpl; auto.
  - apply Forall_cons in Hl as [Hcc Hl].
    assert (Hle : forall m, missing_ok e (length l) m -> missing_ok e (length (c :: l)) m).
    { intros m [Hm|(? & ? & ? & ?)]; [by left|right]. split_and!; try done. simpl; lia. }
    cif; [apply Hle, IH; done|]. cif; [apply Hle, IH; done|]. cif.
    + cif; [by left|right]. simpl. split_and!; try done. by constructor.
    + set (x := if lr || pdu_is_last cur then _ else _).
      assert (Hx : sn_ok e x.1) by (unfold x; destruct (_ || _); simpl; auto).
      destruct x as [a b]. cif; [by left|]. apply set_end_ok; try done. by constructor.
Qed.

Lemma next_missing_ok e cur l (ch : bool) :
  am_cfg e -> rx_sns_ok e -> sn_ok e (pdu_sn cur) -> Forall (fun p => sn_ok e (pdu_sn p)) l ->
  missing_ok e (if ch then S (length l) else length l) (next_missing e cur l ch).
Proof.
  intros C R Hc Hl. unfold next_missing. destruct (ch && _) eqn:E.
  - apply andb_true_iff in E as [-> _]. cif; [by left|].
    apply set_end_ok; try done; [apply R|by constructor].
  - destruct (next_missing_loop_ok e l C R cur 0 false Hc Hl) as [Hm|(? & ? & ? & ?)]; [by left|right].
    split_and!; try done. destruct ch; lia.
Qed.

(** The state of the generation: the encoder is between two bytes, the addresses
    remembered are in the part already written. *)
Record gen_ok (size : Z) (len : nat) (g : gen) : Prop := {
  go_wf : enc_wf (g_enc g);
  go_bit : e_bit (g_enc g) = 0;
  go_size : e_size (g_enc g) = size;
  go_len : length (e_buffer (g_enc g)) = len;
  go_e1 : 0 <= g_e1_byte g < e_byte (g_enc g) /\ 0 <= g_e1_bit g < 8;
  go_so : forall a, g_so_end g = Some a -> 0 <= a /\ a + 1 < e_byte (g_enc g);
  go_min : 3 <= e_byte (g_enc g)
}.

Lemma lor_byte a b : is_byte a -> is_byte b -> is_byte (Z.lor a b).
Proof.
  unfold is_byte. intros Ha Hb. split; [apply Z.lor_nonneg; lia|].
  destruct (decide (Z.lor a b = 0)) as [->|Hz]; [lia|].
  apply (Z.log2_lt_pow2 _ 8); [pose proof (proj2 (Z.lor_nonneg a b)); lia|].
  rewrite Z.log2_lor by lia.
  destruct (decide (a = 0)) as [->|], (decide (b = 0)) as [->|]; [done|..];
    rewrite ?Z.max_lub_lt_iff; split; try (cbn; lia); apply Z.log2_lt_pow2; lia.
Qed.

Lemma shift_byte i : 0 <= i < 8 -> is_byte (Z.shiftl 1 i).
Proof.
  intros. rewrite Z.shiftl_mul_pow2, Z.mul_1_l by lia. unfold is_byte.
  split; [apply Z.pow_nonneg; lia|]. change 256 with (2 ^ 8). apply Z.pow_lt_mono_r; lia.
Qed.

Lemma enc_set_buffer enc i b :
  enc_wf enc -> 0 <= i < e_byte enc -> is_byte b ->
  exists buf, wr (e_buffer enc) i b = Done buf /\ enc_wf (enc <| e_buffer := buf |>) /\
    length buf = length (e_buffer enc).
Proof.
  intros (H1 & H2 & H3 & H4 & H5) Hi Hb. rewrite wr_done by lia. eexists. split; [reflexivity|].
  split; [|apply length_insert]. unfold enc_wf. simpl. rewrite length_insert. split_and!; try done; try lia.
  by apply Forall_insert.
Qed.

Lemma put_fields_bind {B} fs : forall e (k : nr_rlc_pdu_encoder_t -> outcome B),
  (x ← put_fields e fs; k x) =
  match fs with
  | [] => k e
  | (v, c) :: r => x ← nr_rlc_pdu_encoder_put_bits e v c; y ← put_fields x r; k y
  end.
Proof. intros e k. destruct fs as [|[v c] r]; [done|]. simpl. by destruct (nr_rlc_pdu_encoder_put_bits e v c). Qed.

(** The fields of a nack up to the reserved bits. *)
Definition nack_fields (e : nr_rlc_entity_am_t) (m : missing_data_t) : list (Z * Z) :=
  let whole := (m_so_start m =? 0) && (m_so_end m =? 0xffff) in
  [(m_sn_start m, sn_field_length e); (0, 1); (b2z (negb whole), 1);
   (b2z (negb (m_sn_start m =? m_sn_end m)), 1); (0, if sn_field_length e =? 18 then 3 else 1)].

(** [put_fields_ok] for fields that fill whole bytes. *)
Lemma put_bytes_ok fs enc n :
  enc_wf enc -> e_bit enc = 0 -> Forall (fun f : Z * Z => 1 <= f.2 <= 31) fs ->
  fields_width fs = 8 * n -> e_byte enc + n <= e_size enc ->
  exists enc', put_fields enc fs = Done enc' /\ enc_wf enc' /\ e_bit enc' = 0 /\
    e_byte enc' = e_byte enc + n /\ e_size enc' = e_size enc /\
    length (e_buffer enc') = length (e_buffer enc).
Proof.
  intros W Hb F Hw Hs. destruct (put_fields_ok fs enc W F) as (enc' & P & W' & _ & S' & L' & K'); [lia|].
  exists enc'. pose proof W' as (_ & ? & _). split_and!; try done; lia.
Qed.

Lemma nack_fields_ok e m : am_cfg e ->
  Forall (fun f : Z * Z => 1 <= f.2 <= 31) (nack_fields e m) /\
  fields_width (nack_fields e m) = 8 * (2 + b2z (sn_field_length e =? 18)).
Proof.
  intros [L _ _]. unfold nack_fields. destruct L as [-> | ->]; simpl; (split; [|lia]);
    repeat constructor; simpl; lia.
Qed.

(** The head of a nack is the sequence [nack_fields]. *)
Lemma put_nack_head {B} e m enc enc' (k : nr_rlc_pdu_encoder_t -> outcome B) :
  put_fields enc (nack_fields e m) = Done enc' ->
  (enc ← nr_rlc_pdu_encoder_put_bits enc (m_sn_start m) (sn_field_length e);
   enc ← nr_rlc_pdu_encoder_put_bits enc 0 1;
   enc ← nr_rlc_pdu_encoder_put_bits enc (b2z (negb ((m_so_start m =? 0) && (m_so_end m =? 65535)))) 1;
   enc ← nr_rlc_pdu_encoder_put_bits enc (b2z (negb (m_sn_start m =? m_sn_end m))) 1;
   enc ← nr_rlc_pdu_encoder_put_bits enc 0 (if sn_field_length e =? 18 then 3 else 1);
   k enc) = k enc'.
Proof.
  intros P. replace (k enc') with (x ← put_fields enc (nack_fields e m); k x) by (by rewrite P).
  unfold nack_fields. do 5 (rewrite put_fields_bind; destruct (nr_rlc_pdu_encoder_put_bits _ _ _);
    [cbn [mbind outcome_bind]|done|done]). done.
Qed.

(** An encoder between two bytes. *)
Definition enc_at (size : Z) (len : nat) (byte : Z) (enc : nr_rlc_pdu_encoder_t) : Prop :=
  enc_wf enc /\ e_bit enc = 0 /\ e_byte enc = byte /\ e_size enc = size /\
  length (e_buffer enc) = len.

Lemma put_field_ok v c n size len byte enc :
  enc_at size len byte enc -> c = 8 * n -> 1 <= n <= 3 -> byte + n <= size ->
  exists enc', nr_rlc_pdu_encoder_put_bits enc v c = Done enc' /\ enc_at size len (byte + n) enc'.
Proof.
  intros (W & B & Y & S & L) Hc Hn Hs.
  destruct (put_bytes_ok [(v, c)] enc n) as (x & Q & V & A & Z1 & T & U);
    [done|done|constructor; [simpl; lia|constructor]|simpl; lia|lia|].
  simpl in Q. invd Q. injection Q as <-. exists x0. split; [done|].
  unfold enc_at. split_and!; try done; try lia; congruence.
Qed.

Lemma put_so_ok m whole size len byte enc :
  enc_at size len byte enc -> byte + (if whole : bool then 0 else 4) <= size -> 0 <= byte ->
  exists a enc',
    (if negb whole then
       enc ← nr_rlc_pdu_encoder_put_bits enc (m_so_start m) 16;
       enc' ← nr_rlc_pdu_encoder_put_bits enc (m_so_end m) 16; Done (Some (e_byte enc), enc')
     else Done (None, enc)) = Done (a, enc') /\
    enc_at size len (byte + if whole then 0 else 4) enc' /\
    (forall x, a = Some x -> 0 <= x /\ x + 1 < e_byte enc').
Proof.
  intros E Hs H0. destruct whole; simpl.
  - exists None, enc. rewrite Z.add_0_r. by split_and!.
  - destruct (put_field_ok (m_so_start m) 16 2 size len byte enc E) as (x1 & -> & E1); [lia..|].
    destruct (put_field_ok (m_so_end m) 16 2 size len _ x1 E1) as (x2 & Hx2 & E2); [lia..|].
    simpl. rewrite Hx2. simpl. eexists _, _. split; [reflexivity|].
    replace (byte + 4) with (byte + 2 + 2) by lia. split; [done|].
    intros z [= <-]. destruct E1 as (_ & _ & -> & _), E2 as (_ & _ & -> & _). lia.
Qed.

Lemma put_nack_ok e size len g m cnt :
  am_cfg e -> gen_ok size len g -> e_byte (g_enc g) + nack_size e m <= size ->
  exists g', put_nack e g m cnt = Done g' /\ gen_ok size len g' /\
    e_byte (g_enc g') = e_byte (g_enc g) + nack_size e m.
Proof.
  intros C [W Hb Hs Hl [He1 He2] Hso Hmin] Hsz. pose proof W as (Hby & _ & Hle & _ & HB).
  destruct (nack_fields_ok e m C) as [NF NW].
  destruct (lookup_lt_is_Some_2 (e_buffer (g_enc g)) (Z.to_nat (g_e1_byte g))) as [b Hbb]; [lia|].
  assert (Hbyte : is_byte (Z.lor b (Z.shiftl 1 (g_e1_bit g)))).
  { apply lor_byte; [rewrite Forall_forall in HB; apply HB; by eapply list_elem_of_lookup_2|].
    by apply shift_byte. }
  destruct (enc_set_buffer _ (g_e1_byte g) _ W He1 Hbyte) as (buf & Hwr & W0 & Hl0).
  unfold put_nack. rewrite (rd_done _ _ b) by (done || lia). cbn [mbind outcome_bind]. rewrite Hwr.
  cbn [mbind outcome_bind]. set (enc0 := g_enc g <| e_buffer := buf |>) in *.
  unfold nack_size in *. set (nl := 2 + b2z (sn_field_length e =? 18)) in *.
  assert (Hnl : 2 <= nl <= 3) by (unfold nl, b2z; cif; lia).
  destruct (put_bytes_ok (nack_fields e m) enc0 nl) as (enc1 & P1 & W1 & B1 & Y1 & S1 & L1);
    [done|done|done|done|simpl; revert Hsz; repeat cif; lia|].
  destruct (get_e1_position e enc0) as [b1 b2] eqn:Ep.
  assert (Hpos : e_byte (g_enc g) <= b1 < e_byte (g_enc g) + nl /\ 0 <= b2 < 8).
  { unfold get_e1_position, nl in *. destruct (sn_field_length e =? 18);
      injection Ep as <- <-; simpl; lia. }
  cbv zeta. rewrite (put_nack_head e m enc0 enc1) by done.
  set (whole := (m_so_start m =? 0) && (m_so_end m =? 65535)) in *.
  set (same := m_sn_start m =? m_sn_end m) in *. simpl in Y1, S1, L1.
  destruct (put_so_ok m whole size len (e_byte enc1) enc1) as (a & enc2 & -> & E2 & Ha);
    [unfold enc_at; split_and!; try done; congruence|destruct same, whole; lia|lia|].
  unfold mbind, outcome_bind at 1. cbv beta iota.
  assert (H3 : exists enc3,
    (if negb same then nr_rlc_pdu_encoder_put_bits enc2 cnt 8 else Done enc2) = Done enc3 /\
    enc_at size len (e_byte enc1 + (if whole then 0 else 4) + (if same then 0 else 1)) enc3).
  { destruct same; simpl; [exists enc2; by rewrite Z.add_0_r|].
    apply (put_field_ok _ 8 1); [done|lia|lia|destruct whole; lia]. }
  destruct H3 as (enc3 & -> & W3 & B3 & Y3 & S3 & L3).
  destruct E2 as (_ & _ & Y2 & _). eexists. split; [reflexivity|].
  split; [|simpl; destruct same, whole; lia].
  split; simpl; try done; try (destruct same, whole; lia). intros x Hx. apply Ha in Hx.
  destruct same, whole; lia.
Qed.

(** [generate_missing] writes as many bytes as [missing_size] counts, and both
    stop for lack of room at the same nack. *)
Lemma missing_lockstep e size len m : am_cfg e -> forall fuel sn_start n g cnt,
  0 <= n -> n = 0 \/ n / 255 + 1 <= Z.of_nat fuel -> gen_ok size len g ->
  exists trunc g' cnt',
    generate_missing_loop fuel e m sn_start n g = Done (trunc, g') /\
    missing_size_loop fuel e m sn_start n (e_byte (g_enc g)) size cnt
    = Done (e_byte (g_enc g'), cnt', trunc) /\
    gen_ok size len g' /\ cnt <= cnt' /\ (trunc = false -> 0 < n -> cnt < cnt').
Proof.
  intros C. induction fuel as [|fuel IH]; intros sn_start n g cnt Hn Hf Hg.
  { pose proof (Z.div_pos n 255 ltac:(lia) ltac:(lia)). destruct Hf as [-> |?]; [|lia].
    exists false, g, cnt. simpl. split_and!; try done; lia. }
  cbn [generate_missing_loop missing_size_loop]. destruct (n =? 0) eqn:E0; zbool.
  { exists false, g, cnt. split_and!; try done; lia. }
  destruct (next_range e m sn_start n) as [c mn] eqn:Er.
  assert (Hc : 1 <= c <= n /\ (n - c = 0 \/ (n - c) / 255 + 1 <= Z.of_nat fuel)).
  { assert (Ec : c = if n >? 255 then 255 else n)
      by (unfold next_range in Er; destruct ((if n >? 255 then 255 else n) =? n); by injection Er as <- _).
    destruct (n >? 255) eqn:Eg; zbool; subst c.
    - split; [lia|right]. replace (n - 255) with (n + (-1) * 255) by lia. rewrite Z.div_add by lia. lia.
    - lia. }
  rewrite (go_size _ _ _ Hg). destruct (e_byte (g_enc g) + nack_size e mn >? size) eqn:Et; zbool.
  { exists true, g, cnt. split_and!; try done; lia. }
  destruct (put_nack_ok e size len g mn c C Hg Et) as (g1 & -> & Hg1 & Hb1).
  simpl. destruct (IH (Z.rem (sn_start + c) (sn_modulus e)) (n - c) g1 (cnt + 1))
    as (trunc & g' & cnt' & -> & Hms & Hg' & Hle & _); [lia|lia|done|].
  exists trunc, g', cnt'. split; [done|]. split; [|split_and!; try done; intros; lia].
  rewrite <- Hms, Hb1. f_equal. unfold nack_size.
  destruct C as [L _ _]. destruct L as [-> | ->];
    destruct (m_sn_start mn =? m_sn_end mn), ((m_so_start mn =? 0) && (m_so_end mn =? 65535)); reflexivity.
Qed.

Lemma missing_size_exact e size len m g :
  am_cfg e -> gen_ok size len g -> sn_ok e (m_sn_start m) -> sn_ok e (m_sn_end m) ->
  exists trunc g' cnt next,
    generate_missing e m g = Done (trunc, g', next) /\
    missing_size e m (e_byte (g_enc g)) size = Done (cnt, e_byte (g_enc g'), next) /\
    gen_ok size len g' /\ 0 <= cnt /\ next = (if trunc : bool then [] else m_next m) /\
    (cnt = 0 -> next = []).
Proof.
  intros C Hg Hs He. pose proof (am_cfg_mod e C). unfold sn_ok in *.
  unfold generate_missing, missing_size.
  assert (Hr : 0 < range_count e m).
  { unfold range_count. rewrite Z.rem_mod_nonneg by lia.
    pose proof (Z.mod_pos_bound (m_sn_end m - m_sn_start m + sn_modulus e) (sn_modulus e)). lia. }
  assert (Hg0 : gen_ok size len (g <| g_last := -1 |>)) by (destruct Hg; by split).
  destruct (missing_lockstep e size len m C (range_fuel (range_count e m)) (m_sn_start m)
    (range_count e m) (g <| g_last := -1 |>) 0) as (trunc & g' & cnt & -> & Hms & Hg' & Hc & Hp); [lia| |done|].
  { right. unfold range_fuel. pose proof (Z.div_pos (range_count e m) 255 ltac:(lia) ltac:(lia)). lia. }
  simpl in Hms. rewrite Hms. simpl. exists trunc, g', cnt, (if trunc then [] else m_next m).
  split_and!; try done. intros ->. destruct trunc; [done|]. specialize (Hp eq_refl Hr). lia.
Qed.

(** Forcing the last [so_end] to 0xffff. *)
Lemma force_so_end_ok size len g (trunc : bool) :
  gen_ok size len g ->
  exists g', (match (if trunc then g_so_end g else None) with
     | Some a =>
         buf ← wr (e_buffer (g_enc g)) a 0xff;
         buf ← wr buf (a + 1) 0xff;
         Done (g <| g_enc; e_buffer := buf |>)
     | None => Done g
     end) = Done g' /\ gen_ok size len g' /\ e_byte (g_enc g') = e_byte (g_enc g).
Proof.
  intros Hg. destruct trunc; [|by exists g]. destruct (g_so_end g) as [a|] eqn:Ea; [|by exists g].
  pose proof Hg as [W Hb Hs Hl He Hso Hmin]. destruct (Hso a Ea) as [Ha1 Ha2].
  destruct (enc_set_buffer _ a 0xff W) as (b1 & -> & W1 & L1); [lia|unfold is_byte; lia|].
  destruct (enc_set_buffer _ (a + 1) 0xff W1) as (b2 & E2 & W2 & L2); [simpl; lia|unfold is_byte; lia|].
  simpl in E2. cbn [mbind outcome_bind]. rewrite E2. eexists. split; [reflexivity|].
  split; [|done]. split; simpl; try done. simpl in L2. congruence.
Qed.

Lemma status_lockstep e size len : am_cfg e -> rx_sns_ok e -> forall fuel cur (ch : bool) cnt last g,
  Forall (fun p => sn_ok e (pdu_sn p)) cur -> (length cur + (if ch then 1 else 0) <= fuel)%nat ->
  0 <= cnt -> ch = (cnt =? 0) -> gen_ok size len g ->
  exists last' g', generate_status_loop fuel e cur ch last g = Done (last', g') /\
    status_size_loop fuel e cur cnt (e_byte (g_enc g)) size = Done (e_byte (g_enc g')) /\
    gen_ok size len g'.
Proof.
  intros C R. induction fuel as [|fuel IH]; intros cur ch cnt last g F Hf Hc Hch Hg.
  { destruct cur; [|simpl in Hf; lia]. simpl. eauto. }
  destruct cur as [|p l]; [simpl; eauto|]. cbn [generate_status_loop status_size_loop].
  apply Forall_cons in F as [Fp F]. rewrite <- Hch.
  destruct (next_missing_ok e p l ch C R Fp F) as [->|(M1 & M2 & M3 & M4)]; [simpl; eauto|].
  set (m := next_missing e p l ch) in *.
  cif; [eauto|].
  destruct (missing_size_exact e size len m g C Hg M1 M2)
    as (trunc & g1 & c1 & next & -> & -> & Hg1 & Hc1 & Hnext & Hz).
  cbn [mbind outcome_bind]. destruct (force_so_end_ok size len g1 trunc Hg1) as (g2 & -> & Hg2 & <-).
  destruct (decide (c1 = 0)) as [E0|E0].
  { rewrite (Hz E0). destruct fuel; simpl; eauto. }
  apply IH; try done; try lia.
  - subst next. destruct trunc; [constructor|done].
  - subst next. destruct trunc; simpl; [lia|]. simpl in Hf. destruct ch; lia.
Qed.

Lemma put_ack_ok e buf ack :
  (3 <= length buf)%nat -> Forall is_byte buf ->
  exists buf', put_ack_sn e buf ack = Done buf' /\ length buf' = length buf /\ Forall is_byte buf'.
Proof.
  intros Hl HB. assert (Hu : forall x, is_byte (u8 x)) by (intros x; apply Z.mod_pos_bound; lia).
  assert (Hand : forall x n, 0 <= n <= 8 -> is_byte (Z.land x (Z.ones n))).
  { intros x n Hn. rewrite Z.land_ones by lia. unfold is_byte.
    pose proof (Z.mod_pos_bound x (2 ^ n)). pose proof (Z.pow_le_mono_r 2 n 8). lia. }
  assert (H255 : forall x, is_byte (Z.land x 255)) by (intros x; apply (Hand x 8); lia).
  unfold put_ack_sn. destruct (sn_field_length e =? 12).
  - rewrite wr_done by lia. simpl. rewrite wr_done by (rewrite length_insert; lia).
    eexists. split; [reflexivity|]. rewrite !length_insert. split; [done|].
    by do 2 (apply Forall_insert; [|done]).
  - rewrite wr_done by lia. simpl. rewrite wr_done by (rewrite length_insert; lia). simpl.
    match goal with |- context [rd ?b 2] => set (b1 := b) end.
    assert (Hb1 : Forall is_byte b1) by (by do 2 (apply Forall_insert; [|done])).
    assert (Lb1 : length b1 = length buf) by (unfold b1; by rewrite !length_insert).
    destruct (lookup_lt_is_Some_2 b1 2) as [x Hx]; [lia|].
    rewrite (rd_done _ _ x) by (done || lia). simpl. rewrite wr_done by lia.
    eexists. split; [reflexivity|]. rewrite length_insert. split; [done|].
    apply Forall_insert; [done|]. apply lor_byte.
    + rewrite Forall_forall in Hb1. apply Hb1. by eapply list_elem_of_lookup_2.
    + rewrite Z.shiftl_mul_pow2 by lia. change (Z.land ack 63) with (Z.land ack (Z.ones 6)).
      rewrite Z.land_ones by lia. unfold is_byte. pose proof (Z.mod_pos_bound ack (2 ^ 6)). lia.
Qed.

(** C28. The size announced for the STATUS PDU is the size generated.  For an AM
    receiver whose sequence numbers are in range, whatever its receive list,
    [status_size] (the size reported to the MAC for the given room) returns
    exactly the number of bytes [generate_status] then writes into a buffer of
    that room; the generation ends, stays inside the buffer and, with room for
    the three bytes of the header, is not empty. *)
Theorem am_status_size_exact (e : nr_rlc_entity_am_t) (buf : list Z) (size : Z) :
  am_cfg e -> rx_sns_ok e -> Forall is_byte buf -> size <= Z.of_nat (length buf) ->
  exists n e' buf', generate_status e buf size = Done (n, e', buf') /\
    status_size e size = Done n /\ length buf' = length buf /\ Forall is_byte buf' /\
    (3 <= size -> 3 <= n <= size).
Proof.
  intros C R HB Hs. unfold generate_status, status_size.
  destruct (size <? 3) eqn:E3; zbool; [exists 0, e, buf; split_and!; done || lia|].
  destruct (put_bits_ok (nr_rlc_pdu_encoder_init buf size) 0 (8 * 3)) as (enc & -> & W & _ & Sz & L & K);
    [by apply enc_init_wf; [|lia]|lia|simpl; lia|].
  simpl in Sz, L, K. pose proof W as (Hb0 & Hb1 & _ & _ & HB').
  set (g := mk_gen enc 2 (if sn_field_length e =? 18 then 1 else 7) None (-1)).
  assert (Hby : e_byte enc = 3) by lia.
  assert (Hg : gen_ok size (length buf) g).
  { split; simpl; try done; try lia. split; [lia|]. cif; lia. }
  cbn [mbind outcome_bind].
  destruct (status_lockstep e size (length buf) C R (S (length (rx_list e))) (rx_list e) true 0
    (Z.rem (rx_next e - 1 + sn_modulus e) (sn_modulus e)) g) as (last & g' & Hgen & Hst & Hg');
    [apply R|lia|lia|done|done|].
  fold g. rewrite Hgen. simpl in Hst. rewrite Hby in Hst. cbn [mbind outcome_bind].
  destruct Hg' as [W' B' S' L' _ _ Hm]. pose proof W' as (? & _ & _ & _ & HB2).
  destruct (put_ack_ok e (e_buffer (g_enc g')) (Z.rem (last + 1) (sn_modulus e)))
    as (buf' & -> & Hl2 & HB3); [lia|done|].
  eexists _, _, buf'. split; [reflexivity|]. split_and!; try done; lia.
Qed.

(** A receiver that waits for SDU 2, has part of SDU 3 and the whole of SDU 5. *)
Definition holes (e : nr_rlc_entity_am_t) : nr_rlc_entity_am_t :=
  e <| rx_list := [mk_pdu 3 (Some [1; 2]) 2 4 false false; mk_pdu 5 None 3 0 true true] |>
    <| rx_next := 2 |> <| rx_highest_status := 6 |> <| rx_next_highest := 7 |>.

Lemma am_status_size_exact_witness :
  exists e n e' buf',
    new_nr_rlc_entity_am 100 100 45 35 0 (-1) (-1) 8 12 = Done e /\
    generate_status (holes e) (repeat 0 12) 12 = Done (n, e', buf') /\
    status_size (holes e) 12 = Done n /\ length buf' = length (repeat 0 12) /\ Forall is_byte buf' /\
    (3 <= 12 -> 3 <= n <= 12).
Proof.
  eexists. destruct (am_status_size_exact
    (holes (mk_am false zero_stats (mk_bs 0 0 0) 45 35 0 (-1) (-1) 8 12 4096 2048 0 0 0 0 false 0 0 0 0 0
       false 0 0 0 0 0 0 [] 0 100 [] None 0 100 [] None [] empty_heap [])) (repeat 0 12) 12)
    as (n & e' & buf' & H).
  - split; [by left|done|done].
  - split; [done|done|]. repeat constructor; done.
  - repeat constructor; done.
  - done.
  - exists n, e', buf'. split; [reflexivity|exact H].
Defined.

(** The STATUS PDU of this receiver: the SDUs 2 and 3 up to byte 3 are missing,
    then the end of SDU 3 and the whole of SDU 4; SDU 5 is there. *)
Example status_example :
  (e ← new_nr_rlc_entity_am 100 100 45 35 0 (-1) (-1) 8 12;
   '(n, _, buf) ← generate_status (holes e) (repeat 0 24) 24;
   Done (take (Z.to_nat n) buf))
  = Done [0; 5; 128;  0; 0x2e; 0; 0; 0; 3; 2;  0; 0x36; 0; 6; 255; 255; 2].
Proof. vm_compute. reflexivity. Qed.
