(* ===== verification/RlcAmTx.v ===== *)
(** The RLC entity in acknowledged mode, part 4: transmission, polling, timers,
    discard and re-establishment (nr_rlc_entity_am.c). *)

From S2P Require Import Prelude RlcPdu RlcSdu RlcRx RlcAm RlcAmStatus.

(** ** TX functions *)

Definition is_window_stalling (e : nr_rlc_entity_am_t) : bool :=
  negb ((sn_compare_tx e (tx_next_ack e) (tx_next e) <=? 0) &&
        (sn_compare_tx e (tx_next e)
           (Z.rem (tx_next_ack e + window_size e) (sn_modulus e)) <? 0)).

Definition include_poll (e : nr_rlc_entity_am_t) (buffer : list Z)
  : outcome (nr_rlc_entity_am_t * list Z) :=
  b ← rd buffer 0;
  buffer ← wr buffer 0 (Z.lor b 0x40);
  Done (e <| pdu_without_poll := 0 |> <| byte_without_poll := 0 |>
          <| poll_sn := Z.rem (tx_next e - 1 + sn_modulus e) (sn_modulus e) |>
          <| t_poll_retransmit_start := t_current e |>, buffer).

Definition check_poll_after_pdu_assembly (e : nr_rlc_entity_am_t) : bool :=
  let transmission_buffer_empty := if tx_list e is [] then true else false in
  let retransmission_buffer_empty := if retransmit_list e is [] then true else false in
  (transmission_buffer_empty && retransmission_buffer_empty) || is_window_stalling e.

Definition serialize_sdu (e : nr_rlc_entity_am_t) (sdu : nr_rlc_sdu_segment_t) (buffer : list Z)
    (bufsize : Z) (p : bool) : outcome (Z * nr_rlc_entity_am_t * list Z) :=
  u ← sdu_of (heap e) sdu;
  let enc := nr_rlc_pdu_encoder_init buffer bufsize in
  enc ← nr_rlc_pdu_encoder_put_bits enc 1 1;
  enc ← nr_rlc_pdu_encoder_put_bits enc 0 1;
  enc ← nr_rlc_pdu_encoder_put_bits enc (1 - b2z (seg_is_first sdu)) 1;
  enc ← nr_rlc_pdu_encoder_put_bits enc (1 - b2z (seg_is_last sdu)) 1;
  enc ← (if sn_field_length e =? 18 then nr_rlc_pdu_encoder_put_bits enc 0 2 else Done enc);
  enc ← nr_rlc_pdu_encoder_put_bits enc (sdu_sn u) (sn_field_length e);
  enc ← (if negb (seg_is_first sdu)
         then nr_rlc_pdu_encoder_put_bits enc (seg_so sdu) 16 else Done enc);
  data ← slice (sdu_data u) (seg_so sdu) (seg_size sdu);
  buffer ← blit (e_buffer enc) (e_byte enc) data;
  '(e, buffer) ← (if p then include_poll e buffer else Done (e, buffer));
  Done (e_byte enc + seg_size sdu, e, buffer).

(** Returns the entity, the shortened segment and the segment of the rest. *)
Definition resegment (sdu : nr_rlc_sdu_segment_t) (e : nr_rlc_entity_am_t) (pdu_size : Z)
  : outcome (nr_rlc_entity_am_t * nr_rlc_sdu_segment_t * nr_rlc_sdu_segment_t) :=
  u ← sdu_of (heap e) sdu;
  let e := e <| heap ::= fun h => set_sdu h (seg_sdu sdu) (u <| sdu_ref_count ::= Z.add 1 |>) |> in
  let pdu_header_size := compute_pdu_header_size e sdu in
  let over_size := pdu_header_size + seg_size sdu - pdu_size in
  let first := sdu <| seg_size ::= fun x => x - over_size |> <| seg_is_last := false |> in
  let next := sdu <| seg_id := h_next (heap e) |> <| seg_size := over_size |>
                  <| seg_so := seg_so first + seg_size first |> <| seg_is_first := false |> in
  Done (e <| heap; h_next ::= S |>, first, next).

(** The segment [wait_end] points to. *)
Fixpoint seg_at (i : nat) (l : list nr_rlc_sdu_segment_t) : outcome nr_rlc_sdu_segment_t :=
  match l with
  | [] => Undef
  | s :: r => if (seg_id s =? i)%nat then Done s else seg_at i r
  end.

(** Put a segment in the wait list: at the end if it comes after the last one. *)
Definition put_in_wait_list (e : nr_rlc_entity_am_t) (sdu : nr_rlc_sdu_segment_t)
  : outcome nr_rlc_entity_am_t :=
  after ← (match wait_end e with
           | None => Done true
           | Some i =>
               w ← seg_at i (wait_list e);
               wu ← sdu_of (heap e) w;
               u ← sdu_of (heap e) sdu;
               let cmp := sn_compare_tx e (sdu_sn u) (sdu_sn wu) in
               Done ((cmp >? 0) || ((cmp =? 0) && (seg_so sdu >? seg_so w)))
           end);
  if after : bool then
    '(l, en) ← nr_rlc_sdu_segment_list_append (wait_list e) (wait_end e) sdu;
    Done (e <| wait_list := l |> <| wait_end := en |>)
  else
    l ← nr_rlc_sdu_segment_list_add (heap e) (sn_compare_tx e) (wait_list e) sdu;
    let e := e <| wait_list := l |> in
    match l with
    | [s] => Done (e <| wait_end := Some (seg_id s) |>)
    | _ => Done e
    end.

(** [if (entity->force_poll) { p = 1; entity->force_poll = 0; }] *)
Definition take_force_poll (e : nr_rlc_entity_am_t) (p : bool) : nr_rlc_entity_am_t * bool :=
  if force_poll e then (e <| force_poll := false |>, true) else (e, p).

Definition generate_retx_pdu (e : nr_rlc_entity_am_t) (buffer : list Z) (size : Z)
  : outcome (Z * nr_rlc_entity_am_t * list Z) :=
  match retransmit_list e with
  | [] => Undef
  | sdu :: next =>
      let pdu_header_size := compute_pdu_header_size e sdu in
      if pdu_header_size + 1 >? size then Done (0, e, buffer)
      else
        let e := e <| retransmit_list := next |> in
        let pdu_size := pdu_header_size + seg_size sdu in
        let e := e <| bstatus; bs_retx_size ::= fun x => x - pdu_size |> in
        '(e, sdu) ←
          (if pdu_size >? size then
             '(e, sdu, next_sdu) ← resegment sdu e size;
             let e := e <| retransmit_list ::= cons next_sdu |> in
             let e := e <| bstatus; bs_retx_size ::=
                        Z.add (compute_pdu_header_size e next_sdu + seg_size next_sdu) |>
                        <| stats; txpdu_segmented ::= add32 1 |> in
             Done (e, sdu)
           else Done (e, sdu));
        e ← put_in_wait_list e sdu;
        let '(e, p) := take_force_poll e (check_poll_after_pdu_assembly e) in
        '(ret, e, buffer) ← serialize_sdu e sdu buffer size p;
        Done (ret, e <| stats; txpdu_pkts ::= add32 1 |> <| stats; txpdu_bytes ::= add32 ret |>
                     <| stats; txpdu_retx_pkts ::= add32 1 |> <| stats; txpdu_retx_bytes ::= add32 ret |>,
              buffer)
  end.

(** From the polling actions to the end of [generate_tx_pdu]. *)
Definition send_new_segment (e : nr_rlc_entity_am_t) (sdu : nr_rlc_sdu_segment_t) (buffer : list Z)
    (size now : Z) : outcome (Z * nr_rlc_entity_am_t * list Z) :=
  let e := e <| pdu_without_poll ::= Z.add 1 |> <| byte_without_poll ::= Z.add (seg_size sdu) |> in
  let p := (negb (poll_pdu e =? -1) && (pdu_without_poll e >=? poll_pdu e))
           || (negb (poll_byte e =? -1) && (byte_without_poll e >=? poll_byte e))
           || check_poll_after_pdu_assembly e in
  let '(e, p) := take_force_poll e p in
  '(ret, e, buffer) ← serialize_sdu e sdu buffer size p;
  let e := e <| stats; txpdu_pkts ::= add32 1 |> <| stats; txpdu_bytes ::= add32 ret |> in
  u ← sdu_of (heap e) sdu;
  let e := if avg_time_is_on e
           then e <| trace ::= fun t =>
             t ++ [TimeAverageAdd now (u64 (now - sdu_time_of_arrival u))] |>
           else e in
  Done (ret, e, buffer).

Definition generate_tx_pdu (e : nr_rlc_entity_am_t) (buffer : list Z) (size now : Z)
  : outcome (Z * nr_rlc_entity_am_t * list Z) :=
  if is_window_stalling e then Done (0, e, buffer)
  else match tx_list e with
  | [] => Done (0, e, buffer)
  | sdu :: next =>
      let pdu_header_size := compute_pdu_header_size e sdu in
      if pdu_header_size + 1 >? size then Done (0, e, buffer)
      else
        let e := e <| tx_list := next |> in
        let e := if next is [] then e <| tx_end := None |> else e in
        let pdu_size := pdu_header_size + seg_size sdu in
        let e := e <| bstatus; bs_tx_size ::= fun x => x - pdu_size |> in
        u ← sdu_of (heap e) sdu;
        let e := if sdu_sn u =? -1
                 then e <| heap ::= fun h => set_sdu h (seg_sdu sdu) (u <| sdu_sn := tx_next e |>) |>
                        <| tx_next := Z.rem (tx_next e + 1) (sn_modulus e) |>
                 else e in
        '(e, sdu) ←
          (if pdu_size >? size then
             '(e, sdu, next_sdu) ← resegment sdu e size;
             let e := e <| tx_list ::= cons next_sdu |> in
             let e := if tx_end e is None then e <| tx_end := Some (seg_id next_sdu) |> else e in
             let e := e <| stats; txpdu_segmented ::= add32 1 |>
                        <| bstatus; bs_tx_size ::=
                             Z.add (compute_pdu_header_size e next_sdu + seg_size next_sdu) |> in
             Done (e, sdu)
           else Done (e, sdu));
        e ← put_in_wait_list e sdu;
        send_new_segment e sdu buffer size now
  end.

Definition nr_rlc_entity_am_buffer_status (e : nr_rlc_entity_am_t) (maxsize : Z)
  : outcome nr_rlc_entity_buffer_status_t :=
  n ← (if status_to_report e then status_size e maxsize else Done 0);
  Done (mk_bs n (bs_tx_size (bstatus e)) (bs_retx_size (bstatus e))).

Definition nr_rlc_entity_am_generate_pdu (e : nr_rlc_entity_am_t) (buffer : list Z) (size now : Z)
  : outcome (Z * nr_rlc_entity_am_t * list Z) :=
  '(ret, e, buffer) ← (if status_to_report e then generate_status e buffer size
                       else Done (0, e, buffer));
  if negb (ret =? 0) then Done (ret, e, buffer)
  else
    '(ret, e, buffer) ← (if retransmit_list e is [] then Done (0, e, buffer)
                         else generate_retx_pdu e buffer size);
    if negb (ret =? 0) then Done (ret, e, buffer)
    else generate_tx_pdu e buffer size now.

(** ** SDU RX functions *)

Definition nr_rlc_entity_am_recv_sdu (e : nr_rlc_entity_am_t) (buffer : list Z)
    (size sdu_id now : Z) : outcome nr_rlc_entity_am_t :=
  let e := e <| stats; rxsdu_pkts ::= add32 1 |> in
  if size >? NR_SDU_MAX then Exit
  else
    let e := if negb (sdu_rejected e =? 0) && (t_current e >? u64 (t_log_buffer_full e + 1000))
             then e <| sdu_rejected := 0 |> <| t_log_buffer_full := t_current e |> else e in
    if tx_size e + size >? tx_maxsize e then Done (e <| sdu_rejected ::= Z.add 1 |>)
    else
      let e := e <| tx_size ::= Z.add size |> <| stats; rxsdu_bytes ::= add64 size |> in
      '(sdu, h) ← nr_rlc_new_sdu (heap e) buffer size sdu_id;
      '(l, en) ← nr_rlc_sdu_segment_list_append (tx_list e) (tx_end e) sdu;
      let e := e <| heap := h |> <| tx_list := l |> <| tx_end := en |>
                 <| bstatus; bs_tx_size ::= Z.add (compute_pdu_header_size e sdu + seg_size sdu) |> in
      if avg_time_is_on e then
        u ← sdu_of h sdu;
        Done (e <| heap := set_sdu h (seg_sdu sdu) (u <| sdu_time_of_arrival := now |>) |>)
      else Done e.

(** ** Timers *)

(** [do { ... } while (cur != NULL && cur->sdu->sn == retransmit_sn)]: the first
    segment of [l] and those of the same SN go to the retransmit list. *)
Fixpoint retransmit_head (first : bool) (l : list nr_rlc_sdu_segment_t) (sn : Z)
    (e : nr_rlc_entity_am_t) : outcome nr_rlc_entity_am_t :=
  match l with
  | [] => Done e
  | cur :: next =>
      u ← sdu_of (heap e) cur;
      if first || (sdu_sn u =? sn) then
        let e := e <| wait_list := next |> in
        let e := if next is [] then e <| wait_end := None |> else e in
        let e := e <| bstatus; bs_retx_size ::= Z.add (compute_pdu_header_size e cur + seg_size cur) |> in
        r ← nr_rlc_sdu_segment_list_add (heap e) (sn_compare_tx e) (retransmit_list e) cur;
        retransmit_head false next sn (e <| retransmit_list := r |>)
      else Done e
  end.

Definition check_t_poll_retransmit (e : nr_rlc_entity_am_t) : outcome nr_rlc_entity_am_t :=
  if (t_poll_retransmit_start e =? 0)
     || (t_current e <=? u64 (t_poll_retransmit_start e + u64 (t_poll_retransmit e)))
  then Done e
  else
    let e := e <| t_poll_retransmit_start := 0 |> <| force_poll := true |> in
    if negb (check_poll_after_pdu_assembly e) then Done e
    else match wait_list e with
    | [] => Undef
    | cur :: _ =>
        u ← sdu_of (heap e) cur;
        let u := u <| sdu_retx_count ::= Z.add 1 |> in
        let e := e <| heap ::= fun h => set_sdu h (seg_sdu cur) u |> in
        e ← retransmit_head true (wait_list e) (sdu_sn u) e;
        Done (if sdu_retx_count u >=? max_retx_threshold e
              then e <| trace ::= fun t => t ++ [MaxRetxReached] |> else e)
    end.

Definition check_t_reassembly (e : nr_rlc_entity_am_t) : outcome nr_rlc_entity_am_t :=
  if (t_reassembly_start e =? 0)
     || (t_current e <=? u64 (t_reassembly_start e + u64 (t_reassembly e)))
  then Done e
  else
    let e := e <| t_reassembly_start := 0 |> in
    sn ← next_undelivered (rx_list e) (sn_modulus e) (rx_next_status_trigger e);
    let e := e <| rx_highest_status := sn |> <| status_triggered := true |> in
    let next := Z.rem (rx_highest_status e + 1) (sn_modulus e) in
    if (sn_compare_rx e (rx_next_highest e) next >? 0)
       || ((rx_next_highest e =? next) && sdu_has_missing_bytes e (rx_highest_status e))
    then Done (e <| t_reassembly_start := t_current e |>
                 <| rx_next_status_trigger := rx_next_highest e |>)
    else Done e.

Definition nr_rlc_entity_am_set_time (e : nr_rlc_entity_am_t) (now : Z)
  : outcome nr_rlc_entity_am_t :=
  let e := e <| t_current := now |> in
  e ← check_t_poll_retransmit e;
  check_t_reassembly e.

(** ** Discard, re-establishment, delete *)

Definition nr_rlc_entity_am_discard_sdu (e : nr_rlc_entity_am_t) (sdu_id : Z)
  : outcome nr_rlc_entity_am_t :=
  '(pre, x) ← find_sdu (heap e) sdu_id (tx_list e);
  match x with
  | None => Done e
  | Some (cur, post) =>
      if negb (seg_is_first cur) || negb (seg_is_last cur) then Done e
      else
        let e := e <| tx_list := pre ++ post |> in
        let e := if bool_decide (tx_end e = Some (seg_id cur))
                 then e <| tx_end := seg_end pre |> else e in
        let e := e <| bstatus; bs_tx_size ::= fun x =>
                   x - (compute_pdu_header_size e cur + seg_size cur) |> in
        u ← sdu_of (heap e) cur;
        let e := e <| tx_size ::= fun x => x - sdu_size u |> in
        '(_, h) ← nr_rlc_free_sdu_segment (heap e) cur;
        Done (e <| heap := h |>)
  end.

Definition clear_entity (e : nr_rlc_entity_am_t) : outcome nr_rlc_entity_am_t :=
  let e := e <| rx_next := 0 |> <| rx_next_status_trigger := 0 |> <| rx_highest_status := 0 |>
             <| rx_next_highest := 0 |> <| status_triggered := false |>
             <| tx_next := 0 |> <| tx_next_ack := 0 |> <| poll_sn := 0 |> <| pdu_without_poll := 0 |>
             <| byte_without_poll := 0 |> <| force_poll := false |> <| t_current := 0 |>
             <| t_log_buffer_full := 0 |> <| sdu_rejected := 0 |> <| t_poll_retransmit_start := 0 |>
             <| t_reassembly_start := 0 |> <| t_status_prohibit_start := 0 |>
             <| rx_list := [] |> <| rx_size := 0 |> in
  h ← nr_rlc_free_sdu_segment_list (heap e) (tx_list e);
  h ← nr_rlc_free_sdu_segment_list h (wait_list e);
  h ← nr_rlc_free_sdu_segment_list h (retransmit_list e);
  Done (e <| heap := h |> <| tx_list := [] |> <| tx_end := None |> <| tx_size := 0 |>
          <| wait_list := [] |> <| wait_end := None |> <| retransmit_list := [] |>
          <| bstatus; bs_tx_size := 0 |> <| bstatus; bs_retx_size := 0 |>).

Definition nr_rlc_entity_am_reestablishment (e : nr_rlc_entity_am_t)
  : outcome nr_rlc_entity_am_t := clear_entity e.

Definition nr_rlc_entity_am_delete (e : nr_rlc_entity_am_t) : outcome sdu_heap :=
  e ← clear_entity e; Done (heap e).

Definition nr_rlc_entity_am_available_tx_space (e : nr_rlc_entity_am_t) : Z :=
  tx_maxsize e - tx_size e.

(** ** The poll timer and the empty wait list *)

(** The poll timer with an empty wait list.  When [t_poll_retransmit] expires
    while the wait list is empty, and either nothing is left to send or the
    window is stalled, [check_t_poll_retransmit] dereferences the NULL head of
    the wait list. *)
Theorem am_poll_timer_empty_wait (e : nr_rlc_entity_am_t) (now : Z) :
  wait_list e = [] -> t_poll_retransmit_start e <> 0 ->
  u64 (t_poll_retransmit_start e + u64 (t_poll_retransmit e)) < now ->
  (tx_list e = [] /\ retransmit_list e = []) \/ is_window_stalling e = true ->
  nr_rlc_entity_am_set_time e now = Undef.
Proof.
  intros Hw Hs Ht Hp. unfold nr_rlc_entity_am_set_time, check_t_poll_retransmit.
  change (t_poll_retransmit_start (e <| t_current := now |>)) with (t_poll_retransmit_start e).
  change (t_poll_retransmit (e <| t_current := now |>)) with (t_poll_retransmit e).
  change (t_current (e <| t_current := now |>)) with now.
  rewrite (proj2 (Z.eqb_neq _ _) Hs), (proj2 (Z.leb_gt _ _) Ht). cbn [orb].
  set (e1 := e <| t_current := now |> <| t_poll_retransmit_start := 0 |> <| force_poll := true |>).
  assert (Hc : check_poll_after_pdu_assembly e1 = true).
  { unfold check_poll_after_pdu_assembly.
    change (tx_list e1) with (tx_list e). change (retransmit_list e1) with (retransmit_list e).
    change (is_window_stalling e1) with (is_window_stalling e).
    destruct Hp as [[-> ->]| ->]; [done|]. by rewrite orb_true_r. }
  rewrite Hc. cbn [negb]. change (wait_list e1) with (wait_list e). by rewrite Hw.
Qed.
