(* ===== verification/RlcAmRun.v ===== *)
(** The RLC entity in acknowledged mode, part 5: runs of the whole entity. *)

From S2P Require Import Prelude RlcPdu RlcSdu RlcRx RlcAm RlcAmCtrl RlcAmStatus RlcAmTx.

(** The calls the layers around the entity make. *)
Inductive am_op :=
| AmSend (buf : list Z) (id now : Z)
| AmGrant (buf : list Z) (now : Z)
| AmRecv (buf : list Z)
| AmTime (now : Z)
| AmDiscard (id : Z)
| AmReestablish.

Definition am_do (e : nr_rlc_entity_am_t) (o : am_op) : outcome nr_rlc_entity_am_t :=
  match o with
  | AmSend buf id now => nr_rlc_entity_am_recv_sdu e buf (Z.of_nat (length buf)) id now
  | AmGrant buf now =>
      '(_, e, _) ← nr_rlc_entity_am_generate_pdu e buf (Z.of_nat (length buf)) now; Done e
  | AmRecv buf => nr_rlc_entity_am_recv_pdu e buf (Z.of_nat (length buf))
  | AmTime now => nr_rlc_entity_am_set_time e now
  | AmDiscard id => nr_rlc_entity_am_discard_sdu e id
  | AmReestablish => nr_rlc_entity_am_reestablishment e
  end.

Fixpoint am_run (e : nr_rlc_entity_am_t) (l : list am_op) : outcome nr_rlc_entity_am_t :=
  match l with
  | [] => Done e
  | o :: l => e ← am_do e o; am_run e l
  end.

(** ** The poll timer and the empty wait list *)

(** Two SDUs are sent, the first one is missing and sent again with a poll; the
    STATUS PDU that acknowledges it is not about the poll SN, so that it does not stop the timer. *)
Definition poll_run : list am_op :=
  [AmTime 1; AmSend [7] 70 1; AmSend [8] 71 1; AmGrant [0; 0; 0] 1; AmGrant [0; 0; 0] 1;
   AmRecv [0x00; 0x02; 0x80; 0x00; 0x00]; AmGrant [0; 0; 0] 1; AmRecv [0x00; 0x01; 0x00]].

Lemma am_poll_timer_empty_wait_witness :
  exists e0 e, new_nr_rlc_entity_am 100 100 45 35 0 (-1) (-1) 8 12 = Done e0 /\ am_run e0 poll_run = Done e /\
    trace e = [SduSuccessfulDelivery 71; SduSuccessfulDelivery 70] /\
    nr_rlc_entity_am_set_time e 47 = Undef.
Proof.
  do 2 eexists. do 2 (split; [vm_compute; reflexivity|]). split; [reflexivity|].
  apply am_poll_timer_empty_wait; [reflexivity|done|reflexivity|by left].
Defined.

(** ** A STATUS PDU whose NACK is not below its ACK *)

(** Two SDUs are NACKed, then NACK 1, bytes 5 to 9, with ACK 1. *)
Definition lost_run : list am_op :=
  [AmTime 1; AmSend [7] 70 1; AmSend [8] 71 1; AmGrant [0; 0; 0] 1; AmGrant [0; 0; 0] 1;
   AmRecv [0x00; 0x02; 0x80; 0x00; 0x02; 0x02];
   AmRecv [0x00; 0x01; 0x80; 0x00; 0x14; 0x00; 0x05; 0x00; 0x09]].

(** A NACK that is not below the ACK loses an SDU.  The STATUS PDU passes the
    validation, but its processing drops the segments left in the retransmit list:
    SDU 71 has not been delivered, no list holds it any more, it is still counted
    in the buffer and in the buffer status, and no grant, of any size, sends
    anything. *)
Theorem am_nack_at_ack_loses_sdu :
  exists e0 e, new_nr_rlc_entity_am 100 100 45 35 0 (-1) (-1) 8 12 = Done e0 /\
    am_run e0 lost_run = Done e /\
    trace e = [SduSuccessfulDelivery 70] /\
    tx_list e = [] /\ wait_list e = [] /\ retransmit_list e = [] /\
    nr_rlc_entity_am_buffer_status e 1000 = Done (mk_bs 0 0 3) /\
    nr_rlc_entity_am_available_tx_space e = 99 /\
    (forall buf now, nr_rlc_entity_am_generate_pdu e buf (Z.of_nat (length buf)) now = Done (0, e, buf)).
Proof.
  do 2 eexists. do 2 (split; [vm_compute; reflexivity|]).
  split_and!; vm_compute; reflexivity.
Qed.
