(* ===== verification/PdcpSec.v ===== *)
(** Security of the PDCP layer (openair2/LAYER2/nr_pdcp/nr_pdcp_security_nea2.c,
    nr_pdcp_integrity_nia1.c and nr_pdcp_integrity_nia2.c, with the data formats
    of openair3/SECU/aes_128.h).

    The ciphers themselves are the interface [Crypto]: OpenSSL's AES-128 in
    counter mode and CMAC, and the 128-EIA1 code (SNOW 3G), which is not part of
    the model.  [CryptoLaws] has what the PDCP layer relies on. *)

From S2P Require Import Prelude.

Class Crypto := {
  (** [EVP_EncryptUpdate] with [EVP_aes_128_ctr()]: key, IV, message *)
  EVP_aes_128_ctr : list Z -> list Z -> list Z -> list Z;
  (** OpenSSL's CMAC with "aes128": key, message *)
  EVP_aes_128_cmac : list Z -> list Z -> list Z;
  (** [stream_compute_integrity(EIA1_128_ALG_ID, ...)]: key, count, bearer,
      direction, message *)
  stream_compute_integrity_eia1 : list Z -> Z -> Z -> Z -> list Z -> list Z
}.

(** In counter mode encryption and decryption are the same exclusive or with a
    key stream; the CMAC is a block, 128-EIA1 gives 32 bits. *)
Class CryptoLaws (C : Crypto) : Prop := {
  ctr_length k iv m : length (EVP_aes_128_ctr k iv m) = length m;
  ctr_involutive k iv m : Forall is_byte m -> EVP_aes_128_ctr k iv (EVP_aes_128_ctr k iv m) = m;
  ctr_bytes k iv m : Forall is_byte m -> Forall is_byte (EVP_aes_128_ctr k iv m);
  cmac_length k m : length (EVP_aes_128_cmac k m) = 16%nat;
  cmac_bytes k m : Forall is_byte (EVP_aes_128_cmac k m);
  eia1_length k c b d m : length (stream_compute_integrity_eia1 k c b d m) = 4%nat;
  eia1_bytes k c b d m : Forall is_byte (stream_compute_integrity_eia1 k c b d m)
}.

(** [htonl]: the bytes of a 32-bit number, most significant first. *)
Definition be32 (z : Z) : list Z :=
  let z := u32 z in [Z.shiftr z 24; u8 (Z.shiftr z 16); u8 (Z.shiftr z 8); u8 z].

(** The bit fields padding:2, direction:1 and bearer:5 of [data_iv8_t] and [data_iv16_t]. *)
Definition iv_bearer (bearer direction : Z) : Z :=
  Z.lor (Z.shiftl (Z.land (bearer - 1) 31) 3) (Z.shiftl (Z.land direction 1) 2).
Definition data_iv8 (count bearer direction : Z) : list Z :=
  be32 count ++ [iv_bearer bearer direction; 0; 0; 0].
Definition data_iv16 (count bearer direction : Z) : list Z :=
  be32 count ++ iv_bearer bearer direction :: replicate 11 0.

Section Algorithms.
Context `{Crypto}.

(** The buffer is ciphered in place: [buffer] are its [length] bytes, [count] the
    value of the [int] argument. *)
Definition nr_pdcp_security_nea2_cipher (key buffer : list Z) (length bearer count direction : Z)
  : outcome (list Z) :=
  if negb (length >? 0) then Exit
  else if negb ((bearer >? -1) && (bearer <? 32)) then Exit
  else if negb ((direction >? -1) && (direction <? 2)) then Exit
  else if negb (count >? -1) then Exit
  else Done (EVP_aes_128_ctr key (data_iv16 count bearer direction) buffer).

Definition nr_pdcp_integrity_nia2_integrity (key buffer : list Z) (length bearer count direction : Z)
  : outcome (list Z) :=
  if negb (length >? -1) then Exit
  else if negb ((bearer >? 0) && (bearer <? 33)) then Exit
  else if negb (count >? -1) then Exit
  else Done (take 4 (EVP_aes_128_cmac key (data_iv8 count bearer direction ++ buffer))).

Definition nr_pdcp_integrity_nia1_integrity (key buffer : list Z) (bearer count direction : Z)
  : outcome (list Z) :=
  Done (stream_compute_integrity_eia1 key count (bearer - 1) direction buffer).
End Algorithms.

(** ** An instance

    The exclusive or with a key byte, and checksums: enough to run the model. *)
Definition toy_sum (l : list Z) : Z := foldr (fun b a => u8 (3 * a + b + 1)) 0 l.

Definition toy_crypto : Crypto := {|
  EVP_aes_128_ctr k iv m := (fun b => Z.lxor b (toy_sum (k ++ iv))) <$> m;
  EVP_aes_128_cmac k m := replicate 16 (toy_sum (k ++ m));
  stream_compute_integrity_eia1 k c b d m := replicate 4 (toy_sum (k ++ be32 c ++ u8 b :: u8 d :: m))
|}.

Lemma toy_sum_byte l : is_byte (toy_sum l).
Proof. destruct l; unfold is_byte; [done|]. by apply Z.mod_pos_bound. Qed.

Lemma lxor_byte a b : is_byte a -> is_byte b -> is_byte (Z.lxor a b).
Proof.
  unfold is_byte. intros Ha Hb. assert (H0 : 0 <= Z.lxor a b) by (apply Z.lxor_nonneg; lia).
  split; [done|]. destruct (decide (Z.lxor a b = 0)) as [->|Hz]; [lia|].
  assert (La : Z.log2 a <= 7) by (destruct (decide (a = 0)) as [->|]; [done|]; assert (Z.log2 a < 8); [apply Z.log2_lt_pow2; lia|lia]).
  assert (Lb : Z.log2 b <= 7) by (destruct (decide (b = 0)) as [->|]; [done|]; assert (Z.log2 b < 8); [apply Z.log2_lt_pow2; lia|lia]).
  pose proof (Z.log2_lxor a b ltac:(lia) ltac:(lia)).
  change 256 with (2 ^ 8). apply Z.log2_lt_pow2; lia.
Qed.

#[export] Instance toy_crypto_laws : CryptoLaws toy_crypto.
Proof.
  split; intros; cbn -[replicate toy_sum].
  - by rewrite length_fmap.
  - rewrite <- list_fmap_compose. rewrite <- (list_fmap_id m) at 2.
    apply list_fmap_ext. intros i b _. simpl. by rewrite Z.lxor_assoc, Z.lxor_nilpotent, Z.lxor_0_r.
  - apply Forall_fmap. eapply Forall_impl; [exact H|]. intros b Hb. apply lxor_byte; [done|apply toy_sum_byte].
  - by rewrite length_replicate.
  - apply Forall_replicate, toy_sum_byte.
  - by rewrite length_replicate.
  - apply Forall_replicate, toy_sum_byte.
Qed.
