(* ===== verification/Pdcp.v ===== *)
(** The PDCP entity (openair2/LAYER2/nr_pdcp/nr_pdcp_entity.c and .h,
    nr_pdcp_sdu.c and nr_pdcp_integrity_data.h): its data and operations. *)

From S2P Require Import Prelude PdcpSec.

(** ** SDUs that wait for their delivery *)

Record nr_pdcp_integrity_data_t := mk_integrity_data {
  mi_count : Z;
  mi_mac : list Z;
  mi_header_size : Z;
  mi_header : list Z
}.
#[export] Instance eta_integrity_data : Eta nr_pdcp_integrity_data_t := fun r =>
  mk_integrity_data (mi_count r) (mi_mac r) (mi_header_size r) (mi_header r).

Record nr_pdcp_sdu_t := mk_pdcp_sdu {
  sdu_count : Z;
  sdu_buffer : list Z;
  sdu_size : Z;
  sdu_msg_integrity : nr_pdcp_integrity_data_t
}.

Definition nr_pdcp_new_sdu (count : Z) (buffer : list Z) (size : Z) (mi : nr_pdcp_integrity_data_t)
  : outcome nr_pdcp_sdu_t :=
  b ← slice buffer 0 size; Done (mk_pdcp_sdu count b size mi).

(** The list is ordered by 'count'. *)
Definition nr_pdcp_sdu_list_add (l : list nr_pdcp_sdu_t) (sdu : nr_pdcp_sdu_t) : list nr_pdcp_sdu_t :=
  insert_before (fun cur => sdu_count sdu <? sdu_count cur) sdu l.

Fixpoint nr_pdcp_sdu_in_list (l : list nr_pdcp_sdu_t) (count : Z) : bool :=
  match l with
  | [] => false
  | s :: r => if sdu_count s =? count then true else nr_pdcp_sdu_in_list r count
  end.

(** ** The entity *)

Inductive nr_pdcp_entity_type_t := NR_PDCP_DRB_AM | NR_PDCP_DRB_UM | NR_PDCP_SRB.
#[export] Instance entity_type_eq_dec : EqDecision nr_pdcp_entity_type_t.
Proof. solve_decision. Defined.

Record nr_pdcp_entity_security_keys_and_algos_t := mk_keys {
  integrity_algorithm : Z;
  ciphering_algorithm : Z;
  integrity_key : list Z;
  ciphering_key : list Z
}.
#[export] Instance eta_keys : Eta nr_pdcp_entity_security_keys_and_algos_t := fun r =>
  mk_keys (integrity_algorithm r) (ciphering_algorithm r) (integrity_key r) (ciphering_key r).

Record nr_pdcp_statistics_t := mk_pdcp_stats {
  txpdu_pkts : Z; txpdu_bytes : Z; txpdu_sn : Z;
  rxpdu_pkts : Z; rxpdu_bytes : Z; rxpdu_sn : Z;
  rxpdu_dd_pkts : Z; rxpdu_dd_bytes : Z;
  txsdu_pkts : Z; txsdu_bytes : Z;
  rxsdu_pkts : Z; rxsdu_bytes : Z
}.
#[export] Instance eta_pdcp_stats : Eta nr_pdcp_statistics_t := fun r =>
  mk_pdcp_stats (txpdu_pkts r) (txpdu_bytes r) (txpdu_sn r) (rxpdu_pkts r) (rxpdu_bytes r) (rxpdu_sn r)
    (rxpdu_dd_pkts r) (rxpdu_dd_bytes r) (txsdu_pkts r) (txsdu_bytes r) (rxsdu_pkts r) (rxsdu_bytes r).

(** The entity.  The counters of the statistics that no function updates and
    [rx_maxsize], which no function reads, are left out.
    [integrity_ctx] stands for the fields [integrity], [integrity_context] and
    [free_integrity]: the algorithm and the key the context has been made with.
    [cipher_ctx] stands for [cipher], [security_context] and [free_security]; the
    context of nea2 is a pointer to the key of the entity.  [delivered] are the
    SDUs given to [deliver_sdu] so far. *)
Record nr_pdcp_entity_t := mk_pdcp {
  type : nr_pdcp_entity_type_t;
  rb_id : Z;
  pdusession_id : Z;
  has_sdap_rx : bool;
  has_sdap_tx : bool;
  sn_size : Z;
  t_reordering : Z;
  discard_timer : Z;
  sn_max : Z;
  window_size : Z;
  tx_next : Z;
  rx_next : Z;
  rx_deliv : Z;
  rx_reord : Z;
  t_current : Z;
  t_reordering_start : Z;
  has_ciphering : bool;
  has_integrity : bool;
  security_keys_and_algos : nr_pdcp_entity_security_keys_and_algos_t;
  cipher_ctx : bool;
  integrity_ctx : option (Z * list Z);
  is_gnb : bool;
  rx_list : list nr_pdcp_sdu_t;
  rx_size : Z;
  stats : nr_pdcp_statistics_t;
  entity_suspended : bool;
  delivered : list nr_pdcp_sdu_t
}.
#[export] Instance eta_pdcp : Eta nr_pdcp_entity_t := fun r =>
  mk_pdcp (type r) (rb_id r) (pdusession_id r) (has_sdap_rx r) (has_sdap_tx r) (sn_size r)
    (t_reordering r) (discard_timer r) (sn_max r) (window_size r) (tx_next r) (rx_next r) (rx_deliv r)
    (rx_reord r) (t_current r) (t_reordering_start r) (has_ciphering r) (has_integrity r)
    (security_keys_and_algos r) (cipher_ctx r) (integrity_ctx r) (is_gnb r) (rx_list r) (rx_size r)
    (stats r) (entity_suspended r) (delivered r).

Definition SHORT_SN_SIZE : Z := 12.
Definition LONG_SN_SIZE : Z := 18.
Definition SHORT_PDCP_HEADER_SIZE : Z := 2.
Definition LONG_PDCP_HEADER_SIZE : Z := 3.
Definition PDCP_INTEGRITY_SIZE : Z := 4.

Definition nr_max_pdcp_pdu_size (sdu_size : Z) : Z :=
  sdu_size + LONG_PDCP_HEADER_SIZE + PDCP_INTEGRITY_SIZE.

(** ** Delivery *)

(** The body of the delivery loops: the head [cur] of the list is delivered and freed. *)
Definition deliver_head (e : nr_pdcp_entity_t) (cur : nr_pdcp_sdu_t) (next : list nr_pdcp_sdu_t)
  : nr_pdcp_entity_t :=
  e <| delivered ::= fun l => l ++ [cur] |> <| rx_list := next |>
    <| rx_size ::= fun x => x - sdu_size cur |>
    <| stats; txsdu_pkts ::= add32 1 |> <| stats; txsdu_bytes ::= add32 (sdu_size cur) |>.

(** [while (rx_list != NULL && count == rx_list->count)]; the entity and [count]. *)
Fixpoint deliver_from (l : list nr_pdcp_sdu_t) (e : nr_pdcp_entity_t) (count : Z)
  : nr_pdcp_entity_t * Z :=
  match l with
  | [] => (e, count)
  | cur :: next =>
      if count =? sdu_count cur then deliver_from next (deliver_head e cur next) (u32 (count + 1))
      else (e, count)
  end.

(** [while (rx_list != NULL && rx_list->count < rx_reord)] *)
Fixpoint deliver_below (l : list nr_pdcp_sdu_t) (e : nr_pdcp_entity_t) (reord : Z) : nr_pdcp_entity_t :=
  match l with
  | [] => e
  | cur :: next =>
      if sdu_count cur <? reord then deliver_below next (deliver_head e cur next) reord else e
  end.

Fixpoint deliver_list (l : list nr_pdcp_sdu_t) (e : nr_pdcp_entity_t) : nr_pdcp_entity_t :=
  match l with
  | [] => e
  | cur :: next => deliver_list next (deliver_head e cur next)
  end.
Definition deliver_all_sdus (e : nr_pdcp_entity_t) : nr_pdcp_entity_t := deliver_list (rx_list e) e.

(** ** Security calls

    [entity->cipher] and [entity->integrity]; the COUNT is passed as an [int]. *)
Section Entity.
Context `{Crypto}.

Definition cipher (e : nr_pdcp_entity_t) (buffer : list Z) (length bearer count direction : Z)
  : outcome (list Z) :=
  if cipher_ctx e
  then nr_pdcp_security_nea2_cipher (ciphering_key (security_keys_and_algos e)) buffer length bearer
         (s32 count) direction
  else Undef.

Definition integrity (e : nr_pdcp_entity_t) (buffer : list Z) (length bearer count direction : Z)
  : outcome (list Z) :=
  match integrity_ctx e with
  | Some (alg, key) =>
      if alg =? 2 then nr_pdcp_integrity_nia2_integrity key buffer length bearer (s32 count) direction
      else nr_pdcp_integrity_nia1_integrity key buffer bearer (s32 count) direction
  | None => Undef
  end.

(** ** Reception *)

Definition header_size_of (e : nr_pdcp_entity_t) : Z :=
  if sn_size e =? SHORT_SN_SIZE then SHORT_PDCP_HEADER_SIZE else LONG_PDCP_HEADER_SIZE.

(** SRBs always have MAC-I, even if integrity is not active. *)
Definition integrity_size_of (e : nr_pdcp_entity_t) : Z :=
  if has_integrity e || bool_decide (type e = NR_PDCP_SRB) then PDCP_INTEGRITY_SIZE else 0.

Definition read_sn (e : nr_pdcp_entity_t) (buffer : list Z) : outcome Z :=
  b0 ← rd buffer 0;
  b1 ← rd buffer 1;
  if sn_size e =? SHORT_SN_SIZE
  then Done (Z.lor (Z.shiftl (Z.land b0 0xf) 8) b1)
  else b2 ← rd buffer 2;
       Done (Z.lor (Z.lor (Z.shiftl (Z.land b0 0x3) 16) (Z.shiftl b1 8)) b2).

(** The COUNT of a received SN, from RX_DELIV. *)
Definition infer_count (e : nr_pdcp_entity_t) (rcvd_sn : Z) : Z :=
  let rx_deliv_sn := Z.land (rx_deliv e) (sn_max e) in
  let rx_deliv_hfn := Z.shiftr (rx_deliv e) (sn_size e) in
  let rcvd_hfn :=
    if rcvd_sn <? rx_deliv_sn - window_size e then u32 (rx_deliv_hfn + 1)
    else if rcvd_sn >=? rx_deliv_sn + window_size e then u32 (rx_deliv_hfn - 1)
    else rx_deliv_hfn in
  Z.lor (u32 (Z.shiftl rcvd_hfn (sn_size e))) rcvd_sn.

Definition discard_rx (e : nr_pdcp_entity_t) (size : Z) : nr_pdcp_entity_t :=
  e <| stats; rxpdu_dd_pkts ::= add32 1 |> <| stats; rxpdu_dd_bytes ::= add32 size |>.

(** From the storage of the SDU to the end of [nr_pdcp_entity_recv_pdu]. *)
Definition store_sdu (e : nr_pdcp_entity_t) (sdu : nr_pdcp_sdu_t) (stored : Z) : nr_pdcp_entity_t :=
  let rcvd_count := sdu_count sdu in
  let e := e <| rx_list ::= fun l => nr_pdcp_sdu_list_add l sdu |> <| rx_size ::= Z.add stored |> in
  let e := if rcvd_count >=? rx_next e then e <| rx_next := u32 (rcvd_count + 1) |> else e in
  let e := if rcvd_count =? rx_deliv e then
             let '(e, count) := deliver_from (rx_list e) e (rx_deliv e) in e <| rx_deliv := count |>
           else e in
  let e := if negb (t_reordering_start e =? 0) && (rx_deliv e >=? rx_reord e)
           then e <| t_reordering_start := 0 |> else e in
  if (t_reordering_start e =? 0) && (rx_deliv e <? rx_next e)
  then e <| rx_reord := rx_next e |> <| t_reordering_start := t_current e |> else e.

(** The security part: the deciphered buffer, or None when the integrity fails. *)
Definition unprotect (e : nr_pdcp_entity_t) (buffer : list Z) (size off integrity_size rcvd_count : Z)
  : outcome (option (list Z)) :=
  let direction := if is_gnb e then 0 else 1 in
  buffer ← (if has_ciphering e then
              part ← slice buffer off (size - off);
              part ← cipher e part (size - off) (rb_id e) rcvd_count direction;
              blit buffer off part
            else Done buffer);
  if has_integrity e then
    part ← slice buffer 0 (size - integrity_size);
    mac ← integrity e part (size - integrity_size) (rb_id e) rcvd_count direction;
    received ← slice buffer (size - integrity_size) PDCP_INTEGRITY_SIZE;
    if bool_decide (mac = received) then Done (Some buffer) else Done None
  else Done (Some buffer).

Definition nr_pdcp_entity_recv_pdu (e : nr_pdcp_entity_t) (buffer : list Z) (size : Z)
  : outcome nr_pdcp_entity_t :=
  if entity_suspended e then Done e
  else if size <? 1 then Done e
  else
    b0 ← rd buffer 0;
    buffer ← (if negb (bool_decide (type e = NR_PDCP_SRB)) && (Z.land b0 0x80 =? 0)
              then wr buffer 0 (Z.lor b0 128) else Done buffer);
    let e := e <| stats; rxpdu_pkts ::= add32 1 |> <| stats; rxpdu_bytes ::= add32 size |> in
    let sdap_header_size := if has_sdap_rx e then 1 else 0 in
    rcvd_sn ← read_sn e buffer;
    let header_size := header_size_of e in
    let e := e <| stats; rxpdu_sn := rcvd_sn |> in
    let integrity_size := integrity_size_of e in
    if size <? header_size + sdap_header_size + integrity_size + 1 then Done (discard_rx e size)
    else
      let rcvd_count := infer_count e rcvd_sn in
      msg_integrity ←
        (if has_integrity e || bool_decide (type e = NR_PDCP_SRB) then
           mac ← slice buffer (size - 4) 4;
           header ← slice buffer 0 header_size;
           Done (mk_integrity_data rcvd_count mac header_size
                   (header ++ replicate (Z.to_nat (3 - header_size)) 0))
         else Done (mk_integrity_data 0 (replicate 4 0) 0 (replicate 3 0)));
      r ← unprotect e buffer size (header_size + sdap_header_size) integrity_size rcvd_count;
      match r with
      | None => Done (discard_rx e size)
      | Some buffer =>
          if (rcvd_count <? rx_deliv e) || nr_pdcp_sdu_in_list (rx_list e) rcvd_count
          then Done (discard_rx e size)
          else
            data ← slice buffer header_size (size - header_size - integrity_size);
            sdu ← nr_pdcp_new_sdu rcvd_count data (size - header_size - integrity_size) msg_integrity;
            Done (store_sdu e sdu (size - header_size))
      end.

(** ** Transmission *)

(** The header is written in the PDU buffer. *)
Definition write_sn (e : nr_pdcp_entity_t) (buf : list Z) (sn : Z) : outcome (list Z) :=
  let dc_bit := if bool_decide (type e = NR_PDCP_DRB_AM) || bool_decide (type e = NR_PDCP_DRB_UM)
                then 0x80 else 0 in
  if sn_size e =? SHORT_SN_SIZE then
    buf ← wr buf 0 (Z.lor dc_bit (Z.land (Z.shiftr sn 8) 0xf));
    wr buf 1 (Z.land sn 0xff)
  else
    buf ← wr buf 0 (Z.lor dc_bit (Z.land (Z.shiftr sn 16) 0x3));
    buf ← wr buf 1 (Z.land (Z.shiftr sn 8) 0xff);
    wr buf 2 (Z.land sn 0xff).

(** Returns the size of the PDU (-1 when the entity is suspended), the entity and
    the PDU buffer. *)
Definition nr_pdcp_entity_process_sdu (e : nr_pdcp_entity_t) (buffer : list Z) (size : Z)
    (pdu_buffer : list Z) (pdu_max_size : Z) : outcome (Z * nr_pdcp_entity_t * list Z) :=
  if negb (nr_max_pdcp_pdu_size size <=? pdu_max_size) then Exit
  else if entity_suspended e then Done (-1, e, pdu_buffer)
  else
    let e := e <| stats; rxsdu_pkts ::= add32 1 |> <| stats; rxsdu_bytes ::= add32 size |> in
    let count := tx_next e in
    let sn := Z.land (tx_next e) (sn_max e) in
    let sdap_header_size := if has_sdap_tx e then 1 else 0 in
    buf ← write_sn e pdu_buffer sn;
    let header_size := header_size_of e in
    let integrity_size := integrity_size_of e in
    let direction := if is_gnb e then 1 else 0 in
    data ← slice buffer 0 size;
    buf ← blit buf header_size data;
    buf ← (if has_integrity e then
             part ← slice buf 0 (header_size + size);
             mac ← integrity e part (header_size + size) (rb_id e) count direction;
             mac ← slice mac 0 PDCP_INTEGRITY_SIZE;
             blit buf (header_size + size) mac
           else if integrity_size =? PDCP_INTEGRITY_SIZE then
             blit buf (header_size + size) (replicate 4 0)
           else Done buf);
    buf ← (if has_ciphering e then
             let off := header_size + sdap_header_size in
             let length := size + integrity_size - sdap_header_size in
             part ← (if length <=? 0 then Done [] else slice buf off length);
             part ← cipher e part length (rb_id e) count direction;
             blit buf off part
           else Done buf);
    let e := e <| tx_next := u32 (tx_next e + 1) |>
               <| stats; txpdu_pkts ::= add32 1 |>
               <| stats; txpdu_bytes ::= add32 (header_size + size + integrity_size) |>
               <| stats; txpdu_sn := sn |> in
    Done (header_size + size + integrity_size, e, buf).

Definition nr_pdcp_entity_check_integrity (e : nr_pdcp_entity_t) (buffer : list Z) (buffer_size : Z)
    (mi : nr_pdcp_integrity_data_t) : outcome bool :=
  if negb (has_integrity e) then Done false
  else
    header ← slice (mi_header mi) 0 (mi_header_size mi);
    data ← slice buffer 0 buffer_size;
    mac ← integrity e (header ++ data) (buffer_size + mi_header_size mi) (rb_id e) (mi_count mi)
            (if is_gnb e then 0 else 1);
    Done (bool_decide (mac = mi_mac mi)).
End Entity.

(** ** Security settings, timer, suspension, re-establishment *)

Definition nr_pdcp_entity_set_security (e : nr_pdcp_entity_t)
    (p : nr_pdcp_entity_security_keys_and_algos_t) : outcome nr_pdcp_entity_t :=
  let e := if negb (integrity_algorithm p =? -1)
           then e <| security_keys_and_algos; integrity_algorithm := integrity_algorithm p |>
                  <| security_keys_and_algos; integrity_key := integrity_key p |> else e in
  let e := if negb (ciphering_algorithm p =? -1)
           then e <| security_keys_and_algos; ciphering_algorithm := ciphering_algorithm p |>
                  <| security_keys_and_algos; ciphering_key := ciphering_key p |> else e in
  let e := if integrity_algorithm p =? 0
           then e <| has_integrity := false |> <| integrity_ctx := None |> else e in
  e ← (if negb (integrity_algorithm p =? 0) && negb (integrity_algorithm p =? -1) then
         if (integrity_algorithm p =? 2) || (integrity_algorithm p =? 1) then
           Done (e <| has_integrity := true |>
                   <| integrity_ctx := Some (integrity_algorithm p,
                                             integrity_key (security_keys_and_algos e)) |>)
         else Exit
       else Done e);
  let e := if ciphering_algorithm p =? 0
           then e <| has_ciphering := false |> <| cipher_ctx := false |> else e in
  if negb (ciphering_algorithm p =? 0) && negb (ciphering_algorithm p =? -1) then
    if negb (ciphering_algorithm p =? 2) then Exit
    else Done (e <| has_ciphering := true |> <| cipher_ctx := true |>)
  else Done e.

Definition check_t_reordering (e : nr_pdcp_entity_t) : nr_pdcp_entity_t :=
  if t_reordering e =? -1 then e
  else if (t_reordering_start e =? 0)
          || (t_current e <=? u64 (t_reordering_start e + u64 (t_reordering e))) then e
  else
    let e := e <| t_reordering_start := 0 |> in
    let e := deliver_below (rx_list e) e (rx_reord e) in
    let '(e, count) := deliver_from (rx_list e) e (rx_reord e) in
    let e := e <| rx_deliv := count |> in
    if rx_deliv e <? rx_next e
    then e <| rx_reord := rx_next e |> <| t_reordering_start := t_current e |> else e.

Definition nr_pdcp_entity_set_time (e : nr_pdcp_entity_t) (now : Z) : nr_pdcp_entity_t :=
  check_t_reordering (e <| t_current := now |>).

(** The suspension up to the delivery of the SDUs, and its end. *)
Definition suspend_deliver (e : nr_pdcp_entity_t) : nr_pdcp_entity_t :=
  let e := e <| tx_next := 0 |> in
  if negb (t_reordering_start e =? 0)
  then deliver_all_sdus (e <| t_reordering_start := 0 |>) else e.
Definition suspend_end (e : nr_pdcp_entity_t) : nr_pdcp_entity_t :=
  e <| rx_next := 0 |> <| rx_deliv := 0 |> <| entity_suspended := true |>.
Definition nr_pdcp_entity_suspend (e : nr_pdcp_entity_t) : nr_pdcp_entity_t :=
  suspend_end (suspend_deliver e).

Fixpoint count_freed (l : list nr_pdcp_sdu_t) (e : nr_pdcp_entity_t) : nr_pdcp_entity_t :=
  match l with
  | [] => e
  | cur :: next => count_freed next (discard_rx e (sdu_size cur))
  end.
Definition free_rx_list (e : nr_pdcp_entity_t) : nr_pdcp_entity_t :=
  count_freed (rx_list e) e <| rx_list := [] |> <| rx_size := 0 |>.

Definition nr_pdcp_entity_reestablish_drb_am (e : nr_pdcp_entity_t)
    (p : nr_pdcp_entity_security_keys_and_algos_t) : outcome nr_pdcp_entity_t :=
  e ← nr_pdcp_entity_set_security e p; Done (e <| entity_suspended := false |>).

Definition nr_pdcp_entity_reestablish_drb_um (e : nr_pdcp_entity_t)
    (p : nr_pdcp_entity_security_keys_and_algos_t) : outcome nr_pdcp_entity_t :=
  let e := e <| tx_next := 0 |> in
  let e := if negb (t_reordering_start e =? 0) then deliver_all_sdus e else e in
  let e := e <| t_reordering_start := 0 |> <| rx_next := 0 |> <| rx_deliv := 0 |> in
  e ← nr_pdcp_entity_set_security e p; Done (e <| entity_suspended := false |>).

Definition nr_pdcp_entity_reestablish_srb (e : nr_pdcp_entity_t)
    (p : nr_pdcp_entity_security_keys_and_algos_t) : outcome nr_pdcp_entity_t :=
  let e := free_rx_list (e <| tx_next := 0 |>) in
  let e := e <| t_reordering_start := 0 |> <| rx_next := 0 |> <| rx_deliv := 0 |> in
  e ← nr_pdcp_entity_set_security e p; Done (e <| entity_suspended := false |>).

(** [entity->reestablish_entity] *)
Definition reestablish_entity (e : nr_pdcp_entity_t) (p : nr_pdcp_entity_security_keys_and_algos_t)
  : outcome nr_pdcp_entity_t :=
  match type e with
  | NR_PDCP_DRB_AM => nr_pdcp_entity_reestablish_drb_am e p
  | NR_PDCP_DRB_UM => nr_pdcp_entity_reestablish_drb_um e p
  | NR_PDCP_SRB => nr_pdcp_entity_reestablish_srb e p
  end.

Definition nr_pdcp_entity_release (e : nr_pdcp_entity_t) : nr_pdcp_entity_t := deliver_all_sdus e.

(** The entity is freed; what is left is its receive list, empty. *)
Definition nr_pdcp_entity_delete (e : nr_pdcp_entity_t) : list nr_pdcp_sdu_t := rx_list (free_rx_list e).

Definition nr_pdcp_entity_get_stats (e : nr_pdcp_entity_t) : nr_pdcp_statistics_t := stats e.

Definition new_nr_pdcp_entity (ty : nr_pdcp_entity_type_t) (gnb : bool) (rb pdusession : Z)
    (sdap_rx sdap_tx : bool) (sn_bits t_reord discard : Z)
    (p : nr_pdcp_entity_security_keys_and_algos_t) : outcome nr_pdcp_entity_t :=
  nr_pdcp_entity_set_security
    (mk_pdcp ty rb pdusession sdap_rx sdap_tx sn_bits t_reord discard
       (Z.shiftl 1 sn_bits - 1) (Z.shiftl 1 (sn_bits - 1)) 0 0 0 0 0 0 false false
       (mk_keys 0 0 (replicate 16 0) (replicate 16 0)) false None gnb [] 0
       (mk_pdcp_stats 0 0 0 0 0 0 0 0 0 0 0 0) false []) p.
