(* ===== verification/PdcpRx.v ===== *)
(** The receiving side of the PDCP entity: the reordering window. *)

From stdpp Require Import sorting.
From S2P Require Import Prelude PdcpSec Pdcp.

(** ** The delivery loops *)

(** [e] after the delivery of [l1], [l2] being left. *)
Definition after_delivery (e e' : nr_pdcp_entity_t) (l1 l2 : list nr_pdcp_sdu_t) : Prop :=
  exists sz st, e' = e <| delivered ::= fun l => l ++ l1 |> <| rx_list := l2 |>
                       <| rx_size := sz |> <| stats := st |>.

Lemma after_delivery_nil e l : rx_list e = l -> after_delivery e e [] l.
Proof. intros <-. exists (rx_size e), (stats e). destruct e. simpl. by rewrite app_nil_r. Qed.

Lemma after_delivery_cons e e' cur next l1 l2 :
  after_delivery (deliver_head e cur next) e' l1 l2 -> after_delivery e e' (cur :: l1) l2.
Proof.
  intros (sz & st & ->). exists sz, st. unfold deliver_head. destruct e. simpl. by rewrite <- app_assoc.
Qed.

(** COUNTs from [c] on. *)
Fixpoint consecutive (c : Z) (l : list nr_pdcp_sdu_t) : Prop :=
  match l with
  | [] => True
  | s :: r => sdu_count s = c /\ consecutive (u32 (c + 1)) r
  end.

Lemma u32_id z : 0 <= z < 2 ^ 32 -> u32 z = z.
Proof. intros. unfold u32. by apply Z.mod_small. Qed.

Lemma u32_range z : 0 <= u32 z < 2 ^ 32.
Proof. by apply Z.mod_pos_bound. Qed.

Lemma u32_add_l a b : u32 (u32 a + b) = u32 (a + b).
Proof. unfold u32. by rewrite Zplus_mod_idemp_l. Qed.

Lemma deliver_from_spec : forall l e c,
  rx_list e = l -> 0 <= c < 2 ^ 32 ->
  exists l1 l2 e', deliver_from l e c = (e', u32 (c + Z.of_nat (length l1))) /\ l = l1 ++ l2 /\
    after_delivery e e' l1 l2 /\ consecutive c l1 /\
    match l2 with s :: _ => sdu_count s <> u32 (c + Z.of_nat (length l1)) | [] => True end.
Proof.
  induction l as [|cur next IH]; intros e c El Hc; cbn [deliver_from].
  - exists [], [], e. simpl. rewrite Z.add_0_r, (u32_id c) by done.
    split_and!; try done. by apply after_delivery_nil.
  - destruct (c =? sdu_count cur) eqn:E; zbool.
    + destruct (IH (deliver_head e cur next) (u32 (c + 1)) eq_refl (u32_range _))
        as (l1 & l2 & e' & -> & -> & Ha & Hk & Hn).
      assert (Hu : u32 (u32 (c + 1) + Z.of_nat (length l1)) = u32 (c + Z.of_nat (length (cur :: l1)))).
      { rewrite u32_add_l. f_equal. simpl. lia. }
      rewrite Hu in *. exists (cur :: l1), l2, e'. split_and!; try done. by eapply after_delivery_cons.
    + exists [], (cur :: next), e. simpl. rewrite Z.add_0_r, (u32_id c) by done.
      split_and!; try done. by apply after_delivery_nil.
Qed.

Lemma deliver_below_spec reord : forall l e,
  rx_list e = l ->
  exists l1 l2, l = l1 ++ l2 /\ after_delivery e (deliver_below l e reord) l1 l2 /\
    Forall (fun s => sdu_count s < reord) l1 /\
    match l2 with s :: _ => reord <= sdu_count s | [] => True end.
Proof.
  induction l as [|cur next IH]; intros e El; cbn [deliver_below].
  - exists [], []. split_and!; try done. by apply after_delivery_nil.
  - destruct (sdu_count cur <? reord) eqn:E; zbool.
    + destruct (IH (deliver_head e cur next) eq_refl) as (l1 & l2 & -> & Ha & Hk & Hn).
      exists (cur :: l1), l2. split_and!; try done; [by eapply after_delivery_cons|by constructor].
    + exists [], (cur :: next). split_and!; try done. by apply after_delivery_nil.
Qed.

(** ** The window *)

(** The COUNTs of a list of SDUs increase, within [lo, hi). *)
Definition counts_in (lo hi : Z) (l : list nr_pdcp_sdu_t) : Prop :=
  StronglySorted (fun s t => sdu_count s < sdu_count t) l /\
  Forall (fun s => lo <= sdu_count s < hi) l.

Lemma counts_in_app lo mid hi l1 l2 :
  counts_in lo mid l1 -> counts_in mid hi l2 -> lo <= mid <= hi -> counts_in lo hi (l1 ++ l2).
Proof.
  intros [S1 F1] [S2 F2] Hm. rewrite Forall_forall in F1, F2. split.
  - apply StronglySorted_app_2; [|done|done]. intros s t Hs Ht. specialize (F1 s Hs). specialize (F2 t Ht). lia.
  - apply Forall_app. split; apply Forall_forall; intros s Hs; [specialize (F1 s Hs)|specialize (F2 s Hs)]; lia.
Qed.

Lemma counts_in_split lo hi l1 l2 : counts_in lo hi (l1 ++ l2) -> counts_in lo hi l1 /\ counts_in lo hi l2.
Proof.
  intros [S F]. apply Forall_app in F as [F1 F2]. split; split; try done.
  - by eapply StronglySorted_app_1_l.
  - by eapply StronglySorted_app_1_r.
Qed.

(** No SDU with the largest COUNT: RX_DELIV has not wrapped around. *)
Definition no_wrap (l : list nr_pdcp_sdu_t) : Prop := Forall (fun s => sdu_count s < 2 ^ 32 - 1) l.

Lemma consecutive_counts : forall l c,
  consecutive c l -> no_wrap l -> 0 <= c < 2 ^ 32 ->
  c + Z.of_nat (length l) < 2 ^ 32 /\ counts_in c (c + Z.of_nat (length l)) l /\
  (forall i, c <= i < c + Z.of_nat (length l) -> exists s, s ∈ l /\ sdu_count s = i).
Proof.
  induction l as [|s l IH]; intros c Hk Hw Hc; simpl in Hk.
  - simpl. split_and!; [lia|split; constructor|intros; lia].
  - destruct Hk as [Hs Hk]. apply Forall_cons in Hw as [Hm Hw].
    rewrite u32_id in Hk by lia. destruct (IH (c + 1) Hk Hw) as (Hl & [S F] & Hi); [lia|].
    replace (c + Z.of_nat (length (s :: l))) with (c + 1 + Z.of_nat (length l)) by (simpl; lia).
    split_and!; [lia| |].
    + split; (constructor; [|]); try done.
      * eapply Forall_impl; [exact F|]. intros t Ht. simpl in Ht. lia.
      * lia.
      * eapply Forall_impl; [exact F|]. intros t Ht. simpl in Ht. lia.
    + intros i Hi'. destruct (decide (i = c)) as [->|]; [exists s; split; [left|done]|].
      destruct (Hi i) as (t & Ht & E); [lia|]. exists t. split; [by right|done].
Qed.

(** What a consecutive prefix leaves is above it. *)
Lemma counts_in_rest c l1 l2 :
  consecutive c l1 -> no_wrap l1 -> 0 <= c < 2 ^ 32 -> counts_in c (2 ^ 32) (l1 ++ l2) ->
  counts_in (c + Z.of_nat (length l1)) (2 ^ 32) l2.
Proof.
  intros Hk Hw Hc Hin. pose proof Hin as [HS _]. apply counts_in_split in Hin as [_ [S2 F2]].
  destruct (consecutive_counts _ _ Hk Hw Hc) as (_ & _ & Hi). split; [done|].
  apply Forall_forall. intros t Ht. rewrite Forall_forall in F2. specialize (F2 t Ht).
  destruct (decide (l1 = [])) as [->|Hne]; [simpl; lia|].
  assert (0 < Z.of_nat (length l1)) by (destruct l1; [done|simpl; lia]).
  destruct (Hi (c + Z.of_nat (length l1) - 1)) as (s & Hs & E); [lia|].
  pose proof (StronglySorted_app_1_elem_of _ _ _ _ _ HS Hs Ht) as Hst. simpl in Hst. lia.
Qed.

Lemma deliver_from_window e c :
  0 <= c < 2 ^ 32 -> counts_in 0 c (delivered e) -> counts_in c (2 ^ 32) (rx_list e) ->
  forall e' c', deliver_from (rx_list e) e c = (e', c') -> no_wrap (delivered e') ->
  c <= c' < 2 ^ 32 /\ counts_in 0 c' (delivered e') /\ counts_in c' (2 ^ 32) (rx_list e') /\
  exists l1 l2, after_delivery e e' l1 l2.
Proof.
  intros Hc Hd Hl e' c' E Hw.
  destruct (deliver_from_spec (rx_list e) e c eq_refl Hc) as (l1 & l2 & e1 & E1 & El & Ha & Hk & _).
  rewrite E in E1. injection E1 as -> ->. pose proof Ha as (sz & st & ->). simpl in *.
  rewrite El in Hl. apply Forall_app in Hw as [_ Hw].
  destruct (consecutive_counts _ _ Hk Hw Hc) as (Hlt & Hin & _). rewrite u32_id by lia.
  split_and!; [lia|lia| | |by exists l1, l2].
  - eapply counts_in_app; [exact Hd|exact Hin|lia].
  - by eapply counts_in_rest.
Qed.

(** ** The invariant of the receiver *)

Record rx_inv (e : nr_pdcp_entity_t) : Prop := {
  ri_deliv : 0 <= rx_deliv e < 2 ^ 32;
  ri_next : 0 <= rx_next e < 2 ^ 32;
  ri_reord : 0 <= rx_reord e < 2 ^ 32;
  ri_delivered : counts_in 0 (rx_deliv e) (delivered e);
  ri_list : counts_in (rx_deliv e) (2 ^ 32) (rx_list e);
  ri_timer : t_reordering_start e <> 0 -> rx_deliv e < rx_reord e
}.

(** The end of the reception: the timer. *)
Definition restart_timer (e : nr_pdcp_entity_t) : nr_pdcp_entity_t :=
  let e := if negb (t_reordering_start e =? 0) && (rx_deliv e >=? rx_reord e)
           then e <| t_reordering_start := 0 |> else e in
  if (t_reordering_start e =? 0) && (rx_deliv e <? rx_next e)
  then e <| rx_reord := rx_next e |> <| t_reordering_start := t_current e |> else e.

Lemma restart_timer_inv e :
  0 <= rx_deliv e < 2 ^ 32 -> 0 <= rx_next e < 2 ^ 32 -> 0 <= rx_reord e < 2 ^ 32 ->
  counts_in 0 (rx_deliv e) (delivered e) -> counts_in (rx_deliv e) (2 ^ 32) (rx_list e) ->
  rx_inv (restart_timer e).
Proof.
  intros H1 H2 H3 H4 H5. unfold restart_timer.
  destruct (negb (t_reordering_start e =? 0) && (rx_deliv e >=? rx_reord e)) eqn:E1; cbv zeta; cif; zbool.
  - by split.
  - by split.
  - by split.
  - split; try done. intros Ht. destruct E1 as [E1|E1]; zbool; [done|lia].
Qed.

(** Insertion in the sorted list. *)
Lemma list_add_counts lo hi l s :
  counts_in lo hi l -> lo <= sdu_count s < hi -> nr_pdcp_sdu_in_list l (sdu_count s) = false ->
  counts_in lo hi (nr_pdcp_sdu_list_add l s).
Proof.
  unfold nr_pdcp_sdu_list_add, counts_in. intros [S F] Hs. induction l as [|t l IH]; simpl; intros Hn.
  - split; repeat constructor; lia.
  - apply StronglySorted_inv in S as [S Ft]. apply Forall_cons in F as [Ht F].
    destruct (sdu_count t =? sdu_count s) eqn:En; [done|]. zbool.
    destruct (sdu_count s <? sdu_count t) eqn:E; zbool.
    + split; repeat (constructor; try done); try lia.
      eapply Forall_impl; [exact Ft|]. intros x Hx. simpl in Hx. lia.
    + destruct (IH S F Hn) as [S' F']. split; (constructor; [|]); try done.
      rewrite insert_before_perm. constructor; [lia|done].
Qed.

Lemma store_sdu_inv e s stored :
  rx_inv e -> rx_deliv e <= sdu_count s < 2 ^ 32 -> nr_pdcp_sdu_in_list (rx_list e) (sdu_count s) = false ->
  no_wrap (delivered (store_sdu e s stored)) -> rx_inv (store_sdu e s stored).
Proof.
  intros [H1 H2 H3 H4 H5 H6] Hs Hn. unfold store_sdu. cbv zeta.
  set (e1 := e <| rx_list ::= _ |> <| rx_size ::= _ |>).
  set (e2 := if sdu_count s >=? rx_next e1 then _ else e1).
  assert (E2 : 0 <= rx_next e2 < 2 ^ 32 /\ rx_deliv e2 = rx_deliv e /\ rx_reord e2 = rx_reord e /\
    delivered e2 = delivered e /\ rx_list e2 = nr_pdcp_sdu_list_add (rx_list e) s).
  { unfold e2. cif; split_and!; try done; simpl; try apply u32_range; lia. }
  destruct E2 as (N2 & D2 & R2 & L2 & RL2). clearbody e2. clear e1.
  pose proof (list_add_counts _ _ _ s H5 ltac:(lia) Hn) as Hadd. rewrite <- RL2 in Hadd.
  rewrite <- D2 in Hadd, H4, H1. rewrite <- L2 in H4. rewrite <- R2 in H3.
  destruct (sdu_count s =? rx_deliv e2) eqn:Ed.
  - destruct (deliver_from (rx_list e2) e2 (rx_deliv e2)) as [e3 c] eqn:E3.
    fold (restart_timer (e3 <| rx_deliv := c |>)). intros Hw.
    destruct (deliver_from_window _ _ H1 H4 Hadd _ _ E3) as (Hc & Hd3 & Hl3 & l1 & l2 & sz & st & ->).
    { revert Hw. unfold restart_timer. cbv zeta. repeat cif; done. }
    apply restart_timer_inv; try done. simpl. lia.
  - fold (restart_timer e2). intros _. by apply restart_timer_inv.
Qed.

(** The timer delivers in order too. *)
Lemma check_t_reordering_inv e :
  rx_inv e -> no_wrap (delivered (check_t_reordering e)) -> rx_inv (check_t_reordering e).
Proof.
  intros [H1 H2 H3 H4 H5 H6]. unfold check_t_reordering. cif; [done|]. cif; [done|]. zbool.
  set (e0 := e <| t_reordering_start := 0 |>). cbv zeta.
  destruct (deliver_below_spec (rx_reord e0) (rx_list e0) e0 eq_refl)
    as (l1 & l2 & El & (sz & st & Ea) & Hl1 & Hl2).
  rewrite Ea. change (rx_list e0) with (rx_list e) in El. change (rx_reord e0) with (rx_reord e) in Hl1, Hl2.
  set (e1 := e0 <| delivered ::= _ |> <| rx_list := _ |>
               <| rx_size := _ |> <| stats := _ |>).
  change (rx_reord e1) with (rx_reord e).
  rewrite El in H5. apply counts_in_split in H5 as [[S1 F1] [S2 F2]].
  assert (Hd1 : counts_in 0 (rx_reord e) (delivered e1)).
  { apply (counts_in_app 0 (rx_deliv e)); [done| |lia]. split; [done|].
    rewrite Forall_forall in Hl1, F1 |- *. intros s Hs. specialize (Hl1 s Hs). specialize (F1 s Hs).
    simpl in *. lia. }
  assert (Hr1 : counts_in (rx_reord e) (2 ^ 32) (rx_list e1)).
  { split; [done|]. simpl. destruct l2 as [|t l2]; [done|]. apply StronglySorted_inv in S2 as [_ Ft].
    apply Forall_cons in F2 as [F2t F2]. constructor; [lia|]. rewrite Forall_forall in Ft, F2 |- *.
    intros s Hs. specialize (Ft s Hs). specialize (F2 s Hs). simpl in *. lia. }
  destruct (deliver_from (rx_list e1) e1 (rx_reord e)) as [e2 c] eqn:E2. intros Hw.
  destruct (deliver_from_window _ _ H3 Hd1 Hr1 _ _ E2) as (Hc & Hd2 & Hl2' & k1 & k2 & sz2 & st2 & ->).
  { revert Hw. cif; done. }
  revert Hw. cif; zbool; intros _; split; simpl in *; try done; lia.
Qed.

(** ** Reception of any PDU *)

Lemma lor_range n a b : 0 < n -> 0 <= a < 2 ^ n -> 0 <= b < 2 ^ n -> 0 <= Z.lor a b < 2 ^ n.
Proof.
  intros Hn Ha Hb. assert (H0 : 0 <= Z.lor a b) by (apply Z.lor_nonneg; lia). split; [done|].
  destruct (decide (Z.lor a b = 0)) as [->|Hz]; [lia|].
  assert (Hl : forall x, 0 <= x < 2 ^ n -> Z.log2 x < n).
  { intros x Hx. destruct (decide (x = 0)) as [->|]; [done|]. apply Z.log2_lt_pow2; lia. }
  apply Z.log2_lt_pow2; [lia|]. rewrite Z.log2_lor by lia.
  pose proof (Hl a Ha). pose proof (Hl b Hb). lia.
Qed.

Section Receive.
Context `{Crypto}.

Lemma infer_count_range e sn : 0 <= sn < 2 ^ 32 -> 0 <= infer_count e sn < 2 ^ 32.
Proof. intros. unfold infer_count. apply lor_range; [lia| |done]. apply u32_range. Qed.

Lemma read_sn_range e buf sn : Forall is_byte buf -> read_sn e buf = Done sn -> 0 <= sn < 2 ^ 18.
Proof.
  intros F Hr. unfold read_sn in Hr. invd Hr. invd Hr.
  apply (rd_byte _ _ _ F) in H0, H1. unfold is_byte in *.
  revert Hr. cif.
  - intros [= <-]. change 0xf with (Z.ones 4). rewrite Z.land_ones by lia.
    apply lor_range; [lia| |lia]. rewrite Z.shiftl_mul_pow2 by lia.
    pose proof (Z.mod_pos_bound x (2 ^ 4) ltac:(lia)). lia.
  - intros Hr. invd Hr. apply (rd_byte _ _ _ F) in H2. unfold is_byte in *. injection Hr as <-.
    change 0x3 with (Z.ones 2). rewrite Z.land_ones by lia.
    pose proof (Z.mod_pos_bound x (2 ^ 2) ltac:(lia)). rewrite !Z.shiftl_mul_pow2 by lia.
    apply lor_range; [lia|apply lor_range; lia|lia].
Qed.

Lemma set_bit_bytes (e : nr_pdcp_entity_t) buf b0 buf' (c : bool) :
  Forall is_byte buf -> rd buf 0 = Done b0 ->
  (if c then wr buf 0 (Z.lor b0 128) else Done buf) = Done buf' -> Forall is_byte buf'.
Proof.
  intros F R. destruct c; [|by intros [= <-]]. unfold wr. cif; [done|]. cif; [|done]. intros [= <-].
  apply Forall_insert; [done|]. apply (lor_range 8); [lia| |lia]. by eapply rd_byte.
Qed.

(** A reception changes the statistics only, or stores an SDU of the window. *)
Lemma recv_pdu_cases e buf size e' :
  Forall is_byte buf -> nr_pdcp_entity_recv_pdu e buf size = Done e' ->
  exists st, e' = e <| stats := st |> \/
    exists s stored, e' = store_sdu (e <| stats := st |>) s stored /\
      rx_deliv e <= sdu_count s < 2 ^ 32 /\ nr_pdcp_sdu_in_list (rx_list e) (sdu_count s) = false.
Proof.
  intros HB. unfold nr_pdcp_entity_recv_pdu.
  cif; [intros [= <-]; exists (stats e); left; by destruct e|].
  cif; [intros [= <-]; exists (stats e); left; by destruct e|].
  intros Hr. invd Hr. invd Hr. pose proof (set_bit_bytes e _ _ _ _ HB H0 H1) as HB'.
  invd Hr. rename x1 into sn. pose proof (read_sn_range _ _ _ HB' H2) as Hsn. revert Hr.
  set (e1 := e <| stats; rxpdu_pkts ::= _ |> <| stats; rxpdu_bytes ::= _ |> <| stats; rxpdu_sn := _ |>).
  assert (E1 : exists st, e1 = e <| stats := st |>) by (by eexists).
  clearbody e1. destruct E1 as (st & ->). cbv zeta.
  cif_head; [intros [= <-]; eexists; left; reflexivity|].
  intros Hr. invd Hr. invd Hr. destruct x2 as [b|]; [|injection Hr as <-; eexists; left; reflexivity].
  revert Hr. cif; [intros [= <-]; eexists; left; reflexivity|]. intros Hr. invd Hr. invd Hr.
  injection Hr as <-. exists st. right. eexists _, _. split; [reflexivity|].
  unfold nr_pdcp_new_sdu in H6. invd H6. injection H6 as <-. cbn [sdu_count]. zbool.
  split; [split; [assumption|apply infer_count_range; lia]|assumption].
Qed.

(** ** Runs of the receiver *)

Inductive rx_op :=
| RxPdu (buf : list Z)
| RxTime (now : Z).

Definition rx_do (e : nr_pdcp_entity_t) (o : rx_op) : outcome nr_pdcp_entity_t :=
  match o with
  | RxPdu buf => nr_pdcp_entity_recv_pdu e buf (Z.of_nat (length buf))
  | RxTime now => Done (nr_pdcp_entity_set_time e now)
  end.

Fixpoint rx_run (e : nr_pdcp_entity_t) (l : list rx_op) : outcome nr_pdcp_entity_t :=
  match l with
  | [] => Done e
  | o :: l => e ← rx_do e o; rx_run e l
  end.

Definition rx_bytes (o : rx_op) : Prop := match o with RxPdu buf => Forall is_byte buf | _ => True end.

(** Nothing is taken back, and the state variables keep 32 bits. *)
Definition rx_range (e : nr_pdcp_entity_t) : Prop :=
  0 <= rx_deliv e < 2 ^ 32 /\ 0 <= rx_next e < 2 ^ 32 /\ 0 <= rx_reord e < 2 ^ 32.

Ltac range_lia := unfold rx_range in *; simpl in *; lia.

Definition rx_grows (e e' : nr_pdcp_entity_t) : Prop :=
  rx_range e' /\ exists l, delivered e' = delivered e ++ l.

Lemma rx_grows_refl e e' : rx_range e' -> delivered e' = delivered e -> rx_grows e e'.
Proof. intros Hr E. split; [done|]. exists []. by rewrite app_nil_r. Qed.

Lemma restart_timer_grows e : rx_range e -> rx_grows e (restart_timer e).
Proof.
  intros (H1 & H2 & H3). apply rx_grows_refl; unfold restart_timer; cbv zeta; repeat cif; done || range_lia.
Qed.

Lemma rx_grows_trans e1 e2 e3 : rx_grows e1 e2 -> rx_grows e2 e3 -> rx_grows e1 e3.
Proof. intros [_ [l E]] [Hr [l' E']]. split; [done|]. exists (l ++ l'). by rewrite E', E, app_assoc. Qed.

(** Delivery, then the update of RX_DELIV. *)
Lemma after_delivery_grows e e' l1 l2 c :
  rx_range e -> after_delivery e e' l1 l2 -> 0 <= c < 2 ^ 32 -> rx_grows e (e' <| rx_deliv := c |>).
Proof. intros (H1 & H2 & H3) (sz & st & ->) Hc. split; [range_lia|by exists l1]. Qed.

Lemma store_sdu_grows e s stored : rx_range e -> rx_grows e (store_sdu e s stored).
Proof.
  intros Hr. unfold store_sdu. cbv zeta. set (e2 := if sdu_count s >=? rx_next _ then _ else _).
  assert (E2 : rx_grows e e2).
  { destruct Hr as (H1 & H2 & H3). apply rx_grows_refl; unfold e2; cif; try done.
    pose proof (u32_range (sdu_count s + 1)). range_lia. }
  clearbody e2. eapply rx_grows_trans; [exact E2|]. destruct E2 as [Hr2 _].
  destruct (sdu_count s =? rx_deliv e2).
  - destruct (deliver_from_spec (rx_list e2) e2 _ eq_refl (proj1 Hr2)) as (l1 & l2 & e3 & -> & _ & Ha & _).
    fold (restart_timer (e3 <| rx_deliv := u32 (rx_deliv e2 + Z.of_nat (length l1)) |>)).
    pose proof (after_delivery_grows _ _ _ _ _ Hr2 Ha (u32_range (rx_deliv e2 + Z.of_nat (length l1)))) as G.
    eapply rx_grows_trans; [exact G|]. by apply restart_timer_grows, G.
  - by apply (restart_timer_grows e2).
Qed.

Lemma check_t_reordering_grows e : rx_range e -> rx_grows e (check_t_reordering e).
Proof.
  intros Hr. unfold check_t_reordering. cif; [by apply rx_grows_refl|]. cif; [by apply rx_grows_refl|].
  cbv zeta. set (e0 := e <| t_reordering_start := 0 |>).
  destruct (deliver_below_spec (rx_reord e0) (rx_list e0) e0 eq_refl) as (l1 & l2 & _ & Ha & _).
  set (e1 := deliver_below _ _ _) in *. destruct Hr as (H1 & H2 & H3).
  assert (G1 : rx_grows e e1) by (destruct Ha as (sz & st & ->); split; [range_lia|by exists l1]).
  eapply rx_grows_trans; [exact G1|]. destruct G1 as [Hr1 _].
  destruct (deliver_from_spec (rx_list e1) e1 _ eq_refl (proj2 (proj2 Hr1)))
    as (k1 & k2 & e2 & -> & _ & Hb & _).
  pose proof (after_delivery_grows _ _ _ _ _ Hr1 Hb (u32_range (rx_reord e1 + Z.of_nat (length k1)))) as G.
  eapply rx_grows_trans; [exact G|]. destruct G as [(R1 & R2 & R3) _].
  cif; (apply rx_grows_refl; [range_lia|done]).
Qed.

Lemma rx_do_grows e o e' : rx_range e -> rx_bytes o -> rx_do e o = Done e' -> rx_grows e e'.
Proof.
  intros Hr Hb. destruct o as [buf|now]; simpl.
  - intros Hd. apply recv_pdu_cases in Hd as (st & [-> |(s & stored & -> & _)]); [| |done].
    + by apply rx_grows_refl.
    + assert (Hr' : rx_range (e <| stats := st |>)) by exact Hr. exact (store_sdu_grows _ s stored Hr').
  - intros [= <-]. assert (Hr' : rx_range (e <| t_current := now |>)) by exact Hr.
    exact (check_t_reordering_grows _ Hr').
Qed.

Lemma rx_run_grows : forall ops e e',
  rx_range e -> Forall rx_bytes ops -> rx_run e ops = Done e' -> rx_grows e e'.
Proof.
  induction ops as [|o ops IH]; intros e e' Hr Hb; cbn [rx_run].
  - intros [= <-]. by apply rx_grows_refl.
  - apply Forall_cons in Hb as [Ho Hb]. intros Hd. apply outcome_bind_done in Hd as (e1 & E1 & Hd).
    pose proof (rx_do_grows _ _ _ Hr Ho E1) as G. eapply rx_grows_trans; [exact G|].
    eapply IH; [apply G|done|done].
Qed.

(** ** Runs keep the invariant *)

Lemma rx_inv_range e : rx_inv e -> rx_range e.
Proof. by intros []. Qed.

Lemma rx_do_inv e o e' :
  rx_inv e -> rx_bytes o -> rx_do e o = Done e' -> no_wrap (delivered e') -> rx_inv e'.
Proof.
  intros Hi Hb. destruct o as [buf|now]; simpl.
  - intros Hr. apply recv_pdu_cases in Hr as (st & [-> |(s & stored & -> & Hs & Hn)]); [| |done].
    + intros _. by destruct Hi.
    + apply store_sdu_inv; [by destruct Hi|done|done].
  - intros [= <-]. apply check_t_reordering_inv. by destruct Hi.
Qed.

Lemma rx_run_inv : forall ops e e',
  rx_inv e -> Forall rx_bytes ops -> rx_run e ops = Done e' -> no_wrap (delivered e') -> rx_inv e'.
Proof.
  induction ops as [|o ops IH]; intros e e' Hi Hb; cbn [rx_run].
  - by intros [= <-].
  - apply Forall_cons in Hb as [Ho Hb]. intros Hd Hw. apply outcome_bind_done in Hd as (e1 & E1 & Hd).
    pose proof (rx_do_grows _ _ _ (rx_inv_range _ Hi) Ho E1) as [Hr1 _].
    destruct (rx_run_grows _ _ _ Hr1 Hb Hd) as [_ [l El]].
    eapply IH; [|done|done|done]. eapply rx_do_inv; [done|done|done|].
    unfold no_wrap in Hw. rewrite El in Hw. by apply Forall_app in Hw as [Hw _].
Qed.

(** The configuration of the entity. *)
Lemma set_security_rx e p e' :
  nr_pdcp_entity_set_security e p = Done e' ->
  rx_deliv e' = rx_deliv e /\ rx_next e' = rx_next e /\ rx_reord e' = rx_reord e /\
  delivered e' = delivered e /\ rx_list e' = rx_list e /\ t_reordering_start e' = t_reordering_start e /\
  type e' = type e /\ sn_size e' = sn_size e /\ sn_max e' = sn_max e /\ window_size e' = window_size e /\
  tx_next e' = tx_next e /\ entity_suspended e' = entity_suspended e /\ is_gnb e' = is_gnb e /\
  rb_id e' = rb_id e /\ has_sdap_rx e' = has_sdap_rx e /\ has_sdap_tx e' = has_sdap_tx e /\
  t_current e' = t_current e /\ t_reordering e' = t_reordering e.
Proof.
  unfold nr_pdcp_entity_set_security. intros H0. invd H0.
  revert H1 H0. repeat (cif; try discriminate); intros [= <-] [= <-]; done.
Qed.

Lemma new_rx_inv ty gnb rb pdu sr st sn tr dt p e :
  new_nr_pdcp_entity ty gnb rb pdu sr st sn tr dt p = Done e -> rx_inv e.
Proof.
  intros Hn. apply set_security_rx in Hn as (E1 & E2 & E3 & E4 & E5 & E6 & _). simpl in *.
  split; rewrite ?E1, ?E2, ?E3, ?E4, ?E5, ?E6; try done; by split; constructor.
Qed.
End Receive.

(** C11. In-order delivery without duplicates.  Whatever PDUs an entity receives and
    whenever its timer expires, the COUNTs of the SDUs delivered increase strictly,
    those of the SDUs kept do too and are not below RX_DELIV, which is
    above all the delivered ones.  The only exception is the wrap-around of COUNT. *)
Theorem pdcp_in_order `{Crypto} (ty : nr_pdcp_entity_type_t) (gnb : bool) (rb pdusession : Z)
    (sdap_rx sdap_tx : bool) (sn_bits t_reord discard : Z) (p : nr_pdcp_entity_security_keys_and_algos_t)
    (ops : list rx_op) (e0 e : nr_pdcp_entity_t) :
  new_nr_pdcp_entity ty gnb rb pdusession sdap_rx sdap_tx sn_bits t_reord discard p = Done e0 ->
  Forall rx_bytes ops -> rx_run e0 ops = Done e -> no_wrap (delivered e) ->
  StronglySorted (fun s t => sdu_count s < sdu_count t) (delivered e ++ rx_list e) /\
  Forall (fun s => sdu_count s < rx_deliv e) (delivered e) /\
  Forall (fun s => rx_deliv e <= sdu_count s) (rx_list e).
Proof.
  intros Hn Hb Hr Hw. destruct (rx_run_inv ops e0 e (new_rx_inv _ _ _ _ _ _ _ _ _ _ _ Hn) Hb Hr Hw)
    as [H1 _ _ H4 H5 _].
  destruct (counts_in_app _ _ _ _ _ H4 H5 ltac:(lia)) as [HS _]. split_and!; [done| |].
  - eapply Forall_impl; [apply H4|]. intros s Hs. simpl in Hs. lia.
  - eapply Forall_impl; [apply H5|]. intros s Hs. simpl in Hs. lia.
Qed.

Definition no_security : nr_pdcp_entity_security_keys_and_algos_t := mk_keys 0 0 [] [].

Definition reorder_ops : list rx_op :=
  [RxTime 1; RxPdu [0x80; 1; 11]; RxPdu [0x80; 3; 33]; RxPdu [0x80; 0; 10]; RxPdu [0x80; 1; 99]; RxTime 200].

Lemma pdcp_in_order_witness :
  exists e0 e, new_nr_pdcp_entity NR_PDCP_DRB_UM true 1 1 false false 12 100 (-1) no_security = Done e0 /\
    @rx_run toy_crypto e0 reorder_ops = Done e /\
    sdu_buffer <$> delivered e = [[10]; [11]; [33]] /\
    StronglySorted (fun s t => sdu_count s < sdu_count t) (delivered e ++ rx_list e) /\
    Forall (fun s => sdu_count s < rx_deliv e) (delivered e) /\
    Forall (fun s => rx_deliv e <= sdu_count s) (rx_list e).
Proof.
  do 2 eexists. do 2 (split; [vm_compute; reflexivity|]). split; [reflexivity|].
  apply (@pdcp_in_order toy_crypto NR_PDCP_DRB_UM true 1 1 false false 12 100 (-1) no_security reorder_ops
           ltac:(let e := eval vm_compute in
                   (new_nr_pdcp_entity NR_PDCP_DRB_UM true 1 1 false false 12 100 (-1) no_security) in
                 match e with Done ?e => exact e end)).
  - vm_compute. reflexivity.
  - unfold reorder_ops, rx_bytes, is_byte. repeat constructor; lia.
  - vm_compute. reflexivity.
  - unfold no_wrap. repeat constructor; simpl; lia.
Defined.
