(* ===== verification/PdcpLink.v ===== *)
(** The PDCP layer end to end: what a PDCP entity sends is what its peer delivers. *)

From stdpp Require Import sorting.
From S2P Require Import Prelude PdcpSec Pdcp PdcpRx.

(** ** The configuration of an entity *)

Record pdcp_cfg (e : nr_pdcp_entity_t) : Prop := {
  pc_size : sn_size e = 12 \/ sn_size e = 18;
  pc_max : sn_max e = Z.ones (sn_size e);
  pc_window : window_size e = 2 ^ (sn_size e - 1);
  pc_cipher : has_ciphering e = true -> cipher_ctx e = true;
  pc_integrity : has_integrity e = true -> exists alg key, integrity_ctx e = Some (alg, key);
  pc_rb : 1 <= rb_id e < 32
}.

Lemma new_pdcp_cfg ty gnb rb pdu sr st sn tr dt p e :
  sn = 12 \/ sn = 18 -> 1 <= rb < 32 ->
  new_nr_pdcp_entity ty gnb rb pdu sr st sn tr dt p = Done e -> pdcp_cfg e.
Proof.
  intros Hs Hrb Hn. pose proof (set_security_rx _ _ _ Hn) as (_ & _ & _ & _ & _ & _ & _ & E1 & E2 & E3 & _ & _ & _ & E4 & _).
  simpl in *. unfold new_nr_pdcp_entity in Hn.
  assert (Hsec : (has_ciphering e = true -> cipher_ctx e = true) /\
                 (has_integrity e = true -> exists alg key, integrity_ctx e = Some (alg, key))).
  { clear -Hn. unfold nr_pdcp_entity_set_security in Hn. invd Hn. revert H Hn.
    repeat (cif; try discriminate); intros [= <-] [= <-]; simpl; split; eauto; discriminate. }
  split; try apply Hsec; rewrite ?E1, ?E2, ?E3, ?E4; try done.
  all: destruct Hs as [-> | ->]; done.
Qed.

Section Link.
Context `{CL : CryptoLaws}.

(** ** The PDU of an SDU *)

Definition dc_bit (e : nr_pdcp_entity_t) : Z :=
  if bool_decide (type e = NR_PDCP_DRB_AM) || bool_decide (type e = NR_PDCP_DRB_UM) then 0x80 else 0.

Definition header (e : nr_pdcp_entity_t) (sn : Z) : list Z :=
  if sn_size e =? SHORT_SN_SIZE
  then [Z.lor (dc_bit e) (Z.land (Z.shiftr sn 8) 0xf); Z.land sn 0xff]
  else [Z.lor (dc_bit e) (Z.land (Z.shiftr sn 16) 0x3); Z.land (Z.shiftr sn 8) 0xff; Z.land sn 0xff].

(** The MAC-I. *)
Definition mac_of (e : nr_pdcp_entity_t) (msg : list Z) (count dir : Z) : list Z :=
  if has_integrity e then
    match integrity_ctx e with
    | Some (alg, key) =>
        if alg =? 2 then take 4 (EVP_aes_128_cmac key (data_iv8 count (rb_id e) dir ++ msg))
        else stream_compute_integrity_eia1 key count (rb_id e - 1) dir msg
    | None => replicate 4 0
    end
  else if bool_decide (type e = NR_PDCP_SRB) then replicate 4 0 else [].

Definition cipher_of (e : nr_pdcp_entity_t) (msg : list Z) (count dir : Z) : list Z :=
  if has_ciphering e
  then EVP_aes_128_ctr (ciphering_key (security_keys_and_algos e)) (data_iv16 count (rb_id e) dir) msg
  else msg.

Definition pdu_of (e : nr_pdcp_entity_t) (sdap : nat) (sdu : list Z) (count dir : Z) : list Z :=
  let h := header e (Z.land count (sn_max e)) in
  h ++ take sdap sdu ++ cipher_of e (drop sdap sdu ++ mac_of e (h ++ sdu) count dir) count dir.

Lemma header_length e sn : Z.of_nat (length (header e sn)) = header_size_of e.
Proof. unfold header, header_size_of. by cif. Qed.

Lemma mac_length e msg count dir :
  pdcp_cfg e -> Z.of_nat (length (mac_of e msg count dir)) = integrity_size_of e.
Proof.
  intros Cf. unfold mac_of, integrity_size_of. destruct (has_integrity e) eqn:Ei; simpl.
  - destruct (pc_integrity _ Cf Ei) as (alg & key & ->). cif.
    + rewrite length_take, cmac_length. done.
    + by rewrite eia1_length.
  - by case_bool_decide.
Qed.

Lemma cipher_of_length e msg count dir : length (cipher_of e msg count dir) = length msg.
Proof. unfold cipher_of. cif; [apply ctr_length|done]. Qed.

(** The security calls, below the COUNTs their assertions refuse. *)
Lemma integrity_ok e msg count dir :
  pdcp_cfg e -> has_integrity e = true -> 0 <= count < 2 ^ 31 ->
  integrity e msg (Z.of_nat (length msg)) (rb_id e) count dir = Done (mac_of e msg count dir).
Proof.
  intros Cf Hi Hc. unfold integrity, mac_of. rewrite Hi. destruct (pc_integrity _ Cf Hi) as (alg & key & ->).
  rewrite s32_small by done. pose proof (pc_rb _ Cf). cif; [|done].
  unfold nr_pdcp_integrity_nia2_integrity.
  by rewrite !(proj2 (Z.gtb_lt _ _)), (proj2 (Z.ltb_lt _ _)) by lia.
Qed.

Lemma cipher_ok e msg count dir :
  pdcp_cfg e -> has_ciphering e = true -> 0 <= count < 2 ^ 31 -> 0 <= dir <= 1 -> msg <> [] ->
  cipher e msg (Z.of_nat (length msg)) (rb_id e) count dir = Done (cipher_of e msg count dir).
Proof.
  intros Cf Hi Hc Hd Hm. unfold cipher, cipher_of. rewrite Hi, (pc_cipher _ Cf Hi).
  rewrite s32_small by done. pose proof (pc_rb _ Cf). unfold nr_pdcp_security_nea2_cipher.
  assert (0 < Z.of_nat (length msg)) by (destruct msg; [done|simpl; lia]).
  by rewrite !(proj2 (Z.gtb_lt _ _)), !(proj2 (Z.ltb_lt _ _)) by lia.
Qed.

Lemma write_sn_ok e b0 b1 b2 r sn :
  exists x, write_sn e (b0 :: b1 :: b2 :: r) sn = Done (header e sn ++ x ++ r) /\
            Z.of_nat (length x) = 3 - header_size_of e.
Proof.
  unfold write_sn, header, header_size_of. fold (dc_bit e). cbv zeta. cif.
  - exists [b2]. rewrite !wr_done by (simpl; lia). cbn [mbind outcome_bind].
    by rewrite wr_done by (simpl; lia).
  - exists []. rewrite wr_done by (simpl; lia). cbn [mbind outcome_bind].
    rewrite wr_done by (simpl; lia). cbn [mbind outcome_bind]. by rewrite wr_done by (simpl; lia).
Qed.

(** ** Transmission *)

Definition tx_sdap (e : nr_pdcp_entity_t) : nat := if has_sdap_tx e then 1 else 0.
Definition tx_dir (e : nr_pdcp_entity_t) : Z := if is_gnb e then 1 else 0.

(** The protection of the bytes written so far: header, SDU, then room. *)
Lemma protect_ok e h sdu room rest count :
  pdcp_cfg e -> 0 <= count < 2 ^ 31 -> (tx_sdap e < length sdu)%nat ->
  Z.of_nat (length h) = header_size_of e -> Z.of_nat (length room) = integrity_size_of e ->
  let size := Z.of_nat (length sdu) in
  let mac := mac_of e (h ++ sdu) count (tx_dir e) in
  (buf ← (if has_integrity e then
            part ← slice (h ++ sdu ++ room ++ rest) 0 (header_size_of e + size);
            mac ← integrity e part (header_size_of e + size) (rb_id e) count (tx_dir e);
            mac ← slice mac 0 PDCP_INTEGRITY_SIZE;
            blit (h ++ sdu ++ room ++ rest) (header_size_of e + size) mac
          else if integrity_size_of e =? PDCP_INTEGRITY_SIZE then
            blit (h ++ sdu ++ room ++ rest) (header_size_of e + size) (replicate 4 0)
          else Done (h ++ sdu ++ room ++ rest));
   if has_ciphering e then
     let off := header_size_of e + Z.of_nat (tx_sdap e) in
     let length := size + integrity_size_of e - Z.of_nat (tx_sdap e) in
     part ← (if length <=? 0 then Done [] else slice buf off length);
     part ← cipher e part length (rb_id e) count (tx_dir e);
     blit buf off part
   else Done buf)
  = Done ((h ++ take (tx_sdap e) sdu ++
           cipher_of e (drop (tx_sdap e) sdu ++ mac) count (tx_dir e)) ++ rest).
Proof.
  intros Cf Hc Hs Hh Hr size mac.
  pose proof (mac_length e (h ++ sdu) count (tx_dir e) Cf) as Hm. fold mac in Hm.
  assert (E1 : (if has_integrity e then
            part ← slice (h ++ sdu ++ room ++ rest) 0 (header_size_of e + size);
            mac ← integrity e part (header_size_of e + size) (rb_id e) count (tx_dir e);
            mac ← slice mac 0 PDCP_INTEGRITY_SIZE;
            blit (h ++ sdu ++ room ++ rest) (header_size_of e + size) mac
          else if integrity_size_of e =? PDCP_INTEGRITY_SIZE then
            blit (h ++ sdu ++ room ++ rest) (header_size_of e + size) (replicate 4 0)
          else Done (h ++ sdu ++ room ++ rest)) = Done ((h ++ sdu) ++ mac ++ rest)).
  { rewrite (app_assoc h sdu). destruct (has_integrity e) eqn:Ei.
    - rewrite slice_head by (rewrite length_app; lia). cbn [mbind outcome_bind].
      replace (header_size_of e + size) with (Z.of_nat (length (h ++ sdu))) by (rewrite length_app; lia).
      rewrite (integrity_ok e _ count _ Cf Ei Hc). fold mac. cbn [mbind outcome_bind].
      assert (H4 : integrity_size_of e = 4) by (unfold integrity_size_of; by rewrite Ei).
      rewrite slice_all by (unfold PDCP_INTEGRITY_SIZE; lia).
      cbn [mbind outcome_bind]. by rewrite (blit_mid _ room) by (done || lia).
    - unfold mac, mac_of in *. unfold integrity_size_of in *. rewrite Ei in *. cbn [orb] in *.
      case_bool_decide; simpl in *.
      + rewrite (blit_mid _ room) by (simpl; rewrite ?length_app; lia). done.
      + by destruct room. }
  rewrite E1. cbn [mbind outcome_bind]. clear E1. unfold cipher_of. destruct (has_ciphering e) eqn:Ec.
  - cbv zeta. assert (Hd : Z.of_nat (length (drop (tx_sdap e) sdu ++ mac)) =
      size + integrity_size_of e - Z.of_nat (tx_sdap e)) by (rewrite length_app, length_drop; lia).
    rewrite (proj2 (Z.leb_gt _ _)) by lia.
    assert (Eb : (h ++ sdu) ++ mac ++ rest =
      (h ++ take (tx_sdap e) sdu) ++ (drop (tx_sdap e) sdu ++ mac) ++ rest).
    { rewrite <- (take_drop (tx_sdap e) sdu) at 1. by rewrite <- !app_assoc. }
    rewrite Eb.
    rewrite slice_mid by (rewrite ?length_app, ?length_take, ?length_drop; lia). cbn [mbind outcome_bind].
    rewrite <- Hd. rewrite (cipher_ok e _ count _ Cf Ec Hc).
    + cbn [mbind outcome_bind]. unfold cipher_of. rewrite Ec.
      rewrite blit_mid; [|rewrite length_app, length_take; lia|apply ctr_length].
      by rewrite <- !app_assoc.
    + unfold tx_dir. cif; lia.
    + intros E. apply (f_equal length) in E. rewrite length_app, length_drop in E. simpl in E. lia.
  - rewrite <- (take_drop (tx_sdap e) sdu) at 1. by rewrite <- !app_assoc.
Qed.

Lemma process_sdu_ok e sdu buf :
  pdcp_cfg e -> entity_suspended e = false -> 0 <= tx_next e < 2 ^ 31 -> (tx_sdap e < length sdu)%nat ->
  nr_max_pdcp_pdu_size (Z.of_nat (length sdu)) <= Z.of_nat (length buf) ->
  let pdu := pdu_of e (tx_sdap e) sdu (tx_next e) (tx_dir e) in
  exists st rest,
    nr_pdcp_entity_process_sdu e sdu (Z.of_nat (length sdu)) buf (Z.of_nat (length buf)) =
    Done (Z.of_nat (length pdu), e <| tx_next := tx_next e + 1 |> <| stats := st |>, pdu ++ rest).
Proof.
  intros Cf Hsu Hn Hs Hb pdu. unfold nr_pdcp_entity_process_sdu.
  rewrite (proj2 (Z.leb_le _ _) Hb), Hsu. cbn [negb].
  set (e1 := e <| stats; rxsdu_pkts ::= _ |> <| stats; rxsdu_bytes ::= _ |>).
  assert (He1 : pdcp_cfg e1) by (by destruct Cf).
  assert (E1 : exists st, e1 = e <| stats := st |>) by (by eexists). cbv zeta.
  unfold nr_max_pdcp_pdu_size, LONG_PDCP_HEADER_SIZE, PDCP_INTEGRITY_SIZE in Hb.
  destruct buf as [|b0 [|b1 [|b2 r]]]; simpl in Hb; try lia.
  destruct (write_sn_ok e1 b0 b1 b2 r (Z.land (tx_next e1) (sn_max e1))) as (x & -> & Hx).
  cbn [mbind outcome_bind]. rewrite slice_all by done. cbn [mbind outcome_bind].
  pose proof (header_length e1 (Z.land (tx_next e1) (sn_max e1))) as Hh.
  set (h := header _ _) in *. assert (Hi : 0 <= integrity_size_of e1 <= 4) by (unfold integrity_size_of, PDCP_INTEGRITY_SIZE; cif; lia).
  (* the room after the header: the SDU, the MAC-I, the rest *)
  set (n := length sdu) in *. set (m := Z.to_nat (integrity_size_of e1)).
  assert (Hxr : (n + m <= length (x ++ r))%nat) by (rewrite length_app; lia).
  rewrite <- (take_drop n (x ++ r)). rewrite (blit_mid _ (take n (x ++ r))); [|lia|rewrite length_take; lia].
  cbn [mbind outcome_bind]. rewrite <- (take_drop m (drop n (x ++ r))).
  change (if is_gnb e1 then 1 else 0) with (tx_dir e1).
  replace (if has_sdap_tx e1 then 1 else 0) with (Z.of_nat (tx_sdap e1)) by (unfold tx_sdap; by cif).
  set (room := take m (drop n (x ++ r))). set (rest := drop m (drop n (x ++ r))).
  assert (Hroom : Z.of_nat (length room) = integrity_size_of e1)
    by (unfold room; rewrite length_take, length_drop; lia).
  assert (Hs1 : (tx_sdap e1 < n)%nat) by exact Hs. assert (Hn1 : 0 <= tx_next e1 < 2 ^ 31) by exact Hn.
  pose proof (protect_ok e1 h sdu room rest (tx_next e1) He1 Hn1 Hs1 Hh Hroom) as P. cbv zeta in P. fold n in P.
  apply outcome_bind_done in P as (buf1 & P1 & P2). rewrite P1. cbn [mbind outcome_bind]. rewrite P2.
  cbn [mbind outcome_bind]. destruct E1 as (st & E1).
  match goal with |- context [Done (?k, ?e', (?p ++ _))] => assert (Hk : k = Z.of_nat (length p)) end.
  { rewrite !length_app, cipher_of_length, length_app, length_take, length_drop.
    pose proof (mac_length e1 (h ++ sdu) (tx_next e1) (tx_dir e1) He1). lia. }
  rewrite Hk, u32_id by lia. rewrite E1. eexists _, rest. reflexivity.
Qed.

(** ** Reception of such a PDU *)

Definition rx_sdap (e : nr_pdcp_entity_t) : nat := if has_sdap_rx e then 1 else 0.
Definition rx_dir (e : nr_pdcp_entity_t) : Z := if is_gnb e then 0 else 1.

(** The COUNT is found back as long as it is in the window around RX_DELIV. *)
Lemma infer_count_ok e count :
  pdcp_cfg e -> 0 <= rx_deliv e < 2 ^ 32 -> 0 <= count < 2 ^ 32 ->
  rx_deliv e - window_size e <= count < rx_deliv e + window_size e ->
  infer_count e (Z.land count (sn_max e)) = count.
Proof.
  intros Cf Hd Hc Hw. unfold infer_count. rewrite (pc_max _ Cf), (pc_window _ Cf) in *.
  assert (Hs : 0 <= sn_size e) by (destruct (pc_size _ Cf); lia).
  rewrite !Z.land_ones, Z.shiftr_div_pow2 by done.
  set (d := rx_deliv e) in *. set (m := 2 ^ sn_size e) in *.
  assert (Hm : m = 2 * 2 ^ (sn_size e - 1) /\ 0 < 2 ^ (sn_size e - 1) /\ m <= 2 ^ 18).
  { unfold m. destruct (pc_size _ Cf) as [-> | ->]; done. }
  set (w := 2 ^ (sn_size e - 1)) in *.
  pose proof (Z.div_mod d m ltac:(lia)). pose proof (Z.mod_pos_bound d m ltac:(lia)).
  pose proof (Z.div_mod count m ltac:(lia)). pose proof (Z.mod_pos_bound count m ltac:(lia)).
  pose proof (Z.div_pos count m ltac:(lia) ltac:(lia)). pose proof (Z.div_pos d m ltac:(lia) ltac:(lia)).
  assert (Hq : (if count mod m <? d mod m - w then u32 (d / m + 1)
    else if count mod m >=? d mod m + w then u32 (d / m - 1) else d / m) = count / m).
  { assert (count / m <= count) by (apply Z.div_le_upper_bound; nia).
    repeat (cif; zbool).
    - rewrite <- (u32_id (count / m)) by lia. f_equal. nia.
    - rewrite <- (u32_id (count / m)) by lia. f_equal. nia.
    - nia. }
  rewrite Hq. rewrite u32_id.
  - rewrite lor_shift_add by lia. fold m. lia.
  - rewrite Z.shiftl_mul_pow2 by done. fold m. nia.
Qed.

(** *** The header *)

Lemma dc_bit_cases e : dc_bit e = 0x80 \/ (dc_bit e = 0 /\ type e = NR_PDCP_SRB).
Proof. unfold dc_bit. destruct (type e); simpl; auto. Qed.

Lemma dc_bit_land e y n : 0 <= n <= 7 -> Z.land (Z.lor (dc_bit e) (Z.land y (Z.ones n))) (Z.ones n) = y mod 2 ^ n.
Proof.
  intros Hn. rewrite Z.land_lor_distr_l, <- Z.land_assoc, Z.land_diag, (Z.land_ones y) by lia.
  replace (Z.land (dc_bit e) (Z.ones n)) with 0; [by rewrite Z.lor_0_l|].
  rewrite Z.land_ones by lia. symmetry. destruct (dc_bit_cases e) as [-> |[-> _]]; [|by rewrite Z.mod_0_l by lia].
  change 128 with (2 ^ 7). replace 7 with (7 - n + n) at 1 by lia. rewrite Z.pow_add_r by lia.
  by apply Z_mod_mult.
Qed.

(** Powers of two as numerals. *)
Ltac pows :=
  change (2 ^ 2) with 4 in *; change (2 ^ 4) with 16 in *; change (2 ^ 8) with 256 in *;
  change (2 ^ 12) with 4096 in *; change (2 ^ 16) with 65536 in *; change (2 ^ 18) with 262144 in *.

Ltac divmod := pows; Z.to_euclidean_division_equations; lia.

Lemma read_header e sn tail :
  pdcp_cfg e -> 0 <= sn < 2 ^ sn_size e -> read_sn e (header e sn ++ tail) = Done sn.
Proof.
  intros Cf Hs. unfold read_sn, header, SHORT_SN_SIZE.
  change 0xff with (Z.ones 8). change 0xf with (Z.ones 4). change 0x3 with (Z.ones 2).
  destruct (pc_size _ Cf) as [E|E]; rewrite E in *; cbn [Z.eqb Pos.eqb app];
    do 2 (erewrite rd_done; [|lia|reflexivity]; cbn [mbind outcome_bind]).
  - rewrite dc_bit_land by lia. rewrite Z.land_ones, Z.shiftr_div_pow2 by lia.
    rewrite lor_shift_add by divmod. f_equal. divmod.
  - erewrite rd_done; [|lia|reflexivity]; cbn [mbind outcome_bind].
    rewrite dc_bit_land by lia. rewrite !Z.land_ones, !Z.shiftr_div_pow2 by lia. f_equal.
    rewrite (Z.shiftl_mul_pow2 _ 16) by lia.
    replace ((sn / 2 ^ 16) mod 2 ^ 2 * 2 ^ 16) with (Z.shiftl ((sn / 2 ^ 16) mod 2 ^ 2 * 2 ^ 8) 8)
      by (rewrite Z.shiftl_mul_pow2 by lia; divmod).
    rewrite <- Z.shiftl_lor. rewrite <- (Z.shiftl_mul_pow2 _ 8) by lia.
    rewrite (lor_shift_add _ ((sn / 2 ^ 8) mod 2 ^ 8)) by divmod. rewrite lor_shift_add by divmod. divmod.
Qed.

(** The D/C bit of a DRB is set. *)
Lemma header_dc e sn : 0 <= sn ->
  exists b r, header e sn = b :: r /\
    negb (bool_decide (type e = NR_PDCP_SRB)) && (Z.land b 0x80 =? 0) = false.
Proof.
  intros Hs. assert (H : exists y r, header e sn = Z.lor (dc_bit e) y :: r) by (unfold header; cif; eauto).
  destruct H as (y & r & ->). eexists _, _. split; [reflexivity|].
  destruct (dc_bit_cases e) as [-> |[_ ->]]; [|by rewrite bool_decide_true].
  apply andb_false_iff. right. apply Z.eqb_neq. rewrite Z.land_lor_distr_l. intros E.
  apply Z.lor_eq_0_iff in E as [E _]. discriminate.
Qed.

Lemma header_bytes e sn : Forall is_byte (header e sn).
Proof.
  assert (Hl : forall y n, 0 <= n <= 8 -> 0 <= Z.land y (Z.ones n) < 2 ^ 8).
  { intros y n Hn. rewrite Z.land_ones by lia. pose proof (Z.mod_pos_bound y (2 ^ n) ltac:(lia)).
    pose proof (Z.pow_le_mono_r 2 n 8 ltac:(lia) ltac:(lia)). lia. }
  assert (Hd : forall y n, 0 <= n <= 8 -> is_byte (Z.lor (dc_bit e) (Z.land y (Z.ones n)))).
  { intros y n Hn. apply (lor_range 8); [lia| |by apply Hl].
    destruct (dc_bit_cases e) as [-> |[-> _]]; lia. }
  unfold header. change 0xff with (Z.ones 8). change 0xf with (Z.ones 4). change 0x3 with (Z.ones 2).
  cif; repeat constructor; try (apply Hd; lia); apply (Hl _ 8); lia.
Qed.

(** *** Deciphering and integrity *)

Definition plain_of (e : nr_pdcp_entity_t) (sdu : list Z) (count dir : Z) : list Z :=
  let h := header e (Z.land count (sn_max e)) in h ++ sdu ++ mac_of e (h ++ sdu) count dir.

Lemma mac_bytes e msg count dir : Forall is_byte (mac_of e msg count dir).
Proof.
  unfold mac_of. cif; [|cif; [repeat constructor; unfold is_byte; lia|constructor]].
  destruct (integrity_ctx e) as [[alg key]|]; [|repeat constructor; unfold is_byte; lia].
  cif; [apply Forall_take, cmac_bytes|apply eia1_bytes].
Qed.

Lemma pdu_length e sdap sdu count dir :
  pdcp_cfg e -> (sdap <= length sdu)%nat ->
  Z.of_nat (length (pdu_of e sdap sdu count dir)) =
  header_size_of e + Z.of_nat (length sdu) + integrity_size_of e.
Proof.
  intros Cf Hs. unfold pdu_of. cbv zeta.
  rewrite !length_app, cipher_of_length, length_app, length_take, length_drop.
  pose proof (mac_length e (header e (Z.land count (sn_max e)) ++ sdu) count dir Cf).
  pose proof (header_length e (Z.land count (sn_max e))). lia.
Qed.

Lemma unprotect_ok e sdu count size :
  pdcp_cfg e -> 0 <= count < 2 ^ 31 -> (rx_sdap e < length sdu)%nat -> Forall is_byte sdu ->
  size = header_size_of e + Z.of_nat (length sdu) + integrity_size_of e ->
  unprotect e (pdu_of e (rx_sdap e) sdu count (rx_dir e)) size
    (header_size_of e + Z.of_nat (rx_sdap e)) (integrity_size_of e) count
  = Done (Some (plain_of e sdu count (rx_dir e))).
Proof.
  intros Cf Hc Hs HB ->. unfold unprotect, pdu_of, plain_of. cbv zeta. fold (rx_dir e).
  set (h := header e _). set (mac := mac_of e (h ++ sdu) count (rx_dir e)).
  assert (Hh : Z.of_nat (length h) = header_size_of e) by apply header_length.
  assert (Hm : Z.of_nat (length mac) = integrity_size_of e) by (by apply mac_length).
  set (msg := drop (rx_sdap e) sdu ++ mac).
  assert (Hl : Z.of_nat (length msg) =
    header_size_of e + Z.of_nat (length sdu) + integrity_size_of e - (header_size_of e + Z.of_nat (rx_sdap e)))
    by (unfold msg; rewrite length_app, length_drop; lia).
  assert (Hp : (h ++ take (rx_sdap e) sdu) ++ msg = h ++ sdu ++ mac).
  { unfold msg. rewrite <- (take_drop (rx_sdap e) sdu) at 3. by rewrite <- !app_assoc. }
  assert (E1 : (if has_ciphering e then
      part ← slice (h ++ take (rx_sdap e) sdu ++ cipher_of e msg count (rx_dir e))
               (header_size_of e + Z.of_nat (rx_sdap e))
               (header_size_of e + Z.of_nat (length sdu) + integrity_size_of e - (header_size_of e + Z.of_nat (rx_sdap e)));
      part ← cipher e part (header_size_of e + Z.of_nat (length sdu) + integrity_size_of e -
               (header_size_of e + Z.of_nat (rx_sdap e))) (rb_id e) count (rx_dir e);
      blit (h ++ take (rx_sdap e) sdu ++ cipher_of e msg count (rx_dir e))
           (header_size_of e + Z.of_nat (rx_sdap e)) part
    else Done (h ++ take (rx_sdap e) sdu ++ cipher_of e msg count (rx_dir e))) = Done (h ++ sdu ++ mac)).
  { rewrite <- Hp, <- Hl. destruct (has_ciphering e) eqn:Ec.
    - rewrite (app_assoc h), <- (app_nil_r (cipher_of _ _ _ _)).
      rewrite slice_mid by (rewrite ?length_app, ?length_take, ?cipher_of_length; lia).
      cbn [mbind outcome_bind]. rewrite <- (cipher_of_length e msg count (rx_dir e)).
      rewrite (cipher_ok e _ count _ Cf Ec Hc).
      + cbn [mbind outcome_bind]. rewrite blit_mid; [|rewrite length_app, length_take; lia|apply cipher_of_length].
        unfold cipher_of. rewrite Ec. rewrite ctr_involutive; [by rewrite app_nil_r|].
        unfold msg. apply Forall_app. split; [by apply Forall_drop|apply mac_bytes].
      + unfold rx_dir. cif; lia.
      + intros E. apply (f_equal length) in E. rewrite cipher_of_length in E. unfold msg in E.
        rewrite length_app, length_drop in E. simpl in E. lia.
    - unfold cipher_of. by rewrite Ec, <- app_assoc. }
  rewrite E1. cbn [mbind outcome_bind]. destruct (has_integrity e) eqn:Ei; [|done].
  rewrite (app_assoc h sdu).
  replace (header_size_of e + Z.of_nat (length sdu) + integrity_size_of e - integrity_size_of e)
    with (Z.of_nat (length (h ++ sdu))) by (rewrite length_app; lia).
  rewrite slice_head by done. cbn [mbind outcome_bind].
  rewrite (integrity_ok e _ count _ Cf Ei Hc). cbn [mbind outcome_bind].
  assert (H4 : integrity_size_of e = 4) by (unfold integrity_size_of; by rewrite Ei).
  fold mac. rewrite <- (app_nil_r mac) at 1. rewrite slice_mid by (unfold PDCP_INTEGRITY_SIZE; lia || done).
  cbn [mbind outcome_bind]. by rewrite bool_decide_true.
Qed.

Lemma sn_of_range e count : pdcp_cfg e -> 0 <= Z.land count (sn_max e) < 2 ^ sn_size e.
Proof.
  intros Cf. rewrite (pc_max _ Cf), Z.land_ones by (destruct (pc_size _ Cf); lia).
  apply Z.mod_pos_bound. destruct (pc_size _ Cf) as [-> | ->]; lia.
Qed.

(** The PDU is discarded as a duplicate, or its SDU is stored. *)
Lemma recv_pdu_ok e sdu count :
  pdcp_cfg e -> entity_suspended e = false -> 0 <= count < 2 ^ 31 -> (rx_sdap e < length sdu)%nat ->
  Forall is_byte sdu -> 0 <= rx_deliv e < 2 ^ 32 ->
  rx_deliv e - window_size e <= count < rx_deliv e + window_size e ->
  let pdu := pdu_of e (rx_sdap e) sdu count (rx_dir e) in
  exists st mi, nr_pdcp_entity_recv_pdu e pdu (Z.of_nat (length pdu)) =
    Done (if (count <? rx_deliv e) || nr_pdcp_sdu_in_list (rx_list e) count then e <| stats := st |>
          else store_sdu (e <| stats := st |>) (mk_pdcp_sdu count sdu (Z.of_nat (length sdu)) mi)
                 (Z.of_nat (length sdu) + integrity_size_of e)).
Proof.
  intros Cf Hsu Hc Hs HB Hd Hw pdu.
  assert (Hlen : Z.of_nat (length pdu) = header_size_of e + Z.of_nat (length sdu) + integrity_size_of e)
    by (apply pdu_length; [done|lia]).
  assert (Hh : 2 <= header_size_of e <= 3) by (unfold header_size_of, SHORT_PDCP_HEADER_SIZE, LONG_PDCP_HEADER_SIZE; cif; lia).
  assert (Hi : 0 <= integrity_size_of e <= 4) by (unfold integrity_size_of, PDCP_INTEGRITY_SIZE; cif; lia).
  pose proof (sn_of_range e count Cf) as Hsn. set (sn := Z.land count (sn_max e)) in *.
  unfold nr_pdcp_entity_recv_pdu. rewrite Hsu, (proj2 (Z.ltb_ge _ _)) by lia.
  destruct (header_dc e sn) as (b0 & r & Eh & Hdc); [lia|].
  assert (Epdu : exists tl, pdu = header e sn ++ tl) by (by eexists). destruct Epdu as (tl & Epdu).
  rewrite (rd_done _ 0 b0) by (done || rewrite Epdu, Eh; done). cbn [mbind outcome_bind]. rewrite Hdc.
  cbn [mbind outcome_bind].
  set (e1 := e <| stats; rxpdu_pkts ::= _ |> <| stats; rxpdu_bytes ::= _ |>).
  assert (Cf1 : pdcp_cfg e1) by (by destruct Cf).
  assert (Hr : read_sn e1 pdu = Done sn) by (rewrite Epdu; by apply (read_header e1)).
  rewrite Hr. cbn [mbind outcome_bind]. cbv zeta. clear Hr.
  set (e2 := e1 <| stats; rxpdu_sn := sn |>).
  assert (Cf2 : pdcp_cfg e2) by (by destruct Cf).
  replace (if has_sdap_rx e1 then 1 else 0) with (Z.of_nat (rx_sdap e2)) 
    by (unfold rx_sdap; change (has_sdap_rx e2) with (has_sdap_rx e1); by cif).
  change (header_size_of e1) with (header_size_of e2).
  change (header_size_of e) with (header_size_of e2) in *.
  change (integrity_size_of e) with (integrity_size_of e2) in *.
  assert (Hs2 : (rx_sdap e2 < length sdu)%nat) by exact Hs.
  rewrite (proj2 (Z.ltb_ge (Z.of_nat (length pdu)) _)) by lia.
  assert (Hic : infer_count e2 sn = count) by (apply (infer_count_ok e2); done || lia).
  rewrite Hic.
  assert (Hmi : exists mi, (if has_integrity e2 || bool_decide (type e2 = NR_PDCP_SRB) then
      mac ← slice pdu (Z.of_nat (length pdu) - 4) 4; header ← slice pdu 0 (header_size_of e2);
      Done (mk_integrity_data count mac (header_size_of e2)
              (header ++ replicate (Z.to_nat (3 - header_size_of e2)) 0))
    else Done (mk_integrity_data 0 (replicate 4 0) 0 (replicate 3 0))) = Done mi).
  { destruct (has_integrity e2 || bool_decide (type e2 = NR_PDCP_SRB)) eqn:Ei; [|eauto].
    assert (integrity_size_of e2 = 4) by (unfold integrity_size_of; by rewrite Ei).
    rewrite !slice_done by lia. cbn [mbind outcome_bind]. eauto. }
  destruct Hmi as (mi & ->). cbn [mbind outcome_bind].
  pose proof (unprotect_ok e2 sdu count _ Cf2 Hc Hs2 HB eq_refl) as Hu. rewrite <- Hlen in Hu.
  change (pdu_of e2 (rx_sdap e2) sdu count (rx_dir e2)) with pdu in Hu. rewrite Hu.
  cbn [mbind outcome_bind]. change (rx_deliv e2) with (rx_deliv e). change (rx_list e2) with (rx_list e).
  destruct ((count <? rx_deliv e) || nr_pdcp_sdu_in_list (rx_list e) count); [by eexists _, mi|].
  rewrite Hlen. unfold plain_of.
  rewrite slice_mid; [|by rewrite header_length|lia]. cbn [mbind outcome_bind].
  unfold nr_pdcp_new_sdu. rewrite slice_all by lia. cbn [mbind outcome_bind].
  replace (header_size_of e2 + Z.of_nat (length sdu) + integrity_size_of e2 - header_size_of e2 - integrity_size_of e2)
    with (Z.of_nat (length sdu)) by lia.
  replace (header_size_of e2 + Z.of_nat (length sdu) + integrity_size_of e2 - header_size_of e2)
    with (Z.of_nat (length sdu) + integrity_size_of e2) by lia.
  by eexists _, mi.
Qed.

(** ** What the storage of an SDU does *)

Lemma in_list_spec l c : nr_pdcp_sdu_in_list l c = true <-> exists s, s ∈ l /\ sdu_count s = c.
Proof.
  induction l as [|t l IH]; simpl.
  - split; [done|]. intros (s & Hs & _). by apply not_elem_of_nil in Hs.
  - cif; zbool.
    + split; [|done]. intros _. exists t. split; [left|done].
    + rewrite IH. split.
      * intros (s & Hs & Hc). exists s. split; [by right|done].
      * intros (s & Hs & Hc). apply elem_of_cons in Hs as [->|Hs]; [done|eauto].
Qed.

(** RX_DELIV is the COUNT of the first SDU that has not been received. *)
Definition head_missing (e : nr_pdcp_entity_t) : Prop :=
  match rx_list e with s :: _ => sdu_count s <> rx_deliv e | [] => True end.

Lemma restart_timer_same e :
  delivered (restart_timer e) = delivered e /\ rx_list (restart_timer e) = rx_list e /\
  rx_deliv (restart_timer e) = rx_deliv e.
Proof. unfold restart_timer. cbv zeta. repeat cif; done. Qed.

Lemma store_sdu_effect e s stored :
  rx_inv e -> head_missing e -> rx_deliv e <= sdu_count s ->
  exists l1 l2, nr_pdcp_sdu_list_add (rx_list e) s = l1 ++ l2 /\
    delivered (store_sdu e s stored) = delivered e ++ l1 /\ rx_list (store_sdu e s stored) = l2 /\
    rx_deliv (store_sdu e s stored) = u32 (rx_deliv e + Z.of_nat (length l1)) /\
    consecutive (rx_deliv e) l1 /\ head_missing (store_sdu e s stored).
Proof.
  intros Hi Hm Hs. unfold store_sdu. cbv zeta.
  set (e1 := e <| rx_list ::= _ |> <| rx_size ::= _ |>).
  set (e2 := if sdu_count s >=? rx_next e1 then _ else e1).
  assert (E2 : delivered e2 = delivered e /\ rx_deliv e2 = rx_deliv e /\
    rx_list e2 = nr_pdcp_sdu_list_add (rx_list e) s) by (unfold e2; by cif).
  destruct E2 as (<- & Ed & El). rewrite <- Ed, <- El in *. clearbody e2. clear e1.
  assert (Hd2 : 0 <= rx_deliv e2 < 2 ^ 32) by (rewrite Ed; apply Hi).
  destruct (sdu_count s =? rx_deliv e2) eqn:Ec; zbool.
  - destruct (deliver_from_spec (rx_list e2) e2 _ eq_refl Hd2) as (l1 & l2 & e3 & -> & E3 & Ha & Hk & Hh).
    exists l1, l2. set (c := u32 _) in *.
    fold (restart_timer (e3 <| rx_deliv := c |>)).
    destruct (restart_timer_same (e3 <| rx_deliv := c |>)) as (R1 & R2 & R3).
    unfold head_missing. rewrite R1, R2, R3. destruct Ha as (sz & st & ->). split_and!; done.
  - exists [], (rx_list e2). fold (restart_timer e2). destruct (restart_timer_same e2) as (R1 & R2 & R3).
    unfold head_missing. rewrite R1, R2, R3, app_nil_r, Z.add_0_r, u32_id by done.
    split_and!; try done. rewrite El. unfold nr_pdcp_sdu_list_add.
    unfold head_missing in Hm. destruct (rx_list e) as [|t l]; simpl; [done|]. cif; [done|]. by rewrite Ed.
Qed.

(** The fields a reception keeps. *)
Record same_cfg (e e' : nr_pdcp_entity_t) : Prop := {
  sc_type : type e' = type e;
  sc_rb : rb_id e' = rb_id e;
  sc_sdap : has_sdap_rx e' = has_sdap_rx e;
  sc_size : sn_size e' = sn_size e;
  sc_max : sn_max e' = sn_max e;
  sc_window : window_size e' = window_size e;
  sc_hc : has_ciphering e' = has_ciphering e;
  sc_hi : has_integrity e' = has_integrity e;
  sc_keys : security_keys_and_algos e' = security_keys_and_algos e;
  sc_cipher : cipher_ctx e' = cipher_ctx e;
  sc_integrity : integrity_ctx e' = integrity_ctx e;
  sc_gnb : is_gnb e' = is_gnb e;
  sc_suspended : entity_suspended e' = entity_suspended e
}.

Lemma same_cfg_trans e1 e2 e3 : same_cfg e1 e2 -> same_cfg e2 e3 -> same_cfg e1 e3.
Proof. intros [] []. split; congruence. Qed.

Lemma same_cfg_cfg e e' : same_cfg e e' -> pdcp_cfg e -> pdcp_cfg e'.
Proof.
  intros [] [H1 H2 H3 H4 H5 H6].
  by split; rewrite ?sc_size0, ?sc_max0, ?sc_window0, ?sc_cipher0, ?sc_hc0, ?sc_integrity0, ?sc_hi0, ?sc_rb0.
Qed.

Lemma same_cfg_pdu e e' sdap sdu count dir :
  same_cfg e e' -> pdu_of e' sdap sdu count dir = pdu_of e sdap sdu count dir.
Proof.
  intros []. unfold pdu_of, header, dc_bit, cipher_of, mac_of.
  by rewrite sc_max0, sc_size0, sc_type0, sc_hc0, sc_hi0, sc_keys0, sc_integrity0, sc_rb0.
Qed.

Lemma deliver_from_cfg : forall l e c e' c', deliver_from l e c = (e', c') -> same_cfg e e'.
Proof.
  induction l as [|cur l IH]; intros e c e' c'; cbn [deliver_from].
  - intros [= <- <-]. by split.
  - cif; [|intros [= <- <-]; by split]. intros Hd. apply IH in Hd.
    eapply same_cfg_trans; [|exact Hd]. by split.
Qed.

Lemma store_sdu_cfg e s stored : same_cfg e (store_sdu e s stored).
Proof.
  unfold store_sdu. cbv zeta. set (e2 := if sdu_count s >=? rx_next _ then _ else _).
  eapply (same_cfg_trans _ e2); [unfold e2; cif; by split|]. clearbody e2.
  set (e3 := if sdu_count s =? rx_deliv e2 then _ else e2).
  eapply (same_cfg_trans _ e3).
  - unfold e3. cif; [|by split]. destruct (deliver_from _ _ _) as [e4 c] eqn:E4.
    apply deliver_from_cfg in E4. by destruct E4.
  - clearbody e3. repeat cif; by split.
Qed.

(** ** The link *)

(** The SDUs are sent one after the other, each in a buffer of its own. *)
Fixpoint send_all (t : nr_pdcp_entity_t) (sdus : list (list Z))
  : outcome (nr_pdcp_entity_t * list (list Z)) :=
  match sdus with
  | [] => Done (t, [])
  | sdu :: rest =>
      let size := Z.of_nat (length sdu) in
      let buf := replicate (Z.to_nat (nr_max_pdcp_pdu_size size)) 0 in
      '(n, t, buf) ← nr_pdcp_entity_process_sdu t sdu size buf (nr_max_pdcp_pdu_size size);
      '(t, pdus) ← send_all t rest;
      Done (t, take (Z.to_nat n) buf :: pdus)
  end.

(** The two ends of a bearer. *)
Record peers (t r : nr_pdcp_entity_t) : Prop := {
  pe_tx : pdcp_cfg t;
  pe_rx : pdcp_cfg r;
  pe_type : type r = type t;
  pe_rb : rb_id r = rb_id t;
  pe_size : sn_size r = sn_size t;
  pe_hc : has_ciphering r = has_ciphering t;
  pe_hi : has_integrity r = has_integrity t;
  pe_key : ciphering_key (security_keys_and_algos r) = ciphering_key (security_keys_and_algos t);
  pe_ctx : integrity_ctx r = integrity_ctx t;
  pe_sdap : has_sdap_rx r = has_sdap_tx t;
  pe_gnb : is_gnb r = negb (is_gnb t)
}.

Lemma peers_pdu t r sdu count :
  peers t r -> pdu_of t (tx_sdap t) sdu count (tx_dir t) = pdu_of r (rx_sdap r) sdu count (rx_dir r).
Proof.
  intros [Ht Hr Ety Erb Esz Ehc Ehi Ek Ec Es Eg]. unfold pdu_of, header, dc_bit, cipher_of, mac_of.
  rewrite (pc_max _ Ht), (pc_max _ Hr), Ety, Erb, Esz, Ehc, Ehi, Ek, Ec. unfold tx_sdap, rx_sdap, tx_dir, rx_dir.
  rewrite Es, Eg. by destruct (is_gnb t).
Qed.

(** The PDUs of [sdus], from COUNT [c] on. *)
Fixpoint pdus_from (t : nr_pdcp_entity_t) (c : Z) (sdus : list (list Z)) : list (list Z) :=
  match sdus with
  | [] => []
  | sdu :: rest => pdu_of t (tx_sdap t) sdu c (tx_dir t) :: pdus_from t (c + 1) rest
  end.

Lemma pdus_from_lookup t : forall sdus c i p,
  pdus_from t c sdus !! i = Some p ->
  exists sdu, sdus !! i = Some sdu /\ p = pdu_of t (tx_sdap t) sdu (c + Z.of_nat i) (tx_dir t).
Proof.
  induction sdus as [|s sdus IH]; intros c i p; simpl; [done|]. destruct i as [|i]; simpl.
  - intros [= <-]. exists s. by rewrite Z.add_0_r.
  - intros Hp. destruct (IH _ _ _ Hp) as (sdu & Hs & ->). exists sdu. split; [done|]. f_equal. lia.
Qed.

Lemma pdus_from_length t : forall sdus c, length (pdus_from t c sdus) = length sdus.
Proof. induction sdus; intros; simpl; auto. Qed.

Lemma pdus_from_ext t st : forall sdus c n,
  pdus_from (t <| tx_next := n |> <| stats := st |>) c sdus = pdus_from t c sdus.
Proof. induction sdus as [|s sdus IH]; intros; cbn [pdus_from]; [done|]. by rewrite IH. Qed.

Lemma send_all_ok : forall sdus t,
  pdcp_cfg t -> entity_suspended t = false -> 0 <= tx_next t ->
  tx_next t + Z.of_nat (length sdus) <= 2 ^ 31 -> Forall (fun s => tx_sdap t < length s)%nat sdus ->
  exists t', send_all t sdus = Done (t', pdus_from t (tx_next t) sdus).
Proof.
  induction sdus as [|s sdus IH]; intros t Cf Hsu Hn Hl HF; cbn [send_all pdus_from]; [by exists t|].
  apply Forall_cons in HF as [Hs HF]. simpl in Hl. cbv zeta.
  set (buf := replicate _ 0).
  assert (Hb : nr_max_pdcp_pdu_size (Z.of_nat (length s)) = Z.of_nat (length buf)).
  { unfold buf. rewrite length_replicate.
    unfold nr_max_pdcp_pdu_size, LONG_PDCP_HEADER_SIZE, PDCP_INTEGRITY_SIZE. lia. }
  rewrite Hb. destruct (process_sdu_ok t s buf Cf Hsu ltac:(lia) Hs ltac:(lia)) as (st & rest & ->).
  cbn [mbind outcome_bind]. rewrite Nat2Z.id, take_app_length.
  destruct (IH (t <| tx_next := tx_next t + 1 |> <| stats := st |>)) as (t' & E).
  - by destruct Cf.
  - done.
  - simpl. lia.
  - simpl. lia.
  - done.
  - rewrite E. cbn [mbind outcome_bind]. rewrite pdus_from_ext. by exists t'.
Qed.

(** [s] is SDU number [i] of [sdus]. *)
Definition sdu_good (b : Z) (sdus : list (list Z)) (s : nr_pdcp_sdu_t) : Prop :=
  exists i, sdus !! i = Some (sdu_buffer s) /\ sdu_count s = b + Z.of_nat i.

(** The receiver after the PDUs number [seen]. *)
Record link_inv (r0 : nr_pdcp_entity_t) (sdus : list (list Z)) (seen : list nat) (r : nr_pdcp_entity_t)
    (new : list nr_pdcp_sdu_t) : Prop := {
  li_inv : rx_inv r;
  li_cfg : same_cfg r0 r;
  li_new : delivered r = delivered r0 ++ new;
  li_good : Forall (sdu_good (rx_deliv r0) sdus) (new ++ rx_list r);
  li_cons : consecutive (rx_deliv r0) new;
  li_deliv : rx_deliv r = rx_deliv r0 + Z.of_nat (length new);
  li_head : head_missing r;
  li_seen : Forall (fun i => rx_deliv r0 + Z.of_nat i < rx_deliv r \/
                     nr_pdcp_sdu_in_list (rx_list r) (rx_deliv r0 + Z.of_nat i) = true) seen
}.

Lemma consecutive_app : forall l1 l2 c,
  consecutive c l1 -> 0 <= c < 2 ^ 32 -> consecutive (u32 (c + Z.of_nat (length l1))) l2 ->
  consecutive c (l1 ++ l2).
Proof.
  induction l1 as [|s l1 IH]; intros l2 c; simpl.
  - intros _ Hc. by rewrite Z.add_0_r, u32_id.
  - intros [Hs H1] Hc H2. split; [done|]. apply IH; [done|apply u32_range|].
    rewrite u32_add_l. by replace (c + 1 + Z.of_nat (length l1)) with (c + Z.pos (Pos.of_succ_nat (length l1))) by lia.
Qed.

Lemma good_bound b sdus s n : sdu_good b sdus s -> Z.of_nat (length sdus) <= n -> b <= sdu_count s < b + n.
Proof. intros (i & Hi & ->) Hn. apply lookup_lt_Some in Hi. lia. Qed.

(** A delivered list is complete: its buffers are the first SDUs. *)
Lemma consecutive_buffers sdus b : forall new c i,
  consecutive c new -> Forall (sdu_good b sdus) new -> c = b + Z.of_nat i ->
  b + Z.of_nat (length sdus) < 2 ^ 32 -> 0 <= b ->
  sdu_buffer <$> new = take (length new) (drop i sdus).
Proof.
  induction new as [|s new IH]; intros c i; simpl; [done|]. intros [Hs Hc] HF -> Hb H0.
  apply Forall_cons in HF as [(j & Hj & Ej) HF]. assert (j = i) as -> by lia.
  pose proof (lookup_lt_Some _ _ _ Hj). rewrite (drop_S _ _ _ Hj). simpl. f_equal.
  rewrite u32_id in Hc by lia. apply (IH _ (S i) Hc HF); [lia|done|done].
Qed.

Section Arrivals.
Variables (r0 : nr_pdcp_entity_t) (sdus : list (list Z)).
Hypothesis Cf0 : pdcp_cfg r0.
Hypothesis Hsu0 : entity_suspended r0 = false.
Hypothesis Hlen : Z.of_nat (length sdus) <= window_size r0.
Hypothesis Hmax : rx_deliv r0 + Z.of_nat (length sdus) <= 2 ^ 31.
Hypothesis Hsdus : Forall (fun s => (rx_sdap r0 < length s)%nat /\ Forall is_byte s) sdus.
Hypothesis Hnw : no_wrap (delivered r0).
Hypothesis Hr0 : 0 <= rx_deliv r0.

(** The SDU of a PDU is stored. *)
Lemma link_store seen r new i sdu mi st stored :
  link_inv r0 sdus seen r new -> sdus !! i = Some sdu ->
  let s := mk_pdcp_sdu (rx_deliv r0 + Z.of_nat i) sdu (Z.of_nat (length sdu)) mi in
  rx_deliv r <= sdu_count s -> nr_pdcp_sdu_in_list (rx_list r) (sdu_count s) = false ->
  exists new', link_inv r0 sdus (i :: seen) (store_sdu (r <| stats := st |>) s stored) new'.
Proof.
  intros [Hi Hcfg Hnew Hg Hk Hd Hh Hseen] Hs s Hle Hin.
  pose proof (lookup_lt_Some _ _ _ Hs) as Hlt.
  assert (Hi' : rx_inv (r <| stats := st |>)) by (by destruct Hi).
  destruct (store_sdu_effect (r <| stats := st |>) s stored Hi' Hh Hle)
    as (l1 & l2 & Eadd & Edel & El & Ed & Hk1 & Hh').
  change (rx_list (r <| stats := st |>)) with (rx_list r) in Eadd.
  change (rx_deliv (r <| stats := st |>)) with (rx_deliv r) in Ed, Hk1.
  change (delivered (r <| stats := st |>)) with (delivered r) in Edel.
  set (r' := store_sdu _ _ _) in *.
  assert (Hperm : l1 ++ l2 ≡ₚ s :: rx_list r) by (rewrite <- Eadd; apply insert_before_perm).
  assert (Hgs : sdu_good (rx_deliv r0) sdus s) by (exists i; done).
  assert (Hg' : Forall (sdu_good (rx_deliv r0) sdus) ((new ++ l1) ++ l2)).
  { apply Forall_app in Hg as [Hg1 Hg2]. rewrite <- app_assoc. apply Forall_app. split; [done|].
    rewrite Hperm. by constructor. }
  assert (Hw' : no_wrap (delivered r')).
  { rewrite Edel, Hnew, <- app_assoc. apply Forall_app. split; [done|].
    apply Forall_app in Hg' as [Hg' _]. eapply Forall_impl; [exact Hg'|]. intros x Hx.
    pose proof (good_bound _ _ _ _ Hx (Z.le_refl _)). lia. }
  assert (Hw1 : no_wrap l1) by (rewrite Edel in Hw'; by apply Forall_app in Hw' as [_ Hw']).
  destruct (consecutive_counts _ _ Hk1 Hw1 (ri_deliv _ Hi)) as (Hl1 & _ & _).
  pose proof (ri_deliv _ Hi) as Hrd. rewrite u32_id in Ed by lia.
  exists (new ++ l1). split; try done.
  - apply (store_sdu_inv (r <| stats := st |>)); [done| |done|done].
    change (rx_deliv (r <| stats := st |>)) with (rx_deliv r). simpl. simpl in Hle. lia.
  - eapply same_cfg_trans; [exact Hcfg|]. eapply (same_cfg_trans _ (r <| stats := st |>)); [by split|].
    apply store_sdu_cfg.
  - by rewrite Edel, Hnew, app_assoc.
  - by rewrite El.
  - apply consecutive_app; [done|lia|]. by rewrite u32_id, <- Hd by lia.
  - rewrite Ed, Hd, length_app. lia.
  - assert (Hstep : forall c, c < rx_deliv r \/ nr_pdcp_sdu_in_list (rx_list r) c = true \/ c = sdu_count s ->
      c < rx_deliv r' \/ nr_pdcp_sdu_in_list (rx_list r') c = true).
    { intros c Hc. rewrite El, Ed. destruct Hc as [Hc|Hc]; [left; lia|].
      assert (Hx : exists x, x ∈ l1 ++ l2 /\ sdu_count x = c).
      { setoid_rewrite Hperm. destruct Hc as [Hc| ->]; [|exists s; split; [left|done]].
        apply in_list_spec in Hc as (x & Hx & Ex). exists x. split; [by right|done]. }
      destruct Hx as (x & Hx & Ex). apply elem_of_app in Hx as [Hx|Hx].
      - left. destruct (consecutive_counts _ _ Hk1 Hw1 Hrd) as (_ & [_ F] & _).
        rewrite Forall_forall in F. specialize (F x Hx). simpl in F. lia.
      - right. apply in_list_spec. eauto. }
    constructor; [apply Hstep; auto|]. eapply Forall_impl; [exact Hseen|]. intros j Hj. apply Hstep. destruct Hj; auto.
Qed.

(** A PDU arrives, for the first time or not. *)
Lemma link_recv seen r new i sdu :
  link_inv r0 sdus seen r new -> sdus !! i = Some sdu ->
  let pdu := pdu_of r0 (rx_sdap r0) sdu (rx_deliv r0 + Z.of_nat i) (rx_dir r0) in
  exists r' new', nr_pdcp_entity_recv_pdu r pdu (Z.of_nat (length pdu)) = Done r' /\
    link_inv r0 sdus (i :: seen) r' new'.
Proof.
  intros Hl Hs pdu. pose proof Hl as [Hi Hcfg Hnew Hg Hk Hd Hh Hseen].
  pose proof (lookup_lt_Some _ _ _ Hs) as Hlt. pose proof (same_cfg_cfg _ _ Hcfg Cf0) as Cf.
  pose proof (Forall_lookup_1 _ _ _ _ Hsdus Hs) as [Hsd HB].
  assert (Hnl : (length new <= length sdus)%nat).
  { destruct (decide (new = [])) as [->|Hne]; [simpl; lia|].
    apply Forall_app in Hg as [Hg _].
    assert (Hw : no_wrap new).
    { eapply Forall_impl; [exact Hg|]. intros x Hx. pose proof (good_bound _ _ _ _ Hx (Z.le_refl _)). lia. }
    assert (0 < length new)%nat by (destruct new; [done|simpl; lia]).
    destruct (consecutive_counts _ _ Hk Hw) as (_ & _ & Hx); [lia|].
    destruct (Hx (rx_deliv r0 + Z.of_nat (length new) - 1)) as (x & Hx1 & Hx2); [lia|].
    rewrite Forall_forall in Hg. pose proof (good_bound _ _ _ _ (Hg x Hx1) (Z.le_refl _)). lia. }
  assert (Ep : pdu = pdu_of r (rx_sdap r) sdu (rx_deliv r0 + Z.of_nat i) (rx_dir r)).
  { unfold pdu. rewrite (same_cfg_pdu r0 r) by done. unfold rx_sdap, rx_dir. destruct Hcfg. by rewrite sc_sdap0, sc_gnb0. }
  destruct (recv_pdu_ok r sdu (rx_deliv r0 + Z.of_nat i)) as (st & mi & E); try done.
  - rewrite (sc_suspended _ _ Hcfg). done.
  - lia.
  - unfold rx_sdap. rewrite (sc_sdap _ _ Hcfg). exact Hsd.
  - apply Hi.
  - rewrite (sc_window _ _ Hcfg), Hd. lia.
  - rewrite Ep, E. destruct ((_ <? rx_deliv r) || _) eqn:Edup.
    + exists (r <| stats := st |>), new. split; [done|]. split; try done.
      * by destruct Hi.
      * by destruct Hcfg.
      * constructor; [|done]. simpl. zbool. destruct Edup as [Edup|Edup]; zbool; [by left|by right].
    + zbool. destruct (link_store seen r new i sdu mi st
        (Z.of_nat (length sdu) + integrity_size_of r) Hl Hs) as (new' & Hl'); [simpl; lia|done|].
      by exists (store_sdu (r <| stats := st |>)
        (mk_pdcp_sdu (rx_deliv r0 + Z.of_nat i) sdu (Z.of_nat (length sdu)) mi)
        (Z.of_nat (length sdu) + integrity_size_of r)), new'.
Qed.
End Arrivals.

(** The PDUs of a window are different. *)
Lemma pdu_injective e sdap s1 s2 b i j dir :
  pdcp_cfg e -> (i < j)%nat -> Z.of_nat j < window_size e ->
  pdu_of e sdap s1 (b + Z.of_nat i) dir <> pdu_of e sdap s2 (b + Z.of_nat j) dir.
Proof.
  intros Cf Hij Hj E. unfold pdu_of in E. cbv zeta in E.
  set (tl1 := take sdap s1 ++ _) in E. set (tl2 := take sdap s2 ++ _) in E.
  apply (f_equal (read_sn e)) in E. rewrite !read_header in E by (done || by apply sn_of_range).
  injection E as E. rewrite (pc_max _ Cf), !Z.land_ones in E by (destruct (pc_size _ Cf); lia).
  rewrite (pc_window _ Cf) in Hj.
  assert (Hm : 2 ^ sn_size e = 2 * 2 ^ (sn_size e - 1)) by (destruct (pc_size _ Cf) as [-> | ->]; done).
  apply (f_equal (fun x => (x - b mod 2 ^ sn_size e) mod 2 ^ sn_size e)) in E.
  rewrite <- !Zminus_mod in E. replace (b + Z.of_nat i - b) with (Z.of_nat i) in E by lia.
  replace (b + Z.of_nat j - b) with (Z.of_nat j) in E by lia. rewrite !Z.mod_small in E by lia. lia.
Qed.

Lemma link_run r0 sdus :
  pdcp_cfg r0 -> entity_suspended r0 = false -> Z.of_nat (length sdus) <= window_size r0 ->
  rx_deliv r0 + Z.of_nat (length sdus) <= 2 ^ 31 ->
  Forall (fun s => (rx_sdap r0 < length s)%nat /\ Forall is_byte s) sdus ->
  no_wrap (delivered r0) -> 0 <= rx_deliv r0 ->
  forall arrivals seen r new, link_inv r0 sdus seen r new ->
  Forall (fun p => exists i sdu, sdus !! i = Some sdu /\
    p = pdu_of r0 (rx_sdap r0) sdu (rx_deliv r0 + Z.of_nat i) (rx_dir r0)) arrivals ->
  exists r' new' seen', rx_run r (RxPdu <$> arrivals) = Done r' /\ link_inv r0 sdus seen' r' new' /\
    (forall i sdu, sdus !! i = Some sdu ->
       pdu_of r0 (rx_sdap r0) sdu (rx_deliv r0 + Z.of_nat i) (rx_dir r0) ∈ arrivals -> i ∈ seen') /\
    (forall i, i ∈ seen -> i ∈ seen').
Proof.
  intros Cf Hsu Hlen Hmax Hsdus Hnw Hr0. induction arrivals as [|p arrivals IH]; intros seen r new Hl HF.
  - exists r, new, seen. split_and!; try done. intros i sdu _ Hp. by apply not_elem_of_nil in Hp.
  - apply Forall_cons in HF as [(i & sdu & Hs & ->) HF].
    destruct (link_recv r0 sdus Cf Hsu Hlen Hmax Hsdus Hnw Hr0 seen r new i sdu Hl Hs) as (r1 & new1 & E1 & Hl1).
    destruct (IH _ _ _ Hl1 HF) as (r' & new' & seen' & E' & Hl' & Hall & Hkeep).
    exists r', new', seen'. cbn [fmap list_fmap rx_run rx_do]. rewrite E1. cbn [mbind outcome_bind].
    split_and!; try done.
    + intros j sdu' Hs' Hp. apply elem_of_cons in Hp as [Hp|Hp]; [|by eapply Hall].
      apply Hkeep. pose proof (lookup_lt_Some _ _ _ Hs). pose proof (lookup_lt_Some _ _ _ Hs').
      destruct (decide (i = j)) as [->|Hne]; [left|]. exfalso. destruct (decide (i < j)%nat).
      * revert Hp. apply not_eq_sym. apply pdu_injective; done || lia.
      * revert Hp. apply pdu_injective; done || lia.
    + intros j Hj. apply Hkeep. by right.
Qed.

(** Once all the PDUs have been seen, all the SDUs are delivered. *)
Lemma link_complete r sdus seen r' new :
  0 <= rx_deliv r -> rx_deliv r + Z.of_nat (length sdus) <= 2 ^ 31 -> link_inv r sdus seen r' new ->
  (forall i, (i < length sdus)%nat -> i ∈ seen) ->
  sdu_buffer <$> delivered r' = (sdu_buffer <$> delivered r) ++ sdus /\ rx_list r' = [].
Proof.
  intros Hr0 Hmax [Hi' _ Hnew Hg Hk Hd' Hh Hseen] Hall. apply Forall_app in Hg as [Hnb Hg].
  assert (Hcomplete : (length sdus <= length new)%nat).
  { apply not_lt. intros Hlt. rewrite Forall_forall in Hseen. specialize (Hseen _ (Hall _ Hlt)).
    simpl in Hseen. rewrite <- Hd' in Hseen.
    destruct Hseen as [Hc|Hc]; [lia|]. apply in_list_spec in Hc as (x & Hx & Ex).
    pose proof (ri_list _ Hi') as [HS HB]. unfold head_missing in Hh.
    destruct (rx_list r') as [|y l]; [by apply not_elem_of_nil in Hx|].
    apply elem_of_cons in Hx as [->|Hx]; [done|]. apply StronglySorted_inv in HS as [_ HS].
    rewrite Forall_forall in HS. specialize (HS x Hx). apply Forall_cons in HB as [HB _]. simpl in HS. lia. }
  split.
  - rewrite Hnew, fmap_app. f_equal.
    rewrite (consecutive_buffers sdus (rx_deliv r) new (rx_deliv r) 0 Hk Hnb) by (simpl; lia).
    rewrite drop_0, take_ge by done. done.
  - pose proof (ri_list _ Hi') as [_ HB]. destruct (rx_list r') as [|y l]; [done|].
    apply Forall_cons in HB as [HB _]. apply Forall_cons in Hg as [Hg _].
    pose proof (good_bound _ _ _ _ Hg (Z.le_refl _)). lia.
Qed.

(** C9. The PDCP layer loses nothing, reorders nothing and repeats nothing.  Two
    peers share their configuration and keys, the receiver expects the next COUNT
    of the sender and holds no SDU.  The sender ciphers, protects and
    sends SDUs, at most a window of them; their PDUs arrive in any order, any number
    of times each, at least once.  The receiver then has delivered exactly the
    SDUs, in the order they were sent. *)
Theorem pdcp_lossless (t r : nr_pdcp_entity_t) (sdus : list (list Z)) :
  peers t r -> entity_suspended t = false -> entity_suspended r = false ->
  rx_inv r -> rx_list r = [] -> tx_next t = rx_deliv r ->
  Z.of_nat (length sdus) <= window_size r -> tx_next t + Z.of_nat (length sdus) <= 2 ^ 31 ->
  Forall (fun s => (tx_sdap t < length s)%nat /\ Forall is_byte s) sdus ->
  exists t' pdus, send_all t sdus = Done (t', pdus) /\
    forall arrivals, (forall p, p ∈ arrivals <-> p ∈ pdus) ->
    exists r', rx_run r (RxPdu <$> arrivals) = Done r' /\
      sdu_buffer <$> delivered r' = (sdu_buffer <$> delivered r) ++ sdus /\ rx_list r' = [].
Proof.
  intros P Hst Hsr Hi Hrl Hn Hlen Hmax HF. pose proof P as [Ct Cr _ _ _ _ _ _ _ Es _].
  pose proof (ri_deliv _ Hi) as Hd.
  destruct (send_all_ok sdus t Ct Hst) as (t' & Esend); [lia|done| |].
  { eapply Forall_impl; [exact HF|]. by intros s [? _]. }
  exists t', (pdus_from t (tx_next t) sdus). split; [done|]. intros arrivals Harr.
  assert (Hpdu : forall i sdu, sdus !! i = Some sdu ->
    pdus_from t (tx_next t) sdus !! i = Some (pdu_of r (rx_sdap r) sdu (rx_deliv r + Z.of_nat i) (rx_dir r))).
  { intros i sdu Hs. destruct (pdus_from t (tx_next t) sdus !! i) as [p|] eqn:Ep.
    - apply pdus_from_lookup in Ep as (sdu' & Hs' & ->). rewrite Hs in Hs'. injection Hs' as <-.
      by rewrite (peers_pdu t r) by done; rewrite Hn.
    - apply lookup_ge_None in Ep. rewrite pdus_from_length in Ep. apply lookup_lt_Some in Hs. lia. }
  assert (Hnw : no_wrap (delivered r)).
  { eapply Forall_impl; [apply Hi|]. intros s Hs. simpl in Hs. lia. }
  destruct (link_run r sdus Cr Hsr Hlen ltac:(lia)) with (arrivals := arrivals) (seen := @nil nat) (r := r)
    (new := @nil nr_pdcp_sdu_t) as (r' & new & seen & Erun & Hl & Hall & _); try done.
  - eapply Forall_impl; [exact HF|]. intros s [Hs HB]. split; [|done]. unfold rx_sdap. by rewrite Es.
  - lia.
  - split; try done.
    + by rewrite app_nil_r.
    + simpl. by rewrite Hrl.
    + simpl. lia.
    + unfold head_missing. by rewrite Hrl.
  - apply Forall_forall. intros p Hp. apply Harr, list_elem_of_lookup in Hp as (i & Hp).
    pose proof Hp as Hp'. apply pdus_from_lookup in Hp' as (sdu & Hs & _). exists i, sdu. split; [done|].
    rewrite (Hpdu i sdu Hs) in Hp. by injection Hp as <-.
  - exists r'. split; [done|]. apply (link_complete r sdus seen r' new); [lia|lia|done|].
    intros i Hlt. destruct (lookup_lt_is_Some_2 sdus i Hlt) as [sdu Hs]. eapply Hall; [exact Hs|].
    apply Harr. eapply list_elem_of_lookup_2. by apply Hpdu.
Qed.
End Link.

(** A bearer with nea2 and nia2, gNB to UE. *)
Definition demo_keys : nr_pdcp_entity_security_keys_and_algos_t :=
  mk_keys 2 2 [1; 2; 3; 4; 5; 6; 7; 8; 9; 10; 11; 12; 13; 14; 15; 16]
              [16; 15; 14; 13; 12; 11; 10; 9; 8; 7; 6; 5; 4; 3; 2; 1].
Definition demo_sdus : list (list Z) := [[0x45; 1; 2; 3]; [0x45; 4; 5]; [0x45; 6]].

Lemma demo_entity gnb :
  exists e, new_nr_pdcp_entity NR_PDCP_DRB_AM gnb 4 1 true true 12 100 (-1) demo_keys = Done e /\
            pdcp_cfg e /\ rx_inv e.
Proof.
  eexists. split; [vm_compute; reflexivity|]. split.
  - eapply (new_pdcp_cfg NR_PDCP_DRB_AM gnb 4 1 true true 12 100 (-1) demo_keys); [by left|lia|reflexivity].
  - eapply (new_rx_inv NR_PDCP_DRB_AM gnb 4 1 true true 12 100 (-1) demo_keys). reflexivity.
Qed.

Lemma pdcp_lossless_witness :
  exists t r t' pdus,
    new_nr_pdcp_entity NR_PDCP_DRB_AM true 4 1 true true 12 100 (-1) demo_keys = Done t /\
    new_nr_pdcp_entity NR_PDCP_DRB_AM false 4 1 true true 12 100 (-1) demo_keys = Done r /\
    @send_all toy_crypto t demo_sdus = Done (t', pdus) /\
    forall arrivals, (forall p, p ∈ arrivals <-> p ∈ pdus) ->
    exists r', @rx_run toy_crypto r (RxPdu <$> arrivals) = Done r' /\
      sdu_buffer <$> delivered r' = (sdu_buffer <$> delivered r) ++ demo_sdus /\ rx_list r' = [].
Proof.
  destruct (demo_entity true) as (t & Et & Ct & _). destruct (demo_entity false) as (r & Er & Cr & Ir).
  pose proof Et as Et'. vm_compute in Et'. injection Et' as Et'.
  pose proof Er as Er'. vm_compute in Er'. injection Er' as Er'.
  destruct (@pdcp_lossless toy_crypto toy_crypto_laws t r demo_sdus) as (t' & pdus & H).
  - split; try done; by rewrite <- Et', <- Er'.
  - by rewrite <- Et'.
  - by rewrite <- Er'.
  - done.
  - by rewrite <- Er'.
  - by rewrite <- Et', <- Er'.
  - rewrite <- Er'. done.
  - rewrite <- Et'. done.
  - rewrite <- Et'. unfold demo_sdus, is_byte. simpl. repeat constructor; lia.
  - exists t, r, t', pdus. split; [exact Et|]. split; [exact Er|]. exact H.
Defined.

(** The three PDUs, ciphered, the last one first and twice. *)
Lemma pdcp_example :
  (t ← new_nr_pdcp_entity NR_PDCP_DRB_AM true 4 1 true true 12 100 (-1) demo_keys;
   r ← new_nr_pdcp_entity NR_PDCP_DRB_AM false 4 1 true true 12 100 (-1) demo_keys;
   '(_, pdus) ← @send_all toy_crypto t demo_sdus;
   r ← @rx_run toy_crypto r (RxPdu <$> reverse pdus ++ pdus);
   Done (length <$> pdus, sdu_buffer <$> delivered r, rx_deliv r))
  = Done ([10; 9; 8]%nat, demo_sdus, 3).
Proof. vm_compute. reflexivity. Qed.

(** ** A COUNT below zero *)

Lemma infer_count_negative e sn :
  pdcp_cfg e -> 0 <= rx_deliv e -> rx_deliv e + window_size e <= sn < 2 ^ sn_size e ->
  infer_count e sn = 2 ^ 32 - 2 ^ sn_size e + sn.
Proof.
  intros Cf Hd Hs. unfold infer_count. rewrite (pc_max _ Cf), (pc_window _ Cf) in *.
  destruct (pc_size _ Cf) as [E|E]; rewrite E in *.
  all: rewrite Z.land_ones, Z.mod_small, Z.shiftr_div_pow2, Z.div_small by lia.
  all: rewrite (proj2 (Z.ltb_ge _ _)), (proj2 (Z.geb_le _ _)) by lia.
  - change (u32 (0 - 1)) with (2 ^ 32 - 1).
    change (u32 (Z.shiftl (2 ^ 32 - 1) 12)) with (Z.shiftl (2 ^ 20 - 1) 12).
    rewrite lor_shift_add by lia. lia.
  - change (u32 (0 - 1)) with (2 ^ 32 - 1).
    change (u32 (Z.shiftl (2 ^ 32 - 1) 18)) with (Z.shiftl (2 ^ 14 - 1) 18).
    rewrite lor_shift_add by lia. lia.
Qed.

Lemma nea2_negative `{Crypto} key buf length bearer count dir :
  count < 0 -> nr_pdcp_security_nea2_cipher key buf length bearer count dir = Exit.
Proof. intros Hc. unfold nr_pdcp_security_nea2_cipher. repeat (cif; [done|]). zbool. lia. Qed.

(** A PDU with a large SN at the start of a ciphered bearer stops the program.
    When HFN is still 0, a SN that is at least half of the range above RX_DELIV is
    given the HFN -1, that is a COUNT of 2^31 or more; the cipher takes it as a
    negative [int] and its assertion fails, before any integrity check. *)
Theorem pdcp_count_below_zero_exits `{Crypto} (e : nr_pdcp_entity_t) (b0 : Z) (buf : list Z) (sn : Z) :
  pdcp_cfg e -> entity_suspended e = false -> has_ciphering e = true -> 0 <= rx_deliv e ->
  Z.land b0 0x80 <> 0 -> read_sn e (b0 :: buf) = Done sn ->
  rx_deliv e + window_size e <= sn < 2 ^ sn_size e -> 8 <= Z.of_nat (length buf) ->
  nr_pdcp_entity_recv_pdu e (b0 :: buf) (Z.of_nat (length (b0 :: buf))) = Exit.
Proof.
  intros Cf Hsu Hci Hd Hb0 Hr Hsn Hlen. unfold nr_pdcp_entity_recv_pdu.
  set (size := Z.of_nat (length (b0 :: buf))). assert (Hsz : 9 <= size) by (unfold size; simpl; lia).
  rewrite Hsu, (proj2 (Z.ltb_ge _ _)) by lia.
  change (rd (b0 :: buf) 0) with (Done b0). cbn [mbind outcome_bind].
  rewrite (proj2 (Z.eqb_neq _ _) Hb0), andb_false_r. cbn [mbind outcome_bind].
  set (e1 := e <| stats; rxpdu_pkts ::= _ |> <| stats; rxpdu_bytes ::= _ |>). cbv zeta.
  change (read_sn e1 (b0 :: buf)) with (read_sn e (b0 :: buf)). rewrite Hr. cbn [mbind outcome_bind].
  set (e2 := e1 <| stats; rxpdu_sn := sn |>). assert (Cf2 : pdcp_cfg e2) by (by destruct Cf).
  assert (Hh : 2 <= header_size_of e1 <= 3)
    by (unfold header_size_of, SHORT_PDCP_HEADER_SIZE, LONG_PDCP_HEADER_SIZE; cif; lia).
  assert (Hi : 0 <= integrity_size_of e2 <= 4) by (unfold integrity_size_of, PDCP_INTEGRITY_SIZE; cif; lia).
  assert (Hsd : 0 <= (if has_sdap_rx e1 then 1 else 0) <= 1) by (cif; lia).
  set (sdap := if has_sdap_rx e1 then 1 else 0) in *.
  rewrite (proj2 (Z.ltb_ge size _)) by lia.
  rewrite (infer_count_negative e2 sn Cf2 Hd Hsn). set (count := 2 ^ 32 - 2 ^ sn_size e2 + sn).
  assert (Hc : s32 count < 0).
  { unfold s32. assert (2 ^ 32 - 2 ^ 18 <= count < 2 ^ 32).
    { unfold count. change (sn_size e2) with (sn_size e). pose proof (pc_window _ Cf).
      destruct (pc_size _ Cf) as [E|E]; rewrite E in *; lia. }
    rewrite u32_id by lia. rewrite (proj2 (Z.ltb_ge _ _)) by lia. lia. }
  assert (Hsl : forall off len, 0 <= off -> 0 <= len -> off + len <= size ->
    exists x, slice (b0 :: buf) off len = Done x) by (intros; eexists; by apply slice_done).
  assert (Hu : unprotect e2 (b0 :: buf) size (header_size_of e1 + sdap) (integrity_size_of e2) count = Exit).
  { unfold unprotect. change (has_ciphering e2) with (has_ciphering e). rewrite Hci.
    destruct (Hsl (header_size_of e1 + sdap) (size - (header_size_of e1 + sdap))) as (x & ->); [lia..|].
    cbn [mbind outcome_bind]. unfold cipher.
    change (cipher_ctx e2) with (cipher_ctx e). rewrite (pc_cipher _ Cf Hci).
    by rewrite nea2_negative. }
  destruct (has_integrity e2 || bool_decide (type e2 = NR_PDCP_SRB)); [|by cbn [mbind outcome_bind]; rewrite Hu].
  destruct (Hsl (size - 4) 4) as (x & ->); [lia..|]. cbn [mbind outcome_bind].
  destruct (Hsl 0 (header_size_of e1)) as (y & ->); [lia..|]. cbn [mbind outcome_bind]. by rewrite Hu.
Qed.

Lemma pdcp_count_below_zero_exits_witness :
  exists e, new_nr_pdcp_entity NR_PDCP_DRB_AM true 4 1 true true 12 100 (-1) demo_keys = Done e /\
    @nr_pdcp_entity_recv_pdu toy_crypto e [0x88; 0; 0; 0; 0; 0; 0; 0; 0; 0] 10 = Exit.
Proof.
  destruct (demo_entity true) as (e & Ee & Ce & _). exists e. split; [exact Ee|].
  vm_compute in Ee. injection Ee as Ee.
  apply (@pdcp_count_below_zero_exits toy_crypto e 0x88 [0; 0; 0; 0; 0; 0; 0; 0; 0] 2048 Ce);
    rewrite <- ?Ee; (done || (simpl; lia)).
Defined.
