(* ===== verification/Tbs.v ===== *)
(** Transport block sizes and the search of a number of resource blocks:
    [nr_compute_tbs] (openair2/LAYER2/NR_MAC_COMMON/nr_compute_tbs_common.c),
    [multiple_2_3_5] and [nr_find_nb_rb]
    (openair2/LAYER2/NR_MAC_gNB/gNB_scheduler_primitives.c). *)

From S2P Require Import Prelude.

(** ** Transport block size *)

Definition Tbstable_nr : list Z :=
  [24; 32; 40; 48; 56; 64; 72; 80; 88; 96; 104; 112; 120; 128; 136; 144; 152; 160; 168;
   176; 184; 192; 208; 224; 240; 256; 272; 288; 304; 320; 336; 352; 368; 384; 408; 432; 456; 480;
   504; 528; 552; 576; 608; 640; 672; 704; 736; 768; 808; 848; 888; 928; 984; 1032; 1064; 1128; 1160;
   1192; 1224; 1256; 1288; 1320; 1352; 1416; 1480; 1544; 1608; 1672; 1736; 1800; 1864; 1928; 2024; 2088; 2152; 2216;
   2280; 2408; 2472; 2536; 2600; 2664; 2728; 2792; 2856; 2976; 3104; 3240; 3368; 3496; 3624; 3752; 3824].

Definition NR_MAX_PDSCH_TBS : Z := 3824.

Definition ROUNDIDIV (a b : Z) : Z := (Z.shiftl a 1 + b) / (Z.shiftl b 1).
Definition CEILIDIV (a b : Z) : Z := (a + b - 1) / b.

(** The loop on the table: the first entry that is large enough. *)
Fixpoint first_at_least (l : list Z) (x : Z) : Z :=
  match l with
  | [] => 0
  | t :: l => if t >=? x then t else first_at_least l x
  end.

(** For a number of information bits [Ninfo]; [floor(log2(x))] is [Z.log2], the
    doubles of the source being exact enough on 32 bits. *)
Definition tbs_of_ninfo (R Ninfo : Z) : Z :=
  if Ninfo <=? NR_MAX_PDSCH_TBS then
    let n := Z.max 3 (Z.log2 Ninfo - 6) in
    let Np_info := Z.max 24 (Z.shiftl (Z.shiftr Ninfo n) n) in
    first_at_least Tbstable_nr Np_info
  else
    let n := Z.log2 (Ninfo - 24) - 5 in
    let Np_info := Z.max 3840 (Z.shiftl (ROUNDIDIV (Ninfo - 24) (Z.shiftl 1 n)) n) in
    if R <=? 2560 then
      let C := CEILIDIV (Np_info + 24) 3816 in
      Z.shiftl C 3 * CEILIDIV (Np_info + 24) (Z.shiftl C 3) - 24
    else if Np_info >? 8424 then
      let C := CEILIDIV (Np_info + 24) 8424 in
      Z.shiftl C 3 * CEILIDIV (Np_info + 24) (Z.shiftl C 3) - 24
    else Z.shiftl (CEILIDIV (Np_info + 24) 8) 3 - 24.

Definition nr_compute_tbs (Qm R nb_rb nb_symb_sch nb_dmrs_prb nb_rb_oh tb_scaling Nl : Z) : Z :=
  let nbp_re := u32 (12 * nb_symb_sch - nb_dmrs_prb - nb_rb_oh) in
  let nb_re := u32 (Z.min 156 nbp_re * nb_rb) in
  let R_5 := R / 5 in
  let Ninfo := Z.shiftr (Z.shiftr (u32 (nb_re * R_5 * Qm * Nl)) 11) tb_scaling in
  tbs_of_ninfo R Ninfo.

(** ** Search of a number of resource blocks *)

(** [while (rb % d == 0) rb /= d;] *)
Fixpoint divide_out (fuel : nat) (d rb : Z) : outcome Z :=
  match fuel with
  | O => Undef
  | S fuel => if Z.rem rb d =? 0 then divide_out fuel d (Z.quot rb d) else Done rb
  end.

Definition multiple_2_3_5 (rb : Z) : outcome bool :=
  let fuel := S (Z.to_nat rb) in
  rb ← divide_out fuel 2 rb;
  rb ← divide_out fuel 3 rb;
  rb ← divide_out fuel 5 rb;
  Done (rb =? 1).

Section Search.
(** The TBS of a number of resource blocks, in bytes; transform precoding enabled. *)
Variable tbs_of : Z -> Z.
Variable transform : bool.

Definition allowed (rb : Z) : outcome bool := if transform then multiple_2_3_5 rb else Done true.

(** [while (... && !multiple_2_3_5(nb_rb_max)) nb_rb_max--;] *)
Fixpoint lower_max (fuel : nat) (nb_rb_max : Z) : outcome Z :=
  match fuel with
  | O => Undef
  | S fuel => ok ← allowed nb_rb_max;
              if ok : bool then Done nb_rb_max else lower_max fuel (u16 (nb_rb_max - 1))
  end.

(** [while (... && !multiple_2_3_5(p)) p++;] *)
Fixpoint raise_p (fuel : nat) (p : Z) : outcome Z :=
  match fuel with
  | O => Undef
  | S fuel => ok ← allowed p; if ok : bool then Done p else raise_p fuel (p + 1)
  end.

(** The binary search; the result is [hi]. *)
Fixpoint bsearch (fuel : nat) (bytes lo hi : Z) : outcome Z :=
  if lo + 1 <? hi then
    match fuel with
    | O => Undef
    | S fuel =>
        p ← raise_p (S (Z.to_nat (hi - lo))) (Z.quot (hi + lo) 2);
        if p =? hi then Done hi
        else if bytes =? tbs_of p then Done p
        else if bytes <? tbs_of p then bsearch fuel bytes lo p
        else bsearch fuel bytes p hi
    end
  else Done hi.

(** Returns the boolean, [*tbs] and [*nb_rb]. *)
Definition find_nb_rb (bytes nb_rb_min nb_rb_max : Z) : outcome (bool * Z * Z) :=
  nb_rb_max ← lower_max (S (Z.to_nat nb_rb_max)) nb_rb_max;
  let tbs := tbs_of nb_rb_max in
  if bytes >? tbs then Done (false, tbs, nb_rb_max)
  else if bytes =? tbs then Done (true, tbs, nb_rb_max)
  else
    let tbs := tbs_of nb_rb_min in
    if bytes <=? tbs then Done (true, tbs, nb_rb_min)
    else
      hi ← bsearch (Z.to_nat (nb_rb_max - nb_rb_min)) bytes nb_rb_min nb_rb_max;
      let tbs := tbs_of hi in
      Done ((tbs >=? bytes) && (hi <=? nb_rb_max), tbs, hi).
End Search.

Definition nr_find_nb_rb (Qm R : Z) (transform : bool) (nrOfLayers nb_symb_sch nb_dmrs_prb bytes
    nb_rb_min nb_rb_max : Z) : outcome (bool * Z * Z) :=
  find_nb_rb (fun p => Z.shiftr (nr_compute_tbs Qm R p nb_symb_sch nb_dmrs_prb 0 0 nrOfLayers) 3)
    transform bytes nb_rb_min nb_rb_max.

(** ** The size of a transport block *)

Lemma first_at_least_spec l x :
  (exists t, t ∈ l /\ x <= t) -> first_at_least l x ∈ l /\ x <= first_at_least l x.
Proof.
  induction l as [|t l IH]; simpl; intros (u & Hu & Hx); [by apply not_elem_of_nil in Hu|].
  cif; zbool; [split; [left|lia]|]. apply elem_of_cons in Hu as [->|Hu]; [lia|].
  destruct (IH (ex_intro _ u (conj Hu Hx))). split; [by right|done].
Qed.

Lemma ceil_mult C x : 0 < C -> 0 < x -> x <= Z.shiftl C 3 * CEILIDIV x (Z.shiftl C 3).
Proof.
  intros HC Hx. unfold CEILIDIV. rewrite Z.shiftl_mul_pow2 by lia. change (2 ^ 3) with 8.
  pose proof (Z.div_mod (x + C * 8 - 1) (C * 8) ltac:(lia)).
  pose proof (Z.mod_pos_bound (x + C * 8 - 1) (C * 8) ltac:(lia)). lia.
Qed.

Lemma ceil_pos x b : 0 < b -> b <= x -> 0 < CEILIDIV x b.
Proof. intros Hb Hx. unfold CEILIDIV. apply Z.div_str_pos. lia. Qed.

Lemma shiftr_shiftl_le x n : 0 <= x -> 0 <= n -> Z.shiftl (Z.shiftr x n) n <= x.
Proof.
  intros Hx Hn. rewrite Z.shiftl_mul_pow2, Z.shiftr_div_pow2 by done.
  pose proof (Z.mul_div_le x (2 ^ n) ltac:(lia)). lia.
Qed.

Lemma Tbstable_bytes t : t ∈ Tbstable_nr -> 24 <= t /\ t mod 8 = 0.
Proof.
  assert (F : Forall (fun t => (24 <=? t) && (t mod 8 =? 0) = true) Tbstable_nr) by (by vm_compute; repeat constructor).
  intros Ht. rewrite Forall_forall in F. specialize (F t Ht). simpl in F. zbool. lia.
Qed.

(** Blocks of [8 * C] bits, less the CRC. *)
Lemma blocks_bytes C k x : 0 < C -> 3864 <= x -> x <= Z.shiftl C 3 * k ->
  24 <= Z.shiftl C 3 * k - 24 /\ (Z.shiftl C 3 * k - 24) mod 8 = 0.
Proof.
  intros HC Hx Hk. split; [lia|]. rewrite Z.shiftl_mul_pow2 by lia.
  replace (C * 2 ^ 3 * k - 24) with ((C * k - 3) * 8) by lia. apply Z_mod_mult.
Qed.

Lemma tbs_of_ninfo_bytes R N : 0 <= N -> 24 <= tbs_of_ninfo R N /\ tbs_of_ninfo R N mod 8 = 0.
Proof.
  intros HN. unfold tbs_of_ninfo, NR_MAX_PDSCH_TBS. cif; zbool.
  - apply Tbstable_bytes, first_at_least_spec. exists 3824. split; [by vm_compute; repeat constructor|].
    set (n := Z.max 3 _). pose proof (shiftr_shiftl_le N n HN ltac:(lia)). lia.
  - set (Np := Z.max 3840 _). assert (HNp : 3840 <= Np) by lia.
    cif; [|cif].
    + eapply blocks_bytes; [apply ceil_pos; lia|exact (ltac:(lia) : 3864 <= Np + 24)|].
      apply ceil_mult; [apply ceil_pos; lia|lia].
    + zbool. eapply blocks_bytes; [apply ceil_pos; lia|exact (ltac:(lia) : 3864 <= Np + 24)|].
      apply ceil_mult; [apply ceil_pos; lia|lia].
    + replace (Z.shiftl (CEILIDIV (Np + 24) 8) 3) with (Z.shiftl 1 3 * CEILIDIV (Np + 24) (Z.shiftl 1 3))
        by (rewrite (Z.shiftl_mul_pow2 (CEILIDIV _ _)) by lia; change (Z.shiftl 1 3) with 8; lia).
      apply (blocks_bytes 1 _ (Np + 24)); [lia|lia|]. apply ceil_mult; lia.
Qed.

(** Transport block sizes.  Whatever the modulation, the code rate and the number of
    resource blocks, the size is at least 24 bits, and a whole number of bytes. *)
Theorem nr_compute_tbs_bytes (Qm R nb_rb nb_symb_sch nb_dmrs_prb nb_rb_oh tb_scaling Nl : Z) :
  24 <= nr_compute_tbs Qm R nb_rb nb_symb_sch nb_dmrs_prb nb_rb_oh tb_scaling Nl /\
  nr_compute_tbs Qm R nb_rb nb_symb_sch nb_dmrs_prb nb_rb_oh tb_scaling Nl mod 8 = 0.
Proof.
  unfold nr_compute_tbs. apply tbs_of_ninfo_bytes, Z.shiftr_nonneg, Z.shiftr_nonneg. by apply Z.mod_pos_bound.
Qed.

(** ** The search *)

Lemma divide_out_total d : 2 <= d -> forall fuel rb,
  1 <= rb -> (Z.to_nat rb < fuel)%nat -> exists r, divide_out fuel d rb = Done r /\ 1 <= r <= rb.
Proof.
  intros Hd. induction fuel as [|fuel IH]; intros rb Hr Hf; [lia|]. simpl. cif; zbool; [|exists rb; split; [done|lia]].
  assert (Hq : 1 <= Z.quot rb d < rb).
  { rewrite Z.quot_div_nonneg by lia. rewrite Z.rem_mod_nonneg in E by lia.
    pose proof (Z.div_mod rb d ltac:(lia)). nia. }
  destruct (IH (Z.quot rb d)) as (r & -> & Hr'); [lia|lia|]. exists r. split; [done|lia].
Qed.

Lemma allowed_total transform p : 1 <= p -> exists b, allowed transform p = Done b.
Proof.
  intros Hp. unfold allowed. destruct transform; [|eauto]. unfold multiple_2_3_5.
  destruct (divide_out_total 2 ltac:(lia) (S (Z.to_nat p)) p Hp ltac:(lia)) as (r2 & -> & H2).
  cbn [mbind outcome_bind].
  destruct (divide_out_total 3 ltac:(lia) (S (Z.to_nat p)) r2) as (r3 & -> & H3); [lia|lia|].
  cbn [mbind outcome_bind].
  destruct (divide_out_total 5 ltac:(lia) (S (Z.to_nat p)) r3) as (r5 & -> & H5); [lia|lia|].
  cbn [mbind outcome_bind]. eauto.
Qed.

Lemma lower_max_ok transform : forall fuel m,
  1 <= m < 2 ^ 16 -> (Z.to_nat m < fuel)%nat ->
  exists m', lower_max transform fuel m = Done m' /\ 1 <= m' <= m /\ allowed transform m' = Done true.
Proof.
  induction fuel as [|fuel IH]; intros m Hm Hf; [lia|]. cbn [lower_max].
  destruct (allowed_total transform m) as ([|] & E); [lia| |]; rewrite E; cbn [mbind outcome_bind].
  - exists m. split_and!; done || lia.
  - assert (m <> 1) by (intros ->; destruct transform; vm_compute in E; discriminate).
    unfold u16. rewrite Z.mod_small by lia.
    destruct (IH (m - 1)) as (m' & -> & Hm' & Ha); [lia|lia|]. exists m'. split_and!; done || lia.
Qed.

Lemma raise_p_ok transform hi : allowed transform hi = Done true -> forall fuel p,
  1 <= p <= hi -> (Z.to_nat (hi - p) < fuel)%nat ->
  exists p', raise_p transform fuel p = Done p' /\ p <= p' <= hi /\ allowed transform p' = Done true /\
             (transform = false -> p' = p).
Proof.
  intros Hhi. induction fuel as [|fuel IH]; intros p Hp Hf; [lia|]. cbn [raise_p].
  destruct (allowed_total transform p) as ([|] & E); [lia| |]; rewrite E; cbn [mbind outcome_bind].
  - exists p. split_and!; done || lia.
  - assert (p <> hi) by (intros ->; congruence).
    destruct (IH (p + 1)) as (p' & -> & Hp' & Ha & _); [lia|lia|]. exists p'. split_and!; try done; try lia.
    intros ->. done.
Qed.

Lemma bsearch_stop tbs_of transform fuel bytes lo hi :
  hi <= lo + 1 -> bsearch tbs_of transform fuel bytes lo hi = Done hi.
Proof. intros H. destruct fuel; cbn [bsearch]; destruct (lo + 1 <? hi) eqn:E; zbool; done || lia. Qed.

(** The search keeps a value too small on the left and one large enough on the right. *)
Lemma bsearch_ok tbs_of transform bytes : forall fuel lo hi,
  0 <= lo < hi -> (Z.to_nat (hi - lo) <= fuel)%nat -> allowed transform hi = Done true ->
  tbs_of lo < bytes <= tbs_of hi ->
  exists r, bsearch tbs_of transform fuel bytes lo hi = Done r /\ lo < r <= hi /\ bytes <= tbs_of r /\
    allowed transform r = Done true /\
    (transform = false -> tbs_of (r - 1) < bytes \/ tbs_of r = bytes).
Proof.
  induction fuel as [|fuel IH]; intros lo hi Hlh Hf Ha Ht; [lia|]. cbn [bsearch].
  destruct (lo + 1 <? hi) eqn:El; zbool.
  2: { exists hi. split_and!; try done; try lia. intros _. left. replace (hi - 1) with lo by lia. lia. }
  rewrite Z.quot_div_nonneg by lia.
  pose proof (Z.div_mod (hi + lo) 2 ltac:(lia)). pose proof (Z.mod_pos_bound (hi + lo) 2 ltac:(lia)).
  destruct (raise_p_ok transform hi Ha (S (Z.to_nat (hi - lo))) ((hi + lo) / 2)) as (p & -> & Hp & Hap & Htr);
    [lia|lia|]. cbn [mbind outcome_bind].
  destruct (p =? hi) eqn:Ep; zbool.
  { exists hi. split_and!; try done; try lia. intros Hf0. specialize (Htr Hf0). lia. }
  destruct (bytes =? tbs_of p) eqn:Eb; zbool.
  { exists p. split_and!; try done; try lia. }
  destruct (bytes <? tbs_of p) eqn:Ec; zbool.
  - destruct (IH lo p) as (r & -> & Hr & Hb & Har & Hm); [lia|lia|done|lia|].
    exists r. split_and!; try done; lia.
  - destruct (IH p hi) as (r & -> & Hr & Hb & Har & Hm); [lia|lia|done|lia|].
    exists r. split_and!; try done; lia.
Qed.

Lemma find_nb_rb_spec tbs_of transform bytes nb_rb_min nb_rb_max :
  0 <= nb_rb_min < nb_rb_max -> nb_rb_max < 2 ^ 16 ->
  exists ok n, find_nb_rb tbs_of transform bytes nb_rb_min nb_rb_max = Done (ok, tbs_of n, n) /\
    (ok = true <-> bytes <= tbs_of n) /\ 0 <= n <= nb_rb_max /\
    (n = nb_rb_min \/ allowed transform n = Done true) /\
    (transform = false -> ok = false -> n = nb_rb_max) /\
    (transform = false -> ok = true -> n = nb_rb_min \/ tbs_of n = bytes \/ tbs_of (n - 1) < bytes).
Proof.
  intros Hmm Hmax. unfold find_nb_rb.
  destruct (lower_max_ok transform (S (Z.to_nat nb_rb_max)) nb_rb_max) as (m & Em & Hm & Ha); [lia|lia|].
  rewrite Em. cbn [mbind outcome_bind].
  assert (Hmf : transform = false -> m = nb_rb_max).
  { intros ->. cbn [lower_max allowed mbind outcome_bind] in Em. congruence. }
  cbv zeta. cif; zbool.
  { exists false, m. split; [done|]. split; [split; [done|lia]|]. split; [lia|]. split; [by right|].
    split; [auto|done]. }
  cif; zbool.
  { exists true, m. split; [done|]. split; [split; [lia|done]|]. split; [lia|]. split; [by right|].
    split; [done|]. intros _ _. right. by left. }
  cif; zbool.
  { exists true, nb_rb_min. split; [done|]. split; [split; [lia|done]|]. split; [lia|]. split; [by left|].
    split; [done|]. intros _ _. by left. }
  destruct (decide (nb_rb_min < m)) as [Hlt|Hge].
  - destruct (bsearch_ok tbs_of transform bytes (Z.to_nat (m - nb_rb_min)) nb_rb_min m)
      as (r & -> & Hr & Hb & Har & Hmin); [lia|lia|done|lia|]. cbn [mbind outcome_bind].
    exists true, r. rewrite (proj2 (Z.geb_le _ _)), (proj2 (Z.leb_le _ _)) by lia.
    split; [done|]. split; [split; [lia|done]|]. split; [lia|]. split; [by right|].
    split; [done|]. intros Hf _. destruct (Hmin Hf); auto.
  - rewrite bsearch_stop by lia. cbn [mbind outcome_bind]. exists true, m.
    rewrite (proj2 (Z.geb_le _ _)), (proj2 (Z.leb_le _ _)) by lia.
    split; [done|]. split; [split; [lia|done]|]. split; [lia|]. split; [by right|].
    split; [done|]. intros Hf. specialize (Hmf Hf). lia.
Qed.

(** C36. The search of a number of resource blocks.  It ends; the size it returns is that of the
    number it returns; it succeeds exactly when the size is enough, and otherwise (without
    transform precoding) returns the maximum.  With transform precoding the number
    is of the form 2^a 3^b 5^c unless it is the minimum.  Without, one resource block
    less would not be enough, unless the number is the minimum or fits exactly. *)
Theorem nr_find_nb_rb_spec (Qm R : Z) (transform : bool) (nrOfLayers nb_symb_sch nb_dmrs_prb bytes
    nb_rb_min nb_rb_max : Z) :
  let tbs_of p := Z.shiftr (nr_compute_tbs Qm R p nb_symb_sch nb_dmrs_prb 0 0 nrOfLayers) 3 in
  0 <= nb_rb_min < nb_rb_max -> nb_rb_max < 2 ^ 16 ->
  exists ok n,
    nr_find_nb_rb Qm R transform nrOfLayers nb_symb_sch nb_dmrs_prb bytes nb_rb_min nb_rb_max
      = Done (ok, tbs_of n, n) /\
    (ok = true <-> bytes <= tbs_of n) /\ 0 <= n <= nb_rb_max /\
    (n = nb_rb_min \/ allowed transform n = Done true) /\
    (transform = false -> ok = false -> n = nb_rb_max) /\
    (transform = false -> ok = true -> n = nb_rb_min \/ tbs_of n = bytes \/ tbs_of (n - 1) < bytes).
Proof. intros tbs_of. apply (find_nb_rb_spec tbs_of). Qed.

Lemma nr_find_nb_rb_spec_witness :
  let tbs_of p := Z.shiftr (nr_compute_tbs 6 8220 p 12 12 0 0 1) 3 in
  nr_find_nb_rb 6 8220 false 1 12 12 1000 5 106 = Done (true, 1024, 13) /\
  exists ok n, nr_find_nb_rb 6 8220 false 1 12 12 1000 5 106 = Done (ok, tbs_of n, n) /\
    (ok = true <-> 1000 <= tbs_of n) /\ 0 <= n <= 106 /\
    (n = 5 \/ allowed false n = Done true) /\ (false = false -> ok = false -> n = 106) /\
    (false = false -> ok = true -> n = 5 \/ tbs_of n = 1000 \/ tbs_of (n - 1) < 1000).
Proof.
  intros tbs_of. split; [vm_compute; reflexivity|].
  apply (nr_find_nb_rb_spec 6 8220 false 1 12 12 1000 5 106); lia.
Defined.

(** Whatever the bounds, the number is at most the larger one. *)
Lemma find_nb_rb_max tbs_of bytes nb_rb_min nb_rb_max :
  0 <= nb_rb_min -> 0 <= nb_rb_max < 2 ^ 16 ->
  exists ok tbs n, find_nb_rb tbs_of false bytes nb_rb_min nb_rb_max = Done (ok, tbs, n) /\
    0 <= n <= Z.max nb_rb_min nb_rb_max.
Proof.
  intros H1 H2. unfold find_nb_rb.
  cbn [lower_max allowed mbind outcome_bind]. cbv zeta.
  cif; [do 3 eexists; split; [reflexivity|lia]|]. cif; [do 3 eexists; split; [reflexivity|lia]|].
  cif; [do 3 eexists; split; [reflexivity|lia]|]. zbool.
  destruct (decide (nb_rb_min < nb_rb_max)) as [Hlt|Hge].
  - destruct (bsearch_ok tbs_of false bytes (Z.to_nat (nb_rb_max - nb_rb_min)) nb_rb_min nb_rb_max)
      as (r & -> & Hr & _); [lia|lia|done|lia|]. cbn [mbind outcome_bind].
    do 3 eexists. split; [reflexivity|]. lia.
  - rewrite bsearch_stop by lia. cbn [mbind outcome_bind]. do 3 eexists. split; [reflexivity|]. lia.
Qed.

(** With a minimum of one resource block, a size that fits exactly is found within the maximum. *)
Lemma nr_find_nb_rb_exact Qm R Nl symb dmrs bytes m : 0 <= m < 2 ^ 16 ->
  exists ok tbs n, nr_find_nb_rb Qm R false Nl symb dmrs bytes 1 m = Done (ok, tbs, n) /\
    0 <= n /\ (tbs = bytes -> n <= m).
Proof.
  intros Hm. unfold nr_find_nb_rb. set (tbs_of := fun p => Z.shiftr (nr_compute_tbs Qm R p symb dmrs 0 0 Nl) 3).
  destruct (decide (1 <= m)) as [H1|H0].
  { destruct (find_nb_rb_max tbs_of bytes 1 m) as (ok & t & n & E & Hn); [lia|lia|]. exists ok, t, n. split; [done|]. lia. }
  assert (H01 : tbs_of 0 <= tbs_of 1).
  { unfold tbs_of, nr_compute_tbs. rewrite Z.mul_0_r. change (u32 0) with 0. rewrite !Z.mul_0_l.
    change (Z.shiftr (tbs_of_ninfo R (Z.shiftr (Z.shiftr (u32 0) 11) 0)) 3) with 3.
    rewrite Z.shiftr_div_pow2 by lia. apply Z.div_le_lower_bound; [lia|].
    apply tbs_of_ninfo_bytes, Z.shiftr_nonneg, Z.shiftr_nonneg. by apply Z.mod_pos_bound. }
  assert (m = 0) as -> by lia. unfold find_nb_rb. cbn [lower_max allowed mbind outcome_bind]. cbv zeta.
  cif; [do 3 eexists; split; [reflexivity|lia]|]. cif; [do 3 eexists; split; [reflexivity|lia]|].
  cif; zbool; [do 3 eexists; split; [reflexivity|lia]|]. rewrite bsearch_stop by lia. cbn [mbind outcome_bind].
  do 3 eexists. split; [reflexivity|]. lia.
Qed.
