(* ===== verification/SlicePolicy.v ===== *)
(** Slices and their PRB policies: the data of openair2/LAYER2/NR_MAC_gNB/nr_mac_gNB.h,
    the configuration of the slices (openair2/GNB_APP/gnb_config.c), the update of the
    policies from the rrmPolicy file ([nr_update_slice_policy] of
    gNB_scheduler_dlsch.c) and from the E2 agent ([apply_slicing_ctrl] of
    openair2/E2_AGENT/e2_message_handlers.c). *)

From S2P Require Import Prelude.

(** ** Data *)

Record nssai_t := mk_nssai { sst : Z; sd : Z }.
#[export] Instance eta_nssai : Eta nssai_t := fun r => mk_nssai (sst r) (sd r).

Record NR_slice_prb_policy_t := mk_policy {
  dedicated_ratio : Z;
  min_ratio : Z;
  max_ratio : Z
}.
#[export] Instance eta_policy : Eta NR_slice_prb_policy_t := fun r =>
  mk_policy (dedicated_ratio r) (min_ratio r) (max_ratio r).

Record NR_slice_info_t := mk_slice {
  sl_sid : Z;
  sl_nssai : nssai_t;
  spolicy : NR_slice_prb_policy_t
}.
#[export] Instance eta_slice : Eta NR_slice_info_t := fun r => mk_slice (sl_sid r) (sl_nssai r) (spolicy r).

Definition MAX_NUM_SLICE : Z := 8.

(** [SL_info->list]: the slices before the NULL that ends the array. *)
Definition NR_Slices_t := list NR_slice_info_t.

(** ** Configuration *)

(** The slices of the configuration, from number [sid] on. *)
Fixpoint configured_slices (sid : Z) (params : list nssai_t) : NR_Slices_t :=
  match params with
  | [] => []
  | p :: params =>
      mk_slice sid (mk_nssai (u8 (sst p)) (sd p)) (mk_policy 0 0 100) :: configured_slices (sid + 1) params
  end.

(** Returns [dl_num_slice] and the slices. *)
Definition init_slices (params : list nssai_t) : outcome (Z * NR_Slices_t) :=
  let numelt := Z.of_nat (length params) in
  if negb (numelt <=? MAX_NUM_SLICE) then Exit
  else Done (u8 (numelt + 1), mk_slice 0 (mk_nssai 0 0) (mk_policy 0 0 100) :: configured_slices 1 params).

(** The array [SL_info->list] that holds the slices: it is allocated with zeros. *)
Definition SL_array (SL_list : NR_Slices_t) : list (option NR_slice_info_t) :=
  (Some <$> SL_list) ++ replicate (Z.to_nat (MAX_NUM_SLICE + 1) - length SL_list) None.

(** [SL_iterator]: the slices up to the NULL; past the end of the array there is none. *)
Fixpoint SL_iterator (list : list (option NR_slice_info_t)) : outcome NR_Slices_t :=
  match list with
  | [] => Undef
  | None :: _ => Done []
  | Some SL :: list => SLs ← SL_iterator list; Done (SL :: SLs)
  end.

(** ** The rrmPolicy file *)

(** An element of the array "rrmPolicyRatio": the integers [json_object_get_int] returns. *)
Record rrm_policy := mk_rrm { j_sst : Z; j_sd : Z; j_min_ratio : Z; j_max_ratio : Z; j_dedicated_ratio : Z }.

Definition nssai_is (SL : NR_slice_info_t) (sst' sd' : Z) : bool :=
  (sst (sl_nssai SL) =? sst') && (sd (sl_nssai SL) =? sd').

(** The body of the loop on the array. *)
Definition apply_rrm_policy (SL_list : NR_Slices_t) (o : rrm_policy) : NR_Slices_t :=
  let sst := u8 (j_sst o) in
  let sd := u32 (j_sd o) in
  let min_ratio' := u8 (j_min_ratio o) in
  let max_ratio' := u8 (j_max_ratio o) in
  let dedicated_ratio' := u8 (j_dedicated_ratio o) in
  let sd := if sd =? 0 then 0xffffff else sd in
  let min_ratio' := if dedicated_ratio' >? min_ratio' then dedicated_ratio' else min_ratio' in
  let max_ratio' := if min_ratio' >? max_ratio' then min_ratio' else max_ratio' in
  (fun SL => if nssai_is SL sst sd
             then SL <| spolicy := mk_policy dedicated_ratio' min_ratio' max_ratio' |> else SL) <$> SL_list.

Definition sum_of (f : NR_slice_prb_policy_t -> Z) (SL_list : NR_Slices_t) : Z :=
  foldl (fun sum SL => sum + f (spolicy SL)) 0 SL_list.

(** [file]: the array of the file, None when the file or its array cannot be read. *)
Definition nr_update_slice_policy (SL_list : NR_Slices_t) (file : option (list rrm_policy)) : NR_Slices_t :=
  match file with
  | None => SL_list
  | Some entries =>
      let SL_list := foldl apply_rrm_policy SL_list entries in
      let sum := sum_of min_ratio SL_list in
      let sum_dedi := sum_of dedicated_ratio SL_list in
      if (sum >? 100) || (sum_dedi >? 100)
      then (fun sl => sl <| spolicy; min_ratio := 0 |> <| spolicy; dedicated_ratio := 0 |>) <$> SL_list
      else SL_list
  end.

(** ** The slicing control of the E2 agent *)

(** The message: [sd] is None when [has_sd] is false. *)
Record SlicingControlM := mk_ctrl_msg { sc_sst : Z; sc_sd : option Z; sc_min_ratio : Z; sc_max_ratio : Z }.

(** The loop of [apply_slicing_ctrl]: the slices and [sum_min_ratio], a [uint8_t]. *)
Fixpoint slicing_ctrl_loop (SL_list : NR_Slices_t) (sst sd min_ratio' max_ratio' sum : Z) : NR_Slices_t * Z :=
  match SL_list with
  | [] => ([], sum)
  | SL :: rest =>
      let SL := if nssai_is SL sst sd
                then SL <| spolicy; min_ratio := min_ratio' |> <| spolicy; max_ratio := max_ratio' |> else SL in
      let '(rest, sum) := slicing_ctrl_loop rest sst sd min_ratio' max_ratio' (u8 (sum + min_ratio (spolicy SL))) in
      (SL :: rest, sum)
  end.

Definition apply_slicing_ctrl (SL_list : NR_Slices_t) (m : SlicingControlM) : outcome NR_Slices_t :=
  let sst := u8 (sc_sst m) in
  let sd := match sc_sd m with Some sd => sd | None => 0xffffff end in
  let '(SL_list, sum) := slicing_ctrl_loop SL_list sst (u32 sd) (u8 (sc_min_ratio m)) (u8 (sc_max_ratio m)) 0 in
  if sum >? 100 then Exit else Done SL_list.

(** ** The file keeps the policies consistent *)

Definition policy_ok (SL : NR_slice_info_t) : Prop :=
  0 <= dedicated_ratio (spolicy SL) <= min_ratio (spolicy SL) /\
  min_ratio (spolicy SL) <= max_ratio (spolicy SL) < 2 ^ 8.

(** The slices are the same, up to their policies. *)
Definition same_slices (l l' : NR_Slices_t) : Prop :=
  Forall2 (fun SL SL' => sl_sid SL' = sl_sid SL /\ sl_nssai SL' = sl_nssai SL) l l'.

#[export] Instance same_slices_preorder : PreOrder same_slices.
Proof.
  split.
  - intros l. induction l; constructor; auto.
  - intros l1 l2 l3 H12. revert l3. induction H12 as [|x y l1 l2 [Hs Hn] H IH]; intros l3 H23; inversion H23; subst;
      constructor; [|by apply IH]. destruct_and!. split; congruence.
Qed.

Lemma same_slices_map (f : NR_slice_info_t -> NR_slice_info_t) l :
  (forall SL, sl_sid (f SL) = sl_sid SL /\ sl_nssai (f SL) = sl_nssai SL) -> same_slices l (f <$> l).
Proof. intros H. induction l; simpl; constructor; auto. Qed.

Lemma u8_range z : 0 <= u8 z < 2 ^ 8.
Proof. by apply Z.mod_pos_bound. Qed.

Lemma apply_rrm_policy_ok l o :
  Forall policy_ok l -> Forall policy_ok (apply_rrm_policy l o) /\ same_slices l (apply_rrm_policy l o).
Proof.
  intros F. unfold apply_rrm_policy. cbv zeta.
  pose proof (u8_range (j_min_ratio o)). pose proof (u8_range (j_max_ratio o)).
  pose proof (u8_range (j_dedicated_ratio o)).
  set (m := u8 (j_min_ratio o)) in *. set (x := u8 (j_max_ratio o)) in *. set (d := u8 (j_dedicated_ratio o)) in *.
  split; [|apply same_slices_map; intros SL; destruct (nssai_is _ _ _); done].
  apply Forall_fmap. eapply Forall_impl; [exact F|]. intros SL HSL. unfold compose.
  destruct (nssai_is _ _ _); [|done]. unfold policy_ok; simpl.
  destruct (d >? m) eqn:E1; [destruct (d >? x) eqn:E2|destruct (m >? x) eqn:E2]; zbool; lia.
Qed.

Lemma foldl_rrm_ok : forall entries l,
  Forall policy_ok l ->
  Forall policy_ok (foldl apply_rrm_policy l entries) /\ same_slices l (foldl apply_rrm_policy l entries).
Proof.
  induction entries as [|o entries IH]; intros l F; simpl; [done|].
  destruct (apply_rrm_policy_ok l o F) as [F1 S1]. destruct (IH _ F1) as [F2 S2]. split; [done|]. by etransitivity.
Qed.

Lemma foldl_sum_acc f : forall l acc,
  foldl (fun sum SL => sum + f (spolicy SL)) acc l = acc + sum_of f l.
Proof.
  unfold sum_of. induction l as [|SL l IH]; intros acc; simpl; [lia|].
  rewrite IH, (IH (0 + _)). lia.
Qed.

Lemma sum_of_cons f SL l : sum_of f (SL :: l) = f (spolicy SL) + sum_of f l.
Proof. unfold sum_of at 1; simpl. rewrite foldl_sum_acc. lia. Qed.

Lemma sum_of_zero f l : Forall (fun SL => f (spolicy SL) = 0) l -> sum_of f l = 0.
Proof. induction 1 as [|SL l H _ IH]; [done|]. rewrite sum_of_cons. lia. Qed.

(** C32. The update of the policies from the file.  The slices stay the same; each
    policy has dedicated <= min <= max, and once a file has been read the minimum
    ratios add up to at most 100, as do the dedicated ones. *)
Theorem nr_update_slice_policy_ok (SL_list : NR_Slices_t) (file : option (list rrm_policy)) :
  Forall policy_ok SL_list ->
  let l := nr_update_slice_policy SL_list file in
  same_slices SL_list l /\ Forall policy_ok l /\
  (file <> None -> sum_of min_ratio l <= 100 /\ sum_of dedicated_ratio l <= 100).
Proof.
  intros F l. unfold l, nr_update_slice_policy. destruct file as [entries|]; [|done].
  destruct (foldl_rrm_ok entries SL_list F) as [F1 S1]. cbv zeta. set (l1 := foldl _ _ _) in *.
  destruct ((sum_of min_ratio l1 >? 100) || (sum_of dedicated_ratio l1 >? 100)) eqn:E; zbool.
  2: { split_and!; try done; intros _; lia. }
  split_and!.
  - etransitivity; [exact S1|]. by apply same_slices_map.
  - apply Forall_fmap. eapply Forall_impl; [exact F1|]. intros SL [H1 H2]. unfold compose, policy_ok; simpl. lia.
  - intros _. rewrite !sum_of_zero; [lia| |]; apply Forall_fmap, Forall_true; done.
Qed.

(** The slices of a configuration. *)
Lemma init_slices_ok params n l : init_slices params = Done (n, l) ->
  Forall policy_ok l /\ n = Z.of_nat (length l) /\ sl_sid <$> l = seqZ 0 n.
Proof.
  unfold init_slices. cif; [done|]. intros [= <- <-]. zbool. unfold MAX_NUM_SLICE in *.
  assert (H : forall sid, Forall policy_ok (configured_slices sid params) /\
    length (configured_slices sid params) = length params /\
    sl_sid <$> configured_slices sid params = seqZ sid (Z.of_nat (length params))).
  { clear. induction params as [|p params IH]; intros sid; cbn [configured_slices]; [done|].
    destruct (IH (sid + 1)) as (F & L & S). split_and!.
    - constructor; [done|done].
    - simpl. by rewrite L.
    - rewrite fmap_cons, S, (seqZ_cons sid) by (cbn [length]; lia). cbn [length sl_sid]. f_equal. f_equal; lia. }
  destruct (H 1) as (F & L & S). unfold u8. rewrite Z.mod_small by lia. split_and!.
  - by constructor.
  - simpl. rewrite L. lia.
  - rewrite fmap_cons, S, (seqZ_cons 0) by lia. simpl. f_equal. f_equal; lia.
Qed.

Lemma nr_update_slice_policy_ok_witness :
  exists n l, init_slices [mk_nssai 1 0xffffff; mk_nssai 1 2] = Done (n, l) /\
    let l' := nr_update_slice_policy l (Some [mk_rrm 1 0 60 90 10; mk_rrm 1 2 30 20 0]) in
    same_slices l l' /\ Forall policy_ok l' /\
    (Some [mk_rrm 1 0 60 90 10; mk_rrm 1 2 30 20 0] <> None ->
     sum_of min_ratio l' <= 100 /\ sum_of dedicated_ratio l' <= 100).
Proof.
  eexists _, _. split; [reflexivity|]. apply nr_update_slice_policy_ok.
  eapply (init_slices_ok [mk_nssai 1 0xffffff; mk_nssai 1 2]). reflexivity.
Defined.

(** ** What the control message of the E2 agent does *)

(** The policy the message asks for, on the slices it names. *)
Definition set_ratios (sst sd mn mx : Z) (SL : NR_slice_info_t) : NR_slice_info_t :=
  if nssai_is SL sst sd then SL <| spolicy; min_ratio := mn |> <| spolicy; max_ratio := mx |> else SL.

Lemma slicing_ctrl_loop_eq sst sd mn mx : forall l acc, 0 <= acc < 2 ^ 8 ->
  slicing_ctrl_loop l sst sd mn mx acc =
  (set_ratios sst sd mn mx <$> l, u8 (acc + sum_of min_ratio (set_ratios sst sd mn mx <$> l))).
Proof.
  induction l as [|SL l IH]; intros acc Hacc; cbn [slicing_ctrl_loop fmap list_fmap].
  - unfold sum_of; simpl. rewrite Z.add_0_r. unfold u8. by rewrite Z.mod_small.
  - fold (set_ratios sst sd mn mx SL). rewrite IH by apply u8_range. f_equal.
    rewrite sum_of_cons. unfold u8. rewrite Zplus_mod_idemp_l. f_equal. lia.
Qed.

(** The slices after the message, whatever their sum. *)
Definition slices_after (l : NR_Slices_t) (m : SlicingControlM) : NR_Slices_t :=
  set_ratios (u8 (sc_sst m)) (u32 (default 0xffffff (sc_sd m))) (u8 (sc_min_ratio m)) (u8 (sc_max_ratio m)) <$> l.

(** A slicing control message changes the minimum and maximum ratios of the
    slices it names, and nothing else; the process ends when the sum of the minimum
    ratios, kept on 8 bits, exceeds 100. *)
Theorem apply_slicing_ctrl_spec (l : NR_Slices_t) (m : SlicingControlM) :
  apply_slicing_ctrl l m =
  (if sum_of min_ratio (slices_after l m) mod 2 ^ 8 >? 100 then Exit else Done (slices_after l m)) /\
  same_slices l (slices_after l m) /\
  Forall2 (fun SL SL' => dedicated_ratio (spolicy SL') = dedicated_ratio (spolicy SL) /\
             (nssai_is SL (u8 (sc_sst m)) (u32 (default 0xffffff (sc_sd m))) = false -> SL' = SL)) l (slices_after l m).
Proof.
  split_and!.
  - unfold apply_slicing_ctrl. change (match sc_sd m with Some sd => sd | None => 0xffffff end) with
      (default 0xffffff (sc_sd m)).
    by rewrite slicing_ctrl_loop_eq.
  - apply same_slices_map. intros SL. unfold set_ratios. by destruct (nssai_is _ _ _).
  - unfold slices_after. induction l as [|SL l IH]; constructor; [|exact IH].
    unfold set_ratios. by destruct (nssai_is _ _ _).
Qed.

(** The ratios of a message are not compared with 100 nor with each other, and
    their sum is kept on 8 bits: after a message that gives 90 per cent of the cell to
    a slice, one that gives 170 per cent, and at most 20, to another is accepted. *)
Theorem slicing_ctrl_sum_wraps :
  exists n l l1 l2,
    init_slices [mk_nssai 1 1; mk_nssai 1 2] = Done (n, l) /\
    apply_slicing_ctrl l (mk_ctrl_msg 1 (Some 1) 90 100) = Done l1 /\
    apply_slicing_ctrl l1 (mk_ctrl_msg 1 (Some 2) 170 20) = Done l2 /\
    sum_of min_ratio l2 = 260 /\ ~ Forall policy_ok l2.
Proof.
  eexists _, _, _, _. do 4 (split; [reflexivity|]). intros H. inversion_clear H as [|? ? _ H1].
  inversion_clear H1 as [|? ? _ H2]. inversion_clear H2 as [|? ? [_ H3] _]. revert H3. vm_compute.
  intros [H3 _]. by apply H3.
Qed.

(** ** The array of the slices *)

Lemma SL_iterator_some l rest : SL_iterator ((Some <$> l) ++ rest) = (SLs ← SL_iterator rest; Done (l ++ SLs)).
Proof.
  induction l as [|SL l IH]; [simpl; by destruct (SL_iterator rest)|]. rewrite fmap_cons. cbn [app SL_iterator].
  rewrite IH. by destruct (SL_iterator rest).
Qed.

(** The iteration over the slices of a configuration: it visits the configured
    slices when there are fewer than MAX_NUM_SLICE of them; with MAX_NUM_SLICE slices, which
    the check of the configuration accepts, the array has no NULL and the
    iteration reads beyond its end. *)
Theorem SL_iterator_configured (params : list nssai_t) (n : Z) (l : NR_Slices_t) :
  init_slices params = Done (n, l) ->
  SL_iterator (SL_array l) = (if Z.of_nat (length params) <? MAX_NUM_SLICE then Done l else Undef).
Proof.
  intros H. assert (Hl : Z.of_nat (length l) = Z.of_nat (length params) + 1).
  { destruct (init_slices_ok _ _ _ H) as (_ & E & _). revert H. unfold init_slices. cif; [done|]. intros [= <- _]. zbool.
    rewrite <- E. unfold u8, MAX_NUM_SLICE in *. by rewrite Z.mod_small by lia. }
  unfold SL_array. rewrite SL_iterator_some. unfold MAX_NUM_SLICE. destruct (Z.of_nat (length params) <? 8) eqn:E; zbool.
  - destruct (Z.to_nat (8 + 1) - length l)%nat as [|k] eqn:Ek; [lia|]. simpl. by rewrite app_nil_r.
  - by replace (Z.to_nat (8 + 1) - length l)%nat with 0%nat by lia.
Qed.

Lemma SL_iterator_configured_witness :
  exists n l, init_slices (replicate 8 (mk_nssai 1 1)) = Done (n, l) /\ SL_iterator (SL_array l) = Undef.
Proof.
  eexists _, _. split; [reflexivity|].
  apply (SL_iterator_configured (replicate 8 (mk_nssai 1 1)) _ _ eq_refl).
Defined.
