(* ===== verification/SliceSched.v ===== *)
(** The choice of the slice a UE is scheduled in: [nr_store_dl_slice_info],
    [nr_get_ue_active_slice_list], [nr_store_dlsch_buffer] and [nr_slice_preprocess] of
    openair2/LAYER2/NR_MAC_gNB/gNB_scheduler_dlsch.c, with the data of nr_mac_gNB.h they
    use, and the configuration of the logical channels (gNB_scheduler_primitives.c). *)

From S2P Require Import Prelude SlicePolicy.

(** ** Data *)

Definition MAX_NUM_PDU_SESSION : Z := 8.
Definition NR_MAX_NUM_LCID : Z := 32.
Definition DL_SCH_LCID_DTCH : Z := 4.

Record nr_lc_config_t := mk_lc { lc_lcid : Z; lc_priority : Z; lc_nssai : nssai_t }.

Record nr_macrlc_slice_info_t := mk_ms { ms_sid : Z; ms_nssai : nssai_t; ms_bytes : Z }.
#[export] Instance eta_ms : Eta nr_macrlc_slice_info_t := fun r => mk_ms (ms_sid r) (ms_nssai r) (ms_bytes r).

(** The answer of the RLC; the other fields are constants. *)
Record mac_rlc_status_resp_t := mk_status { bytes_in_buffer : Z; pdus_in_buffer : Z }.

(** The fields of [NR_UE_sched_ctrl_t] (and [rnti] of [NR_UE_info_t]) these functions use. *)
Record NR_UE_sched_ctrl_t := mk_sched_ctrl {
  rnti : Z;
  ul_failure : bool;
  rrc_processing_timer : Z;
  lc_config : list nr_lc_config_t;
  rlc_status : list mac_rlc_status_resp_t;
  num_total_bytes : Z;
  dl_pdus_total : Z;
  dl_sl_info : list nr_macrlc_slice_info_t;
  avail_slice_list : list nr_macrlc_slice_info_t;
  num_slice_d : Z;
  slice_for_this_sched : Z
}.
#[export] Instance eta_sched_ctrl : Eta NR_UE_sched_ctrl_t := fun r =>
  mk_sched_ctrl (rnti r) (ul_failure r) (rrc_processing_timer r) (lc_config r) (rlc_status r) (num_total_bytes r)
    (dl_pdus_total r) (dl_sl_info r) (avail_slice_list r) (num_slice_d r) (slice_for_this_sched r).

(** A loop over a list, with a state. *)
Fixpoint loop {A S} (body : S -> A -> outcome S) (s : S) (l : list A) : outcome S :=
  match l with [] => Done s | x :: l => s ← body s x; loop body s l end.

(** The loop skips DRB 1 while RRC processes a reconfiguration. *)
Definition lc_suspended (c : NR_UE_sched_ctrl_t) (lc : nr_lc_config_t) : bool :=
  (lc_lcid lc =? DL_SCH_LCID_DTCH) && (rrc_processing_timer c >? 0).

(** ** The slice of each logical channel *)

(** The inner loop: the last slice with the NSSAI, 0 without one. *)
Definition slice_id (SL_list : NR_Slices_t) (n : nssai_t) : Z :=
  foldl (fun sid SL => if nssai_is SL (sst n) (sd n) then sl_sid SL else sid) 0 SL_list.

Definition store_lc_slice (SL_list : NR_Slices_t) (c : NR_UE_sched_ctrl_t) (lc : nr_lc_config_t)
    : outcome NR_UE_sched_ctrl_t :=
  if lc_suspended c lc then Done c
  else
    info ← rd (dl_sl_info c) (lc_lcid lc);
    infos ← wr (dl_sl_info c) (lc_lcid lc)
              (info <| ms_nssai := lc_nssai lc |> <| ms_sid := slice_id SL_list (lc_nssai lc) |>);
    Done (c <| dl_sl_info := infos |>).

Definition nr_store_dl_slice_info (SL_list : NR_Slices_t) (UEs : list NR_UE_sched_ctrl_t)
    : outcome (list NR_UE_sched_ctrl_t) :=
  mapM (fun c => loop (store_lc_slice SL_list) c (lc_config c)) UEs.

(** ** The active slices of a UE *)

(** [counts[dl_sl_info[lcid].sid]++] for the logical channels of a slice. *)
Definition count_lc (infos : list nr_macrlc_slice_info_t) (counts : list Z) (lc : nr_lc_config_t) : outcome (list Z) :=
  info ← rd infos (lc_lcid lc);
  if ms_sid info >? 0
  then n ← rd counts (ms_sid info); wr counts (ms_sid info) (u16 (n + 1))
  else Done counts.

(** The loop that writes the slices with a count in [avail_slice_list], from index [k] on. *)
Fixpoint fill_avail (i : Z) (counts : list Z) (k : Z) (avail : list nr_macrlc_slice_info_t)
    : outcome (list nr_macrlc_slice_info_t) :=
  match counts with
  | [] => Done avail
  | n :: counts =>
      if negb (n =? 0)
      then a ← rd avail k; avail ← wr avail k (a <| ms_sid := i |>); fill_avail (i + 1) counts (k + 1) avail
      else fill_avail (i + 1) counts k avail
  end.

Definition get_active_slices (c : NR_UE_sched_ctrl_t) : outcome NR_UE_sched_ctrl_t :=
  let avail := (fun a => a <| ms_sid := -1 |> <| ms_bytes := 0 |>) <$> avail_slice_list c in
  a ← rd avail 0;
  avail ← wr avail 0 (a <| ms_sid := 0 |>);
  let counts := replicate (Z.to_nat (MAX_NUM_PDU_SESSION + 1)) 0 in
  counts ← loop (count_lc (dl_sl_info c)) counts (lc_config c);
  avail ← fill_avail 0 counts 1 avail;
  let num := foldl (fun n a => if ms_sid a >? 0 then u16 (n + 1) else n) 1 (drop 1 avail) in
  Done (c <| avail_slice_list := avail |> <| num_slice_d := num |>).

Definition nr_get_ue_active_slice_list (UEs : list NR_UE_sched_ctrl_t) : outcome (list NR_UE_sched_ctrl_t) :=
  mapM get_active_slices UEs.

(** ** The data awaiting transmission *)

(** The inner loop: adds the bytes to the first of the [num_slice_d] slices with this id. *)
Fixpoint add_slice_bytes (num : nat) (sid bytes : Z) (avail : list nr_macrlc_slice_info_t)
    : list nr_macrlc_slice_info_t :=
  match num, avail with
  | S num, a :: avail =>
      if ms_sid a =? sid then a <| ms_bytes ::= add32 bytes |> :: avail else a :: add_slice_bytes num sid bytes avail
  | _, _ => avail
  end.

(** [rlc]: what [mac_rlc_status_ind] answers for an RNTI and a logical channel. *)
Definition store_lc_buffer (rlc : Z -> Z -> mac_rlc_status_resp_t) (c : NR_UE_sched_ctrl_t) (lc : nr_lc_config_t)
    : outcome NR_UE_sched_ctrl_t :=
  if lc_suspended c lc then Done c
  else
    let st := rlc (rnti c) (lc_lcid lc) in
    sts ← wr (rlc_status c) (lc_lcid lc) st;
    let c := c <| rlc_status := sts |> in
    if bytes_in_buffer st =? 0 then Done c
    else
      let c := c <| dl_pdus_total ::= fun n => u16 (n + pdus_in_buffer st) |>
                 <| num_total_bytes ::= add32 (bytes_in_buffer st) |> in
      info ← rd (dl_sl_info c) (lc_lcid lc);
      Done (c <| avail_slice_list ::= add_slice_bytes (Z.to_nat (num_slice_d c)) (ms_sid info) (bytes_in_buffer st) |>).

Definition nr_store_dlsch_buffer (rlc : Z -> Z -> mac_rlc_status_resp_t) (UEs : list NR_UE_sched_ctrl_t)
    : outcome (list NR_UE_sched_ctrl_t) :=
  mapM (fun c => loop (store_lc_buffer rlc) (c <| num_total_bytes := 0 |> <| dl_pdus_total := 0 |>) (lc_config c)) UEs.

(** ** The slice of the slot *)

(** [switch(num_slice_d)]; [ue_ind] counts the UEs. *)
Definition select_slice (slot ue_ind : Z) (c : NR_UE_sched_ctrl_t) : outcome NR_UE_sched_ctrl_t :=
  let use k := a ← rd (avail_slice_list c) k; Done (c <| slice_for_this_sched := ms_sid a |>) in
  let prefer k k' := a ← rd (avail_slice_list c) k; if ms_bytes a >? 0 then use k else use k' in
  if num_slice_d c =? 0 then Exit
  else if num_slice_d c =? 1 then use 0
  else if num_slice_d c =? 2 then use 1
  else if num_slice_d c =? 3 then
    if (slot mod 2 =? 0) && (Z.rem ue_ind 2 =? 0) then prefer 1 2
    else if (slot mod 2 =? 0) && (Z.rem ue_ind 2 =? 1) then prefer 2 1
    else if (slot mod 2 =? 1) && (Z.rem ue_ind 2 =? 0) then prefer 2 1
    else if (slot mod 2 =? 1) && (Z.rem ue_ind 2 =? 1) then prefer 1 2
    else Done c
  else Exit.

Fixpoint slice_preprocess_loop (slot ue_ind : Z) (UEs : list NR_UE_sched_ctrl_t) : outcome (list NR_UE_sched_ctrl_t) :=
  match UEs with
  | [] => Done []
  | c :: UEs =>
      if ul_failure c then UEs ← slice_preprocess_loop slot ue_ind UEs; Done (c :: UEs)
      else c ← select_slice slot ue_ind c; UEs ← slice_preprocess_loop slot (ue_ind + 1) UEs; Done (c :: UEs)
  end.

Definition nr_slice_preprocess (slot : Z) (UEs : list NR_UE_sched_ctrl_t) : outcome (list NR_UE_sched_ctrl_t) :=
  slice_preprocess_loop slot 0 UEs.

(** The part of [nr_fr1_dlsch_preprocessor] before the estimation of the PRBs. *)
Definition prepare_slices (SL_list : NR_Slices_t) (rlc : Z -> Z -> mac_rlc_status_resp_t) (slot : Z)
    (UEs : list NR_UE_sched_ctrl_t) : outcome (list NR_UE_sched_ctrl_t) :=
  UEs ← nr_store_dl_slice_info SL_list UEs;
  UEs ← nr_get_ue_active_slice_list UEs;
  UEs ← nr_store_dlsch_buffer rlc UEs;
  nr_slice_preprocess slot UEs.

(** ** Loops *)

(** The invariant of a loop speaks of the elements already visited. *)
Lemma loop_inv {A S} (P : list A -> S -> Prop) (body : S -> A -> outcome S) l s :
  P [] s ->
  (forall l1 x l2 s, l = l1 ++ x :: l2 -> P l1 s -> exists s', body s x = Done s' /\ P (l1 ++ [x]) s') ->
  exists s', loop body s l = Done s' /\ P l s'.
Proof.
  intros H0 Hb. cut (forall l2 l1 s, l = l1 ++ l2 -> P l1 s -> exists s', loop body s l2 = Done s' /\ P l s').
  { intros H. by apply (H l [] s). }
  induction l2 as [|x l2 IH]; intros l1 s1 -> H1; simpl.
  - rewrite app_nil_r. eauto.
  - destruct (Hb l1 x l2 s1 eq_refl H1) as (s2 & -> & H2). simpl. apply (IH (l1 ++ [x])); [|done].
    by rewrite <- app_assoc.
Qed.

(** ** Well-formed UEs *)

Record ue_wf (c : NR_UE_sched_ctrl_t) : Prop := {
  wf_infos : Z.of_nat (length (dl_sl_info c)) = NR_MAX_NUM_LCID;
  wf_status : Z.of_nat (length (rlc_status c)) = NR_MAX_NUM_LCID;
  wf_avail : Z.of_nat (length (avail_slice_list c)) = MAX_NUM_PDU_SESSION + 1;
  wf_lcs : Forall (fun lc => 0 <= lc_lcid lc < NR_MAX_NUM_LCID) (lc_config c);
  wf_nodup : NoDup (lc_lcid <$> lc_config c);
  wf_sids : Forall (fun i => ms_sid i <= MAX_NUM_PDU_SESSION) (dl_sl_info c)
}.

(** The slice of a logical channel after [nr_store_dl_slice_info]: a suspended one keeps its own. *)
Definition lc_sid (SL_list : NR_Slices_t) (c : NR_UE_sched_ctrl_t) (lc : nr_lc_config_t) : Z :=
  if lc_suspended c lc then default 0 (ms_sid <$> dl_sl_info c !! Z.to_nat (lc_lcid lc))
  else slice_id SL_list (lc_nssai lc).

(** The slices of the logical channels of a UE, without slice 0. *)
Definition active_slices (SL_list : NR_Slices_t) (c : NR_UE_sched_ctrl_t) : list Z :=
  filter (fun s => Exists (fun lc => lc_sid SL_list c lc = s) (lc_config c)) (seqZ 1 MAX_NUM_PDU_SESSION).

(** The bytes a UE awaits in a slice. *)
Definition lcs_bytes (rlc : Z -> Z -> mac_rlc_status_resp_t) (SL_list : NR_Slices_t) (c : NR_UE_sched_ctrl_t)
    (lcs : list nr_lc_config_t) (s : Z) : Z :=
  foldr (fun lc n => if negb (lc_suspended c lc) && (lc_sid SL_list c lc =? s)
                     then bytes_in_buffer (rlc (rnti c) (lc_lcid lc)) + n else n) 0 lcs.
Definition slice_bytes rlc SL_list c s : Z := u32 (lcs_bytes rlc SL_list c (lc_config c) s).

Lemma slice_id_bound SL_list n : Forall (fun SL => sl_sid SL <= MAX_NUM_PDU_SESSION) SL_list ->
  slice_id SL_list n <= MAX_NUM_PDU_SESSION.
Proof.
  unfold slice_id. intros H. assert (H0 : 0 <= MAX_NUM_PDU_SESSION) by done. revert H0. generalize 0.
  induction H as [|SL l HS _ IH]; intros z Hz; simpl; [done|]. apply IH. by cif.
Qed.

(** ** The slice of each logical channel *)

(** The LCID at some place of the list is not one of the LCIDs before it. *)
Lemma lcid_fresh c l1 lc l2 : ue_wf c -> lc_config c = l1 ++ lc :: l2 ->
  (lc_lcid lc ∉ (lc_lcid <$> l1)) /\ lc ∈ lc_config c /\ 0 <= lc_lcid lc < NR_MAX_NUM_LCID.
Proof.
  intros W E. assert (Hin : lc ∈ lc_config c) by (rewrite E; set_solver). split; [|split; [done|]].
  - pose proof (wf_nodup c W) as N. rewrite E, fmap_app, fmap_cons in N. apply NoDup_app in N as (_ & N & _).
    intros H. apply (N _ H). left.
  - by apply (proj1 (Forall_forall _ _) (wf_lcs c W)).
Qed.

Lemma suspended_infos c infos lc : lc_suspended (c <| dl_sl_info := infos |>) lc = lc_suspended c lc.
Proof. done. Qed.

Lemma store_lc_slices_ok SL_list c :
  Forall (fun SL => sl_sid SL <= MAX_NUM_PDU_SESSION) SL_list -> ue_wf c ->
  exists infos, loop (store_lc_slice SL_list) c (lc_config c) = Done (c <| dl_sl_info := infos |>) /\
    length infos = length (dl_sl_info c) /\ Forall (fun i => ms_sid i <= MAX_NUM_PDU_SESSION) infos /\
    Forall (fun lc => ms_sid <$> infos !! Z.to_nat (lc_lcid lc) = Some (lc_sid SL_list c lc)) (lc_config c).
Proof.
  intros HSL W.
  destruct (loop_inv (fun l1 c1 => exists infos, c1 = c <| dl_sl_info := infos |> /\
     length infos = length (dl_sl_info c) /\ Forall (fun i => ms_sid i <= MAX_NUM_PDU_SESSION) infos /\
     Forall (fun lc => ms_sid <$> infos !! Z.to_nat (lc_lcid lc) = Some (lc_sid SL_list c lc)) l1 /\
     (forall lc, lc ∈ lc_config c -> lc_lcid lc ∉ (lc_lcid <$> l1) ->
        infos !! Z.to_nat (lc_lcid lc) = dl_sl_info c !! Z.to_nat (lc_lcid lc)))
    (store_lc_slice SL_list) (lc_config c) c) as (c' & E & infos & -> & L & F & F1 & _); [| |by eauto].
  - exists (dl_sl_info c). split_and!; [by destruct c|done|apply (wf_sids c W)|done|done].
  - intros l1 lc l2 c1 El (infos & -> & L & F & F1 & Hk).
    destruct (lcid_fresh c l1 lc l2 W El) as (Hf & Hin & Hr). pose proof (wf_infos c W).
    assert (Hl : is_Some (infos !! Z.to_nat (lc_lcid lc))) by (apply lookup_lt_is_Some; lia).
    destruct Hl as [i Hi]. unfold store_lc_slice. rewrite suspended_infos.
    destruct (lc_suspended c lc) eqn:Es.
    + exists (c <| dl_sl_info := infos |>). split; [done|]. exists infos. split_and!; try done.
      * apply Forall_app; split; [done|]. constructor; [|done]. unfold lc_sid. rewrite Es, <- (Hk lc Hin Hf).
        by rewrite Hi.
      * intros lc' Hin' Hf'. apply Hk; [done|]. rewrite fmap_app in Hf'. set_solver.
    + change (dl_sl_info (c <| dl_sl_info := infos |>)) with infos.
      rewrite (rd_done _ _ i) by (lia || done). cbn [mbind outcome_bind]. rewrite wr_done by lia.
      cbn [mbind outcome_bind]. eexists. split; [reflexivity|]. eexists. split; [reflexivity|].
      rewrite length_insert. split_and!; [done| | |].
      * apply Forall_insert; [done|]. by apply slice_id_bound.
      * apply Forall_app; split.
        -- apply Forall_forall. intros lc' Hlc'. rewrite list_lookup_insert_ne; [by apply (proj1 (Forall_forall _ _) F1)|].
           intros Eq. apply Hf. apply list_elem_of_fmap. exists lc'. split; [|done].
           assert (Hin' : lc' ∈ lc_config c) by (rewrite El; set_solver).
           pose proof (proj1 (Forall_forall _ _) (wf_lcs c W) _ Hin'). simpl in *. lia.
        -- constructor; [|done]. rewrite list_lookup_insert_eq by lia. unfold lc_sid. by rewrite Es.
      * intros lc' Hin' Hf'. rewrite fmap_app in Hf'. rewrite list_lookup_insert_ne; [apply Hk; set_solver|].
        intros Eq. pose proof (proj1 (Forall_forall _ _) (wf_lcs c W) _ Hin'). simpl in *.
        apply Hf'. apply elem_of_app. right. assert (lc_lcid lc = lc_lcid lc') as -> by lia. simpl. set_solver.
Qed.

(** ** The active slices *)

Section Counts.
Context (infos : list nr_macrlc_slice_info_t) (sid_of : nr_lc_config_t -> Z).

(** How many of the logical channels are of slice [s]. *)
Definition lc_count (lcs : list nr_lc_config_t) (s : nat) : Z :=
  if (s =? 0)%nat then 0 else Z.of_nat (length (filter (fun lc => sid_of lc = Z.of_nat s) lcs)).

Lemma count_lcs_ok lcs :
  Forall (fun lc => 0 <= lc_lcid lc) lcs -> Z.of_nat (length lcs) < 2 ^ 16 ->
  Forall (fun lc => ms_sid <$> infos !! Z.to_nat (lc_lcid lc) = Some (sid_of lc)) lcs ->
  Forall (fun lc => sid_of lc <= MAX_NUM_PDU_SESSION) lcs ->
  loop (count_lc infos) (replicate 9 0) lcs = Done (lc_count lcs <$> seq 0 9).
Proof.
  intros Hpos Hlen Hsid Hle.
  destruct (loop_inv (fun l1 counts => counts = lc_count l1 <$> seq 0 9) (count_lc infos) lcs (replicate 9 0))
    as (? & -> & ->); [done| |done].
  intros l1 lc l2 counts El ->. rewrite El in Hpos, Hsid, Hle.
  apply Forall_app in Hpos as [_ Hpos]. apply Forall_app in Hsid as [_ Hsid]. apply Forall_app in Hle as [_ Hle].
  inversion_clear Hpos as [|? ? Hp _]. inversion_clear Hsid as [|? ? Hs _]. inversion_clear Hle as [|? ? Hl _].
  unfold MAX_NUM_PDU_SESSION in *. destruct (infos !! Z.to_nat (lc_lcid lc)) as [i|] eqn:Ei; [|done].
  injection Hs as Hs. unfold count_lc. rewrite (rd_done _ _ i) by done. cbn [mbind outcome_bind]. rewrite Hs.
  destruct (sid_of lc >? 0) eqn:Eg; zbool.
  2: { eexists. split; [done|]. apply list_fmap_ext. intros k s Hk. apply lookup_seq in Hk as [-> Hk]. unfold lc_count.
       destruct (0 + k =? 0)%nat eqn:E0; [done|]. apply Nat.eqb_neq in E0. rewrite filter_app, filter_cons_False by lia.
       by rewrite filter_nil, app_nil_r. }
  rewrite (rd_done _ _ (lc_count l1 (Z.to_nat (sid_of lc)))); [|lia|].
  2: { rewrite list_lookup_fmap, lookup_seq_lt by lia. done. }
  cbn [mbind outcome_bind]. rewrite wr_done by (rewrite length_fmap, length_seq; lia).
  eexists. split; [done|]. apply list_eq. intros k. rewrite list_lookup_fmap.
  destruct (decide (k = Z.to_nat (sid_of lc))) as [->|Hne].
  - rewrite list_lookup_insert_eq by (rewrite length_fmap, length_seq; lia). rewrite lookup_seq_lt by lia. simpl. f_equal.
    unfold lc_count. destruct (Z.to_nat (sid_of lc) =? 0)%nat eqn:E0; [apply Nat.eqb_eq in E0; lia|].
    rewrite filter_app, filter_cons_True by lia. rewrite length_app, filter_nil. simpl.
    unfold u16. rewrite Z.mod_small; [lia|].
    pose proof (length_filter (fun lc0 => sid_of lc0 = Z.of_nat (Z.to_nat (sid_of lc))) l1).
    rewrite El, length_app in Hlen. simpl in Hlen. lia.
  - rewrite list_lookup_insert_ne by done. rewrite list_lookup_fmap. destruct (decide (k < 9)%nat) as [Hk|Hk].
    + rewrite lookup_seq_lt by done. simpl. f_equal. unfold lc_count.
      destruct (k =? 0)%nat eqn:E0; [done|]. apply Nat.eqb_neq in E0.
      rewrite filter_app, filter_cons_False by lia. by rewrite filter_nil, app_nil_r.
    + by rewrite lookup_seq_ge by lia.
Qed.
End Counts.

(** The indices of the counts that are not 0, from index [i] on. *)
Fixpoint nonzero_from (i : Z) (counts : list Z) : list Z :=
  match counts with
  | [] => []
  | n :: counts => if negb (n =? 0) then i :: nonzero_from (i + 1) counts else nonzero_from (i + 1) counts
  end.

Lemma fill_avail_ok : forall counts i a b, (length (nonzero_from i counts) <= length b)%nat ->
  exists b', fill_avail i counts (Z.of_nat (length a)) (a ++ b) = Done (a ++ b') /\
    ms_sid <$> b' = nonzero_from i counts ++ drop (length (nonzero_from i counts)) (ms_sid <$> b) /\
    ms_bytes <$> b' = ms_bytes <$> b.
Proof.
  induction counts as [|n counts IH]; intros i a b Hb; cbn [fill_avail nonzero_from] in *; [by exists b|].
  destruct (n =? 0) eqn:En; cbn [negb] in *; [by apply IH|].
  destruct b as [|x b]; simpl in Hb; [lia|].
  rewrite (rd_done _ _ x) by (try lia; by rewrite Nat2Z.id, list_lookup_middle).
  cbn [mbind outcome_bind]. rewrite wr_mid by done. cbn [mbind outcome_bind].
  destruct (IH (i + 1) (a ++ [x <| ms_sid := i |>]) b ltac:(lia)) as (b' & E & Hs & Hy).
  exists (x <| ms_sid := i |> :: b'). rewrite length_app, <- !app_assoc in E. simpl in E.
  replace (Z.of_nat (length a) + 1) with (Z.of_nat (length a + 1)) by lia. split_and!; [exact E| |].
  - rewrite fmap_cons, Hs. done.
  - by rewrite !fmap_cons, Hy.
Qed.

Lemma nonzero_from_seq (f : nat -> Z) : forall n i,
  nonzero_from (Z.of_nat i) (f <$> seq i n) = Z.of_nat <$> filter (fun k => f k <> 0) (seq i n).
Proof.
  induction n as [|n IH]; intros i; [done|]. rewrite <- cons_seq, fmap_cons. cbn [nonzero_from].
  replace (Z.of_nat i + 1) with (Z.of_nat (S i)) by lia. rewrite IH.
  destruct (f i =? 0) eqn:E; zbool; simpl.
  - rewrite filter_cons_False; [done|]. intros H. by apply H.
  - by rewrite filter_cons_True.
Qed.

Lemma filter_fmap_iff {A B} (f : A -> B) (P : B -> Prop) (Q : A -> Prop) `{forall x, Decision (P x)}
    `{forall x, Decision (Q x)} (l : list A) :
  (forall x, x ∈ l -> Q x <-> P (f x)) -> f <$> filter Q l = filter P (f <$> l).
Proof.
  induction l as [|x l IH]; intros HQ; [done|]. rewrite fmap_cons. specialize (HQ x (list_elem_of_here x l)) as Hx.
  assert (IH' : f <$> filter Q l = filter P (f <$> l)) by (apply IH; intros y Hy; apply HQ; by right).
  destruct (decide (Q x)).
  - rewrite !filter_cons_True by tauto. by rewrite fmap_cons, IH'.
  - rewrite !filter_cons_False by tauto. done.
Qed.

(** The slices counted are the active slices. *)
Lemma nonzero_counts SL_list c :
  nonzero_from 0 (lc_count (lc_sid SL_list c) (lc_config c) <$> seq 0 9) = active_slices SL_list c.
Proof.
  rewrite (nonzero_from_seq _ 9 0). unfold active_slices. rewrite <- cons_seq, filter_cons_False.
  2: { intros H. by apply H. }
  change (seqZ 1 MAX_NUM_PDU_SESSION) with (Z.of_nat <$> seq 1 8). 
  apply filter_fmap_iff. intros s Hs. apply elem_of_seq in Hs. unfold lc_count.
  destruct (s =? 0)%nat eqn:E0; [apply Nat.eqb_eq in E0; lia|]. clear.
  rewrite Exists_exists. split.
  - intros H. destruct (filter _ _) as [|lc l] eqn:E; [done|]. exists lc.
    assert (Hin : lc ∈ lc :: l) by left. rewrite <- E in Hin. apply list_elem_of_filter in Hin. tauto.
  - intros (lc & Hin & Hs). assert (Hf : lc ∈ filter (fun lc0 => lc_sid SL_list c lc0 = Z.of_nat s) (lc_config c)).
    { by apply list_elem_of_filter. }
    destruct (filter _ _); [by apply not_elem_of_nil in Hf|]. simpl. lia.
Qed.

Lemma active_slices_bounds SL_list c :
  (length (active_slices SL_list c) <= 8)%nat /\ Forall (fun s => 0 < s) (active_slices SL_list c) /\
  NoDup (active_slices SL_list c).
Proof.
  unfold active_slices. split_and!.
  - etransitivity; [apply length_filter|]. done.
  - apply Forall_forall. intros s Hs. apply list_elem_of_filter in Hs as [_ Hs]. apply elem_of_seqZ in Hs. lia.
  - apply NoDup_filter, NoDup_seqZ.
Qed.

Definition count_positive (n : Z) (s : Z) : Z := if s >? 0 then u16 (n + 1) else n.

Lemma count_positive_all : forall l n, Forall (fun s => 0 < s) l -> 0 <= n -> n + Z.of_nat (length l) < 2 ^ 16 ->
  foldl count_positive n l = n + Z.of_nat (length l).
Proof.
  induction l as [|s l IH]; intros n F Hn Hl; simpl; [lia|]. inversion_clear F as [|? ? Hs F']. simpl in Hl.
  unfold count_positive at 2. destruct (s >? 0) eqn:E; zbool; [|lia]. unfold u16. rewrite Z.mod_small by lia.
  rewrite IH by (done || lia). lia.
Qed.

Lemma count_positive_none k n : foldl count_positive n (replicate k (-1)) = n.
Proof. induction k as [|k IH]; [done|exact IH]. Qed.

Lemma foldl_fmap_comp {A B S} (f : S -> B -> S) (g : A -> B) : forall l s,
  foldl (fun s x => f s (g x)) s l = foldl f s (g <$> l).
Proof. induction l as [|x l IH]; intros s; [done|]. apply IH. Qed.

Lemma nodup_lcs_short c : ue_wf c -> Z.of_nat (length (lc_config c)) < 2 ^ 16.
Proof.
  intros W. pose proof (wf_nodup c W) as N. assert (I : lc_lcid <$> lc_config c ⊆ seqZ 0 NR_MAX_NUM_LCID).
  { intros z Hz. apply list_elem_of_fmap in Hz as (lc & -> & Hin). apply elem_of_seqZ.
    pose proof (proj1 (Forall_forall _ _) (wf_lcs c W) _ Hin). simpl in *. lia. }
  apply (submseteq_length _ _ ∘ NoDup_submseteq _ _ N) in I. rewrite length_fmap, length_seqZ in I. 
  change (Z.to_nat NR_MAX_NUM_LCID) with 32%nat in I. lia.
Qed.

(** [get_active_slices] after [nr_store_dl_slice_info]. *)
Lemma get_active_slices_ok SL_list c infos : ue_wf c ->
  Forall (fun i => ms_sid i <= MAX_NUM_PDU_SESSION) infos ->
  Forall (fun lc => ms_sid <$> infos !! Z.to_nat (lc_lcid lc) = Some (lc_sid SL_list c lc)) (lc_config c) ->
  let act := active_slices SL_list c in
  exists avail, get_active_slices (c <| dl_sl_info := infos |>) =
      Done (c <| dl_sl_info := infos |> <| avail_slice_list := avail |> <| num_slice_d := 1 + Z.of_nat (length act) |>) /\
    ms_sid <$> avail = 0 :: act ++ replicate (8 - length act) (-1) /\ Forall (fun a => ms_bytes a = 0) avail.
Proof.
  intros W F F1 act. destruct (active_slices_bounds SL_list c) as (Ha & Hp & _). fold act in Ha, Hp.
  unfold get_active_slices.
  change (avail_slice_list (c <| dl_sl_info := infos |>)) with (avail_slice_list c).
  change (dl_sl_info (c <| dl_sl_info := infos |>)) with infos.
  change (lc_config (c <| dl_sl_info := infos |>)) with (lc_config c). cbv zeta.
  pose proof (wf_avail c W) as L. destruct (avail_slice_list c) as [|a0 rest]; [done|].
  rewrite fmap_cons. rewrite (rd_done (_ :: _) 0 _ ltac:(lia) eq_refl). cbn [mbind outcome_bind].
  rewrite wr_done by (simpl; lia). cbn [mbind outcome_bind]. 
  rewrite (count_lcs_ok infos (lc_sid SL_list c)); [|eapply Forall_impl; [apply (wf_lcs c W)|simpl; lia]
    |by apply nodup_lcs_short|done|].
  2: { apply Forall_forall. intros lc Hin. pose proof (proj1 (Forall_forall _ _) F1 _ Hin) as E. simpl in E.
       destruct (infos !! _) as [i|] eqn:Ei; [|done]. injection E as <-. by eapply Forall_lookup_1 in F. }
  cbn [mbind outcome_bind]. set (reset := fmap _ rest). set (x0 := a0 <| ms_sid := -1 |> <| ms_bytes := 0 |> <| ms_sid := 0 |>).
  change (<[Z.to_nat 0 := x0]> _) with ([x0] ++ reset).
  destruct (fill_avail_ok (lc_count (lc_sid SL_list c) (lc_config c) <$> seq 0 9) 0 [x0] reset) as (b & E & Hs & Hy);
    rewrite nonzero_counts in *; fold act in Hs || fold act.
  { unfold reset. rewrite length_fmap. unfold MAX_NUM_PDU_SESSION in L. simpl in L. lia. }
  assert (Hr : ms_sid <$> reset = replicate 8 (-1)).
  { unfold reset. replace 8%nat with (length rest) by (unfold MAX_NUM_PDU_SESSION in L; simpl in L; lia).
    clear. induction rest as [|? ? IH]; [done|]. simpl. by f_equal. }
  rewrite Hr, drop_replicate in Hs.
  change (Z.of_nat (length [x0])) with 1 in E. rewrite E. cbn [mbind outcome_bind]. change (drop 1 ([x0] ++ b)) with b.
  eexists. split; [|split].
  - rewrite (foldl_fmap_comp count_positive ms_sid), Hs, foldl_app, count_positive_none, (count_positive_all act)
      by (done || lia).
    reflexivity.
  - by rewrite fmap_app, Hs.
  - constructor; [done|]. apply Forall_fmap with (P := fun z => z = 0). rewrite Hy. unfold reset.
    rewrite <- list_fmap_compose. apply Forall_fmap, Forall_true. done.
Qed.

(** ** The bytes of each slice *)

Definition view (a : nr_macrlc_slice_info_t) : Z * Z := (ms_sid a, ms_bytes a).

Lemma add_slice_bytes_view sid b (f : Z -> Z) : forall sids avail tail, NoDup sids ->
  view <$> avail = ((fun s => (s, f s)) <$> sids) ++ tail ->
  view <$> add_slice_bytes (length sids) sid b avail =
    ((fun s => (s, if s =? sid then add32 b (f s) else f s)) <$> sids) ++ tail.
Proof.
  induction sids as [|s sids IH]; intros [|a avail] tail N E; try done.
  cbn [length add_slice_bytes]. rewrite !fmap_cons in *. injection E as E1 E2 E. subst.
  inversion_clear N as [|? ? Hn N']. destruct (ms_sid a =? sid) eqn:Es; zbool.
  - rewrite fmap_cons. cbn [app]. f_equal; [unfold view; simpl; by rewrite E2|]. rewrite E. f_equal. apply list_fmap_ext. intros k s' Hk.
    destruct (s' =? sid) eqn:E'; zbool; [|done]. subst. destruct Hn. by apply list_elem_of_lookup_2 in Hk.
  - rewrite fmap_cons. cbn [app]. f_equal; [unfold view; by rewrite E2|]. by apply IH.
Qed.

Lemma lcs_bytes_snoc rlc SL_list c l lc s :
  lcs_bytes rlc SL_list c (l ++ [lc]) s =
  lcs_bytes rlc SL_list c l s +
  (if negb (lc_suspended c lc) && (lc_sid SL_list c lc =? s) then bytes_in_buffer (rlc (rnti c) (lc_lcid lc)) else 0).
Proof.
  unfold lcs_bytes. induction l as [|x l IH]; simpl; [cif; lia|]. rewrite IH. cif; lia.
Qed.

(** What the operations on the buffers leave alone. *)
Definition same_ue (c c' : NR_UE_sched_ctrl_t) : Prop :=
  rnti c' = rnti c /\ ul_failure c' = ul_failure c /\ rrc_processing_timer c' = rrc_processing_timer c /\
  lc_config c' = lc_config c.

Lemma same_ue_suspended c c' lc : same_ue c c' -> lc_suspended c' lc = lc_suspended c lc.
Proof. intros (_ & _ & E & _). unfold lc_suspended. by rewrite E. Qed.

Lemma store_buffers_ok rlc SL_list c c2 sids tail : ue_wf c -> same_ue c c2 -> NoDup sids ->
  Forall (fun lc => ms_sid <$> dl_sl_info c2 !! Z.to_nat (lc_lcid lc) = Some (lc_sid SL_list c lc)) (lc_config c) ->
  Z.of_nat (length (rlc_status c2)) = NR_MAX_NUM_LCID -> num_slice_d c2 = Z.of_nat (length sids) ->
  view <$> avail_slice_list c2 = ((fun s => (s, 0)) <$> sids) ++ tail ->
  exists c3, loop (store_lc_buffer rlc) c2 (lc_config c) = Done c3 /\ same_ue c c3 /\ num_slice_d c3 = num_slice_d c2 /\
    view <$> avail_slice_list c3 = ((fun s => (s, slice_bytes rlc SL_list c s)) <$> sids) ++ tail.
Proof.
  intros W S2 N F L2 Hn Hv.
  destruct (loop_inv (fun l1 c3 => same_ue c c3 /\ dl_sl_info c3 = dl_sl_info c2 /\ length (rlc_status c3) = length (rlc_status c2) /\
      num_slice_d c3 = num_slice_d c2 /\
      view <$> avail_slice_list c3 = ((fun s => (s, u32 (lcs_bytes rlc SL_list c l1 s))) <$> sids) ++ tail)
    (store_lc_buffer rlc) (lc_config c) c2) as (c3 & E & S3 & _ & _ & Hn3 & Hv3); [done| |by eauto].
  intros l1 lc l2 c3 El (S3 & Hi & Hl & Hn3 & Hv3). destruct (lcid_fresh c l1 lc l2 W El) as (_ & Hin & Hr).
  pose proof (proj1 (Forall_forall _ _) F _ Hin) as Hs. simpl in Hs. rewrite <- Hi in Hs.
  destruct (dl_sl_info c3 !! Z.to_nat (lc_lcid lc)) as [i|] eqn:Ei; [|done]. injection Hs as Hs.
  unfold store_lc_buffer. rewrite (same_ue_suspended c c3 lc S3). destruct (lc_suspended c lc) eqn:Es.
  { exists c3. split; [done|]. do 4 (split; [done|]). rewrite Hv3. f_equal. apply list_fmap_ext. intros k s _.
    rewrite lcs_bytes_snoc, Es. cbn [negb andb]. by rewrite Z.add_0_r. }
  rewrite wr_done by lia. cbn [mbind outcome_bind]. cbv zeta.
  replace (rnti c3) with (rnti c) by (symmetry; apply S3). set (st := rlc (rnti c) (lc_lcid lc)).
  destruct (bytes_in_buffer st =? 0) eqn:Eb; zbool.
  { eexists. split; [reflexivity|]. split_and!; try done; [by rewrite <- Hl; apply length_insert|].
    simpl. rewrite Hv3. f_equal. apply list_fmap_ext. intros k s _.
    rewrite lcs_bytes_snoc. fold st. rewrite Eb. cif; by rewrite Z.add_0_r. }
  match goal with |- context [rd (dl_sl_info ?x) _] => change (dl_sl_info x) with (dl_sl_info c3) end.
  rewrite (rd_done _ _ i) by (lia || done). cbn [mbind outcome_bind].
  eexists. split; [reflexivity|]. split_and!; try done; [by rewrite <- Hl; apply length_insert|].
  match goal with |- context [view <$> ?x] => change x with
    (add_slice_bytes (Z.to_nat (num_slice_d c3)) (ms_sid i) (bytes_in_buffer st) (avail_slice_list c3)) end.
  rewrite Hn3, Hn, Nat2Z.id, (add_slice_bytes_view _ _ _ _ _ tail N Hv3). f_equal. apply list_fmap_ext. intros k s _.
  rewrite lcs_bytes_snoc, Es, Hs, (Z.eqb_sym s). fold st. cbn [negb andb]. destruct (lc_sid SL_list c lc =? s).
  - unfold add32, u32. by rewrite Zplus_mod_idemp_l.
  - by rewrite Z.add_0_r.
Qed.

(** ** The slice of the slot *)

(** What [nr_slice_preprocess] means to choose: the UEs alternate between their slices,
    from one slot to the next, and take the other one when it alone has data. *)
Definition preferred (slot ue_ind : Z) (act : list Z) (bytes : Z -> Z) : Z :=
  match act with
  | [s1; s2] =>
      if Z.even (slot + ue_ind)
      then if bytes s1 >? 0 then s1 else s2
      else if bytes s2 >? 0 then s2 else s1
  | s :: _ => s
  | [] => 0
  end.

(** What is known of a UE once its buffers have been read. *)
Record prepared (rlc : Z -> Z -> mac_rlc_status_resp_t) (SL_list : NR_Slices_t) (c c3 : NR_UE_sched_ctrl_t) : Prop := {
  prep_same : same_ue c c3;
  prep_num : num_slice_d c3 = 1 + Z.of_nat (length (active_slices SL_list c));
  prep_view : exists tail, view <$> avail_slice_list c3 =
    ((fun s => (s, slice_bytes rlc SL_list c s)) <$> 0 :: active_slices SL_list c) ++ tail
}.

Lemma view_lookup (l : list nr_macrlc_slice_info_t) (k : nat) p : (view <$> l) !! k = Some p ->
  exists a, rd l (Z.of_nat k) = Done a /\ ms_sid a = p.1 /\ ms_bytes a = p.2.
Proof.
  rewrite list_lookup_fmap. destruct (l !! k) as [a|] eqn:E; [|done]. intros [= <-]. exists a.
  split; [|done]. apply rd_done; [lia|]. by rewrite Nat2Z.id.
Qed.

Lemma even_sum slot ind : 0 <= ind ->
  Z.even (slot + ind) = ((slot mod 2 =? 0) && (Z.rem ind 2 =? 0)) || ((slot mod 2 =? 1) && (Z.rem ind 2 =? 1)).
Proof.
  intros H. rewrite Z.even_add, (Zeven_mod slot), (Zeven_mod ind), Z.rem_mod_nonneg by lia.
  pose proof (Z.mod_pos_bound slot 2 ltac:(lia)). pose proof (Z.mod_pos_bound ind 2 ltac:(lia)).
  assert (slot mod 2 = 0 \/ slot mod 2 = 1) as [->| ->] by lia; assert (ind mod 2 = 0 \/ ind mod 2 = 1) as [->| ->] by lia;
    reflexivity.
Qed.

Lemma select_slice_spec rlc SL_list c c3 slot ind : prepared rlc SL_list c c3 -> 0 <= ind ->
  (length (active_slices SL_list c) <= 2)%nat ->
  select_slice slot ind c3 = Done (c3 <| slice_for_this_sched :=
    preferred slot ind (active_slices SL_list c) (slice_bytes rlc SL_list c) |>).
Proof.
  intros [_ Hn [tail Hv]] Hi Hlen. unfold select_slice. rewrite Hn.
  destruct (active_slices SL_list c) as [|s1 [|s2 [|]]]; simpl in Hlen; try lia; cbn [length preferred] in *; simpl in Hv.
  - destruct (view_lookup (avail_slice_list c3) 0 (0, slice_bytes rlc SL_list c 0)) as (a & E & Es & Eb); [by rewrite Hv|].
    change (Z.of_nat 0) with 0 in *. simpl. rewrite E. simpl. by rewrite Es.
  - destruct (view_lookup (avail_slice_list c3) 1 (s1, slice_bytes rlc SL_list c s1)) as (a & E & Es & Eb); [by rewrite Hv|].
    change (Z.of_nat 1) with 1 in *. simpl. rewrite E. simpl. by rewrite Es.
  - destruct (view_lookup (avail_slice_list c3) 1 (s1, slice_bytes rlc SL_list c s1)) as (a & Ea & Esa & Eba); [by rewrite Hv|].
    destruct (view_lookup (avail_slice_list c3) 2 (s2, slice_bytes rlc SL_list c s2)) as (b & Eb & Esb & Ebb); [by rewrite Hv|].
    change (Z.of_nat 1) with 1 in Ea. change (Z.of_nat 2) with 2 in Eb.
    cbn [fst snd] in *. rewrite <- Eba, <- Ebb, Ea, Eb, even_sum, <- Esa, <- Esb by done.
    change (1 + Z.of_nat 2 =? 0) with false. change (1 + Z.of_nat 2 =? 1) with false.
    change (1 + Z.of_nat 2 =? 2) with false. change (1 + Z.of_nat 2 =? 3) with true. cbn [mbind outcome_bind].
    assert (Hs : slot mod 2 = 0 \/ slot mod 2 = 1) by (pose proof (Z.mod_pos_bound slot 2 ltac:(lia)); lia).
    assert (Hd : Z.rem ind 2 = 0 \/ Z.rem ind 2 = 1) by (pose proof (Z.rem_bound_pos ind 2 ltac:(lia) ltac:(lia)); lia).
    destruct Hs as [->| ->], Hd as [->| ->]; simpl; by repeat cif.
Qed.

Lemma select_slice_exit rlc SL_list c c3 slot ind : prepared rlc SL_list c c3 ->
  (2 < length (active_slices SL_list c))%nat -> select_slice slot ind c3 = Exit.
Proof.
  intros [_ Hn _] Hlen. unfold select_slice. rewrite Hn.
  repeat (cif; zbool; try lia). done.
Qed.

(** ** The whole preparation *)

Lemma mapM_done {A B} (f : A -> outcome B) l l' : Forall2 (fun x y => f x = Done y) l l' -> mapM f l = Done l'.
Proof. induction 1 as [|x y l l' H _ IH]; [done|]. simpl. by rewrite H, IH. Qed.

(** The three steps of a UE before the choice. *)
Definition steps_done (rlc : Z -> Z -> mac_rlc_status_resp_t) (SL_list : NR_Slices_t) (c c3 : NR_UE_sched_ctrl_t) : Prop :=
  exists c1 c2, loop (store_lc_slice SL_list) c (lc_config c) = Done c1 /\ get_active_slices c1 = Done c2 /\
    loop (store_lc_buffer rlc) (c2 <| num_total_bytes := 0 |> <| dl_pdus_total := 0 |>) (lc_config c2) = Done c3.

Lemma prepare_ue rlc SL_list c : Forall (fun SL => sl_sid SL <= MAX_NUM_PDU_SESSION) SL_list -> ue_wf c ->
  exists c3, steps_done rlc SL_list c c3 /\ prepared rlc SL_list c c3.
Proof.
  intros HSL W. destruct (store_lc_slices_ok SL_list c HSL W) as (infos & E1 & L1 & F1 & Fs).
  destruct (get_active_slices_ok SL_list c infos W F1 Fs) as (avail & E2 & Hs & Hb).
  destruct (active_slices_bounds SL_list c) as (Ha & Hp & Hn). set (act := active_slices SL_list c) in *.
  set (c2 := _ <| num_slice_d := _ |>) in E2.
  destruct (store_buffers_ok rlc SL_list c (c2 <| num_total_bytes := 0 |> <| dl_pdus_total := 0 |>) (0 :: act)
    ((fun s => (s, 0)) <$> replicate (8 - length act) (-1))) as (c3 & E3 & S3 & N3 & V3); try done.
  - constructor; [|done]. intros H. apply (proj1 (Forall_forall _ _) Hp) in H. lia.
  - apply (wf_status c W).
  - change (1 + Z.of_nat (length act) = Z.of_nat (S (length act))). lia.
  - change (view <$> avail = ((fun s => (s, 0)) <$> 0 :: act) ++ ((fun s => (s, 0)) <$> replicate (8 - length act) (-1))).
    rewrite <- fmap_app. cbn [app]. rewrite <- Hs. rewrite <- list_fmap_compose. apply list_fmap_ext. intros k a Hk.
    unfold view, compose. f_equal. by eapply Forall_lookup_1 in Hb.
  - exists c3. split; [by exists (c <| dl_sl_info := infos |>), c2|]. split; [done| |by eexists].
    rewrite N3. done.
Qed.

Lemma prepare_steps rlc SL_list UEs UEs3 slot : Forall2 (steps_done rlc SL_list) UEs UEs3 ->
  prepare_slices SL_list rlc slot UEs = nr_slice_preprocess slot UEs3.
Proof.
  intros H. assert (exists UEs1 UEs2,
    Forall2 (fun c c1 => loop (store_lc_slice SL_list) c (lc_config c) = Done c1) UEs UEs1 /\
    Forall2 (fun c1 c2 => get_active_slices c1 = Done c2) UEs1 UEs2 /\
    Forall2 (fun c2 c3 => loop (store_lc_buffer rlc) (c2 <| num_total_bytes := 0 |> <| dl_pdus_total := 0 |>) (lc_config c2)
                          = Done c3) UEs2 UEs3) as (UEs1 & UEs2 & H1 & H2 & H3).
  { induction H as [|c c3 UEs UEs3 (c1 & c2 & E1 & E2 & E3) _ (UEs1 & UEs2 & H1 & H2 & H3)]; [by exists [], []|].
    exists (c1 :: UEs1), (c2 :: UEs2). split_and!; by constructor. }
  unfold prepare_slices, nr_store_dl_slice_info, nr_get_ue_active_slice_list, nr_store_dlsch_buffer.
  rewrite (mapM_done _ _ _ H1). cbn [mbind outcome_bind]. rewrite (mapM_done _ _ _ H2). cbn [mbind outcome_bind].
  by rewrite (mapM_done _ _ _ H3).
Qed.

(** The UEs that take part: their index counts the ones before them. *)
Definition ue_index (UEs : list NR_UE_sched_ctrl_t) (k : nat) : Z :=
  Z.of_nat (length (filter (fun c => ul_failure c = false) (take k UEs))).

Definition selected (rlc : Z -> Z -> mac_rlc_status_resp_t) (SL_list : NR_Slices_t) (slot ind : Z)
    (c c' : NR_UE_sched_ctrl_t) : Prop :=
  let act := active_slices SL_list c in
  slice_for_this_sched c' = preferred slot ind act (slice_bytes rlc SL_list c) /\
  num_slice_d c' = 1 + Z.of_nat (length act) /\
  exists tail, view <$> avail_slice_list c' = ((fun s => (s, slice_bytes rlc SL_list c s)) <$> 0 :: act) ++ tail.

Lemma slice_preprocess_ok rlc SL_list slot : forall UEs UEs3 ind, 0 <= ind ->
  Forall2 (prepared rlc SL_list) UEs UEs3 ->
  Forall (fun c => ul_failure c = false -> (length (active_slices SL_list c) <= 2)%nat) UEs ->
  exists UEs', slice_preprocess_loop slot ind UEs3 = Done UEs' /\
    forall k c, UEs !! k = Some c -> ul_failure c = false ->
      exists c', UEs' !! k = Some c' /\ selected rlc SL_list slot (ind + ue_index UEs k) c c'.
Proof.
  intros UEs UEs3 ind Hi H. revert ind Hi. induction H as [|c c3 UEs UEs3 P _ IH]; intros ind Hi HF.
  { exists []. split; [done|]. intros k c Hk. by rewrite lookup_nil in Hk. }
  inversion_clear HF as [|? ? Hc HF']. cbn [slice_preprocess_loop].
  replace (ul_failure c3) with (ul_failure c) by (symmetry; apply P). destruct (ul_failure c) eqn:Ef.
  - destruct (IH ind Hi HF') as (UEs' & E & HU). rewrite E. eexists. split; [reflexivity|].
    intros [|k] c' Hk Hf; [injection Hk as <-; congruence|]. destruct (HU k c' Hk Hf) as (c'' & Hk' & S). exists c''.
    split; [done|]. unfold ue_index. cbn [take]. rewrite filter_cons_False by congruence. exact S.
  - rewrite (select_slice_spec rlc SL_list c c3 slot ind P Hi (Hc eq_refl)). cbn [mbind outcome_bind].
    destruct (IH (ind + 1) ltac:(lia) HF') as (UEs' & E & HU). rewrite E. eexists. split; [reflexivity|].
    intros [|k] c' Hk Hf.
    + injection Hk as <-. eexists. split; [reflexivity|]. unfold ue_index. cbn [take].
      rewrite filter_nil. change (Z.of_nat (length [])) with 0. rewrite Z.add_0_r.
      split; [done|]. destruct P as [_ Pn Pv]. split; [exact Pn|exact Pv].
    + destruct (HU k c' Hk Hf) as (c'' & Hk' & S). exists c''. split; [done|]. unfold ue_index in *. cbn [take].
      rewrite filter_cons_True by done. cbn [length]. rewrite Nat2Z.inj_succ, <- Z.add_1_l, Z.add_assoc. exact S.
Qed.

(** [nr_slice_preprocess] changes the slice of the slot only. *)
Lemma select_slice_fields slot ind c c' : select_slice slot ind c = Done c' -> exists z, c' = c <| slice_for_this_sched := z |>.
Proof.
  assert (Hid : exists z, c = c <| slice_for_this_sched := z |>) by (exists (slice_for_this_sched c); by destruct c).
  unfold select_slice. destruct (rd (avail_slice_list c) 0), (rd (avail_slice_list c) 1), (rd (avail_slice_list c) 2);
    simpl; repeat cif; intros H; first [discriminate|injection H as <-; eauto].
Qed.

Lemma slice_preprocess_fields slot : forall UEs ind UEs', slice_preprocess_loop slot ind UEs = Done UEs' ->
  Forall2 (fun c c' => exists z, c' = c <| slice_for_this_sched := z |>) UEs UEs'.
Proof.
  induction UEs as [|c UEs IH]; intros ind UEs' H; cbn [slice_preprocess_loop] in H; [by injection H as <-|].
  destruct (ul_failure c).
  - invd H. injection H as <-. constructor; [|by eapply IH]. exists (slice_for_this_sched c). by destruct c.
  - invd H. invd H. injection H as <-. constructor; [by eapply select_slice_fields|by eapply IH].
Qed.

Section Preparation.
Context (rlc : Z -> Z -> mac_rlc_status_resp_t) (SL_list : NR_Slices_t) (UEs : list NR_UE_sched_ctrl_t).
Hypothesis sids_ok : Forall (fun SL => sl_sid SL <= MAX_NUM_PDU_SESSION) SL_list.
Hypothesis UEs_ok : Forall ue_wf UEs.

Lemma prepare_UEs : exists UEs3, (forall slot, prepare_slices SL_list rlc slot UEs = nr_slice_preprocess slot UEs3) /\
  Forall2 (prepared rlc SL_list) UEs UEs3.
Proof using sids_ok UEs_ok.
  cut (exists UEs3, Forall2 (fun c c3 => steps_done rlc SL_list c c3 /\ prepared rlc SL_list c c3) UEs UEs3).
  { intros (UEs3 & H). exists UEs3. split.
    - intros slot. apply prepare_steps. eapply Forall2_impl; [exact H|]. by intros ?? [??].
    - eapply Forall2_impl; [exact H|]. by intros ?? [??]. }
  generalize UEs UEs_ok. intros l Hl. clear UEs_ok. induction Hl as [|c l W _ (UEs3 & IH)]; [by exists []|].
  destruct (prepare_ue rlc SL_list c sids_ok W) as (c3 & H). exists (c3 :: UEs3). by constructor.
Qed.

Definition at_most_two_slices : Prop :=
  Forall (fun c => ul_failure c = false -> (length (active_slices SL_list c) <= 2)%nat) UEs.

Lemma prepare_slices_selected (slot : Z) : at_most_two_slices ->
  exists UEs', prepare_slices SL_list rlc slot UEs = Done UEs' /\
    forall k c, UEs !! k = Some c -> ul_failure c = false ->
      exists c', UEs' !! k = Some c' /\ selected rlc SL_list slot (ue_index UEs k) c c'.
Proof using sids_ok UEs_ok.
  intros H. destruct prepare_UEs as (UEs3 & E & P). rewrite E.
  apply (slice_preprocess_ok rlc SL_list slot UEs UEs3 0 ltac:(lia) P H).
Qed.

(** C5. The preparation of a slot: when no UE has more than two slices, it returns, and
    each UE that takes part is given the slice of the specification ([preferred]), with
    [avail_slice_list] holding slice 0 and its slices in order, each with the bytes
    the RLC holds for the logical channels of the slice. *)
Theorem prepare_slices_spec (slot : Z) :
  Forall (fun c => ul_failure c = false -> (length (active_slices SL_list c) <= 2)%nat) UEs ->
  exists UEs', prepare_slices SL_list rlc slot UEs = Done UEs' /\
    forall k c, UEs !! k = Some c -> ul_failure c = false ->
      exists c', UEs' !! k = Some c' /\ selected rlc SL_list slot (ue_index UEs k) c c'.
Proof using sids_ok UEs_ok.
  apply prepare_slices_selected.
Qed.

(** The UEs after the preparation have as many entries as they have slices. *)
Lemma prepare_slices_entries (slot : Z) :
  Forall (fun c => ul_failure c = false -> (length (active_slices SL_list c) <= 2)%nat) UEs ->
  exists UEs', prepare_slices SL_list rlc slot UEs = Done UEs' /\ length UEs' = length UEs /\
    Forall (fun c => (Z.to_nat (num_slice_d c) <= length (avail_slice_list c))%nat) UEs'.
Proof using sids_ok UEs_ok.
  intros H. destruct prepare_UEs as (UEs3 & E & P). rewrite E. unfold nr_slice_preprocess.
  destruct (slice_preprocess_ok rlc SL_list slot UEs UEs3 0 ltac:(lia) P H) as (UEs' & E' & _).
  exists UEs'. split; [done|]. pose proof (slice_preprocess_fields _ _ _ _ E') as F.
  split; [by rewrite <- (Forall2_length _ _ _ F), <- (Forall2_length _ _ _ P)|].
  clear E E'. revert P. generalize UEs. intros l P. clear H UEs_ok. revert UEs' F. induction P as [|c c3 l l3 Pc _ IH]; intros UEs' F.
  - by inversion F.
  - inversion F as [|? c' ? l' (z & ->) F']; subst. constructor; [|by apply IH].
    destruct Pc as [_ Hn [tail Hv]]. apply (f_equal length) in Hv. rewrite length_fmap, length_app, length_fmap in Hv.
    simpl in *. rewrite Hn, Hv. lia.
Qed.

(** A UE with three slices ends the process. *)
Theorem three_slices_exit (slot : Z) :
  Exists (fun c => ul_failure c = false /\ (2 < length (active_slices SL_list c))%nat) UEs ->
  prepare_slices SL_list rlc slot UEs = Exit.
Proof using sids_ok UEs_ok.
  intros H. destruct prepare_UEs as (UEs3 & -> & P). unfold nr_slice_preprocess.
  assert (Hi : 0 <= 0) by lia. revert Hi. generalize 0 at 2 3. clear UEs_ok.
  induction P as [|c c3 l l3 Pc _ IH]; intros ind Hi; [by apply Exists_nil in H|]. cbn [slice_preprocess_loop].
  replace (ul_failure c3) with (ul_failure c) by (symmetry; apply Pc). apply Exists_cons in H as [[Hf Hc]|H].
  - rewrite Hf. by rewrite (select_slice_exit rlc SL_list c c3 slot ind).
  - destruct (ul_failure c); [by rewrite (IH H ind Hi)|].
    destruct (decide (length (active_slices SL_list c) <= 2)%nat).
    + rewrite (select_slice_spec rlc SL_list c) by done. cbn [mbind outcome_bind]. by rewrite (IH H) by lia.
    + by rewrite (select_slice_exit rlc SL_list c) by (done || lia).
Qed.
End Preparation.

(** ** Turns *)

(** In slots of different parity, the slice that has data is preferred in one of the two; when both slices have
    data each is preferred in one. *)
Lemma preferred_turns slot slot' ind act bytes bytes' s :
  (length act <= 2)%nat -> Z.even slot' = negb (Z.even slot) -> s ∈ act -> 0 < bytes s -> 0 < bytes' s ->
  (preferred slot ind act bytes = s \/ preferred slot' ind act bytes' = s) /\
  (forall s2, s2 ∈ act -> s2 <> s -> 0 < bytes s2 -> 0 < bytes' s2 ->
    (preferred slot ind act bytes = s /\ preferred slot' ind act bytes' = s2) \/
    (preferred slot ind act bytes = s2 /\ preferred slot' ind act bytes' = s)).
Proof.
  intros Hl Hp Hs Hb Hb'. apply Z.gtb_lt in Hb, Hb'.
  assert (He : Z.even (slot' + ind) = negb (Z.even (slot + ind))) by (rewrite !Z.even_add, Hp; by destruct (Z.even slot), (Z.even ind)).
  destruct act as [|s1 [|s2 [|]]]; simpl in Hl; try lia.
  - by apply not_elem_of_nil in Hs.
  - apply list_elem_of_singleton in Hs as ->. split; [by left|]. intros s2 Hs2. by apply list_elem_of_singleton in Hs2.
  - unfold preferred. rewrite He.
    apply elem_of_cons in Hs as [->|Hs%list_elem_of_singleton]; [|subst s]; rewrite Hb, Hb'.
    + split; [destruct (Z.even (slot + ind)); simpl; by auto|].
      intros s3 [->|Hs3%list_elem_of_singleton]%elem_of_cons Hne H3 H3'; [done|subst s3]. apply Z.gtb_lt in H3, H3'.
      rewrite H3, H3'. destruct (Z.even (slot + ind)); simpl; by auto.
    + split; [destruct (Z.even (slot + ind)); simpl; by auto|].
      intros s3 [->|Hs3%list_elem_of_singleton]%elem_of_cons Hne H3 H3'; [|done]. apply Z.gtb_lt in H3, H3'.
      rewrite H3, H3'. destruct (Z.even (slot + ind)); simpl; by auto.
Qed.

(** In slots of one parity, the choice between two slices with data is always the same. *)
Lemma preferred_same_parity slot slot' ind s1 s2 bytes bytes' :
  Z.even slot' = Z.even slot -> 0 < bytes s1 -> 0 < bytes s2 -> 0 < bytes' s1 -> 0 < bytes' s2 ->
  preferred slot ind [s1; s2] bytes = preferred slot' ind [s1; s2] bytes'.
Proof.
  intros Hp H1 H2 H3 H4. apply Z.gtb_lt in H1, H2, H3, H4. unfold preferred. by rewrite !Z.even_add, Hp, H1, H2, H3, H4.
Qed.

(** C31. The slices of a UE take turns.  Take two slots of different parity in which downlink is scheduled, at any
    distance, with any buffers and any UEs in each, as long as a UE keeps its slices and its index among the UEs without
    uplink failure.  A slice for which this UE has data in both is chosen in at least one of the two; when the
    UE has data for both its slices, each of them is chosen in exactly one. *)
Theorem slices_alternate (SL_list : NR_Slices_t) (rlc rlc' : Z -> Z -> mac_rlc_status_resp_t)
    (UEs UEs' : list NR_UE_sched_ctrl_t) (slot slot' : Z) (k : nat) (c c' : NR_UE_sched_ctrl_t) (s : Z) :
  Forall (fun SL => sl_sid SL <= MAX_NUM_PDU_SESSION) SL_list ->
  Forall ue_wf UEs -> at_most_two_slices SL_list UEs -> Forall ue_wf UEs' -> at_most_two_slices SL_list UEs' ->
  Z.even slot' = negb (Z.even slot) ->
  UEs !! k = Some c -> ul_failure c = false -> UEs' !! k = Some c' -> ul_failure c' = false ->
  ue_index UEs' k = ue_index UEs k -> active_slices SL_list c' = active_slices SL_list c ->
  s ∈ active_slices SL_list c -> 0 < slice_bytes rlc SL_list c s -> 0 < slice_bytes rlc' SL_list c' s ->
  exists r r' d d',
    prepare_slices SL_list rlc slot UEs = Done r /\ r !! k = Some d /\
    prepare_slices SL_list rlc' slot' UEs' = Done r' /\ r' !! k = Some d' /\
    (slice_for_this_sched d = s \/ slice_for_this_sched d' = s) /\
    (forall s2, s2 ∈ active_slices SL_list c -> s2 <> s ->
      0 < slice_bytes rlc SL_list c s2 -> 0 < slice_bytes rlc' SL_list c' s2 ->
      (slice_for_this_sched d = s /\ slice_for_this_sched d' = s2) \/
      (slice_for_this_sched d = s2 /\ slice_for_this_sched d' = s)).
Proof.
  intros Hsl W T W' T' Hp Hk Hf Hk' Hf' Hi Ha Hs Hb Hb'.
  destruct (prepare_slices_selected rlc SL_list UEs Hsl W slot T) as (r & Er & HU).
  destruct (prepare_slices_selected rlc' SL_list UEs' Hsl W' slot' T') as (r' & Er' & HU').
  destruct (HU k c Hk Hf) as (d & Hd & Sd & _). destruct (HU' k c' Hk' Hf') as (d' & Hd' & Sd' & _).
  rewrite Hi, Ha in Sd'. exists r, r', d, d'. do 4 (split; [done|]). rewrite Sd, Sd'.
  apply preferred_turns; try done. apply (proj1 (Forall_lookup _ _) T k c Hk Hf).
Qed.

(** ** An example: a UE with a signalling bearer and DRBs in two slices, and one with a DRB in a third *)

Definition example_ue (n : Z) (nssais : list nssai_t) : NR_UE_sched_ctrl_t :=
  mk_sched_ctrl n false 0 (imap (fun i ns => mk_lc (Z.of_nat i + 1) (Z.of_nat i + 1) ns) nssais)
    (replicate 32 (mk_status 0 0)) 0 0 (replicate 32 (mk_ms 0 (mk_nssai 0 0) 0))
    (replicate 9 (mk_ms 0 (mk_nssai 0 0) 0)) 0 0.
Definition example_slices : NR_Slices_t :=
  mk_slice 0 (mk_nssai 0 0) (mk_policy 0 0 100) :: configured_slices 1 [mk_nssai 1 1; mk_nssai 1 2; mk_nssai 1 3].
Definition example_ues : list NR_UE_sched_ctrl_t :=
  [example_ue 1 [mk_nssai 0 0; mk_nssai 1 2; mk_nssai 1 1; mk_nssai 1 2]; example_ue 2 [mk_nssai 0 0; mk_nssai 1 3]].
Definition example_rlc (rnti lcid : Z) : mac_rlc_status_resp_t := mk_status (100 * rnti + lcid) 0.

Lemma example_slices_ok : Forall (fun SL => sl_sid SL <= MAX_NUM_PDU_SESSION) example_slices.
Proof. repeat constructor; vm_compute; congruence. Qed.

Lemma example_ue_ok n nssais : (length nssais <= 8)%nat -> ue_wf (example_ue n nssais).
Proof.
  intros H. split; simpl; [done..| | |].
  - apply Forall_forall. intros lc Hin. apply elem_of_lookup_imap in Hin as (i & ns & -> & Hi).
    apply lookup_lt_Some in Hi. unfold NR_MAX_NUM_LCID; simpl. lia.
  - apply NoDup_fmap_2_strong.
    + intros x y Hx Hy E. apply elem_of_lookup_imap in Hx as (i & nx & -> & Hi).
      apply elem_of_lookup_imap in Hy as (j & ny & -> & Hj). simpl in E. assert (i = j) by lia. congruence.
    + apply NoDup_alt. intros i j x Hi Hj. rewrite list_lookup_imap in Hi, Hj.
      destruct (nssais !! i), (nssais !! j); simpl in *; try done. injection Hi as <-. injection Hj as ? _. lia.
  - by repeat constructor.
Qed.

Lemma example_ues_ok : Forall ue_wf example_ues.
Proof. do 2 (constructor; [apply example_ue_ok; simpl; lia|]). constructor. Qed.

Lemma prepare_slices_spec_witness :
  exists UEs', prepare_slices example_slices example_rlc 0 example_ues = Done UEs' /\
    forall k c, example_ues !! k = Some c -> ul_failure c = false ->
      exists c', UEs' !! k = Some c' /\ selected example_rlc example_slices 0 (ue_index example_ues k) c c'.
Proof.
  apply (prepare_slices_spec example_rlc example_slices example_ues example_slices_ok example_ues_ok 0).
  repeat constructor; vm_compute; lia.
Defined.

Lemma example_two_slices : at_most_two_slices example_slices example_ues.
Proof. repeat constructor; vm_compute; lia. Qed.

(** In slot 0, and in slot 3 with more data in each buffer: the UE has data for its slices 1 and 2. *)
Lemma slices_alternate_witness :
  let rlc' rnti lcid := mk_status (500 * rnti + lcid) 0 in
  exists r r' d d',
    prepare_slices example_slices example_rlc 0 example_ues = Done r /\ r !! 0%nat = Some d /\
    prepare_slices example_slices rlc' 3 example_ues = Done r' /\ r' !! 0%nat = Some d' /\
    (slice_for_this_sched d = 2 \/ slice_for_this_sched d' = 2).
Proof.
  intros rlc'.
  destruct (slices_alternate example_slices example_rlc rlc' example_ues example_ues 0 3 0 (example_ue 1 [mk_nssai 0 0; mk_nssai 1 2; mk_nssai 1 1; mk_nssai 1 2])
    (example_ue 1 [mk_nssai 0 0; mk_nssai 1 2; mk_nssai 1 1; mk_nssai 1 2]) 2) as (r & r' & d & d' & H1 & H2 & H3 & H4 & H5 & _);
    [exact example_slices_ok|exact example_ues_ok|exact example_two_slices|exact example_ues_ok|exact example_two_slices
    |reflexivity..|vm_compute; right; left|vm_compute; reflexivity|vm_compute; reflexivity|].
  exact (ex_intro _ r (ex_intro _ r' (ex_intro _ d (ex_intro _ d' (conj H1 (conj H2 (conj H3 (conj H4 H5)))))))).
Defined.

Lemma three_slices_exit_witness :
  prepare_slices example_slices example_rlc 3 (example_ues ++ [example_ue 3 [mk_nssai 1 3; mk_nssai 1 2; mk_nssai 1 1]]) = Exit.
Proof.
  apply (three_slices_exit example_rlc example_slices _ example_slices_ok).
  - apply Forall_app. split; [exact example_ues_ok|]. constructor; [apply example_ue_ok; simpl; lia|]. constructor.
  - do 2 right. left. split; [reflexivity|]. vm_compute. lia.
Defined.
