(* ===== verification/SliceAlloc.v ===== *)
(** The allocation of resource blocks to the UEs of a slice: [get_start_stop_allocation],
    [allocate_dl_retransmission] and [pf_dl_slice] of
    openair2/LAYER2/NR_MAC_gNB/gNB_scheduler_dlsch.c, on the mask of the free resource blocks. *)

From S2P Require Import Prelude Tbs SlicePolicy SliceSched.

(** ** Data *)

Record NR_tda_info_t := mk_tda { startSymbolIndex : Z; nrOfSymbols : Z; valid_tda : bool }.

Record NR_sched_pdsch_t := mk_pdsch {
  rbSize : Z;
  rbStart : Z;
  mcs : Z;
  code_rate : Z;
  Qm : Z;
  tb_size : Z;
  dl_harq_pid : Z;
  pucch_allocation : Z;
  pm_index : Z;
  nrOfLayers : Z;
  (** [N_PRB_DMRS * N_DMRS_SLOT] of [dmrs_parms] *)
  dmrs_prb : Z;
  time_domain_allocation : Z;
  tda_info : NR_tda_info_t
}.
#[export] Instance eta_pdsch : Eta NR_sched_pdsch_t := fun r =>
  mk_pdsch (rbSize r) (rbStart r) (mcs r) (code_rate r) (Qm r) (tb_size r) (dl_harq_pid r) (pucch_allocation r)
    (pm_index r) (nrOfLayers r) (dmrs_prb r) (time_domain_allocation r) (tda_info r).

(** The fields of [NR_UE_info_t] the downlink scheduler uses; [UE_ctrl] are the ones of
    [UE_sched_ctrl] for the slices, the others are in [UE_sched_ctrl] or in the BWPs. *)
Record NR_UE_info_t := mk_ue {
  UE_ctrl : NR_UE_sched_ctrl_t;
  Msg4_ACKed : bool;
  alreadySched : bool;
  available_dl_harq : Z;
  retrans_dl_harq : Z;
  ta_frame : Z;
  cce_index : Z;
  sched_pdsch : NR_sched_pdsch_t;
  (** [harq_processes[pid].sched_pdsch] *)
  harq_pdsch : list NR_sched_pdsch_t;
  BWPSize : Z;
  mcsTableIdx : Z;
  searchSpaceType : Z;
  (** the DCI format is 1_0 *)
  dci_1_0 : bool;
  controlResourceSetId : Z;
  initial_dl_BWPStart : Z;
  initial_dl_BWPSize : Z;
  (** [dl_bler_stats] *)
  bler_last_frame : Z;
  bler_mcs : Z
}.
#[export] Instance eta_ue : Eta NR_UE_info_t := fun r =>
  mk_ue (UE_ctrl r) (Msg4_ACKed r) (alreadySched r) (available_dl_harq r) (retrans_dl_harq r) (ta_frame r) (cce_index r)
    (sched_pdsch r) (harq_pdsch r) (BWPSize r) (mcsTableIdx r) (searchSpaceType r) (dci_1_0 r)
    (controlResourceSetId r) (initial_dl_BWPStart r) (initial_dl_BWPSize r) (bler_last_frame r) (bler_mcs r).

Definition searchSpaceType_PR_common : Z := 1.
Definition searchSpaceType_PR_ue_Specific : Z := 2.

(** ** What the scheduler calls

    The control channel, the feedback channel and the link adaptation, with their own state [W]. *)
Class SchedEnv (W : Type) := {
  cset0_bwp_start : Z;
  cset0_bwp_size : Z;
  get_cce_index : W -> NR_UE_info_t -> Z * W;
  (** [nr_get_pucch_resource] and [nr_acknack_scheduling] *)
  nr_acknack_scheduling : W -> NR_UE_info_t -> Z -> Z * W;
  fill_pdcch_vrb_map : W -> NR_UE_info_t -> Z -> W;
  get_dl_tda : Z;
  (** for a UE, a type of search space and a time domain allocation *)
  get_dl_tda_info : NR_UE_info_t -> Z -> Z -> NR_tda_info_t;
  get_dl_dmrs_params : NR_UE_info_t -> NR_tda_info_t -> Z -> Z;
  (** [get_mcs_from_bler], or the largest MCS *)
  mcs_from_bler : NR_UE_info_t -> Z;
  get_dl_nrOfLayers : NR_UE_info_t -> Z;
  get_pm_index : NR_UE_info_t -> Z -> Z;
  nr_get_Qm_dl : Z -> Z -> Z;
  nr_get_code_rate_dl : Z -> Z -> Z;
  (** [qsort] of the UEs by their coefficients *)
  pf_sort : list (nat * NR_UE_info_t) -> list (nat * NR_UE_info_t)
}.

(** ** The mask of the free resource blocks *)

Definition SL_to_bitmap (startSymbolIndex nrOfSymbols : Z) : Z :=
  u16 (Z.shiftl (Z.shiftl 1 nrOfSymbols - 1) startSymbolIndex).

(** [(rballoc_mask[i] & slbitmap) == slbitmap] *)
Definition rb_free (mask : list Z) (slbitmap i : Z) : outcome bool :=
  m ← rd mask i; Done (Z.land m slbitmap =? slbitmap).

(** [while (rbStart < rbStop && (rballoc_mask[rbStart] & slbitmap) != slbitmap) rbStart++;] *)
Fixpoint skip_used (fuel : nat) (mask : list Z) (slbitmap rbStart rbStop : Z) : outcome Z :=
  if rbStart <? rbStop then
    free ← rb_free mask slbitmap rbStart;
    if free : bool then Done rbStart
    else match fuel with O => Undef | S fuel => skip_used fuel mask slbitmap (rbStart + 1) rbStop end
  else Done rbStart.

(** [while (rbStart + n <= rbStop && (rballoc_mask[rbStart + n] & slbitmap) == slbitmap && more n) n++;] *)
Fixpoint count_free (fuel : nat) (mask : list Z) (slbitmap rbStart rbStop : Z) (more : Z -> bool) (n : Z) : outcome Z :=
  if rbStart + n <=? rbStop then
    free ← rb_free mask slbitmap (rbStart + n);
    if free && more n
    then match fuel with O => Undef | S fuel => count_free fuel mask slbitmap rbStart rbStop more (n + 1) end
    else Done n
  else Done n.

(** [for (rb = 0; rb < n; rb++) rballoc_mask[rb + rbStart] ^= slbitmap;] *)
Fixpoint xor_rbs (n : nat) (mask : list Z) (slbitmap rbStart : Z) : outcome (list Z) :=
  match n with
  | O => Done mask
  | S n => m ← rd mask rbStart;
           mask ← wr mask rbStart (Z.lxor m slbitmap);
           xor_rbs n mask slbitmap (rbStart + 1)
  end.

(** Turns a loop over a range of resource blocks can take. *)
Definition range_fuel (rbStart rbStop : Z) : nat := Z.to_nat (rbStop - rbStart + 1).

(** What the allocations share: the state of what they call, the mask, the count of free resource blocks. *)
Record alloc_t {W : Type} := mk_alloc { world : W; rballoc_mask : list Z; n_rb_sched : Z }.
Arguments alloc_t : clear implicits.
Arguments mk_alloc {W} _ _ _.
#[export] Instance eta_alloc {W} : Eta (alloc_t W) := fun r => mk_alloc (world r) (rballoc_mask r) (n_rb_sched r).

(** The state of the second loop: what all slices share, the UEs, and the counters of the slice. *)
Record pf_t {W : Type} := mk_pf {
  pf_alloc : alloc_t W;
  pf_UEs : list NR_UE_info_t;
  remainUEs : Z;
  n_rb_sched_s : Z;
  n_rb_remain_s : Z
}.
Arguments pf_t : clear implicits.
Arguments mk_pf {W} _ _ _ _ _.
#[export] Instance eta_pf {W} : Eta (pf_t W) := fun r =>
  mk_pf (pf_alloc r) (pf_UEs r) (remainUEs r) (n_rb_sched_s r) (n_rb_remain_s r).

Section Alloc.
Context {W : Type} `{Env : SchedEnv W}.

(** Returns [*rbStart] and [*rbStop]. *)
Definition get_start_stop_allocation (UE : NR_UE_info_t) : Z * Z :=
  let rbStop := BWPSize UE - 1 in
  if (searchSpaceType UE =? searchSpaceType_PR_common) && dci_1_0 UE then
    if negb (cset0_bwp_size =? 0) then (cset0_bwp_start, cset0_bwp_start + cset0_bwp_size - 1)
    else (initial_dl_BWPStart UE, initial_dl_BWPStart UE + initial_dl_BWPSize UE - 1)
  else (0, rbStop).

(** The loop that looks for [need] contiguous free resource blocks; None is [return false]. *)
Fixpoint find_contiguous (fuel : nat) (mask : list Z) (slbitmap need rbStart rbStop rbSize : Z) : outcome (option (Z * Z)) :=
  if rbSize <? need then
    match fuel with
    | O => Undef
    | S fuel =>
        rbStart ← skip_used (range_fuel (rbStart + rbSize) rbStop) mask slbitmap (rbStart + rbSize) rbStop;
        if rbStart >=? rbStop then Done None
        else
          rbSize ← count_free (range_fuel rbStart rbStop) mask slbitmap rbStart rbStop (fun n => n <? need) 0;
          find_contiguous fuel mask slbitmap need rbStart rbStop rbSize
    end
  else Done (Some (rbStart, rbSize)).

(** The search of resource blocks for a retransmission: the start and the description of the
    transmission, None for [return false]. *)
Definition retransmission_rbs (mask : list Z) (UE : NR_UE_info_t) (retInfo : NR_sched_pdsch_t)
    : outcome (option (Z * NR_sched_pdsch_t)) :=
  let curInfo := sched_pdsch UE in
  let fewer := nrOfLayers curInfo <? nrOfLayers retInfo in
  let layers := if fewer then nrOfLayers curInfo else nrOfLayers retInfo in
  let pm := if fewer then pm_index curInfo else pm_index retInfo in
  let '(rbStart, rbStop) := get_start_stop_allocation UE in
  let tda := get_dl_tda in
  if negb (tda >=? 0) then Exit
  else
  let temp_tda := get_dl_tda_info UE (searchSpaceType UE) tda in
  if negb (valid_tda temp_tda) then Done None
  else
  let reuse_old_tda := (startSymbolIndex (tda_info retInfo) =? startSymbolIndex temp_tda)
                       && (nrOfSymbols (tda_info retInfo) <=? nrOfSymbols temp_tda) in
  if reuse_old_tda && (layers =? nrOfLayers retInfo) then
    let slbitmap := SL_to_bitmap (startSymbolIndex (tda_info retInfo)) (nrOfSymbols (tda_info retInfo)) in
    r ← find_contiguous (S (range_fuel rbStart rbStop)) mask slbitmap (rbSize retInfo) rbStart rbStop 0;
    Done (r' ← r; Some (r'.1, retInfo))
  else
    let temp_dmrs := get_dl_dmrs_params UE temp_tda layers in
    let slbitmap := SL_to_bitmap (startSymbolIndex temp_tda) (nrOfSymbols temp_tda) in
    rbStart ← skip_used (range_fuel rbStart rbStop) mask slbitmap rbStart rbStop;
    size ← count_free (range_fuel rbStart rbStop) mask slbitmap rbStart rbStop (fun _ => true) 0;
    '(success, new_tbs, new_rbSize) ←
      nr_find_nb_rb (Qm retInfo) (code_rate retInfo) false layers (nrOfSymbols temp_tda) temp_dmrs (tb_size retInfo) 1 (u16 size);
    if negb success || negb (new_tbs =? tb_size retInfo) then Done None
    else Done (Some (rbStart, retInfo <| tb_size := new_tbs |> <| rbSize := new_rbSize |> <| time_domain_allocation := tda |>
                                      <| nrOfLayers := layers |> <| pm_index := pm |> <| dmrs_prb := temp_dmrs |>
                                      <| tda_info := temp_tda |>)).

(** Returns the boolean. *)
Definition allocate_dl_retransmission (s : alloc_t W) (UE : NR_UE_info_t) (pid : Z) : outcome (bool * alloc_t W * NR_UE_info_t) :=
  retInfo ← rd (harq_pdsch UE) pid;
  found ← retransmission_rbs (rballoc_mask s) UE retInfo;
  match found with
  | None => Done (false, s, UE)
  | Some (start, retInfo) =>
      harq ← wr (harq_pdsch UE) pid retInfo;
      let UE := UE <| harq_pdsch := harq |> in
      let '(CCEIndex, w) := get_cce_index (world s) UE in
      let s := s <| world := w |> in
      if CCEIndex <? 0 then Done (false, s, UE)
      else
      let '(alloc, w) := nr_acknack_scheduling (world s) UE CCEIndex in
      let s := s <| world := w |> in
      if alloc <? 0 then Done (false, s, UE)
      else
      let UE := UE <| cce_index := CCEIndex |> in
      let s := s <| world := fill_pdcch_vrb_map (world s) UE CCEIndex |> in
      let UE := UE <| sched_pdsch := retInfo <| rbStart := u16 start |> <| pucch_allocation := u16 alloc |> |> in
      let slbitmap := SL_to_bitmap (startSymbolIndex (tda_info retInfo)) (nrOfSymbols (tda_info retInfo)) in
      mask ← xor_rbs (Z.to_nat (rbSize (sched_pdsch UE))) (rballoc_mask s) slbitmap (rbStart (sched_pdsch UE));
      Done (true, s <| n_rb_sched ::= fun n => n - rbSize (sched_pdsch UE) |> <| rballoc_mask := mask |>, UE)
  end.

(** ** New transmissions *)

Definition min_rbSize : Z := 5.

(** The conditions of the first loop, in its order, with [remainUEs]. *)
Definition eligible (frame sid remainUEs : Z) (UE : NR_UE_info_t) : bool :=
  Msg4_ACKed UE && negb (ul_failure (UE_ctrl UE)) && negb (alreadySched UE)
  && (slice_for_this_sched (UE_ctrl UE) =? sid) && negb (remainUEs =? 0) && negb (available_dl_harq UE <? 0)
  && negb ((num_total_bytes (UE_ctrl UE) =? 0) && negb (frame =? Z.rem (ta_frame UE + 100) 1024)).

(** The MCS, the layers and the precoding matrix of an eligible UE. *)
Definition adapt_link (UE : NR_UE_info_t) : NR_UE_info_t :=
  let UE := UE <| sched_pdsch; mcs := mcs_from_bler UE |> in
  let UE := UE <| sched_pdsch; nrOfLayers := get_dl_nrOfLayers UE |> in
  UE <| sched_pdsch; pm_index := get_pm_index UE (nrOfLayers (sched_pdsch UE)) |>.

Definition adapt_eligible (frame sid remainUEs : Z) (UEs : list NR_UE_info_t) : list NR_UE_info_t :=
  (fun UE => if eligible frame sid remainUEs UE then adapt_link UE else UE) <$> UEs.

(** The UEs of [UE_sched], with their places in the list. *)
Definition UE_sched (frame sid remainUEs : Z) (UEs : list NR_UE_info_t) : list (nat * NR_UE_info_t) :=
  prod_map id adapt_link <$> filter (fun iUE => eligible frame sid remainUEs (iUE.2)) (imap pair UEs).

(** The bytes of a UE in a slice: the loop with its [break]. *)
Fixpoint bytes_in_slice (num : nat) (sid : Z) (avail : list nr_macrlc_slice_info_t) : outcome Z :=
  match num with
  | O => Done 0
  | S num => match avail with
             | [] => Undef
             | a :: avail => if ms_sid a =? sid then Done (ms_bytes a) else bytes_in_slice num sid avail
             end
  end.

(** The resource blocks of a UE: start, size, TBS and the bitmap of its symbols. *)
Definition new_rbs (frame sid remain_s : Z) (mask : list Z) (UE : NR_UE_info_t) : outcome (NR_UE_info_t * Z) :=
  let UE := UE <| sched_pdsch; time_domain_allocation := get_dl_tda |> in
  if negb (get_dl_tda >=? 0) then Exit
  else
  let tda := get_dl_tda_info UE (searchSpaceType UE) get_dl_tda in
  let UE := UE <| sched_pdsch; tda_info := tda |> in
  if negb (valid_tda tda) then Exit
  else
  let slbitmap := SL_to_bitmap (startSymbolIndex tda) (nrOfSymbols tda) in
  let '(rbStart', rbStop) := get_start_stop_allocation UE in
  rbStart' ← skip_used (range_fuel rbStart' rbStop) mask slbitmap rbStart' rbStop;
  max_rbSize ← count_free (range_fuel rbStart' rbStop) mask slbitmap rbStart' rbStop (fun n => n <? remain_s) 1;
  let UE := UE <| sched_pdsch; dmrs_prb := get_dl_dmrs_params UE tda (nrOfLayers (sched_pdsch UE)) |> in
  let UE := UE <| sched_pdsch; Qm := nr_get_Qm_dl (mcs (sched_pdsch UE)) (mcsTableIdx UE) |>
               <| sched_pdsch; code_rate := nr_get_code_rate_dl (mcs (sched_pdsch UE)) (mcsTableIdx UE) |> in
  let oh := 3 * 4 + 2 * b2z (frame =? Z.rem (ta_frame UE + 10) 1024) in
  bytes ← bytes_in_slice (Z.to_nat (num_slice_d (UE_ctrl UE))) sid (avail_slice_list (UE_ctrl UE));
  '(_, TBS, rbSize') ← nr_find_nb_rb (Qm (sched_pdsch UE)) (code_rate (sched_pdsch UE)) false (nrOfLayers (sched_pdsch UE))
     (nrOfSymbols tda) (dmrs_prb (sched_pdsch UE)) (u32 (bytes + oh)) min_rbSize (u16 max_rbSize);
  Done (UE <| sched_pdsch; rbSize := rbSize' |> <| sched_pdsch; rbStart := u16 rbStart' |> <| sched_pdsch; tb_size := TBS |>, slbitmap).

(** The body of the loop for a UE; [iterator++] and [continue] are a return. *)
Definition schedule_ue (frame sid : Z) (s : pf_t W) (i : nat) : outcome (pf_t W) :=
  UE ← rd (pf_UEs s) (Z.of_nat i);
  if available_dl_harq UE <? 0 then Done s
  else
  let '(CCEIndex, w) := get_cce_index (world (pf_alloc s)) UE in
  let s := s <| pf_alloc; world := w |> in
  if CCEIndex <? 0 then Done s
  else
  let '(alloc, w) := nr_acknack_scheduling (world (pf_alloc s)) UE CCEIndex in
  let s := s <| pf_alloc; world := w |> in
  if alloc <? 0 then Done s
  else
  let UE := UE <| cce_index := CCEIndex |> in
  let s := s <| pf_alloc; world := fill_pdcch_vrb_map (world (pf_alloc s)) UE CCEIndex |> in
  '(UE, slbitmap) ← new_rbs frame sid (n_rb_remain_s s) (rballoc_mask (pf_alloc s)) UE;
  let UE := UE <| sched_pdsch; pucch_allocation := u16 alloc |> in
  let n := rbSize (sched_pdsch UE) in
  mask ← xor_rbs (Z.to_nat n) (rballoc_mask (pf_alloc s)) slbitmap (rbStart (sched_pdsch UE));
  Done (s <| pf_alloc; n_rb_sched ::= fun x => x - n |> <| pf_alloc; rballoc_mask := mask |>
          <| pf_UEs ::= fun l => <[i := UE]> l |> <| n_rb_sched_s ::= Z.add n |> <| n_rb_remain_s ::= fun x => x - n |>
          <| remainUEs ::= fun x => x - 1 |>).

(** The loop over [UE_sched], up to the first entry without a UE. *)
Fixpoint pf_loop (frame sid max_rbs : Z) (s : pf_t W) (order : list nat) : outcome (pf_t W) :=
  match order with
  | [] => Done s
  | i :: order =>
      if (remainUEs s >? 0) && (n_rb_sched (pf_alloc s) >=? min_rbSize) && (n_rb_remain_s s >=? min_rbSize)
         && (n_rb_sched_s s <=? max_rbs)
      then s ← schedule_ue frame sid s i; pf_loop frame sid max_rbs s order
      else Done s
  end.

(** Returns the shared state, the UEs, the remaining number of UEs and the value of [min_prbs]. *)
Definition pf_dl_slice (frame : Z) (a : alloc_t W) (UEs : list NR_UE_info_t) (remain : Z) (SL : NR_slice_info_t) (max_prbs : Z)
    : outcome (alloc_t W * list NR_UE_info_t * Z * Z) :=
  let order := (pf_sort (UE_sched frame (sl_sid SL) remain UEs)).*1 in
  let UEs := adapt_eligible frame (sl_sid SL) remain UEs in
  s ← pf_loop frame (sl_sid SL) max_prbs (mk_pf a UEs remain 0 max_prbs) order;
  Done (pf_alloc s, pf_UEs s, remainUEs s, n_rb_sched_s s).
End Alloc.

(** ** The loops on the mask *)

Definition is_free (mask : list Z) (slbitmap i : Z) : Prop :=
  exists m, mask !! Z.to_nat i = Some m /\ Z.land m slbitmap = slbitmap.

Lemma rb_free_spec mask sl i : 0 <= i < Z.of_nat (length mask) ->
  exists b, rb_free mask sl i = Done b /\ (b = true <-> is_free mask sl i).
Proof.
  intros H. destruct (lookup_lt_is_Some_2 mask (Z.to_nat i)) as [m Hm]; [lia|]. unfold rb_free.
  rewrite (rd_done _ _ m) by (lia || done). eexists. split; [reflexivity|]. rewrite Z.eqb_eq. split.
  - intros E. by exists m.
  - intros (m' & Hm' & E). congruence.
Qed.

Lemma skip_used_ok mask sl rbStop : rbStop <= Z.of_nat (length mask) -> forall fuel start, 0 <= start ->
  rbStop - start <= Z.of_nat fuel ->
  exists r, skip_used fuel mask sl start rbStop = Done r /\ start <= r <= Z.max start rbStop /\
    (r < rbStop -> is_free mask sl r) /\ (forall k, start <= k < r -> ~ is_free mask sl k).
Proof.
  intros HL. induction fuel as [|fuel IH]; intros start Hs Hf; simpl.
  all: destruct (start <? rbStop) eqn:E; zbool; [|exists start; split; [done|]; split; [lia|]; split; intros; lia].
  - lia.
  - destruct (rb_free_spec mask sl start) as (b & -> & Hb); [lia|]. cbn [mbind outcome_bind]. destruct b.
    + exists start. split; [done|]. split; [lia|]. split; [intros _; by apply Hb|lia].
    + destruct (IH (start + 1)) as (r & -> & Hr & Hfree & Hused); [lia|lia|]. exists r. split; [done|]. split; [lia|].
      split; [done|]. intros k Hk. destruct (decide (k = start)) as [->|]; [|apply Hused; lia].
      intros Hf'. by apply Hb in Hf'.
Qed.

Lemma count_free_ok mask sl start rbStop more : 0 <= start -> rbStop < Z.of_nat (length mask) -> forall fuel n, 0 <= n ->
  rbStop - start - n + 1 <= Z.of_nat fuel ->
  exists r, count_free fuel mask sl start rbStop more n = Done r /\ n <= r <= Z.max n (rbStop - start + 1) /\
    (forall k, n <= k < r -> is_free mask sl (start + k) /\ more k = true) /\
    (r <= rbStop - start -> is_free mask sl (start + r) -> more r = false).
Proof.
  intros Hs HL. induction fuel as [|fuel IH]; intros n Hn Hf; simpl.
  all: destruct (start + n <=? rbStop) eqn:E; zbool; [|exists n; split; [done|]; split_and!; try lia; intros; lia].
  - lia.
  - destruct (rb_free_spec mask sl (start + n)) as (b & -> & Hb); [lia|]. cbn [mbind outcome_bind].
    destruct (b && more n) eqn:Eb.
    + apply andb_true_iff in Eb as [-> Em]. destruct (IH (n + 1)) as (r & -> & Hr & Hk & Hl); [lia|lia|].
      exists r. split; [done|]. split; [lia|]. split; [|done]. intros k Hk'.
      destruct (decide (k = n)) as [->|]; [split; [by apply Hb|done]|apply Hk; lia].
    + exists n. split; [done|]. split; [lia|]. split; [lia|]. intros _ Hfree. apply Hb in Hfree as ->. done.
Qed.

Lemma xor_rbs_ok sl : forall n mask start, 0 <= start -> start + Z.of_nat n <= Z.of_nat (length mask) ->
  exists mask', xor_rbs n mask sl start = Done mask' /\ length mask' = length mask /\
    forall i, mask' !! i = (if (Z.to_nat start <=? i)%nat && (i <? Z.to_nat start + n)%nat
                            then (fun m => Z.lxor m sl) <$> mask !! i else mask !! i).
Proof.
  induction n as [|n IH]; intros mask start Hs Hl; cbn [xor_rbs].
  - exists mask. split; [done|]. split; [done|]. intros i. cif; [|done]. apply andb_true_iff in E as [E1 E2].
    apply Nat.leb_le in E1. apply Nat.ltb_lt in E2. lia.
  - destruct (lookup_lt_is_Some_2 mask (Z.to_nat start)) as [m Hm]; [lia|].
    rewrite (rd_done _ _ m) by (lia || done). cbn [mbind outcome_bind]. rewrite wr_done by lia. cbn [mbind outcome_bind].
    destruct (IH (<[Z.to_nat start := Z.lxor m sl]> mask) (start + 1)) as (mask' & -> & L & H);
      [lia|rewrite length_insert; lia|]. exists mask'. split; [done|]. rewrite L, length_insert. split; [done|].
    intros i. rewrite H. replace (Z.to_nat (start + 1)) with (S (Z.to_nat start)) by lia.
    destruct (decide (i = Z.to_nat start)) as [->|Hi].
    + rewrite (proj2 (Nat.leb_gt (S (Z.to_nat start)) (Z.to_nat start))) by lia. cbn [andb].
      rewrite Nat.leb_refl, (proj2 (Nat.ltb_lt _ _)) by lia. cbn [andb].
      rewrite list_lookup_insert_eq by lia. by rewrite Hm.
    + rewrite list_lookup_insert_ne by done.
      replace (S (Z.to_nat start) <=? i)%nat with (Z.to_nat start <=? i)%nat; [by rewrite Nat.add_succ_comm|].
      destruct (Nat.leb_spec (Z.to_nat start) i), (Nat.leb_spec (S (Z.to_nat start)) i); lia || done.
Qed.

(** [n] free resource blocks from [start] on are taken: nothing else changes. *)
Definition rbs_taken (mask mask' : list Z) (slbitmap start n : Z) : Prop :=
  0 <= start /\ 0 <= n /\ start + n <= Z.of_nat (length mask) /\ length mask' = length mask /\
  forall i, 0 <= i ->
    if (start <=? i) && (i <? start + n)
    then is_free mask slbitmap i /\ exists m, mask' !! Z.to_nat i = Some m /\ Z.land m slbitmap = 0
    else mask' !! Z.to_nat i = mask !! Z.to_nat i.

(** The number of free resource blocks. *)
Definition free_count (mask : list Z) (slbitmap : Z) : Z :=
  Z.of_nat (length (filter (fun m => Z.land m slbitmap = slbitmap) mask)).

Lemma free_count_insert mask sl i m : free_count mask sl - 1 <= free_count (<[i := m]> mask) sl.
Proof.
  unfold free_count. destruct (decide (i < length mask)%nat) as [Hi|Hi]; [|by rewrite list_insert_ge by lia; lia].
  destruct (lookup_lt_is_Some_2 mask i Hi) as [m0 Hm0]. rewrite <- (take_drop_middle mask i m0 Hm0) at 1.
  rewrite insert_take_drop by done. rewrite !filter_app, !filter_cons, !length_app.
  repeat case_decide; simpl; lia.
Qed.

Lemma xor_rbs_count sl0 sl : forall n mask start mask', xor_rbs n mask sl start = Done mask' ->
  free_count mask sl0 - Z.of_nat n <= free_count mask' sl0.
Proof.
  induction n as [|n IH]; intros mask start mask' H; cbn [xor_rbs] in H; [injection H as <-; lia|].
  invd H. invd H. apply IH in H. match goal with E : wr _ _ _ = Done _ |- _ => revert E end. unfold wr.
  cif_head; [done|]. cif_head; [|done]. intros [= <-]. pose proof (free_count_insert mask sl0 (Z.to_nat start) (Z.lxor x sl)). lia.
Qed.

(** Where the first free resource block is, when there are [n] of them. *)
Lemma first_free_bound mask sl r : 0 <= r -> (forall k, 0 <= k < r -> ~ is_free mask sl k) ->
  r + free_count mask sl <= Z.max r (Z.of_nat (length mask)).
Proof.
  intros Hr Hu. unfold free_count. rewrite <- (take_drop (Z.to_nat r) mask) at 1. rewrite filter_app, length_app.
  assert (E : filter (fun m => Z.land m sl = sl) (take (Z.to_nat r) mask) = []).
  { destruct (filter _ _) as [|m l] eqn:Ef; [done|]. assert (Hin : m ∈ m :: l) by left. rewrite <- Ef in Hin.
    apply list_elem_of_filter in Hin as [Hm Hin]. apply list_elem_of_lookup in Hin as [i Hi].
    apply lookup_take_Some in Hi as [Hi Hlt]. destruct (Hu (Z.of_nat i)); [lia|]. exists m. by rewrite Nat2Z.id. }
  rewrite E. pose proof (length_filter (fun m => Z.land m sl = sl) (drop (Z.to_nat r) mask)) as Hf.
  rewrite length_drop in Hf. simpl. lia.
Qed.

Lemma xor_clears m sl : Z.land m sl = sl -> Z.land (Z.lxor m sl) sl = 0.
Proof.
  intros H. apply Z.bits_inj. intros k. rewrite Z.land_spec, Z.lxor_spec, Z.bits_0.
  apply (f_equal (fun z => Z.testbit z k)) in H. rewrite Z.land_spec in H.
  destruct (Z.testbit m k), (Z.testbit sl k); done.
Qed.

Lemma xor_rbs_taken mask sl start n : 0 <= start -> 0 <= n -> start + n <= Z.of_nat (length mask) ->
  (forall k, 0 <= k < n -> is_free mask sl (start + k)) ->
  exists mask', xor_rbs (Z.to_nat n) mask sl start = Done mask' /\ rbs_taken mask mask' sl start n.
Proof.
  intros Hs Hn Hl Hfree. destruct (xor_rbs_ok sl (Z.to_nat n) mask start) as (mask' & E & L & H); [lia|lia|].
  exists mask'. split; [done|]. do 4 (split; [done|]). intros i Hi. specialize (H (Z.to_nat i)).
  destruct ((start <=? i) && (i <? start + n)) eqn:Eb; zbool.
  - rewrite (proj2 (Nat.leb_le _ _)), (proj2 (Nat.ltb_lt _ _)) in H by lia. cbn [andb] in H.
    specialize (Hfree (i - start) ltac:(lia)). replace (start + (i - start)) with i in Hfree by lia.
    split; [done|]. destruct Hfree as (m & Hm & Ef). rewrite Hm in H. eexists. split; [exact H|]. by apply xor_clears.
  - rewrite H. destruct (Nat.leb_spec (Z.to_nat start) (Z.to_nat i)), (Nat.ltb_spec (Z.to_nat i) (Z.to_nat start + Z.to_nat n));
      try done. destruct Eb; zbool; lia.
Qed.

(** ** Retransmissions *)

(** The resource blocks a UE may use are entries of the mask. *)
Definition rbs_in `{SchedEnv W} (UE : NR_UE_info_t) (L : Z) : Prop :=
  let '(start, stop) := get_start_stop_allocation UE in 0 <= start /\ start <= stop + 1 /\ stop < L.

Lemma find_contiguous_ok mask sl need rbStop : 0 <= need -> rbStop < Z.of_nat (length mask) -> forall fuel start size,
  0 <= start -> 0 <= size -> start + size <= rbStop + 1 ->
  (forall k, 0 <= k < size -> is_free mask sl (start + k)) -> rbStop - (start + size) + 1 < Z.of_nat fuel ->
  exists r, find_contiguous fuel mask sl need start rbStop size = Done r /\
    forall st sz, r = Some (st, sz) ->
      0 <= st /\ st + need <= rbStop + 1 /\ (forall k, 0 <= k < need -> is_free mask sl (st + k)).
Proof.
  intros Hneed HL. induction fuel as [|fuel IH]; intros start size Hs Hz Hle Hfree Hfuel; [lia|].
  cbn [find_contiguous]. destruct (size <? need) eqn:E; zbool.
  2: { eexists. split; [reflexivity|]. intros st sz [= <- <-]. split; [done|]. split; [lia|]. intros k Hk. apply Hfree. lia. }
  destruct (skip_used_ok mask sl rbStop ltac:(lia) (range_fuel (start + size) rbStop) (start + size)) as (r & -> & Hr & Hrf & _);
    [lia|unfold range_fuel; lia|].
  cbn [mbind outcome_bind]. destruct (r >=? rbStop) eqn:Er; zbool; [eexists; split; [reflexivity|done]|].
  destruct (count_free_ok mask sl r rbStop (fun n => n <? need) ltac:(lia) HL (range_fuel r rbStop) 0) as (n & -> & Hn & Hk & Hm);
    [lia|unfold range_fuel; lia|].
  assert (Hn1 : 1 <= n).
  { destruct (decide (n = 0)) as [->|]; [|lia]. rewrite Z.add_0_r in Hm. specialize (Hm ltac:(lia) (Hrf ltac:(lia))). zbool. lia. }
  cbn [mbind outcome_bind]. apply IH; [lia|lia|lia| |lia]. intros k Hk'. apply Hk. lia.
Qed.

Section Retransmission.
Context {W : Type} `{Env : SchedEnv W}.

(** The blocks found for a retransmission. *)
Lemma retransmission_rbs_ok mask UE retInfo : rbs_in UE (Z.of_nat (length mask)) -> Z.of_nat (length mask) < 2 ^ 16 ->
  0 <= rbSize retInfo -> 0 <= get_dl_tda ->
  exists r, retransmission_rbs mask UE retInfo = Done r /\
    forall st p, r = Some (st, p) -> tb_size p = tb_size retInfo /\ 0 <= rbSize p /\ 0 <= st /\
      st + rbSize p <= Z.of_nat (length mask) /\
      forall k, 0 <= k < rbSize p ->
        is_free mask (SL_to_bitmap (startSymbolIndex (tda_info p)) (nrOfSymbols (tda_info p))) (st + k).
Proof.
  unfold rbs_in, retransmission_rbs. destruct (get_start_stop_allocation UE) as [start stop]. intros (Hs & Hle & HL) H16 Hsz Htda.
  cbv zeta.
  set (layers := if nrOfLayers (sched_pdsch UE) <? nrOfLayers retInfo then nrOfLayers (sched_pdsch UE) else nrOfLayers retInfo).
  destruct (negb (get_dl_tda >=? 0)) eqn:E0; zbool; [lia|].
  set (temp := get_dl_tda_info UE (searchSpaceType UE) get_dl_tda). destruct (negb (valid_tda temp)); [by eexists|].
  destruct (_ && (layers =? nrOfLayers retInfo)).
  - destruct (find_contiguous_ok mask (SL_to_bitmap (startSymbolIndex (tda_info retInfo)) (nrOfSymbols (tda_info retInfo)))
      (rbSize retInfo) stop Hsz HL (S (range_fuel start stop)) start 0) as (r & -> & Hr); try lia;
      [unfold range_fuel; lia|].
    eexists. split; [reflexivity|]. intros st p Ep. destruct r as [[st' sz]|]; [|done]. injection Ep as <- <-.
    destruct (Hr st' sz eq_refl) as (? & ? & ?). split_and!; try done. lia.
  - destruct (skip_used_ok mask (SL_to_bitmap (startSymbolIndex temp) (nrOfSymbols temp)) stop ltac:(lia) (range_fuel start stop) start)
      as (r & -> & Hr & _); [lia|unfold range_fuel; lia|]. cbn [mbind outcome_bind].
    destruct (count_free_ok mask (SL_to_bitmap (startSymbolIndex temp) (nrOfSymbols temp)) r stop (fun _ => true) ltac:(lia) HL
      (range_fuel r stop) 0) as (n & -> & Hn & Hk & _); [lia|unfold range_fuel; lia|]. cbn [mbind outcome_bind].
    assert (u16 n = n) as -> by (apply Z.mod_small; lia).
    destruct (nr_find_nb_rb_exact (Qm retInfo) (code_rate retInfo) layers (nrOfSymbols temp)
      (get_dl_dmrs_params UE temp layers) (tb_size retInfo) n ltac:(lia)) as (ok & tbs & m & -> & Hm & Hex).
    cbn [mbind outcome_bind]. destruct (negb ok || negb (tbs =? tb_size retInfo)) eqn:Eok; [by eexists|].
    zbool. eexists. split; [reflexivity|]. intros st p [= <- <-]. cbn [tb_size rbSize tda_info upd].
    specialize (Hex ltac:(done)). split_and!; simpl; try lia. intros k Hk'. apply Hk. lia.
Qed.

(** A UE changes in its HARQ process and its transmission only. *)
Definition same_radio (UE UE' : NR_UE_info_t) : Prop :=
  UE_ctrl UE' = UE_ctrl UE /\ get_start_stop_allocation UE' = get_start_stop_allocation UE /\
  Msg4_ACKed UE' = Msg4_ACKed UE /\ length (harq_pdsch UE') = length (harq_pdsch UE) /\
  retrans_dl_harq UE' = retrans_dl_harq UE /\
  (Forall (fun p => 0 <= rbSize p) (harq_pdsch UE) -> Forall (fun p => 0 <= rbSize p) (harq_pdsch UE')).

Lemma allocate_dl_retransmission_ok (s : alloc_t W) (UE : NR_UE_info_t) (pid : Z) (retInfo : NR_sched_pdsch_t) :
  0 <= pid -> harq_pdsch UE !! Z.to_nat pid = Some retInfo -> 0 <= rbSize retInfo ->
  rbs_in UE (Z.of_nat (length (rballoc_mask s))) -> Z.of_nat (length (rballoc_mask s)) < 2 ^ 16 -> 0 <= get_dl_tda ->
  exists ok s' UE', allocate_dl_retransmission s UE pid = Done (ok, s', UE') /\ same_radio UE UE' /\
    if ok : bool then
      let p := sched_pdsch UE' in
      tb_size p = tb_size retInfo /\ n_rb_sched s' = n_rb_sched s - rbSize p /\
      rbs_taken (rballoc_mask s) (rballoc_mask s')
        (SL_to_bitmap (startSymbolIndex (tda_info p)) (nrOfSymbols (tda_info p))) (rbStart p) (rbSize p) /\
      forall sl0, free_count (rballoc_mask s) sl0 - rbSize p <= free_count (rballoc_mask s') sl0
    else rballoc_mask s' = rballoc_mask s /\ n_rb_sched s' = n_rb_sched s.
Proof.
  intros Hpid Hret Hsz Hin H16 Htda. unfold allocate_dl_retransmission. rewrite (rd_done _ _ retInfo) by done.
  cbn [mbind outcome_bind].
  destruct (retransmission_rbs_ok (rballoc_mask s) UE retInfo Hin H16 Hsz Htda) as (r & -> & Hr). cbn [mbind outcome_bind].
  destruct r as [[st p]|]; [|by do 3 eexists; split_and!]. destruct (Hr st p eq_refl) as (Ht & Hp & Hst & Hle & Hfree).
  rewrite wr_done by (apply lookup_lt_Some in Hret; lia). cbn [mbind outcome_bind].
  set (UE1 := UE <| harq_pdsch := _ |>). assert (HR : same_radio UE UE1).
  { split_and!; try done; [apply length_insert|]. intros F. by apply Forall_insert. }
  destruct (get_cce_index (world s) UE1) as [cce w1].
  destruct (cce <? 0); [by do 3 eexists; split_and!|]. destruct (nr_acknack_scheduling _ UE1 cce) as [alloc w2].
  destruct (alloc <? 0); [by do 3 eexists; split_and!|].
  destruct (xor_rbs_taken (rballoc_mask s) (SL_to_bitmap (startSymbolIndex (tda_info p)) (nrOfSymbols (tda_info p))) st (rbSize p)
    Hst Hp Hle Hfree) as (mask' & Ex & HT).
  assert (Hu : u16 st = st) by (apply Z.mod_small; lia). rewrite <- Hu in Ex, HT. cbv zeta.
  cbn [rbSize rbStart sched_pdsch upd rballoc_mask]. rewrite Ex. cbn [mbind outcome_bind].
  do 3 eexists. split; [reflexivity|]. split; [exact HR|]. split_and!; [exact Ht|done|exact HT|].
  intros sl0. apply (xor_rbs_count sl0) in Ex. rewrite Z2Nat.id in Ex by done. exact Ex.
Qed.

(** C35. Retransmissions.  The allocation of a retransmission returns; when it succeeds the
    transport block has the size of the first transmission, its resource blocks were all
    free, are no longer, and nothing else of the mask changes; when it fails the mask is unchanged. *)
Theorem retransmission_takes_free_rbs (s : alloc_t W) (UE : NR_UE_info_t) (pid : Z) (retInfo : NR_sched_pdsch_t) :
  0 <= pid -> harq_pdsch UE !! Z.to_nat pid = Some retInfo -> 0 <= rbSize retInfo ->
  rbs_in UE (Z.of_nat (length (rballoc_mask s))) -> Z.of_nat (length (rballoc_mask s)) < 2 ^ 16 -> 0 <= get_dl_tda ->
  exists ok s' UE', allocate_dl_retransmission s UE pid = Done (ok, s', UE') /\
    if ok : bool then
      let p := sched_pdsch UE' in
      tb_size p = tb_size retInfo /\ n_rb_sched s' = n_rb_sched s - rbSize p /\
      rbs_taken (rballoc_mask s) (rballoc_mask s')
        (SL_to_bitmap (startSymbolIndex (tda_info p)) (nrOfSymbols (tda_info p))) (rbStart p) (rbSize p)
    else rballoc_mask s' = rballoc_mask s /\ n_rb_sched s' = n_rb_sched s.
Proof.
  intros Hpid Hret Hsz Hin H16 Htda.
  destruct (allocate_dl_retransmission_ok s UE pid retInfo Hpid Hret Hsz Hin H16 Htda) as (ok & s' & UE' & E & _ & H).
  exists ok, s', UE'. split; [done|]. destruct ok; [|done]. by destruct H as (? & ? & ? & _).
Qed.
End Retransmission.

(** ** New transmissions *)

(** What the scheduler relies on: [qsort] permutes, a time domain allocation is configured, and it has the same
    symbols, those of [slb], for all UEs (the preprocessor assumes that all UEs have the same TDA). *)
Class SchedEnvLaws (W : Type) `{SchedEnv W} (slb : Z) : Prop := {
  pf_sort_perm : forall l, pf_sort l ≡ₚ l;
  tda_configured : 0 <= get_dl_tda;
  tda_always_valid : forall UE ss, valid_tda (get_dl_tda_info UE ss get_dl_tda) = true;
  tda_symbols : forall UE ss, let tda := get_dl_tda_info UE ss get_dl_tda in
    SL_to_bitmap (startSymbolIndex tda) (nrOfSymbols tda) = slb
}.

(** A UE with its slices, which may use all of a mask of [L] resource blocks (all UEs have the same BWP). *)
Definition ue_ready `{SchedEnv W} (L : Z) (UE : NR_UE_info_t) : Prop :=
  get_start_stop_allocation UE = (0, L - 1) /\
  (Z.to_nat (num_slice_d (UE_ctrl UE)) <= length (avail_slice_list (UE_ctrl UE)))%nat.

Lemma bytes_in_slice_ok sid : forall num avail, (num <= length avail)%nat -> exists b, bytes_in_slice num sid avail = Done b.
Proof.
  induction num as [|num IH]; intros avail H; [by eexists|]. destruct avail as [|a avail]; simpl in *; [lia|].
  cif; [by eexists|]. apply IH. lia.
Qed.

Section PfSlice.
Context {W : Type} `{Env : SchedEnv W} {slb : Z} {Laws : SchedEnvLaws W slb}.
Variables (frame sid : Z).

Lemma new_rbs_ok mask UE remain : ue_ready (Z.of_nat (length mask)) UE -> Z.of_nat (length mask) < 2 ^ 16 ->
  min_rbSize <= remain -> min_rbSize <= free_count mask slb ->
  exists UE' sl, new_rbs frame sid remain mask UE = Done (UE', sl) /\ ue_ready (Z.of_nat (length mask)) UE' /\
    0 <= rbSize (sched_pdsch UE') <= remain /\ 0 <= rbStart (sched_pdsch UE') /\
    rbStart (sched_pdsch UE') + rbSize (sched_pdsch UE') <= Z.of_nat (length mask).
Proof.
  intros [Ess Ha] H16 Hrem Hfc. unfold new_rbs. set (tda := get_dl_tda_info _ _ _).
  pose proof tda_configured. destruct (negb (get_dl_tda >=? 0)) eqn:E0; zbool; [lia|].
  replace (valid_tda tda) with true by (symmetry; apply tda_always_valid). cbn [negb]. cbv zeta.
  set (UE1 := UE <| sched_pdsch; time_domain_allocation := _ |> <| sched_pdsch; tda_info := _ |>).
  change (get_start_stop_allocation UE1) with (get_start_stop_allocation UE). rewrite Ess.
  replace (SL_to_bitmap (startSymbolIndex tda) (nrOfSymbols tda)) with slb by (symmetry; apply tda_symbols).
  unfold min_rbSize in *. set (L := Z.of_nat (length mask)) in *.
  destruct (skip_used_ok mask slb (L - 1) ltac:(lia) (range_fuel 0 (L - 1)) 0) as (r & -> & Hr & _ & Hused);
    [lia|unfold range_fuel; lia|]. cbn [mbind outcome_bind].
  pose proof (first_free_bound mask slb r ltac:(lia) Hused) as Hfirst. fold L in Hfirst.
  destruct (count_free_ok mask slb r (L - 1) (fun n => n <? remain) ltac:(lia) ltac:(lia) (range_fuel r (L - 1)) 1)
    as (n & -> & Hn & Hk & _); [lia|unfold range_fuel; lia|]. cbn [mbind outcome_bind].
  assert (Hnr : n <= remain).
  { destruct (decide (n = 1)) as [->|]; [lia|]. destruct (Hk (n - 1) ltac:(lia)) as [_ Hm]. zbool. lia. }
  destruct (bytes_in_slice_ok sid (Z.to_nat (num_slice_d (UE_ctrl UE))) (avail_slice_list (UE_ctrl UE)) Ha) as (bytes & Eb).
  match goal with |- context [bytes_in_slice (Z.to_nat (num_slice_d (UE_ctrl ?x)))] =>
    assert (EC : UE_ctrl x = UE_ctrl UE) by reflexivity;
    assert (ES : get_start_stop_allocation x = (0, L - 1)) by exact Ess; set (UE3 := x) in *; clearbody UE3 end.
  rewrite EC, Eb. cbn [mbind outcome_bind].
  assert (u16 n = n) as -> by (apply Z.mod_small; lia). unfold nr_find_nb_rb.
  match goal with |- context [find_nb_rb ?f false ?b 5 n] =>
    destruct (find_nb_rb_max f b 5 n ltac:(lia) ltac:(lia)) as (ok & t & m & -> & Hm) end. cbn [mbind outcome_bind].
  assert (Hu : u16 r = r) by (apply Z.mod_small; lia). do 2 eexists. split; [reflexivity|].
  destruct UE3 as [? ? ? ? ? ? ? [] ? ? ? ? ? ? ? ? ? ?]. cbn [rbSize rbStart sched_pdsch upd UE_ctrl] in *. rewrite Hu.
  split; [|lia]. split; cbn [UE_ctrl]; [exact ES|by rewrite EC].
Qed.

(** The invariant of the loop of a slice that may use [max_rbs] resource blocks. *)
Record pf_inv (L : nat) (UEs : list NR_UE_info_t) (max_rbs free : Z) (s : pf_t W) : Prop := {
  pi_mask : length (rballoc_mask (pf_alloc s)) = L;
  pi_ready : Forall (ue_ready (Z.of_nat L)) (pf_UEs s);
  pi_len : length (pf_UEs s) = length UEs;
  pi_used : 0 <= n_rb_sched_s s <= Z.max 0 max_rbs;
  pi_remain : n_rb_remain_s s = max_rbs - n_rb_sched_s s;
  pi_free : n_rb_sched (pf_alloc s) = free - n_rb_sched_s s;
  pi_count : n_rb_sched (pf_alloc s) <= free_count (rballoc_mask (pf_alloc s)) slb
}.

Lemma schedule_ue_ok L UEs max_rbs free s i : Z.of_nat L < 2 ^ 16 -> pf_inv L UEs max_rbs free s -> (i < length UEs)%nat ->
  min_rbSize <= n_rb_remain_s s -> min_rbSize <= n_rb_sched (pf_alloc s) ->
  exists s', schedule_ue frame sid s i = Done s' /\ pf_inv L UEs max_rbs free s' /\
    remainUEs s - 1 <= remainUEs s' <= remainUEs s /\ (forall j, j <> i -> pf_UEs s' !! j = pf_UEs s !! j).
Proof.
  intros H16 I Hi Hrem Hsch. destruct I as [Im Ir Il Iu Ie If Ic]. unfold schedule_ue.
  destruct (lookup_lt_is_Some_2 (pf_UEs s) i) as [UE HUE]; [lia|].
  rewrite (rd_done _ _ UE); [|lia|by rewrite Nat2Z.id]. cbn [mbind outcome_bind].
  cif; [exists s; split_and!; done || lia|].
  destruct (get_cce_index (world (pf_alloc s)) UE) as [cce w1].
  cif; [eexists; split; [reflexivity|]; split; [by split|]; split; [simpl; lia|done]|].
  destruct (nr_acknack_scheduling _ UE cce) as [alloc w2].
  cif; [eexists; split; [reflexivity|]; split; [by split|]; split; [simpl; lia|done]|].
  pose proof (proj1 (Forall_lookup _ _) Ir i UE HUE) as Hready.
  set (UE1 := UE <| cce_index := cce |>). rewrite <- Im in Hready.
  destruct (new_rbs_ok (rballoc_mask (pf_alloc s)) UE1 (n_rb_remain_s s) Hready ltac:(lia) Hrem ltac:(lia))
    as (UE2 & sl & Enew & Hready2 & Hsz & Hst & Hle).
  cbv zeta. cbn [pf_alloc n_rb_remain_s rballoc_mask upd]. rewrite Enew. cbn [mbind outcome_bind]. cbn [sched_pdsch upd rbSize rbStart].
  destruct (xor_rbs_ok sl (Z.to_nat (rbSize (sched_pdsch UE2))) (rballoc_mask (pf_alloc s)) (rbStart (sched_pdsch UE2)))
    as (mask' & Ex & Hl & _); [lia|lia|]. rewrite Ex. apply (xor_rbs_count slb) in Ex. cbn [mbind outcome_bind]. eexists. split; [reflexivity|]. split.
  - split; cbn [pf_alloc rballoc_mask pf_UEs n_rb_sched_s n_rb_remain_s n_rb_sched upd]; try lia.
    + apply Forall_insert; [done|]. rewrite <- Im. exact Hready2.
    + by rewrite length_insert.
  - split; [simpl; lia|]. intros j Hj. cbn [pf_UEs upd]. by apply list_lookup_insert_ne.
Qed.

Lemma pf_loop_ok L UEs max_rbs free : Z.of_nat L < 2 ^ 16 -> forall order s, pf_inv L UEs max_rbs free s ->
  Forall (fun i => (i < length UEs)%nat) order ->
  exists s', pf_loop frame sid max_rbs s order = Done s' /\ pf_inv L UEs max_rbs free s' /\
    Z.min 0 (remainUEs s) <= remainUEs s' <= remainUEs s /\ (forall j, j ∉ order -> pf_UEs s' !! j = pf_UEs s !! j).
Proof.
  intros H16. induction order as [|i order IH]; intros s I F; cbn [pf_loop]; [exists s; split_and!; done || lia|].
  inversion_clear F as [|? ? Hi F']. cif; zbool; [|exists s; split_and!; done || lia].
  destruct (schedule_ue_ok L UEs max_rbs free s i H16 I Hi ltac:(lia) ltac:(lia)) as (s1 & -> & I1 & Hr1 & Hj1).
  cbn [mbind outcome_bind]. destruct (IH s1 I1 F') as (s2 & -> & I2 & Hr2 & Hj2). exists s2. split; [done|]. split; [done|].
  split; [lia|]. intros j Hj. apply not_elem_of_cons in Hj as [Hne Hj]. by rewrite Hj2, Hj1.
Qed.

Lemma order_eligible remain UEs i : i ∈ (pf_sort (UE_sched frame sid remain UEs)).*1 ->
  exists UE, UEs !! i = Some UE /\ eligible frame sid remain UE = true.
Proof.
  rewrite pf_sort_perm. unfold UE_sched. rewrite <- list_fmap_compose. intros H.
  apply list_elem_of_fmap in H as ([i' UE] & -> & H). apply list_elem_of_filter in H as [He H].
  apply elem_of_lookup_imap in H as (k & UE' & [= -> ->] & Hk). exists UE'. split; [done|].
  by apply Is_true_true.
Qed.

Lemma adapt_ready remain L UEs : Forall (ue_ready L) UEs -> Forall (ue_ready L) (adapt_eligible frame sid remain UEs).
Proof.
  intros F. apply Forall_fmap. eapply Forall_impl; [exact F|]. intros UE H. unfold compose. by cif.
Qed.
End PfSlice.

(** The new transmissions of a slice. *)
Lemma pf_dl_slice_ok `{Env : SchedEnv W} {slb : Z} {Laws : SchedEnvLaws W slb} frame (a : alloc_t W) UEs remain SL max_prbs :
  Z.of_nat (length (rballoc_mask a)) < 2 ^ 16 -> Forall (ue_ready (Z.of_nat (length (rballoc_mask a)))) UEs ->
  n_rb_sched a <= free_count (rballoc_mask a) slb ->
  exists a' UEs' remain' used,
    pf_dl_slice frame a UEs remain SL max_prbs = Done (a', UEs', remain', used) /\
    0 <= used <= Z.max 0 max_prbs /\ n_rb_sched a' = n_rb_sched a - used /\
    n_rb_sched a' <= free_count (rballoc_mask a') slb /\ length (rballoc_mask a') = length (rballoc_mask a) /\
    Forall (ue_ready (Z.of_nat (length (rballoc_mask a)))) UEs' /\ length UEs' = length UEs /\
    Z.min 0 remain <= remain' <= remain /\
    (forall j UE, UEs !! j = Some UE -> eligible frame (sl_sid SL) remain UE = false -> UEs' !! j = Some UE).
Proof.
  intros H16 F Hc. unfold pf_dl_slice. set (UEs1 := adapt_eligible frame (sl_sid SL) remain UEs).
  assert (L1 : length UEs1 = length UEs) by apply length_fmap.
  destruct (pf_loop_ok frame (sl_sid SL) (length (rballoc_mask a)) UEs1 max_prbs (n_rb_sched a) H16
    (pf_sort (UE_sched frame (sl_sid SL) remain UEs)).*1 (mk_pf a UEs1 remain 0 max_prbs)) as (s & -> & I & Hr & Hj).
  { split; simpl; try lia. by apply adapt_ready. }
  { apply Forall_forall. intros i Hi. apply order_eligible in Hi as (UE & HUE & _). apply lookup_lt_Some in HUE. lia. }
  destruct I as [Im Ir Il Iu Ie If Ic]. cbn [mbind outcome_bind]. do 4 eexists. split; [reflexivity|].
  split; [lia|]. split; [lia|]. split; [done|]. split; [done|]. split; [done|]. split; [lia|]. split; [exact Hr|]. intros j UE HUE Hel.
  rewrite Hj.
  - cbn [pf_UEs]. unfold UEs1, adapt_eligible. rewrite list_lookup_fmap, HUE. simpl. by rewrite Hel.
  - intros Hin. apply order_eligible in Hin as (UE' & HUE' & He). congruence.
Qed.
