(* ===== verification/SliceBudget.v ===== *)
(** The sharing of the resource blocks of a slot between the slices: [slice_prb_estimate],
    [dl_sched_unit] and [nr_fr1_dlsch_preprocessor] of
    openair2/LAYER2/NR_MAC_gNB/gNB_scheduler_dlsch.c. *)

From S2P Require Import Prelude Tbs SlicePolicy SliceSched SliceAlloc.

(** ** Data *)

Record SLsched_t := mk_SLsched {
  prb_est : Z;
  dedi_prbs : Z;
  min_prbs : Z;
  max_prbs : Z;
  sl_SL : NR_slice_info_t
}.
#[export] Instance eta_SLsched : Eta SLsched_t := fun r =>
  mk_SLsched (prb_est r) (dedi_prbs r) (min_prbs r) (max_prbs r) (sl_SL r).

Definition e_sid (e : SLsched_t) : Z := sl_sid (sl_SL e).

Definition MAX_DCI_CORESET : Z := 8.
Definition NR_NB_REG_PER_CCE : Z := 6.

Section Budget.
Context {W : Type} `{Env : SchedEnv W}.

(** ** Estimation of the need of each slice *)

(** The loop without [break]: the last entry with this id. *)
Fixpoint last_bytes_in_slice (num : nat) (sid : Z) (avail : list nr_macrlc_slice_info_t) (bytes : Z) : outcome Z :=
  match num with
  | O => Done bytes
  | S num => match avail with
             | [] => Undef
             | a :: avail => last_bytes_in_slice num sid avail (if ms_sid a =? sid then ms_bytes a else bytes)
             end
  end.

(** The body of the loop over the UEs of a slice: what it adds to [n_rb_sched_s]. *)
Definition ue_prb_estimate (sid n : Z) (UE : NR_UE_info_t) : outcome Z :=
  if negb (Msg4_ACKed UE) || ul_failure (UE_ctrl UE) then Done n
  else if negb (slice_for_this_sched (UE_ctrl UE) =? sid) then Done n
  else
  bytes ← last_bytes_in_slice (Z.to_nat (num_slice_d (UE_ctrl UE))) sid (avail_slice_list (UE_ctrl UE)) 0;
  if bytes =? 0 then Done n
  else
  let bwpSize := if controlResourceSetId UE =? 0 then cset0_bwp_size else BWPSize UE in
  let mcs := if (bler_last_frame UE =? 0) && (bler_mcs UE =? 0) then 9 else bler_mcs UE in
  let layers := get_dl_nrOfLayers UE in
  if negb (get_dl_tda >=? 0) then Exit
  else
  let tda := get_dl_tda_info UE searchSpaceType_PR_ue_Specific get_dl_tda in
  let oh := 3 * 4 in
  '(_, _, rbSize) ← nr_find_nb_rb (nr_get_Qm_dl mcs (mcsTableIdx UE)) (nr_get_code_rate_dl mcs (mcsTableIdx UE)) false layers
     (nrOfSymbols tda) (get_dl_dmrs_params UE tda layers) (u32 (bytes + oh)) min_rbSize (u16 bwpSize);
  Done (n + rbSize).

Fixpoint slice_prb_estimate (SL_list : NR_Slices_t) (UEs : list NR_UE_info_t) (SL_sched : list SLsched_t)
    : outcome (list SLsched_t) :=
  match SL_list with
  | [] => Done SL_sched
  | SL :: SL_list =>
      match SL_sched with
      | [] => Undef
      | e :: SL_sched =>
          n ← loop (ue_prb_estimate (sl_sid SL)) 0 UEs;
          rest ← slice_prb_estimate SL_list UEs SL_sched;
          Done (e <| prb_est := n |> <| sl_SL := SL |> :: rest)
      end
  end.

(** ** First stage: retransmissions *)

Definition retransmit_ue (s : alloc_t W) (remain : Z) (UE : NR_UE_info_t) : outcome (alloc_t W * Z * NR_UE_info_t) :=
  if negb (Msg4_ACKed UE) then Done (s, remain, UE)
  else if ul_failure (UE_ctrl UE) then Done (s, remain, UE)
  else
  let UE := UE <| alreadySched := false |> <| sched_pdsch; dl_harq_pid := retrans_dl_harq UE |> in
  if remain =? 0 then Done (s, remain, UE)
  else if retrans_dl_harq UE >=? 0 then
    '(r, s, UE) ← allocate_dl_retransmission s UE (retrans_dl_harq UE);
    let UE := UE <| alreadySched := true |> in
    if r : bool then Done (s, remain - 1, UE) else Done (s, remain, UE)
  else Done (s, remain, UE).

Fixpoint retransmit_loop (s : alloc_t W) (remain : Z) (UEs : list NR_UE_info_t) : outcome (alloc_t W * Z * list NR_UE_info_t) :=
  match UEs with
  | [] => Done (s, remain, [])
  | UE :: UEs =>
      '(s, remain, UE) ← retransmit_ue s remain UE;
      '(s, remain, UEs) ← retransmit_loop s remain UEs;
      Done (s, remain, UE :: UEs)
  end.

(** ** Second stage: the slices *)

(** [(n * ratio) / 100] *)
Definition share (n ratio : Z) : Z := Z.quot (n * ratio) 100.

Definition init_entry (n_rb_sched_init : Z) (e : SLsched_t) : SLsched_t :=
  e <| dedi_prbs := share n_rb_sched_init (dedicated_ratio (spolicy (sl_SL e))) |>
    <| min_prbs := share n_rb_sched_init (min_ratio (spolicy (sl_SL e))) |>
    <| max_prbs := n_rb_sched_init |>.

(** The loop that starts at 1: the first entry keeps what it holds. *)
Definition init_prbs (n_rb_sched_init : Z) (SL_sched : list SLsched_t) : list SLsched_t :=
  match SL_sched with
  | [] => []
  | e0 :: rest =>
      e0 :: (init_entry n_rb_sched_init <$> rest)
  end.

(** [max_prbs] of a slice, less the [min_prbs] of the others and at most its maximum ratio. *)
Definition offered (n_rb_sched_init : Z) (SL_sched : list SLsched_t) (e : SLsched_t) : Z :=
  let m := foldl (fun m e' => if negb (e_sid e' =? e_sid e) then m - min_prbs e' else m) (max_prbs e) SL_sched in
  let cap := share n_rb_sched_init (max_ratio (spolicy (sl_SL e))) in
  if m >? cap then cap else m.

(** What the loop over the slices changes. *)
Record unit_t := mk_unit {
  u_alloc : alloc_t W;
  u_UEs : list NR_UE_info_t;
  u_remain : Z;
  u_sched : list SLsched_t;
  u_tot : Z
}.

Definition schedule_slice (frame n_rb_sched_init : Z) (u : unit_t) (i : nat) : outcome unit_t :=
  e ← rd (u_sched u) (Z.of_nat i);
  let e := e <| max_prbs := offered n_rb_sched_init (u_sched u) e |> in
  '(a, UEs, remain, used) ← pf_dl_slice frame (u_alloc u) (u_UEs u) (u_remain u) (sl_SL e) (max_prbs e);
  let e := e <| min_prbs := used |> in
  let tot := u_tot u + used in
  if tot >? n_rb_sched_init then Exit
  else Done (mk_unit a UEs remain (<[i := e]> (u_sched u)) tot).

Definition dl_sched_unit (frame : Z) (a : alloc_t W) (UEs : list NR_UE_info_t) (max_num_ue : Z) (dl_num_slice : nat)
    (SL_sched : list SLsched_t) : outcome unit_t :=
  '(a, remain, UEs) ← retransmit_loop a max_num_ue UEs;
  let n_rb_sched_init := n_rb_sched a in
  loop (schedule_slice frame n_rb_sched_init) (mk_unit a UEs remain (init_prbs n_rb_sched_init SL_sched) 0) (seq 0 dl_num_slice).

(** ** The preprocessor *)

(** The mask: the symbols of the resource blocks of the BWP that nothing else uses, and the number of free ones. *)
Definition init_mask (vrb_map : list Z) (slbitmap BWPStart bwpSize : Z) : outcome (list Z * Z) :=
  blocked ← slice vrb_map BWPStart bwpSize;
  let mask := (fun v => Z.land (Z.lnot v) 0x3fff) <$> blocked in
  Done (mask, Z.of_nat (length (filter (fun m => Z.land m slbitmap = slbitmap) mask))).

(** [symbols]: the start and the number of symbols of the time domain allocation of the first UE;
    [BWPStart] is that of the first UE.  [SL_sched] is the uninitialised array, [qsort] the sort by [prb_est]. *)
Definition nr_fr1_dlsch_preprocessor (qsort : list SLsched_t -> list SLsched_t) (rlc : Z -> Z -> mac_rlc_status_resp_t)
    (SL_list : NR_Slices_t) (frame slot : Z) (w : W) (vrb_map : list Z) (symbols : Z * Z) (BWPStart bw : Z)
    (UEs : list NR_UE_info_t) (SL_sched : list SLsched_t) : outcome (option unit_t) :=
  match UEs with
  | [] => Done None
  | UE0 :: _ =>
      let slbitmap := SL_to_bitmap symbols.1 symbols.2 in
      '(mask, n) ← init_mask vrb_map slbitmap BWPStart (BWPSize UE0);
      ctrls ← prepare_slices SL_list rlc slot (UE_ctrl <$> UEs);
      let UEs := zip_with (fun UE c => UE <| UE_ctrl := c |>) UEs ctrls in
      let max_sched_ues := Z.min (Z.quot bw (4 * NR_NB_REG_PER_CCE)) MAX_DCI_CORESET in
      SL_sched ← slice_prb_estimate SL_list UEs SL_sched;
      u ← dl_sched_unit frame (mk_alloc w mask n) UEs max_sched_ues (length SL_list) (qsort SL_sched);
      Done (Some u)
  end.
End Budget.

(** ** Shares *)

Definition sum_min (l : list SLsched_t) : Z := foldr (fun e n => min_prbs e + n) 0 l.
Definition ratio_ok (r : Z) : Prop := 0 <= r <= 100.

Lemma share_bounds N r : 0 <= N -> ratio_ok r -> 0 <= share N r <= N.
Proof.
  intros HN Hr. unfold ratio_ok in Hr. unfold share. rewrite Z.quot_div_nonneg by nia. split.
  - apply Z.div_pos; nia.
  - apply Z.div_le_upper_bound; nia.
Qed.

Lemma share_nonpos N r : N < 0 -> ratio_ok r -> share N r <= 0.
Proof.
  intros HN Hr. unfold ratio_ok in Hr. unfold share. pose proof (Z.quot_opp_l (N * r) 100 ltac:(lia)).
  pose proof (Z.quot_pos (- (N * r)) 100 ltac:(nia) ltac:(lia)). lia.
Qed.

Lemma sum_min_app l1 l2 : sum_min (l1 ++ l2) = sum_min l1 + sum_min l2.
Proof. unfold sum_min. induction l1 as [|e l1 IH]; simpl; [lia|]. rewrite IH. lia. Qed.

Lemma sum_min_nonneg l : Forall (fun e => 0 <= min_prbs e) l -> 0 <= sum_min l.
Proof. induction 1 as [|e l He _ IH]; simpl; lia. Qed.

(** The resource blocks that the minimum ratios of these slices reserve. *)
Definition reserved (N : Z) (l : list SLsched_t) : Z :=
  foldr (fun e n => share N (min_ratio (spolicy (sl_SL e))) + n) 0 l.

Definition min_ratio_ok (e : SLsched_t) : Prop := ratio_ok (min_ratio (spolicy (sl_SL e))).
Definition max_ratio_ok (e : SLsched_t) : Prop := ratio_ok (max_ratio (spolicy (sl_SL e))).

Lemma reserved_nonneg N l : 0 <= N -> Forall min_ratio_ok l -> 0 <= reserved N l.
Proof. intros HN. induction 1 as [|e l He _ IH]; simpl; [done|]. pose proof (share_bounds N _ HN He). lia. Qed.

(** The shares of ratios that add up to at most 100 add up to at most all the resource blocks. *)
Lemma reserved_ratios N l : 0 <= N -> Forall min_ratio_ok l -> reserved N l * 100 <= N * sum_of min_ratio (sl_SL <$> l).
Proof.
  intros HN. induction 1 as [|e l Hr _ IH]; [simpl; unfold sum_of; simpl; lia|]. rewrite fmap_cons, sum_of_cons.
  cbn [reserved foldr]. fold (reserved N l). unfold min_ratio_ok, ratio_ok in Hr. unfold share. rewrite Z.quot_div_nonneg by nia.
  pose proof (Z.mul_div_le (N * min_ratio (spolicy (sl_SL e))) 100 ltac:(lia)). lia.
Qed.

(** What is offered to a slice, its own entry being in the list once. *)
Lemma offered_eq N l1 e l2 : NoDup (e_sid <$> l1 ++ e :: l2) ->
  offered N (l1 ++ e :: l2) e =
  Z.min (share N (max_ratio (spolicy (sl_SL e)))) (max_prbs e - sum_min l1 - sum_min l2).
Proof.
  intros ND. unfold offered. cbv zeta.
  assert (H : forall l m, (forall e', e' ∈ l -> e_sid e' <> e_sid e) ->
    foldl (fun m e' => if negb (e_sid e' =? e_sid e) then m - min_prbs e' else m) m l = m - sum_min l).
  { induction l as [|e' l IH]; intros m Hl; simpl; [lia|]. rewrite IH by (intros; apply Hl; by right).
    assert (Hne : e_sid e' <> e_sid e) by (apply Hl; left). apply Z.eqb_neq in Hne. rewrite Hne. simpl. lia. }
  rewrite fmap_app, fmap_cons in ND. apply NoDup_app in ND as (_ & H12 & ND2). inversion_clear ND2 as [|? ? H2 _].
  rewrite foldl_app, (H l1).
  2: { intros e' He' Eq. apply (H12 (e_sid e')); [apply list_elem_of_fmap; by exists e'|]. rewrite Eq. left. }
  cbn [foldl]. rewrite Z.eqb_refl. cbn [negb]. rewrite (H l2).
  2: { intros e' He' Eq. apply H2. rewrite <- Eq. apply list_elem_of_fmap; by exists e'. }
  set (m := _ - _ - _). destruct (m >? share N _) eqn:E; zbool; lia.
Qed.

(** ** The loop over the slices *)

(** What a slice was offered and has used.  [G]: the minimum ratios are guaranteed. *)
Definition slice_result (N : Z) (G : Prop) (e e' : SLsched_t) : Prop :=
  sl_SL e' = sl_SL e /\ 0 <= min_prbs e' <= Z.max 0 (max_prbs e') /\
  max_prbs e' <= share N (max_ratio (spolicy (sl_SL e))) /\
  (G -> Z.min (share N (min_ratio (spolicy (sl_SL e)))) (share N (max_ratio (spolicy (sl_SL e)))) <= max_prbs e').

(** What the slices behind the first are offered and use, [used] being what those before them have used: all
    that is left, less the reservations of the slices behind, and at most the maximum ratio. *)
Fixpoint offers (N used : Z) (l l' : list SLsched_t) : Prop :=
  match l, l' with
  | [], [] => True
  | e :: l, e' :: l' =>
      sl_SL e' = sl_SL e /\
      max_prbs e' = Z.min (share N (max_ratio (spolicy (sl_SL e)))) (N - used - reserved N l) /\
      0 <= min_prbs e' <= Z.max 0 (max_prbs e') /\
      offers N (used + min_prbs e') l l'
  | _, _ => False
  end.

Lemma reserved_init N l : reserved N (init_entry N <$> l) = reserved N l.
Proof. induction l as [|e l IH]; [done|]. cbn [fmap list_fmap reserved foldr]. fold (reserved N (init_entry N <$> l)) (reserved N l). by rewrite IH. Qed.

(** The offers depend on the policies of the slices only. *)
Lemma offers_init N : forall l l' used, offers N used (init_entry N <$> l) l' -> offers N used l l'.
Proof.
  induction l as [|e l IH]; intros [|e' l'] used H; try done. cbn [fmap list_fmap offers] in *.
  rewrite reserved_init in H. destruct H as (E & Em & Hu & Ho). split_and!; try done || lia. by apply IH.
Qed.

Lemma offers_results N (G : Prop) : 0 <= N -> forall l l' used, Forall min_ratio_ok l -> 0 <= used -> offers N used l l' ->
  (G -> used + reserved N l <= N) -> Forall2 (slice_result N G) l l'.
Proof.
  intros HN. induction l as [|e l IH]; intros [|e' l'] used F H0 H HG; cbn [offers reserved foldr] in *; try done.
  fold (reserved N l) in *. inversion_clear F as [|? ? Fe F']. destruct H as (E & Em & Hu & Ho).
  pose proof (share_bounds N _ HN Fe). pose proof (reserved_nonneg N l HN F'). constructor.
  - split; [done|]. split; [done|]. split; [lia|]. intros g. specialize (HG g). lia.
  - apply (IH l' (used + min_prbs e')); [done|lia|done|]. intros g. specialize (HG g). lia.
Qed.

Section Slices.
Context {W : Type} `{Env : SchedEnv W} {slb : Z} {Laws : SchedEnvLaws W slb}.
Variables (frame N : Z) (L : nat) (nUE : nat).
Hypothesis L16 : Z.of_nat L < 2 ^ 16.
Hypothesis N_pos : 0 <= N.

(** What the loop keeps, besides the entries. *)
Record unit_inv (u : unit_t (W := W)) : Prop := {
  ui_mask : length (rballoc_mask (u_alloc u)) = L;
  ui_ready : Forall (ue_ready (Z.of_nat L)) (u_UEs u);
  ui_len : length (u_UEs u) = nUE;
  ui_free : n_rb_sched (u_alloc u) = N - u_tot u;
  ui_count : n_rb_sched (u_alloc u) <= free_count (rballoc_mask (u_alloc u)) slb
}.

(** A turn of the loop. *)
Lemma schedule_slice_ok u l1 e l2 :
  unit_inv u -> u_sched u = l1 ++ e :: l2 -> NoDup (e_sid <$> l1 ++ e :: l2) ->
  let m := Z.min (share N (max_ratio (spolicy (sl_SL e)))) (max_prbs e - sum_min l1 - sum_min l2) in
  exists used a' UEs' remain',
    0 <= used <= Z.max 0 m /\
    unit_inv (mk_unit a' UEs' remain' (l1 ++ e <| max_prbs := m |> <| min_prbs := used |> :: l2) (u_tot u + used)) /\
    schedule_slice frame N u (length l1) =
      (if u_tot u + used >? N then Exit
       else Done (mk_unit a' UEs' remain' (l1 ++ e <| max_prbs := m |> <| min_prbs := used |> :: l2) (u_tot u + used))).
Proof using Laws L16.
  intros [Im Ir Il If Ic] Es ND m. unfold schedule_slice. rewrite Es.
  rewrite (rd_done _ _ e); [|lia|by rewrite Nat2Z.id, list_lookup_middle]. cbn [mbind outcome_bind].
  rewrite offered_eq by done. fold m. cbv zeta.
  destruct (pf_dl_slice_ok frame (u_alloc u) (u_UEs u) (u_remain u) (sl_SL e) m) as
    (a' & UEs' & remain' & used & E & Hu & Hf & Hc & Hm & Hr & Hl & _); [by rewrite Im|by rewrite Im|done|].
  exists used, a', UEs', remain'. split; [done|]. split.
  { split; cbn [u_alloc u_UEs u_tot]; [by rewrite Hm|by rewrite <- Im|by rewrite Hl|lia|done]. }
  cbn [sl_SL max_prbs upd]. rewrite E. cbn [mbind outcome_bind]. by rewrite insert_app_r_alt, Nat.sub_diag by lia.
Qed.

(** An entry the initialisation has been through. *)
Definition entry_init (e : SLsched_t) : Prop :=
  max_ratio_ok e /\ min_ratio_ok e /\ max_prbs e = N /\ min_prbs e = share N (min_ratio (spolicy (sl_SL e))).

Lemma sum_min_reserved l : Forall entry_init l -> sum_min l = reserved N l.
Proof. induction 1 as [|e l (_ & _ & _ & He) _ IH]; [done|]. cbn [sum_min reserved foldr]. fold (sum_min l) (reserved N l). by rewrite He, IH. Qed.

Lemma entry_init_min l : Forall entry_init l -> Forall min_ratio_ok l.
Proof. intros F. eapply Forall_impl; [exact F|]. by intros e (_ & ? & _). Qed.

(** The slices from the second one on. *)
Lemma slices_loop_ok : forall todo done u, unit_inv u -> u_sched u = done ++ todo -> NoDup (e_sid <$> done ++ todo) ->
  Forall entry_init todo -> u_tot u = sum_min done -> u_tot u <= N ->
  exists u' done', loop (schedule_slice frame N) u (seq (length done) (length todo)) = Done u' /\ unit_inv u' /\
    u_sched u' = done ++ done' /\ offers N (u_tot u) todo done' /\ u_tot u' = sum_min (done ++ done') /\ u_tot u' <= N.
Proof using Laws L16 N_pos.
  induction todo as [|e todo IH]; intros done u I Es ND F Ht HN; cbn [length seq loop].
  { exists u, []. rewrite app_nil_r in Es |- *. split_and!; done || by apply I. }
  inversion_clear F as [|? ? (Hmx & Hmn & Em & Emin) F'].
  pose proof (sum_min_reserved todo F') as Hsr. pose proof (reserved_nonneg N todo N_pos (entry_init_min _ F')).
  pose proof (share_bounds N _ N_pos Hmx).
  pose proof (schedule_slice_ok u done e todo I Es ND) as HS. cbv zeta in HS. rewrite Em, <- Ht, Hsr in HS.
  set (m := Z.min _ _) in HS. destruct HS as (used & a' & UEs' & remain' & Hu & I' & E). rewrite E.
  destruct (u_tot u + used >? N) eqn:Ev; zbool; [lia|].
  cbn [mbind outcome_bind]. set (e' := e <| max_prbs := m |> <| min_prbs := used |>) in *.
  assert (Hs1 : sum_min (done ++ [e']) = u_tot u + used) by (rewrite sum_min_app, Ht; cbn [sum_min foldr min_prbs e' upd]; lia).
  destruct (IH (done ++ [e']) (mk_unit a' UEs' remain' (done ++ e' :: todo) (u_tot u + used))) as (u' & done' & E' & I2 & Es' & F2 & Ht' & HN');
    cbn [u_sched u_tot]; try (done || lia).
  { by rewrite <- app_assoc. }
  { rewrite <- app_assoc. rewrite !fmap_app, !fmap_cons in *. exact ND. }
  rewrite length_app, Nat.add_1_r in E'. exists u', (e' :: done'). rewrite <- app_assoc in *. split_and!; done.
Qed.
End Slices.

(** ** Retransmissions *)

Definition retx_ok (UE : NR_UE_info_t) : Prop :=
  retrans_dl_harq UE < Z.of_nat (length (harq_pdsch UE)) /\ Forall (fun p => 0 <= rbSize p) (harq_pdsch UE).

Section Unit.
Context {W : Type} `{Env : SchedEnv W} {slb : Z} {Laws : SchedEnvLaws W slb}.

Lemma ready_rbs_in L UE : 0 <= L -> ue_ready L UE -> rbs_in UE L.
Proof. intros HL [H _]. unfold rbs_in. rewrite H. lia. Qed.

Lemma ready_same_radio L UE UE' : same_radio UE UE' -> ue_ready L UE -> ue_ready L UE'.
Proof. intros (E1 & E2 & _) H. unfold ue_ready. by rewrite E1, E2. Qed.

Lemma retransmit_ue_ok (s : alloc_t W) remain UE : Z.of_nat (length (rballoc_mask s)) < 2 ^ 16 ->
  ue_ready (Z.of_nat (length (rballoc_mask s))) UE -> retx_ok UE -> n_rb_sched s <= free_count (rballoc_mask s) slb ->
  exists s' remain' UE', retransmit_ue s remain UE = Done (s', remain', UE') /\
    length (rballoc_mask s') = length (rballoc_mask s) /\ ue_ready (Z.of_nat (length (rballoc_mask s))) UE' /\
    n_rb_sched s' <= free_count (rballoc_mask s') slb /\ (retrans_dl_harq UE < 0 -> n_rb_sched s' = n_rb_sched s).
Proof using Laws.
  intros H16 R X Hc. unfold retransmit_ue. destruct (negb (Msg4_ACKed UE)); [by do 3 eexists|].
  destruct (ul_failure (UE_ctrl UE)); [by do 3 eexists|].
  set (UE1 := UE <| alreadySched := false |> <| sched_pdsch; dl_harq_pid := _ |>). change (retrans_dl_harq UE1) with (retrans_dl_harq UE).
  assert (R1 : ue_ready (Z.of_nat (length (rballoc_mask s))) UE1) by exact R.
  destruct (remain =? 0); [by do 3 eexists|]. destruct (retrans_dl_harq UE >=? 0) eqn:E; zbool; [|by do 3 eexists].
  destruct X as [X1 X2]. destruct (lookup_lt_is_Some_2 (harq_pdsch UE) (Z.to_nat (retrans_dl_harq UE))) as [ret Hret]; [lia|].
  destruct (allocate_dl_retransmission_ok s UE1 (retrans_dl_harq UE) ret E Hret) as (ok & s' & UE' & -> & SR & Hok); try done.
  { by eapply Forall_lookup_1 in X2. }
  { apply ready_rbs_in; [lia|done]. }
  { apply tda_configured. }
  assert (HL : length (rballoc_mask s') = length (rballoc_mask s)).
  { destruct ok; [destruct Hok as (_ & _ & HT & _); apply HT|by destruct Hok as [-> _]]. }
  assert (HC : n_rb_sched s' <= free_count (rballoc_mask s') slb).
  { destruct ok; [destruct Hok as (_ & -> & _ & Hfc); specialize (Hfc slb); lia|by destruct Hok as [-> ->]]. }
  pose proof (ready_same_radio _ _ _ SR R1) as R2.
  cbn [mbind outcome_bind]. destruct ok; do 3 eexists; (split; [reflexivity|]); (split; [done|]); (split; [exact R2|]); (split; [done|lia]).
Qed.

Lemma retransmit_loop_ok : forall UEs (s : alloc_t W) remain, Z.of_nat (length (rballoc_mask s)) < 2 ^ 16 ->
  Forall (ue_ready (Z.of_nat (length (rballoc_mask s)))) UEs -> Forall retx_ok UEs -> n_rb_sched s <= free_count (rballoc_mask s) slb ->
  exists s' remain' UEs', retransmit_loop s remain UEs = Done (s', remain', UEs') /\
    length (rballoc_mask s') = length (rballoc_mask s) /\ Forall (ue_ready (Z.of_nat (length (rballoc_mask s)))) UEs' /\
    n_rb_sched s' <= free_count (rballoc_mask s') slb /\ (Forall (fun UE => retrans_dl_harq UE < 0) UEs -> n_rb_sched s' = n_rb_sched s).
Proof using Laws.
  induction UEs as [|UE UEs IH]; intros s remain H16 R X Hc; cbn [retransmit_loop]; [by do 3 eexists|].
  inversion_clear R as [|? ? R1 R']. inversion_clear X as [|? ? X1 X'].
  destruct (retransmit_ue_ok s remain UE H16 R1 X1 Hc) as (s1 & remain1 & UE1 & -> & L1 & R2 & C1 & N1). cbn [mbind outcome_bind].
  destruct (IH s1 remain1) as (s2 & remain2 & UEs2 & -> & L2 & R3 & C2 & N2); try done; [by rewrite L1..|].
  cbn [mbind outcome_bind]. do 3 eexists. split; [reflexivity|]. rewrite L1 in *. split; [done|].
  split; [by constructor|]. split; [done|]. intros F. inversion_clear F as [|? ? F1 F']. rewrite N2, N1 by done. done.
Qed.

(** ** The scheduling of a slot *)

(** What [dl_sched_unit] is called with. *)
Record unit_input (a : alloc_t W) (UEs : list NR_UE_info_t) (SL_sched : list SLsched_t) : Prop := {
  in_mask : Z.of_nat (length (rballoc_mask a)) < 2 ^ 16;
  in_ready : Forall (ue_ready (Z.of_nat (length (rballoc_mask a)))) UEs;
  in_retx : Forall retx_ok UEs;
  in_count : n_rb_sched a <= free_count (rballoc_mask a) slb;
  in_sids : NoDup (e_sid <$> SL_sched);
  in_max : Forall (fun e => ratio_ok (max_ratio (spolicy (sl_SL e)))) SL_sched;
  in_min : Forall (fun e => ratio_ok (min_ratio (spolicy (sl_SL e)))) SL_sched
}.

(** The loop over the slices, from the first. *)
Lemma slices_ok frame N (a : alloc_t W) UEs remain e0 rest :
  0 <= N -> n_rb_sched a = N -> n_rb_sched a <= free_count (rballoc_mask a) slb -> Z.of_nat (length (rballoc_mask a)) < 2 ^ 16 ->
  Forall (ue_ready (Z.of_nat (length (rballoc_mask a)))) UEs -> NoDup (e_sid <$> e0 :: rest) ->
  Forall max_ratio_ok (e0 :: rest) -> Forall min_ratio_ok (e0 :: rest) ->
  exists u e0' rest', loop (schedule_slice frame N) (mk_unit a UEs remain (init_prbs N (e0 :: rest)) 0) (seq 0 (S (length rest))) = Done u /\
    n_rb_sched (u_alloc u) = N - u_tot u /\ u_sched u = e0' :: rest' /\
    sl_SL e0' = sl_SL e0 /\
    max_prbs e0' = Z.min (share N (max_ratio (spolicy (sl_SL e0)))) (max_prbs e0 - reserved N rest) /\
    0 <= min_prbs e0' <= Z.max 0 (max_prbs e0') /\
    offers N (min_prbs e0') rest rest' /\ u_tot u = sum_min (u_sched u) /\ u_tot u <= N.
Proof using Laws.
  intros HN Hn Hc H16 R ND Fx Fn. cbn [init_prbs]. set (rest1 := fmap _ rest).
  inversion_clear Fx as [|? ? Fx0 Fx']. inversion_clear Fn as [|? ? Fn0 Fn']. pose proof (share_bounds N _ HN Fx0).
  assert (F1 : Forall (entry_init N) rest1).
  { apply Forall_fmap. apply Forall_forall. intros e He. unfold compose.
    pose proof (proj1 (Forall_forall _ _) Fx' e He). pose proof (proj1 (Forall_forall _ _) Fn' e He). done. }
  assert (ND1 : NoDup (e_sid <$> [] ++ e0 :: rest1)).
  { unfold rest1. cbn [app]. rewrite fmap_cons, <- list_fmap_compose in *. exact ND. }
  pose proof (sum_min_reserved N rest1 F1) as Hsr.
  change rest1 with (init_entry N <$> rest) in Hsr at 2. rewrite reserved_init in Hsr. pose proof (reserved_nonneg N rest HN Fn').
  cbn [seq loop].
  pose proof (schedule_slice_ok frame N (length (rballoc_mask a)) (length UEs) H16 (mk_unit a UEs remain (e0 :: rest1) 0) [] e0 rest1) as HS.
  destruct HS as (used & a' & UEs' & remain' & Hu & I' & E); [split; cbn; done || lia|done|done|].
  cbn [length] in E. rewrite E. cbn [u_tot sum_min foldr] in *. rewrite Hsr, Z.sub_0_r in *.
  destruct (0 + used >? N) eqn:Ev; zbool; [lia|]. cbn [mbind outcome_bind].
  set (m := Z.min _ _) in *. set (e0' := e0 <| max_prbs := m |> <| min_prbs := used |>) in *.
  destruct (slices_loop_ok frame N (length (rballoc_mask a)) (length UEs) H16 HN rest1 [e0']
    (mk_unit a' UEs' remain' ([] ++ e0' :: rest1) (0 + used))) as (u & done' & El & I2 & Es & F2 & Ht & Htn);
    cbn [u_sched u_tot sum_min foldr app]; try done; try (cbn [e0' min_prbs upd]; lia).
  exists u, e0', done'. unfold rest1 in El. rewrite length_fmap in El. cbn [length] in El.
  split; [exact El|]. split; [apply I2|]. do 4 (split; [done|]). split; [|split; [by rewrite Ht, Es|done]].
  cbn [u_tot] in F2. by apply offers_init in F2.
Qed.

(** Retransmissions that take more than what was counted as free leave a negative number. *)
Lemma slices_negative frame N (a : alloc_t W) UEs remain e0 rest : N < 0 -> n_rb_sched a = N ->
  n_rb_sched a <= free_count (rballoc_mask a) slb ->
  Z.of_nat (length (rballoc_mask a)) < 2 ^ 16 -> Forall (ue_ready (Z.of_nat (length (rballoc_mask a)))) UEs ->
  NoDup (e_sid <$> e0 :: rest) -> ratio_ok (max_ratio (spolicy (sl_SL e0))) ->
  loop (schedule_slice frame N) (mk_unit a UEs remain (init_prbs N (e0 :: rest)) 0) (seq 0 (S (length rest))) = Exit.
Proof using Laws.
  intros HN Hn Hc H16 R ND Fx. cbn [init_prbs seq loop]. set (rest1 := fmap _ rest). pose proof (share_nonpos N _ HN Fx).
  assert (ND1 : NoDup (e_sid <$> [] ++ e0 :: rest1)).
  { unfold rest1. cbn [app]. rewrite fmap_cons, <- list_fmap_compose in *. exact ND. }
  destruct (schedule_slice_ok frame N (length (rballoc_mask a)) (length UEs) H16 (mk_unit a UEs remain (e0 :: rest1) 0) [] e0 rest1)
    as (used & a' & UEs' & remain' & Hu & _ & E); [split; cbn; done || lia|done|done|].
  cbn [length] in E. rewrite E. cbn [u_tot]. destruct (0 + used >? N) eqn:Ev; zbool; [done|lia].
Qed.

Lemma first_and_rest N (e0 e0' : SLsched_t) rest rest' : 0 <= N -> Forall min_ratio_ok (e0 :: rest) -> sl_SL e0' = sl_SL e0 ->
  max_prbs e0' = Z.min (share N (max_ratio (spolicy (sl_SL e0)))) (max_prbs e0 - reserved N rest) ->
  0 <= min_prbs e0' <= Z.max 0 (max_prbs e0') -> offers N (min_prbs e0') rest rest' ->
  Forall2 (slice_result N False) (e0 :: rest) (e0' :: rest').
Proof.
  intros HN F E Em Hu Ho. inversion_clear F as [|? ? _ F']. constructor.
  - split; [done|]. split; [done|]. split; [lia|done].
  - by apply (offers_results N False HN rest rest' (min_prbs e0')); [|lia|..].
Qed.

(** C4. The budget of a slot.  Retransmissions are allocated first; with the [N] resource blocks they leave,
    the scheduling of the slices returns: no slice is offered more than its maximum ratio, none uses more than it is
    offered, and together they use at most [N] resource blocks, which are taken from the count of free
    ones: the assertion PRB Violation does not fail, whatever the uninitialised entries of
    [SL_sched] hold.  It fails exactly when the retransmissions leave a negative number. *)
Theorem prb_budget (frame max_num_ue : Z) (a : alloc_t W) (UEs : list NR_UE_info_t) (SL_sched : list SLsched_t) :
  unit_input a UEs SL_sched -> SL_sched <> [] ->
  exists a1 remain UEs1, retransmit_loop a max_num_ue UEs = Done (a1, remain, UEs1) /\
    let N := n_rb_sched a1 in
    let result := dl_sched_unit frame a UEs max_num_ue (length SL_sched) SL_sched in
    if N <? 0 then result = Exit
    else exists u, result = Done u /\ u_tot u = sum_min (u_sched u) /\ u_tot u <= N /\
      n_rb_sched (u_alloc u) = N - u_tot u /\ Forall2 (slice_result N False) SL_sched (u_sched u).
Proof using Laws.
  intros [H16 R X Hc ND Fx Fn] Hne. destruct SL_sched as [|e0 rest]; [done|]. unfold dl_sched_unit.
  destruct (retransmit_loop_ok UEs a max_num_ue H16 R X Hc) as (a1 & remain & UEs1 & -> & L1 & R1 & C1 & _).
  do 3 eexists. split; [reflexivity|]. cbn [mbind outcome_bind length]. rewrite <- L1 in *. cbv zeta.
  destruct (n_rb_sched a1 <? 0) eqn:E; zbool.
  - inversion_clear Fx. by apply slices_negative.
  - destruct (slices_ok frame (n_rb_sched a1) a1 UEs1 remain e0 rest) as (u & e0' & rest' & El & Hn & Es & H0 & H1 & H2 & HF & Ht & Hle);
      try done. exists u. rewrite Es in *. split_and!; try done. apply first_and_rest; try done.
Qed.

(** C6. What the slices of a slot are offered, with the [N] resource blocks the retransmissions leave.  The first
    entry of the sorted array is the one the initialisation skips: its offer is computed from the value the stack held in
    its [max_prbs].  Every other slice is offered exactly what the slices before it have not used, less the minimum
    ratios of the slices behind it, and at most its maximum ratio, and uses at most that.  So the other
    slices get their minimum ratio, or their maximum ratio if that is smaller, as soon as the first slice
    leaves what they reserve, which it does when the value of the stack is at most [N] and their minimum ratios add up
    to at most 100.  Nothing is guaranteed to the first slice. *)
Theorem slice_offers_exact (frame max_num_ue : Z) (a a1 : alloc_t W) (UEs UEs1 : list NR_UE_info_t) (remain : Z)
    (e0 : SLsched_t) (rest : list SLsched_t) :
  unit_input a UEs (e0 :: rest) -> retransmit_loop a max_num_ue UEs = Done (a1, remain, UEs1) -> 0 <= n_rb_sched a1 ->
  let N := n_rb_sched a1 in
  exists u e0' rest', dl_sched_unit frame a UEs max_num_ue (length (e0 :: rest)) (e0 :: rest) = Done u /\
    u_sched u = e0' :: rest' /\ sl_SL e0' = sl_SL e0 /\
    max_prbs e0' = Z.min (share N (max_ratio (spolicy (sl_SL e0)))) (max_prbs e0 - reserved N rest) /\
    0 <= min_prbs e0' <= Z.max 0 (max_prbs e0') /\
    offers N (min_prbs e0') rest rest' /\
    (min_prbs e0' + reserved N rest <= N ->
     Forall2 (fun e e' => Z.min (share N (min_ratio (spolicy (sl_SL e)))) (share N (max_ratio (spolicy (sl_SL e)))) <= max_prbs e')
       rest rest') /\
    (max_prbs e0 <= N -> sum_of min_ratio (sl_SL <$> rest) <= 100 -> min_prbs e0' + reserved N rest <= N).
Proof using Laws.
  intros [H16 R X Hc ND Fx Fn] Er HN N. unfold dl_sched_unit.
  destruct (retransmit_loop_ok UEs a max_num_ue H16 R X Hc) as (a1' & remain' & UEs1' & Er' & L1 & R1 & C1 & _).
  rewrite Er in *. injection Er' as <- <- <-. cbn [mbind outcome_bind length]. rewrite <- L1 in *.
  destruct (slices_ok frame N a1 UEs1 remain e0 rest) as (u & e0' & rest' & El & Hn & Es & H0 & H1 & H2 & HF & Ht & Hle); try done.
  inversion_clear Fn as [|? ? _ Fn']. exists u, e0', rest'. do 6 (split; [done|]). split.
  - intros HG. eapply Forall2_impl; [apply (offers_results N True HN rest rest' (min_prbs e0')); done || lia|].
    intros e e' (_ & _ & _ & E2). by apply E2.
  - intros Hm Hs. pose proof (reserved_ratios N rest HN Fn'). nia.
Qed.

(** Without retransmissions. *)
Lemma unit_result frame max_num_ue (a : alloc_t W) UEs SL_sched :
  unit_input a UEs SL_sched -> SL_sched <> [] -> 0 <= n_rb_sched a -> Forall (fun UE => retrans_dl_harq UE < 0) UEs ->
  exists u, dl_sched_unit frame a UEs max_num_ue (length SL_sched) SL_sched = Done u /\ u_tot u = sum_min (u_sched u) /\
    u_tot u <= n_rb_sched a /\ Forall2 (slice_result (n_rb_sched a) False) SL_sched (u_sched u).
Proof using Laws.
  intros [H16 R X Hc ND Fx Fn] Hne HN HR. destruct SL_sched as [|e0 rest]; [done|]. unfold dl_sched_unit.
  destruct (retransmit_loop_ok UEs a max_num_ue H16 R X Hc) as (a1 & remain & UEs1 & -> & L1 & R1 & C1 & E1).
  cbn [mbind outcome_bind length]. rewrite <- L1, <- (E1 HR) in *.
  destruct (slices_ok frame (n_rb_sched a1) a1 UEs1 remain e0 rest) as (u & e0' & rest' & El & Hn & Es & H0 & H1 & H2 & HF & Ht & Hle);
    try done. exists u. rewrite Es in *. split_and!; try done. apply first_and_rest; try done.
Qed.
End Unit.

(** ** The preprocessor *)

Lemma last_bytes_in_slice_ok sid : forall num avail b, (num <= length avail)%nat ->
  exists b', last_bytes_in_slice num sid avail b = Done b'.
Proof.
  induction num as [|num IH]; intros avail b H; [by eexists|]. destruct avail as [|a avail]; simpl in *; [lia|]. apply IH. lia.
Qed.

Section Preprocessor.
Context {W : Type} `{Env : SchedEnv W} {slb : Z} {Laws : SchedEnvLaws W slb}.

Definition entries_ok (UE : NR_UE_info_t) : Prop :=
  (Z.to_nat (num_slice_d (UE_ctrl UE)) <= length (avail_slice_list (UE_ctrl UE)))%nat.

Lemma ue_prb_estimate_ok sid n UE : entries_ok UE -> exists n', ue_prb_estimate sid n UE = Done n'.
Proof using Laws.
  intros H. unfold ue_prb_estimate. cif; [by eexists|]. cif; [by eexists|].
  destruct (last_bytes_in_slice_ok sid _ _ 0 H) as (b & ->). cbn [mbind outcome_bind]. cif; [by eexists|].
  pose proof tda_configured. destruct (negb (get_dl_tda >=? 0)) eqn:E0'; zbool; [lia|]. unfold nr_find_nb_rb.
  match goal with |- context [find_nb_rb ?f false ?b min_rbSize (u16 ?m)] =>
    destruct (find_nb_rb_max f b min_rbSize (u16 m)) as (ok & t & r & -> & _) end;
    [done|unfold u16; by apply Z.mod_pos_bound|]. cbn [mbind outcome_bind]. by eexists.
Qed.

Lemma slice_prb_estimate_ok UEs : Forall entries_ok UEs -> forall SL_list SL_sched, length SL_sched = length SL_list ->
  exists l, slice_prb_estimate SL_list UEs SL_sched = Done l /\ sl_SL <$> l = SL_list.
Proof using Laws.
  intros F. induction SL_list as [|SL SL_list IH]; intros [|e SL_sched] H; try done; cbn [slice_prb_estimate]; [by eexists|].
  destruct (loop_inv (fun _ _ => True) (ue_prb_estimate (sl_sid SL)) UEs 0) as (n & -> & _); [done| |].
  { intros l1 UE l2 s E _. destruct (ue_prb_estimate_ok (sl_sid SL) s UE) as (n' & ->); [|by eexists].
    apply (proj1 (Forall_forall _ _) F). rewrite E. apply elem_of_app. right. left. }
  cbn [mbind outcome_bind]. destruct (IH SL_sched) as (l & -> & El); [by injection H|]. cbn [mbind outcome_bind].
  eexists. split; [reflexivity|]. rewrite fmap_cons, El. done.
Qed.

Lemma init_mask_ok vrb_map BWPStart bwpSize : 0 <= BWPStart -> 0 <= bwpSize -> BWPStart + bwpSize <= Z.of_nat (length vrb_map) ->
  exists mask, init_mask vrb_map slb BWPStart bwpSize = Done (mask, free_count mask slb) /\ Z.of_nat (length mask) = bwpSize.
Proof.
  intros H1 H2 H3. unfold init_mask. rewrite slice_done by done. cbn [mbind outcome_bind]. eexists. split; [reflexivity|].
  rewrite length_fmap, length_take, length_drop. lia.
Qed.

(** What a cell is configured with, and what its UEs are. *)
Record cell_ok (SL_list : NR_Slices_t) (UEs : list NR_UE_info_t) (bwpSize : Z) : Prop := {
  cell_bwp : 0 <= bwpSize < 2 ^ 16;
  cell_sids : NoDup (sl_sid <$> SL_list);
  cell_max_sid : Forall (fun SL => sl_sid SL <= MAX_NUM_PDU_SESSION) SL_list;
  cell_max : Forall (fun SL => ratio_ok (max_ratio (spolicy SL))) SL_list;
  cell_min : Forall (fun SL => ratio_ok (min_ratio (spolicy SL))) SL_list;
  cell_range : Forall (fun UE => get_start_stop_allocation UE = (0, bwpSize - 1)) UEs;
  cell_no_retx : Forall (fun UE => retrans_dl_harq UE < 0 /\ retx_ok UE) UEs;
  cell_wf : Forall (fun UE => ue_wf (UE_ctrl UE)) UEs;
  cell_slices : Forall (fun UE => ul_failure (UE_ctrl UE) = false ->
                          (length (active_slices SL_list (UE_ctrl UE)) <= 2)%nat) UEs
}.

Lemma zip_ctrl_Forall (P : NR_UE_info_t -> Prop) (Q : NR_UE_sched_ctrl_t -> Prop) : forall UEs ctrls,
  length ctrls = length UEs -> Forall P UEs -> Forall Q ctrls ->
  Forall (fun UE => exists UE0 c, UE = UE0 <| UE_ctrl := c |> /\ P UE0 /\ Q c) (zip_with (fun UE c => UE <| UE_ctrl := c |>) UEs ctrls).
Proof.
  induction UEs as [|UE UEs IH]; intros [|c ctrls] H F1 F2; try done; simpl.
  inversion_clear F1. inversion_clear F2. constructor; [by exists UE, c|]. apply IH; [by injection H|done|done].
Qed.

(** C7. A slot, from the choice of the slices to the allocation.  In a well-formed cell without
    retransmissions, the preprocessor returns; every configured slice is scheduled once, offered at most its maximum
    ratio of the free resource blocks, and the slices use no more resource blocks than are free. *)
Theorem preprocessor_budget (qsort : list SLsched_t -> list SLsched_t) (rlc : Z -> Z -> mac_rlc_status_resp_t)
    (SL_list : NR_Slices_t) (frame slot : Z) (w : W) (vrb_map : list Z) (symbols : Z * Z) (BWPStart bw : Z)
    (UE0 : NR_UE_info_t) (UEs : list NR_UE_info_t) (SL_sched : list SLsched_t) :
  (forall l, qsort l ≡ₚ l) -> SL_to_bitmap symbols.1 symbols.2 = slb ->
  cell_ok SL_list (UE0 :: UEs) (BWPSize UE0) -> SL_list <> [] -> length SL_sched = length SL_list ->
  0 <= BWPStart -> BWPStart + BWPSize UE0 <= Z.of_nat (length vrb_map) ->
  exists mask u,
    init_mask vrb_map slb BWPStart (BWPSize UE0) = Done (mask, free_count mask slb) /\
    nr_fr1_dlsch_preprocessor qsort rlc SL_list frame slot w vrb_map symbols BWPStart bw (UE0 :: UEs) SL_sched = Done (Some u) /\
    sl_SL <$> u_sched u ≡ₚ SL_list /\ u_tot u = sum_min (u_sched u) /\ u_tot u <= free_count mask slb /\
    Forall (fun e => 0 <= min_prbs e <= Z.max 0 (max_prbs e) /\
                     max_prbs e <= share (free_count mask slb) (max_ratio (spolicy (sl_SL e)))) (u_sched u).
Proof using Laws.
  intros Hq Hsym [Hb Hs Hms Hmx Hmn Hr Hre Hwf Hsl] Hne Hlen H0 Hv.
  destruct (init_mask_ok vrb_map BWPStart (BWPSize UE0) H0 ltac:(lia) Hv) as (mask & Em & Lm).
  unfold nr_fr1_dlsch_preprocessor. rewrite Hsym, Em. cbn [mbind outcome_bind]. set (all := UE0 :: UEs) in *.
  destruct (prepare_slices_entries rlc SL_list (UE_ctrl <$> all) Hms) with (slot := slot) as (ctrls & Ec & Lc & Fc);
    [by apply Forall_fmap|by apply Forall_fmap|]. rewrite Ec. cbn [mbind outcome_bind]. rewrite length_fmap in Lc.
  set (UEs1 := zip_with _ all ctrls).
  assert (Hall : Forall (fun UE => ue_ready (BWPSize UE0) UE /\ retx_ok UE /\ retrans_dl_harq UE < 0) UEs1).
  { eapply Forall_impl; [exact (zip_ctrl_Forall _ _ all ctrls Lc (proj2 (Forall_and _ _) (conj Hr Hre)) Fc)|].
    intros UE (UE' & c & -> & (R1 & R2 & R3) & R4). done. }
  destruct (slice_prb_estimate_ok UEs1) with (SL_list := SL_list) (SL_sched := SL_sched) as (l & El & Esl); [|done|].
  { eapply Forall_impl; [exact Hall|]. by intros UE [[_ He] _]. }
  rewrite El. cbn [mbind outcome_bind]. exists mask.
  pose proof (Hq l) as Hperm. assert (Hsl2 : sl_SL <$> qsort l ≡ₚ SL_list) by (rewrite Hperm; by rewrite Esl).
  destruct (unit_result frame (Z.min (Z.quot bw (4 * NR_NB_REG_PER_CCE)) MAX_DCI_CORESET) (mk_alloc w mask (free_count mask slb)) UEs1
    (qsort l)) as (u & Eu & Ht & Hle & HF).
  { split; cbn [rballoc_mask n_rb_sched]; rewrite ?Lm; try done || lia.
    - eapply Forall_impl; [exact Hall|]. by intros ? [? _].
    - eapply Forall_impl; [exact Hall|]. by intros ? (_ & ? & _).
    - change (e_sid <$> qsort l) with (sl_sid ∘ sl_SL <$> qsort l). rewrite list_fmap_compose, Hsl2. done.
    - apply (Forall_fmap sl_SL (fun SL => ratio_ok (max_ratio (spolicy SL)))). by rewrite Hsl2.
    - apply (Forall_fmap sl_SL (fun SL => ratio_ok (min_ratio (spolicy SL)))). by rewrite Hsl2. }
  { intros Eq. rewrite Eq in Hsl2. apply Permutation_nil_l in Hsl2. by subst. }
  { unfold free_count. cbn [n_rb_sched]. lia. }
  { eapply Forall_impl; [exact Hall|]. by intros ? (_ & _ & ?). }
  assert (Eln : length (qsort l) = length SL_list) by (rewrite <- Hsl2, length_fmap; done).
  rewrite Eln in Eu. rewrite Eu. cbn [mbind outcome_bind]. exists u. do 2 (split; [done|]). split.
  { rewrite <- Hsl2. assert (Eq : sl_SL <$> u_sched u = sl_SL <$> qsort l); [|by rewrite Eq].
    clear -HF. induction HF as [|e e' l1 l2 (E & _) _ IH]; [done|]. by rewrite !fmap_cons, E, IH. }
  split; [done|]. split; [done|]. clear -HF. cbn [n_rb_sched] in HF.
  induction HF as [|e e' l1 l2 (E & H1 & H2 & _) _ IH]; constructor; [|done]. by rewrite E.
Qed.
End Preprocessor.
