(* ===== verification/SliceRun.v ===== *)
(** Executions of the downlink scheduler with slices in a small environment: the laws of [SchedEnvLaws] can
    hold, and three executions in which the scheduler does not do what it means to. *)

From S2P Require Import Prelude Tbs SlicePolicy SliceSched SliceAlloc SliceBudget.

(** ** An environment: there is always a CCE and a PUCCH, the MCS is 9, PDSCH has the symbols 1 to 12 *)

Definition toy_tda : NR_tda_info_t := mk_tda 1 12 true.

#[export] Instance toy_env : SchedEnv unit := {|
  cset0_bwp_start := 0;
  cset0_bwp_size := 0;
  get_cce_index w _ := (0, w);
  nr_acknack_scheduling w _ _ := (0, w);
  fill_pdcch_vrb_map w _ _ := w;
  get_dl_tda := 0;
  get_dl_tda_info _ _ _ := toy_tda;
  get_dl_dmrs_params _ _ _ := 12;
  mcs_from_bler _ := 9;
  get_dl_nrOfLayers _ := 1;
  get_pm_index _ _ := 0;
  nr_get_Qm_dl _ _ := 2;
  nr_get_code_rate_dl _ _ := 6790;
  pf_sort l := l
|}.

Definition toy_slb : Z := SL_to_bitmap 1 12.

#[export] Instance toy_laws : SchedEnvLaws unit toy_slb.
Proof. split; done. Qed.

Definition pdsch0 : NR_sched_pdsch_t := mk_pdsch 0 0 0 0 0 0 0 0 0 1 0 0 (mk_tda 0 0 false).

(** A UE with a BWP of [bwp] resource blocks, [bytes] bytes in slice [sid] and a HARQ process to retransmit. *)
Definition toy_ue (bwp sid bytes retx : Z) (harq : NR_sched_pdsch_t) : NR_UE_info_t :=
  mk_ue (mk_sched_ctrl (100 + sid) false 0 [] [] bytes 0 [] [mk_ms sid (mk_nssai 1 sid) bytes] 1 sid)
    true false 0 retx 0 0 pdsch0 [harq] bwp 0 searchSpaceType_PR_ue_Specific false 1 0 0 0 0.

Definition toy_slice (sid mn mx : Z) : NR_slice_info_t := mk_slice sid (mk_nssai 1 sid) (mk_policy 0 mn mx).

(** The mask of a slot in which nothing else is scheduled. *)
Definition toy_alloc (n : nat) : alloc_t unit := mk_alloc tt (replicate n 0x3fff) (Z.of_nat n).

Lemma toy_input n UEs SL_sched :
  (n < 1000)%nat -> Forall (ue_ready (Z.of_nat n)) UEs -> Forall retx_ok UEs -> NoDup (e_sid <$> SL_sched) ->
  Forall (fun e => ratio_ok (max_ratio (spolicy (sl_SL e)))) SL_sched ->
  Forall (fun e => ratio_ok (min_ratio (spolicy (sl_SL e)))) SL_sched ->
  unit_input (slb := toy_slb) (toy_alloc n) UEs SL_sched.
Proof.
  intros Hn R X ND Fx Fn. split; cbn [rballoc_mask n_rb_sched toy_alloc]; rewrite ?length_replicate; try done; [lia|].
  unfold free_count. assert (E : filter (fun m => Z.land m toy_slb = toy_slb) (replicate n 0x3fff) = replicate n 0x3fff).
  { clear. induction n as [|n IH]; [done|]. cbn [replicate]. rewrite filter_cons_True by (vm_compute; reflexivity). by rewrite IH. }
  rewrite E, length_replicate. done.
Qed.

Lemma toy_ue_ready n sid bytes retx harq : ue_ready (Z.of_nat n) (toy_ue (Z.of_nat n) sid bytes retx harq).
Proof. split; [reflexivity|simpl; lia]. Qed.

Definition toy_ues : list NR_UE_info_t := [toy_ue 50 1 100000 (-1) pdsch0; toy_ue 50 2 100000 (-1) pdsch0].
Definition toy_sched (garbage : Z) : list SLsched_t :=
  [mk_SLsched 0 0 0 garbage (toy_slice 1 0 100); mk_SLsched 0 0 0 garbage (toy_slice 2 60 100)].

Lemma toy_unit_input garbage : unit_input (slb := toy_slb) (toy_alloc 50) toy_ues (toy_sched garbage).
Proof.
  apply toy_input; [lia| | | | |].
  - constructor; [|constructor; [|constructor]]; apply (toy_ue_ready 50).
  - constructor; [|constructor; [|constructor]]; (split; [reflexivity|]); (constructor; [done|constructor]).
  - apply NoDup_cons; split; [intros H; by apply list_elem_of_singleton in H|apply NoDup_singleton].
  - repeat constructor; done.
  - repeat constructor; done.
Qed.

Lemma prb_budget_witness :
  exists a1 remain UEs1, retransmit_loop (toy_alloc 50) 8 toy_ues = Done (a1, remain, UEs1) /\
    let N := n_rb_sched a1 in
    let result := dl_sched_unit 0 (toy_alloc 50) toy_ues 8 (length (toy_sched 7)) (toy_sched 7) in
    if N <? 0 then result = Exit
    else exists u, result = Done u /\ u_tot u = sum_min (u_sched u) /\ u_tot u <= N /\
      n_rb_sched (u_alloc u) = N - u_tot u /\ Forall2 (slice_result N False) (toy_sched 7) (u_sched u).
Proof. apply (prb_budget 0 8 (toy_alloc 50) toy_ues (toy_sched 7)); [apply toy_unit_input|done]. Defined.

(** The UEs after the stage of the retransmissions. *)
Definition toy_ues_stage2 : list NR_UE_info_t :=
  (fun UE => UE <| alreadySched := false |> <| sched_pdsch; dl_harq_pid := -1 |>) <$> toy_ues.

Lemma slice_offers_exact_witness :
  exists u e0' rest', dl_sched_unit 0 (toy_alloc 50) toy_ues 8 2 (toy_sched 50) = Done u /\ u_sched u = e0' :: rest' /\
    max_prbs e0' = 20 /\ offers 50 (min_prbs e0') (tail (toy_sched 50)) rest' /\
    Forall2 (fun e e' => Z.min (share 50 (min_ratio (spolicy (sl_SL e)))) (share 50 (max_ratio (spolicy (sl_SL e)))) <= max_prbs e')
      (tail (toy_sched 50)) rest'.
Proof.
  destruct (slice_offers_exact 0 8 (toy_alloc 50) (toy_alloc 50) toy_ues toy_ues_stage2 8 (mk_SLsched 0 0 0 50 (toy_slice 1 0 100))
    (tail (toy_sched 50))) as (u & e0' & rest' & E & Es & _ & Em & _ & Ho & Hg & Hr);
    [apply toy_unit_input|vm_compute; reflexivity|vm_compute; congruence|].
  exists u, e0', rest'. split; [exact E|]. split; [exact Es|]. split; [exact Em|]. split; [exact Ho|].
  apply Hg, Hr; vm_compute; congruence.
Defined.

(** A HARQ process with 10 resource blocks in the symbols 1 to 4. *)
Definition toy_harq : NR_sched_pdsch_t := mk_pdsch 10 0 9 6790 2 100 0 0 0 1 12 0 (mk_tda 1 4 true).

Lemma retransmission_takes_free_rbs_witness :
  exists ok s' UE', allocate_dl_retransmission (toy_alloc 50) (toy_ue 50 1 0 0 toy_harq) 0 = Done (ok, s', UE') /\
    if ok : bool then
      let p := sched_pdsch UE' in
      tb_size p = 100 /\ n_rb_sched s' = 50 - rbSize p /\
      rbs_taken (replicate 50 0x3fff) (rballoc_mask s')
        (SL_to_bitmap (startSymbolIndex (tda_info p)) (nrOfSymbols (tda_info p))) (rbStart p) (rbSize p)
    else rballoc_mask s' = replicate 50 0x3fff /\ n_rb_sched s' = 50.
Proof.
  apply (retransmission_takes_free_rbs (toy_alloc 50) (toy_ue 50 1 0 0 toy_harq) 0 toy_harq);
    [lia|reflexivity|vm_compute; congruence|vm_compute; split; [|split]; congruence|vm_compute; congruence|vm_compute; congruence].
Defined.

(** ** Executions *)

(** The loop that initialises [SL_sched] starts at 1, so that the first entry keeps what the stack held.  With
    the same cell, the same UEs and the same policies, a slice with a minimum ratio of 60 is given
    30 of the 50 resource blocks or none of them, depending on this value. *)
Theorem first_entry_uninitialised :
  exists u u', dl_sched_unit 0 (toy_alloc 50) toy_ues 8 2 (toy_sched 50) = Done u /\
    dl_sched_unit 0 (toy_alloc 50) toy_ues 8 2 (toy_sched 1000) = Done u' /\
    min_prbs <$> u_sched u = [20; 30] /\ min_prbs <$> u_sched u' = [50; 0].
Proof. eexists _, _. split; [vm_compute; reflexivity|]. split; [vm_compute; reflexivity|]. done. Qed.

(** The allocation of a new transmission does not check that it has found [min_rbSize] contiguous
    free resource blocks: with the third resource block of the cell in use, a UE is given the first five, and the
    one in use is then marked as free. *)
Theorem blocked_rb_allocated :
  exists a' UE' UEs' remain used,
    let mask := [0x3fff; 0x3fff; 0; 0x3fff; 0x3fff; 0x3fff; 0x3fff; 0x3fff] in
    pf_dl_slice 0 (mk_alloc tt mask 7) [toy_ue 8 1 4 (-1) pdsch0] 8 (toy_slice 1 0 100) 7 = Done (a', UE' :: UEs', remain, used) /\
    rbStart (sched_pdsch UE') = 0 /\ rbSize (sched_pdsch UE') = 5 /\
    ~ is_free mask toy_slb 2 /\ is_free (rballoc_mask a') toy_slb 2.
Proof.
  eexists _, _, _, _, _. split; [vm_compute; reflexivity|]. do 2 (split; [reflexivity|]). split.
  - intros (m & Hm & E). vm_compute in Hm. injection Hm as <-. by vm_compute in E.
  - eexists. split; reflexivity.
Qed.

(** The count of free resource blocks is made for the symbols of this slot, retransmissions may use the
    fewer symbols of the slot of the first transmission: when other symbols of all resource blocks are in use, a
    retransmission makes the count negative, and the assertion PRB Violation ends the process. *)
Theorem retransmission_prb_violation :
  let mask := replicate 20 0x1f in
  free_count mask toy_slb = 0 /\
  dl_sched_unit 0 (mk_alloc tt mask (free_count mask toy_slb)) [toy_ue 20 1 0 0 toy_harq] 8 1
    [mk_SLsched 0 0 0 0 (toy_slice 1 0 100)] = Exit.
Proof. split; vm_compute; reflexivity. Qed.

(** ** A whole slot *)

Definition slot_ue (c : NR_UE_sched_ctrl_t) : NR_UE_info_t :=
  mk_ue c true false 0 (-1) 0 0 pdsch0 [pdsch0] 50 0 searchSpaceType_PR_ue_Specific false 1 0 0 0 0.
Definition slot_ue0 : NR_UE_info_t := slot_ue (example_ue 1 [mk_nssai 0 0; mk_nssai 1 2; mk_nssai 1 1; mk_nssai 1 2]).
Definition slot_ues : list NR_UE_info_t := [slot_ue (example_ue 2 [mk_nssai 0 0; mk_nssai 1 3])].
Definition slot_sched : list SLsched_t := replicate 4 (mk_SLsched 0 0 0 0 (toy_slice 0 0 0)).

Lemma slot_cell_ok : cell_ok example_slices (slot_ue0 :: slot_ues) (BWPSize slot_ue0).
Proof.
  split.
  - done.
  - change (NoDup [0; 1; 2; 3]). apply (bool_decide_unpack (NoDup [0; 1; 2; 3])). by vm_compute.
  - apply example_slices_ok.
  - repeat constructor; done.
  - repeat constructor; done.
  - repeat constructor.
  - change (slot_ue0 :: slot_ues) with (slot_ue <$> example_ues). apply Forall_fmap, Forall_true. intros c. split; [done|].
    split; [done|]. by repeat constructor.
  - change (slot_ue0 :: slot_ues) with (slot_ue <$> example_ues). apply Forall_fmap. exact example_ues_ok.
  - repeat constructor; intros _; vm_compute; lia.
Qed.

Lemma preprocessor_budget_witness :
  exists mask u,
    init_mask (replicate 50 0) toy_slb 0 (BWPSize slot_ue0) = Done (mask, free_count mask toy_slb) /\
    nr_fr1_dlsch_preprocessor id example_rlc example_slices 0 0 tt (replicate 50 0) (1, 12) 0 50 (slot_ue0 :: slot_ues) slot_sched
      = Done (Some u) /\
    sl_SL <$> u_sched u ≡ₚ example_slices /\ u_tot u = sum_min (u_sched u) /\ u_tot u <= free_count mask toy_slb /\
    Forall (fun e => 0 <= min_prbs e <= Z.max 0 (max_prbs e) /\
                     max_prbs e <= share (free_count mask toy_slb) (max_ratio (spolicy (sl_SL e)))) (u_sched u).
Proof.
  apply (preprocessor_budget (slb := toy_slb) id example_rlc example_slices 0 0 tt (replicate 50 0) (1, 12) 0 50 slot_ue0 slot_ues
    slot_sched); [done|reflexivity|exact slot_cell_ok|done|reflexivity|lia|vm_compute; congruence].
Defined.
