(* ===== verification/E2Agent.v ===== *)
(** The E2 agent: the messages of the near-RT RIC and what they read and write
    (openair2/E2_AGENT/e2_message_handlers.c, e2_agent_app.h).  The decoder of the messages
    (generated by protobuf-c) is a parameter. *)

From S2P Require Import Prelude SlicePolicy.

(** ** Messages *)

Inductive RANMessageType := SUBSCRIPTION | INDICATION_REQUEST | INDICATION_RESPONSE | CONTROL | OTHER_TYPE.

Inductive RANParameter := GNB_ID | SOMETHING | UE_LIST | MAX_PRB | USE_TRUE_GBR | SLICING_CONTROL | OTHER_PARAMETER.
#[export] Instance RANParameter_eq_dec : EqDecision RANParameter.
Proof. solve_decision. Defined.

(** The conversion of an integer to [float]: to 24 significant bits, to the nearest, of two as near to the even one.
    No integer of 64 bits is out of the range of the exponent. *)
Definition to_float (z : Z) : Z :=
  let e := Z.log2 (Z.abs z) - 23 in
  if e <=? 0 then z
  else
  let ulp := 2 ^ e in
  let q := Z.abs z / ulp in
  let r := Z.abs z mod ulp in
  let up := (2 * r >? ulp) || ((2 * r =? ulp) && Z.odd q) in
  Z.sgn z * ((if up then q + 1 else q) * ulp).

Section Agent.
(** Floats of the MAC and of the messages, and the conversion of one to [uint32_t] (undefined out of range). *)
Context {Fl : Type} (f_to_u32 : Fl -> outcome Z).

(** The fields of [UeInfoM] a control message sets, and those an indication reports.  A [float] the agent assigns from
    an integer is the integer it holds ([to_float]), a [float] it copies is of type [Fl]. *)
Record ue_control := mk_ue_control { uc_rnti : Z; tbs_dl_toapply : Fl; tbs_ul_toapply : Fl; uc_is_gbr : bool }.
Record ue_report := mk_ue_report {
  ur_rnti : Z;
  ur_is_gbr : bool;
  ur_tbs_avg_dl : Fl;
  ur_tbs_avg_ul : Fl;
  ur_dl_mac_buffer_occupation : Z;
  ur_avg_prbs_dl : Fl;
  ur_mcs : Z;
  ur_avg_tbs_per_prb_dl : Fl;
  ur_avg_rsrp : Z;
  ur_ph : Z;
  ur_pcmax : Z;
  ur_dl_total_bytes : Z;
  ur_dl_errors : Z;
  ur_dl_bler : Fl;
  ur_dl_mcs : Z;
  ur_ul_total_bytes : Z;
  ur_ul_errors : Z;
  ur_ul_bler : Fl;
  ur_ul_mcs : Z;
  ur_nssai_sst : Z;
  ur_nssai_sd : Z
}.

(** The value of an entry of a parameter map: one member of a union, or none. *)
Inductive param_value :=
| NOT_SET
| INT64_VALUE (z : Z)
| STRING_VALUE (s : list Z)
| UE_LIST_CONTROL (l : list ue_control)
| UE_LIST_REPORT (l : list ue_report)
| SLICING_VALUE (m : SlicingControlM).

Record RANParamMapEntry := mk_entry { key : RANParameter; value : param_value }.

(** [ran_indication_request] and [ran_control_request] are None when the message does not hold them. *)
Record RANMessage := mk_message {
  msg_type : RANMessageType;
  ran_indication_request : option (list RANParameter);
  ran_control_request : option (list RANParamMapEntry)
}.

(** ** State *)

(** The fields of a UE the agent reads or writes. *)
Record e2_ue := mk_e2_ue {
  e_rnti : Z;
  is_GBR : bool;
  guaranteed_tbs_bytes_dl : Z;
  guaranteed_tbs_bytes_ul : Z;
  avg_tbs_1s_dl : Fl;
  avg_tbs_1s_ul : Fl;
  e_num_total_bytes : Z;
  avg_prbs_dl : Fl;
  pdsch_mcs : Z;
  avg_tbs_per_prb_dl : Fl;
  num_rsrp_meas : Z;
  cumul_rsrp : Z;
  ph : Z;
  pcmax : Z;
  dl_total_bytes : Z;
  dl_errors : Z;
  dl_bler : Fl;
  dl_mcs : Z;
  ul_total_bytes : Z;
  ul_errors : Z;
  ul_bler : Fl;
  ul_mcs : Z;
  (** [dl_sl_info[4].nssai] *)
  lcid4_nssai : nssai_t
}.
#[export] Instance eta_e2_ue : Eta e2_ue := fun r =>
  mk_e2_ue (e_rnti r) (is_GBR r) (guaranteed_tbs_bytes_dl r) (guaranteed_tbs_bytes_ul r) (avg_tbs_1s_dl r) (avg_tbs_1s_ul r)
    (e_num_total_bytes r) (avg_prbs_dl r) (pdsch_mcs r) (avg_tbs_per_prb_dl r) (num_rsrp_meas r) (cumul_rsrp r) (ph r) (pcmax r)
    (dl_total_bytes r) (dl_errors r) (dl_bler r) (dl_mcs r) (ul_total_bytes r) (ul_errors r) (ul_bler r) (ul_mcs r) (lcid4_nssai r).

Record agent_t := mk_agent {
  gnb_id : Z;
  something : Z;
  max_prb : Z;
  true_gbr : Z;
  e2_UEs : list e2_ue;
  SL_info : NR_Slices_t;
  (** the indication responses sent *)
  sent : list (list RANParamMapEntry)
}.
#[export] Instance eta_agent : Eta agent_t := fun r =>
  mk_agent (gnb_id r) (something r) (max_prb r) (true_gbr r) (e2_UEs r) (SL_info r) (sent r).

(** ** Decimal strings *)

(** [sprintf(ret, "%d", i)], without the final zero. *)
Fixpoint dec (fuel : nat) (n : Z) (acc : list Z) : list Z :=
  match fuel with
  | O => acc
  | S fuel => let acc := (48 + n mod 10) :: acc in if n / 10 =? 0 then acc else dec fuel (n / 10) acc
  end.
Definition int_to_charray (i : Z) : list Z := if i <? 0 then 45 :: dec 10 (- i) [] else dec 10 i [].

Definition isspace (b : Z) : bool := (b =? 32) || ((9 <=? b) && (b <=? 13)).
Definition isdigit (b : Z) : bool := (48 <=? b) && (b <=? 57).
Fixpoint digits (acc : Z) (s : list Z) : Z :=
  match s with
  | [] => acc
  | b :: s => if isdigit b then digits (10 * acc + (b - 48)) s else acc
  end.
Fixpoint skip_spaces (s : list Z) : list Z :=
  match s with b :: s' => if isspace b then skip_spaces s' else s | [] => [] end.

Definition atoi_value (s : list Z) : Z :=
  match skip_spaces s with
  | b :: s' => if b =? 45 then - digits 0 s' else if b =? 43 then digits 0 s' else digits 0 (b :: s')
  | [] => 0
  end.

(** A value that is not an [int] is undefined. *)
Definition atoi (s : list Z) : outcome Z :=
  if (- 2 ^ 31 <=? atoi_value s) && (atoi_value s <? 2 ^ 31) then Done (atoi_value s) else Undef.

(** ** Reading *)

Definition ue_info_of (u : e2_ue) : ue_report :=
  let avg_rsrp := if num_rsrp_meas u >? 0 then Z.quot (cumul_rsrp u) (num_rsrp_meas u) else 0 in
  mk_ue_report (e_rnti u) (is_GBR u) (avg_tbs_1s_dl u) (avg_tbs_1s_ul u) (to_float (e_num_total_bytes u)) (avg_prbs_dl u)
    (pdsch_mcs u) (avg_tbs_per_prb_dl u) (to_float avg_rsrp) (to_float (ph u)) (to_float (pcmax u))
    (to_float (dl_total_bytes u)) (to_float (dl_errors u)) (dl_bler u) (to_float (dl_mcs u))
    (to_float (ul_total_bytes u)) (to_float (ul_errors u)) (ul_bler u) (to_float (ul_mcs u))
    (sst (lcid4_nssai u)) (sd (lcid4_nssai u)).

Definition get_ue_list (a : agent_t) : list ue_report := ue_info_of <$> e2_UEs a.

Definition ran_read (a : agent_t) (p : RANParameter) : outcome RANParamMapEntry :=
  match p with
  | GNB_ID => Done (mk_entry p (STRING_VALUE (int_to_charray (gnb_id a))))
  | SOMETHING => Done (mk_entry p (STRING_VALUE (int_to_charray (something a))))
  | UE_LIST => Done (mk_entry p (UE_LIST_REPORT (get_ue_list a)))
  | _ => Exit
  end.

Definition build_indication_response (a : agent_t) (m : RANMessage) : outcome agent_t :=
  match ran_indication_request m with
  | None => Undef
  | Some params => map ← mapM (ran_read a) params; Done (a <| sent ::= fun l => l ++ [map] |>)
  end.

Definition handle_indication_request (a : agent_t) (m : RANMessage) : outcome agent_t :=
  match ran_indication_request m with
  | None => Undef
  | Some _ => build_indication_response a m
  end.

(** ** Writing *)

(** The walk of the UEs up to the first with the RNTI. *)
Fixpoint set_gbr_ue (UEs : list e2_ue) (rnti : Z) (tbs_dl tbs_ul : Fl) (gbr : bool) : outcome (list e2_ue) :=
  match UEs with
  | [] => Done []
  | UE :: UEs =>
      if e_rnti UE =? rnti then
        dl ← f_to_u32 tbs_dl;
        ul ← f_to_u32 tbs_ul;
        Done (UE <| is_GBR := gbr |> <| guaranteed_tbs_bytes_dl := dl |> <| guaranteed_tbs_bytes_ul := ul |> :: UEs)
      else UEs ← set_gbr_ue UEs rnti tbs_dl tbs_ul gbr; Done (UE :: UEs)
  end.

Fixpoint apply_ue_info (UEs : list e2_ue) (l : list ue_control) : outcome (list e2_ue) :=
  match l with
  | [] => Done UEs
  | c :: l => UEs ← set_gbr_ue UEs (u16 (uc_rnti c)) (tbs_dl_toapply c) (tbs_ul_toapply c) (uc_is_gbr c); apply_ue_info UEs l
  end.

Definition apply_max_cell_prb (a : agent_t) (z : Z) : agent_t := a <| max_prb := z |>.
Definition apply_true_gbr (a : agent_t) (z : Z) : agent_t := a <| true_gbr := z |>.

(** A member of the union that is not the one set is not looked at before it is used. *)
Definition ran_write (a : agent_t) (e : RANParamMapEntry) : outcome agent_t :=
  match key e with
  | GNB_ID => match value e with STRING_VALUE s => z ← atoi s; Done (a <| gnb_id := z |>) | _ => Undef end
  | SOMETHING => match value e with STRING_VALUE s => z ← atoi s; Done (a <| something := z |>) | _ => Undef end
  | UE_LIST => match value e with
               | UE_LIST_CONTROL l => UEs ← apply_ue_info (e2_UEs a) l; Done (a <| e2_UEs := UEs |>)
               | _ => Undef
               end
  | MAX_PRB => match value e with INT64_VALUE z => Done (apply_max_cell_prb a (s32 z)) | _ => Undef end
  | USE_TRUE_GBR => match value e with INT64_VALUE z => Done (apply_true_gbr a (s32 z)) | _ => Undef end
  | SLICING_CONTROL => match value e with
                       | SLICING_VALUE m => l ← apply_slicing_ctrl (SL_info a) m; Done (a <| SL_info := l |>)
                       | _ => Undef
                       end
  | OTHER_PARAMETER => Done a
  end.

Fixpoint control_loop (a : agent_t) (l : list RANParamMapEntry) : outcome agent_t :=
  match l with
  | [] => Done a
  | e :: l => a ← ran_write a e; control_loop a l
  end.

Definition handle_control (a : agent_t) (m : RANMessage) : outcome agent_t :=
  match ran_control_request m with
  | None => Undef
  | Some l => control_loop a l
  end.

(** [assert(0 != 0)] *)
Definition handle_subscription (a : agent_t) (m : RANMessage) : outcome agent_t := Exit.

(** [unpack]: [ran_message__unpack], None when it returns NULL. *)
Definition handle_master_message (unpack : list Z -> option RANMessage) (a : agent_t) (buf : list Z) : outcome agent_t :=
  match unpack buf with
  | None => Done a
  | Some m =>
      match msg_type m with
      | SUBSCRIPTION => handle_subscription a m
      | INDICATION_REQUEST => handle_indication_request a m
      | INDICATION_RESPONSE => build_indication_response a m
      | CONTROL => handle_control a m
      | OTHER_TYPE => Done a
      end
  end.

(** The task: a datagram after the other. *)
Fixpoint e2_agent_task (unpack : list Z -> option RANMessage) (a : agent_t) (datagrams : list (list Z)) : outcome agent_t :=
  match datagrams with
  | [] => Done a
  | buf :: datagrams => a ← handle_master_message unpack a buf; e2_agent_task unpack a datagrams
  end.
End Agent.

(** ** Floats *)

(** What a [float] [f] tells of the integer [z]: the integer up to [2 ^ 24], above it a relative error of at most
    [2 ^ -24]. *)
Definition carries (f z : Z) : Prop := 2 ^ 24 * Z.abs (f - z) <= Z.abs z /\ (Z.abs z <= 2 ^ 24 -> f = z).

(** Rounding a non-negative integer to a multiple of [ulp]. *)
Lemma round_half_even n ulp : 0 <= n -> 0 < ulp ->
  let q := n / ulp in let r := n mod ulp in
  let up := (2 * r >? ulp) || ((2 * r =? ulp) && Z.odd q) in
  2 * Z.abs ((if up then q + 1 else q) * ulp - n) <= ulp.
Proof.
  intros Hn Hu q r up. pose proof (Z.div_mod n ulp ltac:(lia)) as E. fold q r in E.
  pose proof (Z.mod_pos_bound n ulp Hu) as B. fold r in B. subst up.
  destruct (2 * r >? ulp) eqn:E1; zbool; cbn [orb]; [nia|].
  destruct ((2 * r =? ulp) && Z.odd q) eqn:E2; zbool; nia.
Qed.

Lemma to_float_carries z : carries (to_float z) z.
Proof.
  unfold carries, to_float. set (e := Z.log2 (Z.abs z) - 23). destruct (e <=? 0) eqn:E; zbool.
  { rewrite Z.sub_diag. simpl. lia. }
  destruct (Z.log2_spec (Z.abs z)) as [L1 L2].
  { destruct (Z.eq_dec (Z.abs z) 0) as [E0|]; [|lia]. unfold e in E. rewrite E0 in E. by vm_compute in E. }
  replace (Z.log2 (Z.abs z)) with (e + 23) in L1, L2 by lia. pose proof (round_half_even (Z.abs z) (2 ^ e) ltac:(lia) ltac:(lia)) as R.
  cbv zeta in R |- *. set (m := if _ : bool then _ else _) in *.
  assert (Em : Z.abs (Z.sgn z * (m * 2 ^ e) - z) = Z.abs (m * 2 ^ e - Z.abs z)) by (destruct (Z.lt_trichotomy z 0) as [|[|]]; [|subst|];
    rewrite ?(Z.sgn_neg z), ?(Z.sgn_pos z) by lia; lia).
  rewrite Em. replace (2 ^ (e + 23)) with (2 ^ 23 * 2 ^ e) in L1 by (rewrite Z.pow_add_r by lia; lia).
  split; [change (2 ^ 24) with (2 ^ 23 * 2); nia|]. intros Hz.
  assert (Ee : e = 1). { destruct (Z.le_gt_cases e 1); [lia|]. pose proof (Z.pow_le_mono_r 2 2 e ltac:(lia) ltac:(lia)). lia. }
  assert (Ez : Z.abs z = 2 ^ 24) by (rewrite Ee in L1; lia). clear L1 L2 R Em. subst m. rewrite Ez, Ee. assert (Ezz : z = 2 ^ 24 \/ z = - 2 ^ 24) by lia. by destruct Ezz as [-> | ->].
Qed.

(** ** Decimal strings *)

Lemma dec_digits : forall fuel n acc, 0 <= n < 10 ^ Z.of_nat fuel -> (0 < fuel)%nat -> digits 0 (dec fuel n acc) = digits n acc.
Proof.
  induction fuel as [|fuel IH]; intros n acc Hn Hf; [lia|]. cbn [dec]. pose proof (Z.mod_pos_bound n 10 ltac:(lia)).
  pose proof (Z.div_mod n 10 ltac:(lia)).
  assert (Ed : isdigit (48 + n mod 10) = true) by (unfold isdigit; apply andb_true_iff; split; apply Z.leb_le; lia).
  destruct (n / 10 =? 0) eqn:E; zbool.
  - cbn [digits]. rewrite Ed. f_equal. lia.
  - destruct fuel as [|fuel]; [simpl in Hn; rewrite Z.div_small in E by lia; done|].
    rewrite IH; [| |lia].
    + cbn [digits]. rewrite Ed. f_equal. lia.
    + rewrite Nat2Z.inj_succ, Z.pow_succ_r in Hn by lia. split; [apply Z.div_pos; lia|]. apply Z.div_lt_upper_bound; lia.
Qed.

Lemma dec_head : forall fuel n acc, exists d r, dec (S fuel) n acc = d :: r /\ 48 <= d <= 57.
Proof.
  induction fuel as [|fuel IH]; intros n acc; cbn [dec]; pose proof (Z.mod_pos_bound n 10 ltac:(lia)).
  - eexists _, _. split; [by destruct (n / 10 =? 0)|lia].
  - destruct (n / 10 =? 0); [eexists _, _; split; [done|lia]|]. apply IH.
Qed.

Definition is_int (z : Z) : Prop := - 2 ^ 31 <= z < 2 ^ 31.

Lemma atoi_value_int_to_charray i : is_int i -> atoi_value (int_to_charray i) = i.
Proof.
  unfold is_int, atoi_value, int_to_charray. intros Hi. destruct (i <? 0) eqn:E; zbool.
  - cbn [skip_spaces]. change (isspace 45) with false. cbn match. change (45 =? 45) with true. cbn match.
    rewrite dec_digits by (simpl; lia). cbn [digits]. lia.
  - assert (Es : skip_spaces (dec 10 i []) = dec 10 i []).
    { destruct (dec_head 9 i []) as (d & r & -> & Hd). cbn [skip_spaces]. unfold isspace.
      destruct ((d =? 32) || _) eqn:Eb; [|done]. zbool. destruct Eb; zbool; lia. }
    rewrite Es. pose proof (dec_digits 10 i [] ltac:(simpl; lia) ltac:(lia)) as Ed. destruct (dec_head 9 i []) as (d & r & Eh & Hd).
    rewrite Eh in *. rewrite (proj2 (Z.eqb_neq d 45)), (proj2 (Z.eqb_neq d 43)) by lia. exact Ed.
Qed.

Lemma atoi_int_to_charray i : is_int i -> atoi (int_to_charray i) = Done i.
Proof.
  intros Hi. unfold atoi. rewrite atoi_value_int_to_charray by done. unfold is_int in Hi.
  destruct ((- 2 ^ 31 <=? i) && (i <? 2 ^ 31)) eqn:Eb; [done|]. zbool. destruct Eb; zbool; lia.
Qed.

(** ** Indications *)

Section Indications.
Context {Fl : Type} (f_to_u32 : Fl -> outcome Z) (unpack : list Z -> option (@RANMessage Fl)).

Definition readable (p : RANParameter) : bool := match p with GNB_ID | SOMETHING | UE_LIST => true | _ => false end.

(** What the entry of a UE tells of it. *)
Record ue_reported (u : @e2_ue Fl) (r : @ue_report Fl) : Prop := {
  rep_rnti : ur_rnti r = e_rnti u;
  rep_gbr : ur_is_gbr r = is_GBR u;
  rep_mcs : ur_mcs r = pdsch_mcs u;
  rep_nssai : mk_nssai (ur_nssai_sst r) (ur_nssai_sd r) = lcid4_nssai u;
  rep_tbs : ur_tbs_avg_dl r = avg_tbs_1s_dl u /\ ur_tbs_avg_ul r = avg_tbs_1s_ul u;
  rep_prbs : ur_avg_prbs_dl r = avg_prbs_dl u /\ ur_avg_tbs_per_prb_dl r = avg_tbs_per_prb_dl u;
  rep_bler : ur_dl_bler r = dl_bler u /\ ur_ul_bler r = ul_bler u;
  rep_buffer : carries (ur_dl_mac_buffer_occupation r) (e_num_total_bytes u);
  rep_rsrp : if num_rsrp_meas u >? 0 then carries (ur_avg_rsrp r) (Z.quot (cumul_rsrp u) (num_rsrp_meas u)) else ur_avg_rsrp r = 0;
  rep_power : carries (ur_ph r) (ph u) /\ carries (ur_pcmax r) (pcmax u);
  rep_dl : carries (ur_dl_total_bytes r) (dl_total_bytes u) /\ carries (ur_dl_errors r) (dl_errors u) /\ carries (ur_dl_mcs r) (dl_mcs u);
  rep_ul : carries (ur_ul_total_bytes r) (ul_total_bytes u) /\ carries (ur_ul_errors r) (ul_errors u) /\ carries (ur_ul_mcs r) (ul_mcs u)
}.

Lemma ue_info_reported (u : @e2_ue Fl) : ue_reported u (ue_info_of u).
Proof.
  split; unfold ue_info_of; cbn -[to_float]; try (done || apply to_float_carries);
    try (split_and!; done || apply to_float_carries).
  - by destruct (lcid4_nssai u).
  - destruct (num_rsrp_meas u >? 0); [apply to_float_carries|done].
Qed.

(** What an entry of a response tells. *)
Definition entry_faithful (a : @agent_t Fl) (e : @RANParamMapEntry Fl) : Prop :=
  match key e with
  | GNB_ID => exists s, value e = STRING_VALUE s /\ atoi s = Done (gnb_id a)
  | SOMETHING => exists s, value e = STRING_VALUE s /\ atoi s = Done (something a)
  | UE_LIST => exists l, value e = UE_LIST_REPORT l /\ Forall2 ue_reported (e2_UEs a) l
  | _ => False
  end.

(** C34. An indication request.  The response holds one entry for each parameter asked for, in the order of
    the request; the strings read back as the values they come from; the list of UEs has one entry for each UE, in order, with
    its identity, its slice and its floats as they are, and its integer counters and measurements as the floats of
    the message can hold them: exact up to 2^24, with a relative error of at most 2^-24 above.  The
    state of the gNB does not change.  A request for a parameter the agent cannot read ends the process. *)
Theorem indication_response_faithful (a : @agent_t Fl) (buf : list Z) (params : list RANParameter) (m : @RANMessage Fl) :
  unpack buf = Some m -> msg_type m = INDICATION_REQUEST -> ran_indication_request m = Some params ->
  is_int (gnb_id a) -> is_int (something a) ->
  if forallb readable params then
    exists map, handle_master_message f_to_u32 unpack a buf =
        Done (mk_agent (gnb_id a) (something a) (max_prb a) (true_gbr a) (e2_UEs a) (SL_info a) (sent a ++ [map])) /\
      key <$> map = params /\ Forall (entry_faithful a) map
  else handle_master_message f_to_u32 unpack a buf = Exit.
Proof.
  intros Em Et Er Hg Hs. unfold handle_master_message, handle_indication_request, build_indication_response. rewrite Em, Et, Er.
  assert (Hread : forall p, readable p = true -> exists e, ran_read a p = Done e /\ key e = p /\ entry_faithful a e).
  { intros p Hp. destruct p; try done; (eexists; split; [reflexivity|]; split; [done|]); unfold entry_faithful; cbn [key value].
    - eexists. split; [done|]. by apply atoi_int_to_charray.
    - eexists. split; [done|]. by apply atoi_int_to_charray.
    - eexists. split; [done|]. unfold get_ue_list. apply Forall2_fmap_r, Forall_Forall2_diag, Forall_true. exact ue_info_reported. }
  assert (Hexit : forall p, readable p = false -> ran_read a p = Exit) by (intros p; by destruct p).
  clear Er. assert (H : if forallb readable params
    then exists map, mapM (ran_read a) params = Done map /\ key <$> map = params /\ Forall (entry_faithful a) map
    else mapM (ran_read a) params = Exit).
  { induction params as [|p params IH]; simpl; [by exists []|]. destruct (readable p) eqn:Ep; simpl.
    - destruct (Hread p Ep) as (e & -> & Ek & Hf). simpl. destruct (forallb readable params).
      + destruct IH as (map & -> & Ekm & Hfm). exists (e :: map). split; [done|]. split; [by rewrite fmap_cons, Ek, Ekm|by constructor].
      + by rewrite IH.
    - by rewrite Hexit. }
  destruct (forallb readable params); [|by rewrite H]. destruct H as (map & -> & Hk & Hf). exists map. split; [|done].
  by destruct a.
Qed.
End Indications.

(** ** Control *)

Section Control.
Context {Fl : Type} (f_to_u32 : Fl -> outcome Z) (unpack : list Z -> option (@RANMessage Fl)).

Definition ue_control_ok (c : @ue_control Fl) : Prop :=
  (exists n, f_to_u32 (tbs_dl_toapply c) = Done n) /\ (exists n, f_to_u32 (tbs_ul_toapply c) = Done n).

(** An entry whose value is of the type its key asks for. *)
Definition entry_ok (e : @RANParamMapEntry Fl) : Prop :=
  match key e with
  | GNB_ID | SOMETHING => exists s z, value e = STRING_VALUE s /\ atoi s = Done z
  | UE_LIST => exists l, value e = UE_LIST_CONTROL l /\ Forall ue_control_ok l
  | MAX_PRB | USE_TRUE_GBR => exists z, value e = INT64_VALUE z
  | SLICING_CONTROL => exists m, value e = SLICING_VALUE m
  | OTHER_PARAMETER => True
  end.

(** A datagram of a peer that follows the protocol. *)
Definition datagram_ok (buf : list Z) : Prop :=
  match unpack buf with
  | None => True
  | Some m => match msg_type m with
              | SUBSCRIPTION | OTHER_TYPE => True
              | INDICATION_REQUEST | INDICATION_RESPONSE => ran_indication_request m <> None
              | CONTROL => exists l, ran_control_request m = Some l /\ Forall entry_ok l
              end
  end.

Record agent_ok (a0 a : @agent_t Fl) : Prop := {
  ok_gnb_id : is_int (gnb_id a);
  ok_something : is_int (something a);
  ok_rntis : e_rnti <$> e2_UEs a = e_rnti <$> e2_UEs a0;
  ok_slices : same_slices (SL_info a0) (SL_info a);
  ok_sum : sum_of min_ratio (SL_info a) mod 2 ^ 8 <= 100
}.

(** The outcome of an operation of the agent: it returns a good state or ends the process. *)
Definition safe (a0 : @agent_t Fl) (r : outcome (@agent_t Fl)) : Prop :=
  match r with Done a => agent_ok a0 a | Exit => True | Undef => False end.

Lemma set_gbr_ue_ok rnti dl ul gbr : (exists n, f_to_u32 dl = Done n) -> (exists n, f_to_u32 ul = Done n) -> forall UEs,
  exists UEs', set_gbr_ue f_to_u32 UEs rnti dl ul gbr = Done UEs' /\ e_rnti <$> UEs' = e_rnti <$> UEs.
Proof.
  intros [nd Hd] [nu Hu]. induction UEs as [|UE UEs (UEs' & E & IH)]; cbn [set_gbr_ue]; [by eexists|].
  destruct (e_rnti UE =? rnti).
  - rewrite Hd, Hu. eexists. split; [reflexivity|]. done.
  - rewrite E. eexists. split; [reflexivity|]. by rewrite !fmap_cons, IH.
Qed.

Lemma apply_ue_info_ok l : Forall ue_control_ok l -> forall UEs,
  exists UEs', apply_ue_info f_to_u32 UEs l = Done UEs' /\ e_rnti <$> UEs' = e_rnti <$> UEs.
Proof.
  induction 1 as [|c l [Hd Hu] _ IH]; intros UEs; cbn [apply_ue_info]; [by eexists|].
  destruct (set_gbr_ue_ok (u16 (uc_rnti c)) _ _ (uc_is_gbr c) Hd Hu UEs) as (UEs1 & -> & E1). cbn [mbind outcome_bind].
  destruct (IH UEs1) as (UEs2 & -> & E2). exists UEs2. split; [done|]. by rewrite E2.
Qed.

Lemma atoi_is_int s z : atoi s = Done z -> is_int z.
Proof. unfold atoi, is_int. cif_head; [|done]. intros [= <-]. zbool. lia. Qed.

Lemma apply_slicing_ctrl_safe l m : match apply_slicing_ctrl l m with
  | Done l' => same_slices l l' /\ sum_of min_ratio l' mod 2 ^ 8 <= 100
  | Exit => True
  | Undef => False
  end.
Proof.
  unfold apply_slicing_ctrl. change (match sc_sd m with Some sd => sd | None => 0xffffff end) with (default 0xffffff (sc_sd m)).
  rewrite slicing_ctrl_loop_eq by done. fold (slices_after l m). rewrite Z.add_0_l.
  destruct (u8 (sum_of min_ratio (slices_after l m)) >? 100) eqn:E; zbool; [done|]. split; [|exact E].
  apply same_slices_map. intros SL. unfold set_ratios. by destruct (nssai_is _ _ _).
Qed.

Lemma ran_write_safe a0 a e : agent_ok a0 a -> entry_ok e -> safe a0 (ran_write f_to_u32 a e).
Proof.
  intros [H1 H2 H3 H4 H5] He. unfold ran_write, entry_ok in *. destruct (key e).
  - destruct He as (s & z & -> & Ez). rewrite Ez. apply atoi_is_int in Ez. by split.
  - destruct He as (s & z & -> & Ez). rewrite Ez. apply atoi_is_int in Ez. by split.
  - destruct He as (l & -> & Hl). destruct (apply_ue_info_ok l Hl (e2_UEs a)) as (UEs' & -> & E). split; try done. cbn. congruence.
  - destruct He as (z & ->). by split.
  - destruct He as (z & ->). by split.
  - destruct He as (m & ->). pose proof (apply_slicing_ctrl_safe (SL_info a) m) as H.
    destruct (apply_slicing_ctrl (SL_info a) m) as [l'| |]; [|done|done]. destruct H as [Hs Hm].
    split; try done. cbn. by etransitivity.
  - by split.
Qed.

Lemma control_loop_safe a0 l : Forall entry_ok l -> forall a, agent_ok a0 a -> safe a0 (control_loop f_to_u32 a l).
Proof.
  induction 1 as [|e l He _ IH]; intros a Ha; cbn [control_loop]; [done|].
  pose proof (ran_write_safe a0 a e Ha He) as H. destruct (ran_write f_to_u32 a e) as [a1| |]; [by apply IH|done|done].
Qed.

Lemma build_indication_response_safe a0 a m : agent_ok a0 a -> ran_indication_request m <> None ->
  safe a0 (build_indication_response a m).
Proof.
  intros Ha Hm. unfold build_indication_response. destruct (ran_indication_request m) as [params|]; [|done].
  assert (H : mapM (ran_read a) params <> Undef).
  { clear. induction params as [|p params IH]; [done|]. simpl. destruct p; simpl; try done; by destruct (mapM (ran_read a) params). }
  destruct (mapM (ran_read a) params) as [map| |]; [|done|done]. destruct Ha. by split.
Qed.

(** C33. The agent under any sequence of datagrams of a peer that follows the protocol (decodable or
    not, control messages with any number of entries): nothing undefined happens; while the process lives,
    the integers stay [int]s, the UEs keep their RNTIs, the slices stay the same but for their policies,
    and the minimum ratios add up to at most 100, modulo 256. *)
Theorem e2_agent_safe (a0 : @agent_t Fl) (datagrams : list (list Z)) :
  agent_ok a0 a0 -> Forall datagram_ok datagrams -> safe a0 (e2_agent_task f_to_u32 unpack a0 datagrams).
Proof.
  intros H F. cut (forall a, agent_ok a0 a -> safe a0 (e2_agent_task f_to_u32 unpack a datagrams)); [by auto|]. clear H.
  induction F as [|buf l Hb _ IH]; intros a Ha; cbn [e2_agent_task]; [done|].
  assert (Hs : safe a0 (handle_master_message f_to_u32 unpack a buf)).
  { unfold handle_master_message, datagram_ok in *. destruct (unpack buf) as [m|]; [|done]. destruct (msg_type m); try done.
    - unfold handle_indication_request. pose proof (build_indication_response_safe a0 a m Ha Hb).
      by destruct (ran_indication_request m).
    - by apply build_indication_response_safe.
    - destruct Hb as (es & E & Fe). unfold handle_control. rewrite E. by apply control_loop_safe. }
  destruct (handle_master_message f_to_u32 unpack a buf) as [a1| |]; [by apply IH|done|done].
Qed.
End Control.

(** ** Datagrams that end the process *)

Definition toy_agent : @agent_t Z := mk_agent 7 0 (-1) 0 [] [mk_slice 0 (mk_nssai 0 0) (mk_policy 0 0 100)] [].
Definition toy_f_to_u32 (z : Z) : outcome Z := if (0 <=? z) && (z <? 2 ^ 32) then Done z else Undef.
(** A decoder that knows four messages. *)
Definition toy_unpack (buf : list Z) : option (@RANMessage Z) :=
  match buf with
  | [0] => Some (mk_message SUBSCRIPTION None None)
  | [1] => Some (mk_message INDICATION_REQUEST (Some [GNB_ID; MAX_PRB]) None)
  | [2] => Some (mk_message INDICATION_RESPONSE None None)
  | [3] => Some (mk_message CONTROL None (Some [mk_entry SLICING_CONTROL NOT_SET]))
  | [4] => Some (mk_message INDICATION_REQUEST (Some [GNB_ID; UE_LIST]) None)
  | [5] => Some (mk_message CONTROL None (Some [mk_entry MAX_PRB (INT64_VALUE 50);
                   mk_entry SLICING_CONTROL (SLICING_VALUE (mk_ctrl_msg 0 (Some 0) 30 60))]))
  | _ => None
  end.

(** The agent does not survive a single datagram that it can decode but does not expect: a subscription or
    a request for the maximum number of PRBs (which a control message can write) fails an assertion; an
    indication response, or a control entry without a value, makes it use a member of the message that is not there. *)
Theorem e2_agent_fragile :
  e2_agent_task toy_f_to_u32 toy_unpack toy_agent [[0]] = Exit /\
  e2_agent_task toy_f_to_u32 toy_unpack toy_agent [[1]] = Exit /\
  e2_agent_task toy_f_to_u32 toy_unpack toy_agent [[2]] = Undef /\
  e2_agent_task toy_f_to_u32 toy_unpack toy_agent [[3]] = Undef.
Proof. done. Qed.

(** A UE that has been sent 16 MiB and one byte: the report says 16 MiB. *)
Definition toy_e2_ue : @e2_ue Z :=
  mk_e2_ue 100 false 0 0 0 0 300 0 9 0 2 (-181) 5 20 (2 ^ 24 + 1) 0 0 9 1000 0 0 9 (mk_nssai 1 2).
Definition busy_agent : @agent_t Z := toy_agent <| e2_UEs := [toy_e2_ue] |>.

Theorem report_rounds_bytes :
  dl_total_bytes toy_e2_ue = 16777217 /\ ur_dl_total_bytes (ue_info_of toy_e2_ue) = 16777216 /\
  ur_dl_total_bytes (ue_info_of (toy_e2_ue <| dl_total_bytes := 2 ^ 24 + 3 |>)) = 2 ^ 24 + 4.
Proof. done. Qed.

Lemma indication_response_faithful_witness :
  exists map, handle_master_message toy_f_to_u32 toy_unpack busy_agent [4] =
      Done (mk_agent 7 0 (-1) 0 [toy_e2_ue] (SL_info toy_agent) [map]) /\
    key <$> map = [GNB_ID; UE_LIST] /\ Forall (entry_faithful busy_agent) map.
Proof.
  apply (indication_response_faithful toy_f_to_u32 toy_unpack busy_agent [4] [GNB_ID; UE_LIST]
    (mk_message INDICATION_REQUEST (Some [GNB_ID; UE_LIST]) None)); done.
Defined.

Lemma e2_agent_safe_witness : safe toy_agent (e2_agent_task toy_f_to_u32 toy_unpack toy_agent [[4]; [9]; [5]]).
Proof.
  apply (e2_agent_safe toy_f_to_u32 toy_unpack toy_agent [[4]; [9]; [5]]).
  - split; done.
  - repeat constructor; try done. eexists. split; [reflexivity|]. repeat constructor; by eexists.
Defined.
