(* ===== verification/NrList.v ===== *)
(** The lists of identifiers of the MAC (HARQ processes): [NR_list_t] of
    openair2/LAYER2/NR_MAC_gNB/nr_mac_gNB.h and its operations (gNB_scheduler_primitives.c), a linked
    list in an array.  They implement lists without duplicates. *)

From S2P Require Import Prelude.

Record NR_list_t := mk_list { head : Z; next : list Z; tail : Z; len : Z }.
#[export] Instance eta_list : Eta NR_list_t := fun r => mk_list (head r) (next r) (tail r) (len r).

(** ** Operations *)

Definition create_nr_list (n : Z) : NR_list_t := mk_list (-1) (replicate (Z.to_nat n) (-1)) (-1) n.

Definition resize_nr_list (l : NR_list_t) (new_len : Z) : outcome NR_list_t :=
  if new_len =? len l then Done l
  else if new_len >? len l then
    Done (l <| next ::= fun n => n ++ replicate (Z.to_nat (new_len - len l)) (-1) |> <| len := new_len |>)
  else if negb (head l <? new_len) then Exit
  else if negb (tail l <? new_len) then Exit
  else if negb (forallb (fun n => n <? new_len) (next l)) then Exit
  else Done (l <| next ::= take (Z.to_nat new_len) |> <| len := new_len |>).

(** [&list->head] or [&list->next[i]] *)
Inductive cell := Head | Next (i : Z).
Definition get_cell (l : NR_list_t) (c : cell) : outcome Z :=
  match c with Head => Done (head l) | Next i => rd (next l) i end.
Definition set_cell (l : NR_list_t) (c : cell) (v : Z) : outcome NR_list_t :=
  match c with
  | Head => Done (l <| head := v |>)
  | Next i => n ← wr (next l) i v; Done (l <| next := n |>)
  end.

(** The walk to the end; an id already there fails the assertion. *)
Fixpoint find_end (fuel : nat) (l : NR_list_t) (cur : cell) (id : Z) : outcome cell :=
  v ← get_cell l cur;
  if v >=? 0 then
    if negb (negb (v =? id)) then Exit
    else match fuel with O => Undef | S fuel => find_end fuel l (Next v) id end
  else Done cur.

Definition add_nr_list (l : NR_list_t) (id : Z) : outcome NR_list_t :=
  cur ← find_end (S (length (next l))) l Head id;
  l ← set_cell l cur id;
  n ← rd (next l) id;
  Done (if n <? 0 then l <| tail := id |> else l).

(** The walk to the cell that holds [id] or -1: [prev] and [cur]. *)
Fixpoint find_id (fuel : nat) (l : NR_list_t) (prev cur : cell) (id : Z) : outcome (cell * cell) :=
  v ← get_cell l cur;
  if negb (v =? -1) && negb (v =? id)
  then match fuel with O => Undef | S fuel => find_id fuel l cur (Next v) id end
  else Done (prev, cur).

Definition remove_nr_list (l : NR_list_t) (id : Z) : outcome NR_list_t :=
  '(prev, cur) ← find_id (S (length (next l))) l Head Head id;
  v ← get_cell l cur;
  if negb (negb (v =? -1)) then Exit
  else
    n ← rd (next l) v;
    l ← set_cell l cur n;
    l ← set_cell l (Next v) (-1);
    p ← get_cell l prev;
    if p >=? 0
    then np ← rd (next l) p; Done (if np >=? 0 then l else l <| tail := p |>)
    else Done (l <| tail := p |>).

Definition add_tail_nr_list (l : NR_list_t) (id : Z) : outcome NR_list_t :=
  l ← set_cell l (if tail l <? 0 then Head else Next (tail l)) id;
  l ← set_cell l (Next id) (-1);
  Done (l <| tail := id |>).

Definition add_front_nr_list (l : NR_list_t) (id : Z) : outcome NR_list_t :=
  let ohead := head l in
  l ← set_cell (l <| head := id |>) (Next id) ohead;
  Done (if tail l <? 0 then l <| tail := id |> else l).

Definition remove_front_nr_list (l : NR_list_t) : outcome NR_list_t :=
  if negb (head l >=? 0) then Exit
  else
    let ohead := head l in
    n ← rd (next l) ohead;
    let l := l <| head := n |> in
    l ← set_cell l (Next ohead) (-1);
    Done (if head l <? 0 then l <| tail := -1 |> else l).

(** ** What a list represents *)

(** From [h] on the array links the identifiers [s], and the last link is [e]. *)
Fixpoint seg (n : list Z) (h : Z) (s : list Z) (e : Z) : Prop :=
  match s with
  | [] => h = e
  | x :: s => h = x /\ 0 <= x /\ exists h', n !! Z.to_nat x = Some h' /\ seg n h' s e
  end.

Record represents (l : NR_list_t) (s : list Z) : Prop := {
  rep_len : Z.of_nat (length (next l)) = len l;
  rep_nodup : NoDup s;
  rep_seg : seg (next l) (head l) s (-1);
  rep_tail : tail l = default (-1) (last s);
  rep_out : forall i, 0 <= i < len l -> i ∉ s -> next l !! Z.to_nat i = Some (-1)
}.

(** ** The specification: lists without duplicates of identifiers below a bound *)

Inductive list_op := Resize (n : Z) | Add (id : Z) | Remove (id : Z) | AddTail (id : Z) | AddFront (id : Z) | RemoveFront.

Definition run_op (l : NR_list_t) (o : list_op) : outcome NR_list_t :=
  match o with
  | Resize n => resize_nr_list l n
  | Add id => add_nr_list l id
  | Remove id => remove_nr_list l id
  | AddTail id => add_tail_nr_list l id
  | AddFront id => add_front_nr_list l id
  | RemoveFront => remove_front_nr_list l
  end.

(** What the callers respect: identifiers are below the bound, and the operations that do not look are not given an
    identifier of the list. *)
Definition allowed_op (bound : Z) (s : list Z) (o : list_op) : Prop :=
  match o with
  | Resize n => 0 <= n
  | Add id => 0 <= id < bound
  | Remove id => 0 <= id
  | AddTail id | AddFront id => 0 <= id < bound /\ id ∉ s
  | RemoveFront => True
  end.

Definition spec_op (bound : Z) (s : list Z) (o : list_op) : outcome (Z * list Z) :=
  match o with
  | Resize n => if forallb (fun x => x <? n) s then Done (n, s) else Exit
  | Add id => if bool_decide (id ∈ s) then Exit else Done (bound, s ++ [id])
  | Remove id => if bool_decide (id ∈ s) then Done (bound, filter (fun x => x <> id) s) else Exit
  | AddTail id => Done (bound, s ++ [id])
  | AddFront id => Done (bound, id :: s)
  | RemoveFront => match s with [] => Exit | _ :: s => Done (bound, s) end
  end.

Fixpoint run_ops (l : NR_list_t) (os : list list_op) : outcome NR_list_t :=
  match os with [] => Done l | o :: os => l ← run_op l o; run_ops l os end.
Fixpoint spec_ops (b : Z) (s : list Z) (os : list list_op) : outcome (Z * list Z) :=
  match os with [] => Done (b, s) | o :: os => '(b, s) ← spec_op b s o; spec_ops b s os end.
Fixpoint allowed_ops (b : Z) (s : list Z) (os : list list_op) : Prop :=
  match os with
  | [] => True
  | o :: os => allowed_op b s o /\ forall b' s', spec_op b s o = Done (b', s') -> allowed_ops b' s' os
  end.

(** ** Segments *)

Lemma seg_app n h s1 s2 e : seg n h (s1 ++ s2) e <-> exists m, seg n h s1 m /\ seg n m s2 e.
Proof.
  revert h. induction s1 as [|x s1 IH]; intros h; simpl; [naive_solver|]. setoid_rewrite IH. naive_solver.
Qed.

Lemma seg_ext n n' h s e :
  (forall i, i ∈ s -> n' !! Z.to_nat i = n !! Z.to_nat i) -> seg n h s e -> seg n' h s e.
Proof.
  revert h. induction s as [|x s IH]; intros h E; simpl; [done|]. intros (-> & Hx & h' & Hn & Hs).
  split_and!; [done..|]. exists h'. rewrite E by set_solver. split; [done|]. apply IH; [set_solver|done].
Qed.

Lemma seg_bound n h s e : seg n h s e -> forall i, i ∈ s -> 0 <= i < Z.of_nat (length n).
Proof.
  revert h. induction s as [|x s IH]; intros h; simpl; [set_solver|]. intros (-> & Hx & h' & Hn & Hs) i.
  rewrite elem_of_cons. intros [->|Hi]; [apply lookup_lt_Some in Hn; lia|eauto].
Qed.

Lemma insert_other (n : list Z) i j v : 0 <= i -> 0 <= j -> i <> j -> <[Z.to_nat j := v]> n !! Z.to_nat i = n !! Z.to_nat i.
Proof. intros. apply list_lookup_insert_ne. lia. Qed.

Lemma seg_insert n h s e i v : 0 <= i -> i ∉ s -> seg n h s e -> seg (<[Z.to_nat i := v]> n) h s e.
Proof.
  intros Hi Hn Hs. eapply seg_ext; [|done]. intros j Hj. apply insert_other; [|done|set_solver].
  eapply seg_bound in Hs as [? ?]; done.
Qed.

(** The cell that holds the end of the segment [s] from the head. *)
Definition last_cell (s : list Z) : cell := match last s with None => Head | Some x => Next x end.

Lemma last_cell_snoc s x : last_cell (s ++ [x]) = Next x.
Proof. unfold last_cell. by rewrite last_snoc. Qed.

Lemma get_last_cell l s e : seg (next l) (head l) s e -> get_cell l (last_cell s) = Done e.
Proof.
  destruct s as [|x s _] using rev_ind; [by intros <-|]. rewrite last_cell_snoc.
  intros (m & _ & -> & Hx & h & Hn & <-)%seg_app. simpl. by apply rd_done.
Qed.

(** Writing that cell changes the end of the segment and nothing else. *)
Lemma set_last_cell l s e v :
  NoDup s -> seg (next l) (head l) s e ->
  exists l', set_cell l (last_cell s) v = Done l' /\ seg (next l') (head l') s v /\
    tail l' = tail l /\ len l' = len l /\ length (next l') = length (next l) /\
    (forall i, 0 <= i -> i ∉ s -> next l' !! Z.to_nat i = next l !! Z.to_nat i).
Proof.
  destruct s as [|x s _] using rev_ind; intros Hd Hs.
  { eexists. split; [done|]. done. }
  rewrite last_cell_snoc. pose proof (seg_bound _ _ _ _ Hs x ltac:(set_solver)) as Hb.
  apply seg_app in Hs as (m & Hs & -> & Hx & h & Hn & <-).
  apply NoDup_app in Hd as (Hd & Hdx & _). assert (x ∉ s) by set_solver.
  simpl. rewrite wr_done by done. simpl. eexists. split; [done|]. simpl.
  split_and!; [|done|done|by rewrite length_insert|].
  - apply seg_app. exists x. split; [by apply seg_insert|]. simpl. split_and!; [done..|].
    exists v. split; [|done]. apply list_lookup_insert_eq. lia.
  - intros i Hi Hni. apply insert_other; [done|done|set_solver].
Qed.

Lemma rep_bound l s : represents l s -> forall i, i ∈ s -> 0 <= i < len l.
Proof. intros R i Hi. rewrite <- (rep_len _ _ R). eapply seg_bound; [apply R|done]. Qed.

Lemma nodup_length (s : list Z) n : NoDup s -> (forall i, i ∈ s -> 0 <= i < Z.of_nat n) -> (length s <= n)%nat.
Proof.
  intros Hd Hb. rewrite <- (length_fmap Z.to_nat), <- (length_seq n 0). apply submseteq_length, NoDup_submseteq.
  - apply NoDup_fmap_2_strong; [|done]. intros x y Hx%Hb Hy%Hb. lia.
  - intros i (x & -> & Hx%Hb)%list_elem_of_fmap. apply elem_of_seq. lia.
Qed.

Lemma rep_length l s : represents l s -> (length s <= length (next l))%nat.
Proof. intros R. apply nodup_length; [apply R|]. rewrite (rep_len _ _ R). by apply rep_bound. Qed.

(** ** The walks *)

Lemma find_end_done fuel l s1 s2 id :
  seg (next l) (head l) (s1 ++ s2) (-1) -> id ∉ s2 -> (length s2 <= fuel)%nat ->
  find_end fuel l (last_cell s1) id = Done (last_cell (s1 ++ s2)).
Proof.
  revert fuel s1. induction s2 as [|x s2 IH]; intros fuel s1 Hs Hid Hf.
  all: apply seg_app in Hs as Hs'; destruct Hs' as (m & H1 & H2).
  all: destruct fuel; simpl in *; try lia; rewrite (get_last_cell _ _ m H1); simpl.
  1,2: subst m; by rewrite app_nil_r.
  destruct H2 as (-> & Hx & _). cif; zbool; [|lia]. cif; zbool; [set_solver|].
  rewrite <- last_cell_snoc with (s := s1), (IH fuel); [by rewrite <- app_assoc| |set_solver|lia].
  by rewrite <- app_assoc.
Qed.

Lemma find_end_exit fuel l s1 s2 id :
  seg (next l) (head l) (s1 ++ s2) (-1) -> id ∈ s2 -> (length s2 <= fuel)%nat ->
  find_end fuel l (last_cell s1) id = Exit.
Proof.
  revert fuel s1. induction s2 as [|x s2 IH]; intros fuel s1 Hs Hid Hf; [set_solver|].
  apply seg_app in Hs as Hs'; destruct Hs' as (m & H1 & -> & Hx & _).
  destruct fuel; simpl in *; [lia|]. rewrite (get_last_cell _ _ x H1). simpl. cif; zbool; [|lia].
  cif; zbool; [done|]. rewrite <- last_cell_snoc with (s := s1). apply IH; [by rewrite <- app_assoc|set_solver|lia].
Qed.

(** The walk to [id]: [before s] is the cell that precedes the last one (the head for a segment of at most one). *)
Definition before (s : list Z) : cell := last_cell (take (pred (length s)) s).

Lemma before_snoc s x : before (s ++ [x]) = last_cell s.
Proof. unfold before. rewrite length_app, Nat.add_1_r. simpl. by rewrite take_app_length. Qed.

Lemma find_id_done fuel l s1 s2 s3 id :
  seg (next l) (head l) (s1 ++ s2 ++ s3) (-1) -> id ∉ s2 -> 0 <= id ->
  match s3 with [] => True | x :: _ => x = id end -> (length s2 <= fuel)%nat ->
  find_id fuel l (before s1) (last_cell s1) id = Done (before (s1 ++ s2), last_cell (s1 ++ s2)).
Proof.
  intros Hs Hid H0 H3. revert fuel s1 Hs. induction s2 as [|x s2 IH]; intros fuel s1 Hs Hf.
  all: apply seg_app in Hs as Hs'; destruct Hs' as (m & H1 & H2).
  all: destruct fuel; simpl in *; try lia; rewrite (get_last_cell _ _ m H1); simpl.
  1,2: rewrite app_nil_r; destruct s3 as [|y s3]; simpl in H2; [subst m; done|]; destruct H2 as (-> & _); subst y;
       rewrite (Z.eqb_refl id), andb_false_r; done.
  destruct H2 as (-> & Hx & _). assert (x <> id) by set_solver.
  cif; zbool; [|destruct_or?; lia].
  specialize (IH ltac:(set_solver) fuel (s1 ++ [x])). rewrite before_snoc, last_cell_snoc, <- !app_assoc in IH.
  apply IH; [done|lia].
Qed.

(** ** Every operation implements its specification *)

Definition refines_op (r : outcome NR_list_t) (sp : outcome (Z * list Z)) : Prop :=
  match sp with
  | Done (b, s) => exists l, r = Done l /\ represents l s /\ len l = b
  | Exit => r = Exit
  | Undef => False
  end.

Lemma add_tail_rep l s id :
  represents l s -> 0 <= id < len l -> id ∉ s ->
  exists l', set_cell l (last_cell s) id = Done l' /\ seg (next l') (head l') (s ++ [id]) (-1) /\ tail l' = tail l /\
    next l' !! Z.to_nat id = Some (-1) /\ represents (l' <| tail := id |>) (s ++ [id]) /\ len l' = len l.
Proof.
  intros R Hid Hn.
  destruct (set_last_cell l s (-1) id (rep_nodup _ _ R) (rep_seg _ _ R)) as (l' & E & Hs & Ht & Hl & Hlen & Ho).
  assert (Hnid : next l' !! Z.to_nat id = Some (-1)) by (rewrite Ho by (lia || done); apply R; [lia|done]).
  assert (Hs' : seg (next l') (head l') (s ++ [id]) (-1)).
  { apply seg_app. exists id. split; [done|]. simpl. split_and!; [done|lia|]. by exists (-1). }
  exists l'. split_and!; [done..| |done]. split; simpl.
  - rewrite Hlen, Hl. apply R.
  - apply NoDup_app. split_and!; [apply R|set_solver|apply NoDup_singleton].
  - done.
  - by rewrite last_snoc.
  - intros i Hi Hi'. rewrite Ho by (lia || set_solver). apply R; [lia|set_solver].
Qed.

Lemma add_ok l s id :
  represents l s -> 0 <= id < len l -> refines_op (add_nr_list l id) (spec_op (len l) s (Add id)).
Proof.
  intros R Hid. pose proof (rep_length _ _ R). unfold add_nr_list. simpl spec_op.
  change Head with (last_cell []). case_bool_decide as Hin.
  - rewrite (find_end_exit _ l [] s id); [done|apply R|done|lia].
  - rewrite (find_end_done _ l [] s id); [|apply R|done|lia]. simpl.
    destruct (add_tail_rep l s id R Hid Hin) as (l' & E & Hs & Ht & Hnid & R' & Hl). rewrite E. simpl.
    rewrite (rd_done _ _ (-1)) by (done || lia). simpl. eauto.
Qed.

Lemma tail_cell l s : represents l s -> (if tail l <? 0 then Head else Next (tail l)) = last_cell s.
Proof.
  intros R. pose proof (rep_bound _ _ R) as Hb. rewrite (rep_tail _ _ R).
  destruct s as [|x s _] using rev_ind; [done|].
  rewrite last_snoc, last_cell_snoc. simpl. specialize (Hb x ltac:(set_solver)). cif; zbool; [lia|done].
Qed.

Lemma insert_same (n : list Z) i v : n !! Z.to_nat i = Some v -> <[Z.to_nat i := v]> n = n.
Proof. apply list_insert_id. Qed.

Lemma add_tail_ok l s id :
  represents l s -> 0 <= id < len l -> id ∉ s -> refines_op (add_tail_nr_list l id) (spec_op (len l) s (AddTail id)).
Proof.
  intros R Hid Hn. unfold add_tail_nr_list. rewrite (tail_cell l s R).
  destruct (add_tail_rep l s id R Hid Hn) as (l' & E & Hs & Ht & Hnid & R' & Hl). rewrite E. simpl.
  rewrite wr_done by (split; [lia|]; apply lookup_lt_Some in Hnid; lia). simpl. rewrite insert_same by done.
  exists (l' <| tail := id |>). destruct l'; done.
Qed.

Lemma add_front_ok l s id :
  represents l s -> 0 <= id < len l -> id ∉ s -> refines_op (add_front_nr_list l id) (spec_op (len l) s (AddFront id)).
Proof.
  intros R Hid Hn. unfold add_front_nr_list. simpl. pose proof (rep_len _ _ R) as Hl.
  rewrite wr_done by lia. simpl. eexists. split; [done|]. pose proof (rep_tail _ _ R) as Ht.
  assert (Hse : seg (<[Z.to_nat id := head l]> (next l)) id (id :: s) (-1)).
  { simpl. split_and!; [done|lia|]. exists (head l).
    split; [apply list_lookup_insert_eq; lia|]. apply seg_insert; [lia|done|apply R]. }
  assert (Hta : (if tail l <? 0 then id else tail l) = default (-1) (last (id :: s))).
  { rewrite Ht, last_cons. destruct (last s) as [y|] eqn:El; [|done]. simpl.
    apply last_Some_elem_of in El. apply (rep_bound _ _ R) in El. cif; zbool; [lia|done]. }
  assert (Ho : forall i, 0 <= i < len l -> i ∉ id :: s -> <[Z.to_nat id := head l]> (next l) !! Z.to_nat i = Some (-1)).
  { intros i Hi Hi'. rewrite insert_other by (lia || set_solver). apply R; [lia|set_solver]. }
  assert (Hd : NoDup (id :: s)) by (apply NoDup_cons; split; [done|apply R]).
  destruct (tail l <? 0); (split; [|done]); split; simpl; rewrite ?length_insert; done.
Qed.

Lemma remove_front_ok l s : represents l s -> refines_op (remove_front_nr_list l) (spec_op (len l) s RemoveFront).
Proof.
  intros R. unfold remove_front_nr_list. pose proof (rep_seg _ _ R) as Hs. destruct s as [|x s]; simpl in *.
  { rewrite Hs. done. }
  destruct Hs as (Hh & Hx & h & Hn & Hs). rewrite Hh. cif; zbool; [lia|].
  rewrite (rd_done _ _ h) by done. simpl. pose proof (rep_bound _ _ R x ltac:(set_solver)) as Hb.
  pose proof (rep_len _ _ R) as Hl. rewrite wr_done by lia. simpl. eexists. split; [done|].
  pose proof (rep_nodup _ _ R) as Hd. apply NoDup_cons in Hd as [Hxs Hd].
  assert (Hse : seg (<[Z.to_nat x := -1]> (next l)) h s (-1)) by (by apply seg_insert).
  assert (Ho : forall i, 0 <= i < len l -> i ∉ s -> <[Z.to_nat x := -1]> (next l) !! Z.to_nat i = Some (-1)).
  { intros i Hi Hi'. destruct (decide (i = x)) as [->|]; [apply list_lookup_insert_eq; lia|].
    rewrite insert_other by lia. apply R; [lia|set_solver]. }
  assert (Hta : (if h <? 0 then -1 else tail l) = default (-1) (last s)).
  { rewrite (rep_tail _ _ R), last_cons. destruct s as [|y s]; simpl in Hs; [by rewrite Hs|].
    destruct Hs as (-> & Hy & _). cif; zbool; [lia|]. destruct (last (y :: s)) eqn:El; [done|].
    by apply last_None in El. }
  destruct (h <? 0); (split; [|done]); split; simpl; rewrite ?length_insert; done.
Qed.

(** The new tail, read from the cell [prev]. *)
Definition new_tail (l : NR_list_t) (prev : cell) : outcome NR_list_t :=
  p ← get_cell l prev;
  if p >=? 0
  then np ← rd (next l) p; Done (if np >=? 0 then l else l <| tail := p |>)
  else Done (l <| tail := p |>).

Lemma last_app_r {A} (a b : list A) : b <> [] -> last (a ++ b) = last b.
Proof. intros Hb. rewrite last_app. destruct (last b) eqn:E; [done|]. by apply last_None in E. Qed.

Lemma new_tail_ok l s1 s2 t :
  seg (next l) (head l) (s1 ++ s2) (-1) -> (s2 <> [] -> tail l = default t (last s2)) ->
  new_tail l (before s1) = Done (l <| tail := default (-1) (last (s1 ++ s2)) |>).
Proof.
  intros Hs Ht.
  assert (exists p, get_cell l (before s1) = Done p /\
            (s1 ++ s2 = [] /\ p = -1 \/
             exists q0 q1, s1 ++ s2 = q0 ++ p :: q1 /\ (q1 <> [] -> s2 <> [] /\ last q1 = last s2))) as (p & Ep & Hp).
  { destruct s1 as [|x s1 _] using rev_ind.
    - exists (head l). split; [done|]. destruct s2 as [|y s2]; [left; split; [done|]; by apply Hs|right].
      destruct Hs as (-> & _). exists [], s2. split; [done|]. intros Hq. split; [done|].
      by rewrite <- (last_app_r [y] s2).
    - rewrite before_snoc. exists x. rewrite <- app_assoc in Hs. apply seg_app in Hs as (m & Hs & -> & _).
      split; [by apply get_last_cell|]. right. exists s1, s2. by rewrite <- app_assoc. }
  unfold new_tail. rewrite Ep. simpl. destruct Hp as [[Eq ->]|(q0 & q1 & Eq & Hq)]; rewrite Eq in *.
  - done.
  - apply seg_app in Hs as (m & _ & -> & Hp & h & Hn & Hs). cif; zbool; [|lia].
    rewrite (rd_done _ _ h) by done. simpl. rewrite (last_app_r q0) by done. destruct q1 as [|y q1]; simpl in Hs.
    + rewrite Hs. done.
    + destruct Hs as (-> & Hy & _). cif; zbool; [|lia]. destruct (Hq ltac:(done)) as [Hs2 El].
      change (p :: y :: q1) with ([p] ++ y :: q1). rewrite (last_app_r [p]), El by done. destruct (last s2) eqn:E2; [|by apply last_None in E2].
      f_equal. specialize (Ht Hs2). simpl in Ht. destruct l; simpl in *; by subst.
Qed.

Lemma filter_ne_absent (s : list Z) id : id ∉ s -> filter (fun x => x <> id) s = s.
Proof.
  induction s as [|x s IH]; intros Hn; [done|]. rewrite filter_cons_True by set_solver. f_equal. apply IH. set_solver.
Qed.

Lemma filter_ne_middle (s1 s2 : list Z) id :
  NoDup (s1 ++ id :: s2) -> filter (fun x => x <> id) (s1 ++ id :: s2) = s1 ++ s2.
Proof.
  intros Hd. apply NoDup_app in Hd as (_ & H1 & H2). apply NoDup_cons in H2 as [H2 _].
  rewrite filter_app, filter_cons_False by (intros []; done).
  rewrite !filter_ne_absent by set_solver. done.
Qed.

Lemma remove_ok l s id : represents l s -> 0 <= id -> refines_op (remove_nr_list l id) (spec_op (len l) s (Remove id)).
Proof.
  intros R Hid. pose proof (rep_length _ _ R) as Hlen. pose proof (rep_len _ _ R) as Hl.
  pose proof (rep_seg _ _ R) as Hs. pose proof (rep_nodup _ _ R) as Hd.
  unfold remove_nr_list. simpl spec_op. change (find_id ?f l Head Head id) with (find_id f l (before []) (last_cell []) id).
  case_bool_decide as Hin.
  - apply list_elem_of_split in Hin as (s1 & s2 & ->). rewrite filter_ne_middle by done.
    pose proof (NoDup_app s1 (id :: s2)) as [Hd' _]. destruct (Hd' Hd) as (Hd1 & H12 & [H2 Hd2]%NoDup_cons). clear Hd'.
    assert (id ∉ s1) by set_solver.
    rewrite (find_id_done _ l [] s1 (id :: s2)) by (done || (rewrite length_app in Hlen; lia)). simpl.
    destruct (proj1 (seg_app _ _ _ _ _) Hs) as (m & Hs1 & -> & _ & h & Hh & Hs2).
    rewrite (get_last_cell l s1 id Hs1). simpl. cif; zbool; [lia|]. rewrite (rd_done _ _ h) by done. simpl.
    destruct (set_last_cell l s1 id h Hd1 Hs1) as (l1 & E1 & Hs1' & Ht & Hl1 & Hlen1 & Ho1). rewrite E1. simpl.
    pose proof (rep_bound _ _ R id ltac:(set_solver)) as Hb.
    rewrite wr_done by lia. simpl.
    set (l2 := l1 <| next := <[Z.to_nat id := -1]> (next l1) |>).
    assert (Hs2' : seg (next l2) (head l2) (s1 ++ s2) (-1)).
    { apply seg_app. exists h. split; [by apply seg_insert|]. eapply seg_ext; [|done]. intros i Hi. simpl.
      pose proof (seg_bound _ _ _ _ Hs2 i Hi). rewrite insert_other by (lia || set_solver). apply Ho1; [lia|].
      intros ?. eapply H12; set_solver. }
    change (refines_op (new_tail l2 (before s1)) (Done (len l, s1 ++ s2))).
    rewrite (new_tail_ok l2 s1 s2 (-1) Hs2').
    2:{ intros Hn. simpl. rewrite Ht, (rep_tail _ _ R), last_app_r by done. by rewrite <- (last_app_r [id] s2). }
    eexists. split; [done|]. split; [|done]. split; simpl.
    + by rewrite length_insert, Hlen1, Hl1.
    + apply NoDup_app. split_and!; [done|set_solver|done].
    + exact Hs2'.
    + done.
    + intros i Hi Hi'. destruct (decide (i = id)) as [->|]; [apply list_lookup_insert_eq; lia|].
      rewrite insert_other, Ho1 by (lia || set_solver). apply R; [lia|set_solver].
  - rewrite (find_id_done _ l [] s []) by (rewrite ?app_nil_r; done || lia). simpl.
    by rewrite (get_last_cell l s (-1) Hs).
Qed.

Lemma seg_links n h s e x y : seg n h s e -> x ∈ s -> n !! Z.to_nat x = Some y -> y ∈ s \/ y = e.
Proof.
  revert h. induction s as [|z s IH]; intros h; [set_solver|]. intros (-> & Hz & h' & Hn & Hs).
  rewrite elem_of_cons. intros [->|Hx] Hy.
  - rewrite Hn in Hy. injection Hy as ->. destruct s; simpl in Hs; [by right|left]. destruct Hs as (-> & _). set_solver.
  - destruct (IH _ Hs Hx Hy); set_solver.
Qed.

Lemma seg_target n h s e x : seg n h s e -> x ∈ s -> x = h \/ x ∈ n.
Proof.
  revert h. induction s as [|z s IH]; intros h; [set_solver|]. intros (-> & Hz & h' & Hn & Hs).
  rewrite elem_of_cons. intros [->|Hx]; [by left|]. right. destruct (IH _ Hs Hx) as [->|]; [|done].
  by eapply list_elem_of_lookup_2.
Qed.

(** The entries of the array are identifiers of the list or -1. *)
Lemma rep_entries l s y : represents l s -> y ∈ next l -> y ∈ s \/ y = -1.
Proof.
  intros R [i Hi]%list_elem_of_lookup. pose proof (rep_len _ _ R). pose proof (lookup_lt_Some _ _ _ Hi).
  destruct (decide (Z.of_nat i ∈ s)) as [Hin|Hin].
  - eapply seg_links; [apply R|done|by rewrite Nat2Z.id].
  - right. pose proof (rep_out _ _ R (Z.of_nat i) ltac:(lia) Hin) as E. rewrite Nat2Z.id in E. congruence.
Qed.

Lemma forallb_lt (s : list Z) n : forallb (fun x => x <? n) s = true <-> forall x, x ∈ s -> x < n.
Proof. rewrite forallb_forall. split; intros H x Hx; apply Z.ltb_lt, H; by apply list_elem_of_In. Qed.

Lemma resize_ok l s n : represents l s -> 0 <= n -> refines_op (resize_nr_list l n) (spec_op (len l) s (Resize n)).
Proof.
  intros R Hn. unfold resize_nr_list. simpl spec_op. pose proof (rep_bound _ _ R) as Hb. pose proof (rep_len _ _ R) as Hl.
  pose proof (rep_tail _ _ R) as Ht. pose proof (rep_seg _ _ R) as Hs.
  cif; zbool; [|cif; zbool].
  - subst n. rewrite (proj2 (forallb_lt s (len l))) by (intros x Hx; apply Hb in Hx; lia). by exists l.
  - rewrite (proj2 (forallb_lt s n)) by (intros x Hx; apply Hb in Hx; lia). eexists. split; [done|]. split; [|done].
    split; simpl; [rewrite length_app, length_replicate; lia|apply R| |done|].
    + eapply seg_ext; [|done]. intros i Hi. apply lookup_app_l. apply Hb in Hi. lia.
    + intros i Hi Hi'. destruct (decide (i < len l)); [rewrite lookup_app_l by lia; apply R; [lia|done]|].
      rewrite lookup_app_r by lia. apply lookup_replicate_2. lia.
  - destruct (forallb (fun x => x <? n) s) eqn:Ef.
    + rewrite forallb_lt in Ef.
      assert (head l < n) by (destruct s; simpl in Hs; [lia|]; destruct Hs as (-> & _); apply Ef; set_solver).
      assert (tail l < n).
      { rewrite Ht. destruct (last s) eqn:El; simpl; [|lia]. apply Ef. by apply last_Some_elem_of. }
      assert (He : forallb (fun x => x <? n) (next l) = true).
      { apply forallb_lt. intros x Hx. destruct (rep_entries _ _ _ R Hx) as [?| ->]; [by apply Ef|lia]. }
      do 2 (cif; zbool; [lia|]). rewrite He. simpl. eexists. split; [done|]. split; [|done].
      split; simpl; [rewrite length_take; lia|apply R| |done|].
      * eapply seg_ext; [|done]. intros i Hi. apply lookup_take_lt. pose proof (Hb _ Hi). specialize (Ef _ Hi). lia.
      * intros i Hi Hi'. rewrite lookup_take_lt by lia. apply R; [lia|done].
    + cif; zbool; [done|]. cif; zbool; [done|]. destruct (forallb (fun x => x <? n) (next l)) eqn:He; [|done].
      rewrite forallb_lt in He. exfalso. apply not_true_iff_false in Ef. apply Ef, forallb_lt. intros x Hx.
      destruct (seg_target _ _ _ _ _ Hs Hx) as [->|]; [lia|by apply He].
Qed.

Lemma run_op_ok l s o : represents l s -> allowed_op (len l) s o -> refines_op (run_op l o) (spec_op (len l) s o).
Proof.
  intros R. destruct o; unfold run_op, allowed_op; intros Ha.
  - by apply resize_ok.
  - by apply add_ok.
  - by apply remove_ok.
  - destruct Ha. by apply add_tail_ok.
  - destruct Ha. by apply add_front_ok.
  - by apply remove_front_ok.
Qed.

Lemma create_rep n : 0 <= n -> represents (create_nr_list n) [].
Proof.
  intros Hn. split; simpl; [rewrite length_replicate; lia|apply NoDup_nil_2|done|done|].
  intros i Hi _. apply lookup_replicate_2. lia.
Qed.

(** C23. The lists of identifiers of the MAC implement lists without duplicates.  Whatever the sequence of resizes,
    additions (checked, at the tail, at the front) and removals (of an identifier, of the front) from a new list, as
    long as the operations that do not look are given an identifier that is not in the list and identifiers are below
    the length, the linked array runs without touching memory outside the array: it ends exactly when the specification
    ends (an identifier added twice, an absent one removed, an empty front, a length below an identifier), and otherwise
    the array links exactly the specified list in its order, the tail field is its last identifier and every other
    entry is free. *)
Theorem nr_list_refines n os :
  0 <= n -> allowed_ops n [] os -> refines_op (run_ops (create_nr_list n) os) (spec_ops n [] os).
Proof.
  intros Hn. change n with (len (create_nr_list n)) at 1 3. pose proof (create_rep n Hn) as R. revert R.
  generalize (create_nr_list n) ([] : list Z). clear n Hn. induction os as [|o os IH]; intros l s R Ha; simpl.
  { by exists l. }
  destruct Ha as [Ha Hos]. pose proof (run_op_ok l s o R Ha) as Ho.
  destruct (spec_op (len l) s o) as [[b s']| |] eqn:Es; simpl in *; [|by rewrite Ho|done].
  destruct Ho as (l' & -> & R' & <-). simpl. apply IH; [done|by apply Hos].
Qed.

Lemma nr_list_refines_witness :
  exists l, run_ops (create_nr_list 2) [AddTail 1; Resize 4; Add 3; AddFront 0; Remove 3; RemoveFront; AddTail 2] = Done l /\
    represents l [1; 2] /\ len l = 4.
Proof.
  apply (nr_list_refines 2 [AddTail 1; Resize 4; Add 3; AddFront 0; Remove 3; RemoveFront; AddTail 2]); [lia|].
  simpl. repeat (split; [first [lia|split; [lia|set_solver]|done]|]; intros ?? Hx; vm_compute in Hx; injection Hx as <- <-).
  done.
Defined.
