(* ===== verification/Harq.v ===== *)
(** What the downlink and the uplink HARQ of a UE share: three lists of process numbers ([NR_UE_sched_ctrl_t] of
    nr_mac_gNB.h), the loops that fill and empty them (gNB_scheduler_primitives.c), and the invariant that ties the
    lists to the fields of the processes. *)

From S2P Require Import Prelude NrList.

(** [available_dl_harq], [feedback_dl_harq] and [retrans_dl_harq], or those of the uplink. *)
Record harq_lists := mk_lists { available : NR_list_t; feedback : NR_list_t; retrans : NR_list_t }.
#[export] Instance eta_lists : Eta harq_lists := fun r => mk_lists (available r) (feedback r) (retrans r).

Definition NR_MAX_HARQ_PROCESSES : Z := 16.

(** [while ((harq = list.head) >= 0) { remove_front; add_tail(available) }] *)
Fixpoint drain (fuel : nat) (from : NR_list_t) (to : NR_list_t) : outcome (NR_list_t * NR_list_t) :=
  let harq := head from in
  if harq >=? 0 then
    match fuel with
    | O => Undef
    | S fuel => from ← remove_front_nr_list from; to ← add_tail_nr_list to harq; drain fuel from to
    end
  else Done (from, to).

(** [for (harq = from; harq < from + n; harq++) add_tail_nr_list(list, harq)] *)
Fixpoint add_pids (n : nat) (from : Z) (l : NR_list_t) : outcome NR_list_t :=
  match n with O => Done l | S n => l ← add_tail_nr_list l from; add_pids n (from + 1) l end.

Definition zero_list : NR_list_t := mk_list 0 [] 0 0.

(** ** The invariant *)

Record lists_ok (L : harq_lists) (n : Z) (a f r : list Z) : Prop := {
  lo_a : represents (available L) a;
  lo_f : represents (feedback L) f;
  lo_r : represents (retrans L) r;
  lo_la : len (available L) = n;
  lo_lf : len (feedback L) = n;
  lo_lr : len (retrans L) = n;
  lo_n : 0 < n <= NR_MAX_HARQ_PROCESSES
}.

(** The flag and the round of the process [i]. *)
Record proc_ok (rm : Z) (a f r : list Z) (i : Z) (w : bool) (k : Z) : Prop := {
  po_wait : w = true <-> i ∈ f;
  po_round : 0 <= k < rm;
  po_free : i ∈ a -> k = 0;
  po_retrans : i ∈ r -> i ∉ a -> 0 < k;
  po_other : i ∉ f -> i ∉ r -> k = 0
}.

Definition procs_ok (rm : Z) (a f r : list Z) (ps : list (bool * Z)) : Prop :=
  Z.of_nat (length ps) = NR_MAX_HARQ_PROCESSES /\
  forall i w k, ps !! i = Some (w, k) -> proc_ok rm a f r (Z.of_nat i) w k.

(** ** Lists *)

Lemma head_cons l x s : represents l (x :: s) -> head l = x /\ 0 <= x < len l.
Proof. intros R. split; [apply (rep_seg _ _ R)|]. apply (rep_bound _ _ R). set_solver. Qed.
Lemma head_nil l : represents l [] -> head l = -1.
Proof. intros R. apply (rep_seg _ _ R). Qed.

Lemma remove_front_done l x s : represents l (x :: s) ->
  exists l', remove_front_nr_list l = Done l' /\ represents l' s /\ len l' = len l.
Proof. apply remove_front_ok. Qed.
Lemma add_tail_done l s id : represents l s -> 0 <= id < len l -> id ∉ s ->
  exists l', add_tail_nr_list l id = Done l' /\ represents l' (s ++ [id]) /\ len l' = len l.
Proof. apply add_tail_ok. Qed.
Lemma remove_done l s id : represents l s -> id ∈ s ->
  exists l', remove_nr_list l id = Done l' /\ represents l' (filter (fun x => x <> id) s) /\ len l' = len l.
Proof.
  intros R Hin. pose proof (rep_bound _ _ R id Hin). pose proof (remove_ok l s id R ltac:(lia)) as H'. simpl in H'.
  by rewrite bool_decide_true in H'.
Qed.

(** Adding at the tail the last identifier of the list changes nothing. *)
Lemma add_tail_same l s p : represents l s -> last s = Some p -> add_tail_nr_list l p = Done l.
Proof.
  intros R Hla. pose proof (rep_tail _ _ R) as Ht. rewrite Hla in Ht. simpl in Ht.
  pose proof (rep_bound _ _ R p (last_Some_elem_of _ _ Hla)) as Hp.
  apply last_Some in Hla as [s' ->]. pose proof (rep_seg _ _ R) as Hs. apply seg_app in Hs as (m & _ & _ & _ & h & Hn & Hhe).
  simpl in Hhe. subst h. pose proof (rep_len _ _ R) as Hl.
  unfold add_tail_nr_list. rewrite Ht. cif; zbool; [lia|]. simpl. rewrite wr_done by lia. simpl.
  rewrite wr_done by (rewrite length_insert; lia). simpl. rewrite list_insert_insert_eq, list_insert_id by done.
  f_equal. destruct l; simpl in *; subst; done.
Qed.

(** ** Processes *)

(** What a process shows to the lists: whether it waits for feedback, and its round. *)
Class HarqProcess (P : Type) := { waiting : P -> bool; round_of : P -> Z }.
Definition wk {P} `{HarqProcess P} (h : P) : bool * Z := (waiting h, round_of h).

Section processes.
Context {P : Type} {HP0 : HarqProcess P}.
Implicit Types (ps : list P) (h : P).

Lemma procs_lookup rm a f r ps pid : procs_ok rm a f r (wk <$> ps) -> 0 <= pid < NR_MAX_HARQ_PROCESSES ->
  exists h, ps !! Z.to_nat pid = Some h /\ proc_ok rm a f r pid (waiting h) (round_of h).
Proof.
  intros [Hl Hp] Hpid. rewrite length_fmap in Hl. destruct (ps !! Z.to_nat pid) as [h|] eqn:E.
  - exists h. split; [done|]. rewrite <- (Z2Nat.id pid) by lia. apply Hp. by rewrite list_lookup_fmap, E.
  - apply lookup_ge_None in E. unfold NR_MAX_HARQ_PROCESSES in *. lia.
Qed.

(** A change of one process and of its place in the lists. *)
Lemma procs_insert rm a f r a' f' r' ps pid h :
  procs_ok rm a f r (wk <$> ps) -> 0 <= pid ->
  (forall i, i <> pid -> (i ∈ a' <-> i ∈ a) /\ (i ∈ f' <-> i ∈ f) /\ (i ∈ r' <-> i ∈ r)) ->
  proc_ok rm a' f' r' pid (waiting h) (round_of h) ->
  procs_ok rm a' f' r' (wk <$> <[Z.to_nat pid := h]> ps).
Proof.
  intros [Hl Hp] H0 Hi Hh. split; [by rewrite length_fmap, length_insert, <- (length_fmap wk)|].
  intros i w k. rewrite list_fmap_insert. destruct (decide (i = Z.to_nat pid)) as [->|Hne].
  - intros Hx.
    rewrite list_lookup_insert_eq in Hx by (apply lookup_lt_Some in Hx; by rewrite length_insert in Hx).
    injection Hx as <- <-. by rewrite Z2Nat.id.
  - rewrite list_lookup_insert_ne by done. intros [H1 H2 H3 H4 H5]%Hp. specialize (Hi (Z.of_nat i) ltac:(lia)).
    destruct Hi as (Ha & Hf & Hr). split; rewrite ?Ha, ?Hf, ?Hr; done.
Qed.

End processes.

(** ** Permutations *)

Lemma perm_nodup n (s : list Z) : s ≡ₚ seqZ 0 n -> NoDup s.
Proof. intros ->. apply NoDup_seqZ. Qed.

Lemma nodup_three (a f r : list Z) p : NoDup (a ++ f ++ r) ->
  (p ∈ a -> p ∉ f /\ p ∉ r) /\ (p ∈ f -> p ∉ a /\ p ∉ r) /\ (p ∈ r -> p ∉ a /\ p ∉ f).
Proof. intros (_ & H1 & (_ & H2 & _)%NoDup_app)%NoDup_app. split_and!; intros Hp; split; set_solver. Qed.

Lemma filter_perm (r : list Z) p : NoDup r -> p ∈ r -> p :: filter (fun x => x <> p) r ≡ₚ r.
Proof.
  intros Hd Hp. apply list_elem_of_split in Hp as (r1 & r2 & ->). rewrite filter_ne_middle by done.
  apply Permutation_middle.
Qed.

(** ** Loops *)

Lemma drain_ok n fuel from to f a :
  represents from f -> represents to a -> len from = n -> len to = n -> NoDup (a ++ f) -> (length f <= fuel)%nat ->
  exists from' to', drain fuel from to = Done (from', to') /\ represents from' [] /\ represents to' (a ++ f) /\
    len from' = n /\ len to' = n.
Proof.
  revert from to f a. induction fuel as [|fuel IH]; intros from to f a Rf Ra Lf La Hd Hfu.
  all: destruct f as [|p f]; [simpl; rewrite (head_nil _ Rf), app_nil_r; simpl; by exists from, to|simpl in Hfu; try lia].
  destruct (head_cons _ _ _ Rf) as [Hh Hb]. simpl. rewrite Hh. cif; zbool; [|lia].
  destruct (remove_front_done _ _ _ Rf) as (from1 & E1 & R1 & L1). rewrite E1. simpl.
  apply NoDup_app in Hd as Hd'. destruct Hd' as (_ & Hda & _).
  destruct (add_tail_done _ _ p Ra ltac:(lia)) as (to1 & E2 & R2 & L2); [intros Hin; apply (Hda p); set_solver|].
  rewrite E2. simpl. destruct (IH from1 to1 f (a ++ [p])) as (from' & to' & E' & H'); try done; try congruence; try lia.
  { by rewrite <- app_assoc. }
  exists from', to'. rewrite <- app_assoc in H'. by rewrite E'.
Qed.

(** Draining the process of the fourth message, already the last of the free ones. *)
Lemma drain_same n fuel from to p s :
  represents from [p] -> represents to s -> last s = Some p -> len from = n -> len to = n -> (1 <= fuel)%nat ->
  exists from', drain fuel from to = Done (from', to) /\ represents from' [] /\ len from' = n.
Proof.
  intros Rf Rs Hla Lf Ls Hfu. destruct fuel as [|fuel]; [lia|]. destruct (head_cons _ _ _ Rf) as [Hh Hb]. simpl. rewrite Hh.
  cif; zbool; [|lia]. destruct (remove_front_done _ _ _ Rf) as (from1 & E1 & R1 & L1). rewrite E1. simpl.
  rewrite (add_tail_same _ _ _ Rs Hla). simpl. exists from1. split; [|split; [done|congruence]].
  destruct fuel; simpl; by rewrite (head_nil _ R1).
Qed.

Lemma add_pids_ok k from l s n :
  represents l s -> len l = n -> 0 <= from -> from + Z.of_nat k <= n -> (forall i, i ∈ s -> i < from) ->
  exists l', add_pids k from l = Done l' /\ represents l' (s ++ seqZ from (Z.of_nat k)) /\ len l' = n.
Proof.
  revert from l s. induction k as [|k IH]; intros from l s R Ll H0 Hk Hs.
  { exists l. rewrite seqZ_nil, app_nil_r by lia. done. }
  destruct (add_tail_done l s from R ltac:(lia)) as (l1 & E1 & R1 & L1); [intros Hin%Hs; lia|].
  simpl add_pids. rewrite E1. simpl.
  destruct (IH (from + 1) l1 (s ++ [from]) R1 ltac:(congruence) ltac:(lia) ltac:(lia)) as (l' & E' & R' & L').
  { intros i [Hi%Hs|Hi]%elem_of_app; [lia|]. set_solver by lia. }
  exists l'. split; [done|]. split; [|done]. rewrite (seqZ_cons from) by lia.
  replace (Z.pred (Z.of_nat (S k))) with (Z.of_nat k) by lia. rewrite <- app_assoc in R'. done.
Qed.

Lemma resize_done l s n : represents l s -> len l <= n ->
  exists l', resize_nr_list l n = Done l' /\ represents l' s /\ len l' = n.
Proof.
  intros R Hn. pose proof (rep_len _ _ R). pose proof (resize_ok l s n R ltac:(lia)) as H'. simpl in H'.
  rewrite (proj2 (forallb_lt s n)) in H' by (intros x Hx; apply (rep_bound _ _ R) in Hx; lia). done.
Qed.
