(* ===== verification/HarqDl.v ===== *)
(** The downlink HARQ processes of a UE: the three lists of [NR_UE_sched_ctrl_t] (processes that are free, that wait
    for feedback, that wait for a retransmission), the scheduler that takes processes, the feedback on PUCCH that
    gives them back (gNB_scheduler_uci.c), the reset and the reconfiguration (gNB_scheduler_primitives.c) and the
    fourth message of random access (gNB_scheduler_RA.c), which shares the lists. *)

From S2P Require Import Prelude NrList Harq.

(** ** State *)

(** The fields of a process that the lists depend on; the transport block and the parameters of its transmission are
    not here. *)
Record NR_UE_harq_t := mk_harq { is_waiting : bool; ndi : Z; round : Z; feedback_frame : Z; feedback_slot : Z }.
#[export] Instance eta_harq : Eta NR_UE_harq_t := fun r =>
  mk_harq (is_waiting r) (ndi r) (round r) (feedback_frame r) (feedback_slot r).

(** The states of the random access of the UE from the third message on. *)
Inductive ra_state_t := nrRA_gNB_IDLE | nrRA_Msg4 | nrRA_WAIT_Msg4_ACK.

(** The part of [NR_UE_info_t] and of its [NR_RA_t] the downlink HARQ uses. *)
Record ue_t := mk_ue {
  harq_processes : list NR_UE_harq_t;
  dl : harq_lists;
  errors : Z;
  rounds : list Z;
  Msg4_ACKed : bool;
  pucch0_DTX : Z;
  pucch_snrx10 : Z;
  tpc1 : Z;
  SR : bool;
  ra_state : ra_state_t;
  ra_harq_pid : Z
}.
#[export] Instance eta_ue : Eta ue_t := fun r =>
  mk_ue (harq_processes r) (dl r) (errors r) (rounds r) (Msg4_ACKed r) (pucch0_DTX r) (pucch_snrx10 r) (tpc1 r) (SR r)
    (ra_state r) (ra_harq_pid r).

Definition upd_harq (ue : ue_t) (pid : Z) (f : NR_UE_harq_t -> NR_UE_harq_t) : outcome ue_t :=
  h ← rd (harq_processes ue) pid;
  ps ← wr (harq_processes ue) pid (f h);
  Done (ue <| harq_processes := ps |>).
Definition on_available (ue : ue_t) (op : NR_list_t -> outcome NR_list_t) : outcome ue_t :=
  l ← op (available (dl ue)); Done (ue <| dl; available := l |>).
Definition on_feedback (ue : ue_t) (op : NR_list_t -> outcome NR_list_t) : outcome ue_t :=
  l ← op (feedback (dl ue)); Done (ue <| dl; feedback := l |>).
Definition on_retrans (ue : ue_t) (op : NR_list_t -> outcome NR_list_t) : outcome ue_t :=
  l ← op (retrans (dl ue)); Done (ue <| dl; retrans := l |>).

(** ** Feedback *)

Definition abort_nr_dl_harq (ue : ue_t) (harq_pid : Z) : outcome ue_t :=
  ue ← upd_harq ue harq_pid (fun h => h <| ndi ::= Z.lxor 1 |> <| round := 0 |>);
  on_available (ue <| errors ::= add64 1 |>) (fun l => add_tail_nr_list l harq_pid).

Definition handle_dl_harq (ue : ue_t) (harq_pid : Z) (success : bool) (harq_round_max : Z) : outcome ue_t :=
  ue ← upd_harq ue harq_pid (fun h => h <| feedback_slot := u16 (-1) |> <| is_waiting := false |>);
  if success then
    ue ← on_available ue (fun l => add_tail_nr_list l harq_pid);
    upd_harq ue harq_pid (fun h => h <| round := 0 |> <| ndi ::= Z.lxor 1 |>)
  else
    harq ← rd (harq_processes ue) harq_pid;
    if round harq >=? harq_round_max - 1 then abort_nr_dl_harq ue harq_pid
    else
      ue ← on_retrans ue (fun l => add_tail_nr_list l harq_pid);
      upd_harq ue harq_pid (fun h => h <| round ::= fun r => u8 (r + 1) |>).

(** The feedback of the process was expected before, or is expected after, [frame].[slot]. *)
Definition missed (harq : NR_UE_harq_t) (frame slot : Z) : bool :=
  (Z.rem (feedback_frame harq - frame + 1024) 1024 >? 512) || (feedback_frame harq =? frame) && (feedback_slot harq <? slot).
Definition to_come (harq : NR_UE_harq_t) (frame slot : Z) : bool :=
  (Z.rem (frame - feedback_frame harq + 1024) 1024 >? 512) || (feedback_frame harq =? frame) && (feedback_slot harq >? slot).

(** The process (by its number) whose feedback is now, [None] for [NULL]. *)
Fixpoint find_harq_loop (fuel : nat) (frame slot : Z) (ue : ue_t) (harq_round_max : Z) : outcome (option Z * ue_t) :=
  let pid := head (feedback (dl ue)) in
  if pid <? 0 then Done (None, ue)
  else
    harq ← rd (harq_processes ue) pid;
    if missed harq frame slot then
      match fuel with
      | O => Undef
      | S fuel =>
          ue ← on_feedback ue remove_front_nr_list;
          ue ← handle_dl_harq ue pid false harq_round_max;
          find_harq_loop fuel frame slot ue harq_round_max
      end
    else if to_come harq frame slot then Done (None, ue)
    else Done (Some pid, ue).

Definition find_harq (frame slot : Z) (ue : ue_t) (harq_round_max : Z) : outcome (option Z * ue_t) :=
  find_harq_loop (length (next (feedback (dl ue)))) frame slot ue harq_round_max.

Definition nr_get_tpc (target cqi incr tx_power : Z) : Z :=
  let snrx10 := cqi * 5 - 640 - tx_power * 10 in
  if snrx10 >? target + incr then 0
  else if snrx10 <? target - 3 * incr then 3
  else if snrx10 <? target - incr then 2
  else 1.

(** [nfapi_nr_uci_pucch_pdu_format_0_1_t] *)
Record uci_01_t := mk_uci01 {
  pduBitmap : Z; ul_cqi : Z; num_harq : Z; harq_confidence_level : Z; harq_list : list Z; sr_indication : Z;
  sr_confidence_level : Z }.

Fixpoint uci_01_harq (n : nat) (harq_bit frame slot : Z) (uci : uci_01_t) (harq_round_max : Z) (ue : ue_t) : outcome ue_t :=
  match n with
  | O => Done ue
  | S n =>
      harq_value ← rd (harq_list uci) harq_bit;
      let harq_confidence := harq_confidence_level uci in
      '(harq, ue) ← find_harq frame slot ue harq_round_max;
      match harq with
      | None => Done ue
      | Some p =>
          h ← rd (harq_processes ue) p;
          if negb (is_waiting h) then Exit
          else
            let pid := head (feedback (dl ue)) in
            ue ← on_feedback ue remove_front_nr_list;
            let ack := (harq_value =? 0) && (harq_confidence =? 0) in
            ue ← handle_dl_harq ue pid ack harq_round_max;
            let ue := if negb (Msg4_ACKed ue) && ack then ue <| Msg4_ACKed := true |> else ue in
            let ue := if harq_confidence =? 1 then ue <| pucch0_DTX ::= add32 1 |> else ue in
            uci_01_harq n (harq_bit + 1) frame slot uci harq_round_max ue
      end
  end.

Definition handle_nr_uci_pucch_0_1 (frame slot : Z) (uci : uci_01_t) (pucch_target_snrx10 harq_round_max : Z) (ue : ue_t) : outcome ue_t :=
  ue ← (if Z.testbit (pduBitmap uci) 1 then
          ue ← uci_01_harq (Z.to_nat (num_harq uci)) 0 frame slot uci harq_round_max ue;
          Done (if (harq_confidence_level uci =? 0) && negb (ul_cqi uci =? 255)
                then ue <| pucch_snrx10 := ul_cqi uci * 5 - 640 |> <| tpc1 := nr_get_tpc pucch_target_snrx10 (ul_cqi uci) 30 0 |>
                else ue <| tpc1 := 1 |>)
        else Done ue);
  Done (if Z.testbit (pduBitmap uci) 0 && negb (sr_indication uci =? 0) && (sr_confidence_level uci =? 0) && (ul_cqi uci >=? 148)
        then ue <| SR := true |> else ue).

(** [nfapi_nr_uci_pucch_pdu_format_2_3_4_t] *)
Record uci_234_t := mk_uci234 { pduBitmap_234 : Z; ul_cqi_234 : Z; harq_crc : Z; harq_bit_len : Z; harq_payload : list Z }.

(** Shifts of an [int] by its width or more are undefined. *)
Definition acknack (uci : uci_234_t) (harq_bit : Z) : outcome Z :=
  b ← rd (harq_payload uci) (Z.shiftr harq_bit 3);
  if harq_bit >=? 32 then Undef else Done (Z.land (Z.shiftr b harq_bit) 1).

Fixpoint uci_234_harq (n : nat) (harq_bit frame slot : Z) (uci : uci_234_t) (harq_round_max : Z) (ue : ue_t) : outcome ue_t :=
  match n with
  | O => Done ue
  | S n =>
      a ← acknack uci harq_bit;
      '(harq, ue) ← find_harq frame slot ue harq_round_max;
      match harq with
      | None => Done ue
      | Some p =>
          h ← rd (harq_processes ue) p;
          if negb (is_waiting h) then Exit
          else
            let pid := head (feedback (dl ue)) in
            ue ← on_feedback ue remove_front_nr_list;
            ue ← handle_dl_harq ue pid (negb (harq_crc uci =? 1) && negb (a =? 0)) harq_round_max;
            uci_234_harq n (harq_bit + 1) frame slot uci harq_round_max ue
      end
  end.

(** The CSI reports of the same message write fields that are not in this state. *)
Definition handle_nr_uci_pucch_2_3_4 (frame slot : Z) (csi_MeasConfig : bool) (uci : uci_234_t)
    (pucch_target_snrx10 harq_round_max : Z) (ue : ue_t) : outcome ue_t :=
  if negb csi_MeasConfig then Done ue
  else
    let ue := if negb (ul_cqi_234 uci =? 255)
              then ue <| pucch_snrx10 := ul_cqi_234 uci * 5 - 640 |>
                      <| tpc1 := nr_get_tpc pucch_target_snrx10 (ul_cqi_234 uci) 30 0 |>
              else ue in
    if Z.testbit (pduBitmap_234 uci) 1 then uci_234_harq (Z.to_nat (harq_bit_len uci)) 0 frame slot uci harq_round_max ue
    else Done ue.

(** ** Transmission *)

(** The choice of the preprocessor: the process to retransmit, -1 for a new transmission, [None] when the UE is skipped. *)
Definition dlsch_harq_pid (ue : ue_t) : option Z :=
  let dl_harq_pid := head (retrans (dl ue)) in
  if dl_harq_pid >=? 0 then Some dl_harq_pid
  else if head (available (dl ue)) <? 0 then None
  else Some dl_harq_pid.

(** A process starts to wait for its feedback on the PUCCH at [pucch_frame].[pucch_slot]. *)
Definition await_feedback (ue : ue_t) (pid pucch_frame pucch_slot : Z) : outcome ue_t :=
  harq ← rd (harq_processes ue) pid;
  if is_waiting harq then Exit
  else
    ue ← on_feedback ue (fun l => add_tail_nr_list l pid);
    ue ← upd_harq ue pid (fun h => h <| feedback_frame := u16 pucch_frame |> <| feedback_slot := u16 pucch_slot |> <| is_waiting := true |>);
    n ← rd (rounds ue) (round harq);
    rs ← wr (rounds ue) (round harq) (add64 1 n);
    Done (ue <| rounds := rs |>).

Definition nr_schedule_ue_spec (ue : ue_t) (dl_harq_pid pucch_frame pucch_slot harq_round_max : Z) : outcome ue_t :=
  '(current_harq_pid, ue) ←
     (if dl_harq_pid <? 0 then
        let current_harq_pid := head (available (dl ue)) in
        if negb (current_harq_pid >=? 0) then Exit
        else ue ← on_available ue remove_front_nr_list; Done (current_harq_pid, ue)
      else
        harq ← rd (harq_processes ue) dl_harq_pid;
        ue ← (if round harq =? 0 then on_available ue (fun l => remove_nr_list l dl_harq_pid)
              else on_retrans ue (fun l => remove_nr_list l dl_harq_pid));
        Done (dl_harq_pid, ue));
  ue ← await_feedback ue current_harq_pid pucch_frame pucch_slot;
  harq ← rd (harq_processes ue) current_harq_pid;
  if negb (round harq <? harq_round_max) then Exit else Done ue.

(** The scheduling of one slot: the preprocessor then the transmission. *)
Definition dlsch (ue : ue_t) (pucch_frame pucch_slot harq_round_max : Z) : outcome ue_t :=
  match dlsch_harq_pid ue with
  | None => Done ue
  | Some pid => nr_schedule_ue_spec ue pid pucch_frame pucch_slot harq_round_max
  end.

(** ** The fourth message of random access *)

(** The HARQ management of the message.  A process taken from the retransmissions stays in that list. *)
Definition nr_generate_Msg4 (ue : ue_t) (pucch_frame pucch_slot : Z) : outcome ue_t :=
  let current_harq_pid := head (retrans (dl ue)) in
  ue ← (if current_harq_pid >=? 0 then
          harq ← rd (harq_processes ue) current_harq_pid;
          if is_waiting harq then Exit else Done ue
        else Done ue);
  '(current_harq_pid, ue) ←
     (if current_harq_pid <? 0 then
        if negb (head (available (dl ue)) >=? 0) then Exit
        else
          let current_harq_pid := head (available (dl ue)) in
          ue ← on_available ue remove_front_nr_list; Done (current_harq_pid, ue)
      else Done (current_harq_pid, ue));
  ue ← await_feedback (ue <| ra_harq_pid := current_harq_pid |>) current_harq_pid pucch_frame pucch_slot;
  Done (ue <| ra_state := nrRA_WAIT_Msg4_ACK |>).

Definition nr_check_Msg4_Ack (ue : ue_t) : outcome ue_t :=
  let current_harq_pid := ra_harq_pid ue in
  harq ← rd (harq_processes ue) current_harq_pid;
  if is_waiting harq then Done ue
  else if round harq =? 0 then
    let ue := ue <| ra_state := nrRA_gNB_IDLE |> in
    if head (retrans (dl ue)) >=? 0 then on_retrans ue (fun l => remove_nr_list l current_harq_pid) else Done ue
  else Done (ue <| ra_state := nrRA_Msg4 |>).

(** The step of the random access of the UE in a slot; [msg4] is what makes the message ready (data, control channel,
    resource blocks and PUCCH). *)
Definition nr_schedule_RA (ue : ue_t) (msg4 : option (Z * Z)) : outcome ue_t :=
  match ra_state ue with
  | nrRA_gNB_IDLE => Done ue
  | nrRA_Msg4 => match msg4 with None => Done ue | Some (frame, slot) => nr_generate_Msg4 ue frame slot end
  | nrRA_WAIT_Msg4_ACK => nr_check_Msg4_Ack ue
  end.

(** ** Reset and configuration *)

Definition reset_dl_harq_list (ue : ue_t) : outcome ue_t :=
  '(fb, av) ← drain (length (next (feedback (dl ue)))) (feedback (dl ue)) (available (dl ue));
  '(rt, av) ← drain (length (next (retrans (dl ue)))) (retrans (dl ue)) av;
  Done (ue <| dl := mk_lists av fb rt |>
           <| harq_processes ::= fmap (fun h => h <| feedback_slot := u16 (-1) |> <| round := 0 |> <| is_waiting := false |>) |>).

(** A third message with the C-RNTI of the UE. *)
Definition rx_msg3_crnti (ue : ue_t) : outcome ue_t :=
  ue ← reset_dl_harq_list (ue <| Msg4_ACKed := false |>);
  Done (ue <| ra_state := nrRA_Msg4 |>).

Inductive nrofHARQ_ProcessesForPDSCH := n2 | n4 | n6 | n10 | n12 | n16.
Definition get_nrofHARQ_ProcessesForPDSCH (n : nrofHARQ_ProcessesForPDSCH) : Z :=
  match n with n2 => 2 | n4 => 4 | n6 => 6 | n10 => 10 | n12 => 12 | n16 => 16 end.
Definition nrofHARQ (conf : option nrofHARQ_ProcessesForPDSCH) : Z :=
  match conf with Some n => get_nrofHARQ_ProcessesForPDSCH n | None => 8 end.

Definition create_dl_harq_list (ue : ue_t) (conf : option nrofHARQ_ProcessesForPDSCH) : outcome ue_t :=
  let n := nrofHARQ conf in
  let L := dl ue in
  if negb ((len (available L) =? len (feedback L)) && (len (available L) =? len (retrans L))) then Exit
  else if len (available L) =? 0 then
    av ← add_pids (Z.to_nat n) 0 (create_nr_list n);
    Done (ue <| dl := mk_lists av (create_nr_list n) (create_nr_list n) |>)
  else if len (available L) =? n then Done ue
  else
    let old := len (available L) in
    if negb (n >? old) then Exit
    else
      av ← resize_nr_list (available L) n;
      av ← add_pids (Z.to_nat (n - old)) old av;
      fb ← resize_nr_list (feedback L) n;
      rt ← resize_nr_list (retrans L) n;
      Done (ue <| dl := mk_lists av fb rt |>).

(** A new UE: its scheduling control is cleared ([add_new_nr_ue]). *)
Definition new_ue (Msg4_ACKed : bool) (ra_state : ra_state_t) : ue_t :=
  mk_ue (replicate (Z.to_nat NR_MAX_HARQ_PROCESSES) (mk_harq false 0 0 0 0)) (mk_lists zero_list zero_list zero_list)
    0 (replicate 8 0) Msg4_ACKed 0 0 0 false ra_state 0.

(** ** The life of the processes of a UE *)

Inductive event :=
| Dlsch (pucch_frame pucch_slot : Z)
| Uci01 (frame slot : Z) (uci : uci_01_t)
| Uci234 (frame slot : Z) (csi_MeasConfig : bool) (uci : uci_234_t)
| RaSlot (msg4 : option (Z * Z))
| Msg3Crnti
| Cfra
| Reconf (conf : option nrofHARQ_ProcessesForPDSCH).

Definition step (pucch_target_snrx10 harq_round_max : Z) (ue : ue_t) (e : event) : outcome ue_t :=
  match e with
  | Dlsch frame slot => dlsch ue frame slot harq_round_max
  | Uci01 frame slot uci => handle_nr_uci_pucch_0_1 frame slot uci pucch_target_snrx10 harq_round_max ue
  | Uci234 frame slot csi uci => handle_nr_uci_pucch_2_3_4 frame slot csi uci pucch_target_snrx10 harq_round_max ue
  | RaSlot msg4 => nr_schedule_RA ue msg4
  | Msg3Crnti => rx_msg3_crnti ue
  | Cfra => ue ← reset_dl_harq_list ue; Done (ue <| ra_state := nrRA_gNB_IDLE |>)
  | Reconf conf => create_dl_harq_list ue conf
  end.

(** What the environment respects: data is not scheduled while the fourth message is under way, the feedback
    messages carry the bits they announce, and the number of processes does not shrink. *)
Definition dl_allowed (ue : ue_t) (e : event) : Prop :=
  match e with
  | Dlsch _ _ => ra_state ue = nrRA_gNB_IDLE
  | Uci01 _ _ uci => num_harq uci <= Z.of_nat (length (harq_list uci))
  | Uci234 _ _ _ uci => harq_bit_len uci <= 32 /\ harq_bit_len uci <= 8 * Z.of_nat (length (harq_payload uci))
  | Reconf conf => len (available (dl ue)) <= nrofHARQ conf /\ ra_state ue <> nrRA_WAIT_Msg4_ACK
  | _ => True
  end.

Inductive reach (pucch_target harq_round_max : Z) : ue_t -> Prop :=
| reach_new acked s conf ue :
    s <> nrRA_WAIT_Msg4_ACK -> create_dl_harq_list (new_ue acked s) conf = Done ue -> reach pucch_target harq_round_max ue
| reach_step ue e ue' :
    reach pucch_target harq_round_max ue -> dl_allowed ue e -> step pucch_target harq_round_max ue e = Done ue' ->
    reach pucch_target harq_round_max ue'.

(** ** The invariant *)

#[export] Instance dl_process : HarqProcess NR_UE_harq_t := {| waiting := is_waiting; round_of := round |}.

(** Every process is in one list.  While the acknowledgment of a retransmitted fourth message is awaited, its process
    is in the list of retransmissions as well, and is the last of the other two. *)
Definition shape (s : ra_state_t) (p n : Z) (a f r : list Z) : Prop :=
  match s with
  | nrRA_gNB_IDLE => a ++ f ++ r ≡ₚ seqZ 0 n
  | nrRA_Msg4 => a ++ f ++ r ≡ₚ seqZ 0 n /\ f = [] /\ (length r <= 1)%nat
  | nrRA_WAIT_Msg4_ACK =>
      (a ++ f ++ r ≡ₚ seqZ 0 n \/ r = [p] /\ a ++ f ≡ₚ seqZ 0 n /\ last (a ++ f) = Some p) /\ (f = [] \/ f = [p]) /\ (r = [] \/ r = [p]) /\
      0 <= p < n
  end.

Record harq_ok (rm : Z) (ue : ue_t) (n : Z) (a f r : list Z) : Prop := {
  ho_lists : lists_ok (dl ue) n a f r;
  ho_procs : procs_ok rm a f r (wk <$> harq_processes ue);
  ho_rounds : length (rounds ue) = 8%nat;
  ho_shape : shape (ra_state ue) (ra_harq_pid ue) n a f r
}.

(** ** Processes *)

Lemma upd_harq_done ue pid f h : 0 <= pid -> harq_processes ue !! Z.to_nat pid = Some h ->
  upd_harq ue pid f = Done (ue <| harq_processes := <[Z.to_nat pid := f h]> (harq_processes ue) |>).
Proof.
  intros Hp Hh. unfold upd_harq. rewrite (rd_done _ _ h) by done. simpl.
  rewrite wr_done by (apply lookup_lt_Some in Hh; lia). done.
Qed.

Lemma dl_lookup rm a f r (ps : list NR_UE_harq_t) pid : procs_ok rm a f r (wk <$> ps) -> 0 <= pid < NR_MAX_HARQ_PROCESSES ->
  exists h, ps !! Z.to_nat pid = Some h /\ proc_ok rm a f r pid (is_waiting h) (round h).
Proof. exact (procs_lookup rm a f r ps pid). Qed.

Lemma dl_insert rm a f r a' f' r' ps pid (h : NR_UE_harq_t) :
  procs_ok rm a f r (wk <$> ps) -> 0 <= pid ->
  (forall i, i <> pid -> (i ∈ a' <-> i ∈ a) /\ (i ∈ f' <-> i ∈ f) /\ (i ∈ r' <-> i ∈ r)) ->
  proc_ok rm a' f' r' pid (is_waiting h) (round h) ->
  procs_ok rm a' f' r' (wk <$> <[Z.to_nat pid := h]> ps).
Proof. exact (procs_insert rm a f r a' f' r' ps pid h). Qed.

(** ** Feedback *)

Definition resolve (ue : ue_t) (pid : Z) (success : bool) (rm : Z) : outcome ue_t :=
  ue ← on_feedback ue remove_front_nr_list; handle_dl_harq ue pid success rm.

Definition same_ra (ue ue' : ue_t) : Prop :=
  rounds ue' = rounds ue /\ ra_state ue' = ra_state ue /\ ra_harq_pid ue' = ra_harq_pid ue.

Definition same_others (p : Z) (ue ue' : ue_t) : Prop :=
  forall i, 0 <= i -> i <> p -> harq_processes ue' !! Z.to_nat i = harq_processes ue !! Z.to_nat i.

Lemma same_others_insert (ps : list NR_UE_harq_t) p h i : 0 <= p -> 0 <= i -> i <> p -> <[Z.to_nat p := h]> ps !! Z.to_nat i = ps !! Z.to_nat i.
Proof. intros. apply list_lookup_insert_ne. lia. Qed.

Lemma add_retrans_done l r p : represents l r -> 0 <= p < len l -> p ∉ r \/ r = [p] ->
  exists l', add_tail_nr_list l p = Done l' /\ represents l' (if decide (p ∈ r) then r else r ++ [p]) /\ len l' = len l.
Proof.
  intros R Hp [Hn| ->].
  - rewrite decide_False by done. by apply add_tail_done.
  - rewrite decide_True by set_solver. exists l. by rewrite (add_tail_same _ [p]).
Qed.

(** The lists and the processes after the feedback of the first process that waits. *)
Lemma resolve_lists rm ue n a p f r success :
  1 <= rm <= 8 -> lists_ok (dl ue) n a (p :: f) r -> procs_ok rm a (p :: f) r (wk <$> harq_processes ue) ->
  p ∉ a -> p ∉ r \/ r = [p] ->
  exists ue' a' r', resolve ue p success rm = Done ue' /\ lists_ok (dl ue') n a' f r' /\
    procs_ok rm a' f r' (wk <$> harq_processes ue') /\ same_ra ue ue' /\ same_others p ue ue' /\
    (a' = a ++ [p] /\ r' = r \/ a' = a /\ r' = if decide (p ∈ r) then r else r ++ [p]).
Proof.
  intros Hrm HL HP Hpa Hpr. pose proof HL as [Ra Rf Rr La Lf Lr Hn].
  destruct (head_cons _ _ _ Rf) as [_ Hp]. rewrite Lf in Hp.
  pose proof (rep_nodup _ _ Rf) as [Hpf _]%NoDup_cons.
  destruct (remove_front_done _ _ _ Rf) as (l' & El & Rf' & Ll). rewrite Lf in Ll.
  destruct (dl_lookup _ _ _ _ _ p HP ltac:(lia)) as (h & Hh & [P1 P2 P3 P4 P5]).
  pose proof (lookup_lt_Some _ _ _ Hh) as Hlt.
  destruct (add_tail_done _ _ p Ra ltac:(lia) Hpa) as (av & Eav & Rav & Lav).
  destruct (add_retrans_done _ _ p Rr ltac:(lia) Hpr) as (rt & Ert & Rrt & Lrt).
  unfold resolve, on_feedback. rewrite El. simpl. unfold handle_dl_harq.
  rewrite (upd_harq_done _ p _ h) by (simpl; lia || done). simpl.
  set (h1 := h <| feedback_slot := u16 (-1) |> <| is_waiting := false |>).
  assert (Hl1 : <[Z.to_nat p := h1]> (harq_processes ue) !! Z.to_nat p = Some h1) by (by apply list_lookup_insert_eq).
  assert (HA : forall h2, is_waiting h2 = false -> round h2 = 0 ->
    procs_ok rm (a ++ [p]) f r (wk <$> <[Z.to_nat p := h2]> (harq_processes ue))).
  { intros h2 Hw Hr. eapply dl_insert; [exact HP|lia|set_solver|]. rewrite Hw, Hr. split; [set_solver|lia|done|set_solver|done]. }
  destruct success; [|rewrite (rd_done _ _ h1) by (simpl; lia || done); simpl; cif; zbool].
  - unfold on_available. simpl. rewrite Eav. simpl.
    rewrite (upd_harq_done _ p _ h1) by (simpl; lia || done). eexists _, _, _. split; [done|]. simpl.
    rewrite list_insert_insert_eq. split_and!; [|by apply HA|done|intros i Hi Hip; apply same_others_insert; lia|by left].
    split; simpl; [done..|lia|lia|done|done].
  - unfold abort_nr_dl_harq. rewrite (upd_harq_done _ p _ h1) by (simpl; lia || done). simpl.
    unfold on_available. simpl. rewrite Eav. simpl. eexists _, _, _. split; [done|]. simpl.
    rewrite list_insert_insert_eq. split_and!; [|by apply HA|done|intros i Hi Hip; apply same_others_insert; lia|by left].
    split; simpl; [done..|lia|lia|done|done].
  - unfold on_retrans. simpl. rewrite Ert. simpl. rewrite (upd_harq_done _ p _ h1) by (simpl; lia || done).
    eexists _, _, _. split; [done|]. simpl. rewrite list_insert_insert_eq. split_and!; [| |done|intros i Hi Hip; apply same_others_insert; lia|by right].
    + split; simpl; [done..|lia|lia|lia|done].
    + simpl in *. assert (Hu : u8 (round h + 1) = round h + 1) by (apply Z.mod_small; lia).
      eapply dl_insert; [exact HP|lia| |].
      * intros i Hi. destruct (decide (p ∈ r)); set_solver.
      * simpl. rewrite Hu. split; [set_solver|lia|set_solver|lia|]. destruct (decide (p ∈ r)); set_solver.
Qed.

(** The place of a process that waits. *)
Lemma shape_head s q n a p f r : shape s q n a (p :: f) r ->
  p ∉ a /\ (p ∉ r \/ r = [p] /\ s = nrRA_WAIT_Msg4_ACK /\ f = [] /\ q = p).
Proof.
  assert (Hn : a ++ (p :: f) ++ r ≡ₚ seqZ 0 n -> p ∉ a /\ p ∉ r).
  { intros (_ & H1 & (H2 & _)%NoDup_cons)%perm_nodup%NoDup_app. split; [|set_solver].
    intros Ha. apply (H1 p); [done|set_solver]. }
  destruct s; simpl.
  - intros [? ?]%Hn. auto.
  - intros [[? ?]%Hn _]. auto.
  - intros ([[? ?]%Hn|(-> & H' & _)] & [Hf|Hf] & _); [auto..|done|]. injection Hf as -> ->.
    apply perm_nodup, NoDup_app in H' as (_ & H1 & _). split; [|by right]. set_solver.
Qed.

Lemma shape_resolve s q n a p f r a' r' :
  shape s q n a (p :: f) r -> (a' = a ++ [p] /\ r' = r \/ a' = a /\ r' = if decide (p ∈ r) then r else r ++ [p]) ->
  shape s q n a' f r'.
Proof.
  intros Hs Hc. destruct (shape_head _ _ _ _ _ _ _ Hs) as [Hpa Hpr].
  assert (Hperm : p ∉ r -> a ++ (p :: f) ++ r ≡ₚ seqZ 0 n -> a' ++ f ++ r' ≡ₚ seqZ 0 n).
  { intros Hr <-. destruct Hc as [[-> ->]|[-> ->]]; [|rewrite decide_False by done]; solve_Permutation. }
  destruct s; simpl in *.
  - destruct Hpr as [Hr|(_ & ? & _)]; [auto|done].
  - by destruct Hs as (_ & ? & _).
  - destruct Hs as (Hd & [?|Hf] & Hr & Hq); [done|]. injection Hf as -> ->.
    destruct Hpr as [Hpr|(-> & _)].
    + assert (r = []) as -> by (destruct Hr as [->| ->]; [done|set_solver]).
      assert (Hs : a ++ [q] ++ [] ≡ₚ seqZ 0 n) by (destruct Hd as [|[? _]]; done).
      split_and!; [left; by apply Hperm|by left| |lia|lia].
      destruct Hc as [[_ ->]|[_ ->]]; [by left|right]. by rewrite decide_False.
    + destruct Hd as [Hd|(_ & Hd & _)].
      { exfalso. apply perm_nodup, NoDup_app in Hd as (_ & _ & Hd). apply NoDup_cons in Hd. set_solver. }
      rewrite decide_True in Hc by set_solver.
      split_and!; [|by left|right; by destruct Hc as [[_ ->]|[_ ->]]|lia|lia].
      destruct Hc as [[-> ->]|[-> ->]]; [right|left]; rewrite ?app_nil_r, ?last_snoc; done.
Qed.

Lemma resolve_ok rm ue n a p f r success :
  1 <= rm <= 8 -> harq_ok rm ue n a (p :: f) r ->
  exists ue' a' r', resolve ue p success rm = Done ue' /\ harq_ok rm ue' n a' f r' /\ same_others p ue ue' /\
    (a' = a ++ [p] /\ r' = r \/ a' = a /\ r' = if decide (p ∈ r) then r else r ++ [p]).
Proof.
  intros Hrm [HL HP Hro Hs]. destruct (shape_head _ _ _ _ _ _ _ Hs) as [Hpa Hpr].
  destruct (resolve_lists rm ue n a p f r success Hrm HL HP Hpa) as (ue' & a' & r' & E & HL' & HP' & (H1 & H2 & H3) & Ho & Hc).
  { destruct Hpr as [?|(? & _)]; auto. }
  exists ue', a', r'. split; [done|]. split; [|done]. split; [done|done|by rewrite H1|].
  rewrite H2, H3. by eapply shape_resolve.
Qed.

(** The feedback of the process [p] is expected before, or after, [frame].[slot]. *)
Definition missed_at (ue : ue_t) (frame slot p : Z) : Prop :=
  exists h, harq_processes ue !! Z.to_nat p = Some h /\ missed h frame slot = true.

Lemma find_harq_loop_ok rm ue n a f r frame slot fuel :
  1 <= rm <= 8 -> harq_ok rm ue n a f r -> (length f <= fuel)%nat ->
  exists res ue' a' f1 f2 r', find_harq_loop fuel frame slot ue rm = Done (res, ue') /\ f = f1 ++ f2 /\
    harq_ok rm ue' n a' f2 r' /\ Forall (missed_at ue frame slot) f1 /\
    (forall i, i ∈ f1 -> i ∈ a' \/ i ∈ r') /\ (forall i, i ∈ a -> i ∈ a') /\ (forall i, i ∈ r -> i ∈ r') /\
    (forall i, i ∈ f2 -> harq_processes ue' !! Z.to_nat i = harq_processes ue !! Z.to_nat i) /\
    match f2 with
    | [] => res = None
    | p :: _ => exists h, harq_processes ue' !! Z.to_nat p = Some h /\ missed h frame slot = false /\
                  res = if to_come h frame slot then None else Some p
    end.
Proof.
  intros Hrm. revert ue a f r. induction fuel as [|fuel IH]; intros ue a f r HO Hf.
  - destruct f; [|simpl in Hf; lia]. simpl. rewrite (head_nil _ (lo_f _ _ _ _ _ (ho_lists _ _ _ _ _ _ HO))).
    eexists _, _, a, [], [], r. simpl. split_and!; try done; set_solver.
  - destruct f as [|p f].
    { simpl. rewrite (head_nil _ (lo_f _ _ _ _ _ (ho_lists _ _ _ _ _ _ HO))).
      eexists _, _, a, [], [], r. simpl. split_and!; try done; set_solver. }
    pose proof HO as [HL HP _ _]. pose proof HL as [Ra Rf Rr La Lf Lr Hn]. destruct (head_cons _ _ _ Rf) as [Hh Hp].
    destruct (dl_lookup _ _ _ _ _ p HP ltac:(lia)) as (h & Eh & _).
    simpl. rewrite Hh. cif; zbool; [lia|]. rewrite (rd_done _ _ h) by (lia || done). simpl.
    destruct (missed h frame slot) eqn:Em.
    + destruct (resolve_ok rm ue n a p f r false Hrm HO) as (ue1 & a1 & r1 & Er & HO1 & Ho & Hc).
      destruct (IH ue1 a1 f r1 HO1 ltac:(simpl in Hf; lia)) as (res & ue' & a' & f1 & f2 & r' & E' & -> & HO' & Hm & H1 & Ha & Hr & H2 & Hres).
      pose proof (rep_nodup _ _ Rf) as [Hpf _]%NoDup_cons.
      assert (Hb : forall i, i ∈ f1 ++ f2 -> 0 <= i /\ i <> p).
      { intros i Hi. split; [|by intros ->]. apply (rep_bound _ _ Rf). set_solver. }
      exists res, ue', a', (p :: f1), f2, r'. unfold resolve in Er.
      destruct (on_feedback ue remove_front_nr_list) as [ue0| |] eqn:E0; simpl in Er; [|done..]. simpl. rewrite Er. simpl.
      split_and!; [done|done|done| | | | | |done].
      * constructor; [by exists h|]. rewrite Forall_forall in *. intros i Hi. destruct (Hm i Hi) as (hi & Ei & Emi).
        exists hi. rewrite <- Ho; [done|apply Hb; set_solver..].
      * intros i Hi. apply elem_of_cons in Hi as [->|Hi]; [|by apply H1].
        destruct Hc as [[-> _]|[_ ->]]; [left; apply Ha; set_solver|right; apply Hr; destruct (decide (p ∈ r)); set_solver].
      * intros i Hi. apply Ha. destruct Hc as [[-> _]|[-> _]]; set_solver.
      * intros i Hi. apply Hr. destruct Hc as [[_ ->]|[_ ->]]; [done|destruct (decide (p ∈ r)); set_solver].
      * intros i Hi. rewrite H2 by done. apply Ho; apply Hb; set_solver.
    + exists (if to_come h frame slot then None else Some p), ue, a, [], (p :: f), r. split; [by destruct (to_come h frame slot)|]. split_and!; try done; [set_solver|].
      exists h. done.
Qed.

Definition inv (rm : Z) (ue : ue_t) : Prop := exists n a f r, harq_ok rm ue n a f r.

(** The fields that the lists do not depend on. *)
Lemma inv_same rm ue ue' :
  dl ue' = dl ue -> harq_processes ue' = harq_processes ue -> same_ra ue ue' -> inv rm ue -> inv rm ue'.
Proof.
  intros H1 H2 (H3 & H4 & H5) (n & a & f & r & [HL HP HR HS]). exists n, a, f, r.
  split; rewrite ?H1, ?H2, ?H3, ?H4, ?H5; done.
Qed.

Lemma find_harq_inv rm ue frame slot :
  1 <= rm <= 8 -> inv rm ue ->
  exists res ue', find_harq frame slot ue rm = Done (res, ue') /\ inv rm ue' /\
    forall p, res = Some p -> head (feedback (dl ue')) = p /\
      (exists h, rd (harq_processes ue') p = Done h /\ is_waiting h = true) /\
      forall success, exists ue0 ue2, on_feedback ue' remove_front_nr_list = Done ue0 /\
        handle_dl_harq ue0 p success rm = Done ue2 /\ inv rm ue2.
Proof.
  intros Hrm (n & a & f & r & HO).
  destruct (find_harq_loop_ok rm ue n a f r frame slot (length (next (feedback (dl ue)))) Hrm HO) as
    (res & ue' & a' & f1 & f2 & r' & E & _ & HO' & _ & _ & _ & _ & _ & Hres).
  { eapply rep_length, HO. }
  exists res, ue'. split; [done|]. split; [by exists n, a', f2, r'|]. intros p ->.
  destruct f2 as [|q f2]; [done|]. destruct Hres as (h & Eh & _ & Hq). destruct (to_come h frame slot); [done|].
  injection Hq as ->. pose proof HO' as [[Ra Rf Rr La Lf Lr Hn] HP _ _]. destruct (head_cons _ _ _ Rf) as [Hh Hb].
  split; [done|]. split.
  - exists h. split; [by apply rd_done; [lia|]|]. destruct (dl_lookup _ _ _ _ _ q HP ltac:(lia)) as (h' & Eh' & Hpo).
    rewrite Eh in Eh'. injection Eh' as ->. apply (po_wait _ _ _ _ _ _ _ Hpo). set_solver.
  - intros success. destruct (resolve_ok rm ue' n a' q f2 r' success Hrm HO') as (ue2 & a2 & r2 & Er & HO2 & _).
    unfold resolve in Er. destruct (on_feedback ue' remove_front_nr_list) as [ue0| |]; [|done..].
    exists ue0, ue2. split; [done|]. split; [done|]. by exists n, a2, f2, r2.
Qed.

Lemma uci_01_harq_inv rm frame slot uci k bit ue :
  1 <= rm <= 8 -> inv rm ue -> 0 <= bit -> bit + Z.of_nat k <= Z.of_nat (length (harq_list uci)) ->
  exists ue', uci_01_harq k bit frame slot uci rm ue = Done ue' /\ inv rm ue'.
Proof.
  intros Hrm. revert bit ue. induction k as [|k IH]; intros bit ue HI Hb Hl; simpl; [by exists ue|].
  destruct (lookup_lt_is_Some_2 (harq_list uci) (Z.to_nat bit) ltac:(lia)) as [v Hv].
  rewrite (rd_done _ _ v) by (lia || done). simpl.
  destruct (find_harq_inv rm ue frame slot Hrm HI) as (res & ue1 & E & HI1 & Hres). rewrite E. simpl.
  destruct res as [p|]; [|by exists ue1]. destruct (Hres p eq_refl) as (Hh & (h & Eh & Hw) & Hs). rewrite Eh. simpl.
  rewrite Hw, Hh. simpl. destruct (Hs ((v =? 0) && (harq_confidence_level uci =? 0))) as (ue0 & ue2 & E0 & E2 & HI2).
  rewrite E0. simpl. rewrite E2. simpl. apply IH; [|lia|lia]. eapply inv_same; [..|exact HI2]; repeat cif; done.
Qed.

Lemma acknack_done uci bit :
  0 <= bit < 32 -> bit < 8 * Z.of_nat (length (harq_payload uci)) -> exists a, acknack uci bit = Done a.
Proof.
  intros Hb Hl. unfold acknack. rewrite Z.shiftr_div_pow2 by lia. change (2 ^ 3) with 8.
  pose proof (Z.div_pos bit 8 ltac:(lia) ltac:(lia)).
  pose proof (Z.div_lt_upper_bound bit 8 (Z.of_nat (length (harq_payload uci))) ltac:(lia) ltac:(lia)).
  destruct (lookup_lt_is_Some_2 (harq_payload uci) (Z.to_nat (bit / 8)) ltac:(lia)) as [b Eb].
  rewrite (rd_done _ _ b) by done. simpl. cif; zbool; [lia|]. eauto.
Qed.

Lemma uci_234_harq_inv rm frame slot uci k bit ue :
  1 <= rm <= 8 -> inv rm ue -> 0 <= bit -> bit + Z.of_nat k <= 32 ->
  bit + Z.of_nat k <= 8 * Z.of_nat (length (harq_payload uci)) ->
  exists ue', uci_234_harq k bit frame slot uci rm ue = Done ue' /\ inv rm ue'.
Proof.
  intros Hrm. revert bit ue. induction k as [|k IH]; intros bit ue HI Hb Hl Hl'; simpl; [by exists ue|].
  destruct (acknack_done uci bit ltac:(lia) ltac:(lia)) as [v Hv]. rewrite Hv. simpl.
  destruct (find_harq_inv rm ue frame slot Hrm HI) as (res & ue1 & E & HI1 & Hres). rewrite E. simpl.
  destruct res as [p|]; [|by exists ue1]. destruct (Hres p eq_refl) as (Hh & (h & Eh & Hw) & Hs). rewrite Eh. simpl.
  rewrite Hw, Hh. simpl. destruct (Hs (negb (harq_crc uci =? 1) && negb (v =? 0))) as (ue0 & ue2 & E0 & E2 & HI2).
  rewrite E0. simpl. rewrite E2. simpl. apply IH; [done|lia..].
Qed.

Lemma uci_01_inv rm frame slot uci target ue :
  1 <= rm <= 8 -> inv rm ue -> num_harq uci <= Z.of_nat (length (harq_list uci)) ->
  exists ue', handle_nr_uci_pucch_0_1 frame slot uci target rm ue = Done ue' /\ inv rm ue'.
Proof.
  intros Hrm HI Hn. unfold handle_nr_uci_pucch_0_1.
  assert (exists ue1, (if Z.testbit (pduBitmap uci) 1 then
          ue ← uci_01_harq (Z.to_nat (num_harq uci)) 0 frame slot uci rm ue;
          Done (if (harq_confidence_level uci =? 0) && negb (ul_cqi uci =? 255)
                then ue <| pucch_snrx10 := ul_cqi uci * 5 - 640 |> <| tpc1 := nr_get_tpc target (ul_cqi uci) 30 0 |>
                else ue <| tpc1 := 1 |>)
        else Done ue) = Done ue1 /\ inv rm ue1) as (ue1 & -> & HI1).
  { cif; [|by exists ue]. destruct (uci_01_harq_inv rm frame slot uci (Z.to_nat (num_harq uci)) 0 ue) as (ue1 & -> & HI1);
      [done|done|lia|lia|]. eexists. split; [done|]. eapply inv_same; [..|exact HI1]; cif; done. }
  eexists. split; [done|]. eapply inv_same; [..|exact HI1]; cif; done.
Qed.

Lemma uci_234_inv rm frame slot csi uci target ue :
  1 <= rm <= 8 -> inv rm ue -> harq_bit_len uci <= 32 -> harq_bit_len uci <= 8 * Z.of_nat (length (harq_payload uci)) ->
  exists ue', handle_nr_uci_pucch_2_3_4 frame slot csi uci target rm ue = Done ue' /\ inv rm ue'.
Proof.
  intros Hrm HI Hn Hl. unfold handle_nr_uci_pucch_2_3_4. destruct csi; simpl; [|by exists ue].
  set (ue1 := if negb _ then _ else ue). assert (HI1 : inv rm ue1) by (eapply inv_same; [..|exact HI]; subst ue1; cif; done).
  cif; [|by exists ue1]. apply uci_234_harq_inv; [done|done|lia|lia|lia].
Qed.

(** ** Transmission *)

(** The process [p] was taken from one of the lists ([a0], [r0] before, [a], [r] now). *)
Lemma await_feedback_ok rm ue n a f r a0 r0 p frame slot :
  1 <= rm <= 8 -> lists_ok (dl ue) n a f r -> length (rounds ue) = 8%nat -> 0 <= p < n -> p ∉ f -> p ∉ a ->
  procs_ok rm a0 f r0 (wk <$> harq_processes ue) ->
  (forall i, i <> p -> (i ∈ a <-> i ∈ a0) /\ (i ∈ r <-> i ∈ r0)) -> (p ∈ r -> p ∈ r0 /\ p ∉ a0) ->
  exists ue', await_feedback ue p frame slot = Done ue' /\ lists_ok (dl ue') n a (f ++ [p]) r /\
    procs_ok rm a (f ++ [p]) r (wk <$> harq_processes ue') /\ length (rounds ue') = 8%nat /\
    ra_state ue' = ra_state ue /\ ra_harq_pid ue' = ra_harq_pid ue /\
    exists h, harq_processes ue' !! Z.to_nat p = Some h /\ round h < rm.
Proof.
  intros Hrm [Ra Rf Rr La Lf Lr Hn] Hro Hp Hpf Hpa HP Hi Hpr. unfold await_feedback.
  destruct (dl_lookup _ _ _ _ _ p HP ltac:(lia)) as (h & Eh & [P1 P2 P3 P4 P5]).
  rewrite (rd_done _ _ h) by (lia || done). simpl.
  destruct (is_waiting h) eqn:Hw; [exfalso; by apply Hpf, P1|].
  destruct (add_tail_done _ _ p Rf ltac:(lia) Hpf) as (l' & El & Rl & Ll). unfold on_feedback. rewrite El. simpl.
  rewrite (upd_harq_done _ p _ h) by (simpl; lia || done). simpl.
  destruct (lookup_lt_is_Some_2 (rounds ue) (Z.to_nat (round h)) ltac:(lia)) as [c Ec].
  rewrite (rd_done _ _ c) by (lia || done). simpl. rewrite wr_done by lia. eexists. split; [done|]. simpl.
  split_and!; [| |by rewrite length_insert|done|done|].
  - split; simpl; [done..|lia|done|done].
  - eapply dl_insert; [exact HP|lia| |].
    + intros i Hne. destruct (Hi i Hne). set_solver.
    + simpl. split; [set_solver|done|done| |set_solver]. intros Hin _. destruct (Hpr Hin). auto.
  - eexists. split; [apply list_lookup_insert_eq; by eapply lookup_lt_Some|]. simpl. lia.
Qed.

Lemma dlsch_inv rm ue frame slot :
  1 <= rm <= 8 -> inv rm ue -> ra_state ue = nrRA_gNB_IDLE -> exists ue', dlsch ue frame slot rm = Done ue' /\ inv rm ue'.
Proof.
  intros Hrm (n & a & f & r & [HL HP Hro Hs]) Hra. rewrite Hra in Hs. simpl in Hs.
  pose proof (perm_nodup _ _ Hs) as Hd. pose proof HL as [Ra Rf Rr La Lf Lr Hn].
  unfold dlsch, dlsch_harq_pid. destruct r as [|p r].
  - rewrite (head_nil _ Rr). simpl. destruct a as [|p a]; [rewrite (head_nil _ Ra); simpl; eexists; split; [done|]|].
    { exists n, [], f, []. split; [done|done|done|by rewrite Hra]. }
    destruct (head_cons _ _ _ Ra) as [Hh Hb]. rewrite Hh. cif; zbool; [lia|]. unfold nr_schedule_ue_spec. simpl.
    rewrite Hh. cif; zbool; [lia|]. destruct (remove_front_done _ _ _ Ra) as (l & El & Rl & Ll).
    unfold on_available. rewrite El. simpl. pose proof (rep_nodup _ _ Ra) as [Hpa _]%NoDup_cons.
    destruct (nodup_three _ _ _ p Hd) as (Hda & _). destruct (Hda ltac:(set_solver)) as [Hpf _].
    destruct (await_feedback_ok rm (ue <| dl; available := l |>) n a f [] (p :: a) [] p frame slot)
      as (ue' & E' & HL' & HP' & Hro' & Hra' & _ & h & Eh & Hr);
      [done|split; simpl; done || lia|done|lia|done|done|done|set_solver|set_solver|].
    simpl in E'. rewrite E'. simpl. rewrite (rd_done _ _ h) by (lia || done). simpl. cif; zbool; [lia|]. exists ue'. split; [done|].
    exists n, a, (f ++ [p]), []. split; [done..|]. rewrite Hra'. simpl. rewrite Hra. simpl. rewrite <- Hs. solve_Permutation.
  - destruct (head_cons _ _ _ Rr) as [Hh Hb]. rewrite Hh. cif; zbool; [|lia]. unfold nr_schedule_ue_spec. cif; zbool; [lia|].
    destruct (nodup_three _ _ _ p Hd) as (_ & _ & Hdr). destruct (Hdr ltac:(set_solver)) as [Hpa Hpf].
    destruct (dl_lookup _ _ _ _ _ p HP ltac:(lia)) as (h & Eh & [P1 P2 P3 P4 P5]).
    rewrite (rd_done _ _ h) by (lia || done). simpl. specialize (P4 ltac:(set_solver) Hpa). cif; zbool; [lia|].
    destruct (remove_done _ _ p Rr ltac:(set_solver)) as (l & El & Rl & Ll). unfold on_retrans. rewrite El. simpl.
    pose proof (filter_perm _ p (rep_nodup _ _ Rr) ltac:(set_solver)) as Hfp.
    set (r' := filter (fun x => x <> p) (p :: r)) in *.
    assert (Hpr' : p ∉ r') by (unfold r'; rewrite list_elem_of_filter; naive_solver).
    destruct (await_feedback_ok rm (ue <| dl; retrans := l |>) n a f r' a (p :: r) p frame slot)
      as (ue' & E' & HL' & HP' & Hro' & Hra' & _ & h' & Eh' & Hr);
      [done|split; simpl; done || lia|done|lia|done|done|done| |done|].
    { intros i Hi. split; [done|]. rewrite <- Hfp. set_solver. }
    simpl in E'. rewrite E'. simpl. rewrite (rd_done _ _ h') by (lia || done). simpl. cif; zbool; [lia|]. exists ue'. split; [done|].
    exists n, a, (f ++ [p]), r'. split; [done..|]. rewrite Hra'. simpl. rewrite Hra. simpl. rewrite <- Hs, <- Hfp. solve_Permutation.
Qed.

(** ** Random access *)

Lemma msg4_inv rm ue frame slot :
  1 <= rm <= 8 -> inv rm ue -> ra_state ue = nrRA_Msg4 -> exists ue', nr_generate_Msg4 ue frame slot = Done ue' /\ inv rm ue'.
Proof.
  intros Hrm (n & a & f & r & [HL HP Hro Hs]) Hra. rewrite Hra in Hs. destruct Hs as (Hs & -> & Hlr).
  pose proof (perm_nodup _ _ Hs) as Hd. pose proof HL as [Ra Rf Rr La Lf Lr Hn]. unfold nr_generate_Msg4.
  destruct r as [|p [|]]; [| |simpl in Hlr; lia].
  - rewrite (head_nil _ Rr). simpl. rewrite app_nil_r in Hs. destruct a as [|p a].
    { apply Permutation_length in Hs. rewrite length_seqZ in Hs. simpl in Hs. lia. }
    destruct (head_cons _ _ _ Ra) as [Hh Hb]. rewrite Hh. cif; zbool; [lia|].
    destruct (remove_front_done _ _ _ Ra) as (l & El & Rl & Ll). unfold on_available. rewrite El. simpl.
    pose proof (rep_nodup _ _ Ra) as [Hpa _]%NoDup_cons.
    destruct (await_feedback_ok rm (ue <| dl; available := l |> <| ra_harq_pid := p |>) n a [] [] (p :: a) [] p frame slot)
      as (ue' & E' & HL' & HP' & Hro' & Hra' & Hpid & _);
      [done|split; simpl; done || lia|done|lia|set_solver|done|done|set_solver|set_solver|].
    simpl in E'. rewrite E'. simpl. eexists. split; [done|]. exists n, a, [p], []. split; [done..|]. simpl. rewrite Hpid. simpl.
    split_and!; [left|by right|by left|lia|lia]. rewrite <- Hs. solve_Permutation.
  - destruct (head_cons _ _ _ Rr) as [Hh Hb]. rewrite Hh.
    rewrite (proj2 (Z.geb_le p 0)), (proj2 (Z.ltb_ge p 0)) by lia.
    destruct (dl_lookup _ _ _ _ _ p HP ltac:(lia)) as (h & Eh & [P1 P2 P3 P4 P5]).
    rewrite (rd_done _ _ h) by (lia || done). simpl. destruct (is_waiting h); [set_solver|]. simpl.
    destruct (nodup_three _ _ _ p Hd) as (_ & _ & Hdr). destruct (Hdr ltac:(set_solver)) as [Hpa Hpf].
    destruct (await_feedback_ok rm (ue <| ra_harq_pid := p |>) n a [] [p] a [p] p frame slot)
      as (ue' & E' & HL' & HP' & Hro' & Hra' & Hpid & _);
      [done|split; simpl; done || lia|done|lia|set_solver|done|done|set_solver|set_solver|].
    simpl in E'. rewrite E'. simpl. eexists. split; [done|]. exists n, a, [p], [p]. split; [done..|]. simpl. rewrite Hpid. simpl.
    split_and!; [right|by right|by right|lia|lia]. rewrite app_nil_l in Hs. by rewrite last_snoc.
Qed.

Lemma check_msg4_inv rm ue :
  1 <= rm <= 8 -> inv rm ue -> ra_state ue = nrRA_WAIT_Msg4_ACK -> exists ue', nr_check_Msg4_Ack ue = Done ue' /\ inv rm ue'.
Proof.
  intros Hrm (n & a & f & r & [HL HP Hro Hs]) Hra. rewrite Hra in Hs. destruct Hs as (Hs & Hf & Hr & Hq).
  pose proof HL as [Ra Rf Rr La Lf Lr Hn]. unfold nr_check_Msg4_Ack. set (p := ra_harq_pid ue) in *.
  destruct (dl_lookup _ _ _ _ _ p HP ltac:(lia)) as (h & Eh & [P1 P2 P3 P4 P5]).
  rewrite (rd_done _ _ h) by (lia || done). simpl. destruct (is_waiting h).
  { exists ue. split; [done|]. exists n, a, f, r. split; [done..|]. by rewrite Hra. }
  assert (f = []) as -> by (destruct Hf as [->| ->]; [done|]; set_solver). rewrite app_nil_r in Hs. cif; zbool.
  - destruct Hr as [->| ->].
    + rewrite (head_nil _ Rr). simpl. eexists. split; [done|]. exists n, a, [], []. split; [done..|]. simpl.
      destruct Hs as [Hs|(? & _)]; done.
    + destruct (head_cons _ _ _ Rr) as [Hh Hb]. rewrite Hh. cif; zbool; [|lia].
      destruct Hs as [Hs|(_ & Hs & _)].
      { exfalso. destruct (nodup_three a [] [p] p (perm_nodup _ _ Hs)) as (_ & _ & Hdr).
        destruct (Hdr ltac:(set_solver)). specialize (P4 ltac:(set_solver) ltac:(done)). lia. }
      destruct (remove_done _ _ p Rr ltac:(set_solver)) as (l & El & Rl & Ll). unfold on_retrans. simpl. rewrite El.
      rewrite filter_cons_False in Rl by naive_solver. eexists. split; [done|]. exists n, a, [], []. split; simpl; [..|done| ].
      * split; simpl; done || lia.
      * destruct HP as [HP1 HP2]. split; [done|]. intros i w k Hi. destruct (HP2 i w k Hi) as [Q1 Q2 Q3 Q4 Q5].
        split; [done|done|done|set_solver|]. intros _ _. destruct (decide (Z.of_nat i = p)) as [Hip|Hne].
        -- apply Q3. rewrite Hip, Hs. apply elem_of_seqZ. lia.
        -- apply Q5; set_solver.
      * by rewrite app_nil_r.
  - eexists. split; [done|]. exists n, a, [], r. split; [done..|]. simpl. destruct Hs as [Hs|(-> & Hs & _)].
    + split_and!; [done|done|]. destruct Hr as [->| ->]; simpl; lia.
    + exfalso. apply E, P3. rewrite Hs. apply elem_of_seqZ. lia.
Qed.

(** ** Reset and configuration *)

Lemma shape_cases s q n a f r : shape s q n a f r ->
  a ++ f ++ r ≡ₚ seqZ 0 n \/ r = [q] /\ a ++ f ≡ₚ seqZ 0 n /\ last (a ++ f) = Some q.
Proof. destruct s; simpl; tauto. Qed.

(** All the processes are free after a reset. *)
Lemma reset_ok rm ue s q :
  1 <= rm <= 8 -> inv rm ue -> s <> nrRA_WAIT_Msg4_ACK ->
  exists ue', reset_dl_harq_list ue = Done ue' /\ inv rm (ue' <| ra_state := s |> <| ra_harq_pid := q |>) /\
    ra_state ue' = ra_state ue /\ ra_harq_pid ue' = ra_harq_pid ue.
Proof.
  intros Hrm (n & a & f & r & [[Ra Rf Rr La Lf Lr Hn] HP Hro Hs]) Hws. unfold reset_dl_harq_list.
  assert (NoDup (a ++ f)) as Hd.
  { destruct (shape_cases _ _ _ _ _ _ Hs) as [Hp%perm_nodup|(_ & Hp%perm_nodup & _)]; [|done].
    rewrite app_assoc in Hp. by apply NoDup_app in Hp as [? _]. }
  destruct (drain_ok n (length (next (feedback (dl ue)))) _ _ f a Rf Ra Lf La Hd) as (fb & av & E1 & R1 & R2 & L1 & L2);
    [by eapply rep_length|]. rewrite E1. simpl.
  assert (exists rt av' s', drain (length (next (retrans (dl ue)))) (retrans (dl ue)) av = Done (rt, av') /\
            represents rt [] /\ represents av' s' /\ len rt = n /\ len av' = n /\ s' ≡ₚ seqZ 0 n)
    as (rt & av' & s' & E2 & R3 & R4 & L3 & L4 & Hs').
  { destruct (shape_cases _ _ _ _ _ _ Hs) as [Hp|(-> & Hp & Hla)].
    - destruct (drain_ok n (length (next (retrans (dl ue)))) _ _ r (a ++ f) Rr R2 Lr L2) as (rt & av' & E2 & R3 & R4 & L3 & L4).
      + rewrite <- app_assoc. exact (perm_nodup _ _ Hp).
      + by eapply rep_length.
      + exists rt, av', ((a ++ f) ++ r). split_and!; try done. by rewrite <- app_assoc.
    - destruct (drain_same n (length (next (retrans (dl ue)))) _ _ _ _ Rr R2 Hla Lr L2) as (rt & E2 & R3 & L3).
      + apply rep_length in Rr. simpl in Rr. lia.
      + by exists rt, av, (a ++ f). }
  rewrite E2. simpl. eexists. split; [done|]. split; [|done]. exists n, s', [], []. split; simpl.
  - by split.
  - destruct HP as [HP _]. rewrite length_fmap in HP. split; [by rewrite !length_fmap|].
    intros i w k. rewrite !list_lookup_fmap. destruct (harq_processes ue !! i); simpl; [|done]. intros [= <- <-].
    split; [split; [done|set_solver]|lia|done|set_solver|done].
  - done.
  - destruct s; simpl; rewrite ?app_nil_r; [done| |done]. split_and!; [done|done|lia].
Qed.

Lemma nrofHARQ_bounds conf : 0 < nrofHARQ conf <= NR_MAX_HARQ_PROCESSES.
Proof. destruct conf as [[]|]; done. Qed.

Lemma create_new_ok rm acked s conf :
  1 <= rm <= 8 -> s <> nrRA_WAIT_Msg4_ACK ->
  exists ue, create_dl_harq_list (new_ue acked s) conf = Done ue /\ inv rm ue.
Proof.
  intros Hrm Hs. pose proof (nrofHARQ_bounds conf) as Hn. unfold create_dl_harq_list. simpl.
  set (n := nrofHARQ conf) in *. pose proof (create_rep n ltac:(lia)) as Rc.
  destruct (add_pids_ok (Z.to_nat n) 0 _ [] n Rc eq_refl ltac:(lia) ltac:(lia)) as (av & E & R & L); [set_solver|].
  rewrite E. simpl. eexists. split; [done|]. rewrite Z2Nat.id in R by lia. exists n, (seqZ 0 n), [], []. split; simpl; [..|done| ].
  - by split.
  - change (procs_ok rm (seqZ 0 n) [] [] (replicate 16 (false, 0))). split; [done|].
    intros i w k Hh. apply lookup_replicate in Hh as [[= -> ->] _].
    split; [set_solver|lia|done|set_solver|done].
  - destruct s; simpl; rewrite ?app_nil_r; [done| |done]. split_and!; [done|done|lia].
Qed.

Lemma create_more_ok rm ue conf :
  1 <= rm <= 8 -> inv rm ue -> len (available (dl ue)) <= nrofHARQ conf -> ra_state ue <> nrRA_WAIT_Msg4_ACK ->
  exists ue', create_dl_harq_list ue conf = Done ue' /\ inv rm ue'.
Proof.
  intros Hrm HI Hle Hra. pose proof HI as (n & a & f & r & [[Ra Rf Rr La Lf Lr Hn] HP Hro Hs]).
  pose proof (nrofHARQ_bounds conf) as Hm. unfold create_dl_harq_list. rewrite La, Lf, Lr, Z.eqb_refl. simpl.
  set (m := nrofHARQ conf) in *. cif; zbool; [lia|]. cif; zbool; [by exists ue|]. cif; zbool; [lia|].
  destruct (resize_done _ _ m Ra ltac:(lia)) as (av & Q01 & R1 & L1). rewrite Q01. simpl.
  destruct (add_pids_ok (Z.to_nat (m - n)) n av a m R1 L1 ltac:(lia) ltac:(lia)) as (av' & Q02 & R2 & L2).
  { intros i Hi. apply (rep_bound _ _ Ra) in Hi. lia. }
  rewrite Q02. simpl. destruct (resize_done _ _ m Rf ltac:(lia)) as (fb & Q03 & R3 & L3). rewrite Q03. simpl.
  destruct (resize_done _ _ m Rr ltac:(lia)) as (rt & Q04 & R4 & L4). rewrite Q04. simpl.
  eexists. split; [done|]. rewrite Z2Nat.id in R2 by lia. exists m, (a ++ seqZ n (m - n)), f, r. split; simpl; [..|done| ].
  - by split.
  - destruct HP as [HP1 HP2]. split; [done|]. intros i w k Hi. destruct (HP2 i w k Hi) as [Q1 Q2 Q3 Q4 Q5].
    split; [done|done| |set_solver|done]. intros [Hin|Hin]%elem_of_app; [by apply Q3|].
    apply elem_of_seqZ in Hin. apply Q5; intros Hx; [apply (rep_bound _ _ Rf) in Hx|apply (rep_bound _ _ Rr) in Hx]; lia.
  - assert (Hp : a ++ f ++ r ≡ₚ seqZ 0 n -> (a ++ seqZ n (m - n)) ++ f ++ r ≡ₚ seqZ 0 m).
    { intros Hp. replace m with (n + (m - n)) at 2 by lia. rewrite seqZ_app, <- Hp by lia. rewrite Z.add_0_l. solve_Permutation. }
    destruct (ra_state ue); simpl in *; [auto|destruct Hs as (? & ? & ?); auto|done].
Qed.

(** Every event returns and keeps the invariant. *)
Lemma step_inv target rm ue e :
  1 <= rm <= 8 -> inv rm ue -> dl_allowed ue e -> exists ue', step target rm ue e = Done ue' /\ inv rm ue'.
Proof.
  intros Hrm HI Ha. destruct e; simpl in *.
  - by apply dlsch_inv.
  - by apply uci_01_inv.
  - destruct Ha. by apply uci_234_inv.
  - unfold nr_schedule_RA. destruct (ra_state ue) eqn:E; [by exists ue| |by apply check_msg4_inv].
    destruct msg4 as [[]|]; [by apply msg4_inv|by exists ue].
  - unfold rx_msg3_crnti.
    assert (HI' : inv rm (ue <| Msg4_ACKed := false |>)) by (eapply inv_same; [..|exact HI]; done).
    destruct (reset_ok rm (ue <| Msg4_ACKed := false |>) nrRA_Msg4 (ra_harq_pid ue) Hrm HI' ltac:(done)) as (ue' & E & HI2 & _ & Hq).
    rewrite E. simpl. eexists. split; [done|]. eapply inv_same; [..|exact HI2]; [done|done|]. by split_and!.
  - destruct (reset_ok rm ue nrRA_gNB_IDLE (ra_harq_pid ue) Hrm HI ltac:(done)) as (ue' & E & HI2 & _ & Hq).
    rewrite E. simpl. eexists. split; [done|]. eapply inv_same; [..|exact HI2]; [done|done|]. by split_and!.
  - destruct Ha. by apply create_more_ok.
Qed.

Lemma reach_inv target rm ue : 1 <= rm <= 8 -> reach target rm ue -> inv rm ue.
Proof.
  intros Hrm. induction 1 as [acked s conf ue Hs E|ue e ue' _ IH Ha E].
  - destruct (create_new_ok rm acked s conf Hrm Hs) as (ue' & E' & HI). congruence.
  - destruct (step_inv target rm ue e Hrm IH Ha) as (ue'' & E' & HI). congruence.
Qed.

(** C21. The bookkeeping of the downlink HARQ processes.  Whatever the sequence of transmissions, of feedback messages on
    PUCCH (on time, late or early, with any contents), of random accesses, resets and extensions of the number of
    processes since the UE was created, no assertion of the bookkeeping fails and no access is outside of an array (up
    to the 8 rounds the statistics have room for).  Every process of the UE is free, waits for feedback or waits for a
    retransmission, and is in only one of these lists unless the acknowledgment of the fourth message of random access
    is awaited; the processes that wait are those of the feedback list, free processes start at round 0, those to
    retransmit are past it and no process exceeds the maximum of rounds; the scheduler skips the UE for want of a
    process only when every process waits for feedback. *)
Theorem dl_harq_processes target rm ue :
  1 <= rm <= 8 -> reach target rm ue ->
  (forall e, dl_allowed ue e -> exists ue', step target rm ue e = Done ue') /\
  exists n a f r, represents (available (dl ue)) a /\ represents (feedback (dl ue)) f /\ represents (retrans (dl ue)) r /\
    len (available (dl ue)) = n /\
    (ra_state ue <> nrRA_WAIT_Msg4_ACK -> a ++ f ++ r ≡ₚ seqZ 0 n) /\
    (ra_state ue = nrRA_gNB_IDLE -> dlsch_harq_pid ue = None -> f ≡ₚ seqZ 0 n) /\
    forall p, 0 <= p < n -> exists h, harq_processes ue !! Z.to_nat p = Some h /\
      (is_waiting h = true <-> p ∈ f) /\ (p ∈ a -> round h = 0) /\ (p ∈ r -> p ∉ a -> 0 < round h) /\ 0 <= round h < rm.
Proof.
  intros Hrm HR. pose proof (reach_inv target rm ue Hrm HR) as HI. split.
  { intros e Ha. destruct (step_inv target rm ue e Hrm HI Ha) as (ue' & E & _). eauto. }
  destruct HI as (n & a & f & r & [[Ra Rf Rr La Lf Lr Hn] HP Hro Hs]). exists n, a, f, r. split_and!; try done.
  - intros Hw. destruct (ra_state ue); simpl in Hs; [done|by destruct Hs|done].
  - intros Hi Hnone. rewrite Hi in Hs. simpl in Hs. unfold dlsch_harq_pid in Hnone.
    destruct r as [|p r].
    2:{ destruct (head_cons _ _ _ Rr) as [Hh Hb]. rewrite Hh in Hnone. revert Hnone. cif; zbool; [done|lia]. }
    destruct a as [|p a]; [by rewrite app_nil_r in Hs|].
    destruct (head_cons _ _ _ Ra) as [Hh Hb]. rewrite Hh, (head_nil _ Rr) in Hnone. revert Hnone. simpl. cif; zbool; [lia|done].
  - intros p Hp. destruct (dl_lookup _ _ _ _ _ p HP ltac:(lia)) as (h & Eh & [P1 P2 P3 P4 P5]). exists h. done.
Qed.

(** A UE with a process of each kind: three transmissions, the first acknowledged, the second not. *)
Definition force (o : outcome ue_t) : ue_t := match o with Done ue => ue | _ => new_ue false nrRA_gNB_IDLE end.
Definition demo_0 : ue_t := force (create_dl_harq_list (new_ue true nrRA_gNB_IDLE) (Some n4)).
Definition demo_1 : ue_t := force (step 150 4 demo_0 (Dlsch 10 7)).
Definition demo_2 : ue_t := force (step 150 4 demo_1 (Dlsch 10 7)).
Definition demo_3 : ue_t := force (step 150 4 demo_2 (Dlsch 11 8)).
Definition demo_4 : ue_t := force (step 150 4 demo_3 (Uci234 10 7 true (mk_uci234 2 140 0 2 [1]))).

Lemma demo_reach_3 : reach 150 4 demo_3.
Proof.
  apply (reach_step _ _ demo_2 (Dlsch 11 8)); [|vm_compute; reflexivity..].
  apply (reach_step _ _ demo_1 (Dlsch 10 7)); [|vm_compute; reflexivity..].
  apply (reach_step _ _ demo_0 (Dlsch 10 7)); [|vm_compute; reflexivity..].
  apply (reach_new _ _ true nrRA_gNB_IDLE (Some n4)); [done|vm_compute; reflexivity].
Qed.

Lemma demo_reach : reach 150 4 demo_4.
Proof.
  apply (reach_step _ _ demo_3 (Uci234 10 7 true (mk_uci234 2 140 0 2 [1])));
    [apply demo_reach_3|by split|vm_compute; reflexivity].
Qed.

Lemma dl_harq_processes_witness :
  (exists ue', step 150 4 demo_4 (Dlsch 12 7) = Done ue') /\
  exists n a f r, represents (available (dl demo_4)) a /\ represents (feedback (dl demo_4)) f /\
    represents (retrans (dl demo_4)) r /\ len (available (dl demo_4)) = n /\ a ++ f ++ r ≡ₚ seqZ 0 n.
Proof.
  destruct (dl_harq_processes 150 4 demo_4 ltac:(lia) demo_reach) as (Hs & n & a & f & r & Ra & Rf & Rr & Hl & Hp & _).
  split; [apply Hs; vm_compute; reflexivity|]. exists n, a, f, r. split_and!; [assumption..|]. apply Hp. vm_compute. discriminate.
Defined.

(** ** The feedback that is due *)

(** [frame].[slot] is before [frame'].[slot']: frames are counted modulo 1024. *)
Definition earlier (frame slot frame' slot' : Z) : Prop :=
  0 < (frame' - frame) mod 1024 < 512 \/ frame = frame' /\ slot < slot'.

Lemma rem_diff x y : 0 <= x < 1024 -> 0 <= y < 1024 -> Z.rem (x - y + 1024) 1024 = (x - y) mod 1024.
Proof.
  intros. rewrite Z.rem_mod_nonneg by lia. replace (x - y + 1024) with (x - y + 1 * 1024) by lia. apply Z_mod_plus_full.
Qed.

Lemma mod_swap x y : 0 <= x < 1024 -> 0 <= y < 1024 -> 0 < (y - x) mod 1024 < 512 <-> 512 < (x - y) mod 1024.
Proof. intros. Z.to_euclidean_division_equations. lia. Qed.

Lemma missed_iff h frame slot : 0 <= frame < 1024 -> 0 <= feedback_frame h < 1024 ->
  missed h frame slot = true <-> earlier (feedback_frame h) (feedback_slot h) frame slot.
Proof.
  intros Hf Hh. unfold missed, earlier. rewrite rem_diff, mod_swap, orb_true_iff, andb_true_iff by done. zify. lia.
Qed.
Lemma to_come_iff h frame slot : 0 <= frame < 1024 -> 0 <= feedback_frame h < 1024 ->
  to_come h frame slot = true <-> earlier frame slot (feedback_frame h) (feedback_slot h).
Proof.
  intros Hf Hh. unfold to_come, earlier. rewrite rem_diff, mod_swap, orb_true_iff, andb_true_iff by done. zify. lia.
Qed.

(** The process a feedback bit belongs to.  In a reachable state whose expected feedback frames are frame numbers,
    the search of the process whose feedback is due at [frame].[slot] returns.  It takes from the front of the feedback
    list exactly processes whose feedback was due earlier, and these become free or wait for a retransmission; the
    others keep waiting in their order.  The process it gives is the first that remains, and its feedback is due at this
    slot (or 512 frames away, which the comparison modulo 1024 does not separate); it gives none only when no process
    remains or the first one is due later. *)
Theorem find_harq_spec target rm ue frame slot :
  1 <= rm <= 8 -> reach target rm ue -> 0 <= frame < 1024 ->
  (forall p h, harq_processes ue !! p = Some h -> 0 <= feedback_frame h < 1024) ->
  exists f f1 f2 res ue' a' r', represents (feedback (dl ue)) f /\ f = f1 ++ f2 /\
    find_harq frame slot ue rm = Done (res, ue') /\
    represents (feedback (dl ue')) f2 /\ represents (available (dl ue')) a' /\ represents (retrans (dl ue')) r' /\
    (forall p, p ∈ f1 -> (p ∈ a' \/ p ∈ r') /\ exists h, harq_processes ue !! Z.to_nat p = Some h /\
       earlier (feedback_frame h) (feedback_slot h) frame slot) /\
    match f2 with
    | [] => res = None
    | p :: _ => exists h, harq_processes ue !! Z.to_nat p = Some h /\ harq_processes ue' !! Z.to_nat p = Some h /\
        ~ earlier (feedback_frame h) (feedback_slot h) frame slot /\
        (res = None /\ earlier frame slot (feedback_frame h) (feedback_slot h) \/
         res = Some p /\ (feedback_frame h = frame /\ feedback_slot h = slot \/ (frame - feedback_frame h) mod 1024 = 512))
    end.
Proof.
  intros Hrm HR Hfr Hff. destruct (reach_inv target rm ue Hrm HR) as (n & a & f & r & HO).
  destruct (find_harq_loop_ok rm ue n a f r frame slot (length (next (feedback (dl ue)))) Hrm HO) as
    (res & ue' & a' & f1 & f2 & r' & E & -> & [[Ra Rf Rr _ _ _ _] _ _ _] & Hm & Hd & _ & _ & Hsame & Hres);
    [eapply rep_length, HO|].
  exists (f1 ++ f2), f1, f2, res, ue', a', r'. split; [apply HO|]. split_and!; try done.
  - intros p Hp. split; [by apply Hd|]. rewrite Forall_forall in Hm. destruct (Hm p Hp) as (h & Eh & Hh). exists h.
    split; [done|]. apply missed_iff; eauto.
  - destruct f2 as [|p f2]; [done|]. destruct Hres as (h & Eh & Hnm & ->).
    pose proof Eh as Eh'. rewrite Hsame in Eh' by set_solver. exists h. split; [done|]. split; [done|].
    pose proof (Hff _ _ Eh') as Hb. apply not_true_iff_false in Hnm. rewrite missed_iff in Hnm by done. split; [done|].
    destruct (to_come h frame slot) eqn:Etc; [left; split; [done|by apply to_come_iff]|right]. split; [done|].
    apply not_true_iff_false in Etc. rewrite to_come_iff in Etc by done. revert Hnm Etc. unfold earlier.
    clear -Hfr Hb. intros H1 H2. Z.to_euclidean_division_equations. lia.
Qed.

Lemma find_harq_spec_witness :
  exists f f1 f2 res ue', represents (feedback (dl demo_3)) f /\ f = f1 ++ f2 /\
    find_harq 11 8 demo_3 4 = Done (res, ue') /\ represents (feedback (dl ue')) f2.
Proof.
  destruct (find_harq_spec 150 4 demo_3 11 8 ltac:(lia) demo_reach_3 ltac:(lia)) as (f & f1 & f2 & res & ue' & a' & r' & H1 & H2 & H3 & H4 & _).
  { intros p h Hh. apply list_elem_of_lookup_2 in Hh. revert h Hh. apply Forall_forall. vm_compute.
    repeat (constructor; [split; done|]). constructor. }
  exists f, f1, f2, res, ue'. split_and!; assumption.
Defined.
