(* ===== verification/HarqUl.v ===== *)
(** The uplink HARQ processes of a UE: the scheduler that takes them (gNB_scheduler_ulsch.c), the CRC indications that
    give them back, and the reset (gNB_scheduler_primitives.c). *)

From S2P Require Import Prelude NrList Harq.

(** ** State *)

(** The fields of a process the lists depend on, and the size of its transport block ([sched_pusch.tb_size]). *)
Record NR_UE_ul_harq_t := mk_ul_harq { ul_is_waiting : bool; ul_ndi : Z; ul_round : Z; ul_feedback_slot : Z; tb_size : Z }.
#[export] Instance eta_ul_harq : Eta NR_UE_ul_harq_t := fun r =>
  mk_ul_harq (ul_is_waiting r) (ul_ndi r) (ul_round r) (ul_feedback_slot r) (tb_size r).

Record ue_ul_t := mk_ue_ul {
  ul_harq_processes : list NR_UE_ul_harq_t;
  ul : harq_lists;
  ul_errors : Z;
  ul_rounds : list Z;
  sched_ul_bytes : Z;
  pusch_consecutive_dtx_cnt : Z;
  ul_failure : bool
}.
#[export] Instance eta_ue_ul : Eta ue_ul_t := fun r =>
  mk_ue_ul (ul_harq_processes r) (ul r) (ul_errors r) (ul_rounds r) (sched_ul_bytes r) (pusch_consecutive_dtx_cnt r)
    (ul_failure r).

Definition upd_ul_harq (ue : ue_ul_t) (pid : Z) (f : NR_UE_ul_harq_t -> NR_UE_ul_harq_t) : outcome ue_ul_t :=
  h ← rd (ul_harq_processes ue) pid;
  ps ← wr (ul_harq_processes ue) pid (f h);
  Done (ue <| ul_harq_processes := ps |>).
Definition on_ul_available (ue : ue_ul_t) (op : NR_list_t -> outcome NR_list_t) : outcome ue_ul_t :=
  l ← op (available (ul ue)); Done (ue <| ul; available := l |>).
Definition on_ul_feedback (ue : ue_ul_t) (op : NR_list_t -> outcome NR_list_t) : outcome ue_ul_t :=
  l ← op (feedback (ul ue)); Done (ue <| ul; feedback := l |>).
Definition on_ul_retrans (ue : ue_ul_t) (op : NR_list_t -> outcome NR_list_t) : outcome ue_ul_t :=
  l ← op (retrans (ul ue)); Done (ue <| ul; retrans := l |>).

(** ** Reception *)

(** [sched_ul_bytes -= tb_size], not below 0. *)
Definition sub_ul_bytes (b tb : Z) : Z := let b := s32 (b - tb) in if b <? 0 then 0 else b.

Definition abort_nr_ul_harq (ue : ue_ul_t) (harq_pid : Z) : outcome ue_ul_t :=
  ue ← upd_ul_harq ue harq_pid (fun h => h <| ul_ndi ::= Z.lxor 1 |> <| ul_round := 0 |>);
  ue ← on_ul_available (ue <| ul_errors ::= add64 1 |>) (fun l => add_tail_nr_list l harq_pid);
  harq ← rd (ul_harq_processes ue) harq_pid;
  Done (ue <| sched_ul_bytes ::= fun b => sub_ul_bytes b (tb_size harq) |>).

(** The processes in front of the one the indication is for have missed theirs.  [None]: the handler returns. *)
Fixpoint skip_missed (fuel : nat) (ue : ue_ul_t) (harq_id harq_round_max : Z) : outcome (option Z * ue_ul_t) :=
  let harq_pid := head (feedback (ul ue)) in
  if negb (harq_id =? harq_pid) || (harq_pid <? 0) then
    if harq_pid <? 0 then Done (None, ue)
    else
      match fuel with
      | O => Undef
      | S fuel =>
          ue ← on_ul_feedback ue remove_front_nr_list;
          ue ← upd_ul_harq ue harq_pid (fun h => h <| ul_is_waiting := false |>);
          h ← rd (ul_harq_processes ue) harq_pid;
          ue ← (if ul_round h >=? harq_round_max - 1 then abort_nr_ul_harq ue harq_pid
                else
                  ue ← upd_ul_harq ue harq_pid (fun h => h <| ul_round ::= fun r => u8 (r + 1) |>);
                  on_ul_retrans ue (fun l => add_tail_nr_list l harq_pid));
          skip_missed fuel ue harq_id harq_round_max
      end
  else Done (Some harq_pid, ue).

Definition handle_nr_ul_harq (ue : ue_ul_t) (harq_id : Z) (tb_crc_status : bool) (harq_round_max : Z) : outcome ue_ul_t :=
  '(pid, ue) ← skip_missed (length (next (feedback (ul ue)))) ue harq_id harq_round_max;
  match pid with
  | None => Done ue
  | Some harq_pid =>
      ue ← on_ul_feedback ue remove_front_nr_list;
      harq ← rd (ul_harq_processes ue) harq_pid;
      if negb (ul_is_waiting harq) then Exit
      else
        ue ← upd_ul_harq ue harq_pid (fun h => h <| ul_feedback_slot := u16 (-1) |> <| ul_is_waiting := false |>);
        if negb tb_crc_status then
          ue ← upd_ul_harq ue harq_pid (fun h => h <| ul_ndi ::= Z.lxor 1 |> <| ul_round := 0 |>);
          on_ul_available ue (fun l => add_tail_nr_list l harq_pid)
        else if ul_round harq >=? harq_round_max - 1 then abort_nr_ul_harq ue harq_pid
        else
          ue ← upd_ul_harq ue harq_pid (fun h => h <| ul_round ::= fun r => u8 (r + 1) |>);
          on_ul_retrans ue (fun l => add_tail_nr_list l harq_pid)
  end.

(** The part of [_nr_rx_sdu] for a known UE that reads the process and counts the bytes; [sdu] is whether a PDU was
    received.  The radio measurements and the contents of the PDU are not in this state. *)
Definition nr_rx_sdu (ue : ue_ul_t) (sdu : bool) (rssi ul_cqi pusch_failure_thres : Z) : outcome ue_ul_t :=
  let harq_pid := head (feedback (ul ue)) in
  _ ← (if rssi >? 0 then _ ← rd (ul_harq_processes ue) harq_pid; Done tt else Done tt);
  if sdu then
    let ue := ue <| pusch_consecutive_dtx_cnt := 0 |> in
    h ← rd (ul_harq_processes ue) harq_pid;
    Done (ue <| sched_ul_bytes ::= fun b => sub_ul_bytes b (tb_size h) |>)
  else
    cur_harq ← rd (ul_harq_processes ue) harq_pid;
    let ue := if ul_round cur_harq =? 3 then ue <| sched_ul_bytes ::= fun b => sub_ul_bytes b (tb_size cur_harq) |> else ue in
    let ue := if (ul_cqi =? 255) || (ul_cqi <=? 128) then ue <| pusch_consecutive_dtx_cnt ::= Z.add 1 |> else ue in
    Done (if pusch_consecutive_dtx_cnt ue >=? pusch_failure_thres then ue <| ul_failure := true |> else ue).

Record crc_t := mk_crc { harq_id : Z; tb_crc_status : bool; rssi : Z; ul_cqi : Z }.

(** The two calls for an indication. *)
Definition handle_nr_ulsch (ue : ue_ul_t) (crc : crc_t) (pusch_failure_thres harq_round_max : Z) : outcome ue_ul_t :=
  ue ← nr_rx_sdu ue (negb (tb_crc_status crc)) (rssi crc) (ul_cqi crc) pusch_failure_thres;
  handle_nr_ul_harq ue (harq_id crc) (tb_crc_status crc) harq_round_max.

(** ** Transmission *)

(** The choice of the preprocessor: the process to retransmit, -1 for a new one, [None] when the UE is skipped. *)
Definition ulsch_harq_pid (ue : ue_ul_t) : option Z :=
  let ul_harq_pid := head (retrans (ul ue)) in
  if ul_harq_pid >=? 0 then Some ul_harq_pid
  else if head (available (ul ue)) <? 0 then None
  else Some ul_harq_pid.

(** The process, out of its list. *)
Definition take_ul_harq (ue : ue_ul_t) (ul_harq_pid : Z) : outcome (Z * ue_ul_t) :=
  if ul_harq_pid <? 0 then
    let harq_id := head (available (ul ue)) in
    if negb (harq_id >=? 0) then Exit
    else ue ← on_ul_available ue remove_front_nr_list; Done (harq_id, ue)
  else
    harq ← rd (ul_harq_processes ue) ul_harq_pid;
    ue ← (if ul_round harq =? 0 then on_ul_available ue (fun l => remove_nr_list l ul_harq_pid)
          else on_ul_retrans ue (fun l => remove_nr_list l ul_harq_pid));
    Done (ul_harq_pid, ue).

Definition nr_schedule_ulsch (ue : ue_ul_t) (ul_harq_pid slot tb harq_round_max : Z) : outcome ue_ul_t :=
  '(harq_id, ue) ← take_ul_harq ue ul_harq_pid;
  cur_harq ← rd (ul_harq_processes ue) harq_id;
  if ul_is_waiting cur_harq then Exit
  else
    ue ← on_ul_feedback ue (fun l => add_tail_nr_list l harq_id);
    ue ← upd_ul_harq ue harq_id (fun h => h <| ul_feedback_slot := u16 slot |> <| ul_is_waiting := true |>);
    if negb (ul_round cur_harq <? harq_round_max) then Exit
    else
      n ← rd (ul_rounds ue) (ul_round cur_harq);
      rs ← wr (ul_rounds ue) (ul_round cur_harq) (add64 1 n);
      let ue := ue <| ul_rounds := rs |> in
      if ul_round cur_harq =? 0 then
        ue ← upd_ul_harq ue harq_id (fun h => h <| tb_size := tb |>);
        Done (ue <| sched_ul_bytes ::= fun b => s32 (b + tb) |>)
      else Done ue.

Definition ulsch (ue : ue_ul_t) (slot tb harq_round_max : Z) : outcome ue_ul_t :=
  match ulsch_harq_pid ue with
  | None => Done ue
  | Some pid => nr_schedule_ulsch ue pid slot tb harq_round_max
  end.

(** ** Creation and reset *)

(** The lists of a new UE ([add_new_nr_ue]). *)
Definition add_new_nr_ue : outcome ue_ul_t :=
  av ← add_pids 16 0 (create_nr_list 16);
  Done (mk_ue_ul (replicate (Z.to_nat NR_MAX_HARQ_PROCESSES) (mk_ul_harq false 0 0 0 0))
          (mk_lists av (create_nr_list 16) (create_nr_list 16)) 0 (replicate 8 0) 0 0 false).

Definition reset_ul_harq_list (ue : ue_ul_t) : outcome ue_ul_t :=
  '(fb, av) ← drain (length (next (feedback (ul ue)))) (feedback (ul ue)) (available (ul ue));
  '(rt, av) ← drain (length (next (retrans (ul ue)))) (retrans (ul ue)) av;
  Done (ue <| ul := mk_lists av fb rt |>
           <| ul_harq_processes ::= fmap (fun h => h <| ul_feedback_slot := u16 (-1) |> <| ul_round := 0 |> <| ul_is_waiting := false |>) |>).

(** ** The life of the processes *)

Inductive ul_event := Ulsch (slot tb : Z) | Crc (crc : crc_t) | ResetUl.

Definition ul_step (thres rm : Z) (ue : ue_ul_t) (e : ul_event) : outcome ue_ul_t :=
  match e with
  | Ulsch slot tb => ulsch ue slot tb rm
  | Crc crc => handle_nr_ulsch ue crc thres rm
  | ResetUl => reset_ul_harq_list ue
  end.

(** An indication is for a transmission: a process waits. *)
Definition ul_allowed (ue : ue_ul_t) (e : ul_event) : Prop :=
  match e with Crc _ => 0 <= head (feedback (ul ue)) | _ => True end.

Inductive ul_reach (thres rm : Z) : ue_ul_t -> Prop :=
| ul_reach_new ue : add_new_nr_ue = Done ue -> ul_reach thres rm ue
| ul_reach_step ue e ue' : ul_reach thres rm ue -> ul_allowed ue e -> ul_step thres rm ue e = Done ue' -> ul_reach thres rm ue'.

(** ** The invariant *)

#[export] Instance ul_process : HarqProcess NR_UE_ul_harq_t := {| waiting := ul_is_waiting; round_of := ul_round |}.

Record ul_ok (rm : Z) (ue : ue_ul_t) (a f r : list Z) : Prop := {
  uo_lists : lists_ok (ul ue) 16 a f r;
  uo_procs : procs_ok rm a f r (wk <$> ul_harq_processes ue);
  uo_rounds : length (ul_rounds ue) = 8%nat;
  uo_perm : a ++ f ++ r ≡ₚ seqZ 0 16
}.

Lemma ul_lookup rm a f r (ps : list NR_UE_ul_harq_t) pid : procs_ok rm a f r (wk <$> ps) -> 0 <= pid < 16 ->
  exists h, ps !! Z.to_nat pid = Some h /\ proc_ok rm a f r pid (ul_is_waiting h) (ul_round h).
Proof. exact (procs_lookup rm a f r ps pid). Qed.

Lemma ul_insert rm a f r a' f' r' ps pid (h : NR_UE_ul_harq_t) :
  procs_ok rm a f r (wk <$> ps) -> 0 <= pid ->
  (forall i, i <> pid -> (i ∈ a' <-> i ∈ a) /\ (i ∈ f' <-> i ∈ f) /\ (i ∈ r' <-> i ∈ r)) ->
  proc_ok rm a' f' r' pid (ul_is_waiting h) (ul_round h) ->
  procs_ok rm a' f' r' (wk <$> <[Z.to_nat pid := h]> ps).
Proof. exact (procs_insert rm a f r a' f' r' ps pid h). Qed.

Lemma upd_ul_done ue pid f h : 0 <= pid -> ul_harq_processes ue !! Z.to_nat pid = Some h ->
  upd_ul_harq ue pid f = Done (ue <| ul_harq_processes := <[Z.to_nat pid := f h]> (ul_harq_processes ue) |>).
Proof.
  intros Hp Hh. unfold upd_ul_harq. rewrite (rd_done _ _ h) by done. simpl.
  rewrite wr_done by (apply lookup_lt_Some in Hh; lia). done.
Qed.

(** ** Reception *)

(** The process that waits first, taken out of the feedback list, becomes free ([free]) or is to be retransmitted. *)
Lemma ul_move_ok rm ue a p f r h h' fb :
  1 <= rm <= 8 -> ul_ok rm ue a (p :: f) r -> ul_harq_processes ue !! Z.to_nat p = Some h ->
  remove_front_nr_list (feedback (ul ue)) = Done fb -> ul_is_waiting h' = false ->
  (ul_round h' = 0 -> exists av, add_tail_nr_list (available (ul ue)) p = Done av /\
     forall ue', ul ue' = mk_lists av fb (retrans (ul ue)) -> ul_harq_processes ue' = <[Z.to_nat p := h']> (ul_harq_processes ue) ->
       ul_rounds ue' = ul_rounds ue -> ul_ok rm ue' (a ++ [p]) f r) /\
  (0 < ul_round h' < rm -> exists rt, add_tail_nr_list (retrans (ul ue)) p = Done rt /\
     forall ue', ul ue' = mk_lists (available (ul ue)) fb rt -> ul_harq_processes ue' = <[Z.to_nat p := h']> (ul_harq_processes ue) ->
       ul_rounds ue' = ul_rounds ue -> ul_ok rm ue' a f (r ++ [p])).
Proof.
  intros Hrm [[Ra Rf Rr La Lf Lr Hn] HP Hro Hs] Hh Efb Hw. destruct (head_cons _ _ _ Rf) as [_ Hb].
  pose proof (rep_nodup _ _ Rf) as [Hpf _]%NoDup_cons.
  destruct (nodup_three a (p :: f) r p (perm_nodup _ _ Hs)) as (_ & Hd & _). destruct (Hd ltac:(set_solver)) as [Hpa Hpr].
  destruct (remove_front_done _ _ _ Rf) as (fb' & Efb' & Rfb & Lfb). rewrite Efb in Efb'. injection Efb' as <-.
  split; intros Hr.
  - destruct (add_tail_done _ _ p Ra ltac:(lia) Hpa) as (av & Eav & Rav & Lav). exists av. split; [done|].
    intros ue' E1 E2 E3. split; rewrite ?E1, ?E2, ?E3; [split; simpl; done || lia| |done|rewrite <- Hs; solve_Permutation].
    eapply ul_insert; [exact HP|lia|set_solver|]. rewrite Hw, Hr. split; [set_solver|lia|done|set_solver|done].
  - destruct (add_tail_done _ _ p Rr ltac:(lia) Hpr) as (rt & Ert & Rrt & Lrt). exists rt. split; [done|].
    intros ue' E1 E2 E3. split; rewrite ?E1, ?E2, ?E3; [split; simpl; done || lia| |done|rewrite <- Hs; solve_Permutation].
    eapply ul_insert; [exact HP|lia|set_solver|]. rewrite Hw. split; [set_solver|lia|set_solver|lia|set_solver].
Qed.

Definition ul_inv (rm : Z) (ue : ue_ul_t) : Prop := exists a f r, ul_ok rm ue a f r.

Lemma skip_missed_ok rm ue a f r harq_id fuel :
  1 <= rm <= 8 -> ul_ok rm ue a f r -> (length f <= fuel)%nat ->
  exists res ue' a' f' r', skip_missed fuel ue harq_id rm = Done (res, ue') /\ ul_ok rm ue' a' f' r' /\
    match res with None => f' = [] /\ harq_id ∉ f | Some p => p = harq_id /\ exists f1 f2, f = f1 ++ p :: f2 /\ f' = p :: f2 end.
Proof.
  intros Hrm. revert ue a f r. induction fuel as [|fuel IH]; intros ue a f r HO Hf.
  all: destruct f as [|p f]; [simpl; rewrite (head_nil _ (lo_f _ _ _ _ _ (uo_lists _ _ _ _ _ HO))), orb_true_r; simpl;
    exists None, ue, a, [], r; split_and!; [done|done|done|set_solver]|simpl in Hf; try lia].
  pose proof HO as [[Ra Rf Rr La Lf Lr Hn] HP Hro Hs]. destruct (head_cons _ _ _ Rf) as [Hh Hb]. simpl. rewrite Hh.
  rewrite (proj2 (Z.ltb_ge p 0)), orb_false_r by lia. destruct (harq_id =? p) eqn:Eid; zbool; simpl.
  { exists (Some p), ue, a, (p :: f), r. split_and!; [done|done|done|]. by exists [], f. }
  destruct (ul_lookup _ _ _ _ _ p HP ltac:(lia)) as (h & Eh & [P1 P2 P3 P4 P5]).
  pose proof (lookup_lt_Some _ _ _ Eh) as Hlt.
  destruct (remove_front_done _ _ _ Rf) as (fb & Efb & _). unfold on_ul_feedback. rewrite Efb. simpl.
  rewrite (upd_ul_done _ p _ h) by (simpl; lia || done). simpl.
  rewrite (rd_done _ _ (h <| ul_is_waiting := false |>)) by (lia || by apply list_lookup_insert_eq). simpl.
  assert (exists ue1 a1 r1, (if ul_round h >=? rm - 1
      then abort_nr_ul_harq (ue <| ul; feedback := fb |> <| ul_harq_processes := <[Z.to_nat p := h <| ul_is_waiting := false |>]> (ul_harq_processes ue) |>) p
      else ue ← upd_ul_harq (ue <| ul; feedback := fb |> <| ul_harq_processes := <[Z.to_nat p := h <| ul_is_waiting := false |>]> (ul_harq_processes ue) |>) p
                  (fun h => h <| ul_round ::= fun r => u8 (r + 1) |>);
           on_ul_retrans ue (fun l => add_tail_nr_list l p)) = Done ue1 /\ ul_ok rm ue1 a1 f r1) as (ue1 & a1 & r1 & E1 & HO1).
  { cif; zbool.
    - destruct (ul_move_ok rm ue a p f r h (h <| ul_is_waiting := false |> <| ul_ndi ::= Z.lxor 1 |> <| ul_round := 0 |>) fb
        Hrm HO Eh Efb ltac:(done)) as [(av & Eav & Hav) _]; [done|]. unfold abort_nr_ul_harq.
      rewrite (upd_ul_done _ p _ (h <| ul_is_waiting := false |>)) by (simpl; lia || by apply list_lookup_insert_eq). simpl.
      unfold on_ul_available. simpl. rewrite Eav. simpl. rewrite list_insert_insert_eq.
      erewrite rd_done by (lia || by apply list_lookup_insert_eq). simpl. eexists _, _, _. split; [done|]. by apply Hav.
    - assert (Hu : u8 (ul_round h + 1) = ul_round h + 1) by (apply Z.mod_small; lia).
      destruct (ul_move_ok rm ue a p f r h (h <| ul_is_waiting := false |> <| ul_round ::= fun r => u8 (r + 1) |>) fb
        Hrm HO Eh Efb ltac:(done)) as [_ (rt & Ert & Hrt)]; [simpl; lia|].
      rewrite (upd_ul_done _ p _ (h <| ul_is_waiting := false |>)) by (simpl; lia || by apply list_lookup_insert_eq). simpl.
      unfold on_ul_retrans. simpl. rewrite Ert. simpl. rewrite list_insert_insert_eq. eexists _, _, _. split; [done|]. by apply Hrt. }
  simpl in E1. rewrite E1. simpl.
  destruct (IH ue1 a1 f r1 HO1 ltac:(lia)) as (res & ue' & a' & f' & r' & E' & HO' & Hres).
  exists res, ue', a', f', r'. split_and!; [done|done|]. destruct res as [q|].
  - destruct Hres as (-> & f1 & f2 & -> & ->). split; [done|]. by exists (p :: f1), f2.
  - destruct Hres. set_solver.
Qed.

Lemma ul_head_waits rm ue a p f r : ul_ok rm ue a (p :: f) r ->
  head (feedback (ul ue)) = p /\ 0 <= p < 16 /\ exists h, ul_harq_processes ue !! Z.to_nat p = Some h /\ ul_is_waiting h = true /\ 0 <= ul_round h < rm.
Proof.
  intros [[Ra Rf Rr La Lf Lr Hn] HP Hro Hs]. destruct (head_cons _ _ _ Rf) as [Hh Hb]. rewrite Lf in Hb. split; [done|]. split; [lia|].
  destruct (ul_lookup _ _ _ _ _ p HP ltac:(lia)) as (h & Eh & [P1 P2 P3 P4 P5]). exists h. split_and!; [done| |lia|lia].
  apply P1. set_solver.
Qed.

Lemma handle_ul_inv rm ue harq_id crc :
  1 <= rm <= 8 -> ul_inv rm ue -> exists ue', handle_nr_ul_harq ue harq_id crc rm = Done ue' /\ ul_inv rm ue'.
Proof.
  intros Hrm (a0 & f0 & r0 & HO0). unfold handle_nr_ul_harq.
  destruct (skip_missed_ok rm ue a0 f0 r0 harq_id (length (next (feedback (ul ue)))) Hrm HO0) as
    (res & ue1 & a & f' & r & E & HO & Hres); [eapply rep_length, HO0|]. rewrite E. simpl.
  destruct res as [p|]; [|exists ue1; split; [done|]; by exists a, f', r].
  destruct Hres as (_ & _ & f & _ & ->). destruct (ul_head_waits _ _ _ _ _ _ HO) as (_ & Hp & h & Eh & Hw & Hr).
  pose proof (lookup_lt_Some _ _ _ Eh) as Hlt.
  destruct (remove_front_done _ _ _ (lo_f _ _ _ _ _ (uo_lists _ _ _ _ _ HO))) as (fb & Efb & _).
  unfold on_ul_feedback. rewrite Efb. simpl. rewrite (rd_done _ _ h) by (lia || done). simpl. rewrite Hw. simpl.
  rewrite (upd_ul_done _ p _ h) by (simpl; lia || done). simpl.
  set (h1 := h <| ul_feedback_slot := u16 (-1) |> <| ul_is_waiting := false |>).
  assert (Hl1 : <[Z.to_nat p := h1]> (ul_harq_processes ue1) !! Z.to_nat p = Some h1) by (by apply list_lookup_insert_eq).
  destruct crc; simpl; [cif; zbool|].
  - destruct (ul_move_ok rm ue1 a p f r h (h1 <| ul_ndi ::= Z.lxor 1 |> <| ul_round := 0 |>) fb
      Hrm HO Eh Efb ltac:(done)) as [(av & Eav & Hav) _]; [done|]. unfold abort_nr_ul_harq.
    rewrite (upd_ul_done _ p _ h1) by (simpl; lia || done). simpl.
    unfold on_ul_available. simpl. rewrite Eav. simpl. rewrite list_insert_insert_eq.
    erewrite rd_done by (lia || by apply list_lookup_insert_eq). simpl. eexists. split; [done|].
    exists (a ++ [p]), f, r. by apply Hav.
  - assert (Hu : u8 (ul_round h + 1) = ul_round h + 1) by (apply Z.mod_small; lia).
    destruct (ul_move_ok rm ue1 a p f r h (h1 <| ul_round ::= fun r => u8 (r + 1) |>) fb
      Hrm HO Eh Efb ltac:(done)) as [_ (rt & Ert & Hrt)]; [simpl; lia|].
    rewrite (upd_ul_done _ p _ h1) by (simpl; lia || done). simpl.
    unfold on_ul_retrans. simpl. rewrite Ert. simpl. rewrite list_insert_insert_eq. eexists. split; [done|].
    exists a, f, (r ++ [p]). by apply Hrt.
  - destruct (ul_move_ok rm ue1 a p f r h (h1 <| ul_ndi ::= Z.lxor 1 |> <| ul_round := 0 |>) fb
      Hrm HO Eh Efb ltac:(done)) as [(av & Eav & Hav) _]; [done|].
    rewrite (upd_ul_done _ p _ h1) by (simpl; lia || done). simpl.
    unfold on_ul_available. simpl. rewrite Eav. simpl. rewrite list_insert_insert_eq. eexists. split; [done|].
    exists (a ++ [p]), f, r. by apply Hav.
Qed.

Lemma ul_inv_same rm ue ue' :
  ul ue' = ul ue -> ul_harq_processes ue' = ul_harq_processes ue -> ul_rounds ue' = ul_rounds ue -> ul_inv rm ue -> ul_inv rm ue'.
Proof. intros H1 H2 H3 (a & f & r & [HL HP HR HS]). exists a, f, r. split; rewrite ?H1, ?H2, ?H3; done. Qed.

Lemma rx_sdu_inv rm ue sdu rssi cqi thres :
  ul_inv rm ue -> 0 <= head (feedback (ul ue)) -> exists ue', nr_rx_sdu ue sdu rssi cqi thres = Done ue' /\ ul_inv rm ue'.
Proof.
  intros HI Hh. pose proof HI as (a & f & r & HO). destruct f as [|p f].
  { rewrite (head_nil _ (lo_f _ _ _ _ _ (uo_lists _ _ _ _ _ HO))) in Hh. lia. }
  destruct (ul_head_waits _ _ _ _ _ _ HO) as (Ep & Hp & h & Eh & _). unfold nr_rx_sdu. rewrite Ep, (rd_done _ _ h) by (lia || done).
  destruct (rssi >? 0); destruct sdu; simpl; rewrite ?(rd_done _ _ h) by (lia || done); simpl; eexists; (split; [done|]);
    (eapply ul_inv_same; [..|exact HI]); repeat cif; done.
Qed.

(** ** Transmission *)

(** The process that is taken was free or waited for a retransmission. *)
Lemma take_ul_ok rm ue a f r pid :
  ul_ok rm ue a f r -> ulsch_harq_pid ue = Some pid ->
  exists L p a1 r1, take_ul_harq ue pid = Done (p, ue <| ul := L |>) /\ lists_ok L 16 a1 f r1 /\ p :: a1 ++ r1 ≡ₚ a ++ r /\
    (forall i, i <> p -> (i ∈ a1 <-> i ∈ a) /\ (i ∈ r1 <-> i ∈ r)) /\ 0 <= p < 16 /\ p ∉ f.
Proof.
  intros [[Ra Rf Rr La Lf Lr Hn] HP Hro Hs] Hpid. pose proof (perm_nodup _ _ Hs) as Hd.
  unfold ulsch_harq_pid, take_ul_harq in *. destruct r as [|p r].
    - rewrite (head_nil _ Rr) in Hpid. simpl in Hpid. destruct a as [|p a]; [by rewrite (head_nil _ Ra) in Hpid|].
      destruct (head_cons _ _ _ Ra) as [Hh Hb]. rewrite Hh in Hpid. revert Hpid. cif; zbool; [lia|]. intros [= <-]. simpl. rewrite Hh.
      cif; zbool; [lia|]. destruct (remove_front_done _ _ _ Ra) as (l & El & Rl & Ll). unfold on_ul_available. rewrite El. simpl.
      exists ((ul ue) <| available := l |>), p, a, []. split; [done|]. split; [split; simpl; done || lia|]. split; [done|]. split; [set_solver|]. split; [lia|].
      destruct (nodup_three _ _ _ p Hd) as (Hda & _). by destruct (Hda ltac:(set_solver)).
    - destruct (head_cons _ _ _ Rr) as [Hh Hb]. rewrite Hh in Hpid. revert Hpid. cif; zbool; [|lia]. intros [= <-].
      cif; zbool; [lia|]. destruct (ul_lookup _ _ _ _ _ p HP ltac:(lia)) as (h & Eh & [P1 P2 P3 P4 P5]).
      rewrite (rd_done _ _ h) by (lia || done). simpl.
      destruct (nodup_three _ _ _ p Hd) as (_ & _ & Hdr). destruct (Hdr ltac:(set_solver)) as [Hpa Hpf].
      specialize (P4 ltac:(set_solver) Hpa). cif; zbool; [lia|].
      destruct (remove_done _ _ p Rr ltac:(set_solver)) as (l & El & Rl & Ll). unfold on_ul_retrans. rewrite El. simpl.
      exists ((ul ue) <| retrans := l |>), p, a, (filter (fun x => x <> p) (p :: r)). split; [done|].
      split; [split; simpl; done || lia|].
      split; [|split; [intros i Hi; rewrite list_elem_of_filter; set_solver|split; [lia|done]]].
      pose proof (filter_perm _ p (rep_nodup _ _ Rr) ltac:(set_solver)) as Hfp. rewrite <- Hfp at 2. solve_Permutation.
Qed.

Lemma nr_schedule_ulsch_ok rm ue pid slot tb :
  1 <= rm <= 8 -> ul_inv rm ue -> ulsch_harq_pid ue = Some pid ->
  exists ue', nr_schedule_ulsch ue pid slot tb rm = Done ue' /\ ul_inv rm ue'.
Proof.
  intros Hrm (a & f & r & HO) Hpid.
  destruct (take_ul_ok rm ue a f r pid HO Hpid) as (L & p & a1 & r1 & E & HL & Hpar & Hmem & Hp & Hpf).
  unfold nr_schedule_ulsch. rewrite E. simpl. destruct HO as [_ HP Hro Hs]. clear E.
  pose proof HL as [Ra1 Rf1 Rr1 La1 Lf1 Lr1 _]. destruct (ul_lookup _ _ _ _ _ p HP ltac:(lia)) as (h & Eh & [P1 P2 P3 P4 P5]).
  pose proof (lookup_lt_Some _ _ _ Eh) as Hlt.
  pose proof (perm_nodup _ _ Hs) as Hdn.
  assert (Hnd : NoDup (p :: a1 ++ r1)).
  { rewrite Hpar. apply NoDup_app in Hdn as (H1 & H2 & (_ & _ & H3)%NoDup_app). apply NoDup_app. split_and!; [done|set_solver|done]. }
  apply NoDup_cons in Hnd as [Hpn _]. assert (Hpa1 : p ∉ a1) by set_solver. assert (Hpr1 : p ∉ r1) by set_solver.
  assert (Hw : ul_is_waiting h = false) by (destruct (ul_is_waiting h); [exfalso; by apply Hpf, P1|done]).
  simpl. rewrite (rd_done _ _ h) by (lia || done). simpl. rewrite Hw.
  destruct (add_tail_done _ _ p Rf1 ltac:(lia) Hpf) as (fb & Efb & Rfb & Lfb). unfold on_ul_feedback. simpl. rewrite Efb. simpl.
  rewrite (upd_ul_done _ p _ h) by (simpl; lia || done). simpl. rewrite (proj2 (Z.ltb_lt (ul_round h) rm)) by lia. simpl.
  destruct (lookup_lt_is_Some_2 (ul_rounds ue) (Z.to_nat (ul_round h)) ltac:(lia)) as [c Ec].
  rewrite (rd_done _ _ c) by (lia || done). simpl. rewrite wr_done by lia. simpl.
  assert (HF : forall ue' h', ul ue' = L <| feedback := fb |> ->
    ul_harq_processes ue' = <[Z.to_nat p := h']> (ul_harq_processes ue) -> ul_is_waiting h' = true -> ul_round h' = ul_round h ->
    length (ul_rounds ue') = 8%nat -> ul_inv rm ue').
  { intros ue' h' E1 E2 E3 E4 E5. exists a1, (f ++ [p]), r1. split; rewrite ?E1, ?E2, ?E5; [split; simpl; done || lia| |done|].
    - eapply ul_insert; [exact HP|lia| |].
      + intros i Hi. destruct (Hmem i Hi). set_solver.
      + rewrite E3, E4. split; [set_solver|lia|set_solver|set_solver|set_solver].
    - rewrite <- Hs. transitivity ((p :: a1 ++ r1) ++ f); [solve_Permutation|]. rewrite Hpar. solve_Permutation. }
  cif; zbool.
  - erewrite upd_ul_done by (simpl; lia || by apply list_lookup_insert_eq). simpl. eexists. split; [done|].
    eapply HF; simpl; [done|by rewrite list_insert_insert_eq|done|done|by rewrite length_insert].
  - eexists. split; [done|]. eapply HF; simpl; [done|done|done|done|by rewrite length_insert].
Qed.

(** ** Reset and creation *)

Lemma reset_ul_ok rm ue : 1 <= rm <= 8 -> ul_inv rm ue -> exists ue', reset_ul_harq_list ue = Done ue' /\ ul_inv rm ue' /\ head (feedback (ul ue')) = -1.
Proof.
  intros Hrm (a & f & r & [[Ra Rf Rr La Lf Lr Hn] HP Hro Hs]). unfold reset_ul_harq_list.
  pose proof (perm_nodup _ _ Hs) as Hd. pose proof Hd as Hd'. rewrite app_assoc in Hd'. apply NoDup_app in Hd' as (Hdaf & _).
  destruct (drain_ok 16 (length (next (feedback (ul ue)))) _ _ f a Rf Ra Lf La Hdaf) as (fb & av & E1 & R1 & R2 & L1 & L2);
    [by eapply rep_length|]. rewrite E1. simpl.
  destruct (drain_ok 16 (length (next (retrans (ul ue)))) _ _ r (a ++ f) Rr R2 Lr L2) as (rt & av' & E2 & R3 & R4 & L3 & L4);
    [by rewrite <- app_assoc|by eapply rep_length|].
  rewrite E2. simpl. eexists. split; [done|]. split; [|by apply head_nil]. exists ((a ++ f) ++ r), [], []. split; simpl; [by split| |done|].
  - destruct HP as [HP _]. rewrite length_fmap in HP. split; [by rewrite !length_fmap|].
    intros i w k. rewrite !list_lookup_fmap. destruct (ul_harq_processes ue !! i); simpl; [|done]. intros [= <- <-].
    split; [split; [done|set_solver]|lia|done|set_solver|done].
  - by rewrite app_nil_r, <- app_assoc.
Qed.

Lemma new_ul_ok rm : 1 <= rm <= 8 -> exists ue, add_new_nr_ue = Done ue /\ ul_inv rm ue.
Proof.
  intros Hrm. unfold add_new_nr_ue. pose proof (create_rep 16 ltac:(lia)) as Rc.
  destruct (add_pids_ok 16 0 _ [] 16 Rc eq_refl ltac:(lia) ltac:(lia)) as (av & E & R & L); [set_solver|].
  rewrite E. simpl mbind. eexists. split; [done|]. exists (seqZ 0 16), [], []. split; [| |done|done].
  - exact (Build_lists_ok (mk_lists av (create_nr_list 16) (create_nr_list 16)) 16 (seqZ 0 16) [] [] R Rc Rc L eq_refl eq_refl
             ltac:(unfold NR_MAX_HARQ_PROCESSES; lia)).
  - change (procs_ok rm (seqZ 0 16) [] [] (replicate 16 (false, 0))). generalize (seqZ 0 16). clear -Hrm. intros a. split; [done|].
    intros i w k Hh. apply lookup_replicate in Hh as [[= -> ->] _]. split; [set_solver|lia|done|set_solver|done].
Qed.

Lemma ul_step_inv thres rm ue e :
  1 <= rm <= 8 -> ul_inv rm ue -> ul_allowed ue e -> exists ue', ul_step thres rm ue e = Done ue' /\ ul_inv rm ue'.
Proof.
  intros Hrm HI Ha. destruct e as [slot tb|crc|]; simpl in *.
  - unfold ulsch. destruct (ulsch_harq_pid ue) eqn:E; [by apply nr_schedule_ulsch_ok|by exists ue].
  - unfold handle_nr_ulsch.
    destruct (rx_sdu_inv rm ue (negb (tb_crc_status crc)) (rssi crc) (ul_cqi crc) thres HI Ha) as (ue1 & E1 & HI1). rewrite E1. simpl.
    by apply handle_ul_inv.
  - destruct (reset_ul_ok rm ue Hrm HI) as (ue' & E & HI' & _). eauto.
Qed.

Lemma ul_reach_inv thres rm ue : 1 <= rm <= 8 -> ul_reach thres rm ue -> ul_inv rm ue.
Proof.
  intros Hrm. induction 1 as [ue E|ue e ue' _ IH Ha E].
  - destruct (new_ul_ok rm Hrm) as (ue' & E' & HI). congruence.
  - destruct (ul_step_inv thres rm ue e Hrm IH Ha) as (ue'' & E' & HI). congruence.
Qed.

(** C22. The bookkeeping of the uplink HARQ processes.  Whatever the sequence of uplink transmissions, of CRC indications
    (good or bad, for any process number, while a process waits) and of resets since the UE was created, no assertion
    fails and no access is outside of an array (up to 8 rounds); the CRC handler alone returns on any indication.  The 16
    processes are each in exactly one of the three lists; those that wait are those of the feedback list, free ones are
    at round 0, those to retransmit past it, and no process exceeds the maximum of rounds. *)
Theorem ul_harq_processes_safe thres rm ue :
  1 <= rm <= 8 -> ul_reach thres rm ue ->
  (forall e, ul_allowed ue e -> exists ue', ul_step thres rm ue e = Done ue') /\
  (forall id crc, exists ue', handle_nr_ul_harq ue id crc rm = Done ue') /\
  exists a f r, represents (available (ul ue)) a /\ represents (feedback (ul ue)) f /\ represents (retrans (ul ue)) r /\
    a ++ f ++ r ≡ₚ seqZ 0 16 /\
    forall p, 0 <= p < 16 -> exists h, ul_harq_processes ue !! Z.to_nat p = Some h /\
      (ul_is_waiting h = true <-> p ∈ f) /\ (p ∈ a -> ul_round h = 0) /\ (p ∈ r -> 0 < ul_round h) /\ 0 <= ul_round h < rm.
Proof.
  intros Hrm HR. pose proof (ul_reach_inv thres rm ue Hrm HR) as HI. split_and!.
  - intros e Ha. destruct (ul_step_inv thres rm ue e Hrm HI Ha) as (ue' & E & _). eauto.
  - intros id crc. destruct (handle_ul_inv rm ue id crc Hrm HI) as (ue' & E & _). eauto.
  - destruct HI as (a & f & r & [[Ra Rf Rr La Lf Lr Hn] HP Hro Hs]). exists a, f, r. split_and!; try done.
    intros p Hp. destruct (ul_lookup _ _ _ _ _ p HP ltac:(lia)) as (h & Eh & [P1 P2 P3 P4 P5]).
    exists h. split_and!; [done|done|done| |lia|lia]. intros Hpr. apply P4; [done|].
    destruct (nodup_three _ _ _ p (perm_nodup _ _ Hs)) as (_ & _ & Hd). by destruct (Hd Hpr).
Qed.

Definition ul_force (o : outcome ue_ul_t) : ue_ul_t := match o with Done ue => ue | _ => mk_ue_ul [] (mk_lists zero_list zero_list zero_list) 0 [] 0 0 false end.
Definition ul_demo_0 : ue_ul_t := ul_force add_new_nr_ue.
Definition ul_demo_1 : ue_ul_t := ul_force (ul_step 10 4 ul_demo_0 (Ulsch 7 1000)).
Definition ul_demo_2 : ue_ul_t := ul_force (ul_step 10 4 ul_demo_1 (Ulsch 8 1000)).
Definition ul_demo_3 : ue_ul_t := ul_force (ul_step 10 4 ul_demo_2 (Crc (mk_crc 1 false 10 200))).

Lemma ul_demo_reach : ul_reach 10 4 ul_demo_3.
Proof.
  apply (ul_reach_step _ _ ul_demo_2 (Crc (mk_crc 1 false 10 200))); [|by vm_compute|vm_compute; reflexivity].
  apply (ul_reach_step _ _ ul_demo_1 (Ulsch 8 1000)); [|done|vm_compute; reflexivity].
  apply (ul_reach_step _ _ ul_demo_0 (Ulsch 7 1000)); [|done|vm_compute; reflexivity].
  apply ul_reach_new. vm_compute. reflexivity.
Qed.

Lemma ul_harq_processes_safe_witness :
  (exists ue', handle_nr_ul_harq ul_demo_3 5 true 4 = Done ue') /\
  exists a f r, represents (available (ul ul_demo_3)) a /\ represents (feedback (ul ul_demo_3)) f /\
    represents (retrans (ul ul_demo_3)) r /\ a ++ f ++ r ≡ₚ seqZ 0 16.
Proof.
  destruct (ul_harq_processes_safe 10 4 ul_demo_3 ltac:(lia) ul_demo_reach) as (_ & Hh & a & f & r & Ra & Rf & Rr & Hp & _).
  split; [apply Hh|]. exists a, f, r. split_and!; assumption.
Defined.

(** An indication without a process.  The handler of CRC indications ignores an indication when no uplink process
    waits for one (the reset of the processes by a random access with a transmission in flight leads there), but the
    function that receives the data runs before it and has no such guard: it reads the process of index -1.  In every
    reachable state and after any reset, an indication for a UE none of whose processes waits is undefined. *)
Theorem rx_without_process thres rm ue crc :
  1 <= rm <= 8 -> ul_reach thres rm ue ->
  (head (feedback (ul ue)) < 0 -> handle_nr_ulsch ue crc thres rm = Undef) /\
  exists ue', reset_ul_harq_list ue = Done ue' /\ ul_reach thres rm ue' /\ handle_nr_ulsch ue' crc thres rm = Undef.
Proof.
  intros Hrm HR. pose proof (ul_reach_inv thres rm ue Hrm HR) as HI.
  assert (HU : forall ue, head (feedback (ul ue)) < 0 -> handle_nr_ulsch ue crc thres rm = Undef).
  { clear. intros ue Hh. unfold handle_nr_ulsch, nr_rx_sdu. assert (Hrd : rd (ul_harq_processes ue) (head (feedback (ul ue))) = Undef).
    { unfold rd. cif; zbool; [done|lia]. }
    rewrite Hrd. destruct (rssi crc >? 0); [done|]. simpl. destruct (negb (tb_crc_status crc)); simpl; rewrite ?Hrd; done. }
  split; [apply HU|]. destruct (reset_ul_ok rm ue Hrm HI) as (ue' & E & _ & Hh). exists ue'. split; [done|].
  split; [by apply (ul_reach_step _ _ ue ResetUl)|]. apply HU. lia.
Qed.

Lemma rx_without_process_witness :
  exists ue', reset_ul_harq_list ul_demo_2 = Done ue' /\ handle_nr_ulsch ue' (mk_crc 0 false 10 200) 10 4 = Undef.
Proof.
  assert (R : ul_reach 10 4 ul_demo_2).
  { apply (ul_reach_step _ _ ul_demo_1 (Ulsch 8 1000)); [|exact I|vm_compute; reflexivity].
    apply (ul_reach_step _ _ ul_demo_0 (Ulsch 7 1000)); [|exact I|vm_compute; reflexivity].
    apply ul_reach_new. vm_compute. reflexivity. }
  destruct (rx_without_process 10 4 ul_demo_2 (mk_crc 0 false 10 200) ltac:(lia) R) as (_ & ue' & E & _ & U).
  exists ue'. split; assumption.
Defined.

(** Two blocks of 1000 bytes are under way, the first at its last round.  When it fails, its bytes are subtracted by the
    reception (at round 3) and again by the abort: none remain for the second block. *)
Lemma lost_block_counted_twice :
  let nack ue := ul_force (ul_step 10 4 ue (Crc (mk_crc 0 true 10 200))) in
  let again ue := ul_force (ul_step 10 4 ue (Ulsch 9 1000)) in
  let ue := again (again (nack (again (nack (again (nack ul_demo_1)))))) in
  sched_ul_bytes ue = 2000 /\ sched_ul_bytes (nack ue) = 0.
Proof. vm_compute. done. Qed.
