(* ===== verification/L2Common.v ===== *)
(** What the user-plane components of layer 2 share: the protocol context
    (common/platform_types.h), the sizes of common/platform_constants.h and the
    list of UE contexts that both the PDCP and the RLC manager keep
    (nr_pdcp_ue_manager.c, nr_rlc_ue_manager.c). *)

From S2P Require Import Prelude.

(** ** The protocol context *)

Record protocol_ctxt_t := mk_ctxt {
  module_id : Z;
  enb_flag : bool;
  instance : Z;
  rntiMaybeUEid : Z;
  frame : Z;
  subframe : Z;
  eNB_index : Z;
  brOption : bool
}.
#[export] Instance eta_ctxt : Eta protocol_ctxt_t := fun r =>
  mk_ctxt (module_id r) (enb_flag r) (instance r) (rntiMaybeUEid r) (frame r) (subframe r)
    (eNB_index r) (brOption r).

(** [protocol_ctxt_t ctxt = { .enb_flag = enb, .rntiMaybeUEid = ue_id }] *)
Definition ctxt_init (enb : bool) (ue_id : Z) : protocol_ctxt_t := mk_ctxt 0 enb 0 ue_id 0 0 0 false.

Definition MAX_DRBS_PER_UE : Z := 32.
Definition MAX_MOBILES_PER_ENB : Z := 40.
Definition NGAP_MAX_PDU_SESSION : Z := 256.
Definition RLC_RX_MAXSIZE : Z := 10000000.
Definition RLC_TX_MAXSIZE : Z := 10000000.

(** ** Enumerations and pointers of the ASN.1 configurations *)

(** [if (v < 0 || v > n) exit(1); return tab[v]] for a table of [n + 1] entries. *)
Definition decode (tab : list Z) (v : Z) : outcome Z :=
  if (v <? 0) || (v >? Z.of_nat (length tab) - 1) then Exit else rd tab v.

(** [*p] for a pointer that may be NULL. *)
Definition deref {A} (p : option A) : outcome A := match p with Some x => Done x | None => Undef end.

(** ** Bounded tables *)

Lemma rd_inv {A} (l : list A) i x : rd l i = Done x -> 0 <= i /\ l !! Z.to_nat i = Some x.
Proof.
  unfold rd. cif; [done|]. zbool. destruct (l !! Z.to_nat i) eqn:E0; intros [= <-]. done.
Qed.

Lemma wr_inv {A} (l l' : list A) i x :
  wr l i x = Done l' -> 0 <= i < Z.of_nat (length l) /\ l' = <[Z.to_nat i := x]> l.
Proof. unfold wr. do 2 (cif; [|]; zbool; try done). intros [= <-]. by split. Qed.

Lemma rd_in_range {A} (l : list A) i : 0 <= i < Z.of_nat (length l) -> exists x, rd l i = Done x.
Proof.
  intros H. destruct (lookup_lt_is_Some_2 l (Z.to_nat i)) as [x E]; [lia|].
  exists x. apply rd_done; [lia|done].
Qed.

(** ** Lists of UE contexts

    Both managers keep an array of pointers to UE contexts, searched from the
    start, extended by [get_ue] when the identity is unknown and compacted by
    [remove_ue].  A context is named by its position in the array. *)
Class UeContext (U : Type) := {
  ue_key : U -> Z;
  new_ue : Z -> U;
  new_ue_key : forall id, ue_key (new_ue id) = id
}.

Section Manager.
Context {U : Type} `{UeContext U}.

(** [for (i = 0; i < ue_count; i++) if (ue_list[i]->ue_id == ue_id)] *)
Fixpoint find_ue (l : list U) (id : Z) : option nat :=
  match l with
  | [] => None
  | u :: r => if ue_key u =? id then Some 0%nat else S <$> find_ue r id
  end.

Definition manager_get_ue (l : list U) (id : Z) : nat * list U :=
  match find_ue l id with
  | Some i => (i, l)
  | None => (length l, l ++ [new_ue id])
  end.

Definition manager_remove_ue (l : list U) (id : Z) : list U :=
  match find_ue l id with
  | Some i => delete i l
  | None => l
  end.

(** An operation on the context that [get_ue] returns, the context being
    modified in place. *)
Definition with_ue {R} (l : list U) (id : Z) (f : U -> outcome (R * U)) : outcome (R * list U) :=
  let '(i, l) := manager_get_ue l id in
  match l !! i with
  | Some u => '(r, u) ← f u; Done (r, <[i := u]> l)
  | None => Undef
  end.

Definition ids (l : list U) : list Z := ue_key <$> l.
Definition ids_ok (l : list U) : Prop := NoDup (ids l).

(** The context of [id] as a client of the manager sees it. *)
Definition ue_view (l : list U) (id : Z) : U := default (new_ue id) (find_ue l id ≫= (l !!.)).

Lemma find_ue_some l id i :
  find_ue l id = Some i -> exists u, l !! i = Some u /\ ue_key u = id.
Proof.
  revert i. induction l as [|u r IH]; simpl; intros i; [done|]. destruct (ue_key u =? id) eqn:E; zbool.
  - intros [= <-]. eauto.
  - destruct (find_ue r id) as [j|]; [|done]. intros [= <-]. by apply IH.
Qed.

Lemma find_ue_none l id : find_ue l id = None <-> id ∉ ids l.
Proof.
  unfold ids. induction l as [|u r IH]; simpl; [split; [intros _; apply not_elem_of_nil|done]|].
  rewrite not_elem_of_cons. destruct (ue_key u =? id) eqn:E; zbool.
  - split; [done|]. intros [? _]. congruence.
  - rewrite fmap_None, IH. naive_solver.
Qed.

Lemma elem_ids l i u : l !! i = Some u -> ue_key u ∈ ids l.
Proof. intros E. apply list_elem_of_fmap_2. by eapply list_elem_of_lookup_2. Qed.

Lemma find_ue_unique l i u : ids_ok l -> l !! i = Some u -> find_ue l (ue_key u) = Some i.
Proof.
  unfold ids_ok, ids. revert i. induction l as [|v r IH]; intros i N E; [done|]. simpl in *.
  apply NoDup_cons in N as [N1 N]. destruct i as [|i]; simpl in E.
  - injection E as ->. by rewrite Z.eqb_refl.
  - destruct (ue_key v =? ue_key u) eqn:Ek; zbool.
    + destruct N1. rewrite Ek. by eapply elem_ids.
    + by rewrite (IH i).
Qed.

Lemma get_ue_ok l id i l' :
  manager_get_ue l id = (i, l') ->
  l' !! i = Some (ue_view l id) /\ ue_key (ue_view l id) = id /\ find_ue l' id = Some i /\
  (ids_ok l -> ids_ok l').
Proof.
  unfold manager_get_ue, ue_view. destruct (find_ue l id) as [j|] eqn:E; intros [= <- <-].
  - destruct (find_ue_some _ _ _ E) as (u & Eu & K). simpl. rewrite Eu. done.
  - simpl. split_and!; [by rewrite lookup_app_r, Nat.sub_diag by done|apply new_ue_key| |].
    + revert E. clear. induction l as [|u r IH]; simpl; [by rewrite new_ue_key, Z.eqb_refl|].
      destruct (ue_key u =? id); [done|]. destruct (find_ue r id); [done|]. intros _. by rewrite IH.
    + apply find_ue_none in E. unfold ids_ok, ids in *. rewrite fmap_app. simpl. intros N.
      apply NoDup_app. split_and!; [done| |apply NoDup_singleton].
      intros x Hx. rewrite list_elem_of_singleton, new_ue_key. naive_solver.
Qed.

Lemma ids_insert l i u v : l !! i = Some u -> ue_key v = ue_key u -> ids (<[i := v]> l) = ids l.
Proof.
  intros E K. unfold ids. rewrite list_fmap_insert, K. apply list_insert_id.
  by rewrite list_lookup_fmap, E.
Qed.

(** [with_ue] returns when the operation returns on the context of the UE. *)
Lemma with_ue_done {R} l id (f : U -> outcome (R * U)) r u :
  f (ue_view l id) = Done (r, u) -> exists l', with_ue l id f = Done (r, l').
Proof.
  intros E. unfold with_ue. destruct (manager_get_ue l id) as [i l1] eqn:Em.
  destruct (get_ue_ok _ _ _ _ Em) as (Ei & _). rewrite Ei, E. by eexists.
Qed.

(** What [with_ue] does, for an operation that keeps the identity. *)
Lemma with_ue_inv {R} l id (f : U -> outcome (R * U)) r l' :
  with_ue l id f = Done (r, l') ->
  exists u, f (ue_view l id) = Done (r, u) /\
    (ue_key u = id -> ue_view l' id = u /\ (ids_ok l -> ids_ok l') /\
       ids l' = (if bool_decide (id ∈ ids l) then ids l else ids l ++ [id]) /\
       forall id', id' <> id -> ue_view l' id' = ue_view l id').
Proof.
  unfold with_ue. destruct (manager_get_ue l id) as [i l1] eqn:E.
  destruct (get_ue_ok _ _ _ _ E) as (Ei & K & F & N). rewrite Ei. intros Hd. invd Hd. destruct x as [r1 u].
  injection Hd as <- <-. exists u. split; [done|]. intros Ku.
  assert (Kv : ids (<[i:=u]> l1) = ids l1) by (eapply ids_insert; [done|congruence]).
  assert (Fk : forall id', find_ue (<[i:=u]> l1) id' = find_ue l1 id').
  { intros id'. revert Kv. generalize (<[i:=u]> l1). clear. induction l1 as [|a r IH]; intros [|b t];
      unfold ids; simpl; try done. intros [= -> E]. by rewrite IH. }
  split_and!.
  - unfold ue_view. rewrite Fk, F. simpl. by rewrite list_lookup_insert_eq by (by eapply lookup_lt_Some).
  - intros Nl. unfold ids_ok. rewrite Kv. by apply N.
  - rewrite Kv. revert E. unfold manager_get_ue. destruct (find_ue l id) eqn:El; intros [= <- <-].
    + destruct (find_ue_some _ _ _ El) as (v & Ev & Kid). rewrite bool_decide_eq_true_2; [done|].
      rewrite <- Kid. by eapply elem_ids.
    + apply find_ue_none in El. rewrite bool_decide_eq_false_2 by done. unfold ids.
      rewrite fmap_app. simpl. by rewrite new_ue_key.
  - intros id' Hne. unfold ue_view. rewrite Fk.
    assert (Hf : find_ue l1 id' = find_ue l id').
    { revert E. unfold manager_get_ue. destruct (find_ue l id) eqn:El; intros [= <- <-]; [done|].
      clear -Hne H. induction l as [|a r IH]; simpl.
      - destruct (_ =? id') eqn:Ek; zbool; [|done]. rewrite new_ue_key in Ek. congruence.
      - destruct (_ =? id'); [done|]. by rewrite IH. }
    rewrite Hf. destruct (find_ue l id') as [k|] eqn:Ek; [|done]. simpl.
    destruct (find_ue_some _ _ _ Ek) as (v & Ev & Kv').
    assert (Ev1 : l1 !! k = Some v).
    { revert E. unfold manager_get_ue. destruct (find_ue l id); intros [= <- <-]; [done|].
      apply lookup_app_l_Some. done. }
    assert (k <> i) by (intros ->; rewrite Ei in Ev1; congruence).
    rewrite list_lookup_insert_ne by done. by rewrite Ev1, Ev.
Qed.

(** A context that takes an identity which is not in use. *)
Lemma insert_view l i u v id :
  l !! i = Some u -> ue_key u <> id -> ue_key v <> id -> ue_view (<[i := v]> l) id = ue_view l id.
Proof.
  revert i. induction l as [|w r IH]; intros [|i] E Hu Hv; simpl in E; try done.
  - injection E as ->. unfold ue_view. simpl. rewrite !(proj2 (Z.eqb_neq _ _)) by done.
    by destruct (find_ue r id).
  - specialize (IH i E Hu Hv). unfold ue_view in *. simpl. destruct (ue_key w =? id); [done|].
    destruct (find_ue (<[i:=v]> r) id), (find_ue r id); simpl in *; done.
Qed.

Lemma get_ue_view l a i l' id : manager_get_ue l a = (i, l') -> id <> a -> ue_view l' id = ue_view l id.
Proof.
  unfold manager_get_ue. destruct (find_ue l a); intros [= <- <-] Hne; [done|].
  unfold ue_view. induction l as [|w r IH]; simpl.
  - rewrite new_ue_key, (proj2 (Z.eqb_neq _ _)) by congruence. done.
  - destruct (ue_key w =? id); [done|]. destruct (find_ue (r ++ [new_ue a]) id), (find_ue r id); simpl in *; done.
Qed.

Lemma with_ue_rekey {R} l a b (f : U -> outcome (R * U)) r l' :
  with_ue l a f = Done (r, l') -> (forall u, f (ue_view l a) = Done (r, u) -> ue_key u = b) ->
  b ∉ ids l -> ids_ok l -> ids_ok l' /\ forall id, id ∉ [a; b] -> ue_view l' id = ue_view l id.
Proof.
  unfold with_ue. destruct (manager_get_ue l a) as [i l1] eqn:E.
  destruct (get_ue_ok _ _ _ _ E) as (Ei & K & F & N). rewrite Ei. intros Hd Hk Hb Nl. invd Hd.
  destruct x as [r1 u]. injection Hd as <- <-. specialize (Hk _ H0). specialize (N Nl).
  assert (Hb1 : b ∈ ids l1 -> b = a).
  { revert E. unfold manager_get_ue. destruct (find_ue l a); intros [= <- <-]; [done|].
    unfold ids in *. rewrite fmap_app, elem_of_app. simpl. rewrite list_elem_of_singleton, new_ue_key. tauto. }
  split.
  - unfold ids_ok, ids. rewrite list_fmap_insert, Hk. fold (ids l1).
    destruct (decide (b = a)) as [->|Hne].
    + rewrite list_insert_id; [done|]. unfold ids. rewrite list_lookup_fmap, Ei. simpl. by rewrite K.
    + apply NoDup_alt. intros j k x Ej Ek. unfold ids_ok in N. rewrite NoDup_alt in N.
      apply list_lookup_insert_Some in Ej, Ek.
      destruct Ej as [(<- & <- & _)|[Hj Ej]], Ek as [(<- & Ex & _)|[Hk' Ek]]; try done.
      * exfalso. apply Hne, Hb1. by eapply list_elem_of_lookup_2.
      * subst x. exfalso. apply Hne, Hb1. by eapply list_elem_of_lookup_2.
      * by eapply N.
  - intros id Hid. rewrite !not_elem_of_cons in Hid. destruct Hid as (Ha & Hbid & _).
    rewrite (insert_view l1 i (ue_view l a)) by congruence. by eapply get_ue_view.
Qed.

Lemma with_ue_forall {R} (P : U -> Prop) l id (f : U -> outcome (R * U)) r l' :
  Forall P l -> P (new_ue id) -> (forall u r u', P u -> f u = Done (r, u') -> P u') ->
  with_ue l id f = Done (r, l') -> Forall P l'.
Proof.
  intros F Pn Pf. unfold with_ue. destruct (manager_get_ue l id) as [i l1] eqn:E.
  assert (F1 : Forall P l1).
  { revert E. unfold manager_get_ue. destruct (find_ue l id); intros [= <- <-]; [done|].
    apply Forall_app_2; [done|]. by constructor. }
  destruct (l1 !! i) as [u|] eqn:Eu; [|done]. intros Hd. invd Hd. destruct x as [r1 u'].
  injection Hd as <- <-. apply Forall_insert; [done|]. eapply Pf; [|done]. by eapply Forall_lookup_1.
Qed.

Lemma remove_ue_forall (P : U -> Prop) l id : Forall P l -> Forall P (manager_remove_ue l id).
Proof.
  intros F. unfold manager_remove_ue. destruct (find_ue l id); [|done]. by apply Forall_delete.
Qed.

(** The contexts of the other UEs stay when one is removed. *)
Lemma remove_ue_view l id id' :
  id' <> id -> ue_view (manager_remove_ue l id) id' = ue_view l id'.
Proof.
  intros Hne. unfold manager_remove_ue, ue_view. destruct (find_ue l id) as [i|] eqn:E; [|done].
  revert i E. induction l as [|u r IH]; intros i; simpl; [done|].
  destruct (ue_key u =? id) eqn:Ek; zbool.
  - intros [= <-]. simpl. rewrite (proj2 (Z.eqb_neq (ue_key u) id')) by congruence.
    by destruct (find_ue r id').
  - destruct (find_ue r id) as [j|] eqn:Ej; [|done]. intros [= <-]. simpl.
    destruct (ue_key u =? id'); [done|]. specialize (IH j eq_refl).
    destruct (find_ue (delete j r) id') as [k1|]; destruct (find_ue r id') as [k2|]; simpl in *; done.
Qed.

Lemma remove_ue_ok l id :
  ids_ok l -> ids_ok (manager_remove_ue l id) /\ id ∉ ids (manager_remove_ue l id) /\
  forall id', id' <> id -> (id' ∈ ids (manager_remove_ue l id) <-> id' ∈ ids l).
Proof.
  unfold manager_remove_ue. intros N. destruct (find_ue l id) as [i|] eqn:E.
  - destruct (find_ue_some _ _ _ E) as (u & Eu & K).
    assert (P : ids l ≡ₚ id :: ids (delete i l)).
    { unfold ids. rewrite <- K, <- fmap_cons. f_equiv. by apply delete_Permutation. }
    assert (N' : NoDup (id :: ids (delete i l))) by (rewrite <- P; exact N).
    apply NoDup_cons in N' as [N1 N2]. split_and!; try done.
    intros id' Hne. rewrite P, elem_of_cons. naive_solver.
  - apply find_ue_none in E. done.
Qed.
End Manager.
