(* ===== verification/Sdap.v ===== *)
(** The SDAP layer (openair2/SDAP/nr_sdap/nr_sdap_entity.c, nr_sdap.c): the
    entities of the PDU sessions, their mapping of QoS flows to bearers, the
    SDAP header, the end-marker control PDUs. *)

From S2P Require Import Prelude L2Common.

(** ** Data *)

Definition SDAP_HDR_UL_DATA_PDU : Z := 1.
Definition SDAP_HDR_UL_CTRL_PDU : Z := 0.
Definition SDAP_HDR_LENGTH : Z := 1.
Definition SDAP_MAX_QFI : Z := 64.
Definition SDAP_MAP_RULE_EMPTY : Z := 0.
Definition AVLBL_DRB : Z := 5.
Definition SDAP_NO_MAPPING_RULE : Z := 0.
Definition SDAP_REFLECTIVE_MAPPING : Z := 1.
Definition SDAP_MAX_PDU : Z := 9000.
Definition SDAP_MAX_NUM_OF_ENTITIES : Z := MAX_DRBS_PER_UE * MAX_MOBILES_PER_ENB.
Definition SDAP_MAX_UE_ID : Z := 65536.

(** The two headers are packed bit fields, the first field in the low bits. *)
Record nr_sdap_dl_hdr_t := mk_dl_hdr { dl_QFI : Z; dl_RQI : Z; dl_RDI : Z }.
Record nr_sdap_ul_hdr_t := mk_ul_hdr { ul_QFI : Z; ul_R : Z; ul_DC : Z }.

Definition hdr_byte (low bit6 bit7 : Z) : Z :=
  Z.lor (Z.land low 63) (Z.lor (Z.shiftl (Z.land bit6 1) 6) (Z.shiftl (Z.land bit7 1) 7)).
Definition dl_hdr_byte (h : nr_sdap_dl_hdr_t) : Z := hdr_byte (dl_QFI h) (dl_RQI h) (dl_RDI h).
Definition ul_hdr_byte (h : nr_sdap_ul_hdr_t) : Z := hdr_byte (ul_QFI h) (ul_R h) (ul_DC h).
Definition dl_hdr_of (b : Z) : nr_sdap_dl_hdr_t :=
  mk_dl_hdr (Z.land b 63) (Z.land (Z.shiftr b 6) 1) (Z.land (Z.shiftr b 7) 1).
Definition ul_hdr_of (b : Z) : nr_sdap_ul_hdr_t :=
  mk_ul_hdr (Z.land b 63) (Z.land (Z.shiftr b 6) 1) (Z.land (Z.shiftr b 7) 1).

Record qfi2drb_t := mk_qfi2drb {
  drb_id : Z;
  has_sdap_rx : bool;
  has_sdap_tx : bool
}.
#[export] Instance eta_qfi2drb : Eta qfi2drb_t := fun r =>
  mk_qfi2drb (drb_id r) (has_sdap_rx r) (has_sdap_tx r).

Record nr_sdap_entity_t := mk_sdap {
  ue_id : Z;
  default_drb : Z;
  pdusession_id : Z;
  qfi2drb_table : list qfi2drb_t
}.
#[export] Instance eta_sdap : Eta nr_sdap_entity_t := fun r =>
  mk_sdap (ue_id r) (default_drb r) (pdusession_id r) (qfi2drb_table r).

(** The part of [NR_SDAP_Config_t] the code reads; the flows are the elements
    of the ASN.1 lists. *)
Record NR_SDAP_Config_t := mk_sdap_config {
  pdu_Session : Z;
  sdap_HeaderDL_present : bool;
  sdap_HeaderUL_present : bool;
  defaultDRB : bool;
  mappedQoS_FlowsToAdd : list Z;
  mappedQoS_FlowsToRelease : option (list Z)
}.

(** What the layer hands to its neighbours above: a packet for the N3 tunnel
    (on the gNB) or for the TUN interface (on the UE). *)
Inductive sdap_event :=
| ToGtp (ue bearer : Z) (buf : list Z)
| ToTun (buf : list Z).

Definition is_sdap_rx (is_gnb : bool) (c : NR_SDAP_Config_t) : bool :=
  if is_gnb then sdap_HeaderUL_present c else sdap_HeaderDL_present c.
Definition is_sdap_tx (is_gnb : bool) (c : NR_SDAP_Config_t) : bool :=
  if is_gnb then sdap_HeaderDL_present c else sdap_HeaderUL_present c.

(** ** The mapping of QoS flows to bearers *)

Definition set_rule (e : nr_sdap_entity_t) (qfi : Z) (r : qfi2drb_t) : outcome nr_sdap_entity_t :=
  t ← wr (qfi2drb_table e) qfi r; Done (e <| qfi2drb_table := t |>).

Definition nr_sdap_qfi2drb_map_update (e : nr_sdap_entity_t) (qfi drb : Z) (rx tx : bool)
  : outcome nr_sdap_entity_t :=
  if (qfi <? SDAP_MAX_QFI) && (qfi >? SDAP_MAP_RULE_EMPTY) && (drb >? 0) && (drb <=? AVLBL_DRB)
  then set_rule e qfi (mk_qfi2drb drb rx tx)
  else Done e.

Definition nr_sdap_qfi2drb_map_del (e : nr_sdap_entity_t) (qfi : Z) : outcome nr_sdap_entity_t :=
  r ← rd (qfi2drb_table e) qfi;
  set_rule e qfi (r <| drb_id := SDAP_NO_MAPPING_RULE |>).

Definition nr_sdap_qfi2drb_map (e : nr_sdap_entity_t) (qfi : Z) : outcome (Z * nr_sdap_entity_t) :=
  r ← rd (qfi2drb_table e) qfi;
  if negb (drb_id r =? 0) then Done (drb_id r, e)
  else if negb (default_drb e =? 0) then
    e ← nr_sdap_qfi2drb_map_update e qfi (default_drb e) (has_sdap_rx r) (has_sdap_tx r);
    Done (default_drb e, e)
  else Done (SDAP_MAP_RULE_EMPTY, e).

Definition nr_sdap_construct_ctrl_pdu (qfi : Z) : nr_sdap_ul_hdr_t :=
  mk_ul_hdr (Z.land qfi 63) 0 SDAP_HDR_UL_CTRL_PDU.

Inductive map_type_t := SDAP_CTRL_PDU_MAP_DEF_DRB | SDAP_CTRL_PDU_MAP_RULE_DRB.

Definition nr_sdap_map_ctrl_pdu (e : nr_sdap_entity_t) (map_type : map_type_t) (dl_qfi : Z)
  : outcome (Z * nr_sdap_entity_t) :=
  match map_type with
  | SDAP_CTRL_PDU_MAP_DEF_DRB => Done (default_drb e, e)
  | SDAP_CTRL_PDU_MAP_RULE_DRB => nr_sdap_qfi2drb_map e dl_qfi
  end.

(** ** Lookup *)

Definition is_entity (ue pdusession : Z) (e : nr_sdap_entity_t) : bool :=
  (ue_id e =? ue) && (pdusession_id e =? pdusession).

(** The walk stops at the first match or at the last entity, which is then
    compared once more. *)
Fixpoint walk_to (ue pdusession : Z) (i : nat) (e : nr_sdap_entity_t) (next : list nr_sdap_entity_t)
  : option nat :=
  match next with
  | n :: r => if is_entity ue pdusession e then Some i else walk_to ue pdusession (S i) n r
  | [] => if is_entity ue pdusession e then Some i else None
  end.

(** The position of the entity in the list, [None] for NULL. *)
Definition nr_sdap_get_entity (l : list nr_sdap_entity_t) (ue pdusession : Z) : option nat :=
  match l with
  | [] => None
  | e :: r => walk_to ue pdusession 0 e r
  end.

(** ** What SDAP needs of PDCP

    [nr_pdcp_data_req_drb] of nr_pdcp_oai_api.c, on the state [S] of the layers
    below: whether PDCP has taken the SDU, and the new state. *)
Class PdcpService (S : Type) :=
  pdcp_data_req : S -> protocol_ctxt_t -> Z -> Z -> list Z -> outcome (bool * S).

Section Sdap.
Context {S : Type} `{PdcpService S}.

Definition RLC_MUI_UNDEFINED : Z := 0.

Definition nr_pdcp_submit_sdap_ctrl_pdu (s : S) (ue drb : Z) (ctrl_pdu : nr_sdap_ul_hdr_t)
  : outcome S :=
  '(_, s) ← pdcp_data_req s (ctxt_init false ue) drb RLC_MUI_UNDEFINED [ul_hdr_byte ctrl_pdu];
  Done s.

Definition nr_sdap_submit_ctrl_pdu (s : S) (ue drb : Z) (ctrl_pdu : nr_sdap_ul_hdr_t) : outcome S :=
  if negb (drb =? 0) then nr_pdcp_submit_sdap_ctrl_pdu s ue drb ctrl_pdu else Done s.

(** The three calls the code makes for an end marker. *)
Definition send_end_marker (e : nr_sdap_entity_t) (ue qfi : Z) (map_type : map_type_t) (s : S)
  : outcome (nr_sdap_entity_t * S) :=
  let ctrl_pdu := nr_sdap_construct_ctrl_pdu qfi in
  '(drb, e) ← nr_sdap_map_ctrl_pdu e map_type qfi;
  s ← nr_sdap_submit_ctrl_pdu s ue drb ctrl_pdu;
  Done (e, s).

(** ** Transmission *)

Definition nr_sdap_tx_entity (e : nr_sdap_entity_t) (ctxt : protocol_ctxt_t) (rb_id mui size : Z)
    (sdu_buffer : option (list Z)) (qfi : Z) (rqi : bool) (s : S)
  : outcome (bool * nr_sdap_entity_t * S) :=
  match sdu_buffer with
  | None => Exit
  | Some buf =>
      '(pdcp_entity, e) ← nr_sdap_qfi2drb_map e qfi;
      rule ← rd (qfi2drb_table e) qfi;
      let sdap_drb_id := if negb (pdcp_entity =? 0) then pdcp_entity else rb_id in
      let pdcp_ent_has_sdap := if negb (pdcp_entity =? 0) then has_sdap_tx rule else false in
      if negb pdcp_ent_has_sdap then
        sdu ← slice buf 0 size;
        '(ret, s) ← pdcp_data_req s ctxt sdap_drb_id mui sdu;
        Done (ret, e, s)
      else if (size =? 0) || (size >? 8999) then Done (false, e, s)
      else
        let hdr := if enb_flag ctxt then dl_hdr_byte (mk_dl_hdr qfi (b2z rqi) 0)
                   else ul_hdr_byte (mk_ul_hdr qfi 0 (b2z rqi)) in
        let sdap_buf := replicate (Z.to_nat SDAP_MAX_PDU) 0 in
        sdu ← slice buf 0 size;
        sdap_buf ← blit sdap_buf 0 [hdr];
        sdap_buf ← blit sdap_buf SDAP_HDR_LENGTH sdu;
        pdu ← slice sdap_buf 0 (size + SDAP_HDR_LENGTH);
        '(ret, s) ← pdcp_data_req s ctxt sdap_drb_id mui pdu;
        Done (ret, e, s)
  end.

(** ** Reception *)

Definition reflective_mapping (e : nr_sdap_entity_t) (pdcp_entity ue qfi : Z) (s : S)
  : outcome (nr_sdap_entity_t * S) :=
  rule ← rd (qfi2drb_table e) qfi;
  '(e, s) ← (if (drb_id rule =? 0) && negb (default_drb e =? 0)
             then send_end_marker e ue qfi SDAP_CTRL_PDU_MAP_DEF_DRB s else Done (e, s));
  rule ← rd (qfi2drb_table e) qfi;
  '(e, s) ← (if negb (pdcp_entity =? drb_id rule)
             then send_end_marker e ue qfi SDAP_CTRL_PDU_MAP_RULE_DRB s else Done (e, s));
  rule ← rd (qfi2drb_table e) qfi;
  e ← set_rule e qfi (rule <| drb_id := pdcp_entity |>);
  Done (e, s).

Definition nr_sdap_rx_entity (e : nr_sdap_entity_t) (pdcp_entity : Z) (is_gnb sdap_rx : bool)
    (pdusession ue : Z) (buf : list Z) (size : Z) (s : S)
  : outcome (nr_sdap_entity_t * S * list sdap_event) :=
  let offset := if sdap_rx then SDAP_HDR_LENGTH else 0 in
  if is_gnb then
    _ ← (if sdap_rx then rd buf 0 else Done 0);
    sdu ← slice buf offset (size - offset);
    Done (e, s, [ToGtp ue pdusession sdu])
  else
    '(e, s) ← (if sdap_rx then
                 b ← rd buf 0;
                 let hdr := dl_hdr_of b in
                 if dl_RDI hdr =? SDAP_REFLECTIVE_MAPPING
                 then reflective_mapping e pdcp_entity ue (dl_QFI hdr) s else Done (e, s)
               else Done (e, s));
    sdu ← slice buf offset (size - offset);
    Done (e, s, [ToTun sdu]).

(** ** Configuration *)

(** One turn of the loop over the flows to add. *)
Definition ue_qfi2drb_config_one (e : nr_sdap_entity_t) (ue qfi drb : Z) (rx tx : bool) (s : S)
  : outcome (nr_sdap_entity_t * S) :=
  rule ← rd (qfi2drb_table e) qfi;
  '(e, s) ← (if negb (default_drb e =? 0) && (drb_id rule =? SDAP_NO_MAPPING_RULE)
             then send_end_marker e ue qfi SDAP_CTRL_PDU_MAP_DEF_DRB s else Done (e, s));
  rule ← rd (qfi2drb_table e) qfi;
  '(e, s) ← (if negb (drb_id rule =? drb) && has_sdap_tx rule
             then send_end_marker e ue qfi SDAP_CTRL_PDU_MAP_RULE_DRB s else Done (e, s));
  e ← nr_sdap_qfi2drb_map_update e qfi drb rx tx;
  Done (e, s).

(** [mapped] is the memory that [mapped_qfi_2_add] points to. *)
Fixpoint ue_qfi2drb_config_loop (n : nat) (i : Z) (e : nr_sdap_entity_t) (ue : Z) (mapped : list Z)
    (drb : Z) (rx tx : bool) (s : S) : outcome (nr_sdap_entity_t * S) :=
  match n with
  | O => Done (e, s)
  | Datatypes.S n =>
      q ← rd mapped i;
      '(e, s) ← ue_qfi2drb_config_one e ue (u8 q) drb rx tx s;
      ue_qfi2drb_config_loop n (i + 1) e ue mapped drb rx tx s
  end.

Definition nr_sdap_ue_qfi2drb_config (e : nr_sdap_entity_t) (ue : Z) (mapped : list Z) (count drb : Z)
    (rx tx : bool) (s : S) : outcome (nr_sdap_entity_t * S) :=
  ue_qfi2drb_config_loop (Z.to_nat count) 0 e ue mapped drb rx tx s.

Fixpoint map_update_loop (n : nat) (i : Z) (e : nr_sdap_entity_t) (mapped : list Z) (rx tx : bool)
  : outcome nr_sdap_entity_t :=
  match n with
  | O => Done e
  | Datatypes.S n =>
      q ← rd mapped i;
      e ← nr_sdap_qfi2drb_map_update e (u8 q) (default_drb e) rx tx;
      map_update_loop n (i + 1) e mapped rx tx
  end.

Definition empty_table : list qfi2drb_t :=
  replicate (Z.to_nat SDAP_MAX_QFI) (mk_qfi2drb 0 false false).

Definition new_nr_sdap_entity (l : list nr_sdap_entity_t) (is_gnb rx tx : bool) (ue pdusession : Z)
    (is_defaultDRB : bool) (drb_identity : Z) (mapped : list Z) (count : Z) (s : S)
  : outcome (list nr_sdap_entity_t * S) :=
  match nr_sdap_get_entity l ue pdusession with
  | Some i =>
      match l !! i with
      | None => Undef
      | Some e =>
          if negb is_gnb then
            '(e, s) ← nr_sdap_ue_qfi2drb_config e ue mapped count drb_identity rx tx s;
            Done (<[i := e]> l, s)
          else Done (l, s)
      end
  | None =>
      let e := mk_sdap ue 0 pdusession empty_table in
      e ← (if is_defaultDRB
           then map_update_loop (Z.to_nat count) 0 (e <| default_drb := drb_identity |>) mapped rx tx
           else Done e);
      Done (e :: l, s)
  end.

(** The memory behind [(NR_QFI_t * )list.array[0]]: the first element of the
    ASN.1 list, each element of which has an allocation of its own. *)
Definition first_flow (flows : list Z) : list Z := take 1 flows.

Fixpoint map_delete_loop (n : nat) (i : Z) (e : nr_sdap_entity_t) (mapped : list Z)
  : outcome nr_sdap_entity_t :=
  match n with
  | O => Done e
  | Datatypes.S n =>
      q ← rd mapped i;
      e ← nr_sdap_qfi2drb_map_del e (u8 q);
      map_delete_loop n (i + 1) e mapped
  end.

(** [list.array[0]] of an empty list is a read outside of the array. *)
Definition array0 (flows : list Z) : outcome (list Z) :=
  match flows with [] => Undef | _ => Done (first_flow flows) end.

Definition nr_reconfigure_sdap_entity (l : list nr_sdap_entity_t) (c : NR_SDAP_Config_t)
    (ue pdusession drb : Z) (s : S) : outcome (list nr_sdap_entity_t * S) :=
  match nr_sdap_get_entity l ue pdusession with
  | None => Done (l, s)
  | Some i =>
      match l !! i with
      | None => Undef
      | Some e =>
          mapped ← array0 (mappedQoS_FlowsToAdd c);
          '(e, s) ← nr_sdap_ue_qfi2drb_config e ue mapped
            (u8 (Z.of_nat (length (mappedQoS_FlowsToAdd c)))) (u8 drb)
            (is_sdap_rx false c) (is_sdap_tx false c) s;
          e ← match mappedQoS_FlowsToRelease c with
              | None => Done e
              | Some rel =>
                  mapped ← array0 rel;
                  map_delete_loop (Z.to_nat (u8 (Z.of_nat (length rel)))) 0 e mapped
              end;
          Done (<[i := e]> l, s)
      end
  end.

(** ** The interface to the layers around (nr_sdap.c) *)

Definition sdap_data_req (l : list nr_sdap_entity_t) (ctxt : protocol_ctxt_t) (ue rb_id mui size : Z)
    (sdu_buffer : option (list Z)) (qfi : Z) (rqi : bool) (pdusession : Z) (s : S)
  : outcome (bool * list nr_sdap_entity_t * S) :=
  match nr_sdap_get_entity l ue pdusession with
  | None => Done (false, l, s)
  | Some i =>
      match l !! i with
      | None => Undef
      | Some e =>
          '(ret, e, s) ← nr_sdap_tx_entity e ctxt rb_id mui size sdu_buffer qfi rqi s;
          Done (ret, <[i := e]> l, s)
      end
  end.

Definition sdap_data_ind (l : list nr_sdap_entity_t) (pdcp_entity : Z) (is_gnb sdap_rx : bool)
    (pdusession ue : Z) (buf : list Z) (size : Z) (s : S)
  : outcome (list nr_sdap_entity_t * S * list sdap_event) :=
  match nr_sdap_get_entity l ue pdusession with
  | None => Done (l, s, [])
  | Some i =>
      match l !! i with
      | None => Undef
      | Some e =>
          '(e, s, ev) ← nr_sdap_rx_entity e pdcp_entity is_gnb sdap_rx pdusession ue buf size s;
          Done (<[i := e]> l, s, ev)
      end
  end.
End Sdap.

(** ** Release *)

Definition nr_sdap_release_drb (l : list nr_sdap_entity_t) (ue drb pdusession : Z)
  : list nr_sdap_entity_t :=
  match nr_sdap_get_entity l ue pdusession with
  | None => l
  | Some i =>
      match l !! i with
      | None => l
      | Some e => <[i := e <| qfi2drb_table ::= fmap (fun r =>
          if drb_id r =? drb then r <| drb_id := SDAP_NO_MAPPING_RULE |> else r) |>]> l
      end
  end.

(** A product of two [int]s; an overflow is undefined. *)
Definition int_mul (a b : Z) : outcome Z :=
  if (- 2 ^ 31 <=? a * b) && (a * b <? 2 ^ 31) then Done (a * b) else Undef.

(** The walk of [nr_sdap_delete_entity] from the second entity on: [bound]
    entities at most, the one reached being compared. *)
Fixpoint delete_walk (bound : nat) (ue pdusession : Z) (prev : nr_sdap_entity_t)
    (cur : nr_sdap_entity_t) (next : list nr_sdap_entity_t) {struct next}
  : bool * list nr_sdap_entity_t :=
  match next, bound with
  | n :: r, Datatypes.S bound =>
      if is_entity ue pdusession cur then (true, prev :: next)
      else let '(ret, l) := delete_walk bound ue pdusession cur n r in (ret, prev :: l)
  | _, _ => if is_entity ue pdusession cur then (true, prev :: next) else (false, prev :: cur :: next)
  end.

Definition nr_sdap_delete_entity (l : list nr_sdap_entity_t) (ue pdusession : Z)
  : outcome (bool * list nr_sdap_entity_t) :=
  match l with
  | [] =>
      p ← int_mul pdusession (pdusession - NGAP_MAX_PDU_SESSION);
      if p >? 0 then Done (false, []) else Undef
  | e :: r =>
      if is_entity ue pdusession e then Done (true, r)
      else
        match r with
        | [] => Done (false, l)
        | e1 :: r1 =>
            Done (delete_walk (Z.to_nat (SDAP_MAX_NUM_OF_ENTITIES - 1)) ue pdusession e e1 r1)
        end
  end.

(** The loop over the head of the list; [upperBound] stays 0. *)
Fixpoint delete_ue_head (ue : Z) (l : list nr_sdap_entity_t) : bool * list nr_sdap_entity_t :=
  match l with
  | e :: r => if ue_id e =? ue then (true, (delete_ue_head ue r).2) else (false, l)
  | [] => (false, [])
  end.

(** The loop over the rest, [prev] being the last entity kept. *)
Fixpoint delete_ue_rest (ue : Z) (prev : nr_sdap_entity_t) (l : list nr_sdap_entity_t)
  : bool * list nr_sdap_entity_t :=
  match l with
  | [] => (false, [prev])
  | e :: r =>
      if negb (ue_id e =? ue) then
        let '(ret, l) := delete_ue_rest ue e r in (ret, prev :: l)
      else let '(_, l) := delete_ue_rest ue prev r in (true, l)
  end.

Definition nr_sdap_delete_ue_entities (l : list nr_sdap_entity_t) (ue : Z)
  : bool * list nr_sdap_entity_t :=
  match l with
  | [] => (false, [])
  | _ =>
      let '(ret, l) := delete_ue_head ue l in
      match l with
      | [] => (ret, [])
      | e :: r => let '(ret', l) := delete_ue_rest ue e r in (ret || ret', l)
      end
  end.

(** ** The header *)

Lemma hdr_fields q a b :
  let h := hdr_byte q a b in
  Z.land h 63 = Z.land q 63 /\ Z.land (Z.shiftr h 6) 1 = Z.land a 1 /\
  Z.land (Z.shiftr h 7) 1 = Z.land b 1 /\ is_byte h.
Proof.
  unfold hdr_byte, is_byte. set (x := Z.land q 63). set (y := Z.land a 1). set (z := Z.land b 1).
  assert (Hx : x ∈ seqZ 0 64)
    by (apply elem_of_seqZ; unfold x; change 63 with (Z.ones 6); rewrite Z.land_ones by lia; pose proof (Z.mod_pos_bound q (2 ^ 6)); lia).
  assert (Hb : forall c, Z.land c 1 ∈ seqZ 0 2)
    by (intros c; apply elem_of_seqZ; pose proof (Z.land_ones c 1 ltac:(lia)) as E; change (Z.ones 1) with 1 in E; rewrite E; pose proof (Z.mod_pos_bound c (2 ^ 1)); lia).
  assert (A : Forall (fun x => Forall (fun y => Forall (fun z =>
    let h := Z.lor x (Z.lor (Z.shiftl y 6) (Z.shiftl z 7)) in
    bool_decide (Z.land h 63 = x /\ Z.land (Z.shiftr h 6) 1 = y /\ Z.land (Z.shiftr h 7) 1 = z /\
                 0 <= h < 256)) (seqZ 0 2)) (seqZ 0 2)) (seqZ 0 64)).
  { apply (bool_decide_unpack _). vm_compute. done. }
  rewrite Forall_forall in A. specialize (A x Hx). rewrite Forall_forall in A.
  specialize (A y (Hb a)). rewrite Forall_forall in A. specialize (A z (Hb b)).
  by apply bool_decide_unpack in A.
Qed.

(** ** The mapping *)

Definition rule_ok (r : qfi2drb_t) : Prop := 0 <= drb_id r <= MAX_DRBS_PER_UE.

Record entity_ok (e : nr_sdap_entity_t) : Prop := {
  eo_table : length (qfi2drb_table e) = 64%nat;
  eo_rules : Forall rule_ok (qfi2drb_table e);
  eo_default : 0 <= default_drb e
}.

(** What stays when the rules of an entity change. *)
Definition same_entity (e e' : nr_sdap_entity_t) : Prop :=
  ue_id e' = ue_id e /\ pdusession_id e' = pdusession_id e /\ default_drb e' = default_drb e.

Lemma rd_table e qfi : entity_ok e -> 0 <= qfi < SDAP_MAX_QFI ->
  exists r, rd (qfi2drb_table e) qfi = Done r /\ rule_ok r.
Proof.
  intros [L R _] Hq. destruct (rd_in_range (qfi2drb_table e) qfi) as [r E].
  { rewrite L. unfold SDAP_MAX_QFI in Hq. lia. }
  exists r. split; [done|]. apply rd_inv in E as [_ E]. by eapply Forall_lookup_1.
Qed.

Lemma set_rule_ok e qfi r : entity_ok e -> 0 <= qfi < SDAP_MAX_QFI -> rule_ok r ->
  set_rule e qfi r = Done (e <| qfi2drb_table ::= <[Z.to_nat qfi := r]> |>) /\
  entity_ok (e <| qfi2drb_table ::= <[Z.to_nat qfi := r]> |>) /\
  same_entity e (e <| qfi2drb_table ::= <[Z.to_nat qfi := r]> |>).
Proof.
  intros [L R D] Hq Hr. unfold set_rule, SDAP_MAX_QFI in *. rewrite wr_done by lia.
  split; [done|]. split; [|done]. split; simpl; [by rewrite length_insert| |done].
  by apply Forall_insert.
Qed.

Lemma map_update_ok e qfi drb rx tx : entity_ok e -> exists e',
  nr_sdap_qfi2drb_map_update e qfi drb rx tx = Done e' /\ entity_ok e' /\ same_entity e e'.
Proof.
  intros O. unfold nr_sdap_qfi2drb_map_update, AVLBL_DRB, SDAP_MAP_RULE_EMPTY. cif; [|by exists e].
  zbool. destruct (set_rule_ok e qfi (mk_qfi2drb drb rx tx)) as (E & O' & D'); eauto; [lia|].
  unfold rule_ok, MAX_DRBS_PER_UE; simpl; lia.
Qed.

Lemma map_del_ok e qfi : entity_ok e -> 0 <= qfi < SDAP_MAX_QFI -> exists e',
  nr_sdap_qfi2drb_map_del e qfi = Done e' /\ entity_ok e' /\ same_entity e e'.
Proof.
  intros O Hq. unfold nr_sdap_qfi2drb_map_del. destruct (rd_table e qfi O Hq) as (r & -> & Hr).
  cbn [mbind outcome_bind]. destruct (set_rule_ok e qfi (r <| drb_id := SDAP_NO_MAPPING_RULE |>)) as (E & O' & D'); eauto.
  unfold rule_ok, MAX_DRBS_PER_UE; simpl; unfold SDAP_NO_MAPPING_RULE; lia.
Qed.

Lemma qfi2drb_map_ok e qfi : entity_ok e -> 0 <= qfi < SDAP_MAX_QFI -> exists drb e',
  nr_sdap_qfi2drb_map e qfi = Done (drb, e') /\ entity_ok e' /\ same_entity e e'.
Proof.
  intros O Hq. unfold nr_sdap_qfi2drb_map. destruct (rd_table e qfi O Hq) as (r & -> & Hr).
  cbn [mbind outcome_bind]. cif; [by eexists _, e|]. cif; [|by eexists _, e].
  destruct (map_update_ok e qfi (default_drb e) (has_sdap_rx r) (has_sdap_tx r) O) as (e' & -> & O' & D').
  by eexists _, e'.
Qed.

Lemma same_entity_trans e1 e2 e3 : same_entity e1 e2 -> same_entity e2 e3 -> same_entity e1 e3.
Proof. unfold same_entity. intros (-> & -> & ->). done. Qed.

(** ** The list of entities *)

Definition key (e : nr_sdap_entity_t) : Z * Z := (ue_id e, pdusession_id e).
Definition keys (l : list nr_sdap_entity_t) : gset (Z * Z) := list_to_set (key <$> l).

Record dir_ok (l : list nr_sdap_entity_t) : Prop := {
  do_keys : NoDup (key <$> l);
  do_entities : Forall entity_ok l
}.

Lemma is_entity_key ue p e : is_entity ue p e = true <-> key e = (ue, p).
Proof.
  unfold is_entity, key. rewrite andb_true_iff, !Z.eqb_eq. split; [by intros [-> ->]|].
  by intros [= -> ->].
Qed.

Lemma walk_to_find ue p next : forall i e,
  walk_to ue p i e next = (fun x => (i + fst x)%nat) <$> list_find (is_entity ue p) (e :: next).
Proof.
  induction next as [|n r IH]; intros i e; simpl.
  - destruct (is_entity ue p e); [|done]. simpl. by rewrite Nat.add_0_r.
  - destruct (is_entity ue p e) eqn:E; simpl; [by rewrite Nat.add_0_r|]. rewrite IH. simpl.
    destruct (is_entity ue p n) eqn:E1; simpl; [by rewrite Nat.add_succ_r|].
    destruct (list_find (is_entity ue p) r) as [[j x]|]; simpl; [|done]. do 2 f_equal. lia.
Qed.

(** The lookup finds the entity of the UE and the PDU session, if there is one. *)
Lemma get_entity_some l ue p i :
  nr_sdap_get_entity l ue p = Some i -> exists e, l !! i = Some e /\ key e = (ue, p).
Proof.
  destruct l as [|e r]; simpl; [done|]. rewrite walk_to_find.
  destruct (list_find (is_entity ue p) (e :: r)) as [[j x]|] eqn:E; [|done].
  intros [= <-]. apply list_find_Some in E as (E & K & _). exists x. split; [done|].
  apply is_entity_key. by apply Is_true_true.
Qed.

Lemma get_entity_none l ue p :
  nr_sdap_get_entity l ue p = None <-> (ue, p) ∉ key <$> l.
Proof.
  destruct l as [|e r]; simpl; [split; [intros _; apply not_elem_of_nil|done]|].
  rewrite walk_to_find, fmap_None, list_find_None, Forall_forall. rewrite <- fmap_cons.
  split.
  - intros F (x & K & Hx)%list_elem_of_fmap. destruct (F x Hx). apply Is_true_true.
    by apply is_entity_key.
  - intros N x Hx K%Is_true_true. destruct N. apply is_entity_key in K. rewrite <- K.
    by apply list_elem_of_fmap_2.
Qed.

Lemma keys_insert (l : list nr_sdap_entity_t) (i : nat) e e' : l !! i = Some e -> same_entity e e' -> key <$> <[i := e']> l = key <$> l.
Proof.
  intros E (K1 & K2 & _). rewrite list_fmap_insert. apply list_insert_id.
  rewrite list_lookup_fmap, E. simpl. unfold key. by rewrite K1, K2.
Qed.

Lemma dir_insert (l : list nr_sdap_entity_t) (i : nat) e e' : dir_ok l -> l !! i = Some e -> entity_ok e' -> same_entity e e' ->
  dir_ok (<[i := e']> l) /\ keys (<[i := e']> l) = keys l.
Proof.
  intros [N F] E O D. unfold keys. rewrite (keys_insert l i e e') by done. split; [|done].
  split; [by rewrite (keys_insert l i e e')|by apply Forall_insert].
Qed.

(** Removing one entity. *)
Lemma dir_remove l1 e l2 : dir_ok (l1 ++ e :: l2) ->
  dir_ok (l1 ++ l2) /\ keys (l1 ++ l2) = keys (l1 ++ e :: l2) ∖ {[key e]}.
Proof.
  intros [N F]. unfold keys. rewrite !fmap_app in *. simpl in *.
  apply NoDup_app in N as (N1 & N2 & N3). apply NoDup_cons in N3 as [N3 N4].
  apply Forall_app in F as [F1 F2]. apply Forall_cons in F2 as [_ F2]. split.
  - split; [|by apply Forall_app]. rewrite fmap_app. apply NoDup_app. split_and!; try done.
    intros x Hx Hx2. apply (N2 x Hx). by right.
  - rewrite !list_to_set_app_L. simpl. apply set_eq. intros x.
    rewrite elem_of_difference, !elem_of_union, elem_of_singleton, !elem_of_list_to_set.
    split; [|naive_solver]. intros [Hx|Hx]; split; try tauto.
    + intros ->. apply (N2 _ Hx). by left.
    + by intros ->.
Qed.

Lemma delete_walk_ok ue p next : forall bound prev cur,
  is_entity ue p prev = false -> (length next <= bound)%nat ->
  exists ret l', delete_walk bound ue p prev cur next = (ret, l') /\
    ((ret = false /\ l' = prev :: cur :: next /\ (ue, p) ∉ key <$> prev :: cur :: next) \/
     (ret = true /\ exists l1 e l2, prev :: cur :: next = l1 ++ e :: l2 /\ l' = l1 ++ l2 /\ key e = (ue, p))).
Proof.
  induction next as [|n r IH]; intros bound prev cur Hp Hb; simpl.
  - destruct (is_entity ue p cur) eqn:E.
    + eexists _, _; (split; [done|]); right; split; try done;
        exists [prev], cur, []; (split_and!; [done|done|by apply is_entity_key]).
    + eexists _, _; (split; [done|]); left; (split_and!; [done|done|]);
        rewrite !not_elem_of_cons; (split_and!; [..|apply not_elem_of_nil]); intros K; symmetry in K;
        apply is_entity_key in K; congruence.
  - destruct bound as [|bound]; simpl in Hb; [lia|]. destruct (is_entity ue p cur) eqn:E.
    + eexists _, _. split; [done|]. right. split; [done|].
      exists [prev], cur, (n :: r). split_and!; [done|done|by apply is_entity_key].
    + destruct (IH bound cur n E ltac:(lia)) as (ret & l' & -> & D). eexists _, _. split; [done|].
      destruct D as [(-> & -> & N)|(-> & l1 & e & l2 & Eq & -> & K)]; [left|right].
      * split_and!; [done|done|]. rewrite not_elem_of_cons. split; [|done].
        intros K. symmetry in K. apply is_entity_key in K. congruence.
      * split; [done|]. exists (prev :: l1), e, l2. rewrite Eq. done.
Qed.

Lemma delete_ue_rest_filter ue l : forall prev,
  delete_ue_rest ue prev l =
  (bool_decide (Exists (fun e => ue_id e = ue) l), prev :: filter (fun e => ue_id e <> ue) l).
Proof.
  induction l as [|e r IH]; intros prev; simpl; [done|]. destruct (ue_id e =? ue) eqn:E; zbool; simpl.
  - rewrite IH, filter_cons_False by tauto. f_equal. rewrite bool_decide_eq_true_2; [done|by left].
  - rewrite IH, filter_cons_True by done. f_equal. apply bool_decide_ext. rewrite Exists_cons. tauto.
Qed.

Lemma delete_ue_head_split ue l : exists l1 l2,
  l = l1 ++ l2 /\ delete_ue_head ue l = (bool_decide (l1 <> []), l2) /\
  Forall (fun e => ue_id e = ue) l1 /\ (forall e r, l2 = e :: r -> ue_id e <> ue).
Proof.
  induction l as [|e r (l1 & l2 & -> & E & F & H)]; simpl.
  - by exists [], [].
  - destruct (ue_id e =? ue) eqn:Ek; zbool.
    + exists (e :: l1), l2. rewrite E. split_and!; try done. by constructor.
    + exists [], (e :: l1 ++ l2). split_and!; try done. by intros ? ? [= <- <-].
Qed.

(** All entities of a UE are removed, and no other. *)
Lemma delete_ue_entities_filter l ue :
  nr_sdap_delete_ue_entities l ue =
  (bool_decide (Exists (fun e => ue_id e = ue) l), filter (fun e => ue_id e <> ue) l).
Proof.
  destruct l as [|e0 r0]; [done|]. unfold nr_sdap_delete_ue_entities.
  destruct (delete_ue_head_split ue (e0 :: r0)) as (l1 & l2 & -> & -> & F & H).
  assert (E1 : filter (fun e => ue_id e <> ue) l1 = []).
  { clear H. induction F as [|e l He _ IH]; [done|]. rewrite filter_cons_False by tauto. done. }
  rewrite filter_app, E1. simpl.
  assert (E2 : bool_decide (Exists (fun e => ue_id e = ue) (l1 ++ l2)) =
    bool_decide (l1 <> []) || bool_decide (Exists (fun e => ue_id e = ue) l2)).
  { rewrite <- bool_decide_or. apply bool_decide_ext. rewrite Exists_app. f_equiv.
    destruct l1 as [|x y]; [by rewrite Exists_nil|]. apply Forall_cons in F as [F _].
    split; [done|]. intros _. by left. }
  rewrite E2. destruct l2 as [|e r]; [by rewrite orb_false_r|].
  rewrite delete_ue_rest_filter. specialize (H e r eq_refl).
  rewrite filter_cons_True by done. do 2 f_equal. apply bool_decide_ext. rewrite Exists_cons. tauto.
Qed.

(** Deleting an entity while there is none dereferences NULL, for the valid PDU sessions. *)
Lemma sdap_delete_empty ue p : 0 <= p <= NGAP_MAX_PDU_SESSION -> nr_sdap_delete_entity [] ue p = Undef.
Proof.
  unfold nr_sdap_delete_entity, int_mul, NGAP_MAX_PDU_SESSION. intros Hp. cif; [|done].
  cbn [mbind outcome_bind]. cif; [|done]. zbool. nia.
Qed.

(** ** Sequences of operations *)

Inductive sdap_op :=
| NewEntity (is_gnb rx tx : bool) (ue pdusession : Z) (is_default : bool) (drb : Z) (flows : list Z)
| DataReq (ctxt : protocol_ctxt_t) (ue rb mui : Z) (sdu : list Z) (qfi : Z) (rqi : bool) (pdusession : Z)
| DataInd (drb : Z) (is_gnb rx : bool) (pdusession ue : Z) (buf : list Z)
| Reconfigure (c : NR_SDAP_Config_t) (ue pdusession drb : Z)
| ReleaseDrb (ue drb pdusession : Z)
| DeleteEntity (ue pdusession : Z)
| DeleteUe (ue : Z).

(** What the callers guarantee: QFIs of 6 bits, one flow per list (see
    [sdap_second_flow_overread]) and a byte for each header. *)
Definition sdap_op_ok (o : sdap_op) : Prop :=
  match o with
  | NewEntity _ _ _ _ _ _ drb flows => 0 <= drb < 256 /\ exists q, flows = [q] /\ 0 <= q < SDAP_MAX_QFI
  | DataReq _ _ _ _ sdu qfi _ _ => 0 <= qfi < SDAP_MAX_QFI
  | DataInd drb _ _ _ _ buf => 0 <= drb <= MAX_DRBS_PER_UE /\ buf <> []
  | Reconfigure c _ _ _ =>
      (exists q, mappedQoS_FlowsToAdd c = [q] /\ 0 <= q < SDAP_MAX_QFI) /\
      match mappedQoS_FlowsToRelease c with
      | None => True | Some rel => exists q, rel = [q] /\ 0 <= q < SDAP_MAX_QFI
      end
  | _ => True
  end.

(** The keys after an operation. *)
Definition keys_after (o : sdap_op) (k : gset (Z * Z)) : gset (Z * Z) :=
  match o with
  | NewEntity _ _ _ ue p _ _ _ => {[(ue, p)]} ∪ k
  | DeleteEntity ue p => k ∖ {[(ue, p)]}
  | DeleteUe ue => filter (fun x => x.1 <> ue) k
  | _ => k
  end.

(** A call that does not delete a single entity while there is none, which
    dereferences a null pointer. *)
Definition may_call (o : sdap_op) (k : gset (Z * Z)) : Prop :=
  match o with DeleteEntity _ _ => k <> ∅ | _ => True end.
Fixpoint calls_ok (k : gset (Z * Z)) (os : list sdap_op) : Prop :=
  match os with [] => True | o :: os => may_call o k /\ calls_ok (keys_after o k) os end.

Section Run.
Context {S : Type} `{PdcpService S}.

(** One call. *)
Definition sdap_do (l : list nr_sdap_entity_t) (s : S) (o : sdap_op)
  : outcome (list nr_sdap_entity_t * S * list sdap_event) :=
  match o with
  | NewEntity is_gnb rx tx ue p d drb flows =>
      '(l, s) ← new_nr_sdap_entity l is_gnb rx tx ue p d drb (first_flow flows)
        (u8 (Z.of_nat (length flows))) s; Done (l, s, [])
  | DataReq ctxt ue rb mui sdu qfi rqi p =>
      '(_, l, s) ← sdap_data_req l ctxt ue rb mui (Z.of_nat (length sdu)) (Some sdu) qfi rqi p s;
      Done (l, s, [])
  | DataInd drb is_gnb rx p ue buf =>
      sdap_data_ind l drb is_gnb rx p ue buf (Z.of_nat (length buf)) s
  | Reconfigure c ue p drb => '(l, s) ← nr_reconfigure_sdap_entity l c ue p drb s; Done (l, s, [])
  | ReleaseDrb ue drb p => Done (nr_sdap_release_drb l ue drb p, s, [])
  | DeleteEntity ue p => '(_, l) ← nr_sdap_delete_entity l ue p; Done (l, s, [])
  | DeleteUe ue => Done ((nr_sdap_delete_ue_entities l ue).2, s, [])
  end.

Fixpoint sdap_run (l : list nr_sdap_entity_t) (s : S) (os : list sdap_op)
  : outcome (list nr_sdap_entity_t * S * list sdap_event) :=
  match os with
  | [] => Done (l, s, [])
  | o :: os =>
      '(l, s, ev) ← sdap_do l s o;
      '(l, s, evs) ← sdap_run l s os;
      Done (l, s, ev ++ evs)
  end.

(** PDCP takes or refuses every SDU. *)
Hypothesis pdcp_returns : forall s ctxt drb mui sdu, exists r s',
  pdcp_data_req s ctxt drb mui sdu = Done (r, s').

Lemma end_marker_ok e ue qfi mt s : entity_ok e -> 0 <= qfi < SDAP_MAX_QFI -> exists e' s',
  send_end_marker e ue qfi mt s = Done (e', s') /\ entity_ok e' /\ same_entity e e'.
Proof using pdcp_returns.
  intros O Hq. unfold send_end_marker.
  assert (M : exists drb e', nr_sdap_map_ctrl_pdu e mt qfi = Done (drb, e') /\ entity_ok e' /\ same_entity e e').
  { destruct mt; simpl; [by exists (default_drb e), e|by apply qfi2drb_map_ok]. }
  destruct M as (drb & e' & -> & O' & D'). cbn [mbind outcome_bind].
  unfold nr_sdap_submit_ctrl_pdu, nr_pdcp_submit_sdap_ctrl_pdu. cif; [|by eexists _, _].
  destruct (pdcp_returns s (ctxt_init false ue) drb RLC_MUI_UNDEFINED
    [ul_hdr_byte (nr_sdap_construct_ctrl_pdu qfi)]) as (r & s' & ->). by eexists _, _.
Qed.

(** An end marker sent on a condition. *)
Lemma cond_marker_ok (b : bool) e ue qfi mt s : entity_ok e -> 0 <= qfi < SDAP_MAX_QFI -> exists e' s',
  (if b then send_end_marker e ue qfi mt s else Done (e, s)) = Done (e', s') /\
  entity_ok e' /\ same_entity e e'.
Proof using pdcp_returns.
  intros O Hq. destruct b; [by apply end_marker_ok|]. by exists e, s.
Qed.

Ltac marker O Hq e1 s1 O1 D1 :=
  lazymatch goal with
  | |- context [if ?b then send_end_marker ?e ?ue ?q ?mt ?s else _] =>
      destruct (cond_marker_ok b e ue q mt s O Hq) as (e1 & s1 & -> & O1 & D1)
  end.

Lemma reflective_ok e drb ue qfi s :
  entity_ok e -> 0 <= qfi < SDAP_MAX_QFI -> 0 <= drb <= MAX_DRBS_PER_UE -> exists e' s',
  reflective_mapping e drb ue qfi s = Done (e', s') /\ entity_ok e' /\ same_entity e e'.
Proof using pdcp_returns.
  intros O Hq Hd. unfold reflective_mapping.
  destruct (rd_table e qfi O Hq) as (r & -> & _). cbn [mbind outcome_bind].
  marker O Hq e1 s1 O1 D1.
  cbn [mbind outcome_bind]. destruct (rd_table e1 qfi O1 Hq) as (r1 & -> & _). cbn [mbind outcome_bind].
  marker O1 Hq e2 s2 O2 D2.
  cbn [mbind outcome_bind]. destruct (rd_table e2 qfi O2 Hq) as (r2 & -> & _). cbn [mbind outcome_bind].
  destruct (set_rule_ok e2 qfi (r2 <| drb_id := drb |>) O2 Hq) as (-> & O3 & D3); [done|].
  eexists _, _. split; [done|]. split; [done|]. eauto using same_entity_trans.
Qed.

Lemma config_one_ok e ue qfi drb rx tx s : entity_ok e -> 0 <= qfi < SDAP_MAX_QFI -> exists e' s',
  ue_qfi2drb_config_one e ue qfi drb rx tx s = Done (e', s') /\ entity_ok e' /\ same_entity e e'.
Proof using pdcp_returns.
  intros O Hq. unfold ue_qfi2drb_config_one.
  destruct (rd_table e qfi O Hq) as (r & -> & _). cbn [mbind outcome_bind].
  marker O Hq e1 s1 O1 D1.
  cbn [mbind outcome_bind]. destruct (rd_table e1 qfi O1 Hq) as (r1 & -> & _). cbn [mbind outcome_bind].
  marker O1 Hq e2 s2 O2 D2.
  cbn [mbind outcome_bind]. destruct (map_update_ok e2 qfi drb rx tx O2) as (e3 & -> & O3 & D3).
  eexists _, _. split; [done|]. split; [done|]. eauto using same_entity_trans.
Qed.

Lemma u8_qfi q : 0 <= q < SDAP_MAX_QFI -> u8 q = q.
Proof. unfold SDAP_MAX_QFI, u8. intros. apply Z.mod_small. lia. Qed.

Lemma config_ok e ue q drb rx tx s : entity_ok e -> 0 <= q < SDAP_MAX_QFI -> exists e' s',
  nr_sdap_ue_qfi2drb_config e ue (first_flow [q]) (u8 (Z.of_nat (length [q]))) drb rx tx s = Done (e', s') /\
  entity_ok e' /\ same_entity e e'.
Proof using pdcp_returns.
  intros O Hq. unfold nr_sdap_ue_qfi2drb_config. simpl. rewrite u8_qfi by done.
  destruct (config_one_ok e ue q drb rx tx s O Hq) as (e' & s' & -> & O' & D'). by exists e', s'.
Qed.

Lemma fresh_ok ue p drb : 0 <= drb -> entity_ok (mk_sdap ue drb p empty_table).
Proof.
  intros Hd. split; [done| |done]. apply Forall_replicate. unfold rule_ok, MAX_DRBS_PER_UE. simpl. lia.
Qed.

Lemma tx_entity_ok e ctxt rb mui sdu qfi rqi s : entity_ok e -> 0 <= qfi < SDAP_MAX_QFI -> exists r e' s',
  nr_sdap_tx_entity e ctxt rb mui (Z.of_nat (length sdu)) (Some sdu) qfi rqi s = Done (r, e', s') /\
  entity_ok e' /\ same_entity e e'.
Proof using pdcp_returns.
  intros O Hq. unfold nr_sdap_tx_entity.
  destruct (qfi2drb_map_ok e qfi O Hq) as (drb & e' & -> & O' & D'). cbn [mbind outcome_bind].
  destruct (rd_table e' qfi O' Hq) as (rule & -> & _). cbn [mbind outcome_bind].
  rewrite slice_all by done. cbn [mbind outcome_bind].
  match goal with |- context [if negb ?b then _ else _] => destruct b; cbn [negb] end.
  - cif; [by eexists _, _, _|]. zbool. set (B := replicate _ 0).
    assert (LB : Z.of_nat (length B) = 9000) by (unfold B, SDAP_MAX_PDU; rewrite length_replicate; lia).
    match goal with |- context [blit B 0 [?h]] => set (hdr := h) end.
    destruct (blit B 0 [hdr]) as [B1| |] eqn:E1; try (rewrite blit_done in E1; simpl; (lia || done)).
    pose proof (blit_length _ _ _ _ E1) as L1. cbn [mbind outcome_bind]. unfold SDAP_HDR_LENGTH.
    rewrite blit_done by lia. cbn [mbind outcome_bind].
    rewrite slice_done by (rewrite ?length_app, ?length_take, ?length_drop; lia). cbn [mbind outcome_bind].
    match goal with |- context [pdcp_data_req ?a ?b ?c ?d ?f] =>
      destruct (pdcp_returns a b c d f) as (r & s' & ->) end. by eexists _, _, _.
  - match goal with |- context [pdcp_data_req ?a ?b ?c ?d ?f] =>
      destruct (pdcp_returns a b c d f) as (r & s' & ->) end. by eexists _, _, _.
Qed.

Lemma rx_entity_ok e drb is_gnb rx p ue buf s :
  entity_ok e -> 0 <= drb <= MAX_DRBS_PER_UE -> buf <> [] -> exists e' s' ev,
  nr_sdap_rx_entity e drb is_gnb rx p ue buf (Z.of_nat (length buf)) s = Done (e', s', ev) /\
  entity_ok e' /\ same_entity e e'.
Proof using pdcp_returns.
  intros O Hd Hb. destruct buf as [|b buf]; [done|]. unfold nr_sdap_rx_entity.
  set (off := if rx then SDAP_HDR_LENGTH else 0).
  assert (Hs : exists d, slice (b :: buf) off (Z.of_nat (length (b :: buf)) - off) = Done d).
  { eexists. apply slice_done; unfold off, SDAP_HDR_LENGTH; destruct rx; simpl; lia. }
  destruct Hs as (d & Es). rewrite Es. change (rd (b :: buf) 0) with (Done b). destruct is_gnb.
  - destruct rx; by eexists _, _, _.
  - destruct rx; cbn [mbind outcome_bind]; cbv zeta; [|by eexists _, _, _].
    cif; cbn [mbind outcome_bind]; [|by eexists _, _, _].
    destruct (reflective_ok e drb ue (dl_QFI (dl_hdr_of b)) s O) as (e' & s' & -> & O' & D');
      [|done|by eexists _, _, _].
    simpl. change 63 with (Z.ones 6). rewrite Z.land_ones by lia.
    pose proof (Z.mod_pos_bound b (2 ^ 6)). unfold SDAP_MAX_QFI. lia.
Qed.

(** ** Every operation keeps the directory *)

(** The entities an operation is about. *)
Definition touches (o : sdap_op) (k : Z * Z) : Prop :=
  match o with
  | NewEntity _ _ _ ue p _ _ _ | DataReq _ ue _ _ _ _ _ p | DataInd _ _ _ p ue _
  | Reconfigure _ ue p _ | ReleaseDrb ue _ p | DeleteEntity ue p => k = (ue, p)
  | DeleteUe ue => k.1 = ue
  end.

Definition step_ok (o : sdap_op) (l l' : list nr_sdap_entity_t) : Prop :=
  dir_ok l' /\ keys l' = keys_after o (keys l) /\ (length l' <= Datatypes.S (length l))%nat /\
  forall e, e ∈ l -> ~ touches o (key e) -> e ∈ l'.

Lemma step_same o l : dir_ok l -> keys_after o (keys l) = keys l -> step_ok o l l.
Proof. intros D K. split_and!; [done|done|lia|done]. Qed.

(** A step that changes the rules of one entity. *)
Lemma step_insert o (l : list nr_sdap_entity_t) i e e' :
  dir_ok l -> l !! i = Some e -> entity_ok e' -> same_entity e e' -> touches o (key e) ->
  keys_after o (keys l) = keys l -> step_ok o l (<[i := e']> l).
Proof.
  intros D E O Se T K. destruct (dir_insert l i e e' D E O Se) as [D' K']. split_and!.
  - done.
  - by rewrite K', K.
  - rewrite length_insert. lia.
  - intros x Hx Nt. apply list_elem_of_lookup in Hx as [j Ej]. destruct (decide (j = i)) as [->|Hne].
    + rewrite E in Ej. injection Ej as ->. done.
    + apply (list_elem_of_lookup_2 _ j). by rewrite list_lookup_insert_ne.
Qed.

Lemma lookup_ok l ue p i : dir_ok l -> nr_sdap_get_entity l ue p = Some i ->
  exists e, l !! i = Some e /\ entity_ok e /\ key e = (ue, p) /\ (ue, p) ∈ keys l.
Proof.
  intros [N F] E. apply get_entity_some in E as (e & E & K). exists e. split_and!; [done| |done|].
  - by eapply Forall_lookup_1.
  - unfold keys. rewrite elem_of_list_to_set, <- K. apply list_elem_of_fmap_2.
    by eapply list_elem_of_lookup_2.
Qed.

Lemma new_entity_step l is_gnb rx tx ue p d drb q s :
  dir_ok l -> 0 <= drb < 256 -> 0 <= q < SDAP_MAX_QFI -> exists l' s',
  new_nr_sdap_entity l is_gnb rx tx ue p d drb (first_flow [q]) (u8 (Z.of_nat (length [q]))) s = Done (l', s') /\
  step_ok (NewEntity is_gnb rx tx ue p d drb [q]) l l'.
Proof using pdcp_returns.
  intros D Hd Hq. unfold new_nr_sdap_entity. destruct (nr_sdap_get_entity l ue p) as [i|] eqn:E.
  - destruct (lookup_ok l ue p i D E) as (e & Ei & O & K & Hk). rewrite Ei.
    assert (Ks : {[(ue, p)]} ∪ keys l = keys l) by set_solver. destruct is_gnb; simpl negb; cbv iota.
    + eexists _, _. split; [done|]. by apply step_same.
    + destruct (config_ok e ue q drb rx tx s O Hq) as (e' & s' & -> & O' & D').
      eexists _, _. split; [done|]. by eapply step_insert.
  - apply get_entity_none in E.
    assert (M : exists e', (if d then map_update_loop (Z.to_nat (u8 (Z.of_nat (length [q])))) 0
        (mk_sdap ue 0 p empty_table <| default_drb := drb |>) (first_flow [q]) rx tx
      else Done (mk_sdap ue 0 p empty_table)) = Done e' /\ entity_ok e' /\ key e' = (ue, p)).
    { destruct d; [|exists (mk_sdap ue 0 p empty_table); split_and!; [done|by apply fresh_ok|done]].
      simpl. rewrite u8_qfi by done.
      destruct (map_update_ok (mk_sdap ue drb p empty_table) q drb rx tx) as (e' & -> & O' & (K1 & K2 & _)).
      - apply fresh_ok. lia.
      - exists e'. split_and!; [done|done|]. unfold key. by rewrite K1, K2. }
    destruct M as (e' & -> & O' & K'). eexists _, _. split; [done|]. split_and!.
    + destruct D as [N F]. split; [|by constructor]. rewrite fmap_cons, K'. by constructor.
    + unfold keys. rewrite fmap_cons, K'. done.
    + done.
    + intros x Hx _. by right.
Qed.

Lemma delete_entity_step e r ue p s :
  dir_ok (e :: r) -> (length (e :: r) <= Z.to_nat SDAP_MAX_NUM_OF_ENTITIES)%nat -> exists l',
  sdap_do (e :: r) s (DeleteEntity ue p) = Done (l', s, []) /\ step_ok (DeleteEntity ue p) (e :: r) l'.
Proof using.
  intros D Hlen. simpl.
  assert (Hrm : forall l1 x l2, e :: r = l1 ++ x :: l2 -> key x = (ue, p) ->
    step_ok (DeleteEntity ue p) (e :: r) (l1 ++ l2)).
  { intros l1 x l2 Eq K. rewrite Eq in D. rewrite Eq. destruct (dir_remove l1 x l2 D) as [D' K']. rewrite K in K'.
    split_and!; [done|done|rewrite !length_app; simpl; lia|].
    intros y. rewrite !elem_of_app, elem_of_cons. intros [Hy|[->|Hy]] Nt; [by left|by destruct Nt|by right]. }
  assert (Hno : (ue, p) ∉ key <$> e :: r -> step_ok (DeleteEntity ue p) (e :: r) (e :: r)).
  { intros N. apply step_same; [done|]. simpl. apply set_eq. intros x.
    rewrite elem_of_difference, elem_of_singleton. split; [tauto|]. intros Hx. split; [done|].
    intros ->. apply N. revert Hx. unfold keys. by rewrite elem_of_list_to_set. }
  destruct (is_entity ue p e) eqn:E.
  { eexists. split; [done|]. apply (Hrm [] e r eq_refl). by apply is_entity_key. }
  assert (Ke : (ue, p) <> key e) by (intros K; symmetry in K; apply is_entity_key in K; congruence).
  destruct r as [|e1 r1].
  { eexists. split; [done|]. apply Hno. rewrite fmap_cons, not_elem_of_cons. split; [done|apply not_elem_of_nil]. }
  destruct (delete_walk_ok ue p r1 (Z.to_nat (SDAP_MAX_NUM_OF_ENTITIES - 1)) e e1 E) as (ret & l' & -> & Hw).
  { simpl in Hlen. lia. }
  eexists. split; [done|]. destruct Hw as [(_ & -> & N)|(_ & l1 & x & l2 & Eq & -> & K)]; [by apply Hno|by eapply Hrm].
Qed.

Lemma delete_ue_step l ue :
  dir_ok l -> step_ok (DeleteUe ue) l (nr_sdap_delete_ue_entities l ue).2.
Proof using.
  intros [N F]. rewrite delete_ue_entities_filter. simpl. split_and!.
  - split; [|rewrite Forall_forall in F |- *; intros x [_ Hx]%list_elem_of_filter; by apply F]. eapply sublist_NoDup; [exact N|].
    apply fmap_sublist, sublist_filter.
  - unfold keys. simpl. apply set_eq. intros x. rewrite elem_of_filter, !elem_of_list_to_set.
    rewrite !list_elem_of_fmap. setoid_rewrite list_elem_of_filter. naive_solver.
  - simpl. pose proof (length_filter (fun e => ue_id e <> ue) l). lia.
  - intros e He Ht. apply list_elem_of_filter. simpl in Ht. done.
Qed.

Lemma release_step l ue drb p : dir_ok l -> step_ok (ReleaseDrb ue drb p) l (nr_sdap_release_drb l ue drb p).
Proof using.
  intros D. unfold nr_sdap_release_drb. destruct (nr_sdap_get_entity l ue p) as [i|] eqn:E; [|by apply step_same].
  destruct (lookup_ok l ue p i D E) as (e & Ei & [L R Hd] & K & _). rewrite Ei.
  eapply step_insert; try done. split; simpl; [by rewrite length_fmap| |done].
  apply Forall_fmap. eapply Forall_impl; [exact R|]. intros r Hr. simpl. cif; [|done].
  unfold rule_ok, MAX_DRBS_PER_UE, SDAP_NO_MAPPING_RULE. simpl. lia.
Qed.

Lemma reconfigure_step l c ue p drb s :
  dir_ok l -> sdap_op_ok (Reconfigure c ue p drb) -> exists l' s',
  nr_reconfigure_sdap_entity l c ue p drb s = Done (l', s') /\ step_ok (Reconfigure c ue p drb) l l'.
Proof using pdcp_returns.
  intros D [(q & Eq & Hq) Hrel]. unfold nr_reconfigure_sdap_entity.
  destruct (nr_sdap_get_entity l ue p) as [i|] eqn:E; [|by eexists _, _; split; [|apply step_same]].
  destruct (lookup_ok l ue p i D E) as (e & Ei & O & K & _). rewrite Ei, Eq. cbn [array0 mbind outcome_bind].
  destruct (config_ok e ue q (u8 drb) (is_sdap_rx false c) (is_sdap_tx false c) s O Hq) as (e1 & s1 & -> & O1 & D1).
  cbn [mbind outcome_bind].
  assert (M : exists e2, match mappedQoS_FlowsToRelease c with
              | None => Done e1
              | Some rel =>
                  mapped ← array0 rel;
                  map_delete_loop (Z.to_nat (u8 (Z.of_nat (length rel)))) 0 e1 mapped
              end = Done e2 /\ entity_ok e2 /\ same_entity e1 e2).
  { destruct (mappedQoS_FlowsToRelease c) as [rel|]; [|by exists e1].
    destruct Hrel as (q' & -> & Hq'). simpl. rewrite u8_qfi by done.
    destruct (map_del_ok e1 q' O1 Hq') as (e2 & -> & O2 & D2). by exists e2. }
  destruct M as (e2 & -> & O2 & D2). eexists _, _. split; [done|].
  eapply step_insert; eauto using same_entity_trans.
Qed.

Lemma sdap_do_ok l s o :
  dir_ok l -> sdap_op_ok o -> may_call o (keys l) -> (length l <= Z.to_nat SDAP_MAX_NUM_OF_ENTITIES)%nat ->
  exists l' s' ev, sdap_do l s o = Done (l', s', ev) /\ step_ok o l l'.
Proof using pdcp_returns.
  intros D Ho Hm Hlen. destruct o as [g rx tx ue p d drb flows|ctxt ue rb mui sdu qfi rqi p
    |drb g rx p ue buf|c ue p drb|ue drb p|ue p|ue].
  - destruct Ho as (Hd & q & -> & Hq).
    destruct (new_entity_step l g rx tx ue p d drb q s D Hd Hq) as (l' & s' & E & H').
    exists l', s', []. split; [|done]. cbn [sdap_do]. by rewrite E.
  - simpl in Ho |- *. unfold sdap_data_req. destruct (nr_sdap_get_entity l ue p) as [i|] eqn:E.
    + destruct (lookup_ok l ue p i D E) as (e & Ei & O & K & _). rewrite Ei.
      destruct (tx_entity_ok e ctxt rb mui sdu qfi rqi s O Ho) as (r & e' & s' & -> & O' & D').
      eexists _, _, _. split; [done|]. by eapply step_insert.
    + eexists _, _, _. split; [done|]. by apply step_same.
  - simpl in Ho |- *. destruct Ho as [Hd Hb]. unfold sdap_data_ind.
    destruct (nr_sdap_get_entity l ue p) as [i|] eqn:E.
    + destruct (lookup_ok l ue p i D E) as (e & Ei & O & K & _). rewrite Ei.
      destruct (rx_entity_ok e drb g rx p ue buf s O Hd Hb) as (e' & s' & ev & -> & O' & D').
      eexists _, _, _. split; [done|]. by eapply step_insert.
    + eexists _, _, _. split; [done|]. by apply step_same.
  - destruct (reconfigure_step l c ue p drb s D Ho) as (l' & s' & E & H').
    exists l', s', []. split; [|done]. cbn [sdap_do]. by rewrite E.
  - eexists _, _, _. split; [done|]. by apply release_step.
  - destruct l as [|e r].
    + by destruct Hm.
    + destruct (delete_entity_step e r ue p s D Hlen) as (l' & E & H'). by exists l', s, [].
  - eexists _, _, _. split; [done|]. by apply delete_ue_step.
Qed.

Lemma sdap_run_ok os : Forall sdap_op_ok os -> forall l s, dir_ok l -> calls_ok (keys l) os ->
  (length l + length os <= Z.to_nat SDAP_MAX_NUM_OF_ENTITIES)%nat ->
  exists l' s' ev, sdap_run l s os = Done (l', s', ev) /\ dir_ok l' /\
    keys l' = foldl (fun k o => keys_after o k) (keys l) os /\
    (length l' <= length l + length os)%nat.
Proof using pdcp_returns.
  induction 1 as [|o os Ho _ IH]; intros l s D Hc Hlen; [exists l, s, []; split_and!; (done || simpl; lia)|].
  destruct Hc as [Hm Hc]. simpl in Hlen. destruct (sdap_do_ok l s o D Ho Hm ltac:(lia)) as (l1 & s1 & ev1 & E1 & D1 & K1 & L1 & _).
  rewrite <- K1 in Hc. destruct (IH l1 s1 D1 Hc ltac:(lia)) as (l2 & s2 & ev2 & E2 & D2 & K2 & L2).
  exists l2, s2, (ev1 ++ ev2). cbn [sdap_run]. rewrite E1. cbn [mbind outcome_bind]. rewrite E2.
  split_and!; [done|done|by rewrite K2, K1|simpl; lia].
Qed.
End Run.

(** A PDCP that takes every SDU and keeps what it was given. *)
#[local] Instance logging_pdcp : PdcpService (list (Z * list Z)) :=
  fun s _ drb _ sdu => Done (true, s ++ [(drb, sdu)]).


Definition demo_ops : list sdap_op :=
  [NewEntity true true true 7 10 true 1 [9]; NewEntity true true true 8 10 true 1 [9];
   DataReq (ctxt_init true 7) 7 1 0 [0x45; 1; 2] 9 false 10; DataInd 1 true true 10 7 [0x89; 0x45; 3];
   ReleaseDrb 7 1 10; DeleteEntity 7 10].


(** What the run of the witness sends and delivers. *)
Example demo_ops_effects :
  (fun r => match r with Done (l, s, ev) => Some (key <$> l, s, ev) | _ => None end)
    (sdap_run (S := list (Z * list Z)) [] [] demo_ops)
  = Some ([(8, 10)], [(1, [9; 0x45; 1; 2])], [ToGtp 7 10 [0x45; 3]]).
Proof. vm_compute. reflexivity. Qed.

(** ** Packets keep their bytes *)

(** The mapping of a flow that has a rule. *)
Lemma qfi2drb_map_rule e qfi r :
  rd (qfi2drb_table e) qfi = Done r -> drb_id r <> 0 -> nr_sdap_qfi2drb_map e qfi = Done (drb_id r, e).
Proof.
  intros E Hd. unfold nr_sdap_qfi2drb_map. rewrite E. cbn [mbind outcome_bind].
  by rewrite (proj2 (Z.eqb_neq _ _) Hd).
Qed.

Lemma tx_no_header {S} `{PdcpService S} e ctxt rb mui sdu qfi rqi r drb e' :
  nr_sdap_qfi2drb_map e qfi = Done (drb, e') -> drb <> 0 ->
  rd (qfi2drb_table e') qfi = Done r -> has_sdap_tx r = false -> forall s,
  nr_sdap_tx_entity e ctxt rb mui (Z.of_nat (length sdu)) (Some sdu) qfi rqi s =
  ('(ret, s) ← pdcp_data_req s ctxt drb mui sdu; Done (ret, e', s)).
Proof.
  intros E Hd Er Ht s. unfold nr_sdap_tx_entity. rewrite E. cbn [mbind outcome_bind]. rewrite Er.
  cbn [mbind outcome_bind]. rewrite (proj2 (Z.eqb_neq _ _) Hd), Ht. cbn [negb].
  by rewrite slice_all.
Qed.

Lemma tx_header {S} `{PdcpService S} e ctxt rb mui sdu qfi rqi r :
  rd (qfi2drb_table e) qfi = Done r -> drb_id r <> 0 -> has_sdap_tx r = true ->
  0 < Z.of_nat (length sdu) <= 8999 -> forall s,
  nr_sdap_tx_entity e ctxt rb mui (Z.of_nat (length sdu)) (Some sdu) qfi rqi s =
  ('(ret, s) ← pdcp_data_req s ctxt (drb_id r) mui
     ((if enb_flag ctxt then hdr_byte qfi (b2z rqi) 0 else hdr_byte qfi 0 (b2z rqi)) :: sdu);
   Done (ret, e, s)).
Proof.
  intros E Hd Ht Hl s. unfold nr_sdap_tx_entity. rewrite (qfi2drb_map_rule e qfi r) by done.
  cbn [mbind outcome_bind]. rewrite E. cbn [mbind outcome_bind].
  rewrite (proj2 (Z.eqb_neq _ _) Hd), Ht. cbn [negb]. cif; [zbool; destruct E0; zbool; lia|].
  rewrite slice_all by done. cbn [mbind outcome_bind].
  match goal with |- context [blit _ 0 [?h]] => set (hdr := h) end.
  replace (if enb_flag ctxt then hdr_byte qfi (b2z rqi) 0 else hdr_byte qfi 0 (b2z rqi)) with hdr
    by (unfold hdr; by destruct (enb_flag ctxt)).
  set (B := replicate _ 0). assert (LB : Z.of_nat (length B) = 9000)
    by (unfold B, SDAP_MAX_PDU; rewrite length_replicate; lia).
  destruct B as [|b0 B]; [done|]. cbn [length] in LB. 
  change (b0 :: B) with ([] ++ [b0] ++ B). rewrite (blit_mid [] [b0] B [hdr] 0) by done.
  cbn [mbind outcome_bind]. rewrite <- (take_drop (length sdu) B).
  change ([] ++ [hdr] ++ ?x) with ([hdr] ++ x).
  rewrite (blit_mid [hdr] (take (length sdu) B)); [|done|rewrite length_take; lia].
  cbn [mbind outcome_bind]. rewrite app_assoc, slice_head; [done|].
  rewrite length_app. simpl. unfold SDAP_HDR_LENGTH. lia.
Qed.

(** The PDU of a packet: with a header when the rule of the flow has one. *)
Definition sdap_pdu (hdr enb : bool) (qfi : Z) (rqi : bool) (sdu : list Z) : list Z :=
  if hdr then (if enb then hdr_byte qfi (b2z rqi) 0 else hdr_byte qfi 0 (b2z rqi)) :: sdu else sdu.

Lemma sdap_tx_ok {S} `{PdcpService S} e ctxt rb mui sdu qfi rqi r s :
  rd (qfi2drb_table e) qfi = Done r -> drb_id r <> 0 -> 0 < Z.of_nat (length sdu) <= 8999 ->
  nr_sdap_tx_entity e ctxt rb mui (Z.of_nat (length sdu)) (Some sdu) qfi rqi s =
  ('(ret, s) ← pdcp_data_req s ctxt (drb_id r) mui (sdap_pdu (has_sdap_tx r) (enb_flag ctxt) qfi rqi sdu);
   Done (ret, e, s)).
Proof.
  intros Er Hd Hl. unfold sdap_pdu. destruct (has_sdap_tx r) eqn:Ht; [by apply tx_header|].
  by apply (tx_no_header e ctxt rb mui sdu qfi rqi r (drb_id r) e); [apply qfi2drb_map_rule|..].
Qed.

Lemma sdap_rx_ok {S} `{PdcpService S} er drb hdr enb p ue qfi rqi sdu s :
  let pdu := sdap_pdu hdr enb qfi rqi sdu in
  nr_sdap_rx_entity er drb (negb enb) hdr p ue pdu (Z.of_nat (length pdu)) s =
  Done (er, s, [if enb then ToTun sdu else ToGtp ue p sdu]).
Proof.
  intros pdu. unfold pdu, sdap_pdu, nr_sdap_rx_entity. destruct hdr.
  - set (b := if enb then _ else _). change (rd (b :: sdu) 0) with (Done b).
    assert (Es : slice (b :: sdu) SDAP_HDR_LENGTH (Z.of_nat (length (b :: sdu)) - SDAP_HDR_LENGTH) = Done sdu).
    { rewrite <- (app_nil_r sdu) at 1. apply (slice_mid [b] sdu []); [done|].
      simpl. unfold SDAP_HDR_LENGTH. lia. }
    rewrite Es. unfold b. destruct (hdr_fields qfi (b2z rqi) 0) as (_ & _ & F3 & _).
    destruct enb; cbn [negb mbind outcome_bind]; [|done]. unfold dl_hdr_of. cbn [dl_RDI]. by rewrite F3.
  - rewrite Z.sub_0_r, slice_all by done. by destruct enb.
Qed.

(** C40. A packet crosses the SDAP layer unchanged.  When the QoS flow of a packet
    has a mapping rule, the transmitting entity makes one request to PDCP, on the
    DRB of the rule, and the receiving entity of the peer gives the packet, byte
    for byte, to the TUN interface of the UE or to the N3 tunnel of the PDU
    session; with the SDAP header (packets of 1 to 8999 bytes) when the rule has
    it, without it otherwise, the peer being configured likewise.  The header
    carries the QFI, and neither entity changes its rules. *)
Theorem sdap_roundtrip (S S' : Type) (H : PdcpService S) (H' : PdcpService S')
    (e er : nr_sdap_entity_t) (ctxt : protocol_ctxt_t) (rb mui qfi p ue : Z) (rqi : bool)
    (sdu : list Z) (r : qfi2drb_t) :
  entity_ok e -> 0 <= qfi < SDAP_MAX_QFI -> rd (qfi2drb_table e) qfi = Done r -> drb_id r <> 0 ->
  0 < Z.of_nat (length sdu) <= 8999 ->
  exists pdu,
    (forall s : S, nr_sdap_tx_entity e ctxt rb mui (Z.of_nat (length sdu)) (Some sdu) qfi rqi s =
       ('(ret, s) ← pdcp_data_req s ctxt (drb_id r) mui pdu; Done (ret, e, s))) /\
    (has_sdap_tx r = true -> exists b, pdu = b :: sdu /\ Z.land b 63 = qfi) /\
    (forall s' : S', nr_sdap_rx_entity er (drb_id r) (negb (enb_flag ctxt)) (has_sdap_tx r) p ue pdu
         (Z.of_nat (length pdu)) s' =
       Done (er, s', [if enb_flag ctxt then ToTun sdu else ToGtp ue p sdu])).
Proof.
  intros O Hq Er Hd Hl. exists (sdap_pdu (has_sdap_tx r) (enb_flag ctxt) qfi rqi sdu). split_and!.
  - intros s. by apply sdap_tx_ok.
  - intros ->. eexists. split; [reflexivity|].
    destruct (hdr_fields qfi (b2z rqi) 0) as (F & _). destruct (hdr_fields qfi 0 (b2z rqi)) as (G & _).
    assert (E : Z.land qfi 63 = qfi).
    { change 63 with (Z.ones 6). rewrite Z.land_ones by lia. apply Z.mod_small. exact Hq. }
    destruct (enb_flag ctxt); congruence.
  - intros s'. apply sdap_rx_ok.
Qed.

Definition demo_entity (drb : Z) (tx : bool) : nr_sdap_entity_t :=
  mk_sdap 7 1 10 (<[9%nat := mk_qfi2drb drb true tx]> empty_table).

Lemma sdap_roundtrip_witness : exists pdu,
  (forall s : list (Z * list Z),
     nr_sdap_tx_entity (demo_entity 1 true) (ctxt_init true 7) 1 0 3 (Some [0x45; 1; 2]) 9 false s =
     ('(ret, s) ← pdcp_data_req s (ctxt_init true 7) 1 0 pdu; Done (ret, demo_entity 1 true, s))) /\
  (true = true -> exists b, pdu = b :: [0x45; 1; 2] /\ Z.land b 63 = 9) /\
  (forall s' : list (Z * list Z), nr_sdap_rx_entity (demo_entity 1 true) 1 false true 10 7 pdu
       (Z.of_nat (length pdu)) s' = Done (demo_entity 1 true, s', [ToTun [0x45; 1; 2]])).
Proof.
  apply (sdap_roundtrip (list (Z * list Z)) (list (Z * list Z)) logging_pdcp logging_pdcp
    (demo_entity 1 true) (demo_entity 1 true) (ctxt_init true 7) 1 0 9 10 7 false [0x45; 1; 2]
    (mk_qfi2drb 1 true true)).
  - split; [done| |done]. apply Forall_insert; [|unfold rule_ok, MAX_DRBS_PER_UE; simpl; lia].
    apply Forall_replicate. unfold rule_ok, MAX_DRBS_PER_UE. simpl. lia.
  - unfold SDAP_MAX_QFI. lia.
  - reflexivity.
  - done.
  - simpl. lia.
Defined.

(** ** Where the mapping goes wrong *)

(** A flow mapped to the default DRB loses its first byte.  The rule that
    [nr_sdap_qfi2drb_map] makes for a flow without a rule takes the default DRB
    but not its header configuration: the packets of the flow are sent without
    the SDAP header on a DRB that has one, and the peer takes the first byte of
    every packet for it. *)
Theorem sdap_default_drb_drops_byte (S S' : Type) (H : PdcpService S) (H' : PdcpService S')
    (e er : nr_sdap_entity_t) (ctxt : protocol_ctxt_t) (rb mui qfi p ue b : Z) (rqi : bool) (sdu : list Z) :
  entity_ok e -> 0 < qfi < SDAP_MAX_QFI -> 0 < default_drb e <= AVLBL_DRB ->
  rd (qfi2drb_table e) qfi = Done (mk_qfi2drb 0 false false) -> 0 <= b < 128 ->
  exists e', (forall s : S,
      nr_sdap_tx_entity e ctxt rb mui (Z.of_nat (length (b :: sdu))) (Some (b :: sdu)) qfi rqi s =
      ('(ret, s) ← pdcp_data_req s ctxt (default_drb e) mui (b :: sdu); Done (ret, e', s))) /\
    (forall s' : S', nr_sdap_rx_entity er (default_drb e) (negb (enb_flag ctxt)) true p ue (b :: sdu)
         (Z.of_nat (length (b :: sdu))) s' =
       Done (er, s', [if enb_flag ctxt then ToTun sdu else ToGtp ue p sdu])).
Proof.
  intros O Hq Hd Er Hb. set (r := mk_qfi2drb (default_drb e) false false).
  exists (e <| qfi2drb_table ::= <[Z.to_nat qfi := r]> |>). split.
  - intros s. apply (tx_no_header e ctxt rb mui (b :: sdu) qfi rqi r (default_drb e)); [|lia| |done].
    + unfold nr_sdap_qfi2drb_map. rewrite Er. cbn [mbind outcome_bind drb_id Z.eqb negb].
      rewrite (proj2 (Z.eqb_neq _ _)) by lia. cbn [negb]. unfold nr_sdap_qfi2drb_map_update.
      cif; [|exfalso; unfold SDAP_MAP_RULE_EMPTY in E; repeat (zbool; destruct E as [E|E]); zbool; lia].
      cbn [has_sdap_rx has_sdap_tx]. fold r. destruct (set_rule_ok e qfi r O) as (-> & _); [lia| |done].
      unfold rule_ok, r, MAX_DRBS_PER_UE, AVLBL_DRB in *. simpl. lia.
    + destruct O as [L _ _]. apply rd_done; [lia|]. simpl. apply list_lookup_insert_eq.
      rewrite L. unfold SDAP_MAX_QFI in Hq. lia.
  - intros s'. unfold nr_sdap_rx_entity. change (rd (b :: sdu) 0) with (Done b).
    assert (Es : slice (b :: sdu) SDAP_HDR_LENGTH (Z.of_nat (length (b :: sdu)) - SDAP_HDR_LENGTH) = Done sdu).
    { rewrite <- (app_nil_r sdu) at 1. apply (slice_mid [b] sdu []); [done|].
      simpl. unfold SDAP_HDR_LENGTH. lia. }
    rewrite Es. destruct (enb_flag ctxt); cbn [negb mbind outcome_bind]; [|done].
    unfold dl_hdr_of. cbn [dl_RDI]. rewrite Z.shiftr_div_pow2, Z.div_small by lia. done.
Qed.

Lemma sdap_default_drb_drops_byte_witness :
  exists e', (forall s : list (Z * list Z),
      nr_sdap_tx_entity (demo_entity 1 true) (ctxt_init true 7) 1 0 3 (Some [0x45; 1; 2]) 8 false s =
      ('(ret, s) ← pdcp_data_req s (ctxt_init true 7) 1 0 [0x45; 1; 2]; Done (ret, e', s))) /\
    (forall s' : list (Z * list Z), nr_sdap_rx_entity (demo_entity 1 true) 1 false true 10 7 [0x45; 1; 2] 3 s' =
       Done (demo_entity 1 true, s', [ToTun [1; 2]])).
Proof.
  apply (sdap_default_drb_drops_byte (list (Z * list Z)) (list (Z * list Z)) logging_pdcp logging_pdcp
    (demo_entity 1 true) (demo_entity 1 true) (ctxt_init true 7) 1 0 8 10 7 0x45 false [1; 2]).
  - split; [done| |done]. apply Forall_insert; [|unfold rule_ok, MAX_DRBS_PER_UE; simpl; lia].
    apply Forall_replicate. unfold rule_ok, MAX_DRBS_PER_UE. simpl. lia.
  - unfold SDAP_MAX_QFI. lia.
  - unfold AVLBL_DRB. simpl. lia.
  - reflexivity.
  - lia.
Defined.

(** A list of two or more QoS flows is read past its first element, which has an
    allocation of its own. *)
Lemma sdap_second_flow_overread {S} `{PdcpService S} rx tx ue p drb q1 q2 flows s :
  (length flows < 254)%nat -> 0 <= drb ->
  new_nr_sdap_entity [] true rx tx ue p true drb (first_flow (q1 :: q2 :: flows))
    (u8 (Z.of_nat (length (q1 :: q2 :: flows)))) s = Undef.
Proof.
  intros Hf Hd. unfold new_nr_sdap_entity. cbn [nr_sdap_get_entity first_flow take].
  assert (En : exists n, Z.to_nat (u8 (Z.of_nat (length (q1 :: q2 :: flows)))) = Datatypes.S (Datatypes.S n)).
  { unfold u8. rewrite Z.mod_small by (simpl; lia). exists (length flows). simpl. lia. }
  destruct En as (n & ->). cbn [map_update_loop]. change (rd [q1] 0) with (Done q1). cbn [mbind outcome_bind].
  match goal with |- context [nr_sdap_qfi2drb_map_update ?e ?a ?b ?c ?d] =>
    destruct (map_update_ok e a b c d) as (e' & -> & _) end.
  { by apply (fresh_ok ue p drb). }
  done.
Qed.

