(* ===== verification/ThreadQueue.v ===== *)
(** The two queues between PDCP and RLC (openair2/LAYER2/nr_pdcp/nr_pdcp_oai_api.c):
    a ring of 10000 requests filled by any thread and emptied by a thread of its
    own, [rlc_data_req_thread] towards RLC and [pdcp_data_ind_thread] towards
    PDCP.  The code of the two is the same but for the items; the model is
    generic in the items and in the size of the ring.

    A step of the model is what one thread does between two points where
    another thread can run: the part of a function that holds the mutex, the
    call of the handler (made without the mutex), or a wake-up.  The threads
    share one condition variable, on which the producers wait while the ring is
    full and the consumer while it is empty. *)

From S2P Require Import Prelude L2Common.

(** ** The ring *)

Record ring (A : Type) := mk_ring {
  r_q : list A;
  r_start : Z;
  r_length : Z
}.
Arguments mk_ring {A}.
Arguments r_q {A}.
Arguments r_start {A}.
Arguments r_length {A}.
#[export] Instance eta_ring A : Eta (ring A) := fun r => mk_ring (r_q r) (r_start r) (r_length r).

Definition RLC_DATA_REQ_QUEUE_SIZE : Z := 10000.
Definition PDCP_DATA_IND_QUEUE_SIZE : Z := 10000.

Record rlc_data_req_queue_item := mk_rlc_item {
  ri_ctxt : protocol_ctxt_t;
  ri_srb_flag : bool;
  ri_MBMS_flag : bool;
  ri_rb_id : Z;
  ri_mui : Z;
  ri_confirm : Z;
  ri_sdu_size : Z;
  ri_sdu : list Z
}.

Record pdcp_data_ind_queue_item := mk_pdcp_item {
  pi_ctxt : protocol_ctxt_t;
  pi_srb_flag : bool;
  pi_MBMS_flag : bool;
  pi_rb_id : Z;
  pi_sdu_buffer_size : Z;
  pi_sdu_buffer : list Z
}.

(** ** Threads *)

(** A producer inside [enqueue_...]: asleep on the condition variable, or woken
    and about to test the length again. *)
Inductive producer (A : Type) :=
| PIdle
| PSleeping (x : A)
| PWoken (x : A).
Arguments PIdle {A}.
Arguments PSleeping {A}.
Arguments PWoken {A}.

(** The consumer: about to take the mutex, asleep, calling the handler on the
    item of index [i], back from the handler. *)
Inductive consumer :=
| CAwake
| CSleeping
| CServing (i : Z)
| CServed.

Record tq (A : Type) := mk_tq {
  t_ring : ring A;
  t_consumer : consumer;
  t_producers : list (producer A)
}.
Arguments mk_tq {A}.
Arguments t_ring {A}.
Arguments t_consumer {A}.
Arguments t_producers {A}.
#[export] Instance eta_tq A : Eta (tq A) := fun r => mk_tq (t_ring r) (t_consumer r) (t_producers r).

Inductive qevent (A : Type) :=
| Put (x : A)
| Handled (x : A)
| Silent.
Arguments Put {A}.
Arguments Handled {A}.
Arguments Silent {A}.

Section Queue.
Context {A : Type} (size : Z).

(** [i = (q.start + q.length) % SIZE; q.length++; q.q[i] = x] *)
Definition ring_put (r : ring A) (x : A) : outcome (ring A) :=
  let i := Z.rem (r_start r + r_length r) size in
  q ← wr (r_q r) i x;
  Done (r <| r_length ::= Z.add 1 |> <| r_q := q |>).

(** [q.length--; q.start = (q.start + 1) % SIZE] *)
Definition ring_release (r : ring A) : ring A :=
  r <| r_length ::= fun n => n - 1 |> <| r_start ::= fun s => Z.rem (s + 1) size |>.

(** A thread that waits on the condition variable wakes up. *)
Inductive wake : tq A -> tq A -> Prop :=
| wake_consumer t :
    t_consumer t = CSleeping -> wake t (t <| t_consumer := CAwake |>)
| wake_producer t k x :
    t_producers t !! k = Some (PSleeping x) ->
    wake t (t <| t_producers ::= <[k := PWoken x]> |>).

Definition asleep (t : tq A) : Prop :=
  t_consumer t = CSleeping \/ exists k x, t_producers t !! k = Some (PSleeping x).

(** [pthread_cond_signal]: one of the waiting threads, if there is one. *)
Inductive signal : tq A -> tq A -> Prop :=
| signal_one t t' : wake t t' -> signal t t'
| signal_none t : ~ asleep t -> signal t t.

(** The thread [k] holds the mutex in [enqueue_...] with the item [x]: it goes to
    sleep while the ring is full, and otherwise stores the item and signals. *)
Inductive enqueue (k : nat) (x : A) : tq A -> tq A -> qevent A -> Prop :=
| enqueue_full t :
    r_length (t_ring t) = size ->
    enqueue k x t (t <| t_producers ::= <[k := PSleeping x]> |>) Silent
| enqueue_put t r t' :
    r_length (t_ring t) <> size -> ring_put (t_ring t) x = Done r ->
    signal (t <| t_ring := r |> <| t_producers ::= <[k := PIdle]> |>) t' ->
    enqueue k x t t' (Put x).

(** One round of the loop of the consumer thread: it sleeps while the ring is
    empty, takes the index of the first item, calls the handler on the item
    without the mutex, and gives the entry back. *)
Inductive consumer_thread : tq A -> tq A -> qevent A -> Prop :=
| step_empty t :
    t_consumer t = CAwake -> r_length (t_ring t) = 0 ->
    consumer_thread t (t <| t_consumer := CSleeping |>) Silent
| step_take t :
    t_consumer t = CAwake -> r_length (t_ring t) <> 0 ->
    consumer_thread t (t <| t_consumer := CServing (r_start (t_ring t)) |>) Silent
| step_handle t i x :
    t_consumer t = CServing i -> rd (r_q (t_ring t)) i = Done x ->
    consumer_thread t (t <| t_consumer := CServed |>) (Handled x)
| step_release t t' :
    t_consumer t = CServed ->
    signal (t <| t_ring ::= ring_release |> <| t_consumer := CAwake |>) t' ->
    consumer_thread t t' Silent.

(** The interleaving: a producer calls, a producer that was woken tests the
    length again, the consumer runs, a thread wakes up without a signal. *)
Inductive step : tq A -> tq A -> qevent A -> Prop :=
| step_call t t' k x ev :
    t_producers t !! k = Some PIdle -> enqueue k x t t' ev -> step t t' ev
| step_retry t t' k x ev :
    t_producers t !! k = Some (PWoken x) -> enqueue k x t t' ev -> step t t' ev
| step_consumer t t' ev : consumer_thread t t' ev -> step t t' ev
| step_spurious t t' : wake t t' -> step t t' Silent.

Inductive run : tq A -> tq A -> list (qevent A) -> Prop :=
| run_nil t : run t t []
| run_snoc t1 t2 t3 evs ev : run t1 t2 evs -> step t2 t3 ev -> run t1 t3 (evs ++ [ev]).

(** The ring after its initialisation, with the threads that may call. *)
Definition queue_init (q : list A) (producers : nat) : tq A :=
  mk_tq (mk_ring q 0 0) CAwake (replicate producers PIdle).

Definition puts (evs : list (qevent A)) : list A :=
  omap (fun ev => match ev with Put x => Some x | _ => None end) evs.
Definition handled (evs : list (qevent A)) : list A :=
  omap (fun ev => match ev with Handled x => Some x | _ => None end) evs.

(** ** Contents *)

(** The [n] items of the ring from the index [s] on. *)
Fixpoint items (q : list A) (s : Z) (n : nat) : list A :=
  match n with
  | O => []
  | S n => match rd q (s mod size) with Done x => [x] | _ => [] end ++ items q (s + 1) n
  end.

(** The items stored and not handled yet. *)
Definition pending (t : tq A) : list A :=
  let r := t_ring t in
  match t_consumer t with
  | CServed => items (r_q r) (r_start r + 1) (Z.to_nat (r_length r - 1))
  | _ => items (r_q r) (r_start r) (Z.to_nat (r_length r))
  end.

Definition is_sleeping (p : producer A) : bool := match p with PSleeping _ => true | _ => false end.
Definition sleeping (t : tq A) : nat := length (filter is_sleeping (t_producers t)).

(** The invariant: the ring is well formed, the item being handled is the first
    one, the consumer sleeps only on an empty ring, and no more producers
    sleep than there are items. *)
Record tq_ok (t : tq A) : Prop := {
  tq_size : Z.of_nat (length (r_q (t_ring t))) = size;
  tq_start : 0 <= r_start (t_ring t) < size;
  tq_length : 0 <= r_length (t_ring t) <= size;
  tq_consumer : match t_consumer t with
                | CAwake => True
                | CSleeping => r_length (t_ring t) = 0
                | CServing i => i = r_start (t_ring t) /\ 0 < r_length (t_ring t)
                | CServed => 0 < r_length (t_ring t)
                end;
  tq_threads : Z.of_nat (length (t_producers t)) <= size;
  tq_sleeping : Z.of_nat (sleeping t) <= r_length (t_ring t)
}.
End Queue.

(** ** The two queues of the code *)

Definition enqueue_rlc_data_req := @enqueue rlc_data_req_queue_item RLC_DATA_REQ_QUEUE_SIZE.
Definition enqueue_pdcp_data_ind := @enqueue pdcp_data_ind_queue_item PDCP_DATA_IND_QUEUE_SIZE.
Definition rlc_data_req_thread := @consumer_thread rlc_data_req_queue_item RLC_DATA_REQ_QUEUE_SIZE.
Definition pdcp_data_ind_thread := @consumer_thread pdcp_data_ind_queue_item PDCP_DATA_IND_QUEUE_SIZE.

(** ** The invariant *)

Section Proofs.
Context {A : Type} (size : Z).
Hypothesis Hsize : 0 < size.
Implicit Types (t : tq A) (q : list A) (x : A).

Lemma items_insert q s n i x :
  0 <= i < size -> (forall k, (k < n)%nat -> (s + Z.of_nat k) mod size <> i) ->
  items size (<[Z.to_nat i := x]> q) s n = items size q s n.
Proof using Hsize.
  revert s. induction n as [|n IH]; intros s Hi Hn; simpl; [done|]. rewrite IH; [|done|].
  - f_equal. pose proof (Hn 0%nat ltac:(lia)) as H0. rewrite Z.add_0_r in H0.
    pose proof (Z.mod_pos_bound s size Hsize). unfold rd. cif; zbool; [lia|].
    rewrite list_lookup_insert_ne by lia. done.
  - intros k Hk. replace (s + 1 + Z.of_nat k) with (s + Z.of_nat (S k)) by lia. apply Hn. lia.
Qed.

Lemma items_snoc q s n : forall x, rd q ((s + Z.of_nat n) mod size) = Done x ->
  items size q s (S n) = items size q s n ++ [x].
Proof using.
  revert s. induction n as [|n IH]; intros s x E.
  - simpl. rewrite Z.add_0_r in E. by rewrite E.
  - change (items size q s (S (S n))) with
      (match rd q (s mod size) with Done x => [x] | _ => [] end ++ items size q (s + 1) (S n)).
    rewrite (IH (s + 1) x); [by rewrite app_assoc|]. rewrite <- E. do 2 f_equal. lia.
Qed.

Lemma mod_neq a k n : 0 <= k < n -> n < size -> (a + k) mod size <> (a + n) mod size.
Proof using Hsize.
  intros Hk Hn E. assert (D : ((a + n) - (a + k)) mod size = 0) by (by rewrite Zminus_mod, E, Z.sub_diag).
  replace (a + n - (a + k)) with (n - k) in D by lia. rewrite Z.mod_small in D; lia.
Qed.

(** Storing an item appends it to the contents of the ring. *)
Lemma ring_put_ok (r : ring A) x :
  Z.of_nat (length (r_q r)) = size -> 0 <= r_start r < size -> 0 <= r_length r < size ->
  exists q', ring_put size r x = Done (mk_ring q' (r_start r) (1 + r_length r)) /\
    Z.of_nat (length q') = size /\ forall d, 0 <= d <= r_length r ->
    items size q' (r_start r + d) (Z.to_nat (1 + r_length r - d)) =
    items size (r_q r) (r_start r + d) (Z.to_nat (r_length r - d)) ++ [x].
Proof using Hsize.
  intros L Hs Hl. unfold ring_put. rewrite Z.rem_mod_nonneg by lia. set (i := (_ + _) mod size).
  assert (Hi : 0 <= i < size) by (apply Z.mod_pos_bound; lia). rewrite wr_done by lia.
  eexists. split; [reflexivity|]. split; [by rewrite length_insert|]. intros d Hd.
  replace (Z.to_nat (1 + r_length r - d)) with (S (Z.to_nat (r_length r - d))) by lia.
  rewrite (items_snoc _ _ _ x).
  - f_equal. apply items_insert; [done|]. intros k Hk. unfold i.
    replace (r_start r + d + Z.of_nat k) with (r_start r + (d + Z.of_nat k)) by lia. apply mod_neq; lia.
  - replace (r_start r + d + Z.of_nat (Z.to_nat (r_length r - d))) with (r_start r + r_length r) by lia.
    fold i. apply rd_done; [lia|]. apply list_lookup_insert_eq. lia.
Qed.

Lemma sleeping_insert (l : list (producer A)) k p p' :
  l !! k = Some p ->
  (length (filter is_sleeping (<[k := p']> l)) + (if is_sleeping p then 1 else 0) =
   length (filter is_sleeping l) + (if is_sleeping p' then 1 else 0))%nat.
Proof using.
  intros E. rewrite insert_take_drop by (by eapply lookup_lt_Some).
  rewrite <- (take_drop_middle l k p E) at 3. rewrite !filter_app, !length_app, !filter_cons.
  repeat case_decide; destruct p, p'; simpl in *; try lia; try done.
Qed.

Lemma wake_same t t' : wake t t' ->
  t_ring t' = t_ring t /\ pending size t' = pending size t /\
  length (t_producers t') = length (t_producers t) /\
  ((t_consumer t = CSleeping /\ t_consumer t' = CAwake /\ sleeping t' = sleeping t) \/
   (t_consumer t' = t_consumer t /\ sleeping t = S (sleeping t'))).
Proof using.
  intros W. destruct W as [t E|t k x E]; simpl.
  - unfold pending. simpl. rewrite E. split_and!; try done. by left.
  - split_and!; try done; [by rewrite length_insert|]. right. split; [done|]. unfold sleeping. simpl.
    pose proof (sleeping_insert _ _ _ (PWoken x) E) as S. simpl in S. lia.
Qed.

Lemma wake_ok t t' : wake t t' -> tq_ok size t -> tq_ok size t'.
Proof using.
  intros W [H1 H2 H3 H4 H5 H6]. destruct (wake_same _ _ W) as (Er & _ & El & Hc).
  split; rewrite ?Er, ?El; try done; destruct Hc as [(Ec & Ec' & Es)|(Ec & Es)];
    rewrite ?Ec', ?Es; try done; try lia; rewrite ?Ec; done.
Qed.

(** Without a sleeping thread there is nothing to count. *)
Lemma no_sleeper t : ~ asleep t -> sleeping t = 0%nat /\ t_consumer t <> CSleeping.
Proof using.
  intros N. split; [|intros E; apply N; by left]. unfold sleeping.
  destruct (filter is_sleeping (t_producers t)) as [|p l] eqn:E; [done|]. exfalso. apply N. right.
  assert (Hp : p ∈ filter is_sleeping (t_producers t)) by (rewrite E; by left).
  apply list_elem_of_filter in Hp as [Hs Hp]. apply list_elem_of_lookup in Hp as [k Ek].
  destruct p; try done. eauto.
Qed.

(** The signal of a thread that has stored an item wakes the consumer if it sleeps. *)
Lemma signal_put t t' : signal t t' ->
  Z.of_nat (length (r_q (t_ring t))) = size -> 0 <= r_start (t_ring t) < size ->
  0 < r_length (t_ring t) <= size ->
  match t_consumer t with
  | CAwake | CServed => True
  | CSleeping => sleeping t = 0%nat
  | CServing i => i = r_start (t_ring t)
  end ->
  Z.of_nat (length (t_producers t)) <= size -> Z.of_nat (sleeping t) <= r_length (t_ring t) ->
  tq_ok size t' /\ pending size t' = pending size t.
Proof using.
  intros Sg H1 H2 H3 H4 H5 H6. destruct Sg as [t t' W|t N].
  - destruct (wake_same _ _ W) as (Er & Ep & El & Hc). split; [|done].
    split; rewrite ?Er, ?El; try done; try lia.
    destruct Hc as [(Ec & -> & Es)|(-> & Es)]; [done|].
    destruct (t_consumer t); try done; lia.
  - destruct (no_sleeper t N) as [Es Ec]. split; [|done]. split; try done; try lia.
    destruct (t_consumer t); done || lia.
Qed.

(** The signal of the consumer wakes a producer if one sleeps. *)
Lemma signal_release t t' : signal t t' -> t_consumer t = CAwake ->
  Z.of_nat (length (r_q (t_ring t))) = size -> 0 <= r_start (t_ring t) < size ->
  0 <= r_length (t_ring t) <= size -> Z.of_nat (length (t_producers t)) <= size ->
  Z.of_nat (sleeping t) <= r_length (t_ring t) + 1 ->
  tq_ok size t' /\ pending size t' = pending size t.
Proof using.
  intros Sg Hc H1 H2 H3 H5 H6. destruct Sg as [t t' W|t N].
  - destruct (wake_same _ _ W) as (Er & Ep & El & Hw). split; [|done].
    destruct Hw as [(Ec & _)|(Ec & Es)]; [congruence|].
    split; rewrite ?Er, ?El, ?Ec, ?Hc; try done; try lia.
  - destruct (no_sleeper t N) as [Es _]. split; [|done]. split; rewrite ?Hc; try done; try lia.
Qed.

(** The effect of a step on the contents. *)
Definition after (ev : qevent A) (l l' : list A) : Prop :=
  match ev with
  | Put x => l' = l ++ [x]
  | Handled x => l = x :: l'
  | Silent => l' = l
  end.

Lemma enqueue_ok k x t t' ev p :
  enqueue size k x t t' ev -> t_producers t !! k = Some p -> is_sleeping p = false ->
  tq_ok size t -> tq_ok size t' /\ after ev (pending size t) (pending size t').
Proof using Hsize.
  intros En Ek Hp [H1 H2 H3 H4 H5 H6]. destruct En as [t E|t r t' E Er Sg].
  - simpl. split; [|done]. pose proof (sleeping_insert _ _ _ (PSleeping x) Ek) as S.
    assert (Hle : (length (filter is_sleeping (<[k := PSleeping x]> (t_producers t))) <=
                   length (t_producers t))%nat)
      by (rewrite <- (length_insert (t_producers t) k (PSleeping x)); apply length_filter).
    split; simpl; try done; [by rewrite length_insert|]. unfold sleeping in *. simpl. lia.
  - destruct (ring_put_ok (t_ring t) x H1 H2) as (q' & Eq & Lq & Hit); [lia|].
    rewrite Eq in Er. injection Er as <-.
    pose proof (sleeping_insert _ _ _ PIdle Ek) as Hs. rewrite Hp in Hs. simpl in Hs.
    destruct (signal_put _ _ Sg) as [Ok Ep]; simpl; try done; try lia.
    + destruct (t_consumer t); try done; [|tauto]. unfold sleeping in *. simpl. lia.
    + by rewrite length_insert.
    + unfold sleeping in *. simpl. lia.
    + split; [done|]. rewrite Ep. unfold after, pending. simpl.
      pose proof (Hit 0 ltac:(lia)) as I0. rewrite !Z.sub_0_r, !Z.add_0_r in I0.
      destruct (t_consumer t); try exact I0. rewrite <- (Hit 1) by lia. do 2 f_equal. 
Qed.

Lemma pending_first t i x :
  tq_ok size t -> t_consumer t = CServing i -> rd (r_q (t_ring t)) i = Done x ->
  pending size t = x :: items size (r_q (t_ring t)) (r_start (t_ring t) + 1)
                         (Z.to_nat (r_length (t_ring t) - 1)).
Proof using Hsize.
  intros [H1 H2 H3 H4 H5 H6] Ec Er. unfold pending. rewrite Ec in *. destruct H4 as [-> Hl].
  replace (Z.to_nat (r_length (t_ring t))) with (S (Z.to_nat (r_length (t_ring t) - 1))) by lia.
  simpl. rewrite Z.mod_small by lia. by rewrite Er.
Qed.

Lemma items_mod q n : forall s, items size q (s mod size) n = items size q s n.
Proof using Hsize.
  induction n as [|n IH]; intros s; simpl; [done|]. rewrite Z.mod_mod by lia. f_equal.
  rewrite <- IH, Zplus_mod_idemp_l. apply IH.
Qed.

Lemma consumer_ok t t' ev : consumer_thread size t t' ev -> tq_ok size t ->
  tq_ok size t' /\ after ev (pending size t) (pending size t').
Proof using Hsize.
  intros St Ok. destruct St as [t Ec El|t Ec El|t i x Ec Er|t t' Ec Sg].
  - destruct Ok as [H1 H2 H3 H4 H5 H6]. split; [by split|]. simpl. unfold pending. simpl. by rewrite Ec.
  - destruct Ok as [H1 H2 H3 H4 H5 H6]. split; [split; simpl; try done; split; [done|lia]|].
    simpl. unfold pending. simpl. by rewrite Ec.
  - split.
    + destruct Ok as [H1 H2 H3 H4 H5 H6]. rewrite Ec in H4. split; simpl; try done. tauto.
    + simpl. rewrite (pending_first t i x Ok Ec Er). done.
  - destruct Ok as [H1 H2 H3 H4 H5 H6]. rewrite Ec in H4.
    pose proof (Z.mod_pos_bound (r_start (t_ring t) + 1) size Hsize).
    destruct (signal_release _ _ Sg) as [Ok' Ep]; simpl; try done; try lia.
    + rewrite Z.rem_mod_nonneg by lia. done.
    + unfold sleeping in *. simpl. lia.
    + split; [done|]. simpl. rewrite Ep. unfold pending. simpl. rewrite Ec.
      rewrite Z.rem_mod_nonneg by lia. apply items_mod.
Qed.

Lemma step_ok t t' ev : step size t t' ev -> tq_ok size t ->
  tq_ok size t' /\ after ev (pending size t) (pending size t').
Proof using Hsize.
  intros St Ok. destruct St as [t t' k x ev Ek En|t t' k x ev Ek En|t t' ev Cs|t t' W].
  - by eapply enqueue_ok.
  - by eapply enqueue_ok.
  - by apply consumer_ok.
  - split; [by eapply wake_ok|]. simpl. by destruct (wake_same _ _ W) as (_ & -> & _).
Qed.

Lemma init_ok q n : Z.of_nat (length q) = size -> Z.of_nat n <= size -> tq_ok size (queue_init q n).
Proof using Hsize.
  intros L Hn. split; simpl; try done; try lia; [by rewrite length_replicate|].
  unfold sleeping. simpl. clear. induction n as [|n IH]; [done|]. simpl. by rewrite filter_cons_False by (intros []).  
Qed.

Lemma run_ok t t' evs : run size t t' evs -> tq_ok size t -> pending size t = [] ->
  tq_ok size t' /\ handled evs ++ pending size t' = puts evs.
Proof using Hsize.
  induction 1 as [t|t1 t2 t3 evs ev R IH St]; intros Ok Ep; [by rewrite Ep|].
  destruct (IH Ok Ep) as [Ok2 E]. destruct (step_ok _ _ _ St Ok2) as [Ok3 Af]. split; [done|].
  unfold handled, puts in *. rewrite !omap_app. destruct ev as [x|x|]; simpl in *.
  - by rewrite Af, app_nil_r, app_assoc, E.
  - by rewrite Af in E; rewrite <- app_assoc, app_nil_r.
  - by rewrite Af, !app_nil_r.
Qed.
(** ** Progress *)

Lemma signal_exists t : exists t', signal t t'.
Proof using.
  destruct (t_consumer t) eqn:Ec; try (eexists; apply signal_one; by apply wake_consumer).
  all: destruct (filter is_sleeping (t_producers t)) as [|p l] eqn:E.
  all: try (exists t; apply signal_none; intros [?|(k & x & Ek)]; [congruence|];
    apply list_elem_of_lookup_2 in Ek;
    assert (Hin : PSleeping x ∈ filter is_sleeping (t_producers t)) by (by apply list_elem_of_filter);
    rewrite E in Hin; by apply not_elem_of_nil in Hin).
  all: assert (Hp : p ∈ filter is_sleeping (t_producers t)) by (rewrite E; by left).
  all: apply list_elem_of_filter in Hp as [Hs Hp]; apply list_elem_of_lookup in Hp as [k Ek].
  all: destruct p as [|x|x]; try done; eexists; apply signal_one; by eapply wake_producer.
Qed.

Lemma run_step t1 t2 t3 ev evs : step size t1 t2 ev -> run size t2 t3 evs -> run size t1 t3 (ev :: evs).
Proof using.
  intros St R. induction R as [t|t2 t3 t4 evs ev' R IH St'].
  - change [ev] with ([] ++ [ev]). eapply run_snoc; [constructor|done].
  - change (ev :: evs ++ [ev']) with ((ev :: evs) ++ [ev']). eapply run_snoc; eauto.
Qed.

(** The consumer, awake, serves the first item. *)
Lemma serve_awake t x l : tq_ok size t -> t_consumer t = CAwake -> pending size t = x :: l ->
  exists t', run size t t' [Silent; Handled x] /\ pending size t' = l.
Proof using Hsize.
  intros Ok Ec Ep. assert (Hl : r_length (t_ring t) <> 0).
  { intros E. revert Ep. unfold pending. by rewrite Ec, E. }
  pose proof (step_consumer size _ _ _ (step_take size t Ec Hl)) as S1. destruct (step_ok _ _ _ S1 Ok) as [Ok1 P1].
  cbn [after] in P1. set (t1 := t <| t_consumer := CServing (r_start (t_ring t)) |>) in *.
  destruct (rd_in_range (r_q (t_ring t1)) (r_start (t_ring t1))) as [y Ey].
  { rewrite (tq_size _ _ Ok1). apply Ok1. }
  pose proof (pending_first t1 _ y Ok1 eq_refl Ey) as P2. rewrite P1, Ep in P2.
  injection P2 as <- ->. exists (t1 <| t_consumer := CServed |>). split; [|done].
  eapply run_step; [exact S1|]. eapply run_step; [|constructor]. apply step_consumer; by eapply step_handle.
Qed.

Lemma serve_first t x l : tq_ok size t -> pending size t = x :: l ->
  exists t' evs, run size t t' evs /\ handled evs = [x] /\ puts evs = [] /\ pending size t' = l /\
    (length evs <= 3)%nat.
Proof using Hsize.
  intros Ok Ep. destruct (t_consumer t) as [| |i|] eqn:Ec.
  - destruct (serve_awake t x l Ok Ec Ep) as (t' & R & P). exists t', [Silent; Handled x].
    split_and!; try done. simpl. lia.
  - destruct Ok as [_ _ _ Hc _ _]. rewrite Ec in Hc. revert Ep. unfold pending. by rewrite Ec, Hc.
  - pose proof (tq_consumer _ _ Ok) as Hc. rewrite Ec in Hc. destruct Hc as [Hi Hl].
    destruct (rd_in_range (r_q (t_ring t)) i) as [y Ey].
    { rewrite (tq_size _ _ Ok), Hi. apply Ok. }
    rewrite (pending_first t i y Ok Ec Ey) in Ep. injection Ep as -> <-.
    eexists (t <| t_consumer := CServed |>), [Handled x]. split_and!; try done; [|simpl; lia].
    eapply run_step; [apply step_consumer; by eapply step_handle|constructor].
  - destruct (signal_exists (t <| t_ring ::= ring_release size |> <| t_consumer := CAwake |>)) as (t1 & Sg).
    pose proof (step_consumer size _ _ _ (step_release size t t1 Ec Sg)) as S1. destruct (step_ok _ _ _ S1 Ok) as [Ok1 P1].
    cbn [after] in P1. rewrite Ep in P1.
    assert (Ec1 : t_consumer t1 = CAwake).
    { inversion Sg as [? ? W|]; subst; [|done]. destruct (wake_same _ _ W) as (_ & _ & _ & [(Hx & _)|(Hx & _)]); done. }
    destruct (serve_awake t1 x l Ok1 Ec1 P1) as (t' & R & P). exists t', [Silent; Silent; Handled x].
    split_and!; try done. by eapply run_step.
Qed.
End Proofs.

(** C18. The queues between PDCP and RLC are FIFOs.  For every interleaving of the
    producers (at most as many threads as the ring has entries), the consumer and
    spurious wake-ups: the handler has been called on the first items stored, in
    the order in which they were stored, each one once and unchanged, although it
    reads its item without holding the mutex; what is left is in the ring, which
    never holds more than its size. *)
Theorem queue_fifo (A : Type) (size : Z) (q : list A) (n : nat) (t : tq A) (evs : list (qevent A)) :
  0 < size -> Z.of_nat (length q) = size -> Z.of_nat n <= size -> run size (queue_init q n) t evs ->
  handled evs ++ pending size t = puts evs /\
  Z.of_nat (length (pending size t)) <= r_length (t_ring t) <= size.
Proof.
  intros Hs Hq Hn R. destruct (run_ok size Hs _ _ _ R) as [Ok E]; [by apply init_ok|done|].
  split; [done|]. destruct Ok as [H1 H2 H3 H4 _ _]. split; [|lia].
  assert (Hi : forall s k, (length (items size (r_q (t_ring t)) s k) <= k)%nat).
  { intros s k. revert s. induction k as [|k IH]; intros s; simpl; [lia|]. rewrite length_app.
    specialize (IH (s + 1)). destruct (rd _ _); simpl; lia. }
  unfold pending. destruct (t_consumer t); match goal with |- context [items _ _ ?s ?k] =>
    specialize (Hi s k) end; lia.
Qed.

(** C19. No request is forgotten in the queues.  The producers and the consumer
    share one condition variable and [pthread_cond_signal] wakes one thread only;
    still, with at most as many producers as the ring has entries, in every
    reachable state the consumer does not sleep while an item is stored or a
    producer waits, and at most three steps of the consumer handle the first
    item, whoever the signals wake. *)
Theorem queue_no_lost_wakeup (A : Type) (size : Z) (q : list A) (n : nat) (t : tq A) (evs : list (qevent A)) :
  0 < size -> Z.of_nat (length q) = size -> Z.of_nat n <= size -> run size (queue_init q n) t evs ->
  (forall x l, pending size t = x :: l -> t_consumer t <> CSleeping /\
     exists t' evs', run size t t' evs' /\ handled evs' = [x] /\ puts evs' = [] /\
       pending size t' = l /\ (length evs' <= 3)%nat) /\
  (forall k x, t_producers t !! k = Some (PSleeping x) -> t_consumer t <> CSleeping /\
     0 < r_length (t_ring t)).
Proof.
  intros Hs Hq Hn R. destruct (run_ok size Hs _ _ _ R) as [Ok _]; [by apply init_ok|done|]. split.
  - intros x l Ep. split; [|by apply serve_first].
    intros Ec. pose proof (tq_consumer _ _ Ok) as Hc. rewrite Ec in Hc.
    revert Ep. unfold pending. by rewrite Ec, Hc.
  - intros k x Ek. assert (Hsl : (0 < sleeping t)%nat).
    { unfold sleeping. apply list_elem_of_lookup_2 in Ek.
      assert (Hin : PSleeping x ∈ filter is_sleeping (t_producers t)) by (by apply list_elem_of_filter).
      destruct (filter is_sleeping (t_producers t)); [by apply not_elem_of_nil in Hin|simpl; lia]. }
    pose proof (tq_sleeping _ _ Ok). split; [|lia]. intros Ec.
    pose proof (tq_consumer _ _ Ok) as Hc. rewrite Ec in Hc. lia.
Qed.

(** A run on a ring of two entries: two items, a third producer that finds the
    ring full, the first item handled. *)
Definition demo_state : tq Z :=
  mk_tq (mk_ring [10; 11] 0 2) CServed [PIdle; PSleeping 12].

Lemma demo_queue_run :
  run 2 (queue_init [0; 0] 2) demo_state [Put 10; Put 11; Silent; Silent; Handled 10].
Proof.
  eapply run_step.
  { apply (step_call 2 _ _ 0%nat 10); [done|]. eapply (enqueue_put 2 0%nat 10); [done|reflexivity|].
    apply signal_none. intros [E|(k & x & E)]; [done|]. destruct k as [|[|k]]; done. }
  eapply run_step.
  { apply (step_call 2 _ _ 0%nat 11); [done|]. eapply (enqueue_put 2 0%nat 11); [done|reflexivity|].
    apply signal_none. intros [E|(k & x & E)]; [done|]. destruct k as [|[|k]]; done. }
  eapply run_step; [apply (step_call 2 _ _ 1%nat 12); [done|]; by apply enqueue_full|].
  eapply run_step; [apply step_consumer; by apply step_take|].
  eapply run_step; [apply step_consumer; by apply (step_handle 2 _ 0 10)|]. constructor.
Qed.

Lemma queue_fifo_witness :
  handled [Put 10; Put 11; Silent; Silent; Handled 10] ++ pending 2 demo_state =
    puts [Put 10; Put 11; Silent; Silent; Handled 10] /\
  Z.of_nat (length (pending 2 demo_state)) <= r_length (t_ring demo_state) <= 2.
Proof. apply (queue_fifo Z 2 [0; 0] 2); [lia|done|simpl; lia|apply demo_queue_run]. Defined.

Lemma queue_no_lost_wakeup_witness :
  (forall x l, pending 2 demo_state = x :: l -> t_consumer demo_state <> CSleeping /\
     exists t' evs', run 2 demo_state t' evs' /\ handled evs' = [x] /\ puts evs' = [] /\
       pending 2 t' = l /\ (length evs' <= 3)%nat) /\
  (forall k x, t_producers demo_state !! k = Some (PSleeping x) -> t_consumer demo_state <> CSleeping /\
     0 < r_length (t_ring demo_state)).
Proof.
  apply (queue_no_lost_wakeup Z 2 [0; 0] 2 demo_state [Put 10; Put 11; Silent; Silent; Handled 10]);
    [lia|done|simpl; lia|apply demo_queue_run].
Defined.

(** The bound on the threads matters: with more producers than entries the one
    signal of a producer can go to another producer, and then everybody sleeps. *)
Example queue_deadlock :
  exists evs, run 1 (queue_init [0] 2) (mk_tq (mk_ring [8] 0 1) CSleeping [PIdle; PSleeping 9]) evs.
Proof.
  assert (N : forall (c : consumer) r, c <> CSleeping -> ~ asleep (mk_tq r c [@PIdle Z; PIdle])).
  { intros c r Hc [E|(k & x & E)]; [done|]. destruct k as [|[|k]]; done. }
  eexists. eapply run_step.
  { apply (step_call 1 _ _ 0%nat 7); [done|]. eapply (enqueue_put 1 0%nat 7); [done|reflexivity|].
    apply signal_none. by apply N. }
  eapply run_step; [apply step_consumer; by apply step_take|]. eapply run_step; [apply step_consumer; by apply (step_handle 1 _ 0 7)|].
  eapply run_step; [apply (step_call 1 _ _ 0%nat 8); [done|]; by apply enqueue_full|].
  eapply run_step; [apply (step_call 1 _ _ 1%nat 9); [done|]; by apply enqueue_full|].
  eapply run_step; [apply step_consumer; eapply step_release; [done|]; apply signal_one; by apply (wake_producer _ 0%nat 8)|].
  eapply run_step; [apply step_consumer; by apply step_empty|].
  eapply run_step.
  { apply (step_retry 1 _ _ 0%nat 8); [done|]. eapply (enqueue_put 1 0%nat 8); [done|reflexivity|].
    apply signal_one. by apply (wake_producer _ 1%nat 9). }
  eapply run_step; [apply (step_retry 1 _ _ 1%nat 9); [done|]; by apply enqueue_full|]. apply run_nil.
Qed.
