(* ===== verification/F1Ids.v ===== *)
(** The table of the secondary UE identities of a DU or a CU
    (openair2/F1AP/f1ap_ids.c): the RNTI of a UE of the DU to its CU identity,
    and the other way round.  The hash table of the code is a finite map. *)

From S2P Require Import Prelude.

Record f1_ue_data_t := mk_f1_ue_data { secondary_ue : Z }.

Definition f1_table := gmap Z f1_ue_data_t.

Definition add_f1_ue_data (t : f1_table) (ue_id : Z) (data : f1_ue_data_t) : bool * f1_table :=
  match t !! ue_id with Some _ => (false, t) | None => (true, <[ue_id := data]> t) end.
Definition exists_f1_ue_data (t : f1_table) (ue_id : Z) : bool := bool_decide (is_Some (t !! ue_id)).
Definition get_f1_ue_data (t : f1_table) (ue_id : Z) : outcome f1_ue_data_t :=
  match t !! ue_id with Some d => Done d | None => Exit end.
Definition remove_f1_ue_data (t : f1_table) (ue_id : Z) : bool * f1_table :=
  match t !! ue_id with Some _ => (true, delete ue_id t) | None => (false, t) end.

(** The functions of the CU and of the DU are the same on a table each. *)
Definition cu_add_f1_ue_data := add_f1_ue_data.
Definition cu_exists_f1_ue_data := exists_f1_ue_data.
Definition cu_get_f1_ue_data := get_f1_ue_data.
Definition cu_remove_f1_ue_data := remove_f1_ue_data.
Definition du_add_f1_ue_data := add_f1_ue_data.
Definition du_exists_f1_ue_data := exists_f1_ue_data.
Definition du_get_f1_ue_data := get_f1_ue_data.
Definition du_remove_f1_ue_data := remove_f1_ue_data.
