(* ===== verification/RlcConfig.v ===== *)
(** The configuration of RLC bearers: the part of the ASN.1 types that the RLC
    layer reads, and the decoding of their enumerations
    (openair2/LAYER2/nr_rlc/asn1_utils.c). *)

From S2P Require Import Prelude L2Common.

Definition decode_t_reassembly : Z -> outcome Z :=
  decode [0; 5; 10; 15; 20; 25; 30; 35; 40; 45; 50; 55; 60; 65; 70; 75; 80; 85; 90; 95; 100; 110;
          120; 130; 140; 150; 160; 170; 180; 190; 200].

Definition decode_t_status_prohibit : Z -> outcome Z :=
  decode [0; 5; 10; 15; 20; 25; 30; 35; 40; 45; 50; 55; 60; 65; 70; 75; 80; 85; 90; 95; 100; 105;
          110; 115; 120; 125; 130; 135; 140; 145; 150; 155; 160; 165; 170; 175; 180; 185; 190; 195;
          200; 205; 210; 215; 220; 225; 230; 235; 240; 245; 250; 300; 350; 400; 450; 500; 800; 1000;
          1200; 1600; 2000; 2400].

Definition decode_t_poll_retransmit : Z -> outcome Z :=
  decode [5; 10; 15; 20; 25; 30; 35; 40; 45; 50; 55; 60; 65; 70; 75; 80; 85; 90; 95; 100; 105; 110;
          115; 120; 125; 130; 135; 140; 145; 150; 155; 160; 165; 170; 175; 180; 185; 190; 195; 200;
          205; 210; 215; 220; 225; 230; 235; 240; 245; 250; 300; 350; 400; 450; 500; 800; 1000; 2000;
          4000].

Definition decode_poll_pdu : Z -> outcome Z :=
  decode [4; 8; 16; 32; 64; 128; 256; 512; 1024; 2048; 4096; 6144; 8192; 12288; 16384; 20480; 24576;
          28672; 32768; 40960; 49152; 57344; 65536; -1].

Definition poll_byte_tab : list Z :=
  (Z.mul 1024 <$> [1; 2; 5; 8; 10; 15; 25; 50; 75; 100; 125; 250; 375; 500; 750; 1000; 1250; 1500;
                   2000; 3000; 4000; 4500; 5000; 5500; 6000; 6500; 7000; 7500]) ++
  (Z.mul (1024 * 1024) <$> [8; 9; 10; 11; 12; 13; 14; 15; 16; 17; 18; 20; 25; 30; 40]) ++ [-1].

(** [return tab[v] * 1024] in [int]: an overflow is undefined. *)
Definition decode_poll_byte (v : Z) : outcome Z :=
  t ← decode poll_byte_tab v;
  if t =? -1 then Done (-1)
  else if (t * 1024 <? 2 ^ 31) then Done (t * 1024) else Undef.

Definition decode_max_retx_threshold : Z -> outcome Z := decode [1; 2; 3; 4; 6; 8; 16; 32].
Definition decode_sn_field_length_um : Z -> outcome Z := decode [6; 12].
Definition decode_sn_field_length_am : Z -> outcome Z := decode [12; 18].

(** [NR_RLC_Config__am] and [NR_RLC_Config__um_Bi_Directional]; an optional field
    is a pointer in the code. *)
Record rlc_config_am := mk_config_am {
  dl_t_Reassembly : Z;
  dl_t_StatusProhibit : Z;
  dl_am_sn_FieldLength : option Z;
  ul_t_PollRetransmit : Z;
  ul_pollPDU : Z;
  ul_pollByte : Z;
  ul_maxRetxThreshold : Z;
  ul_am_sn_FieldLength : option Z
}.

Record rlc_config_um := mk_config_um {
  dl_um_t_Reassembly : Z;
  dl_um_sn_FieldLength : option Z;
  ul_um_sn_FieldLength : option Z
}.

Inductive NR_RLC_Config :=
| PR_am (am : rlc_config_am)
| PR_um_Bi_Directional (um : rlc_config_um)
| PR_other.

Inductive served_bearer :=
| PR_srb_Identity (id : Z)
| PR_drb_Identity (id : Z)
| PR_NOTHING.

Record NR_RLC_BearerConfig_t := mk_bearer_config {
  logicalChannelIdentity : Z;
  servedRadioBearer : option served_bearer;
  rlc_Config : option NR_RLC_Config
}.


(** The decoded parameters of an AM entity. *)
Record am_params := mk_am_params {
  ap_t_poll_retransmit : Z;
  ap_t_reassembly : Z;
  ap_t_status_prohibit : Z;
  ap_poll_pdu : Z;
  ap_poll_byte : Z;
  ap_max_retx_threshold : Z;
  ap_sn_field_length : Z
}.

Definition decode_am_timers (am : rlc_config_am) : outcome (Z * Z * Z * Z * Z * Z) :=
  t_reassembly ← decode_t_reassembly (dl_t_Reassembly am);
  t_status_prohibit ← decode_t_status_prohibit (dl_t_StatusProhibit am);
  t_poll_retransmit ← decode_t_poll_retransmit (ul_t_PollRetransmit am);
  poll_pdu ← decode_poll_pdu (ul_pollPDU am);
  poll_byte ← decode_poll_byte (ul_pollByte am);
  max_retx_threshold ← decode_max_retx_threshold (ul_maxRetxThreshold am);
  Done (t_poll_retransmit, t_reassembly, t_status_prohibit, poll_pdu, poll_byte, max_retx_threshold).

(** The parameters of a bearer that is set up: both SN lengths must be there, and equal. *)
Definition decode_am (am : rlc_config_am) : outcome am_params :=
  '(t_poll, t_reass, t_prohibit, ppdu, pbyte, max_retx) ← decode_am_timers am;
  dl ← deref (dl_am_sn_FieldLength am);
  ul ← deref (ul_am_sn_FieldLength am);
  if negb (dl =? ul) then Exit
  else n ← decode_sn_field_length_am dl;
       Done (mk_am_params t_poll t_reass t_prohibit ppdu pbyte max_retx n).

(** Default values of 38.331, 9.2.1. *)
Definition am_default : am_params := mk_am_params 45 35 0 (-1) (-1) 8 12.

Definition decode_um (um : rlc_config_um) : outcome (Z * Z) :=
  t ← decode_t_reassembly (dl_um_t_Reassembly um);
  dl ← deref (dl_um_sn_FieldLength um);
  ul ← deref (ul_um_sn_FieldLength um);
  if negb (dl =? ul) then Exit
  else n ← decode_sn_field_length_um dl; Done (t, n).

(** The SN length of a reconfiguration: absent or the same in both directions. *)
Definition decode_sn_reconfigure (dec : Z -> outcome Z) (dl ul : option Z) : outcome (option Z) :=
  match dl, ul with
  | None, None => Done None
  | Some d, Some u => if negb (d =? u) then Exit else n ← dec d; Done (Some n)
  | _, _ => Exit
  end.

(** ** Lemmas *)

Lemma decode_done tab v x : decode tab v = Done x -> tab !! Z.to_nat v = Some x /\ 0 <= v.
Proof.
  unfold decode. cif; [done|]. zbool. unfold rd. cif; [done|]. zbool.
  destruct (tab !! Z.to_nat v) eqn:E0; intros [= <-]. split; [done|lia].
Qed.

(** An index in the range of the enumeration is decoded. *)
Lemma decode_total tab v : 0 <= v < Z.of_nat (length tab) -> exists x, decode tab v = Done x.
Proof.
  intros Hv. unfold decode. cif; [zbool; destruct E; zbool; lia|]. unfold rd. cif; [zbool; lia|].
  destruct (lookup_lt_is_Some_2 tab (Z.to_nat v)) as [x Ex]; [lia|]. rewrite Ex. eauto.
Qed.

Lemma decode_sn_um v n : decode_sn_field_length_um v = Done n -> n = 6 \/ n = 12.
Proof.
  intros [E _]%decode_done. destruct (Z.to_nat v) as [|[|k]]; simpl in E; try done; injection E as <-; auto.
Qed.

Lemma decode_sn_am v n : decode_sn_field_length_am v = Done n -> n = 12 \/ n = 18.
Proof.
  intros [E _]%decode_done. destruct (Z.to_nat v) as [|[|k]]; simpl in E; try done; injection E as <-; auto.
Qed.

Lemma decode_um_sn um t n : decode_um um = Done (t, n) -> n = 6 \/ n = 12.
Proof.
  unfold decode_um. intros E. invd E. invd E. invd E. revert E. cif; [done|]. intros E1. invd E1.
  injection E1 as -> ->. by eapply decode_sn_um.
Qed.

Lemma decode_am_sn am p : decode_am am = Done p -> ap_sn_field_length p = 12 \/ ap_sn_field_length p = 18.
Proof.
  unfold decode_am. intros E. invd E. destruct x as [[[[[x1 x2] x3] x4] x5] x6]. invd E. invd E.
  revert E. cif; [done|]. intros E1. invd E1. injection E1 as <-. by eapply decode_sn_am.
Qed.

(** Large poll thresholds overflow: from 2 MB on, [tab[v] * 1024] is more than an [int]. *)
Lemma decode_poll_byte_overflow : decode_poll_byte 18 = Done (2000 * 1024 * 1024) /\ decode_poll_byte 19 = Undef.
Proof. split; vm_compute; reflexivity. Qed.
