(* ===== verification/RlcApi.v ===== *)
(** The RLC layer as its neighbours see it: the entities behind one interface
    (nr_rlc_entity.h), the contexts of the UEs with their bearers
    (openair2/LAYER2/nr_rlc/nr_rlc_ue_manager.c) and the functions that MAC, PDCP
    and RRC call (openair2/LAYER2/nr_rlc/nr_rlc_oai_api.c).

    Every function of the interface runs under the lock of the manager; the
    callbacks of an entity run inside of the call, and are given here the events
    the call has added to the entity. *)

From S2P Require Import Prelude RlcTm RlcUm RlcAm RlcAmCtrl RlcAmTx.
From S2P Require Import RlcSdu L2Common F1Ids RlcConfig.

(** ** The interface of the entities *)

Inductive nr_rlc_entity_t :=
| TM (e : RlcTm.nr_rlc_entity_tm_t)
| UM (e : RlcUm.nr_rlc_entity_um_t)
| AM (e : RlcAm.nr_rlc_entity_am_t).

Inductive nr_rlc_mode_t := NR_RLC_AM | NR_RLC_UM | NR_RLC_TM.
#[export] Instance nr_rlc_mode_eq_dec : EqDecision nr_rlc_mode_t.
Proof. solve_decision. Defined.

Definition mode (e : nr_rlc_entity_t) : nr_rlc_mode_t :=
  match e with TM _ => NR_RLC_TM | UM _ => NR_RLC_UM | AM _ => NR_RLC_AM end.

Definition set_time (e : nr_rlc_entity_t) (now : Z) : outcome nr_rlc_entity_t :=
  match e with
  | TM e => Done (TM (RlcTm.nr_rlc_entity_tm_set_time e now))
  | UM e => e ← RlcUm.nr_rlc_entity_um_set_time e now; Done (UM e)
  | AM e => e ← RlcAmTx.nr_rlc_entity_am_set_time e now; Done (AM e)
  end.

Definition recv_pdu (e : nr_rlc_entity_t) (buffer : list Z) (size : Z) : outcome nr_rlc_entity_t :=
  match e with
  | TM e => e ← RlcTm.nr_rlc_entity_tm_recv_pdu e buffer size; Done (TM e)
  | UM e => e ← RlcUm.nr_rlc_entity_um_recv_pdu e buffer size; Done (UM e)
  | AM e => e ← RlcAmCtrl.nr_rlc_entity_am_recv_pdu e buffer size; Done (AM e)
  end.

Definition recv_sdu (e : nr_rlc_entity_t) (buffer : list Z) (size sdu_id now : Z)
  : outcome nr_rlc_entity_t :=
  match e with
  | TM e => e ← RlcTm.nr_rlc_entity_tm_recv_sdu e buffer size sdu_id now; Done (TM e)
  | UM e => e ← RlcUm.nr_rlc_entity_um_recv_sdu e buffer size sdu_id now; Done (UM e)
  | AM e => e ← RlcAmTx.nr_rlc_entity_am_recv_sdu e buffer size sdu_id now; Done (AM e)
  end.

Definition generate_pdu (e : nr_rlc_entity_t) (buffer : list Z) (size now : Z)
  : outcome (Z * nr_rlc_entity_t * list Z) :=
  match e with
  | TM e => '(n, e, b) ← RlcTm.nr_rlc_entity_tm_generate_pdu e buffer size now; Done (n, TM e, b)
  | UM e => '(n, e, b) ← RlcUm.nr_rlc_entity_um_generate_pdu e buffer size now; Done (n, UM e, b)
  | AM e => '(n, e, b) ← RlcAmTx.nr_rlc_entity_am_generate_pdu e buffer size now; Done (n, AM e, b)
  end.

Definition buffer_status (e : nr_rlc_entity_t) (maxsize : Z) : outcome nr_rlc_entity_buffer_status_t :=
  match e with
  | TM e => Done (RlcTm.nr_rlc_entity_tm_buffer_status e maxsize)
  | UM e => Done (RlcUm.nr_rlc_entity_um_buffer_status e maxsize)
  | AM e => RlcAmTx.nr_rlc_entity_am_buffer_status e maxsize
  end.

Definition reestablishment (e : nr_rlc_entity_t) : outcome nr_rlc_entity_t :=
  match e with
  | TM e => e ← RlcTm.nr_rlc_entity_tm_reestablishment e; Done (TM e)
  | UM e => e ← RlcUm.nr_rlc_entity_um_reestablishment e; Done (UM e)
  | AM e => e ← RlcAmTx.nr_rlc_entity_am_reestablishment e; Done (AM e)
  end.

Definition available_tx_space (e : nr_rlc_entity_t) : Z :=
  match e with
  | TM e => RlcTm.nr_rlc_entity_tm_available_tx_space e
  | UM e => RlcUm.nr_rlc_entity_um_available_tx_space e
  | AM e => RlcAmTx.nr_rlc_entity_am_available_tx_space e
  end.

Definition delete_entity (e : nr_rlc_entity_t) : outcome unit :=
  match e with
  | TM e => _ ← RlcTm.nr_rlc_entity_tm_delete e; Done ()
  | UM e => _ ← RlcUm.nr_rlc_entity_um_delete e; Done ()
  | AM e => _ ← RlcAmTx.nr_rlc_entity_am_delete e; Done ()
  end.

(** The calls made to the callbacks since the last time, and the entity without them. *)
Definition take_events (e : nr_rlc_entity_t) : list event * nr_rlc_entity_t :=
  match e with
  | TM e => (RlcTm.trace e, TM (e <| RlcTm.trace := [] |>))
  | UM e => (RlcUm.trace e, UM (e <| RlcUm.trace := [] |>))
  | AM e => (RlcAm.trace e, AM (e <| RlcAm.trace := [] |>))
  end.

Definition set_avg_time_is_on (e : nr_rlc_entity_t) (b : bool) : nr_rlc_entity_t :=
  match e with
  | TM e => TM (e <| RlcTm.avg_time_is_on := b |>)
  | UM e => UM (e <| RlcUm.avg_time_is_on := b |>)
  | AM e => AM (e <| RlcAm.avg_time_is_on := b |>)
  end.

(** ** UE contexts (nr_rlc_ue_manager.h) *)

Inductive nr_rlc_rb_type := NR_RLC_NONE | NR_RLC_SRB | NR_RLC_DRB.
#[export] Instance nr_rlc_rb_type_eq_dec : EqDecision nr_rlc_rb_type.
Proof. solve_decision. Defined.

(** [choice] is a union of two [int]s. *)
Record nr_rlc_rb_t := mk_rb { rb_type : nr_rlc_rb_type; rb_choice : Z }.

(** [srb0_data] is the UE identity kept with the callback of SRB 0. *)
Record nr_rlc_ue_t := mk_rlc_ue {
  ue_id : Z;
  srb0 : option nr_rlc_entity_t;
  srb0_data : Z;
  srb : list (option nr_rlc_entity_t);
  drb : list (option nr_rlc_entity_t);
  lcid2rb : list nr_rlc_rb_t
}.
#[export] Instance eta_rlc_ue : Eta nr_rlc_ue_t := fun r =>
  mk_rlc_ue (ue_id r) (srb0 r) (srb0_data r) (srb r) (drb r) (lcid2rb r).

(** [calloc] of a context. *)
Definition calloc_rlc_ue (id : Z) : nr_rlc_ue_t :=
  mk_rlc_ue id None 0 (replicate 3 None) (replicate 32 None) (replicate 32 (mk_rb NR_RLC_NONE 0)).

#[export] Instance rlc_ue_context : UeContext nr_rlc_ue_t := {
  ue_key := ue_id;
  new_ue := calloc_rlc_ue;
  new_ue_key id := eq_refl
}.

Definition nr_rlc_manager_get_ue : list nr_rlc_ue_t -> Z -> nat * list nr_rlc_ue_t := manager_get_ue.

(** The bearers of a context. *)
Inductive rb_ref := RSrb0 | RSrb (i : Z) | RDrb (i : Z).

Definition get_rb (ue : nr_rlc_ue_t) (r : rb_ref) : outcome (option nr_rlc_entity_t) :=
  match r with
  | RSrb0 => Done (srb0 ue)
  | RSrb i => rd (srb ue) i
  | RDrb i => rd (drb ue) i
  end.

Definition set_rb (ue : nr_rlc_ue_t) (r : rb_ref) (x : option nr_rlc_entity_t) : outcome nr_rlc_ue_t :=
  match r with
  | RSrb0 => Done (ue <| srb0 := x |>)
  | RSrb i => l ← wr (srb ue) i x; Done (ue <| srb := l |>)
  | RDrb i => l ← wr (drb ue) i x; Done (ue <| drb := l |>)
  end.

(** [if (p != NULL) p->delete_entity(p)] *)
Definition delete_if (x : option nr_rlc_entity_t) : outcome unit :=
  match x with Some e => delete_entity e | None => Done () end.

Fixpoint delete_all (l : list (option nr_rlc_entity_t)) : outcome unit :=
  match l with [] => Done () | x :: r => _ ← delete_if x; delete_all r end.

Definition nr_rlc_manager_remove_ue (l : list nr_rlc_ue_t) (id : Z) : outcome (list nr_rlc_ue_t) :=
  match find_ue l id with
  | None => Done l
  | Some i =>
      match l !! i with
      | None => Undef
      | Some ue =>
          _ ← delete_if (srb0 ue);
          _ ← delete_all (srb ue);
          _ ← delete_all (drb ue);
          Done (manager_remove_ue l id)
      end
  end.

Definition nr_rlc_ue_add_srb_rlc_entity (ue : nr_rlc_ue_t) (srb_id : Z) (e : nr_rlc_entity_t)
  : outcome nr_rlc_ue_t :=
  if (srb_id <? 0) || (srb_id >? 3) then Exit
  else if srb_id =? 0 then
    match srb0 ue with Some _ => Exit | None => set_rb ue RSrb0 (Some e) end
  else
    x ← get_rb ue (RSrb (srb_id - 1));
    match x with Some _ => Exit | None => set_rb ue (RSrb (srb_id - 1)) (Some e) end.

Definition nr_rlc_ue_add_drb_rlc_entity (ue : nr_rlc_ue_t) (drb_id : Z) (e : nr_rlc_entity_t)
  : outcome nr_rlc_ue_t :=
  if (drb_id <? 1) || (drb_id >? MAX_DRBS_PER_UE) then Exit
  else
    x ← get_rb ue (RDrb (drb_id - 1));
    match x with Some _ => Exit | None => set_rb ue (RDrb (drb_id - 1)) (Some e) end.

(** ** The state of the layer *)

Inductive node_t := UeNode | MonolithicGnb | Du | Cu.

(** [r_enb] is the flag of the manager, [r_node] the type of the node. *)
Record rlc_state := mk_rlc {
  r_ues : list nr_rlc_ue_t;
  r_locked : bool;
  r_enb : bool;
  r_node : node_t;
  r_du2cu : f1_table;
  r_time : Z;
  r_last_frame : Z;
  r_last_subframe : Z
}.
#[export] Instance eta_rlc_state : Eta rlc_state := fun r =>
  mk_rlc (r_ues r) (r_locked r) (r_enb r) (r_node r) (r_du2cu r) (r_time r) (r_last_frame r)
    (r_last_subframe r).

(** What the layer sends to the other layers. *)
Inductive rlc_out :=
| PdcpDataInd (ctx : protocol_ctxt_t) (is_srb : bool) (rb_id : Z) (buf : list Z)
| F1UlRrcMessage (cu_ue du_ue srb_id : Z) (buf : list Z)
| GtpTunnelDataReq (ue rb_id : Z) (buf : list Z)
| InitialUlRrcMessage (ue : Z) (buf : list Z).

(** [pthread_mutex_lock] on a mutex that is never released does not return; the
    mutex is not recursive. *)
Definition locked_call {R} (s : rlc_state) (f : rlc_state -> outcome R) : outcome R :=
  if r_locked s then Undef else f (s <| r_locked := true |>).
Definition unlock (s : rlc_state) : rlc_state := s <| r_locked := false |>.

(** A call about one UE, that unlocks when it returns. *)
Definition ue_call {R} (s : rlc_state) (id : Z) (f : nr_rlc_ue_t -> outcome (R * nr_rlc_ue_t))
  : outcome (R * rlc_state) :=
  locked_call s (fun s =>
  '(r, l) ← with_ue (r_ues s) id f;
  Done (r, unlock (s <| r_ues := l |>))).

(** ** Callbacks *)

(** [for (i = 0; i < nsrb; i++) if (entity == ue->srb[i])], then the DRBs. *)
Definition find_rb (nsrb : Z) (r : rb_ref) : outcome (bool * Z) :=
  match r with
  | RSrb i => if i <? nsrb then Done (true, i + 1) else Exit
  | RDrb i => Done (false, i + 1)
  | RSrb0 => Exit
  end.

Definition deliver_sdu (s : rlc_state) (ue : nr_rlc_ue_t) (r : rb_ref) (buf : list Z)
  : outcome rlc_out :=
  '(is_srb, rb_id) ← find_rb 3 r;
  id ← (if r_enb s then d ← du_get_f1_ue_data (r_du2cu s) (ue_id ue); Done (secondary_ue d)
        else Done (ue_id ue));
  let ctx := ctxt_init (r_enb s) id in
  match r_enb s, r_node s with
  | true, Cu => Exit
  | true, Du => Done (if is_srb then F1UlRrcMessage id (ue_id ue) rb_id buf
                      else GtpTunnelDataReq (ue_id ue) rb_id buf)
  | _, _ => Done (PdcpDataInd ctx is_srb rb_id buf)
  end.

Definition successful_delivery (r : rb_ref) : outcome unit := _ ← find_rb 2 r; Done ().
Definition max_retx_reached (r : rb_ref) : outcome unit := _ ← find_rb 2 r; Done ().

Definition callback (s : rlc_state) (ue : nr_rlc_ue_t) (r : rb_ref) (ev : event) : outcome (list rlc_out) :=
  match ev, r with
  | DeliverSdu buf, RSrb0 => Done [InitialUlRrcMessage (srb0_data ue) buf]
  | DeliverSdu buf, _ => o ← deliver_sdu s ue r buf; Done [o]
  | SduSuccessfulDelivery _, _ => _ ← successful_delivery r; Done []
  | MaxRetxReached, _ => _ ← max_retx_reached r; Done []
  | TimeAverageAdd _ _, _ => Done []
  end.

Fixpoint callbacks (s : rlc_state) (ue : nr_rlc_ue_t) (r : rb_ref) (evs : list event)
  : outcome (list rlc_out) :=
  match evs with
  | [] => Done []
  | ev :: evs => o ← callback s ue r ev; os ← callbacks s ue r evs; Done (o ++ os)
  end.

(** The end of a call on the entity of the bearer [r]: its callbacks, and its new state. *)
Definition finish_rb (s : rlc_state) (ue : nr_rlc_ue_t) (r : rb_ref) (e : nr_rlc_entity_t)
  : outcome (list rlc_out * nr_rlc_ue_t) :=
  let '(evs, e) := take_events e in
  outs ← callbacks s ue r evs;
  ue ← set_rb ue r (Some e);
  Done (outs, ue).

(** ** Lookup of a bearer *)

Definition at_rb (ue : nr_rlc_ue_t) (r : rb_ref) : outcome (option (rb_ref * nr_rlc_entity_t)) :=
  x ← get_rb ue r;
  Done (match x with Some e => Some (r, e) | None => None end).

(** The bearer of a logical channel, if it has an entity. *)
Definition get_rlc_entity_from_lcid (ue : nr_rlc_ue_t) (channel_id : Z)
  : outcome (option (rb_ref * nr_rlc_entity_t)) :=
  if channel_id =? 0 then at_rb ue RSrb0
  else
    rb ← rd (lcid2rb ue) (channel_id - 1);
    match rb_type rb with
    | NR_RLC_NONE => Done None
    | NR_RLC_SRB => if rb_choice rb >? 0 then at_rb ue (RSrb (rb_choice rb - 1)) else Exit
    | NR_RLC_DRB => at_rb ue (RDrb (rb_choice rb - 1))
    end.

(** The bearer of a radio bearer identity, as PDCP names it. *)
Definition get_rlc_entity_from_rb (ue : nr_rlc_ue_t) (srb_flag : bool) (rb_id : Z)
  : outcome (option (rb_ref * nr_rlc_entity_t)) :=
  if srb_flag then
    if (rb_id >=? 1) && (rb_id <=? 2) then at_rb ue (RSrb (rb_id - 1)) else Done None
  else if (rb_id >=? 1) && (rb_id <=? MAX_DRBS_PER_UE) then at_rb ue (RDrb (rb_id - 1)) else Done None.

(** [for (id = 1; id <= 32; id++)] *)
Fixpoint lcid_loop (l : list nr_rlc_rb_t) (id : Z) (is_srb : bool) (rb_id : Z) : Z :=
  match l with
  | [] => 0
  | rb :: l =>
      if bool_decide (rb_type rb = if is_srb then NR_RLC_SRB else NR_RLC_DRB) && (rb_choice rb =? rb_id)
      then id else lcid_loop l (id + 1) is_srb rb_id
  end.

(** Neither return releases the lock. *)
Definition nr_rlc_get_lcid_from_rb (s : rlc_state) (id : Z) (is_srb : bool) (rb_id : Z)
  : outcome (Z * rlc_state) :=
  locked_call s (fun s =>
  '(lcid, l) ← with_ue (r_ues s) id (fun ue => Done (lcid_loop (lcid2rb ue) 1 is_srb rb_id, ue));
  Done (lcid, s <| r_ues := l |>)).

(** ** MAC interface *)

Definition mac_rlc_data_ind (s : rlc_state) (id eNB_index : Z) (MBMS_flag : bool) (channel_id : Z)
    (buffer : list Z) (tb_size : Z) : outcome (list rlc_out * rlc_state) :=
  if negb (eNB_index =? 0) || MBMS_flag then Exit
  else ue_call s id (fun ue =>
    x ← get_rlc_entity_from_lcid ue channel_id;
    match x with
    | Some (r, e) =>
        e ← set_time e (r_time s);
        e ← recv_pdu e buffer tb_size;
        finish_rb s ue r e
    | None => Done ([], ue)
    end).

(** Returns the number of bytes written and the buffer. *)
Definition mac_rlc_data_req (s : rlc_state) (id channel_id tb_size : Z) (buffer : list Z) (now : Z)
  : outcome (Z * list Z * list rlc_out * rlc_state) :=
  '(ret, buffer, outs, s) ← ue_call s id (fun ue =>
    x ← get_rlc_entity_from_lcid ue channel_id;
    match x with
    | Some (r, e) =>
        e ← set_time e (r_time s);
        '(ret, e, buffer) ← generate_pdu e buffer tb_size now;
        '(outs, ue) ← finish_rb s ue r e;
        Done (ret, buffer, outs, ue)
    | None => Done (0, buffer, [], ue)
    end);
  Done (ret, buffer, outs, s).

Definition BSR_MAX : Z := 1000 * 1000.

Definition bytes_in_buffer (s : rlc_state) (ue : nr_rlc_ue_t) (channel_id : Z)
  : outcome (Z * list rlc_out * nr_rlc_ue_t) :=
  x ← get_rlc_entity_from_lcid ue channel_id;
  match x with
  | Some (r, e) =>
      e ← set_time e (r_time s);
      b ← buffer_status e BSR_MAX;
      '(outs, ue) ← finish_rb s ue r e;
      Done (bs_status_size b + bs_retx_size b + bs_tx_size b, outs, ue)
  | None => Done (0, [], ue)
  end.

Definition mac_rlc_status_ind (s : rlc_state) (id channel_id : Z)
  : outcome (Z * list rlc_out * rlc_state) :=
  ue_call s id (fun ue => bytes_in_buffer s ue channel_id).

(** [nr_rlc_current_time] advances with the subframes. *)
Definition advance_time (s : rlc_state) (frame subframe : Z) : rlc_state :=
  if negb (r_last_frame s =? frame) || negb (r_last_subframe s =? subframe)
  then s <| r_time ::= add64 1 |> <| r_last_frame := frame |> <| r_last_subframe := subframe |>
  else s.

Definition mac_rlc_get_buffer_occupancy_ind (s : rlc_state) (id : Z) (enb : bool)
    (frame subframe channel_id : Z) : outcome (Z * list rlc_out * rlc_state) :=
  if enb then Exit
  else
    let s := advance_time s frame subframe in
    ue_call s id (fun ue => bytes_in_buffer s ue channel_id).

Definition nr_rlc_tick (s : rlc_state) (frame subframe : Z) : rlc_state := advance_time s frame subframe.

(** ** PDCP and RRC interface *)

Definition rlc_data_req (s : rlc_state) (ctxt : protocol_ctxt_t) (srb_flag : bool) (rb_id mui sdu_size : Z)
    (sdu : list Z) (now : Z) : outcome (list rlc_out * rlc_state) :=
  ue_call s (s32 (rntiMaybeUEid ctxt)) (fun ue =>
    x ← get_rlc_entity_from_rb ue srb_flag rb_id;
    match x with
    | Some (r, e) =>
        e ← set_time e (r_time s);
        e ← recv_sdu e sdu sdu_size mui now;
        finish_rb s ue r e
    | None => Done ([], ue)
    end).

Definition nr_rlc_srb_recv_sdu (s : rlc_state) (id channel_id : Z) (buf : list Z) (size now : Z)
  : outcome (list rlc_out * rlc_state) :=
  ue_call s id (fun ue =>
    let r := if channel_id =? 0 then RSrb0 else RSrb (channel_id - 1) in
    x ← get_rb ue r;
    match x with
    | Some e =>
        e ← set_time e (r_time s);
        e ← recv_sdu e buf size (-1) now;
        finish_rb s ue r e
    | None => Exit
    end).

Definition nr_rlc_get_available_tx_space (s : rlc_state) (id channel_id : Z) : outcome (Z * rlc_state) :=
  ue_call s id (fun ue =>
    x ← get_rlc_entity_from_lcid ue channel_id;
    Done (match x with Some (_, e) => available_tx_space e | None => -1 end, ue)).

(** ** Release and re-establishment *)

(** [if (p != NULL) { p->delete_entity(p); p = NULL; }] *)
Definition release_rb (ue : nr_rlc_ue_t) (r : rb_ref) : outcome nr_rlc_ue_t :=
  x ← get_rb ue r;
  match x with Some e => _ ← delete_entity e; set_rb ue r None | None => Done ue end.

Definition release_rlc_entity_from_lcid (ue : nr_rlc_ue_t) (channel_id : Z) : outcome nr_rlc_ue_t :=
  if channel_id =? 0 then Exit
  else
    rb ← rd (lcid2rb ue) (channel_id - 1);
    match rb_type rb with
    | NR_RLC_NONE => Done ue
    | NR_RLC_SRB => if rb_choice rb - 1 >=? 0 then release_rb ue (RSrb (rb_choice rb - 1)) else Exit
    | NR_RLC_DRB => release_rb ue (RDrb (rb_choice rb - 1))
    end.

Definition nr_rlc_release_entity (s : rlc_state) (id channel_id : Z) : outcome rlc_state :=
  '(_, s) ← ue_call s id (fun ue =>
    ue ← (if channel_id =? 0 then
            release_rb ue RSrb0
          else release_rlc_entity_from_lcid ue channel_id);
    Done (tt, ue));
  Done s.

Definition nr_rlc_reestablish_entity (s : rlc_state) (id lc_id : Z) : outcome rlc_state :=
  '(_, s) ← ue_call s id (fun ue =>
    x ← get_rlc_entity_from_lcid ue lc_id;
    match x with
    | Some (r, e) => e ← reestablishment e; ue ← set_rb ue r (Some e); Done (tt, ue)
    | None => Done (tt, ue)
    end);
  Done s.

Definition reconfigure_am (e : nr_rlc_entity_t) (p : Z * Z * Z * Z * Z * Z) (sn : option Z)
  : outcome nr_rlc_entity_t :=
  let '(t_poll, t_reass, t_prohibit, ppdu, pbyte, max_retx) := p in
  match e with
  | AM e => Done (AM (RlcAm.nr_rlc_entity_am_reconfigure e t_poll t_reass t_prohibit ppdu pbyte max_retx sn))
  | _ => Undef
  end.

(** The entity is used without a test for NULL. *)
Definition reconfigure_rb (e : nr_rlc_entity_t) (config : option NR_RLC_Config) : outcome nr_rlc_entity_t :=
  match config with
  | Some c =>
      match e, c with
      | TM _, _ => Exit
      | AM _, PR_am am =>
          p ← decode_am_timers am;
          sn ← decode_sn_reconfigure decode_sn_field_length_am
                 (dl_am_sn_FieldLength am) (ul_am_sn_FieldLength am);
          reconfigure_am e p sn
      | AM _, _ => Exit
      | UM e, PR_um_Bi_Directional um =>
          t ← decode_t_reassembly (dl_um_t_Reassembly um);
          sn ← decode_sn_reconfigure decode_sn_field_length_um
                 (dl_um_sn_FieldLength um) (ul_um_sn_FieldLength um);
          Done (UM (RlcUm.nr_rlc_entity_um_reconfigure e t sn))
      | UM _, _ => Exit
      end
  | None =>
      match e with
      | AM _ => reconfigure_am e (45, 35, 0, -1, -1, 8) (Some 12)
      | _ => Exit
      end
  end.

Definition nr_rlc_reconfigure_entity (s : rlc_state) (id lc_id : Z) (config : option NR_RLC_Config)
  : outcome rlc_state :=
  '(_, s) ← ue_call s id (fun ue =>
    x ← get_rlc_entity_from_lcid ue lc_id;
    match x with
    | Some (r, e) => e ← reconfigure_rb e config; ue ← set_rb ue r (Some e); Done (tt, ue)
    | None => Undef
    end);
  Done s.

(** ** Set-up of bearers *)

Definition new_am (p : am_params) : outcome nr_rlc_entity_t :=
  e ← RlcAm.new_nr_rlc_entity_am RLC_RX_MAXSIZE RLC_TX_MAXSIZE (ap_t_poll_retransmit p)
        (ap_t_reassembly p) (ap_t_status_prohibit p) (ap_poll_pdu p) (ap_poll_byte p)
        (ap_max_retx_threshold p) (ap_sn_field_length p);
  Done (AM e).

Definition new_um (t_reassembly sn_field_length : Z) : outcome nr_rlc_entity_t :=
  e ← RlcUm.new_nr_rlc_entity_um RLC_RX_MAXSIZE RLC_TX_MAXSIZE t_reassembly sn_field_length;
  Done (UM e).

(** [ue->lcid2rb[logicalChannelIdentity - 1] = rb] *)
Definition map_lcid (ue : nr_rlc_ue_t) (c : NR_RLC_BearerConfig_t) (rb : nr_rlc_rb_t)
  : outcome nr_rlc_ue_t :=
  l ← wr (lcid2rb ue) (logicalChannelIdentity c - 1) rb; Done (ue <| lcid2rb := l |>).

Definition nr_rlc_add_srb (s : rlc_state) (id srb_id : Z) (c : NR_RLC_BearerConfig_t)
  : outcome rlc_state :=
  if negb ((srb_id >? 0) && (srb_id <? 4)) then Exit
  else
    p ← match rlc_Config c with Some (PR_am am) => decode_am am | _ => Done am_default end;
    '(_, s) ← ue_call s id (fun ue =>
      match servedRadioBearer c with
      | Some (PR_srb_Identity sid) =>
          ue ← map_lcid ue c (mk_rb NR_RLC_SRB sid);
          x ← get_rb ue (RSrb (srb_id - 1));
          match x with
          | Some _ => Done (tt, ue)
          | None => e ← new_am p; ue ← nr_rlc_ue_add_srb_rlc_entity ue srb_id e; Done (tt, ue)
          end
      | _ => Exit
      end);
    Done s.

(** The common part of [add_drb_am] and [add_drb_um], with the creation of the entity. *)
Definition add_drb_entity (s : rlc_state) (id drb_id : Z) (c : NR_RLC_BearerConfig_t)
    (new : outcome nr_rlc_entity_t) : outcome rlc_state :=
  '(_, s) ← ue_call s id (fun ue =>
    match servedRadioBearer c with
    | Some (PR_drb_Identity did) =>
        ue ← map_lcid ue c (mk_rb NR_RLC_DRB did);
        x ← get_rb ue (RDrb (drb_id - 1));
        match x with
        | Some _ => Done (tt, ue)
        | None => e ← new; ue ← nr_rlc_ue_add_drb_rlc_entity ue drb_id e; Done (tt, ue)
        end
    | _ => Exit
    end);
  Done s.

Definition add_drb_am (s : rlc_state) (id drb_id : Z) (c : NR_RLC_BearerConfig_t) (r : NR_RLC_Config)
  : outcome rlc_state :=
  if negb ((drb_id >? 0) && (drb_id <=? MAX_DRBS_PER_UE)) then Exit
  else match r with
  | PR_am am => p ← decode_am am; add_drb_entity s id drb_id c (new_am p)
  | _ => Exit
  end.

Definition add_drb_um (s : rlc_state) (id drb_id : Z) (c : NR_RLC_BearerConfig_t) (r : NR_RLC_Config)
  : outcome rlc_state :=
  if negb ((drb_id >? 0) && (drb_id <=? MAX_DRBS_PER_UE)) then Exit
  else match r with
  | PR_um_Bi_Directional um =>
      '(t, n) ← decode_um um; add_drb_entity s id drb_id c (new_um t n)
  | _ => Exit
  end.

Definition nr_rlc_add_drb (s : rlc_state) (id drb_id : Z) (c : NR_RLC_BearerConfig_t)
  : outcome rlc_state :=
  r ← deref (rlc_Config c);
  match r with
  | PR_am _ => add_drb_am s id drb_id c r
  | PR_um_Bi_Directional _ => add_drb_um s id drb_id c r
  | PR_other => Exit
  end.

Definition nr_rlc_activate_srb0 (s : rlc_state) (id : Z) : outcome rlc_state :=
  '(_, s) ← ue_call s id (fun ue =>
    match srb0 ue with
    | Some _ => Done (tt, ue)
    | None =>
        ue ← nr_rlc_ue_add_srb_rlc_entity (ue <| srb0_data := id |>) 0
               (TM (RlcTm.new_nr_rlc_entity_tm 10000));
        Done (tt, ue)
    end);
  Done s.

(** ** UE management *)

Definition all_none (l : list (option nr_rlc_entity_t)) : bool :=
  forallb (fun x => match x with None => true | Some _ => false end) l.

(** [for (i = 0; i < 2; i++)]: SRB 3 is not looked at. *)
Definition no_rb_left (ue : nr_rlc_ue_t) : bool := all_none (take 2 (srb ue)) && all_none (drb ue).

Definition rrc_rlc_config_req (s : rlc_state) (ctxt : protocol_ctxt_t) (srb_flag mbms_flag remove : bool)
    (rb_id : Z) : outcome rlc_state :=
  if mbms_flag || negb remove || negb (module_id ctxt =? 0) then Exit
  else if (srb_flag && negb ((rb_id >=? 1) && (rb_id <=? 2)))
       || (negb srb_flag && negb ((rb_id >=? 1) && (rb_id <=? MAX_DRBS_PER_UE))) then Exit
  else locked_call s (fun s =>
    let id := s32 (rntiMaybeUEid ctxt) in
    let r := if srb_flag then RSrb (rb_id - 1) else RDrb (rb_id - 1) in
    '(empty, l) ← with_ue (r_ues s) id (fun ue =>
      ue ← release_rb ue r;
      Done (no_rb_left ue, ue));
    l ← (if empty : bool then nr_rlc_manager_remove_ue l id else Done l);
    Done (unlock (s <| r_ues := l |>))).

Definition nr_rlc_remove_ue (s : rlc_state) (id : Z) : outcome rlc_state :=
  locked_call s (fun s =>
  l ← nr_rlc_manager_remove_ue (r_ues s) id;
  Done (unlock (s <| r_ues := l |>))).

Definition nr_rlc_update_id (s : rlc_state) (from_id to_id : Z) : outcome rlc_state :=
  '(_, s) ← ue_call s from_id (fun ue =>
    let ue := ue <| ue_id := to_id |> in
    x ← get_rb ue (RSrb 0);
    match x with
    | Some e => e ← reestablishment e; ue ← set_rb ue (RSrb 0) (Some e); Done (tt, ue)
    | None => Done (tt, ue)
    end);
  Done s.

Definition nr_rlc_test_trigger_reestablishment (s : rlc_state) (id : Z) : outcome rlc_state :=
  '(_, s) ← ue_call s id (fun ue =>
    x ← get_rb ue (RSrb 0);
    match x with
    | Some e => e ← reestablishment e; ue ← set_rb ue (RSrb 0) (Some e); Done (tt, ue)
    | None => Undef
    end);
  Done s.

(** Logical channels 1 to 3 are taken for SRBs, 4 to 8 for DRBs. *)
Definition nr_rlc_activate_avg_time_to_tx (s : rlc_state) (id channel_id : Z) (is_on : bool)
  : outcome rlc_state :=
  '(_, s) ← ue_call s id (fun ue =>
    let ref := if (1 <=? channel_id) && (channel_id <=? 3) then Some (RSrb (channel_id - 1))
               else if (4 <=? channel_id) && (channel_id <=? 8) then Some (RDrb (channel_id - 4))
               else None in
    match ref with
    | None => Done (tt, ue)
    | Some r =>
        x ← get_rb ue r;
        match x with
        | Some e => ue ← set_rb ue r (Some (set_avg_time_is_on e is_on)); Done (tt, ue)
        | None => Done (tt, ue)
        end
    end);
  Done s.

(** ** Initialisation *)

Definition new_nr_rlc_ue_manager (enb : bool) (node : node_t) : rlc_state :=
  mk_rlc [] false enb node ∅ 0 0 0.
