(* ===== verification/RlcBearers.v ===== *)
(** The bearers of the RLC layer: the contexts stay well formed whatever the
    layers around call, a bearer is found under its logical channel and under
    its identity, and the lock that one function keeps. *)

From S2P Require Import Prelude RlcTm RlcUm RlcAm RlcAmCtrl RlcAmTx.
From S2P Require Import RlcSdu L2Common F1Ids RlcConfig RlcApi.

(** ** Well-formed contexts *)

(** No event is left from an earlier call. *)
Definition quiet (e : nr_rlc_entity_t) : Prop := (take_events e).1 = [].

(** SRB 0 is in transparent mode, the other SRBs in acknowledged mode, the DRBs
    in acknowledged or unacknowledged mode. *)
Definition mode_ok (r : rb_ref) (e : nr_rlc_entity_t) : Prop :=
  match r with
  | RSrb0 => mode e = NR_RLC_TM
  | RSrb _ => mode e = NR_RLC_AM
  | RDrb _ => mode e <> NR_RLC_TM
  end.

Definition bearer_ok (r : rb_ref) (x : option nr_rlc_entity_t) : Prop :=
  match x with Some e => mode_ok r e /\ quiet e | None => True end.

Definition lcid_ok (rb : nr_rlc_rb_t) : Prop :=
  match rb_type rb with
  | NR_RLC_NONE => True
  | NR_RLC_SRB => 1 <= rb_choice rb <= 3
  | NR_RLC_DRB => 1 <= rb_choice rb <= MAX_DRBS_PER_UE
  end.

Record ue_ok (ue : nr_rlc_ue_t) : Prop := {
  uo_srb0 : bearer_ok RSrb0 (srb0 ue);
  uo_srb_len : length (srb ue) = 3%nat;
  uo_srb : Forall (bearer_ok (RSrb 0)) (srb ue);
  uo_drb_len : length (drb ue) = 32%nat;
  uo_drb : Forall (bearer_ok (RDrb 0)) (drb ue);
  uo_lcid_len : length (lcid2rb ue) = 32%nat;
  uo_lcid : Forall lcid_ok (lcid2rb ue)
}.

Record rlc_ok (s : rlc_state) : Prop := {
  ro_lock : r_locked s = false;
  ro_ids : ids_ok (r_ues s);
  ro_ues : Forall ue_ok (r_ues s)
}.

Lemma calloc_ue_ok id : ue_ok (calloc_rlc_ue id).
Proof. split; try done; by apply Forall_replicate. Qed.

Lemma bearer_ok_idx r r' x :
  match r, r' with RSrb _, RSrb _ | RDrb _, RDrb _ | RSrb0, RSrb0 => True | _, _ => False end ->
  bearer_ok r x -> bearer_ok r' x.
Proof. by destruct r, r', x. Qed.

Lemma get_rb_ok ue r x : ue_ok ue -> get_rb ue r = Done x -> bearer_ok r x.
Proof.
  intros O E. destruct r as [|i|i]; simpl in E.
  - injection E as <-. apply O.
  - apply rd_inv in E as [_ E]. eapply (bearer_ok_idx (RSrb 0)); [done|].
    eapply Forall_lookup_1; [apply O|done].
  - apply rd_inv in E as [_ E]. eapply (bearer_ok_idx (RDrb 0)); [done|].
    eapply Forall_lookup_1; [apply O|done].
Qed.

(** What stays when a bearer changes. *)
Definition same_ue (ue ue' : nr_rlc_ue_t) : Prop :=
  ue_id ue' = ue_id ue /\ lcid2rb ue' = lcid2rb ue.

Lemma set_rb_ok ue r x ue' :
  ue_ok ue -> bearer_ok r x -> set_rb ue r x = Done ue' -> ue_ok ue' /\ same_ue ue ue'.
Proof.
  intros O B E. destruct O as [O0 L1 F1 L2 F2 L3 F3]. destruct r as [|i|i]; simpl in E.
  - injection E as <-. by split.
  - invd E. apply wr_inv in H as [_ ->]. injection E as <-. split; [|done].
    split; simpl; try done; [by rewrite length_insert|]. apply Forall_insert; [done|].
    by apply (bearer_ok_idx (RSrb i)).
  - invd E. apply wr_inv in H as [_ ->]. injection E as <-. split; [|done].
    split; simpl; try done; [by rewrite length_insert|]. apply Forall_insert; [done|].
    by apply (bearer_ok_idx (RDrb i)).
Qed.

(** ** Entities keep their mode *)

Lemma quiet_taken e : quiet (take_events e).2.
Proof. by destruct e. Qed.

Lemma take_events_mode e : mode (take_events e).2 = mode e.
Proof. by destruct e. Qed.

Lemma set_time_mode e now e' : set_time e now = Done e' -> mode e' = mode e.
Proof.
  destruct e; simpl; [by intros [= <-]|..]; intros E; invd E; by injection E as <-.
Qed.
Lemma recv_pdu_mode e b n e' : recv_pdu e b n = Done e' -> mode e' = mode e.
Proof. destruct e; simpl; intros E; invd E; by injection E as <-. Qed.
Lemma recv_sdu_mode e b n i t e' : recv_sdu e b n i t = Done e' -> mode e' = mode e.
Proof. destruct e; simpl; intros E; invd E; by injection E as <-. Qed.
Lemma generate_pdu_mode e b n t k e' b' : generate_pdu e b n t = Done (k, e', b') -> mode e' = mode e.
Proof.
  destruct e; simpl; intros E; invd E; destruct x as [[? ?] ?]; by injection E as <- <- <-.
Qed.

Lemma tm_clear_trace e e' : RlcTm.nr_rlc_entity_tm_reestablishment e = Done e' -> RlcTm.trace e' = RlcTm.trace e.
Proof. unfold RlcTm.nr_rlc_entity_tm_reestablishment, RlcTm.clear_entity. intros H. invd H. injection H as H. by rewrite <- H. Qed.
Lemma um_clear_trace e e' : RlcUm.nr_rlc_entity_um_reestablishment e = Done e' -> RlcUm.trace e' = RlcUm.trace e.
Proof. unfold RlcUm.nr_rlc_entity_um_reestablishment, RlcUm.clear_entity. intros H. invd H. injection H as H. by rewrite <- H. Qed.
Lemma am_clear_trace e e' : RlcAmTx.nr_rlc_entity_am_reestablishment e = Done e' -> RlcAm.trace e' = RlcAm.trace e.
Proof.
  unfold RlcAmTx.nr_rlc_entity_am_reestablishment, RlcAmTx.clear_entity. intros H. invd H. invd H. invd H. injection H as H. by rewrite <- H.
Qed.

Lemma same_mode_ok r e e' :
  mode e' = mode e -> (take_events e').1 = (take_events e).1 ->
  bearer_ok r (Some e) -> bearer_ok r (Some e').
Proof.
  intros Km Kq [M Q]. split; [|unfold quiet; by rewrite Kq]. destruct r; simpl in *; congruence.
Qed.

Lemma reestablishment_same e e' : reestablishment e = Done e' ->
  mode e' = mode e /\ (take_events e').1 = (take_events e).1.
Proof.
  unfold reestablishment. destruct e as [e|e|e]; intros E; apply outcome_bind_done in E as (x & H & E);
    injection E as E; rewrite <- E; (split; [done|]); cbn [take_events fst].
  - exact (tm_clear_trace e x H).
  - exact (um_clear_trace e x H).
  - exact (am_clear_trace e x H).
Qed.

Lemma reestablishment_ok r e e' :
  reestablishment e = Done e' -> bearer_ok r (Some e) -> bearer_ok r (Some e').
Proof. intros [M Q]%reestablishment_same. by apply same_mode_ok. Qed.

Lemma reconfigure_rb_ok r e c e' :
  reconfigure_rb e c = Done e' -> bearer_ok r (Some e) -> bearer_ok r (Some e').
Proof.
  intros E. assert (K : mode e' = mode e /\ (take_events e').1 = (take_events e).1);
    [|destruct K; by apply same_mode_ok].
  unfold reconfigure_rb, reconfigure_am in E. destruct c as [c|]; [destruct e as [e|e|e], c|destruct e];
    try discriminate.
  - invd E. invd E. injection E as <-. split; [done|]. by destruct x0.
  - invd E. invd E. destruct x as [[[[[x1 x2] x3] x4] x5] x6]. injection E as <-. split; [done|]. by destruct x0.
  - injection E as <-. done.
Qed.

(** ** Operations on a context *)

Lemma mode_ok_eq r e e' : mode e' = mode e -> mode_ok r e -> mode_ok r e'.
Proof. intros E. destruct r; simpl; congruence. Qed.

Lemma finish_rb_ok s ue r e e0 outs ue' :
  ue_ok ue -> mode_ok r e0 -> mode e = mode e0 -> finish_rb s ue r e = Done (outs, ue') ->
  ue_ok ue' /\ same_ue ue ue'.
Proof.
  intros O M Em E. unfold finish_rb in E. destruct (take_events e) as [evs e1] eqn:Et. invd E. invd E.
  injection E as <- <-. eapply set_rb_ok; [done| |done]. split.
  - eapply mode_ok_eq; [|exact M]. rewrite <- Em, <- (take_events_mode e), Et. done.
  - pose proof (quiet_taken e) as Q. by rewrite Et in Q.
Qed.

Lemma at_rb_ok ue r r' e : ue_ok ue -> at_rb ue r = Done (Some (r', e)) -> mode_ok r' e /\ quiet e.
Proof.
  intros O E. unfold at_rb in E. invd E. destruct x as [e1|]; [|done]. injection E as <- <-.
  exact (get_rb_ok _ _ _ O H).
Qed.

Lemma from_lcid_ok ue c r e :
  ue_ok ue -> get_rlc_entity_from_lcid ue c = Done (Some (r, e)) -> mode_ok r e /\ quiet e.
Proof.
  intros O. unfold get_rlc_entity_from_lcid. cif; [by apply at_rb_ok|]. intros E0. invd E0.
  destruct (rb_type x); [done| |by eapply at_rb_ok]. revert E0. cif; [by apply at_rb_ok|done].
Qed.

Lemma from_rb_ok ue f b r e :
  ue_ok ue -> get_rlc_entity_from_rb ue f b = Done (Some (r, e)) -> mode_ok r e /\ quiet e.
Proof.
  intros O. unfold get_rlc_entity_from_rb. destruct f; cif; try done; by apply at_rb_ok.
Qed.

Lemma release_rb_ok ue r ue' : ue_ok ue -> release_rb ue r = Done ue' -> ue_ok ue' /\ same_ue ue ue'.
Proof.
  intros O E. unfold release_rb in E. invd E. destruct x as [e|].
  - invd E. by apply (set_rb_ok ue r None).
  - injection E as <-. done.
Qed.

Lemma release_lcid_ok ue c ue' :
  ue_ok ue -> release_rlc_entity_from_lcid ue c = Done ue' -> ue_ok ue' /\ same_ue ue ue'.
Proof.
  intros O. unfold release_rlc_entity_from_lcid. cif; [done|]. intros E0. invd E0.
  destruct (rb_type x); [by injection E0 as <-| |by eapply release_rb_ok].
  revert E0. cif; [by apply release_rb_ok|done].
Qed.

Lemma map_lcid_ok ue c rb ue' :
  ue_ok ue -> lcid_ok rb -> map_lcid ue c rb = Done ue' -> ue_ok ue' /\ ue_id ue' = ue_id ue.
Proof.
  intros [O0 L1 F1 L2 F2 L3 F3] H E. unfold map_lcid in E. invd E. apply wr_inv in H0 as [_ ->].
  injection E as <-. split; [|done]. split; simpl; try done; [by rewrite length_insert|].
  by apply Forall_insert.
Qed.

Lemma add_srb_entity_ok ue i e ue' :
  ue_ok ue -> mode_ok (if i =? 0 then RSrb0 else RSrb 0) e -> quiet e ->
  nr_rlc_ue_add_srb_rlc_entity ue i e = Done ue' -> ue_ok ue' /\ same_ue ue ue'.
Proof.
  intros O M Q. unfold nr_rlc_ue_add_srb_rlc_entity. cif; [done|]. destruct (i =? 0).
  - destruct (srb0 ue); [done|]. intros H. by eapply (set_rb_ok _ RSrb0 (Some e)).
  - intros H. invd H. destruct x; [done|]. by eapply (set_rb_ok _ (RSrb (i - 1)) (Some e)).
Qed.

Lemma add_drb_entity_ok ue i e ue' :
  ue_ok ue -> mode_ok (RDrb 0) e -> quiet e ->
  nr_rlc_ue_add_drb_rlc_entity ue i e = Done ue' -> ue_ok ue' /\ same_ue ue ue'.
Proof.
  intros O M Q. unfold nr_rlc_ue_add_drb_rlc_entity. cif; [done|]. intros H. invd H.
  destruct x; [done|]. by eapply (set_rb_ok _ (RDrb (i - 1)) (Some e)).
Qed.

Lemma new_am_ok p e : new_am p = Done e -> mode e = NR_RLC_AM /\ quiet e.
Proof.
  unfold new_am. intros E. invd E. injection E as <-. split; [done|].
  revert H. unfold new_nr_rlc_entity_am. cif; [|done]. by intros [= <-].
Qed.

Lemma new_um_ok t n e : new_um t n = Done e -> mode e = NR_RLC_UM /\ quiet e.
Proof.
  unfold new_um. intros E. invd E. injection E as <-. split; [done|].
  revert H. unfold new_nr_rlc_entity_um. cif; [|done]. by intros [= <-].
Qed.

(** ** Calls about one UE *)

(** What a call leaves alone: the contexts of the UEs it is not about. *)
Definition others_same (mine : list Z) (s s' : rlc_state) : Prop :=
  forall id, id ∉ mine -> ue_view (r_ues s') id = ue_view (r_ues s) id.

Definition keeps_ue {R} (f : nr_rlc_ue_t -> outcome (R * nr_rlc_ue_t)) : Prop :=
  forall ue r ue', ue_ok ue -> f ue = Done (r, ue') -> ue_ok ue' /\ ue_id ue' = ue_id ue.

Lemma ue_call_inv {R} s id (f : nr_rlc_ue_t -> outcome (R * nr_rlc_ue_t)) r s' :
  ue_call s id f = Done (r, s') ->
  r_locked s = false /\ exists l, with_ue (r_ues s) id f = Done (r, l) /\
    s' = s <| r_ues := l |>.
Proof.
  unfold ue_call, locked_call. destruct (r_locked s) eqn:El; [done|]. intros E.
  apply outcome_bind_done in E as ([r0 l] & H & E). injection E as <- <-. split; [done|].
  exists l. split; [exact H|]. destruct s; simpl in *. by rewrite El.
Qed.

Lemma ue_call_ok {R} s id (f : nr_rlc_ue_t -> outcome (R * nr_rlc_ue_t)) r s' :
  keeps_ue f -> rlc_ok s -> ue_call s id f = Done (r, s') -> rlc_ok s' /\ others_same [id] s s'.
Proof.
  intros K [L N F] (_ & l & E & ->)%ue_call_inv.
  destruct (with_ue_inv _ _ _ _ _ E) as (u & Ef & Hu).
  assert (Ov : ue_ok (ue_view (r_ues s) id)).
  { unfold ue_view. destruct (find_ue (r_ues s) id) as [i|] eqn:Ei; [|apply calloc_ue_ok].
    destruct (find_ue_some _ _ _ Ei) as (v & Ev & _). simpl. rewrite Ev. simpl.
    eapply Forall_lookup_1; [exact F|exact Ev]. }
  destruct (K _ _ _ Ov Ef) as [_ Ki].
  assert (Kv : ue_key (ue_view (r_ues s) id) = id).
  { destruct (manager_get_ue (r_ues s) id) as [i l1] eqn:Em. by destruct (get_ue_ok _ _ _ _ Em) as (_ & ? & _). }
  destruct Hu as (_ & Hn & _ & Hot); [simpl in *; congruence|]. split.
  - split; simpl; [done|by apply Hn|]. eapply with_ue_forall; [exact F|apply calloc_ue_ok| |exact E].
    intros v x v' Pv Efv. by eapply K.
  - intros id' Hid. simpl. apply Hot. by rewrite list_elem_of_singleton in Hid.
Qed.

(** The result of a call without outputs. *)
Lemma unit_call_ok s id (f : nr_rlc_ue_t -> outcome (unit * nr_rlc_ue_t)) s' :
  keeps_ue f -> rlc_ok s -> ('(_, s) ← ue_call s id f; Done s) = Done s' ->
  rlc_ok s' /\ others_same [id] s s'.
Proof.
  intros K O E. apply outcome_bind_done in E as ([x s1] & H & E). injection E as <-.
  by eapply ue_call_ok.
Qed.

(** ** Sequences of calls *)

Inductive rlc_op :=
| MacDataInd (id eNB_index : Z) (mbms : bool) (channel : Z) (buffer : list Z) (size : Z)
| MacDataReq (id channel size : Z) (buffer : list Z) (now : Z)
| MacStatusInd (id channel : Z)
| BufferOccupancy (id : Z) (enb : bool) (frame subframe channel : Z)
| RlcTick (frame subframe : Z)
| RlcDataReq (ctxt : protocol_ctxt_t) (srb_flag : bool) (rb_id mui size : Z) (sdu : list Z) (now : Z)
| SrbRecvSdu (id channel : Z) (buf : list Z) (size now : Z)
| TxSpace (id channel : Z)
| ReleaseEntity (id channel : Z)
| ReestablishEntity (id channel : Z)
| ReconfigureEntity (id channel : Z) (c : option NR_RLC_Config)
| AddSrb (id srb_id : Z) (c : NR_RLC_BearerConfig_t)
| AddDrb (id drb_id : Z) (c : NR_RLC_BearerConfig_t)
| ActivateSrb0 (id : Z)
| ConfigReq (ctxt : protocol_ctxt_t) (srb_flag mbms remove : bool) (rb_id : Z)
| RemoveUe (id : Z)
| UpdateId (from_id to_id : Z)
| TriggerReestablishment (id : Z)
| AvgTimeToTx (id channel : Z) (is_on : bool)
| GetLcidFromRb (id : Z) (is_srb : bool) (rb_id : Z).

Definition no_out (x : outcome rlc_state) : outcome (list rlc_out * rlc_state) := s ← x; Done ([], s).

Definition rlc_do (s : rlc_state) (o : rlc_op) : outcome (list rlc_out * rlc_state) :=
  match o with
  | MacDataInd id i m c b n => mac_rlc_data_ind s id i m c b n
  | MacDataReq id c n b now => '(_, _, outs, s) ← mac_rlc_data_req s id c n b now; Done (outs, s)
  | MacStatusInd id c => '(_, outs, s) ← mac_rlc_status_ind s id c; Done (outs, s)
  | BufferOccupancy id enb f sf c =>
      '(_, outs, s) ← mac_rlc_get_buffer_occupancy_ind s id enb f sf c; Done (outs, s)
  | RlcTick f sf => Done ([], nr_rlc_tick s f sf)
  | RlcDataReq ctxt srb_flag rb mui n sdu now => rlc_data_req s ctxt srb_flag rb mui n sdu now
  | SrbRecvSdu id c b n now => nr_rlc_srb_recv_sdu s id c b n now
  | TxSpace id c => '(_, s) ← nr_rlc_get_available_tx_space s id c; Done ([], s)
  | ReleaseEntity id c => no_out (nr_rlc_release_entity s id c)
  | ReestablishEntity id c => no_out (nr_rlc_reestablish_entity s id c)
  | ReconfigureEntity id c cfg => no_out (nr_rlc_reconfigure_entity s id c cfg)
  | AddSrb id i c => no_out (nr_rlc_add_srb s id i c)
  | AddDrb id i c => no_out (nr_rlc_add_drb s id i c)
  | ActivateSrb0 id => no_out (nr_rlc_activate_srb0 s id)
  | ConfigReq ctxt srb_flag m r rb => no_out (rrc_rlc_config_req s ctxt srb_flag m r rb)
  | RemoveUe id => no_out (nr_rlc_remove_ue s id)
  | UpdateId a b => no_out (nr_rlc_update_id s a b)
  | TriggerReestablishment id => no_out (nr_rlc_test_trigger_reestablishment s id)
  | AvgTimeToTx id c on => no_out (nr_rlc_activate_avg_time_to_tx s id c on)
  | GetLcidFromRb id srb rb => '(_, s) ← nr_rlc_get_lcid_from_rb s id srb rb; Done ([], s)
  end.

(** The UEs an operation is about. *)
Definition op_ues (o : rlc_op) : list Z :=
  match o with
  | MacDataInd id _ _ _ _ _ | MacDataReq id _ _ _ _ | MacStatusInd id _ | BufferOccupancy id _ _ _ _
  | SrbRecvSdu id _ _ _ _ | TxSpace id _ | ReleaseEntity id _ | ReestablishEntity id _
  | ReconfigureEntity id _ _ | AddSrb id _ _ | AddDrb id _ _ | ActivateSrb0 id | RemoveUe id
  | TriggerReestablishment id | AvgTimeToTx id _ _ | GetLcidFromRb id _ _ => [id]
  | RlcTick _ _ => []
  | RlcDataReq ctxt _ _ _ _ _ _ | ConfigReq ctxt _ _ _ _ => [s32 (rntiMaybeUEid ctxt)]
  | UpdateId a b => [a; b]
  end.

(** What RRC guarantees: the identities of the bearers are in the ranges of their
    ASN.1 types, and a UE does not take the identity of another one. *)
Definition rlc_op_ok (s : rlc_state) (o : rlc_op) : Prop :=
  match o with
  | AddSrb _ _ c =>
      match servedRadioBearer c with Some (PR_srb_Identity i) => 1 <= i <= 3 | _ => True end
  | AddDrb _ _ c =>
      match servedRadioBearer c with Some (PR_drb_Identity i) => 1 <= i <= MAX_DRBS_PER_UE | _ => True end
  | UpdateId a b => b ∉ ids (r_ues s)
  | _ => True
  end.

(** *** Each call keeps the context of its UE *)

Lemma finish_keeps s ue r e e0 outs ue' :
  ue_ok ue -> mode_ok r e0 /\ quiet e0 -> mode e = mode e0 -> finish_rb s ue r e = Done (outs, ue') ->
  ue_ok ue' /\ ue_id ue' = ue_id ue.
Proof. intros O [M _] Em E. destruct (finish_rb_ok _ _ _ _ _ _ _ O M Em E) as [? [? _]]. done. Qed.

Lemma data_ind_keeps s c b n : keeps_ue (fun ue =>
    x ← get_rlc_entity_from_lcid ue c;
    match x with
    | Some (r, e) => e ← set_time e (r_time s); e ← recv_pdu e b n; finish_rb s ue r e
    | None => Done ([], ue)
    end).
Proof.
  intros ue r ue' O E. apply outcome_bind_done in E as ([[q e]|] & H & E); [|by injection E as <- <-].
  apply outcome_bind_done in E as (e1 & H1 & E). apply outcome_bind_done in E as (e2 & H2 & E).
  eapply finish_keeps; [done|by eapply from_lcid_ok| |exact E].
  rewrite (recv_pdu_mode _ _ _ _ H2). by apply set_time_mode in H1.
Qed.

Lemma data_req_keeps s c n b now : keeps_ue (fun ue =>
    x ← get_rlc_entity_from_lcid ue c;
    match x with
    | Some (r, e) =>
        e ← set_time e (r_time s);
        '(ret, e, buffer) ← generate_pdu e b n now;
        '(outs, ue) ← finish_rb s ue r e;
        Done (ret, buffer, outs, ue)
    | None => Done (0, b, [], ue)
    end).
Proof.
  intros ue r ue' O E. apply outcome_bind_done in E as ([[q e]|] & H & E); [|by injection E as <- <-].
  apply outcome_bind_done in E as (e1 & H1 & E).
  apply outcome_bind_done in E as ([[k e2] b2] & H2 & E).
  apply outcome_bind_done in E as ([outs ue2] & H3 & E). injection E as <- <-.
  eapply finish_keeps; [done|by eapply from_lcid_ok| |exact H3].
  rewrite (generate_pdu_mode _ _ _ _ _ _ _ H2). by apply set_time_mode in H1.
Qed.

Lemma status_keeps s c : keeps_ue (fun ue => bytes_in_buffer s ue c).
Proof.
  intros ue r ue' O E. unfold bytes_in_buffer in E.
  apply outcome_bind_done in E as ([[q e]|] & H & E); [|by injection E as <- <-].
  apply outcome_bind_done in E as (e1 & H1 & E). apply outcome_bind_done in E as (b & H2 & E).
  apply outcome_bind_done in E as ([outs ue2] & H3 & E). injection E as <- <-.
  eapply finish_keeps; [done|by eapply from_lcid_ok| |exact H3]. by apply set_time_mode in H1.
Qed.

Lemma rlc_data_req_keeps s f b n sdu mui now : keeps_ue (fun ue =>
    x ← get_rlc_entity_from_rb ue f b;
    match x with
    | Some (r, e) => e ← set_time e (r_time s); e ← recv_sdu e sdu n mui now; finish_rb s ue r e
    | None => Done ([], ue)
    end).
Proof.
  intros ue r ue' O E. apply outcome_bind_done in E as ([[q e]|] & H & E); [|by injection E as <- <-].
  apply outcome_bind_done in E as (e1 & H1 & E). apply outcome_bind_done in E as (e2 & H2 & E).
  eapply finish_keeps; [done|by eapply from_rb_ok| |exact E].
  rewrite (recv_sdu_mode _ _ _ _ _ _ H2). by apply set_time_mode in H1.
Qed.

Lemma srb_recv_sdu_keeps s q b n now : keeps_ue (fun ue =>
    x ← get_rb ue q;
    match x with
    | Some e => e ← set_time e (r_time s); e ← recv_sdu e b n (-1) now; finish_rb s ue q e
    | None => Exit
    end).
Proof.
  intros ue r ue' O E. apply outcome_bind_done in E as ([e|] & H & E); [|done].
  apply outcome_bind_done in E as (e1 & H1 & E). apply outcome_bind_done in E as (e2 & H2 & E).
  eapply finish_keeps; [done|exact (get_rb_ok _ _ _ O H)| |exact E].
  rewrite (recv_sdu_mode _ _ _ _ _ _ H2). by apply set_time_mode in H1.
Qed.

(** An update of the entity of a bearer that keeps its mode and adds no event. *)
Lemma update_keeps (g : nr_rlc_entity_t -> outcome nr_rlc_entity_t)
    (find : nr_rlc_ue_t -> outcome (option (rb_ref * nr_rlc_entity_t))) none :
  (forall r e e', g e = Done e' -> bearer_ok r (Some e) -> bearer_ok r (Some e')) ->
  (forall ue r e, ue_ok ue -> find ue = Done (Some (r, e)) -> bearer_ok r (Some e)) ->
  keeps_ue none ->
  keeps_ue (fun ue =>
    x ← find ue;
    match x with
    | Some (r, e) => e ← g e; ue ← set_rb ue r (Some e); Done (tt, ue)
    | None => none ue
    end).
Proof.
  intros Hg Hf Hn ue r ue' O E. apply outcome_bind_done in E as ([[q e]|] & H & E); [|by eapply Hn].
  apply outcome_bind_done in E as (e1 & H1 & E). apply outcome_bind_done in E as (ue1 & H2 & E).
  injection E as <- <-. destruct (set_rb_ok ue q (Some e1) ue1 O) as [? [? _]]; [by eauto|done|done].
Qed.

Lemma tt_keeps : keeps_ue (fun ue => Done (tt, ue)).
Proof. intros ue r ue' O E. by injection E as <- <-. Qed.
Lemma undef_keeps {R} : keeps_ue (fun ue => Undef : outcome (R * nr_rlc_ue_t)).
Proof. by intros ue r ue' O E. Qed.

Lemma srb1_keeps (none : nr_rlc_ue_t -> outcome (unit * nr_rlc_ue_t)) : keeps_ue none ->
  keeps_ue (fun ue =>
    x ← get_rb ue (RSrb 0);
    match x with
    | Some e => e ← reestablishment e; ue ← set_rb ue (RSrb 0) (Some e); Done (tt, ue)
    | None => none ue
    end).
Proof.
  intros Hn ue r ue' O E. apply outcome_bind_done in E as ([e|] & H & E); [|by eapply Hn].
  apply outcome_bind_done in E as (e1 & H1 & E). apply outcome_bind_done in E as (ue1 & H2 & E).
  injection E as <- <-. destruct (set_rb_ok ue (RSrb 0) (Some e1) ue1 O) as [? [? _]]; [|done|done].
  eapply reestablishment_ok; [done|]. exact (get_rb_ok _ _ _ O H).
Qed.

Lemma add_srb_keeps c i p :
  (match servedRadioBearer c with Some (PR_srb_Identity j) => 1 <= j <= 3 | _ => True end) -> 0 < i ->
  keeps_ue (fun ue =>
      match servedRadioBearer c with
      | Some (PR_srb_Identity sid) =>
          ue ← map_lcid ue c (mk_rb NR_RLC_SRB sid);
          x ← get_rb ue (RSrb (i - 1));
          match x with
          | Some _ => Done (tt, ue)
          | None => e ← new_am p; ue ← nr_rlc_ue_add_srb_rlc_entity ue i e; Done (tt, ue)
          end
      | _ => Exit
      end).
Proof.
  intros Hc Hi ue r ue' O E. destruct (servedRadioBearer c) as [[j|j|]|]; try done.
  apply outcome_bind_done in E as (ue1 & H & E). destruct (map_lcid_ok _ _ (mk_rb NR_RLC_SRB j) _ O Hc H) as [O1 K1].
  apply outcome_bind_done in E as ([x|] & H1 & E); [by injection E as <- <-|].
  apply outcome_bind_done in E as (e & H2 & E). apply outcome_bind_done in E as (ue2 & H3 & E).
  injection E as <- <-. destruct (new_am_ok _ _ H2) as [M Q].
  assert (M' : mode_ok (if i =? 0 then RSrb0 else RSrb 0) e) by (destruct (i =? 0) eqn:?; [zbool; lia|exact M]).
  destruct (add_srb_entity_ok _ _ _ _ O1 M' Q H3) as [O2 [K2 _]].
  split; [done|congruence].
Qed.

Lemma add_drb_keeps c i new :
  (match servedRadioBearer c with Some (PR_drb_Identity j) => 1 <= j <= MAX_DRBS_PER_UE | _ => True end) ->
  (forall e, new = Done e -> mode e <> NR_RLC_TM /\ quiet e) ->
  keeps_ue (fun ue =>
    match servedRadioBearer c with
    | Some (PR_drb_Identity did) =>
        ue ← map_lcid ue c (mk_rb NR_RLC_DRB did);
        x ← get_rb ue (RDrb (i - 1));
        match x with
        | Some _ => Done (tt, ue)
        | None => e ← new; ue ← nr_rlc_ue_add_drb_rlc_entity ue i e; Done (tt, ue)
        end
    | _ => Exit
    end).
Proof.
  intros Hc Hn ue r ue' O E. destruct (servedRadioBearer c) as [[j|j|]|]; try done.
  apply outcome_bind_done in E as (ue1 & H & E). destruct (map_lcid_ok _ _ (mk_rb NR_RLC_DRB j) _ O Hc H) as [O1 K1].
  apply outcome_bind_done in E as ([x|] & H1 & E); [by injection E as <- <-|].
  apply outcome_bind_done in E as (e & H2 & E). apply outcome_bind_done in E as (ue2 & H3 & E).
  injection E as <- <-. destruct (Hn _ H2) as [M Q].
  destruct (add_drb_entity_ok _ _ _ _ O1 M Q H3) as [O2 [K2 _]]. split; [done|congruence].
Qed.

(** *** Every call keeps the layer well formed *)

Lemma no_out_inv x outs s : no_out x = Done (outs, s) -> x = Done s.
Proof. unfold no_out. intros E. invd E. by injection E as <- <-. Qed.

Lemma advance_ok s f sf : rlc_ok s -> rlc_ok (advance_time s f sf) /\
  r_ues (advance_time s f sf) = r_ues s.
Proof. intros [L N F]. unfold advance_time. by cif. Qed.

Lemma remove_ue_rlc l id l' : nr_rlc_manager_remove_ue l id = Done l' -> l' = manager_remove_ue l id.
Proof.
  unfold nr_rlc_manager_remove_ue. destruct (find_ue l id) as [i|] eqn:E.
  - destruct (l !! i) as [ue|]; [|done]. intros H. invd H. invd H. invd H. by injection H as <-.
  - intros [= <-]. unfold manager_remove_ue. by rewrite E.
Qed.

Lemma update_id_ok s a b s' :
  rlc_ok s -> b ∉ ids (r_ues s) -> nr_rlc_update_id s a b = Done s' ->
  rlc_ok s' /\ others_same [a; b] s s'.
Proof.
  intros [L N F] Hb E. unfold nr_rlc_update_id in E. apply outcome_bind_done in E as ([x s1] & H & E).
  injection E as ->. apply ue_call_inv in H as (_ & l & H & ->).
  assert (Hg : forall ue x ue', (let ue := ue <| ue_id := b |> in
      x ← get_rb ue (RSrb 0);
      match x with
      | Some e => e ← reestablishment e; ue ← set_rb ue (RSrb 0) (Some e); Done (tt, ue)
      | None => Done (tt, ue)
      end) = Done (x, ue') -> ue_ok ue -> ue_ok ue' /\ ue_id ue' = b).
  { intros ue y ue' E O. pose proof (srb1_keeps _ tt_keeps (ue <| ue_id := b |>) y ue') as K.
    destruct K as [O' K']; [by destruct O|exact E|]. by rewrite K'. }
  assert (Ov : ue_ok (ue_view (r_ues s) a)).
  { unfold ue_view. destruct (find_ue (r_ues s) a) as [i|] eqn:Ei; [|apply calloc_ue_ok].
    destruct (find_ue_some _ _ _ Ei) as (v & Ev & _). simpl. rewrite Ev. simpl.
    eapply Forall_lookup_1; [exact F|exact Ev]. }
  destruct (with_ue_rekey _ _ b _ _ _ H) as [N' V']; [|done|done|].
  { intros u Eu. exact (proj2 (Hg _ _ _ Eu Ov)). }
  split; [|done]. split; simpl; [done|done|]. eapply with_ue_forall; [exact F|apply calloc_ue_ok| |exact H].
  intros u y u' Pu Eu. exact (proj1 (Hg _ _ _ Eu Pu)).
Qed.

Lemma config_req_ok s ctxt f m r b s' :
  rlc_ok s -> rrc_rlc_config_req s ctxt f m r b = Done s' ->
  rlc_ok s' /\ others_same [s32 (rntiMaybeUEid ctxt)] s s'.
Proof.
  intros O E. unfold rrc_rlc_config_req in E. revert E. do 2 (cif; [done|]). unfold locked_call.
  rewrite (ro_lock _ O). intros E1. set (id := s32 _) in *. cbv zeta in E1.
  apply outcome_bind_done in E1 as ([empty l] & H & E1).
  assert (K : keeps_ue (fun ue => ue ← release_rb ue (if f then RSrb (b - 1) else RDrb (b - 1));
      Done (no_rb_left ue, ue))).
  { intros ue x ue' Ou Eu. apply outcome_bind_done in Eu as (ue1 & H1 & Eu). injection Eu as <- <-.
    by destruct (release_rb_ok _ _ _ Ou H1) as [? [? _]]. }
  assert (C : ue_call s id (fun ue => ue ← release_rb ue (if f then RSrb (b - 1) else RDrb (b - 1));
      Done (no_rb_left ue, ue)) = Done (empty, s <| r_ues := l |>)).
  { unfold ue_call, locked_call. rewrite (ro_lock _ O). cbn [r_ues upd] in *. rewrite H. cbn [mbind outcome_bind].
    do 2 f_equal. destruct O as [L _ _]. destruct s; simpl in *. by rewrite L. }
  destruct (ue_call_ok _ _ _ _ _ K O C) as [[L' N' F'] V].
  apply outcome_bind_done in E1 as (l2 & H2 & E1). injection E1 as <-. simpl in *. destruct empty.
  - apply remove_ue_rlc in H2 as ->. destruct (remove_ue_ok l id N') as [N2 _]. split.
    + split; simpl; [done|done|by apply remove_ue_forall].
    + intros id' Hid. simpl. rewrite remove_ue_view by (by rewrite list_elem_of_singleton in Hid).
      by apply V.
  - injection H2 as <-. by split.
Qed.

(** The one call that returns with the lock held. *)
Definition is_lookup (o : rlc_op) : bool := match o with GetLcidFromRb _ _ _ => true | _ => false end.

Lemma rlc_do_ok s o outs s' :
  rlc_ok s -> rlc_op_ok s o -> is_lookup o = false -> rlc_do s o = Done (outs, s') ->
  rlc_ok s' /\ others_same (op_ues o) s s'.
Proof.
  intros O Ho Hl E. destruct o; simpl in Ho; cbn [rlc_do op_ues] in E |- *;
    try (apply no_out_inv in E).
  - revert E. unfold mac_rlc_data_ind. cif; [done|]. apply ue_call_ok; [apply data_ind_keeps|done].
  - apply outcome_bind_done in E as ([[[k b] os] s1] & H & E). injection E as <- <-.
    unfold mac_rlc_data_req in H. apply outcome_bind_done in H as ([[[k1 b1] os1] s2] & H & E).
    injection E as <- <- <- <-. eapply ue_call_ok; [apply data_req_keeps|done|exact H].
  - apply outcome_bind_done in E as ([[k os] s1] & H & E). injection E as <- <-.
    eapply ue_call_ok; [apply status_keeps|done|exact H].
  - apply outcome_bind_done in E as ([[k os] s1] & H & E). injection E as <- <-.
    revert H. unfold mac_rlc_get_buffer_occupancy_ind. destruct enb; [done|]. intros H.
    destruct (advance_ok s frame subframe O) as [O1 E1].
    destruct (ue_call_ok _ _ _ _ _ (status_keeps _ channel) O1 H) as [O2 V]. split; [done|].
    intros i Hi. rewrite V by done. by rewrite E1.
  - injection E as <- <-. destruct (advance_ok s frame subframe O) as [O1 E1]. split; [exact O1|].
    intros i _. unfold nr_rlc_tick. by rewrite E1.
  - revert E. apply ue_call_ok; [apply rlc_data_req_keeps|done].
  - revert E. unfold nr_rlc_srb_recv_sdu. apply ue_call_ok; [|done].
    apply (srb_recv_sdu_keeps s (if channel =? 0 then RSrb0 else RSrb (channel - 1))).
  - apply outcome_bind_done in E as ([k s1] & H & E). injection E as <- <-.
    eapply ue_call_ok; [|done|exact H]. intros ue x ue' Ou Eu.
    apply outcome_bind_done in Eu as (y & H1 & Eu). by injection Eu as <- <-.
  - revert E. apply unit_call_ok; [|done]. intros ue x ue' Ou Eu.
    apply outcome_bind_done in Eu as (ue1 & H1 & Eu). injection Eu as <- <-. revert H1.
    cif; intros H1; [destruct (release_rb_ok _ _ _ Ou H1) as [? [? _]]; done|].
    destruct (release_lcid_ok _ _ _ Ou H1) as [? [? _]]; done.
  - revert E. apply unit_call_ok; [|done].
    apply (update_keeps reestablishment (fun ue => get_rlc_entity_from_lcid ue channel)).
    + apply reestablishment_ok.
    + intros ue r e Ou H. by apply (from_lcid_ok ue channel r e).
    + apply tt_keeps.
  - revert E. apply unit_call_ok; [|done].
    apply (update_keeps (fun e => reconfigure_rb e c) (fun ue => get_rlc_entity_from_lcid ue channel)).
    + intros r e e'. apply reconfigure_rb_ok.
    + intros ue r e Ou H. by apply (from_lcid_ok ue channel r e).
    + apply undef_keeps.
  - revert E. unfold nr_rlc_add_srb. cif; [done|]. zbool. intros E1. apply outcome_bind_done in E1 as (p & _ & E1).
    revert E1. apply unit_call_ok; [|done]. apply add_srb_keeps; [done|lia].
  - revert E. unfold nr_rlc_add_drb. intros E1. apply outcome_bind_done in E1 as (r & _ & E1).
    destruct r as [am|um|]; [| |done]; revert E1; unfold add_drb_am, add_drb_um; cif; try done; intros E2.
    + apply outcome_bind_done in E2 as (p & _ & E2). revert E2. apply unit_call_ok; [|done].
      apply add_drb_keeps; [done|]. intros e He. apply new_am_ok in He as [-> ?]. done.
    + apply outcome_bind_done in E2 as ([t n] & _ & E2). revert E2. apply unit_call_ok; [|done].
      apply add_drb_keeps; [done|]. intros e He. apply new_um_ok in He as [-> ?]. done.
  - revert E. apply unit_call_ok; [|done]. intros ue x ue' Ou Eu. destruct (srb0 ue); [by injection Eu as <- <-|].
    apply outcome_bind_done in Eu as (ue1 & H1 & Eu). injection Eu as <- <-.
    destruct (add_srb_entity_ok (ue <| srb0_data := id |>) 0 (TM (new_nr_rlc_entity_tm 10000)) ue1) as [? [? _]];
      try done. by destruct Ou.
  - by apply config_req_ok in E.
  - revert E. unfold nr_rlc_remove_ue, locked_call. rewrite (ro_lock _ O). intros E.
    apply outcome_bind_done in E as (l & H & E). injection E as <-. apply remove_ue_rlc in H as ->. simpl.
    destruct O as [L N F]. destruct (remove_ue_ok (r_ues s) id N) as [N2 _]. split.
    + split; simpl; [done|done|by apply remove_ue_forall].
    + intros i Hi. simpl. apply remove_ue_view. by rewrite list_elem_of_singleton in Hi.
  - by apply (update_id_ok s from_id to_id).
  - revert E. apply unit_call_ok; [|done]. apply srb1_keeps, undef_keeps.
  - revert E. apply unit_call_ok; [|done]. intros ue x ue' Ou Eu. cbv zeta in Eu.
    match type of Eu with match ?y with _ => _ end = _ => destruct y as [r|] end; [|by injection Eu as <- <-].
    apply outcome_bind_done in Eu as ([e|] & H1 & Eu); [|by injection Eu as <- <-].
    apply outcome_bind_done in Eu as (ue1 & H2 & Eu). injection Eu as <- <-.
    destruct (set_rb_ok ue r (Some (set_avg_time_is_on e is_on)) ue1 Ou) as [? [? _]]; try done.
    pose proof (get_rb_ok _ _ _ Ou H1) as B. by destruct e.
  - done.
Qed.

(** What the contexts keep, whoever holds the lock. *)
Definition contexts_ok (s : rlc_state) : Prop := ids_ok (r_ues s) /\ Forall ue_ok (r_ues s).

(** The lookup is a call that does not unlock. *)
Lemma lcid_lookup_ok s id is_srb rb_id lcid s' :
  rlc_ok s -> nr_rlc_get_lcid_from_rb s id is_srb rb_id = Done (lcid, s') ->
  contexts_ok s' /\ r_locked s' = true /\ others_same [id] s s'.
Proof.
  intros O E. assert (C : ue_call s id (fun ue => Done (lcid_loop (lcid2rb ue) 1 is_srb rb_id, ue)) = Done (lcid, unlock s') /\
    r_locked s' = true).
  { revert E. unfold nr_rlc_get_lcid_from_rb, ue_call, locked_call. rewrite (ro_lock _ O). intros E.
    apply outcome_bind_done in E as ([x l] & H & E). rewrite H. by injection E as <- <-. }
  destruct C as [C L]. eapply ue_call_ok in C as [[_ N F] V]; [done| |done].
  intros ue x ue' Ou Eu. by injection Eu as <- <-.
Qed.

(** While the lock is held, a call about a UE waits for ever: only the tick returns. *)
Lemma locked_only_ticks s o outs s2 : r_locked s = true -> rlc_do s o = Done (outs, s2) -> exists f sf, o = RlcTick f sf.
Proof.
  intros L E. assert (Lk : forall R (f : rlc_state -> outcome R), locked_call s f = Undef) by (intros; unfold locked_call; by rewrite L).
  assert (Lc : forall R (i : Z) (f : nr_rlc_ue_t -> outcome (R * nr_rlc_ue_t)), ue_call s i f = Undef) by (intros; apply Lk).
  destruct o; cbn [rlc_do] in E; try (by eauto); exfalso; revert E;
    unfold no_out, mac_rlc_data_ind, mac_rlc_data_req, mac_rlc_status_ind, mac_rlc_get_buffer_occupancy_ind,
      rlc_data_req, nr_rlc_srb_recv_sdu, nr_rlc_get_available_tx_space, nr_rlc_release_entity,
      nr_rlc_reestablish_entity, nr_rlc_reconfigure_entity, nr_rlc_add_srb, nr_rlc_activate_srb0,
      nr_rlc_update_id, nr_rlc_test_trigger_reestablishment, nr_rlc_activate_avg_time_to_tx, rrc_rlc_config_req,
      nr_rlc_remove_ue, nr_rlc_get_lcid_from_rb; rewrite ?Lc, ?Lk; try done.
  - by cif.
  - destruct enb; [done|]. unfold ue_call, locked_call. unfold advance_time. cif; cbn [r_locked upd]; by rewrite L.
  - cif; [done|]. destruct (match rlc_Config c with Some (PR_am am) => decode_am am | _ => Done am_default end); cbn [mbind outcome_bind]; by rewrite ?Lc.
  - unfold nr_rlc_add_drb. destruct (rlc_Config c) as [r|]; [|done]. cbn [deref mbind outcome_bind].
    destruct r; [unfold add_drb_am|unfold add_drb_um|done]; (cif; [done|]).
    + destruct (decode_am am); unfold add_drb_entity; cbn [mbind outcome_bind]; by rewrite ?Lc.
    + destruct (decode_um um) as [[]| |]; unfold add_drb_entity; cbn [mbind outcome_bind]; by rewrite ?Lc.
  - by do 2 (cif; [done|]; rewrite ?Lk).
Qed.

(** The states that calls lead to. *)
Inductive rlc_reach (enb : bool) (node : node_t) : bool -> rlc_state -> Prop :=
| reach_new : rlc_reach enb node false (new_nr_rlc_ue_manager enb node)
| reach_call looked s o outs s' :
    rlc_reach enb node looked s -> rlc_op_ok s o -> rlc_do s o = Done (outs, s') ->
    rlc_reach enb node (looked || is_lookup o) s'.

Lemma call_step looked s o outs s' :
  contexts_ok s -> r_locked s = looked -> rlc_op_ok s o -> rlc_do s o = Done (outs, s') ->
  contexts_ok s' /\ r_locked s' = looked || is_lookup o /\ others_same (op_ues o) s s'.
Proof.
  intros [N F] L Ho E. destruct looked.
  - destruct (locked_only_ticks s o outs s' L E) as (f & sf & ->). cbn [rlc_do] in E. injection E as <- <-.
    unfold nr_rlc_tick, advance_time. by cif.
  - assert (O : rlc_ok s) by done. destruct (is_lookup o) eqn:El.
    + destruct o; try done. cbn [rlc_do] in E. apply outcome_bind_done in E as ([lcid s1] & H & E). injection E as <- <-.
      by destruct (lcid_lookup_ok s id is_srb rb_id lcid s1 O H) as (? & ? & ?).
    + destruct (rlc_do_ok s o outs s' O Ho El E) as [[L' N' F'] V]. by rewrite L'.
Qed.

Lemma reach_ok enb node looked s : rlc_reach enb node looked s -> contexts_ok s /\ r_locked s = looked.
Proof.
  induction 1 as [|looked s o outs s' _ [IH L] Ho E]; [split; [split; [apply NoDup_nil_2|constructor]|done]|].
  by destruct (call_step looked s o outs s' IH L Ho E) as (? & ? & _).
Qed.

(** C24. The contexts of the RLC layer stay well formed.  Whatever MAC, PDCP and RRC
    call, as long as the calls return: no two contexts have the same UE identity,
    every context has its 3 SRBs, 32 DRBs and 32 logical channels, SRB 0 is in
    transparent mode, the other SRBs in acknowledged mode, the DRBs in
    acknowledged or unacknowledged mode, a logical channel names a bearer that
    exists; and a call changes the contexts of the UEs it is about, and of no
    other.  The lock is free between calls until [nr_rlc_get_lcid_from_rb] is
    called, which returns with the lock held; from then on it is held, and no
    call but the tick of the clock returns. *)
Theorem rlc_contexts_ok (enb : bool) (node : node_t) (looked : bool) (s : rlc_state) (o : rlc_op) (outs : list rlc_out)
    (s' : rlc_state) :
  rlc_reach enb node looked s -> rlc_op_ok s o -> rlc_do s o = Done (outs, s') ->
  contexts_ok s /\ contexts_ok s' /\ r_locked s = looked /\ r_locked s' = looked || is_lookup o /\
  (looked = true -> exists frame subframe, o = RlcTick frame subframe) /\
  forall id, id ∉ op_ues o -> ue_view (r_ues s') id = ue_view (r_ues s) id.
Proof.
  intros R Ho E. destruct (reach_ok _ _ _ _ R) as [O L]. destruct (call_step looked s o outs s' O L Ho E) as (O' & L' & V).
  split_and!; try done. intros ->. by apply (locked_only_ticks s o outs s').
Qed.

Definition demo_am : rlc_config_am := mk_config_am 8 10 (Some 1) 5 3 43 7 (Some 1).
Definition demo_um : rlc_config_um := mk_config_um 8 (Some 1) (Some 1).
Definition demo_srb1 : NR_RLC_BearerConfig_t := mk_bearer_config 1 (Some (PR_srb_Identity 1)) (Some (PR_am demo_am)).
Definition demo_drb (d : Z) : NR_RLC_BearerConfig_t :=
  mk_bearer_config (3 + d) (Some (PR_drb_Identity d)) (Some (PR_um_Bi_Directional demo_um)).

Definition rlc_after (os : list rlc_op) : outcome rlc_state :=
  foldl (fun x o => s ← x; '(_, s) ← rlc_do s o; Done s) (Done (new_nr_rlc_ue_manager false UeNode)) os.
Definition state_or_new (x : outcome rlc_state) : rlc_state :=
  match x with Done s => s | _ => new_nr_rlc_ue_manager false UeNode end.

Definition demo_rlc : rlc_state :=
  Eval vm_compute in state_or_new (rlc_after [AddSrb 7 1 demo_srb1; AddDrb 7 1 (demo_drb 1)]).

Definition demo_rlc1 : rlc_state :=
  Eval vm_compute in state_or_new (rlc_after [AddSrb 7 1 demo_srb1]).

Lemma demo_rlc_reach : rlc_reach false UeNode false demo_rlc.
Proof.
  apply (reach_call _ _ false demo_rlc1 (AddDrb 7 1 (demo_drb 1)) []);
    [|simpl; unfold MAX_DRBS_PER_UE; lia|vm_compute; reflexivity].
  apply (reach_call _ _ false (new_nr_rlc_ue_manager false UeNode) (AddSrb 7 1 demo_srb1) []);
    [apply reach_new|simpl; lia|vm_compute; reflexivity].
Qed.

Definition demo_req : rlc_op := RlcDataReq (ctxt_init false 7) false 1 0 3 [1; 2; 3] 0.
Definition demo_rlc2 : rlc_state :=
  Eval vm_compute in match rlc_do demo_rlc demo_req with Done (_, s) => s | _ => demo_rlc end.

Lemma rlc_contexts_ok_witness :
  contexts_ok demo_rlc /\ contexts_ok demo_rlc2 /\ r_locked demo_rlc = false /\ r_locked demo_rlc2 = false /\
  forall id, id ∉ op_ues demo_req -> ue_view (r_ues demo_rlc2) id = ue_view (r_ues demo_rlc) id.
Proof.
  destruct (rlc_contexts_ok false UeNode false demo_rlc demo_req [] demo_rlc2) as (O & O' & L & L' & _ & V).
  - exact demo_rlc_reach.
  - exact I.
  - vm_compute. reflexivity.
  - split; [exact O|]. split; [exact O'|]. split; [exact L|]. split; [exact L'|exact V].
Defined.

(** ** A bearer is found under its logical channel and under its identity *)

Lemma call_with_view {R} s id (f : nr_rlc_ue_t -> outcome (R * nr_rlc_ue_t)) r u :
  r_locked s = false -> f (ue_view (r_ues s) id) = Done (r, u) -> ue_id u = id ->
  exists s', ue_call s id f = Done (r, s') /\ ue_view (r_ues s') id = u /\
    r_enb s' = r_enb s /\ r_node s' = r_node s /\ r_du2cu s' = r_du2cu s /\ r_locked s' = false.
Proof.
  intros L E K. unfold ue_call, locked_call. rewrite L.
  destruct (with_ue_done (r_ues s) id f _ _ E) as [l W]. cbn [r_ues upd]. rewrite W. cbn [mbind outcome_bind]. eexists. split; [reflexivity|].
  split; [|done]. simpl. destruct (with_ue_inv _ _ _ _ _ W) as (v & Ev & Hv).
  rewrite E in Ev. injection Ev as <-. by apply Hv.
Qed.

(** The entity that a configuration asks for. *)
Definition new_of (r : NR_RLC_Config) : outcome nr_rlc_entity_t :=
  match r with
  | PR_am am => p ← decode_am am; new_am p
  | PR_um_Bi_Directional um => '(t, n) ← decode_um um; new_um t n
  | PR_other => Exit
  end.

Lemma drb_set_up (s : rlc_state) (id d : Z) (c : NR_RLC_BearerConfig_t) (r : NR_RLC_Config)
    (e : nr_rlc_entity_t) :
  rlc_ok s -> rlc_Config c = Some r -> new_of r = Done e ->
  1 <= d <= MAX_DRBS_PER_UE -> servedRadioBearer c = Some (PR_drb_Identity d) ->
  1 <= logicalChannelIdentity c <= 32 ->
  get_rb (ue_view (r_ues s) id) (RDrb (d - 1)) = Done None ->
  exists s', nr_rlc_add_drb s id d c = Done s' /\
    r_enb s' = r_enb s /\ r_node s' = r_node s /\ r_du2cu s' = r_du2cu s /\ r_locked s' = false /\
    let ue := ue_view (r_ues s') id in
    ue_id ue = id /\
    get_rlc_entity_from_lcid ue (logicalChannelIdentity c) = Done (Some (RDrb (d - 1), e)) /\
    get_rlc_entity_from_rb ue false d = Done (Some (RDrb (d - 1), e)) /\
    (forall lc, 1 <= lc <= 32 -> lc <> logicalChannelIdentity c ->
       lcid2rb ue !! Z.to_nat (lc - 1) = lcid2rb (ue_view (r_ues s) id) !! Z.to_nat (lc - 1)).
Proof.
  intros [L N F] Ec En Hd Es Hl Hn. set (ue0 := ue_view (r_ues s) id) in *.
  assert (O : ue_ok ue0).
  { unfold ue0, ue_view. destruct (find_ue (r_ues s) id) as [i|] eqn:Ei; [|apply calloc_ue_ok].
    destruct (find_ue_some _ _ _ Ei) as (v & Ev & _). simpl. rewrite Ev. simpl.
    eapply Forall_lookup_1; [exact F|exact Ev]. }
  assert (K0 : ue_id ue0 = id).
  { destruct (manager_get_ue (r_ues s) id) as [i l1] eqn:Em. by destruct (get_ue_ok _ _ _ _ Em) as (_ & ? & _). }
  destruct O as [_ _ _ L2 _ L3 _]. unfold MAX_DRBS_PER_UE in *.
  set (rb := mk_rb NR_RLC_DRB d). set (lc := logicalChannelIdentity c) in *.
  set (ue1 := ue0 <| lcid2rb ::= <[Z.to_nat (lc - 1) := rb]> |> <| drb ::= <[Z.to_nat (d - 1) := Some e]> |>).
  assert (Hf : (match servedRadioBearer c with
      | Some (PR_drb_Identity did) =>
          ue ← map_lcid ue0 c (mk_rb NR_RLC_DRB did);
          x ← get_rb ue (RDrb (d - 1));
          match x with
          | Some _ => Done (tt, ue)
          | None => e ← Done e; ue ← nr_rlc_ue_add_drb_rlc_entity ue d e; Done (tt, ue)
          end
      | _ => Exit
      end) = Done (tt, ue1)).
  { rewrite Es. unfold map_lcid. fold lc. rewrite wr_done by lia. cbn [mbind outcome_bind get_rb drb upd].
    simpl in Hn. rewrite Hn. cbn [mbind outcome_bind]. unfold nr_rlc_ue_add_drb_rlc_entity.
    cif; [unfold MAX_DRBS_PER_UE in *; zbool; destruct E; zbool; lia|].
    cbn [get_rb drb upd]. simpl. rewrite Hn. cbn [mbind outcome_bind]. rewrite wr_done by lia. done. }
  set (same := fun s' => r_enb s' = r_enb s /\ r_node s' = r_node s /\ r_du2cu s' = r_du2cu s /\ r_locked s' = false).
  assert (Hadd : forall new, new = Done e -> exists s', add_drb_entity s id d c new = Done s' /\
      ue_view (r_ues s') id = ue1 /\ same s').
  { intros new ->. unfold add_drb_entity.
    match goal with |- context [ue_call s id ?f] =>
      destruct (call_with_view s id f tt ue1 L Hf) as (s' & -> & V & B); [done|] end. by exists s'. }
  assert (Hcall : exists s', nr_rlc_add_drb s id d c = Done s' /\ ue_view (r_ues s') id = ue1 /\ same s').
  { unfold nr_rlc_add_drb. rewrite Ec. cbn [deref mbind outcome_bind].
    destruct r as [am|um|]; [| |done]; unfold add_drb_am, add_drb_um, new_of in *.
    all: cif; [exfalso; unfold MAX_DRBS_PER_UE in *; zbool; destruct E; zbool; lia|].
    all: apply outcome_bind_done in En as (p & Ep & En); try destruct p; rewrite Ep; by apply Hadd. }
  destruct Hcall as (s' & E & V & B). exists s'. split; [done|]. cbv zeta. rewrite V.
  destruct B as (B1 & B2 & B3 & B4). split_and!; try done.
  - unfold get_rlc_entity_from_lcid. rewrite (proj2 (Z.eqb_neq _ _)) by lia.
    rewrite (rd_done _ _ rb); [|lia|simpl; apply list_lookup_insert_eq; lia].
    cbn [mbind outcome_bind rb_type]. unfold at_rb. simpl.
    rewrite (rd_done _ _ (Some e)); [done|lia|apply list_lookup_insert_eq; lia].
  - unfold get_rlc_entity_from_rb.
    cif; [|exfalso; unfold MAX_DRBS_PER_UE in *; zbool; destruct E0; zbool; lia].
    unfold at_rb. simpl. rewrite (rd_done _ _ (Some e)); [done|lia|apply list_lookup_insert_eq; lia].
  - intros k Hk Hne. simpl. apply list_lookup_insert_ne. lia.
Qed.

(** A new DRB is reached from both sides.  After the set-up of a DRB in
    acknowledged or unacknowledged mode for a UE that has not got it, MAC finds
    the new entity under the logical channel of the configuration, PDCP finds
    the same one under the identity of the DRB, and what the entity delivers on a
    UE or on a monolithic gNB is indicated to PDCP for that DRB; all other
    logical channels keep their bearers. *)
Theorem rlc_drb_routes (s : rlc_state) (id d : Z) (c : NR_RLC_BearerConfig_t) (r : NR_RLC_Config)
    (e : nr_rlc_entity_t) :
  rlc_ok s -> rlc_Config c = Some r -> new_of r = Done e ->
  1 <= d <= MAX_DRBS_PER_UE -> servedRadioBearer c = Some (PR_drb_Identity d) ->
  1 <= logicalChannelIdentity c <= 32 ->
  get_rb (ue_view (r_ues s) id) (RDrb (d - 1)) = Done None ->
  exists s', nr_rlc_add_drb s id d c = Done s' /\
    let ue := ue_view (r_ues s') id in
    get_rlc_entity_from_lcid ue (logicalChannelIdentity c) = Done (Some (RDrb (d - 1), e)) /\
    get_rlc_entity_from_rb ue false d = Done (Some (RDrb (d - 1), e)) /\
    (forall buf, r_enb s = false ->
       deliver_sdu s' ue (RDrb (d - 1)) buf = Done (PdcpDataInd (ctxt_init false id) false d buf)) /\
    (forall lc, 1 <= lc <= 32 -> lc <> logicalChannelIdentity c ->
       lcid2rb ue !! Z.to_nat (lc - 1) = lcid2rb (ue_view (r_ues s) id) !! Z.to_nat (lc - 1)).
Proof.
  intros O Ec En Hd Es Hl Hn.
  destruct (drb_set_up s id d c r e O Ec En Hd Es Hl Hn) as (s' & E & B & _ & _ & _ & K & H1 & H2 & H3).
  exists s'. split; [done|]. cbv zeta. split_and!; try done. intros buf Hb. unfold deliver_sdu. simpl. rewrite B, Hb, K. simpl.
  do 2 f_equal. lia.
Qed.

Lemma rlc_drb_routes_witness : exists e s',
  nr_rlc_add_drb demo_rlc 7 2 (demo_drb 2) = Done s' /\
  let ue := ue_view (r_ues s') 7 in
  get_rlc_entity_from_lcid ue 5 = Done (Some (RDrb 1, e)) /\
  get_rlc_entity_from_rb ue false 2 = Done (Some (RDrb 1, e)) /\
  (forall buf, r_enb demo_rlc = false ->
     deliver_sdu s' ue (RDrb 1) buf = Done (PdcpDataInd (ctxt_init false 7) false 2 buf)) /\
  (forall lc, 1 <= lc <= 32 -> lc <> 5 ->
     lcid2rb ue !! Z.to_nat (lc - 1) = lcid2rb (ue_view (r_ues demo_rlc) 7) !! Z.to_nat (lc - 1)).
Proof.
  eexists. apply (rlc_drb_routes demo_rlc 7 2 (demo_drb 2) (PR_um_Bi_Directional demo_um)).
  - destruct (reach_ok _ _ _ _ demo_rlc_reach) as [[N F] L]. split; [exact L|exact N|exact F].
  - reflexivity.
  - vm_compute. reflexivity.
  - unfold MAX_DRBS_PER_UE. lia.
  - reflexivity.
  - simpl. lia.
  - vm_compute. reflexivity.
Defined.

(** ** The lock that is not released *)

(** The lookup of a logical channel blocks the RLC layer.
    [nr_rlc_get_lcid_from_rb] takes the lock of the manager and returns without
    releasing it: every later call about any UE waits for the lock for ever.  The
    UE makes such a call with the result of the lookup when it re-establishes
    its connection (rrc_UE.c, [nr_rlc_reestablish_entity]). *)
Theorem rlc_lcid_lookup_keeps_lock (s : rlc_state) (id : Z) (is_srb : bool) (rb_id : Z) :
  r_locked s = false ->
  exists lcid s', nr_rlc_get_lcid_from_rb s id is_srb rb_id = Done (lcid, s') /\
    lcid = lcid_loop (lcid2rb (ue_view (r_ues s) id)) 1 is_srb rb_id /\
    nr_rlc_reestablish_entity s' id lcid = Undef /\
    forall o outs s2, rlc_do s' o = Done (outs, s2) -> exists f sf, o = RlcTick f sf.
Proof.
  intros L. unfold nr_rlc_get_lcid_from_rb, locked_call. rewrite L.
  destruct (with_ue_done (r_ues s) id (fun ue => Done (lcid_loop (lcid2rb ue) 1 is_srb rb_id, ue)) _ _ eq_refl)
    as [l W]. cbn [r_ues upd]. rewrite W. cbn [mbind outcome_bind]. eexists _, _.
  split; [reflexivity|]. split; [done|]. split; [done|]. intros o outs s2. by apply locked_only_ticks.
Qed.

Lemma rlc_lcid_lookup_keeps_lock_witness :
  exists lcid s', nr_rlc_get_lcid_from_rb demo_rlc 7 true 1 = Done (lcid, s') /\ lcid = 1 /\
    nr_rlc_reestablish_entity s' 7 lcid = Undef /\
    forall o outs s2, rlc_do s' o = Done (outs, s2) -> exists f sf, o = RlcTick f sf.
Proof. apply (rlc_lcid_lookup_keeps_lock demo_rlc 7 true 1). reflexivity. Defined.

(** SRB 3 can be set up, but the callbacks that report the delivery of its SDUs do not look for it. *)
Lemma srb3_delivery_exits s ue i : callback s ue (RSrb 2) (SduSuccessfulDelivery i) = Exit.
Proof. done. Qed.
