(* ===== verification/PdcpApi.v ===== *)
(** The PDCP layer as its neighbours see it: the contexts of the UEs with their
    bearers (openair2/LAYER2/nr_pdcp/nr_pdcp_ue_manager.c), the functions that
    SDAP, RLC and RRC call (nr_pdcp_oai_api.c), the timer thread
    (nr_pdcp_timer_thread.c) and the decoding of the configuration
    (nr_pdcp/asn1_utils.c).

    The mutex of the manager is recursive: [p_depth] is how many times the
    calling thread holds it.  The callback [deliver_sdu] of an entity runs inside
    of the call that delivers, and goes up to SDAP or RRC; a call of SDAP back
    into PDCP only touches the transmitting side of an entity, which no
    delivery loop looks at, so that the SDUs a call delivers are handed up one by
    one once the entity has been updated. *)

From S2P Require Import Prelude PdcpSec Pdcp L2Common F1Ids ThreadQueue Sdap.

(** ** Configuration *)

Definition decode_t_reordering : Z -> outcome Z :=
  decode [0; 1; 2; 4; 5; 8; 10; 15; 20; 30; 40; 50; 60; 80; 100; 120; 140; 160;
          180; 200; 220; 240; 260; 280; 300; 500; 750; 1000; 1250; 1500; 1750; 2000; 2250; 2500; 2750; 3000].

Definition decode_sn_size_ul (s : Z) : outcome Z :=
  if s =? 0 then Done SHORT_SN_SIZE else if s =? 1 then Done LONG_SN_SIZE else Exit.
Definition decode_sn_size_dl (s : Z) : outcome Z :=
  if s =? 0 then Done SHORT_SN_SIZE else if s =? 1 then Done LONG_SN_SIZE else Exit.

Definition decode_discard_timer : Z -> outcome Z :=
  decode [10; 20; 30; 40; 50; 60; 75; 100; 150; 200; 250; 300; 500; 750; 1500; -1].

(** The parts of the ASN.1 types that the layer reads; an optional field is a
    pointer in the code. *)
Record NR_PDCP_Config__drb := mk_pdcp_config_drb {
  discardTimer : option Z;
  pdcp_SN_SizeUL : option Z;
  pdcp_SN_SizeDL : option Z;
  integrityProtection : bool
}.

(** [cipheringDisabled] is that of the extension [ext1]. *)
Record NR_PDCP_Config_t := mk_pdcp_config {
  config_drb : option NR_PDCP_Config__drb;
  config_t_Reordering : option Z;
  cipheringDisabled : bool
}.

Record NR_SRB_ToAddMod := mk_srb_to_add {
  srb_Identity : Z;
  srb_pdcp_Config : option NR_PDCP_Config_t
}.

Inductive cnAssociation_t :=
| PR_NOTHING
| PR_eps_BearerIdentity (id : Z)
| PR_sdap_Config (c : option NR_SDAP_Config_t).

Record NR_DRB_ToAddMod := mk_drb_to_add {
  drb_Identity : Z;
  cnAssociation : option cnAssociation_t;
  drb_pdcp_Config : option NR_PDCP_Config_t
}.

(** ** UE contexts *)

Record nr_pdcp_ue_t := mk_pdcp_ue {
  ue_id : Z;
  srb : list (option nr_pdcp_entity_t);
  drb : list (option nr_pdcp_entity_t)
}.
#[export] Instance eta_pdcp_ue : Eta nr_pdcp_ue_t := fun r => mk_pdcp_ue (ue_id r) (srb r) (drb r).

Definition calloc_pdcp_ue (id : Z) : nr_pdcp_ue_t := mk_pdcp_ue id (replicate 3 None) (replicate 32 None).

#[export] Instance pdcp_ue_context : UeContext nr_pdcp_ue_t := {
  ue_key := ue_id;
  new_ue := calloc_pdcp_ue;
  new_ue_key id := eq_refl
}.

Definition nr_pdcp_manager_get_ue : list nr_pdcp_ue_t -> Z -> nat * list nr_pdcp_ue_t := manager_get_ue.

(** The entities of the context are deleted, which frees them, and the context
    leaves the list. *)
Definition nr_pdcp_manager_remove_ue : list nr_pdcp_ue_t -> Z -> list nr_pdcp_ue_t := manager_remove_ue.

Definition nr_pdcp_get_first_ue_id (l : list nr_pdcp_ue_t) : option Z := ue_id <$> head l.

(** The place of a bearer in its context. *)
Inductive rb_slot := Srb (i : Z) | Drb (i : Z).
#[export] Instance rb_slot_eq_dec : EqDecision rb_slot.
Proof. solve_decision. Defined.

Definition slot_get (ue : nr_pdcp_ue_t) (k : rb_slot) : outcome (option nr_pdcp_entity_t) :=
  match k with Srb i => rd (srb ue) i | Drb i => rd (drb ue) i end.
Definition slot_set (ue : nr_pdcp_ue_t) (k : rb_slot) (x : option nr_pdcp_entity_t) : outcome nr_pdcp_ue_t :=
  match k with
  | Srb i => l ← wr (srb ue) i x; Done (ue <| srb := l |>)
  | Drb i => l ← wr (drb ue) i x; Done (ue <| drb := l |>)
  end.

Definition nr_pdcp_ue_add_srb_pdcp_entity (ue : nr_pdcp_ue_t) (srb_id : Z) (e : nr_pdcp_entity_t)
  : outcome nr_pdcp_ue_t :=
  if (srb_id <? 1) || (srb_id >? 2) then Exit
  else
    x ← slot_get ue (Srb (srb_id - 1));
    match x with Some _ => Exit | None => slot_set ue (Srb (srb_id - 1)) (Some e) end.

Definition nr_pdcp_ue_add_drb_pdcp_entity (ue : nr_pdcp_ue_t) (drb_id : Z) (e : nr_pdcp_entity_t)
  : outcome nr_pdcp_ue_t :=
  if (drb_id <? 1) || (drb_id >? 5) then Exit
  else
    x ← slot_get ue (Drb (drb_id - 1));
    match x with Some _ => Exit | None => slot_set ue (Drb (drb_id - 1)) (Some e) end.

Definition at_slot (ue : nr_pdcp_ue_t) (k : rb_slot) : outcome (option (rb_slot * nr_pdcp_entity_t)) :=
  x ← slot_get ue k; Done (match x with Some e => Some (k, e) | None => None end).

(** The place and the entity of a bearer, [None] for NULL. *)
Definition nr_pdcp_get_rb (ue : nr_pdcp_ue_t) (rb_id : Z) (srb_flag : bool)
  : outcome (option (rb_slot * nr_pdcp_entity_t)) :=
  if srb_flag then
    if (rb_id <? 1) || (rb_id >? 2) then Done None
    else at_slot ue (Srb (rb_id - 1))
  else
    if (rb_id <? 1) || (rb_id >? MAX_DRBS_PER_UE) then Done None
    else at_slot ue (Drb (rb_id - 1)).

(** ** The state of the layer *)

(** What the layer sends: a request for the RLC queue, a packet for the F1-U
    tunnel of a CU, the RRC messages of an SRB. *)
Inductive pdcp_out :=
| RlcDataReq (x : rlc_data_req_queue_item)
| GtpTunnelDataReq (ue rb_id : Z) (buf : list Z)
| UlRrcMessage (cu_ue du_ue srb_id : Z) (buf : list Z)
| DcchDataInd (ue srb_id : Z) (buf : list Z) (mi : nr_pdcp_integrity_data_t).

(** [p_is_cu] is [NODE_IS_CU(node_type)], [p_tun] is
    [IS_SOFTMODEM_NOS1 || UE_NAS_USE_TUN]; [p_timer_time] is
    [timer_thread_curtime]. *)
Record pdcp_state := mk_pdcp_state {
  p_ues : list nr_pdcp_ue_t;
  p_depth : Z;
  p_is_cu : bool;
  p_tun : bool;
  p_cu2du : f1_table;
  p_time : Z;
  p_last_frame : Z;
  p_last_subframe : Z;
  p_timer_time : Z;
  p_out : list pdcp_out
}.
#[export] Instance eta_pdcp_state : Eta pdcp_state := fun r =>
  mk_pdcp_state (p_ues r) (p_depth r) (p_is_cu r) (p_tun r) (p_cu2du r) (p_time r) (p_last_frame r)
    (p_last_subframe r) (p_timer_time r) (p_out r).

Definition nr_pdcp_layer_init (is_cu tun : bool) (cu2du : f1_table) : pdcp_state :=
  mk_pdcp_state [] 0 is_cu tun cu2du 0 0 0 0 [].

Definition nr_pdcp_manager_lock (p : pdcp_state) : pdcp_state := p <| p_depth ::= Z.add 1 |>.
(** Fails when the thread does not hold the mutex. *)
Definition nr_pdcp_manager_unlock (p : pdcp_state) : outcome pdcp_state :=
  if p_depth p <=? 0 then Exit else Done (p <| p_depth ::= fun d => d - 1 |>).

Definition send (p : pdcp_state) (o : pdcp_out) : pdcp_state := p <| p_out ::= fun l => l ++ [o] |>.

(** [ue = nr_pdcp_manager_get_ue(m, id); rb = nr_pdcp_get_rb(ue, rb_id, srb_flag)] *)
Definition lookup_rb (p : pdcp_state) (id rb_id : Z) (srb_flag : bool)
  : outcome (option (rb_slot * nr_pdcp_entity_t) * pdcp_state) :=
  '(x, l) ← with_ue (p_ues p) id (fun ue => x ← nr_pdcp_get_rb ue rb_id srb_flag; Done (x, ue));
  Done (x, p <| p_ues := l |>).

Definition store_rb (p : pdcp_state) (id : Z) (k : rb_slot) (x : option nr_pdcp_entity_t)
  : outcome pdcp_state :=
  '(_, l) ← with_ue (p_ues p) id (fun ue => ue ← slot_set ue k x; Done (tt, ue));
  Done (p <| p_ues := l |>).

(** ** Transmission *)

Definition deliver_pdu_drb_ue (p : pdcp_state) (id rb_id : Z) (buf : list Z) (size sdu_id : Z)
  : outcome pdcp_state :=
  memblock ← slice buf 0 size;
  Done (send p (RlcDataReq (mk_rlc_item (ctxt_init false id) false false rb_id sdu_id 0 size memblock))).

Definition deliver_pdu_drb_gnb (p : pdcp_state) (id rb_id : Z) (buf : list Z) (size sdu_id : Z)
  : outcome pdcp_state :=
  ue_data ← cu_get_f1_ue_data (p_cu2du p) id;
  memblock ← slice buf 0 size;
  if p_is_cu p then Done (send p (GtpTunnelDataReq id rb_id memblock))
  else Done (send p (RlcDataReq (mk_rlc_item (ctxt_init true (secondary_ue ue_data)) false false rb_id
                                   sdu_id 0 size memblock))).

Definition deliver_pdu_srb_rlc (p : pdcp_state) (id srb_id : Z) (buf : list Z) (size sdu_id : Z)
  : outcome pdcp_state :=
  memblock ← slice buf 0 size;
  Done (send p (RlcDataReq (mk_rlc_item (ctxt_init true id) true false srb_id sdu_id 0 size memblock))).

Section Api.
Context `{Crypto}.

(** [char pdu_buf[max_size]; rb->process_sdu(rb, sdu_buffer, size, muiP, pdu_buf, max_size)],
    the entity being updated. *)
Definition process_rb (p : pdcp_state) (id : Z) (k : rb_slot) (e : nr_pdcp_entity_t) (size : Z)
    (sdu_buffer : list Z) : outcome (Z * list Z * pdcp_state) :=
  let max_size := nr_max_pdcp_pdu_size size in
  '(pdu_size, e, pdu_buf) ←
    nr_pdcp_entity_process_sdu e sdu_buffer size (replicate (Z.to_nat max_size) 0) max_size;
  p ← store_rb p id k (Some e);
  Done (pdu_size, pdu_buf, p).

Definition nr_pdcp_data_req_drb (p : pdcp_state) (ctxt : protocol_ctxt_t) (srb_flag : bool)
    (rb_id mui size : Z) (sdu_buffer : list Z) : outcome (bool * pdcp_state) :=
  if srb_flag then Exit
  else if negb (module_id ctxt =? 0) || negb (instance ctxt =? 0) || negb (eNB_index ctxt =? 0) then Exit
  else
    let id := rntiMaybeUEid ctxt in
    let p := nr_pdcp_manager_lock p in
    '(rb, p) ← lookup_rb p id rb_id false;
    match rb with
    | None => p ← nr_pdcp_manager_unlock p; Done (false, p)
    | Some (k, e) =>
        '(pdu_size, pdu_buf, p) ← process_rb p id k e size sdu_buffer;
        p ← nr_pdcp_manager_unlock p;
        if pdu_size =? -1 then Done (false, p)
        else
          p ← (if Pdcp.is_gnb e then deliver_pdu_drb_gnb p id rb_id pdu_buf pdu_size mui
               else deliver_pdu_drb_ue p id rb_id pdu_buf pdu_size mui);
          Done (true, p)
    end.

(** The interface that SDAP uses. *)
#[export] Instance pdcp_service : PdcpService pdcp_state := fun p ctxt rb_id mui sdu =>
  nr_pdcp_data_req_drb p ctxt false rb_id mui (Z.of_nat (length sdu)) sdu.

(** [deliver_pdu_cb] is the callback of the caller. *)
Definition nr_pdcp_data_req_srb (p : pdcp_state) (id rb_id mui size : Z) (sdu_buffer : list Z)
    (deliver_pdu_cb : pdcp_state -> Z -> Z -> list Z -> Z -> Z -> outcome pdcp_state)
  : outcome (bool * pdcp_state) :=
  let p := nr_pdcp_manager_lock p in
  '(rb, p) ← lookup_rb p id rb_id true;
  match rb with
  | None => p ← nr_pdcp_manager_unlock p; Done (false, p)
  | Some (k, e) =>
      '(pdu_size, pdu_buf, p) ← process_rb p id k e size sdu_buffer;
      p ← nr_pdcp_manager_unlock p;
      if pdu_size =? -1 then Done (false, p)
      else p ← deliver_pdu_cb p id rb_id pdu_buf pdu_size mui; Done (true, p)
  end.

(** ** Reception *)

(** PDCP with SDAP above: the SDAP entities and what they have sent up. *)
Record layer2 := mk_layer2 {
  pd : pdcp_state;
  sd : list nr_sdap_entity_t;
  up : list sdap_event
}.
#[export] Instance eta_layer2 : Eta layer2 := fun r => mk_layer2 (pd r) (sd r) (up r).

(** The entity is [ue->drb[i]]: the search of the code for it finds [i]. *)
Definition deliver_sdu_drb (s : layer2) (id i : Z) (e : nr_pdcp_entity_t) (sdu : nr_pdcp_sdu_t)
  : outcome layer2 :=
  '(l, p, ev) ←
    (if p_tun (pd s)
     then sdap_data_ind (sd s) (Pdcp.rb_id e) false (Pdcp.has_sdap_rx e) (Pdcp.pdusession_id e) id
            (sdu_buffer sdu) (sdu_size sdu) (pd s)
     else sdap_data_ind (sd s) (i + 1) (Pdcp.is_gnb e) (Pdcp.has_sdap_rx e) (Pdcp.pdusession_id e) id
            (sdu_buffer sdu) (sdu_size sdu) (pd s));
  Done (mk_layer2 p l (up s ++ ev)).

(** The entity is [ue->srb[i]]. *)
Definition deliver_sdu_srb (p : pdcp_state) (id i : Z) (e : nr_pdcp_entity_t) (sdu : nr_pdcp_sdu_t)
  : outcome pdcp_state :=
  buf ← slice (sdu_buffer sdu) 0 (sdu_size sdu);
  if Pdcp.is_gnb e then
    ue_data ← cu_get_f1_ue_data (p_cu2du p) id;
    Done (send p (UlRrcMessage id (secondary_ue ue_data) (i + 1) buf))
  else Done (send p (DcchDataInd id (i + 1) buf (sdu_msg_integrity sdu))).

Definition deliver_sdu (s : layer2) (id : Z) (k : rb_slot) (e : nr_pdcp_entity_t) (sdu : nr_pdcp_sdu_t)
  : outcome layer2 :=
  match k with
  | Srb i => p ← deliver_sdu_srb (pd s) id i e sdu; Done (s <| pd := p |>)
  | Drb i => deliver_sdu_drb s id i e sdu
  end.

Fixpoint deliver_sdus (s : layer2) (id : Z) (k : rb_slot) (e : nr_pdcp_entity_t)
    (sdus : list nr_pdcp_sdu_t) : outcome layer2 :=
  match sdus with
  | [] => Done s
  | sdu :: r => s ← deliver_sdu s id k e sdu; deliver_sdus s id k e r
  end.

(** The end of a call that may deliver: the entity is stored, its SDUs go up. *)
Definition finish_rb (s : layer2) (id : Z) (k : rb_slot) (e : nr_pdcp_entity_t) : outcome layer2 :=
  p ← store_rb (pd s) id k (Some (e <| delivered := [] |>));
  deliver_sdus (s <| pd := p |>) id k e (delivered e).

Definition unlock_layer (s : layer2) : outcome layer2 :=
  p ← nr_pdcp_manager_unlock (pd s); Done (s <| pd := p |>).

Definition do_pdcp_data_ind (s : layer2) (ctxt : protocol_ctxt_t) (srb_flag : bool) (rb_id size : Z)
    (sdu_buffer : list Z) : outcome layer2 :=
  if negb (module_id ctxt =? 0) || negb (instance ctxt =? 0) || negb (eNB_index ctxt =? 0)
     || brOption ctxt then Exit
  else
    let id := rntiMaybeUEid ctxt in
    '(rb, p) ← lookup_rb (nr_pdcp_manager_lock (pd s)) id rb_id srb_flag;
    let s := s <| pd := p |> in
    s ← match rb with
        | Some (k, e) => e ← nr_pdcp_entity_recv_pdu e sdu_buffer size; finish_rb s id k e
        | None => Done s
        end;
    unlock_layer s.

(** The body of [pdcp_data_ind_thread] for one item of its queue. *)
Definition pdcp_handle_item (s : layer2) (x : pdcp_data_ind_queue_item) : outcome layer2 :=
  do_pdcp_data_ind s (pi_ctxt x) (pi_srb_flag x) (pi_rb_id x) (pi_sdu_buffer_size x) (pi_sdu_buffer x).

(** The item that [pdcp_data_ind] puts into the queue. *)
Definition pdcp_data_ind (ctxt : protocol_ctxt_t) (srb_flag MBMS_flag : bool) (rb_id size : Z)
    (sdu_buffer : list Z) : pdcp_data_ind_queue_item :=
  mk_pdcp_item ctxt srb_flag MBMS_flag rb_id size sdu_buffer.

Definition cu_f1u_data_req (ctxt : protocol_ctxt_t) (srb_flag : bool) (rb_id size : Z)
    (sdu_buffer : list Z) : outcome pdcp_data_ind_queue_item :=
  memblock ← slice sdu_buffer 0 size;
  Done (pdcp_data_ind (ctxt <| instance := 0 |>) srb_flag false rb_id size memblock).

(** ** Time *)

Definition nr_pdcp_wakeup_timer_thread (p : pdcp_state) (time : Z) : pdcp_state := p <| p_timer_time := time |>.

Definition nr_pdcp_tick (p : pdcp_state) (frame subframe : Z) : pdcp_state :=
  if negb (frame =? p_last_frame p) || negb (subframe =? p_last_subframe p) then
    let p := p <| p_last_frame := frame |> <| p_last_subframe := subframe |> <| p_time ::= add64 1 |> in
    nr_pdcp_wakeup_timer_thread p (p_time p)
  else p.

(** [if (rb != NULL) rb->set_time(rb, curtime)] *)
Definition timer_rb (s : layer2) (id curtime : Z) (k : rb_slot) : outcome layer2 :=
  '(x, _) ← with_ue (p_ues (pd s)) id (fun ue => x ← slot_get ue k; Done (x, ue));
  match x with
  | Some e => finish_rb s id k (nr_pdcp_entity_set_time e curtime)
  | None => Done s
  end.

(** The slots that the thread looks at: [j < 2], then [j < 5]. *)
Definition timer_slots : list rb_slot := [Srb 0; Srb 1; Drb 0; Drb 1; Drb 2; Drb 3; Drb 4].

Fixpoint timer_ue (s : layer2) (id curtime : Z) (ks : list rb_slot) : outcome layer2 :=
  match ks with
  | [] => Done s
  | k :: r => s ← timer_rb s id curtime k; timer_ue s id curtime r
  end.

Fixpoint timer_ues (s : layer2) (l : list Z) (curtime : Z) : outcome layer2 :=
  match l with
  | [] => Done s
  | id :: r => s ← timer_ue s id curtime timer_slots; timer_ues s r curtime
  end.

(** One turn of the thread, once [timer_thread_curtime] has changed; the
    contexts are named by their identities. *)
Definition nr_pdcp_timer_thread (s : layer2) : outcome layer2 :=
  let curtime := p_timer_time (pd s) in
  let s := s <| pd ::= nr_pdcp_manager_lock |> in
  s ← timer_ues s (ids (p_ues (pd s))) curtime;
  unlock_layer s.

(** ** Set-up of bearers *)

Definition opt_t_reordering (c : option Z) : outcome Z :=
  match c with Some v => decode_t_reordering v | None => Done (-1) end.

Definition add_srb (s : layer2) (is_gnb : bool) (id : Z) (c : NR_SRB_ToAddMod)
    (sec : nr_pdcp_entity_security_keys_and_algos_t) : outcome layer2 :=
  let srb_id := srb_Identity c in
  t ← opt_t_reordering (match srb_pdcp_Config c with Some x => config_t_Reordering x | None => None end);
  '(rb, p) ← lookup_rb (nr_pdcp_manager_lock (pd s)) id srb_id true;
  p ← match rb with
      | Some _ => Done p
      | None =>
          e ← new_nr_pdcp_entity NR_PDCP_SRB is_gnb srb_id 0 false false SHORT_SN_SIZE t (-1) sec;
          '(_, l) ← with_ue (p_ues p) id (fun ue =>
            ue ← nr_pdcp_ue_add_srb_pdcp_entity ue srb_id e; Done (tt, ue));
          Done (p <| p_ues := l |>)
      end;
  unlock_layer (s <| pd := p |>).

(** The SDAP part of the configuration of a DRB: the PDU session, the two header
    flags, the default-DRB flag, the memory of the flows and their number. *)
Definition drb_sdap_config (is_gnb : bool) (c : NR_DRB_ToAddMod)
  : outcome (Z * bool * bool * bool * list Z * Z) :=
  match cnAssociation c with
  | None | Some PR_NOTHING => Exit
  | Some (PR_eps_BearerIdentity id) => Done (id, false, false, false, [], 0)
  | Some (PR_sdap_Config None) => Exit
  | Some (PR_sdap_Config (Some x)) =>
      mapped ← array0 (mappedQoS_FlowsToAdd x);
      Done (pdu_Session x, is_sdap_rx is_gnb x, is_sdap_tx is_gnb x, defaultDRB x, mapped,
            u8 (Z.of_nat (length (mappedQoS_FlowsToAdd x))))
  end.

Definition add_drb (s : layer2) (is_gnb : bool) (id : Z) (c : NR_DRB_ToAddMod)
    (sec : nr_pdcp_entity_security_keys_and_algos_t) : outcome layer2 :=
  let drb_id := drb_Identity c in
  pc ← deref (drb_pdcp_Config c);
  dc ← deref (config_drb pc);
  ul ← deref (pdcp_SN_SizeUL dc);
  sn_size_ul ← decode_sn_size_ul ul;
  dl ← deref (pdcp_SN_SizeDL dc);
  sn_size_dl ← decode_sn_size_dl dl;
  dt ← deref (discardTimer dc);
  discard_timer ← decode_discard_timer dt;
  t_reordering ← opt_t_reordering (config_t_Reordering pc);
  '(pdusession_id, has_sdap_rx, has_sdap_tx, is_default, mapped, count) ← drb_sdap_config is_gnb c;
  if negb (sn_size_ul =? sn_size_dl) then Exit
  else
    let actual := sec <| ciphering_algorithm ::= fun a => if cipheringDisabled pc then 0 else a |>
                      <| integrity_algorithm ::= fun a => if integrityProtection dc then a else 0 |> in
    '(rb, p) ← lookup_rb (nr_pdcp_manager_lock (pd s)) id drb_id false;
    s ← match rb with
        | Some _ => Done (s <| pd := p |>)
        | None =>
            e ← new_nr_pdcp_entity NR_PDCP_DRB_AM is_gnb drb_id pdusession_id has_sdap_rx has_sdap_tx
                  sn_size_dl t_reordering discard_timer actual;
            '(_, l) ← with_ue (p_ues p) id (fun ue =>
              ue ← nr_pdcp_ue_add_drb_pdcp_entity ue drb_id e; Done (tt, ue));
            '(sdap, p) ← new_nr_sdap_entity (sd s) is_gnb has_sdap_rx has_sdap_tx id pdusession_id is_default
                           drb_id mapped count (p <| p_ues := l |>);
            Done (s <| pd := p |> <| sd := sdap |>)
        end;
    unlock_layer s.

(** A NULL list does nothing. *)
Definition nr_pdcp_add_srbs (s : layer2) (enb_flag : bool) (id : Z) (l : option (list NR_SRB_ToAddMod))
    (sec : nr_pdcp_entity_security_keys_and_algos_t) : outcome layer2 :=
  foldl (fun x c => s ← x; add_srb s enb_flag id c sec) (Done s) (default [] l).
Definition nr_pdcp_add_drbs (s : layer2) (enb_flag : bool) (id : Z) (l : option (list NR_DRB_ToAddMod))
    (sec : nr_pdcp_entity_security_keys_and_algos_t) : outcome layer2 :=
  foldl (fun x c => s ← x; add_drb s enb_flag id c sec) (Done s) (default [] l).

(** ** Operations of RRC on a bearer *)

Definition nr_pdcp_remove_UE (p : pdcp_state) (id : Z) : outcome pdcp_state :=
  let p := nr_pdcp_manager_lock p in
  nr_pdcp_manager_unlock (p <| p_ues ::= fun l => nr_pdcp_manager_remove_ue l id |>).

(** A call on the entity of a bearer, nothing when there is none. *)
Definition on_rb (p : pdcp_state) (id rb_id : Z) (srb_flag : bool)
    (f : nr_pdcp_entity_t -> outcome nr_pdcp_entity_t) : outcome pdcp_state :=
  '(rb, p) ← lookup_rb (nr_pdcp_manager_lock p) id rb_id srb_flag;
  match rb with
  | None => nr_pdcp_manager_unlock p
  | Some (k, e) => e ← f e; p ← store_rb p id k (Some e); nr_pdcp_manager_unlock p
  end.

Definition nr_pdcp_config_set_security (p : pdcp_state) (id rb_id : Z) (is_srb : bool)
    (sec : nr_pdcp_entity_security_keys_and_algos_t) : outcome pdcp_state :=
  on_rb p id rb_id is_srb (fun e => nr_pdcp_entity_set_security e sec).

Definition nr_pdcp_check_integrity_srb (p : pdcp_state) (id srb_id : Z) (msg : list Z) (msg_size : Z)
    (mi : nr_pdcp_integrity_data_t) : outcome (bool * pdcp_state) :=
  '(rb, p) ← lookup_rb (nr_pdcp_manager_lock p) id srb_id true;
  match rb with
  | None => p ← nr_pdcp_manager_unlock p; Done (false, p)
  | Some (_, e) =>
      ret ← nr_pdcp_entity_check_integrity e msg msg_size mi;
      p ← nr_pdcp_manager_unlock p;
      Done (ret, p)
  end.

(** The deliveries of the suspension run before its end. *)
Definition suspend_rb (s : layer2) (id rb_id : Z) (srb_flag : bool) : outcome layer2 :=
  '(rb, p) ← lookup_rb (nr_pdcp_manager_lock (pd s)) id rb_id srb_flag;
  let s := s <| pd := p |> in
  match rb with
  | None => unlock_layer s
  | Some (k, e) =>
      s ← finish_rb s id k (suspend_deliver e);
      '(rb, p) ← lookup_rb (pd s) id rb_id srb_flag;
      match rb with
      | None => Undef
      | Some (k, e) => p ← store_rb p id k (Some (suspend_end e)); unlock_layer (s <| pd := p |>)
      end
  end.

Definition nr_pdcp_suspend_srb (s : layer2) (id srb_id : Z) : outcome layer2 := suspend_rb s id srb_id true.
Definition nr_pdcp_suspend_drb (s : layer2) (id drb_id : Z) : outcome layer2 := suspend_rb s id drb_id false.

Definition nr_pdcp_reconfigure_srb (p : pdcp_state) (id srb_id t_Reordering : Z) : outcome pdcp_state :=
  on_rb p id srb_id true (fun e => t ← decode_t_reordering t_Reordering; Done (e <| t_reordering := t |>)).

(** [sn_max] and [window_size] keep the values of the SN size at the set-up. *)
Definition reconfigure_drb_entity (config : option NR_PDCP_Config_t) (e : nr_pdcp_entity_t)
  : outcome nr_pdcp_entity_t :=
  match config with
  | None => Done e
  | Some pc =>
      t ← opt_t_reordering (config_t_Reordering pc);
      let e := e <| t_reordering := t |> in
      match config_drb pc with
      | None => Done e
      | Some dc =>
          e ← match discardTimer dc with
              | Some v => d ← decode_discard_timer v; Done (e <| discard_timer := d |>)
              | None => Done e
              end;
          e ← match pdcp_SN_SizeUL dc with
              | Some v => n ← decode_sn_size_ul v; Done (e <| sn_size := n |>)
              | None => Done e
              end;
          match pdcp_SN_SizeDL dc with
          | Some v =>
              n ← decode_sn_size_dl v;
              match pdcp_SN_SizeUL dc with
              | Some _ => if n =? sn_size e then Done (e <| sn_size := n |>) else Exit
              | None => Done (e <| sn_size := n |>)
              end
          | None => Done e
          end
      end
  end.

Definition nr_pdcp_reconfigure_drb (p : pdcp_state) (id drb_id : Z) (config : option NR_PDCP_Config_t)
  : outcome pdcp_state :=
  on_rb p id drb_id false (reconfigure_drb_entity config).

(** The slot is used without a test of the identity. *)
Definition nr_pdcp_release_srb (p : pdcp_state) (id srb_id : Z) : outcome pdcp_state :=
  let p := nr_pdcp_manager_lock p in
  '(_, l) ← with_ue (p_ues p) id (fun ue =>
    x ← slot_get ue (Srb (srb_id - 1));
    match x with Some _ => ue ← slot_set ue (Srb (srb_id - 1)) None; Done (tt, ue) | None => Done (tt, ue) end);
  nr_pdcp_manager_unlock (p <| p_ues := l |>).

Definition nr_pdcp_release_drb (s : layer2) (id drb_id : Z) : outcome layer2 :=
  let p := nr_pdcp_manager_lock (pd s) in
  let k := Drb (drb_id - 1) in
  '(x, l) ← with_ue (p_ues p) id (fun ue => x ← slot_get ue k; Done (x, ue));
  let s := s <| pd := p <| p_ues := l |> |> in
  match x with
  | Some e =>
      let s := s <| sd ::= fun l => nr_sdap_release_drb l id drb_id (Pdcp.pdusession_id e) |> in
      s ← finish_rb s id k (nr_pdcp_entity_release e);
      p ← store_rb (pd s) id k None;
      unlock_layer (s <| pd := p |>)
  | None => unlock_layer s
  end.

(** The DRBs of the layer are of type [NR_PDCP_DRB_AM], whose re-establishment
    delivers nothing. *)
Definition nr_pdcp_reestablishment (s : layer2) (id rb_id : Z) (srb_flag : bool)
    (sec : nr_pdcp_entity_security_keys_and_algos_t) : outcome layer2 :=
  '(rb, p) ← lookup_rb (nr_pdcp_manager_lock (pd s)) id rb_id srb_flag;
  let s := s <| pd := p |> in
  s ← match rb with
      | Some (k, e) => e ← reestablish_entity e sec; finish_rb s id k e
      | None => Done s
      end;
  unlock_layer s.

Definition nr_pdcp_get_statistics (p : pdcp_state) (id : Z) (srb_flag : bool) (rb_id : Z)
  : outcome (option nr_pdcp_statistics_t * pdcp_state) :=
  '(rb, p) ← lookup_rb (nr_pdcp_manager_lock p) id rb_id srb_flag;
  p ← nr_pdcp_manager_unlock p;
  Done (match rb with Some (_, e) => Some (nr_pdcp_entity_get_stats e) | None => None end, p).

(** The identities written to the array of the caller, and the number of contexts. *)
Definition nr_pdcp_get_num_ues (p : pdcp_state) (len : Z) : list Z * Z :=
  (take (Z.to_nat len) (ids (p_ues p)), Z.of_nat (length (p_ues p))).

(** ** Packets of the TUN interface *)

(** One packet read by [enb_tun_read_thread] or [ue_tun_read_thread]: it goes to
    the first UE, on bearer 1. *)
Definition tun_packet (s : layer2) (enb : bool) (packet : list Z) (qfi : Z) (rqi : bool) (pdusession : Z)
  : outcome layer2 :=
  match nr_pdcp_get_first_ue_id (p_ues (pd s)) with
  | None => Done s
  | Some id =>
      '(_, l, p) ← sdap_data_req (sd s) (ctxt_init enb id) id 1 RLC_MUI_UNDEFINED
                     (Z.of_nat (length packet)) (Some packet) qfi rqi pdusession (pd s);
      Done (s <| sd := l |> <| pd := p |>)
  end.

Definition enb_tun_read_thread (s : layer2) (packet : list Z) : outcome layer2 :=
  tun_packet s true packet 7 false 10.
Definition ue_tun_read_thread (s : layer2) (packet : list Z) (nas_qfi nas_pduid : Z) : outcome layer2 :=
  tun_packet s false packet nas_qfi true nas_pduid.
End Api.
