(* ===== verification/BearerRlc.v ===== *)
(** A DRB in unacknowledged mode through the interface of the RLC layer: what the
    calls of PDCP ([rlc_data_req]) and of MAC ([mac_rlc_data_req],
    [mac_rlc_data_ind]) do is what the entity of the bearer does. *)

From S2P Require Import Prelude RlcSdu RlcUm RlcUmLink L2Common F1Ids RlcConfig RlcApi RlcBearers.

(** ** What transmission leaves alone *)

Definition rx_side_same (e e' : nr_rlc_entity_um_t) : Prop :=
  t_reassembly_start e' = t_reassembly_start e /\ avg_time_is_on e' = avg_time_is_on e /\
  tx_maxsize e' = tx_maxsize e /\ trace e' = trace e.

Lemma recv_sdu_rx_side e d size id now e' :
  nr_rlc_entity_um_recv_sdu e d size id now = Done e' -> rx_side_same e e'.
Proof.
  unfold nr_rlc_entity_um_recv_sdu. cif; [done|]. cif; [by intros [= <-]|]. cbv zeta.
  intros Hx. apply outcome_bind_done in Hx as ([sdu h] & _ & Hx).
  apply outcome_bind_done in Hx as ([l en] & _ & Hx). revert Hx. cif.
  - intros Hx. apply outcome_bind_done in Hx as (u & _ & Hx). by injection Hx as <-.
  - by intros [= <-].
Qed.

Lemma send_segment_rx_side e sdu buf size now n e' buf' :
  avg_time_is_on e = false -> send_segment e sdu buf size now = Done (n, e', buf') -> rx_side_same e e'.
Proof.
  intros A. unfold send_segment. cbv zeta. intros E. apply outcome_bind_done in E as ([ret b] & _ & E).
  apply outcome_bind_done in E as (u & _ & E). apply outcome_bind_done in E as ([w h] & _ & E).
  injection E as <- <- <-. revert A. cif; intros A; unfold rx_side_same; simpl; by rewrite A.
Qed.

Lemma generate_rx_side e buf size now n e' buf' :
  avg_time_is_on e = false -> nr_rlc_entity_um_generate_pdu e buf size now = Done (n, e', buf') ->
  rx_side_same e e'.
Proof.
  intros A. unfold nr_rlc_entity_um_generate_pdu, generate_tx_pdu.
  destruct (tx_list e) as [|sdu next]; [by intros [= <- <- <-]|]. cbv zeta.
  cif; [by intros [= <- <- <-]|]. intros Hx. apply outcome_bind_done in Hx as (u & _ & Hx).
  revert Hx. set (e1 := _ <| bstatus; bs_tx_size ::= _ |>).
  assert (S1 : rx_side_same e e1) by (unfold e1; by destruct next).
  assert (T : forall e2 s, rx_side_same e e2 ->
    send_segment e2 s buf size now = Done (n, e', buf') -> rx_side_same e e').
  { intros e2 s (? & ? & ? & ?) Hs.
    destruct (send_segment_rx_side _ _ _ _ _ _ _ _ (ltac:(congruence) : avg_time_is_on e2 = false) Hs)
      as (? & ? & ? & ?). unfold rx_side_same. split_and!; congruence. }
  clearbody e1. cif; [|by apply T].
  intros Hx. apply outcome_bind_done in Hx as ([[e2 s] nx] & Hr & Hx).
  assert (S2 : rx_side_same e e2).
  { revert Hr. unfold resegment. intros Hr. apply outcome_bind_done in Hr as (v & _ & Hr). revert Hr. cbv zeta.
    cif; by intros [= <- _ _]. }
  destruct nx as [nx|]; [|by injection Hx as <- <- <-]. revert Hx. apply T.
  destruct (tx_end (e2 <| tx_list ::= cons nx |>)); exact S2.
Qed.

(** ** The link between two entities, their clocks moving *)

Lemma set_time_idle e now :
  t_reassembly_start e = 0 -> nr_rlc_entity_um_set_time e now = Done (e <| t_current := now |>).
Proof. intros E. unfold nr_rlc_entity_um_set_time, check_t_reassembly. simpl. by rewrite E. Qed.

Lemma link_tx_time snl tx rx acc now : link_ok snl tx rx acc -> link_ok snl (tx <| t_current := now |>) rx acc.
Proof.
  intros [[C1 C2 C3 C4 C5 C6 C7 C8 C9] S M R D]. split; try done. split; try done. by destruct C1.
Qed.

(** The SDUs of the receiver are handed over: the link goes on with the SDUs
    that the sender still has. *)
Lemma link_handed snl tx rx acc :
  link_ok snl tx rx acc ->
  link_ok snl tx (rx <| trace := [] |>) (pending tx) /\
  exists dl, trace rx = map DeliverSdu dl /\ dl ++ pending tx = acc.
Proof.
  intros [T S M R D]. split; [|done]. split; try done.
  - eapply rx_inorder_ext; [exact R|..]; try done. destruct R as [C _ _ _ _ _ _ _]. by destruct C.
  - by exists [].
Qed.

(** ** A bearer of the layer *)

Record um_at (s : rlc_state) (id d lc : Z) (e : nr_rlc_entity_um_t) : Prop := {
  ua_lock : r_locked s = false;
  ua_rb : get_rlc_entity_from_rb (ue_view (r_ues s) id) false d = Done (Some (RDrb (d - 1), UM e));
  ua_lc : get_rlc_entity_from_lcid (ue_view (r_ues s) id) lc = Done (Some (RDrb (d - 1), UM e))
}.

Definition same_node (s s' : rlc_state) : Prop :=
  r_enb s' = r_enb s /\ r_node s' = r_node s /\ r_du2cu s' = r_du2cu s /\ r_time s' = r_time s.

Lemma drb_store ue d lc e e' :
  get_rlc_entity_from_rb ue false d = Done (Some (RDrb (d - 1), UM e)) ->
  get_rlc_entity_from_lcid ue lc = Done (Some (RDrb (d - 1), UM e)) ->
  exists ue', set_rb ue (RDrb (d - 1)) (Some (UM e')) = Done ue' /\ ue_id ue' = ue_id ue /\
    get_rlc_entity_from_rb ue' false d = Done (Some (RDrb (d - 1), UM e')) /\
    get_rlc_entity_from_lcid ue' lc = Done (Some (RDrb (d - 1), UM e')).
Proof.
  intros Hrb Hlc. unfold get_rlc_entity_from_rb in *. destruct (_ && _) eqn:Ed; [|done].
  unfold at_rb in Hrb. apply outcome_bind_done in Hrb as (x & Hx & Hrb). destruct x as [x|]; [|done].
  injection Hrb as ->. cbn [get_rb] in Hx. apply rd_inv in Hx as [H0 Hx].
  pose proof (lookup_lt_Some _ _ _ Hx) as Hlt.
  assert (Hn : <[Z.to_nat (d - 1) := Some (UM e')]> (drb ue) !! Z.to_nat (d - 1) = Some (Some (UM e')))
    by (by apply list_lookup_insert_eq).
  cbn [set_rb]. rewrite wr_done by lia. cbn [mbind outcome_bind]. eexists. split; [reflexivity|].
  split; [done|]. split.
  - unfold at_rb. cbn [get_rb drb upd]. simpl. by rewrite (rd_done _ _ _ H0 Hn).
  - revert Hlc. unfold get_rlc_entity_from_lcid. cif.
    + unfold at_rb. cbn [get_rb]. simpl. by destruct (srb0 ue).
    + intros Hlc. apply outcome_bind_done in Hlc as (rb & Hr & Hlc). simpl. rewrite Hr. cbn [mbind outcome_bind].
      revert Hlc. destruct (rb_type rb); [done| |].
      * cif; [|done]. unfold at_rb. cbn [get_rb]. intros Hlc.
        apply outcome_bind_done in Hlc as ([y|] & _ & Hlc); by injection Hlc.
      * unfold at_rb. cbn [get_rb]. intros Hlc.
        apply outcome_bind_done in Hlc as ([y|] & _ & Hlc); [|by injection Hlc]. injection Hlc as Hk _.
        rewrite Hk. simpl. by rewrite (rd_done _ _ _ H0 Hn).
Qed.

(** PDCP is in the same node, and knows the UE [id] as [cu]. *)
Definition pdcp_side (s : rlc_state) (id cu : Z) : Prop :=
  if r_enb s then r_node s <> Cu /\ r_node s <> Du /\ r_du2cu s !! id = Some (mk_f1_ue_data cu)
  else cu = id.

(** What the entities of a UE or of a monolithic gNB deliver goes to PDCP. *)
Lemma callbacks_sdus s ue i dl cu :
  (dl <> [] -> pdcp_side s (ue_id ue) cu) ->
  callbacks s ue (RDrb i) (map DeliverSdu dl) =
  Done (PdcpDataInd (ctxt_init (r_enb s) cu) false (i + 1) <$> dl).
Proof.
  intros Hn. induction dl as [|d dl IH]; [done|].
  assert (Hp := Hn ltac:(done)). specialize (IH (fun _ => Hp)). clear Hn. unfold pdcp_side in Hp. cbn [map callbacks callback].
  unfold deliver_sdu. cbn [find_rb mbind outcome_bind].
  destruct (r_enb s) eqn:Eb.
  - destruct Hp as (H1 & H2 & H3). unfold du_get_f1_ue_data, get_f1_ue_data. rewrite H3.
    cbn [mbind outcome_bind secondary_ue]. destruct (r_node s); try done; rewrite IH; reflexivity.
  - subst cu. cbn [mbind outcome_bind]. destruct (r_node s); rewrite IH; reflexivity.
Qed.

(** The calls on the entity of a bearer, followed by the callbacks. *)
Lemma um_call_ok {R} s id d lc e e2 dl cu (f : nr_rlc_ue_t -> outcome (R * nr_rlc_ue_t))
    (g : list rlc_out -> R) :
  um_at s id d lc e -> trace e2 = map DeliverSdu dl ->
  (dl <> [] -> pdcp_side s id cu) ->
  f (ue_view (r_ues s) id) =
    ('(outs, ue) ← finish_rb s (ue_view (r_ues s) id) (RDrb (d - 1)) (UM e2); Done (g outs, ue)) ->
  exists s', ue_call s id f = Done (g (PdcpDataInd (ctxt_init (r_enb s) cu) false d <$> dl), s') /\
    um_at s' id d lc (e2 <| trace := [] |>) /\ same_node s s'.
Proof.
  intros [L Hrb Hlc] Ht Hc Hf.
  assert (K : ue_id (ue_view (r_ues s) id) = id).
  { destruct (manager_get_ue (r_ues s) id) as [i l1] eqn:Em. by destruct (get_ue_ok _ _ _ _ Em) as (_ & ? & _). }
  destruct (drb_store _ _ _ _ (e2 <| trace := [] |>) Hrb Hlc) as (ue' & Es & Ku & Hrb' & Hlc').
  unfold finish_rb, take_events in Hf. rewrite Ht, (callbacks_sdus _ _ _ _ cu) in Hf by (by rewrite K).
  cbn [mbind outcome_bind] in Hf. rewrite Es in Hf. cbn [mbind outcome_bind] in Hf.
  replace (d - 1 + 1) with d in Hf by lia.
  unfold ue_call, locked_call. rewrite L.
  destruct (with_ue_done (r_ues s) id f _ _ Hf) as [l W]. cbn [r_ues upd]. rewrite W. cbn [mbind outcome_bind]. eexists. split; [reflexivity|].
  destruct (with_ue_inv _ _ _ _ _ W) as (v & Ev & Hv). rewrite Hf in Ev. injection Ev as <-.
  destruct Hv as (V & _); [change (ue_id ue' = id); congruence|]. split; [|done].
  split; [done| |]; change (r_ues _) with l; by rewrite V.
Qed.

Lemma trace_nil e : trace e = [] -> e <| trace := [] |> = e.
Proof. destruct e. simpl. by intros ->. Qed.

(** The transmitting side of a bearer that receives nothing. *)
Record um_quiet (e : nr_rlc_entity_um_t) : Prop := {
  uq_timer : t_reassembly_start e = 0;
  uq_avg : avg_time_is_on e = false;
  uq_trace : trace e = []
}.

Lemma quiet_same e e' now : um_quiet e -> rx_side_same (e <| t_current := now |>) e' -> um_quiet e'.
Proof. intros [A B C] (D & E & _ & F). simpl in *. split; congruence. Qed.

Lemma rlc_data_req_um s id d lc e ctxt mui size sdu now e2 :
  um_at s id d lc e -> um_quiet e -> s32 (rntiMaybeUEid ctxt) = id ->
  nr_rlc_entity_um_recv_sdu (e <| t_current := r_time s |>) sdu size mui now = Done e2 ->
  exists s', rlc_data_req s ctxt false d mui size sdu now = Done ([], s') /\
    um_at s' id d lc e2 /\ same_node s s' /\ um_quiet e2.
Proof.
  intros U Q K E. pose proof (quiet_same _ _ _ Q (recv_sdu_rx_side _ _ _ _ _ _ E)) as Q2.
  unfold rlc_data_req. rewrite K.
  match goal with |- context [ue_call s id ?f] =>
    destruct (um_call_ok s id d lc e e2 [] 0 f (fun o => o) U (uq_trace _ Q2)) as (s' & C & U' & N); [done| |] end.
  - rewrite (ua_rb _ _ _ _ _ U). cbn [mbind outcome_bind set_time recv_sdu].
    rewrite (set_time_idle _ _ (uq_timer _ Q)). cbn [mbind outcome_bind recv_sdu generate_pdu]. rewrite E.
    cbn [mbind outcome_bind]. by destruct (finish_rb _ _ _ _) as [[]| |].
  - exists s'. rewrite (trace_nil _ (uq_trace _ Q2)) in U'. done.
Qed.

Lemma mac_rlc_data_req_um s id d lc e buffer now n e2 buf :
  um_at s id d lc e -> um_quiet e ->
  nr_rlc_entity_um_generate_pdu (e <| t_current := r_time s |>) buffer (Z.of_nat (length buffer)) now =
    Done (n, e2, buf) ->
  exists s', mac_rlc_data_req s id lc (Z.of_nat (length buffer)) buffer now = Done (n, buf, [], s') /\
    um_at s' id d lc e2 /\ same_node s s' /\ um_quiet e2.
Proof.
  intros U Q E.
  assert (Q2 : um_quiet e2).
  { eapply quiet_same; [exact Q|]. eapply generate_rx_side; [|exact E]. exact (uq_avg _ Q). }
  unfold mac_rlc_data_req.
  match goal with |- context [ue_call s id ?f] =>
    destruct (um_call_ok s id d lc e e2 [] 0 f (fun o => (n, buf, o)) U (uq_trace _ Q2)) as (s' & C & U' & N);
      [done| |] end.
  - rewrite (ua_lc _ _ _ _ _ U). cbn [mbind outcome_bind set_time generate_pdu].
    rewrite (set_time_idle _ _ (uq_timer _ Q)). cbn [mbind outcome_bind recv_sdu generate_pdu]. rewrite E.
    cbn [mbind outcome_bind]. by destruct (finish_rb _ _ _ _) as [[]| |].
  - rewrite C. cbn [mbind outcome_bind]. exists s'. rewrite (trace_nil _ (uq_trace _ Q2)) in U'. done.
Qed.

Lemma mac_rlc_data_ind_um s id d lc e pdu size e1 e2 dl cu :
  um_at s id d lc e -> nr_rlc_entity_um_set_time e (r_time s) = Done e1 ->
  nr_rlc_entity_um_recv_pdu e1 pdu size = Done e2 ->
  trace e2 = map DeliverSdu dl -> pdcp_side s id cu ->
  exists s', mac_rlc_data_ind s id 0 false lc pdu size =
      Done (PdcpDataInd (ctxt_init (r_enb s) cu) false d <$> dl, s') /\
    um_at s' id d lc (e2 <| trace := [] |>) /\ same_node s s'.
Proof.
  intros U E1 E2 T P. unfold mac_rlc_data_ind. cbn [negb Z.eqb orb].
  match goal with |- context [ue_call s id ?f] =>
    apply (um_call_ok s id d lc e e2 dl cu f (fun o => o) U T) end; [done|].
  rewrite (ua_lc _ _ _ _ _ U). cbn [mbind outcome_bind set_time recv_pdu]. rewrite E1.
  cbn [mbind outcome_bind recv_pdu]. rewrite E2. cbn [mbind outcome_bind]. by destruct (finish_rb _ _ _ _) as [[]| |].
Qed.

(** The clock of the layer. *)
Lemma tick_um s frame sf id d lc e : um_at s id d lc e -> um_at (nr_rlc_tick s frame sf) id d lc e.
Proof. intros []. unfold nr_rlc_tick, advance_time. cif; by split. Qed.

(** ** Two nodes and the bearer between them *)

Definition total (l : list (list Z)) : Z := foldr (fun d a => Z.of_nat (length d) + a) 0 l.

Lemma total_app l1 l2 : total (l1 ++ l2) = total l1 + total l2.
Proof. unfold total. induction l1 as [|d l1 IH]; simpl; lia. Qed.

Lemma total_pos l : 0 <= total l.
Proof. unfold total. induction l; simpl; lia. Qed.

Lemma tx_size_pending e : um_tx_ok 0 e -> tx_size e <= total (pending e).
Proof.
  intros O. rewrite (tx_bytes _ _ O), Z.add_0_r. unfold pending.
  pose proof (tx_segs _ _ O) as F. pose proof (ho_sdus _ _ (tx_heap _ _ O)) as M. revert F M.
  generalize (tx_list e) at 2. intros segs. generalize (tx_list e).
  induction l as [|s l IH]; intros F M; cbn [map segs_bytes total foldr]; [lia|].
  apply Forall_cons in F as [(u & Hu & _ & _ & Hs & _ & Ho) F]. specialize (IH F M).
  fold (segs_bytes l) (total (map (seg_data (heap e)) l)). unfold seg_data at 1. rewrite Hu.
  destruct (M _ _ Hu) as (_ & _ & _ & _ & -> & _). assert (0 <= seg_so s) by (destruct (seg_is_first s); lia). lia.
Qed.

(** The sender [st] has the SDUs [q] left to send to the receiver [sr] over the
    bearer [d], in part or whole: [w] bytes. *)
Record rlc_link (snl : Z) (st sr : rlc_state) (it ir d lc cu : Z) (q : list (list Z)) (w : Z) : Prop := {
  rl_state : exists tx rx, um_at st it d lc tx /\ um_at sr ir d lc rx /\ um_quiet tx /\ trace rx = [] /\
    tx_maxsize tx = RLC_TX_MAXSIZE /\ link_ok snl tx rx q /\ tx_size tx = w;
  rl_side : pdcp_side sr ir cu
}.

Lemma link_pending snl tx rx q : trace rx = [] -> link_ok snl tx rx q -> pending tx = q.
Proof. intros T [_ _ _ _ (dl & E & Hq)]. rewrite T in E. destruct dl; [done|discriminate]. Qed.

Lemma same_side s s' id cu : same_node s s' -> pdcp_side s id cu -> pdcp_side s' id cu.
Proof. intros (E1 & E2 & E3 & _). unfold pdcp_side. by rewrite E1, E2, E3. Qed.

Lemma link_empty snl st sr it ir d lc cu q w : rlc_link snl st sr it ir d lc cu q w -> 0 <= w /\ (w = 0 -> q = []).
Proof.
  intros [(tx & rx & _ & _ & _ & T & _ & L & <-) _]. rewrite <- (link_pending _ _ _ _ T L).
  pose proof (lk_tx _ _ _ _ L) as O. rewrite (tx_bytes _ _ O), Z.add_0_r. unfold pending.
  pose proof (tx_segs _ _ O) as F. revert F. generalize (tx_list tx). clear.
  induction l as [|s l IH]; intros F; [done|]. apply Forall_cons in F as [(u & _ & _ & _ & _ & Hs & _) F].
  specialize (IH F). cbn [segs_bytes foldr]. fold (segs_bytes l). split; [lia|]. intros. lia.
Qed.

Lemma link_send snl st sr it ir d lc cu q w ctxt mui sdu now :
  rlc_link snl st sr it ir d lc cu q w -> s32 (rntiMaybeUEid ctxt) = it ->
  Forall is_byte sdu -> 0 < Z.of_nat (length sdu) <= NR_SDU_MAX ->
  total q + Z.of_nat (length sdu) <= RLC_TX_MAXSIZE ->
  exists st', rlc_data_req st ctxt false d mui (Z.of_nat (length sdu)) sdu now = Done ([], st') /\
    same_node st st' /\ exists w', rlc_link snl st' sr it ir d lc cu (q ++ [sdu]) w'.
Proof.
  intros [(tx & rx & Ut & Ur & Q & T & M & L & W) P] K HB Hs Hq.
  apply (link_tx_time _ _ _ _ (r_time st)) in L. set (tx1 := tx <| t_current := r_time st |>) in *.
  destruct (link_step_ok _ _ _ _ (Send sdu mui now) L) as (tx2 & rx2 & q2 & E & L2); [done|].
  cbn [link_step] in E. apply outcome_bind_done in E as (tx2' & E & Eq). injection Eq as -> <- <-.
  assert (Ha : accepts tx1 sdu = true).
  { unfold accepts. pose proof (tx_size_pending _ (lk_tx _ _ _ _ L)) as Hp.
    rewrite (link_pending _ _ _ _ T L) in Hp. change (tx_maxsize tx1) with (tx_maxsize tx). rewrite M.
    destruct (_ >? _) eqn:Eg; [zbool; lia|done]. }
  rewrite Ha in L2.
  destruct (rlc_data_req_um st it d lc tx ctxt mui _ sdu now tx2 Ut Q K E) as (st' & Er & Ut' & N & Q2).
  exists st'. split_and!; try done. exists (tx_size tx2). split; [|done]. exists tx2, rx. split_and!; try done.
  destruct (recv_sdu_rx_side _ _ _ _ _ _ E) as (_ & _ & -> & _). done.
Qed.

(** A grant of at least 5 bytes has room for a byte of data. *)
Lemma grant_progress leak e s r size n e' x :
  um_tx_ok leak e -> tx_list e = s :: r -> granted leak e s r size n e' x -> tx_size e' < tx_size e.
Proof.
  intros O El [O' _ _ (s1 & (_ & _ & _ & Hs & _ & Hl) & _) _]. rewrite (tx_bytes _ _ O), (tx_bytes _ _ O'), El.
  cbn [segs_bytes foldr]. fold (segs_bytes r). destruct (seg_is_last s1).
  - destruct Hl as [_ ->]. lia.
  - destruct Hl as (_ & s2 & -> & _ & _ & Hs2 & _). cbn [segs_bytes foldr]. fold (segs_bytes r). lia.
Qed.

Lemma grant_bytes snl tx rx q buffer now n tx' buf :
  link_ok snl tx rx q -> trace rx = [] -> Forall is_byte buffer -> (snl = 12 -> length buffer <> 2%nat) ->
  nr_rlc_entity_um_generate_pdu tx buffer (Z.of_nat (length buffer)) now = Done (n, tx', buf) ->
  tx_size tx' <= tx_size tx /\ (q <> [] -> 5 <= Z.of_nat (length buffer) -> n <> 0 /\ tx_size tx' < tx_size tx).
Proof.
  intros L T HB H2 E. rewrite <- (link_pending _ _ _ _ T L). unfold pending.
  destruct (no_room tx (Z.of_nat (length buffer))) eqn:Er.
  - rewrite (generate_no_room _ _ _ _ Er) in E. injection E as <- <- <-. split; [lia|]. revert Er. unfold no_room.
    destruct (tx_list tx) as [|s r]; [done|]. intros Er _ H5. pose proof (header_size_bounds tx s). zbool. lia.
  - destruct (tx_list tx) as [|s r] eqn:El; [unfold no_room in Er; by rewrite El in Er|].
    destruct (generate_ok 0 tx s r buffer (Z.of_nat (length buffer)) now)
      as (n1 & tx1 & buf1 & E1 & Hb & Hg); try done; [apply L| |].
    { destruct L as [_ [-> _] _ _ _]. intros E0 E2. apply (H2 E0). lia. }
    rewrite E in E1. injection E1 as <- <- <-.
    pose proof (grant_progress 0 tx s r _ _ _ _ (lk_tx _ _ _ _ L) El Hg) as Hp.
    destruct (grant_length _ _ _ _ _ _ _ _ buf Hg eq_refl) as [Hn _]; [by rewrite Hb|]. lia.
Qed.

Lemma link_grant snl st sr it ir d lc cu q w buffer now :
  rlc_link snl st sr it ir d lc cu q w -> Forall is_byte buffer -> (snl = 12 -> length buffer <> 2%nat) ->
  exists n buf st', mac_rlc_data_req st it lc (Z.of_nat (length buffer)) buffer now = Done (n, buf, [], st') /\
    same_node st st' /\
    exists w', w' <= w /\ (q <> [] -> 5 <= Z.of_nat (length buffer) -> n <> 0 /\ w' < w) /\
    (n = 0 -> rlc_link snl st' sr it ir d lc cu q w') /\
    (n <> 0 -> exists dl q' sr',
       mac_rlc_data_ind sr ir 0 false lc (take (Z.to_nat n) buf) n =
         Done (PdcpDataInd (ctxt_init (r_enb sr) cu) false d <$> dl, sr') /\
       same_node sr sr' /\ q = dl ++ q' /\ rlc_link snl st' sr' it ir d lc cu q' w').
Proof.
  intros [(tx & rx & Ut & Ur & Q & T & M & L & W) P] HB H2.
  apply (link_tx_time _ _ _ _ (r_time st)) in L. set (tx1 := tx <| t_current := r_time st |>) in *.
  destruct (link_step_ok _ _ _ _ (Grant buffer now) L) as (tx2 & rx2 & q2 & E & L2); [done|].
  cbn [link_step] in E. apply outcome_bind_done in E as ([[n tx2'] buf] & E & Eq).
  destruct (mac_rlc_data_req_um st it d lc tx buffer now n tx2' buf Ut Q E) as (st' & Er & Ut' & N & Q2).
  assert (M2 : tx_maxsize tx2' = RLC_TX_MAXSIZE).
  { destruct (generate_rx_side tx1 buffer _ now n tx2' buf (uq_avg _ Q) E) as (_ & _ & -> & _). done. }
  destruct (grant_bytes snl tx1 rx q buffer now n tx2' buf L T HB H2 E) as [W1 W2].
  change (tx_size tx1) with (tx_size tx) in W1, W2. rewrite W in W1, W2.
  exists n, buf, st'. split; [done|]. split; [done|]. exists (tx_size tx2'). split_and!; try done.
  - intros ->. injection Eq as <- <- <-. split; [|done]. by exists tx2', rx.
  - intros Hn. destruct (link_step_ok _ _ _ _ (Tick (r_time sr)) L) as (tx3 & rx1 & q3 & E3 & L3); [done|].
    cbn [link_step] in E3. apply outcome_bind_done in E3 as (rx1' & E3 & Eq3). injection Eq3 as <- -> <-.
    destruct (link_step_ok _ _ _ _ (Grant buffer now) L3) as (tx4 & rx4 & q4 & E4 & L4); [done|].
    cbn [link_step] in E4. rewrite E in E4. cbn [mbind outcome_bind] in E4.
    rewrite (proj2 (Z.eqb_neq _ _) Hn) in E4. apply outcome_bind_done in E4 as (rx4' & E4 & Eq4).
    injection Eq4 as <- -> <-. destruct (link_handed _ _ _ _ L4) as [L5 (dl & Td & Eq5)].
    destruct (mac_rlc_data_ind_um sr ir d lc rx _ n rx1 rx4 dl cu Ur E3 E4 Td P) as (sr' & Ei & Ur' & N').
    exists dl, (pending tx2'), sr'. split_and!; try done. split; [|by eapply same_side].
    exists tx2', (rx4 <| trace := [] |>). done.
Qed.

Lemma link_ticks snl st sr it ir d lc cu q w f g :
  rlc_link snl st sr it ir d lc cu q w ->
  rlc_link snl (nr_rlc_tick st f g) sr it ir d lc cu q w /\ rlc_link snl st (nr_rlc_tick sr f g) it ir d lc cu q w.
Proof.
  intros [(tx & rx & Ut & Ur & R) P]. split; split; try done.
  - exists tx, rx. split_and!; try apply R; [|done]. by apply tick_um.
  - exists tx, rx. split_and!; try apply R; [done|]. by apply tick_um.
  - unfold nr_rlc_tick, advance_time, pdcp_side. by cif.
Qed.
