(* ===== verification/BearerPdcp.v ===== *)
(** A DRB through the interface of the PDCP layer, with SDAP above: what
    [sdap_data_req] sends down and what [do_pdcp_data_ind] hands up is what the
    entity of the bearer does. *)

From S2P Require Import Prelude PdcpSec Pdcp PdcpRx PdcpLink L2Common F1Ids ThreadQueue Sdap PdcpApi.

(** ** The entity of a bearer *)

Record pdcp_at (p : pdcp_state) (id d : Z) (e : nr_pdcp_entity_t) : Prop := {
  pa_depth : 0 <= p_depth p;
  pa_rb : nr_pdcp_get_rb (ue_view (p_ues p) id) d false = Done (Some (Drb (d - 1), e))
}.

(** Only the contexts change. *)
Definition same_pdcp (p p' : pdcp_state) : Prop := exists l, p' = p <| p_ues := l |>.

Lemma view_key (l : list nr_pdcp_ue_t) id : ue_id (ue_view l id) = id.
Proof. destruct (manager_get_ue l id) as [i l1] eqn:Em. by destruct (get_ue_ok _ _ _ _ Em) as (_ & ? & _). Qed.

Lemma with_ue_run {R} (l : list nr_pdcp_ue_t) id (f : nr_pdcp_ue_t -> outcome (R * nr_pdcp_ue_t)) r u :
  f (ue_view l id) = Done (r, u) -> ue_id u = id ->
  exists l', with_ue l id f = Done (r, l') /\ ue_view l' id = u.
Proof.
  intros E K. destruct (with_ue_done l id f _ _ E) as [l' W]. exists l'. split; [done|]. destruct (with_ue_inv _ _ _ _ _ W) as (v & Ev & Hv).
  rewrite E in Ev. injection Ev as <-. by apply Hv.
Qed.

Lemma lookup_at p id d e : pdcp_at p id d e ->
  exists p', lookup_rb p id d false = Done (Some (Drb (d - 1), e), p') /\ pdcp_at p' id d e /\ same_pdcp p p'.
Proof.
  intros [D E]. unfold lookup_rb.
  destruct (with_ue_run (p_ues p) id (fun ue => x ← nr_pdcp_get_rb ue d false; Done (x, ue))
    (Some (Drb (d - 1), e)) (ue_view (p_ues p) id)) as (l & W & V).
  - by rewrite E.
  - apply view_key.
  - rewrite W. cbn [mbind outcome_bind]. eexists. split; [reflexivity|]. split; [|by eexists].
    split; [done|]. change (p_ues _) with l. by rewrite V.
Qed.

Lemma slot_store ue d e e' :
  nr_pdcp_get_rb ue d false = Done (Some (Drb (d - 1), e)) ->
  exists ue', slot_set ue (Drb (d - 1)) (Some e') = Done ue' /\ ue_id ue' = ue_id ue /\
    nr_pdcp_get_rb ue' d false = Done (Some (Drb (d - 1), e')).
Proof.
  unfold nr_pdcp_get_rb. cif; [done|]. unfold at_slot. intros Hx. apply outcome_bind_done in Hx as (x & Hx & Hd).
  destruct x as [x|]; [|done]. cbn [slot_get] in Hx. apply rd_inv in Hx as [H0 Hx].
  pose proof (lookup_lt_Some _ _ _ Hx). cbn [slot_set]. rewrite wr_done by lia. cbn [mbind outcome_bind].
  eexists. split; [reflexivity|]. split; [done|]. cbn [slot_get]. simpl.
  rewrite (rd_done _ _ (Some e')); [done|lia|by apply list_lookup_insert_eq].
Qed.

Lemma store_at p id d e e' : pdcp_at p id d e ->
  exists p', store_rb p id (Drb (d - 1)) (Some e') = Done p' /\ pdcp_at p' id d e' /\ same_pdcp p p'.
Proof.
  intros [D E]. destruct (slot_store _ _ _ e' E) as (ue' & Es & K & E'). unfold store_rb.
  destruct (with_ue_run (p_ues p) id (fun ue => ue ← slot_set ue (Drb (d - 1)) (Some e'); Done (tt, ue)) tt ue')
    as (l & W & V).
  - by rewrite Es.
  - rewrite K. apply view_key.
  - rewrite W. cbn [mbind outcome_bind]. eexists. split; [reflexivity|]. split; [|by eexists].
    split; [done|]. change (p_ues _) with l. by rewrite V.
Qed.

Lemma lock_at p id d e : pdcp_at p id d e -> pdcp_at (nr_pdcp_manager_lock p) id d e.
Proof. intros []. split; [simpl; lia|done]. Qed.

Section Bearer.
Context `{CL : CryptoLaws}.

(** ** Transmission *)

(** What the callback of the bearer needs: on a gNB, that PDCP and RLC are in one
    node, which knows the UE [id] as [rid]. *)
Definition rlc_side (p : pdcp_state) (gnb : bool) (id rid : Z) : Prop :=
  if gnb then p_is_cu p = false /\ p_cu2du p !! id = Some (mk_f1_ue_data rid) else rid = id.

Definition rlc_item (gnb : bool) (rid d mui : Z) (pdu : list Z) : rlc_data_req_queue_item :=
  mk_rlc_item (ctxt_init gnb rid) false false d mui 0 (Z.of_nat (length pdu)) pdu.

Lemma data_req_at p id d t ctxt mui sdu rid :
  pdcp_at p id d t -> pdcp_cfg t -> entity_suspended t = false -> 0 <= tx_next t < 2 ^ 31 ->
  (tx_sdap t < length sdu)%nat -> ctxt = ctxt_init (enb_flag ctxt) id -> rlc_side p (Pdcp.is_gnb t) id rid ->
  let pdu := pdu_of t (tx_sdap t) sdu (tx_next t) (tx_dir t) in
  exists p' st l, pdcp_data_req p ctxt d mui sdu = Done (true, p') /\
    pdcp_at p' id d (t <| tx_next := tx_next t + 1 |> <| stats := st |>) /\
    p' = p <| p_ues := l |> <| p_out ::= fun o => o ++ [RlcDataReq (rlc_item (Pdcp.is_gnb t) rid d mui pdu)] |>.
Proof.
  intros A Cf Su Hn Hs -> Hr pdu. unfold pdcp_data_req, pdcp_service, nr_pdcp_data_req_drb.
  cbn [module_id instance eNB_index rntiMaybeUEid ctxt_init negb Z.eqb orb]. cbv zeta.
  destruct (lookup_at _ _ _ _ (lock_at _ _ _ _ A)) as (p1 & -> & A1 & (l1 & E1)). cbn [mbind outcome_bind].
  unfold process_rb. set (buf := replicate _ 0).
  assert (Hb : nr_max_pdcp_pdu_size (Z.of_nat (length sdu)) = Z.of_nat (length buf)).
  { unfold buf. rewrite length_replicate. unfold nr_max_pdcp_pdu_size, LONG_PDCP_HEADER_SIZE, PDCP_INTEGRITY_SIZE. lia. }
  rewrite Hb. destruct (process_sdu_ok t sdu buf Cf Su Hn Hs ltac:(lia)) as (st & rest & ->).
  cbn [mbind outcome_bind]. fold pdu.
  destruct (store_at _ _ _ _ (t <| tx_next := tx_next t + 1 |> <| stats := st |>) A1) as (p2 & -> & A2 & (l2 & E2)).
  cbn [mbind outcome_bind]. unfold nr_pdcp_manager_unlock.
  assert (Ed : p_depth p2 = 1 + p_depth p) by (by rewrite E2, E1). pose proof (pa_depth _ _ _ _ A).
  rewrite (proj2 (Z.leb_gt _ _)) by lia. cbn [mbind outcome_bind]. rewrite (proj2 (Z.eqb_neq _ (-1))) by lia.
  set (p3 := p2 <| p_depth ::= _ |>).
  assert (E3 : p3 = p <| p_ues := l2 |>).
  { unfold p3. rewrite E2, E1. destruct p. cbn. unfold upd. cbn. f_equal. lia. }
  assert (A3 : pdcp_at p3 id d (t <| tx_next := tx_next t + 1 |> <| stats := st |>)).
  { split; [unfold p3; simpl; lia|]. apply (pa_rb _ _ _ _ A2). }
  clearbody p3. subst p3. unfold deliver_pdu_drb_gnb, deliver_pdu_drb_ue.
  unfold rlc_side in Hr. destruct (Pdcp.is_gnb t).
  - destruct Hr as [Hc Hf]. unfold cu_get_f1_ue_data, get_f1_ue_data. change (p_cu2du (p <| p_ues := l2 |>)) with (p_cu2du p).
    change (p_is_cu (p <| p_ues := l2 |>)) with (p_is_cu p). rewrite Hf. cbn [mbind outcome_bind]. rewrite slice_head by done.
    cbn [mbind outcome_bind]. rewrite Hc. cbn [mbind outcome_bind]. eexists _, st, l2. split; [reflexivity|].
    split; [|done]. destruct A3. by split.
  - subst rid. rewrite slice_head by done. cbn [mbind outcome_bind]. eexists _, st, l2. split; [reflexivity|].
    split; [|done]. destruct A3. by split.
Qed.
End Bearer.

(** The QoS flow [qfi] of the session has a rule for the DRB [d], with a header or not. *)
Definition rule_at (l : list nr_sdap_entity_t) (id session qfi d : Z) (hdr : bool) : Prop :=
  exists i e r, nr_sdap_get_entity l id session = Some i /\ l !! i = Some e /\
    rd (qfi2drb_table e) qfi = Done r /\ drb_id r = d /\ has_sdap_tx r = hdr.

Definition session_at (l : list nr_sdap_entity_t) (id session : Z) : Prop :=
  is_Some (nr_sdap_get_entity l id session).

Lemma sdap_req_at l id session qfi d hdr enb mui packet rqi rb p (ret : bool) p' {C : Crypto} :
  rule_at l id session qfi d hdr -> d <> 0 -> 0 < Z.of_nat (length packet) <= 8999 ->
  pdcp_data_req p (ctxt_init enb id) d mui (sdap_pdu hdr enb qfi rqi packet) = Done (ret, p') ->
  sdap_data_req l (ctxt_init enb id) id rb mui (Z.of_nat (length packet)) (Some packet) qfi rqi session p =
  Done (ret, l, p').
Proof.
  intros (i & e & r & Ei & El & Er & Hd & Ht) Hd0 Hl E. unfold sdap_data_req. rewrite Ei, El.
  rewrite (sdap_tx_ok e _ rb mui packet qfi rqi r) by (done || by rewrite Hd). rewrite Hd, Ht.
  change (enb_flag (ctxt_init enb id)) with enb. rewrite E. cbn [mbind outcome_bind].
  by rewrite list_insert_id.
Qed.

Lemma hdr_is_byte q a b : is_byte (hdr_byte q a b).
Proof.
  unfold hdr_byte, is_byte.
  assert (B : forall x n, 0 <= n -> 0 <= Z.land x (Z.ones n) < 2 ^ n)
    by (intros x n Hn; rewrite Z.land_ones by done; apply Z.mod_pos_bound; lia).
  assert (S : forall x k, 0 <= k <= 7 -> 0 <= Z.shiftl (Z.land x 1) k < 2 ^ 8).
  { intros x k Hk. rewrite Z.shiftl_mul_pow2 by lia. pose proof (B x 1 ltac:(lia)) as Hx.
    change (Z.ones 1) with 1 in Hx. change (2 ^ 1) with 2 in Hx.
    pose proof (Z.pow_le_mono_r 2 k 7 ltac:(lia) ltac:(lia)). change (2 ^ 7) with 128 in *.
    assert (0 < 2 ^ k) by (apply Z.pow_pos_nonneg; lia). nia. }
  pose proof (B q 6 ltac:(lia)) as Hq. change (Z.ones 6) with 63 in Hq. change (2 ^ 6) with 64 in Hq.
  change 256 with (2 ^ 8). apply lor_range; [lia|lia|]. apply lor_range; [lia| |]; apply S; lia.
Qed.

Lemma sdap_pdu_bytes hdr enb qfi rqi sdu : Forall is_byte sdu -> Forall is_byte (sdap_pdu hdr enb qfi rqi sdu).
Proof. unfold sdap_pdu. destruct hdr; [|done]. constructor; [|done]. destruct enb; apply hdr_is_byte. Qed.

Lemma sdap_pdu_length hdr enb qfi rqi sdu :
  length (sdap_pdu hdr enb qfi rqi sdu) = ((if hdr then 1 else 0) + length sdu)%nat.
Proof. unfold sdap_pdu. by destruct hdr. Qed.

(** ** Reception *)

Lemma deliver_from_session : forall l e c,
  Pdcp.pdusession_id (deliver_from l e c).1 = Pdcp.pdusession_id e.
Proof. induction l as [|x l IH]; intros e c; simpl; [done|]. cif; [|done]. by rewrite IH. Qed.

Lemma store_sdu_session e s stored : Pdcp.pdusession_id (store_sdu e s stored) = Pdcp.pdusession_id e.
Proof.
  unfold store_sdu. cbv zeta. set (e1 := if _ >=? _ then _ else _).
  assert (H1 : Pdcp.pdusession_id e1 = Pdcp.pdusession_id e) by (unfold e1; by cif). clearbody e1.
  set (e2 := if _ =? rx_deliv e1 then _ else _).
  assert (H2 : Pdcp.pdusession_id e2 = Pdcp.pdusession_id e).
  { unfold e2. cif; [|done]. pose proof (deliver_from_session (rx_list e1) e1 (rx_deliv e1)) as H3.
    destruct (deliver_from _ _ _) as [e3 c]. simpl in *. congruence. }
  clearbody e2. clear H1. repeat cif; done.
Qed.

(** The PDU that the entity expects next arrives: its SDU is delivered at once. *)
Lemma recv_next `{CL : CryptoLaws} r sdu :
  pdcp_cfg r -> entity_suspended r = false -> rx_inv r -> rx_list r = [] -> delivered r = [] ->
  rx_deliv r < 2 ^ 31 -> (rx_sdap r < length sdu)%nat -> Forall is_byte sdu ->
  let pdu := pdu_of r (rx_sdap r) sdu (rx_deliv r) (rx_dir r) in
  exists r' s, nr_pdcp_entity_recv_pdu r pdu (Z.of_nat (length pdu)) = Done r' /\
    delivered r' = [s] /\ sdu_buffer s = sdu /\ sdu_size s = Z.of_nat (length sdu) /\
    rx_list r' = [] /\ rx_deliv r' = rx_deliv r + 1 /\ rx_inv r' /\ same_cfg r r' /\
    Pdcp.pdusession_id r' = Pdcp.pdusession_id r.
Proof.
  intros Cf Su I El Ed Hm Hs HB pdu. pose proof (ri_deliv _ I) as Hd.
  assert (Hw : 0 < window_size r).
  { rewrite (pc_window _ Cf). destruct (pc_size _ Cf) as [-> | ->]; lia. }
  destruct (recv_pdu_ok r sdu (rx_deliv r)) as (st & mi & E); try done; try lia.
  fold pdu in E. rewrite El, Z.ltb_irrefl in E. cbn [nr_pdcp_sdu_in_list orb] in E.
  set (s := mk_pdcp_sdu (rx_deliv r) sdu (Z.of_nat (length sdu)) mi) in *.
  set (r1 := r <| stats := st |>) in *. set (stored := _ + integrity_size_of r) in *.
  assert (I1 : rx_inv r1) by (by destruct I).
  assert (M1 : head_missing r1) by (unfold head_missing; by rewrite (El : rx_list r1 = [])).
  destruct (store_sdu_effect r1 s stored I1 M1) as (l1 & l2 & Ea & Edl & Er & Edv & Hc & Hh); [done|].
  change (rx_list r1) with (rx_list r) in Ea. rewrite El in Ea. change (delivered r1) with (delivered r) in Edl.
  rewrite Ed in Edl. change (rx_deliv r1) with (rx_deliv r) in Edv.
  assert (l1 = [s] /\ l2 = []) as [-> ->].
  { cbn in Ea. destruct l1 as [|x l1]; simpl in Ea.
    - subst l2. unfold head_missing in Hh. rewrite Er in Hh. rewrite Edv in Hh. simpl in Hh.
      rewrite Z.add_0_r, u32_id in Hh by lia. done.
    - injection Ea as <- Ea. symmetry in Ea. by apply app_eq_nil in Ea as [-> ->]. }
  simpl in Edv. rewrite u32_id in Edv by lia.
  exists (store_sdu r1 s stored), s. split_and!; try done.
  - apply store_sdu_inv; try done.
    + change (rx_deliv r1) with (rx_deliv r). simpl. lia.
    + change (rx_list r1) with (rx_list r). by rewrite El.
    + rewrite Edl. constructor; [simpl; lia|constructor].
  - eapply (same_cfg_trans _ r1); [by split|]. apply store_sdu_cfg.
  - by rewrite store_sdu_session.
Qed.

Lemma ind_event (tun gnb : bool) l k d id session hdr qfi rqi packet p {C : Crypto} :
  session_at l id session -> (gnb = true -> tun = false) ->
  let pdu := sdap_pdu hdr (negb gnb) qfi rqi packet in
  sdap_data_ind l (if tun then k else d) (if tun then false else gnb) hdr session id pdu
    (Z.of_nat (length pdu)) p =
  Done (l, p, [if gnb then ToGtp id session packet else ToTun packet]).
Proof.
  intros [i Ei] Ht pdu. unfold sdap_data_ind. rewrite Ei.
  destruct (get_entity_some _ _ _ _ Ei) as (e & El & _). rewrite El.
  replace (if tun then false else gnb) with (negb (negb gnb)) by (destruct gnb; [by rewrite Ht|by destruct tun]).
  unfold pdu. rewrite sdap_rx_ok. cbn [mbind outcome_bind]. rewrite list_insert_id by done. by destruct gnb.
Qed.

Section Up.
Context `{CL : CryptoLaws}.

(** The gNB or UE that receives on the bearer [d]: the peer of [r0], which has
    received [n] PDUs and holds none. *)
Record pdcp_rx_at (s : layer2) (id d : Z) (r0 : nr_pdcp_entity_t) (session : Z) (n : Z) : Prop := {
  rx_ent : exists r, pdcp_at (pd s) id d r /\ same_cfg r0 r /\ Pdcp.pdusession_id r = session /\
    rx_inv r /\ rx_list r = [] /\ delivered r = [] /\ rx_deliv r = n;
  rx_tun : Pdcp.is_gnb r0 = true -> p_tun (pd s) = false;
  rx_sdap_at : session_at (sd s) id session
}.

Lemma clear_delivered r : rx_inv r -> rx_inv (r <| delivered := [] |>).
Proof. intros []. split; try done. split; [constructor|constructor]. Qed.

Lemma data_ind_at s id d r0 session n b qfi rqi packet :
  pdcp_rx_at s id d r0 session n -> pdcp_cfg r0 -> entity_suspended r0 = false -> 0 <= n < 2 ^ 31 ->
  packet <> [] -> Forall is_byte packet ->
  let sdu := sdap_pdu (Pdcp.has_sdap_rx r0) (negb (Pdcp.is_gnb r0)) qfi rqi packet in
  let pdu := pdu_of r0 (rx_sdap r0) sdu n (rx_dir r0) in
  exists s', do_pdcp_data_ind s (ctxt_init b id) false d (Z.of_nat (length pdu)) pdu = Done s' /\
    pdcp_rx_at s' id d r0 session (n + 1) /\
    up s' = up s ++ [if Pdcp.is_gnb r0 then ToGtp id session packet else ToTun packet].
Proof.
  intros [(r & A & Cf & Es & I & El & Ed & En) Ht Hse] C0 Su0 Hn Hp HB sdu pdu.
  pose proof (same_cfg_cfg _ _ Cf C0) as C1.
  assert (Hsd : rx_sdap r = rx_sdap r0) by (unfold rx_sdap; by rewrite (sc_sdap _ _ Cf)).
  assert (Ep : pdu = pdu_of r (rx_sdap r) sdu (rx_deliv r) (rx_dir r)).
  { unfold pdu. rewrite (same_cfg_pdu r0 r), Hsd, En by done. unfold rx_dir. by rewrite (sc_gnb _ _ Cf). }
  destruct (recv_next r sdu) as (r' & x & Er & Edl & Eb & Esz & El' & En' & I' & Cf' & Es'); try done.
  - by rewrite (sc_suspended _ _ Cf).
  - lia.
  - rewrite Hsd. unfold sdu. rewrite sdap_pdu_length. unfold rx_sdap. destruct packet; [done|].
    destruct (Pdcp.has_sdap_rx r0); simpl; lia.
  - by apply sdap_pdu_bytes.
  - unfold do_pdcp_data_ind. cbn [module_id instance eNB_index rntiMaybeUEid brOption ctxt_init negb Z.eqb orb].
    cbv zeta. destruct (lookup_at _ _ _ _ (lock_at _ _ _ _ A)) as (p1 & -> & A1 & (l1 & E1)).
    cbn [mbind outcome_bind]. rewrite Ep, Er. cbn [mbind outcome_bind]. unfold finish_rb.
    change (pd (s <| pd := p1 |>)) with p1.
    destruct (store_at _ _ _ _ (r' <| delivered := [] |>) A1) as (p2 & -> & A2 & (l2 & E2)).
    cbn [mbind outcome_bind]. rewrite Edl. cbn [deliver_sdus deliver_sdu].
    assert (Et : p_tun p2 = p_tun (pd s)) by (by rewrite E2, E1).
    assert (Edp : p_depth p2 = 1 + p_depth (pd s)) by (by rewrite E2, E1).
    unfold deliver_sdu_drb. change (pd (s <| pd := p1 |> <| pd := p2 |>)) with p2.
    change (sd (s <| pd := p1 |> <| pd := p2 |>)) with (sd s).
    change (up (s <| pd := p1 |> <| pd := p2 |>)) with (up s).
    rewrite Eb, Esz, Es', Es, (sc_gnb _ _ Cf'), (sc_gnb _ _ Cf), (sc_sdap _ _ Cf'), (sc_sdap _ _ Cf), Et.
    pose proof (fun k => ind_event (p_tun (pd s)) (Pdcp.is_gnb r0) (sd s) k (d - 1 + 1) id session
      (Pdcp.has_sdap_rx r0) qfi rqi packet p2 Hse Ht) as Hev. cbv zeta in Hev. fold sdu in Hev.
    specialize (Hev (Pdcp.rb_id r')).
    match goal with |- context [(if p_tun (pd s) then ?a else ?b)] =>
      assert (Hx : (if p_tun (pd s) then a else b) =
        Done (sd s, p2, [if Pdcp.is_gnb r0 then ToGtp id session packet else ToTun packet]))
        by (destruct (p_tun (pd s)); exact Hev); rewrite Hx end.
    cbn [mbind outcome_bind]. unfold unlock_layer. cbn [pd]. unfold nr_pdcp_manager_unlock.
    pose proof (pa_depth _ _ _ _ A). rewrite (proj2 (Z.leb_gt _ _)) by lia. cbn [mbind outcome_bind].
    eexists. split; [reflexivity|]. split; [|done]. split.
    + exists (r' <| delivered := [] |>). split_and!; try done.
      * split; [simpl; lia|]. apply (pa_rb _ _ _ _ A2).
      * eapply same_cfg_trans; [exact Cf|]. by destruct Cf'.
      * simpl. congruence.
      * by apply clear_delivered.
      * simpl. lia.
    + simpl. by rewrite Et.
    + done.
Qed.
End Up.
