(* ===== verification/PdcpBearers.v ===== *)
(** The contexts of the PDCP layer stay well formed, whatever SDAP, RLC and RRC
    call; the timer thread reaches every bearer. *)

From S2P Require Import Prelude PdcpSec Pdcp PdcpRx PdcpLink L2Common F1Ids ThreadQueue Sdap PdcpApi BearerPdcp.

(** ** Entities *)

(** What no operation on an entity changes. *)
Record same_rb (e e' : nr_pdcp_entity_t) : Prop := {
  sr_type : type e' = type e;
  sr_rb : Pdcp.rb_id e' = Pdcp.rb_id e;
  sr_gnb : Pdcp.is_gnb e' = Pdcp.is_gnb e;
  sr_session : Pdcp.pdusession_id e' = Pdcp.pdusession_id e;
  sr_sdap : Pdcp.has_sdap_rx e' = Pdcp.has_sdap_rx e /\ Pdcp.has_sdap_tx e' = Pdcp.has_sdap_tx e;
  sr_max : sn_max e' = sn_max e;
  sr_window : window_size e' = window_size e
}.

(** A security context exists when its function is called. *)
Definition sec_wf (e : nr_pdcp_entity_t) : Prop :=
  (has_ciphering e = true -> cipher_ctx e = true) /\ (has_integrity e = true -> is_Some (integrity_ctx e)).

Record ent_wf (e : nr_pdcp_entity_t) : Prop := {
  ew_size : sn_size e = 12 \/ sn_size e = 18;
  ew_window : exists n, (n = 12 \/ n = 18) /\ sn_max e = Z.ones n /\ window_size e = 2 ^ (n - 1);
  ew_sec : sec_wf e;
  ew_tx : 0 <= tx_next e < 2 ^ 32;
  ew_rx : rx_range e
}.

(** An operation keeps an entity well formed. *)
Definition keeps (e e' : nr_pdcp_entity_t) : Prop := same_rb e e' /\ (ent_wf e -> ent_wf e').

Lemma keeps_refl e : keeps e e.
Proof. by split. Qed.
Lemma keeps_trans e1 e2 e3 : keeps e1 e2 -> keeps e2 e3 -> keeps e1 e3.
Proof. intros [[? ? ? ? [? ?] ? ?] HA] [[? ? ? ? [? ?] ? ?] HB]. split; [split; try split; congruence|auto]. Qed.

(** Operations that only touch other fields. *)
Ltac keeps_fields := split; [by split|intros [? ? ? ? ?]; by split].

Lemma deliver_list_keeps : forall l e, keeps e (deliver_list l e).
Proof.
  induction l as [|x l IH]; intros e; cbn [deliver_list]; [apply keeps_refl|].
  eapply keeps_trans; [|apply IH]. keeps_fields.
Qed.

Lemma deliver_from_keeps : forall l e c, keeps e (deliver_from l e c).1.
Proof.
  induction l as [|x l IH]; intros e c; cbn [deliver_from]; [apply keeps_refl|].
  cif; [|apply keeps_refl]. eapply keeps_trans; [|apply IH]. keeps_fields.
Qed.

Lemma deliver_below_keeps reord : forall l e, keeps e (deliver_below l e reord).
Proof.
  induction l as [|x l IH]; intros e; cbn [deliver_below]; [apply keeps_refl|].
  cif; [|apply keeps_refl]. eapply keeps_trans; [|apply IH]. keeps_fields.
Qed.

Lemma same_cfg_sec e e' : same_cfg e e' -> sec_wf e -> sec_wf e'.
Proof.
  intros S [H1 H2]. split.
  - rewrite (sc_hc _ _ S), (sc_cipher _ _ S). exact H1.
  - rewrite (sc_hi _ _ S), (sc_integrity _ _ S). exact H2.
Qed.

(** Reception and the timer keep the configuration; the receive variables keep
    their range. *)
Lemma deliver_from_tx : forall l e c,
  tx_next (deliver_from l e c).1 = tx_next e /\ Pdcp.has_sdap_tx (deliver_from l e c).1 = Pdcp.has_sdap_tx e /\
  t_current (deliver_from l e c).1 = t_current e.
Proof.
  induction l as [|x l IH]; intros e c; cbn [deliver_from]; [done|]. cif; [|done].
  by destruct (IH (deliver_head e x l) (u32 (c + 1))) as (-> & -> & ->).
Qed.

Lemma store_sdu_tx e s stored :
  tx_next (store_sdu e s stored) = tx_next e /\ Pdcp.has_sdap_tx (store_sdu e s stored) = Pdcp.has_sdap_tx e /\
  t_current (store_sdu e s stored) = t_current e.
Proof.
  unfold store_sdu. cbv zeta. set (e1 := if _ >=? _ then _ else _).
  assert (H1 : tx_next e1 = tx_next e /\ Pdcp.has_sdap_tx e1 = Pdcp.has_sdap_tx e /\ t_current e1 = t_current e)
    by (unfold e1; by cif).
  clearbody e1. set (e2 := if _ =? rx_deliv e1 then _ else _).
  assert (H2 : tx_next e2 = tx_next e /\ Pdcp.has_sdap_tx e2 = Pdcp.has_sdap_tx e /\ t_current e2 = t_current e).
  { unfold e2. cif; [|done]. pose proof (deliver_from_tx (rx_list e1) e1 (rx_deliv e1)) as D.
    destruct (deliver_from _ _ _) as [e3 c]. simpl in *. destruct D as (-> & -> & ->). done. }
  clearbody e2. clear H1. repeat cif; done.
Qed.

Lemma store_sdu_keeps e s stored : keeps e (store_sdu e s stored).
Proof.
  pose proof (store_sdu_cfg e s stored) as S. pose proof (store_sdu_tx e s stored) as (T1 & T2 & _).
  split; [pose proof S as []; split; try done; apply store_sdu_session|].
  intros [W1 W2 W3 W4 W5]. split.
  - by rewrite (sc_size _ _ S).
  - by rewrite (sc_max _ _ S), (sc_window _ _ S).
  - by eapply same_cfg_sec.
  - by rewrite T1.
  - by apply store_sdu_grows.
Qed.

Section Entities.
Context `{Crypto}.

Lemma recv_pdu_keeps e buf size e' :
  Forall is_byte buf -> nr_pdcp_entity_recv_pdu e buf size = Done e' -> keeps e e' /\ t_current e' = t_current e.
Proof.
  intros HB Hr. apply recv_pdu_cases in Hr as (st & [-> |(s & stored & -> & _)]); [| |done].
  - split; [keeps_fields|done].
  - split; [|by destruct (store_sdu_tx (e <| stats := st |>) s stored) as (_ & _ & ->)].
    eapply keeps_trans; [|apply store_sdu_keeps]. keeps_fields.
Qed.

Lemma process_sdu_keeps e buf size pdu_buf max n e' b' :
  nr_pdcp_entity_process_sdu e buf size pdu_buf max = Done (n, e', b') ->
  keeps e e' /\ t_current e' = t_current e /\ delivered e' = delivered e.
Proof.
  unfold nr_pdcp_entity_process_sdu. cif; [done|]. cif; [intros [= <- <- <-]; split; [apply keeps_refl|done]|].
  cbv zeta. intros Hd. apply outcome_bind_done in Hd as (b1 & _ & Hd). apply outcome_bind_done in Hd as (d & _ & Hd).
  apply outcome_bind_done in Hd as (b2 & _ & Hd). apply outcome_bind_done in Hd as (b3 & _ & Hd).
  apply outcome_bind_done in Hd as (b4 & _ & Hd). injection Hd as <- <- <-. split; [|done].
  split; [by split|]. intros [W1 W2 W3 W4 W5]. split; try done. simpl. apply u32_range.
Qed.

Lemma set_time_keeps e now : keeps e (nr_pdcp_entity_set_time e now).
Proof.
  unfold nr_pdcp_entity_set_time. eapply (keeps_trans _ (e <| t_current := now |>)); [keeps_fields|].
  set (e0 := e <| t_current := now |>). clearbody e0. clear e.
  assert (K : same_rb e0 (check_t_reordering e0) /\ sn_size (check_t_reordering e0) = sn_size e0 /\
    (sec_wf e0 -> sec_wf (check_t_reordering e0)) /\ tx_next (check_t_reordering e0) = tx_next e0).
  { unfold check_t_reordering. cif; [done|]. cif; [done|]. cbv zeta.
    set (e1 := deliver_below _ _ _).
    assert (K1 : same_rb e0 e1 /\ sn_size e1 = sn_size e0 /\ (sec_wf e0 -> sec_wf e1) /\ tx_next e1 = tx_next e0).
    { unfold e1. destruct (deliver_below_spec (rx_reord (e0 <| t_reordering_start := 0 |>))
        (rx_list (e0 <| t_reordering_start := 0 |>)) (e0 <| t_reordering_start := 0 |>) eq_refl) as (l1 & l2 & _ & Ha & _).
      destruct Ha as (sz & st & ->). by split_and!. }
    clearbody e1. destruct (deliver_from (rx_list e1) e1 (rx_reord e1)) as [e2 c] eqn:E2.
    pose proof (deliver_from_keeps (rx_list e1) e1 (rx_reord e1)) as [S2 _]. pose proof (deliver_from_cfg _ _ _ _ _ E2) as C2.
    rewrite E2 in S2. cbn [fst] in S2.
    assert (T2 : tx_next e2 = tx_next e1).
    { pose proof (deliver_from_tx (rx_list e1) e1 (rx_reord e1)) as [T _]. by rewrite E2 in T. }
    destruct K1 as ([? ? ? ? [? ?] ? ?] & K2 & K3 & K4), S2 as [? ? ? ? [? ?] ? ?].
    assert (K5 : sec_wf e0 -> sec_wf e2) by (intros Hs; eapply same_cfg_sec; [exact C2|by apply K3]).
    pose proof (sc_size _ _ C2). cif; (split_and!; [split; try split; simpl; congruence|simpl; congruence|done|simpl; congruence]). }
  destruct K as (S & K1 & K2 & K3). split; [done|]. intros [W1 W2 W3 W4 W5]. split.
  - by rewrite K1.
  - by rewrite (sr_max _ _ S), (sr_window _ _ S).
  - by apply K2.
  - by rewrite K3.
  - by apply check_t_reordering_grows.
Qed.
End Entities.

Lemma set_time_now e now : t_current (nr_pdcp_entity_set_time e now) = now.
Proof.
  unfold nr_pdcp_entity_set_time, check_t_reordering. cif; [done|]. cif; [done|]. cbv zeta.
  set (e0 := e <| t_current := now |> <| t_reordering_start := 0 |>).
  destruct (deliver_below_spec (rx_reord e0) (rx_list e0) e0 eq_refl) as (l1 & l2 & _ & (sz & st & ->) & _).
  set (e1 := e0 <| delivered := _ |> <| rx_list := _ |> <| rx_size := _ |> <| stats := _ |>).
  pose proof (deliver_from_tx (rx_list e1) e1 (rx_reord e1)) as (_ & _ & T).
  destruct (deliver_from (rx_list e1) e1 (rx_reord e1)) as [e2 c]. cbn [fst] in T. by cif.
Qed.

Lemma suspend_deliver_keeps e : keeps e (suspend_deliver e).
Proof.
  unfold suspend_deliver, deliver_all_sdus.
  assert (K : forall f, keeps e (e <| tx_next := 0 |> <| t_reordering_start := f |>)).
  { intros f. split; [by split|]. intros [? ? ? ? ?]. split; try done. }
  cif.
  - eapply keeps_trans; [|apply deliver_list_keeps]. apply (K 0).
  - apply (K (t_reordering_start e)).
Qed.

Lemma suspend_end_keeps e : keeps e (suspend_end e).
Proof. split; [by split|]. intros [? ? ? ? (? & ? & ?)]. split; try done. Qed.

Lemma set_security_keeps e p e' : nr_pdcp_entity_set_security e p = Done e' ->
  keeps e e' /\ delivered e' = delivered e.
Proof.
  intros Hs. assert (W : sec_wf e -> sec_wf e').
  { intros [H1 H2]. revert Hs. unfold nr_pdcp_entity_set_security. cbv zeta. intros Hs.
    apply outcome_bind_done in Hs as (e1 & E1 & Hs). revert E1 Hs.
    repeat (cif; try discriminate); intros [= <-] [= <-]; split; simpl; try done; eauto. }
  assert (P : Pdcp.pdusession_id e' = Pdcp.pdusession_id e).
  { revert Hs. unfold nr_pdcp_entity_set_security. cbv zeta. intros Hs.
    apply outcome_bind_done in Hs as (e1 & E1 & Hs). revert E1 Hs.
    repeat (cif; try discriminate); by intros [= <-] [= <-]. }
  apply set_security_rx in Hs as (R1 & R2 & R3 & D & _ & _ & T & N & M & Wi & X & _ & G & B & S1 & S2 & _).
  split; [|done]. split; [by split|]. intros [W1 W2 W3 W4 (W5 & W6 & W7)]. split.
  - by rewrite N.
  - by rewrite M, Wi.
  - by apply W.
  - by rewrite X.
  - unfold rx_range. by rewrite R1, R2, R3.
Qed.

Lemma free_list_keeps e : keeps e (free_rx_list e).
Proof.
  assert (K : forall l e, keeps e (count_freed l e)).
  { induction l as [|x l IH]; intros e0; cbn [count_freed]; [apply keeps_refl|].
    eapply keeps_trans; [|apply IH]. keeps_fields. }
  unfold free_rx_list. destruct (K (rx_list e) e) as [S W]. split; [by destruct S|].
  intros O. specialize (W O). by destruct W.
Qed.

Lemma reestablish_keeps e p e' : reestablish_entity e p = Done e' -> keeps e e'.
Proof.
  assert (Fin : forall e1 e2, keeps e e1 -> (e2 ← nr_pdcp_entity_set_security e1 p;
    Done (e2 <| entity_suspended := false |>)) = Done e2 -> keeps e e2).
  { intros e1 e2 K Hd. apply outcome_bind_done in Hd as (e3 & E3 & Hd). injection Hd as <-.
    apply set_security_keeps in E3 as [K3 _]. eapply keeps_trans; [exact K|]. eapply keeps_trans; [exact K3|].
    keeps_fields. }
  assert (Z0 : forall e1, keeps e1 (e1 <| t_reordering_start := 0 |> <| rx_next := 0 |> <| rx_deliv := 0 |>)).
  { intros e1. split; [by split|]. intros [? ? ? ? (? & ? & ?)]. by split. }
  assert (T0 : keeps e (e <| tx_next := 0 |>)) by (split; [by split|]; intros [? ? ? ? ?]; by split).
  unfold reestablish_entity. destruct (type e).
  - unfold nr_pdcp_entity_reestablish_drb_am. apply Fin, keeps_refl.
  - unfold nr_pdcp_entity_reestablish_drb_um. cbv zeta. apply Fin.
    eapply keeps_trans; [|apply Z0]. cif; [|exact T0]. eapply keeps_trans; [exact T0|]. apply deliver_list_keeps.
  - unfold nr_pdcp_entity_reestablish_srb. cbv zeta. apply Fin.
    eapply keeps_trans; [|apply Z0]. eapply keeps_trans; [exact T0|]. apply free_list_keeps.
Qed.

Lemma sn_size_cases v n : decode_sn_size_ul v = Done n \/ decode_sn_size_dl v = Done n -> n = 12 \/ n = 18.
Proof.
  unfold decode_sn_size_ul, decode_sn_size_dl, SHORT_SN_SIZE, LONG_SN_SIZE.
  intros [Hd|Hd]; revert Hd; cif; try (intros [= <-]; auto); cif; try done; intros [= <-]; auto.
Qed.

Lemma reconfigure_keeps c e e' : reconfigure_drb_entity c e = Done e' ->
  keeps e e' /\ delivered e' = delivered e.
Proof.
  assert (N : forall e v n, decode_sn_size_ul v = Done n \/ decode_sn_size_dl v = Done n ->
    keeps e (e <| sn_size := n |>)).
  { intros e0 v n Hn. apply sn_size_cases in Hn. split; [by split|]. intros [? ? ? ? ?]. by split. }
  unfold reconfigure_drb_entity. destruct c as [pc|]; [|intros [= <-]; by split; [apply keeps_refl|]].
  intros Hd. apply outcome_bind_done in Hd as (t & _ & Hd). revert Hd. cbv zeta.
  set (e1 := e <| t_reordering := t |>).
  assert (K1 : keeps e e1 /\ delivered e1 = delivered e) by (split; [keeps_fields|done]). clearbody e1.
  destruct (config_drb pc) as [dc|]; [|by intros [= <-]]. intros Hd.
  apply outcome_bind_done in Hd as (e2 & E2 & Hd). apply outcome_bind_done in Hd as (e3 & E3 & Hd).
  assert (K2 : keeps e e2 /\ delivered e2 = delivered e).
  { revert E2. destruct (discardTimer dc); [|by intros [= <-]]. intros E2.
    apply outcome_bind_done in E2 as (d & _ & E2). injection E2 as <-. destruct K1 as [K1 D1]. split; [|done].
    eapply keeps_trans; [exact K1|]. keeps_fields. }
  assert (K3 : keeps e e3 /\ delivered e3 = delivered e).
  { revert E3. destruct (pdcp_SN_SizeUL dc); [|by intros [= <-]]. intros E3.
    apply outcome_bind_done in E3 as (n & En & E3). injection E3 as <-. destruct K2 as [K2 D2]. split; [|done].
    eapply keeps_trans; [exact K2|]. eapply N. by left. }
  clear E2 E3 K1 K2. destruct K3 as [K3 D3]. destruct (pdcp_SN_SizeDL dc) as [v|]; [|by injection Hd as <-].
  apply outcome_bind_done in Hd as (n & En & Hd).
  assert (K4 : keeps e (e3 <| sn_size := n |>)) by (eapply keeps_trans; [exact K3|]; eapply N; by right).
  revert Hd. destruct (pdcp_SN_SizeUL dc); [cif; [|done]|]; intros [= <-]; done.
Qed.

Lemma new_ent_wf ty gnb rb pdu sr st sn tr dt p e :
  sn = 12 \/ sn = 18 -> new_nr_pdcp_entity ty gnb rb pdu sr st sn tr dt p = Done e ->
  ent_wf e /\ delivered e = [] /\ type e = ty /\ Pdcp.rb_id e = rb.
Proof.
  intros Hs. unfold new_nr_pdcp_entity. intros Hn. apply set_security_keeps in Hn as [[S W] D].
  split; [|split; [done|split; [apply (sr_type _ _ S)|apply (sr_rb _ _ S)]]]. apply W. split; try done.
  exists sn. split; [done|]. by destruct Hs as [-> | ->].
Qed.

(** ** Contexts *)

(** The entity [e] in its place [k]. *)
Definition ent_at (k : rb_slot) (e : nr_pdcp_entity_t) : Prop :=
  match k with
  | Srb i => 0 <= i < 2 /\ type e = NR_PDCP_SRB /\ Pdcp.rb_id e = i + 1
  | Drb i => 0 <= i < 5 /\ type e = NR_PDCP_DRB_AM /\ Pdcp.rb_id e = i + 1
  end /\ ent_wf e /\ delivered e = [].

Record pue_ok (u : nr_pdcp_ue_t) : Prop := {
  pu_srb : length (srb u) = 3%nat;
  pu_drb : length (drb u) = 32%nat;
  pu_ent : forall k e, slot_get u k = Done (Some e) -> ent_at k e
}.

(** The thread holds the mutex [n] times. *)
Record pdcp_inv (n : Z) (p : pdcp_state) : Prop := {
  pi_depth : p_depth p = n;
  pi_ids : ids_ok (p_ues p);
  pi_ues : Forall pue_ok (p_ues p)
}.

Lemma rd_replicate_none {A} n i (x : option A) : rd (replicate n None) i = Done x -> x = None.
Proof. intros Hr. apply rd_inv in Hr as [_ Hr]. by apply lookup_replicate in Hr as [-> _]. Qed.

Lemma calloc_pue_ok id : pue_ok (calloc_pdcp_ue id).
Proof. split; try done. intros [i|i] e He; by apply rd_replicate_none in He. Qed.

Lemma ent_at_keeps k e e' : ent_at k e -> keeps e e' -> delivered e' = [] -> ent_at k e'.
Proof.
  intros (K & W & _) [[T R _ _ _ _ _] Hw] D. split; [|split; [by apply Hw|done]].
  destruct k; by rewrite T, R.
Qed.

Lemma slot_set_ok u k x u' :
  pue_ok u -> (forall e, x = Some e -> ent_at k e) -> slot_set u k x = Done u' ->
  pue_ok u' /\ ue_id u' = ue_id u.
Proof.
  intros [L1 L2 E] Hx Hs. destruct k as [i|i]; cbn [slot_set] in Hs;
    apply outcome_bind_done in Hs as (l & Hw & Hs); injection Hs as <-; apply wr_inv in Hw as [Hi ->].
  - split; [|done]. split; [simpl; by rewrite length_insert|done|]. intros [j|j] e He; [|by apply (E (Drb j))].
    cbn [slot_get] in He. simpl in He. apply rd_inv in He as [Hj He]. destruct (decide (j = i)) as [-> |Hne].
    + rewrite list_lookup_insert_eq in He by lia. injection He as He. by apply Hx.
    + rewrite list_lookup_insert_ne in He by lia. apply (E (Srb j)). by apply rd_done.
  - split; [|done]. split; [done|simpl; by rewrite length_insert|]. intros [j|j] e He; [by apply (E (Srb j))|].
    cbn [slot_get] in He. simpl in He. apply rd_inv in He as [Hj He]. destruct (decide (j = i)) as [-> |Hne].
    + rewrite list_lookup_insert_eq in He by lia. injection He as He. by apply Hx.
    + rewrite list_lookup_insert_ne in He by lia. apply (E (Drb j)). by apply rd_done.
Qed.

Lemma get_rb_slot u rb srb_flag k e :
  nr_pdcp_get_rb u rb srb_flag = Done (Some (k, e)) ->
  slot_get u k = Done (Some e) /\ k = if srb_flag then Srb (rb - 1) else Drb (rb - 1).
Proof.
  unfold nr_pdcp_get_rb, at_slot. destruct srb_flag; (cif; [done|]); intros Hd;
    apply outcome_bind_done in Hd as ([x|] & Hx & Hd); try done; injection Hd as <- <-; done.
Qed.

Lemma view_ok l id : Forall pue_ok l -> pue_ok (ue_view l id).
Proof.
  intros F. unfold ue_view. destruct (find_ue l id) as [i|] eqn:Ei; [|apply calloc_pue_ok].
  destruct (find_ue_some _ _ _ Ei) as (v & Ev & _). simpl. rewrite Ev. simpl.
  eapply Forall_lookup_1; [exact F|exact Ev].
Qed.

(** A change of one context. *)
Lemma ctx_inv {R} n p id (f : nr_pdcp_ue_t -> outcome (R * nr_pdcp_ue_t)) r l :
  pdcp_inv n p -> with_ue (p_ues p) id f = Done (r, l) ->
  (forall u r u', pue_ok u -> f u = Done (r, u') -> pue_ok u' /\ ue_id u' = ue_id u) ->
  pdcp_inv n (p <| p_ues := l |>).
Proof.
  intros [D I F] W Hf. destruct (with_ue_inv _ _ _ _ _ W) as (u & Eu & Hu). split; [done| |].
  - simpl. destruct (Hf _ _ _ (view_ok _ id F) Eu) as [_ K].
    destruct Hu as (_ & Hi & _); [|by apply Hi]. change (ue_id u = id). by rewrite K, view_key.
  - simpl. eapply (with_ue_forall pue_ok); [exact F|apply calloc_pue_ok| |exact W]. intros v r' v' Ov Ev.
    by destruct (Hf _ _ _ Ov Ev).
Qed.

Lemma lookup_inv n p id rb f x p' :
  pdcp_inv n p -> lookup_rb p id rb f = Done (x, p') ->
  pdcp_inv n p' /\ forall k e, x = Some (k, e) -> ent_at k e /\ k = if f then Srb (rb - 1) else Drb (rb - 1).
Proof.
  intros I. unfold lookup_rb. intros Hd. apply outcome_bind_done in Hd as ([y l] & W & Hd). injection Hd as -> <-.
  split.
  - eapply ctx_inv; [exact I|exact W|]. intros u r u' O E. apply outcome_bind_done in E as (z & _ & E).
    by injection E as _ <-.
  - intros k e ->. destruct (with_ue_inv _ _ _ _ _ W) as (u & Eu & _).
    apply outcome_bind_done in Eu as (z & Ez & Eu). injection Eu as -> <-. apply get_rb_slot in Ez as [Es ->].
    split; [|done]. eapply (pu_ent _ (view_ok _ id (pi_ues _ _ I))). exact Es.
Qed.

Lemma store_inv n p id k x p' :
  pdcp_inv n p -> (forall e, x = Some e -> ent_at k e) -> store_rb p id k x = Done p' -> pdcp_inv n p'.
Proof.
  intros I Hx. unfold store_rb. intros Hd. apply outcome_bind_done in Hd as ([y l] & W & Hd). injection Hd as <-.
  eapply ctx_inv; [exact I|exact W|]. intros u r u' O E. apply outcome_bind_done in E as (z & Ez & E).
  injection E as _ <-. by eapply slot_set_ok.
Qed.

Lemma lock_inv n p : pdcp_inv n p -> pdcp_inv (n + 1) (nr_pdcp_manager_lock p).
Proof. intros [D I F]. split; [simpl; lia|done|done]. Qed.

Lemma unlock_inv n p p' : pdcp_inv (n + 1) p -> nr_pdcp_manager_unlock p = Done p' -> pdcp_inv n p'.
Proof. intros [D I F]. unfold nr_pdcp_manager_unlock. cif; [done|]. intros [= <-]. split; [simpl; lia|done|done]. Qed.

Lemma send_inv n p o : pdcp_inv n p -> pdcp_inv n (send p o).
Proof. intros [D I F]. by split. Qed.

(** ** Calls *)

Section Calls.
Context `{Crypto}.

Lemma process_rb_inv n p id k e size buf r b p' :
  pdcp_inv n p -> ent_at k e -> process_rb p id k e size buf = Done (r, b, p') -> pdcp_inv n p'.
Proof.
  intros I A. unfold process_rb. cbv zeta. intros Hd. apply outcome_bind_done in Hd as ([[m e'] b'] & E & Hd).
  apply outcome_bind_done in Hd as (p1 & Es & Hd). injection Hd as <- <- <-.
  apply process_sdu_keeps in E as (K & _ & D). eapply store_inv; [exact I| |exact Es].
  intros e2 [= <-]. eapply ent_at_keeps; [exact A|exact K|]. rewrite D. apply A.
Qed.

Lemma data_req_inv n p ctxt f rb mui size buf r p' :
  pdcp_inv n p -> nr_pdcp_data_req_drb p ctxt f rb mui size buf = Done (r, p') -> pdcp_inv n p'.
Proof.
  intros I. unfold nr_pdcp_data_req_drb. destruct f; [done|]. cif; [done|]. cbv zeta. intros Hd.
  apply outcome_bind_done in Hd as ([x p1] & El & Hd).
  destruct (lookup_inv _ _ _ _ _ _ _ (lock_inv _ _ I) El) as [I1 Hx]. destruct x as [[k e]|].
  - destruct (Hx _ _ eq_refl) as [A _]. apply outcome_bind_done in Hd as ([[m b] p2] & Ep & Hd).
    pose proof (process_rb_inv _ _ _ _ _ _ _ _ _ _ I1 A Ep) as I2.
    apply outcome_bind_done in Hd as (p3 & Eu & Hd). pose proof (unlock_inv _ _ _ I2 Eu) as I3.
    revert Hd. cif; [by intros [= <- <-]|]. intros Hd. apply outcome_bind_done in Hd as (p4 & Eo & Hd).
    injection Hd as <- <-. revert Eo. unfold deliver_pdu_drb_gnb, deliver_pdu_drb_ue. destruct (Pdcp.is_gnb e); intros Eo.
    + apply outcome_bind_done in Eo as (u & _ & Eo). apply outcome_bind_done in Eo as (mb & _ & Eo).
      revert Eo. destruct (p_is_cu p3); intros [= <-]; by apply send_inv.
    + apply outcome_bind_done in Eo as (mb & _ & Eo). injection Eo as <-. by apply send_inv.
  - apply outcome_bind_done in Hd as (p3 & Eu & Hd). injection Hd as <- <-. by eapply unlock_inv.
Qed.

Lemma data_req_srb_inv n p id rb mui size buf cb r p' :
  (forall p id rb b m i p', pdcp_inv n p -> cb p id rb b m i = Done p' -> pdcp_inv n p') ->
  pdcp_inv n p -> nr_pdcp_data_req_srb p id rb mui size buf cb = Done (r, p') -> pdcp_inv n p'.
Proof.
  intros Hcb I. unfold nr_pdcp_data_req_srb. cbv zeta. intros Hd.
  apply outcome_bind_done in Hd as ([x p1] & El & Hd).
  destruct (lookup_inv _ _ _ _ _ _ _ (lock_inv _ _ I) El) as [I1 Hx]. destruct x as [[k e]|].
  - destruct (Hx _ _ eq_refl) as [A _]. apply outcome_bind_done in Hd as ([[m b] p2] & Ep & Hd).
    pose proof (process_rb_inv _ _ _ _ _ _ _ _ _ _ I1 A Ep) as I2.
    apply outcome_bind_done in Hd as (p3 & Eu & Hd). pose proof (unlock_inv _ _ _ I2 Eu) as I3.
    revert Hd. cif; [by intros [= <- <-]|]. intros Hd. apply outcome_bind_done in Hd as (p4 & Eo & Hd).
    injection Hd as <- <-. by eapply Hcb.
  - apply outcome_bind_done in Hd as (p3 & Eu & Hd). injection Hd as <- <-. by eapply unlock_inv.
Qed.
End Calls.

(** What SDAP does to the layer below is made of its requests. *)
Section Below.
Context {S : Type} `{PdcpService S} (I : S -> Prop).
Hypothesis req_keeps : forall s ctxt d mui x r s', I s -> pdcp_data_req s ctxt d mui x = Done (r, s') -> I s'.

Lemma end_marker_below e ue qfi mt s e' s' : send_end_marker e ue qfi mt s = Done (e', s') -> I s -> I s'.
Proof using req_keeps.
  unfold send_end_marker, nr_sdap_submit_ctrl_pdu, nr_pdcp_submit_sdap_ctrl_pdu. cbv zeta. intros Hd HI.
  apply outcome_bind_done in Hd as ([d e1] & _ & Hd). apply outcome_bind_done in Hd as (s1 & Es & Hd).
  injection Hd as _ <-. revert Es. cif; [|by intros [= <-]]. intros Es.
  apply outcome_bind_done in Es as ([r s2] & Er & Es). injection Es as <-. by eapply req_keeps.
Qed.

Lemma cond_marker_below (c : bool) e ue qfi mt s e' s' :
  (if c then send_end_marker e ue qfi mt s else Done (e, s)) = Done (e', s') -> I s -> I s'.
Proof using req_keeps. destruct c; [apply end_marker_below|by intros [= <- <-]]. Qed.

Lemma rx_below e d gnb rx p ue buf size s e' s' ev :
  nr_sdap_rx_entity e d gnb rx p ue buf size s = Done (e', s', ev) -> I s -> I s'.
Proof using req_keeps.
  unfold nr_sdap_rx_entity. cbv zeta. destruct gnb; intros Hd HI.
  - apply outcome_bind_done in Hd as (b & _ & Hd). apply outcome_bind_done in Hd as (x & _ & Hd).
    by injection Hd as _ <- _.
  - apply outcome_bind_done in Hd as ([e1 s1] & E1 & Hd). apply outcome_bind_done in Hd as (x & _ & Hd).
    injection Hd as _ <- _. revert E1. destruct rx; [|by intros [= <- <-]]. intros E1.
    apply outcome_bind_done in E1 as (b & _ & E1). revert E1. cif; [|by intros [= <- <-]].
    unfold reflective_mapping. intros E1. apply outcome_bind_done in E1 as (r1 & _ & E1).
    apply outcome_bind_done in E1 as ([e2 s2] & M1 & E1). apply outcome_bind_done in E1 as (r2 & _ & E1).
    apply outcome_bind_done in E1 as ([e3 s3] & M2 & E1). apply outcome_bind_done in E1 as (r3 & _ & E1).
    apply outcome_bind_done in E1 as (e4 & _ & E1). injection E1 as _ <-.
    eapply cond_marker_below; [exact M2|]. by eapply cond_marker_below.
Qed.

Lemma data_ind_below l d gnb rx p ue buf size s l' s' ev :
  sdap_data_ind l d gnb rx p ue buf size s = Done (l', s', ev) -> I s -> I s'.
Proof using req_keeps.
  unfold sdap_data_ind. destruct (nr_sdap_get_entity l ue p) as [i|]; [|by intros [= <- <- <-]].
  destruct (l !! i) as [e|]; [|done]. intros Hd HI. apply outcome_bind_done in Hd as ([[e1 s1] ev1] & E1 & Hd).
  injection Hd as _ <- _. by eapply rx_below.
Qed.

Lemma data_req_below l ctxt ue rb mui size buf qfi rqi p s r l' s' :
  sdap_data_req l ctxt ue rb mui size buf qfi rqi p s = Done (r, l', s') -> I s -> I s'.
Proof using req_keeps.
  unfold sdap_data_req. destruct (nr_sdap_get_entity l ue p) as [i|]; [|by intros [= <- <- <-]].
  destruct (l !! i) as [e|]; [|done]. intros Hd HI. apply outcome_bind_done in Hd as ([[r1 e1] s1] & E1 & Hd).
  injection Hd as _ _ <-. revert E1. unfold nr_sdap_tx_entity. destruct buf as [b|]; [|done]. intros E1.
  apply outcome_bind_done in E1 as ([d e2] & _ & E1). apply outcome_bind_done in E1 as (ru & _ & E1). revert E1. cbv zeta.
  cif_head; [|cif_head; [by intros [= <- <- <-]|]]; intros E1.
  - apply outcome_bind_done in E1 as (x & _ & E1). apply outcome_bind_done in E1 as ([r2 s2] & Er & E1).
    injection E1 as _ _ <-. by eapply req_keeps.
  - apply outcome_bind_done in E1 as (x & _ & E1). apply outcome_bind_done in E1 as (x1 & _ & E1).
    apply outcome_bind_done in E1 as (x2 & _ & E1). apply outcome_bind_done in E1 as (x3 & _ & E1).
    apply outcome_bind_done in E1 as ([r2 s2] & Er & E1). injection E1 as _ _ <-. by eapply req_keeps.
Qed.

Lemma config_below ue mapped d rx tx : forall n i e s e' s',
  ue_qfi2drb_config_loop n i e ue mapped d rx tx s = Done (e', s') -> I s -> I s'.
Proof using req_keeps.
  induction n as [|n IH]; intros i e s e' s'; cbn [ue_qfi2drb_config_loop]; [by intros [= <- <-]|]. intros Hd HI.
  apply outcome_bind_done in Hd as (q & _ & Hd). apply outcome_bind_done in Hd as ([e1 s1] & E1 & Hd).
  eapply IH; [exact Hd|]. revert E1. unfold ue_qfi2drb_config_one. intros E1.
  apply outcome_bind_done in E1 as (r1 & _ & E1). apply outcome_bind_done in E1 as ([e2 s2] & M1 & E1).
  apply outcome_bind_done in E1 as (r2 & _ & E1). apply outcome_bind_done in E1 as ([e3 s3] & M2 & E1).
  apply outcome_bind_done in E1 as (e4 & _ & E1). injection E1 as _ <-.
  eapply cond_marker_below; [exact M2|]. by eapply cond_marker_below.
Qed.

Lemma new_below l gnb rx tx ue p def d mapped count s l' s' :
  new_nr_sdap_entity l gnb rx tx ue p def d mapped count s = Done (l', s') -> I s -> I s'.
Proof using req_keeps.
  unfold new_nr_sdap_entity. destruct (nr_sdap_get_entity l ue p) as [i|].
  - destruct (l !! i) as [e|]; [|done]. destruct gnb; [by intros [= <- <-]|]. cbn [negb]. intros Hd HI.
    apply outcome_bind_done in Hd as ([e1 s1] & E1 & Hd). injection Hd as _ <-. by eapply config_below.
  - cbv zeta. intros Hd HI. apply outcome_bind_done in Hd as (e1 & _ & Hd). by injection Hd as _ <-.
Qed.
End Below.

(** ** Calls that deliver *)

Section Layer.
Context `{Crypto}.

Definition layer_inv (n : Z) (s : layer2) : Prop := pdcp_inv n (pd s).

Lemma service_inv n p ctxt d mui x r p' : pdcp_inv n p -> pdcp_data_req p ctxt d mui x = Done (r, p') -> pdcp_inv n p'.
Proof. intros I. apply data_req_inv. exact I. Qed.

Lemma deliver_inv n id k e : forall sdus s s',
  layer_inv n s -> deliver_sdus s id k e sdus = Done s' -> layer_inv n s'.
Proof.
  induction sdus as [|x sdus IH]; intros s s' I; cbn [deliver_sdus]; [by intros [= <-]|]. intros Hd.
  apply outcome_bind_done in Hd as (s1 & E1 & Hd). eapply IH; [|exact Hd]. revert E1. unfold deliver_sdu. destruct k as [i|i].
  - unfold deliver_sdu_srb. intros E1. apply outcome_bind_done in E1 as (p & Ep & E1). injection E1 as <-.
    unfold layer_inv. simpl. apply outcome_bind_done in Ep as (b & _ & Ep). revert Ep. cif.
    + intros Ep. apply outcome_bind_done in Ep as (u & _ & Ep). injection Ep as <-. by apply send_inv.
    + intros [= <-]. by apply send_inv.
  - unfold deliver_sdu_drb. intros E1. apply outcome_bind_done in E1 as ([[l p] ev] & Ep & E1). injection E1 as <-.
    unfold layer_inv. cbn [pd]. revert Ep.
    destruct (p_tun (pd s)); intros Ep; (eapply (data_ind_below (pdcp_inv n)); [|exact Ep|exact I]); intros *; apply service_inv.
Qed.

Lemma finish_inv n s id k e e' s' :
  layer_inv n s -> ent_at k e -> keeps e e' -> finish_rb s id k e' = Done s' -> layer_inv n s'.
Proof.
  intros I A K. unfold finish_rb. intros Hd. apply outcome_bind_done in Hd as (p & Es & Hd).
  eapply deliver_inv; [|exact Hd]. unfold layer_inv. cbn [pd upd]. simpl. eapply store_inv; [exact I| |exact Es].
  intros e2 [= <-]. eapply ent_at_keeps; [exact A| |done]. eapply keeps_trans; [exact K|]. keeps_fields.
Qed.

Lemma unlock_layer_inv n s s' : layer_inv (n + 1) s -> unlock_layer s = Done s' -> layer_inv n s'.
Proof.
  intros I. unfold unlock_layer. intros Hd. apply outcome_bind_done in Hd as (p & Eu & Hd). injection Hd as <-.
  unfold layer_inv. simpl. by eapply unlock_inv.
Qed.

Lemma on_rb_inv n p id rb f g p' :
  pdcp_inv n p -> (forall e e', g e = Done e' -> keeps e e' /\ delivered e' = delivered e) ->
  on_rb p id rb f g = Done p' -> pdcp_inv n p'.
Proof.
  intros I Hg. unfold on_rb. intros Hd. apply outcome_bind_done in Hd as ([x p1] & El & Hd).
  destruct (lookup_inv _ _ _ _ _ _ _ (lock_inv _ _ I) El) as [I1 Hx]. destruct x as [[k e]|]; [|by eapply unlock_inv].
  destruct (Hx _ _ eq_refl) as [A _]. apply outcome_bind_done in Hd as (e1 & Eg & Hd).
  apply outcome_bind_done in Hd as (p2 & Es & Hd). eapply unlock_inv; [|exact Hd].
  eapply store_inv; [exact I1| |exact Es]. intros e2 [= <-]. destruct (Hg _ _ Eg) as [K D].
  eapply ent_at_keeps; [exact A|exact K|]. rewrite D. apply A.
Qed.

Lemma data_ind_inv n s ctxt f rb size buf s' :
  layer_inv n s -> Forall is_byte buf -> do_pdcp_data_ind s ctxt f rb size buf = Done s' -> layer_inv n s'.
Proof.
  intros I HB. unfold do_pdcp_data_ind. cif; [done|]. cbv zeta. intros Hd.
  apply outcome_bind_done in Hd as ([x p1] & El & Hd).
  destruct (lookup_inv _ _ _ _ _ _ _ (lock_inv _ _ I) El) as [I1 Hx].
  apply outcome_bind_done in Hd as (s1 & Es & Hd). eapply unlock_layer_inv; [|exact Hd]. destruct x as [[k e]|].
  - destruct (Hx _ _ eq_refl) as [A _]. apply outcome_bind_done in Es as (e1 & Er & Es).
    apply recv_pdu_keeps in Er as [K _]; [|done]. eapply (finish_inv _ (s <| pd := p1 |>)); [exact I1|exact A|exact K|exact Es].
  - by injection Es as <-.
Qed.

Lemma suspend_inv n s id rb f s' : layer_inv n s -> suspend_rb s id rb f = Done s' -> layer_inv n s'.
Proof.
  intros I. unfold suspend_rb. intros Hd. apply outcome_bind_done in Hd as ([x p1] & El & Hd).
  destruct (lookup_inv _ _ _ _ _ _ _ (lock_inv _ _ I) El) as [I1 Hx]. cbv zeta in Hd. destruct x as [[k e]|].
  - destruct (Hx _ _ eq_refl) as [A _]. apply outcome_bind_done in Hd as (s1 & Ef & Hd).
    pose proof (finish_inv _ (s <| pd := p1 |>) _ _ _ _ _ I1 A (suspend_deliver_keeps e) Ef) as I2.
    apply outcome_bind_done in Hd as ([y p2] & El2 & Hd). destruct (lookup_inv _ _ _ _ _ _ _ I2 El2) as [I3 Hy].
    destruct y as [[k2 e2]|]; [|done]. destruct (Hy _ _ eq_refl) as [A2 _].
    apply outcome_bind_done in Hd as (p3 & Es & Hd). eapply (unlock_layer_inv _ (s1 <| pd := p3 |>)); [|exact Hd].
    unfold layer_inv. simpl. eapply store_inv; [exact I3| |exact Es]. intros e3 [= <-].
    eapply ent_at_keeps; [exact A2|apply suspend_end_keeps|]. apply A2.
  - by eapply (unlock_layer_inv _ (s <| pd := p1 |>)).
Qed.

Lemma reestablish_inv n s id rb f sec s' :
  layer_inv n s -> nr_pdcp_reestablishment s id rb f sec = Done s' -> layer_inv n s'.
Proof.
  intros I. unfold nr_pdcp_reestablishment. intros Hd. apply outcome_bind_done in Hd as ([x p1] & El & Hd).
  destruct (lookup_inv _ _ _ _ _ _ _ (lock_inv _ _ I) El) as [I1 Hx]. cbv zeta in Hd.
  apply outcome_bind_done in Hd as (s1 & Es & Hd). eapply unlock_layer_inv; [|exact Hd]. destruct x as [[k e]|].
  - destruct (Hx _ _ eq_refl) as [A _]. apply outcome_bind_done in Es as (e1 & Er & Es).
    apply reestablish_keeps in Er. eapply (finish_inv _ (s <| pd := p1 |>)); [exact I1|exact A|exact Er|exact Es].
  - by injection Es as <-.
Qed.

(** The entity in a place of a context. *)
Definition ent_of (p : pdcp_state) (id : Z) (k : rb_slot) : option nr_pdcp_entity_t :=
  match slot_get (ue_view (p_ues p) id) k with Done (Some e) => Some e | _ => None end.

Lemma slot_read_inv n p id k x l :
  pdcp_inv n p -> with_ue (p_ues p) id (fun ue => x ← slot_get ue k; Done (x, ue)) = Done (x, l) ->
  pdcp_inv n (p <| p_ues := l |>) /\ ent_of p id k = x /\ forall e, x = Some e -> ent_at k e.
Proof.
  intros I W. split.
  - eapply ctx_inv; [exact I|exact W|]. intros u r u' O E. apply outcome_bind_done in E as (z & _ & E). by injection E as _ <-.
  - destruct (with_ue_inv _ _ _ _ _ W) as (u & Eu & _). apply outcome_bind_done in Eu as (z & Ez & Eu).
    injection Eu as -> <-. unfold ent_of. rewrite Ez. split; [by destruct x|]. intros e ->.
    by apply (pu_ent _ (view_ok _ id (pi_ues _ _ I))).
Qed.

Lemma release_drb_inv n s id d s' : layer_inv n s -> nr_pdcp_release_drb s id d = Done s' -> layer_inv n s'.
Proof.
  intros I. unfold nr_pdcp_release_drb. cbv zeta. intros Hd. apply outcome_bind_done in Hd as ([x l] & W & Hd).
  destruct (slot_read_inv _ _ _ _ _ _ (lock_inv _ _ I) W) as (I1 & _ & Hx). destruct x as [e|].
  - specialize (Hx _ eq_refl). apply outcome_bind_done in Hd as (s1 & Ef & Hd).
    apply outcome_bind_done in Hd as (p2 & Es & Hd). eapply (unlock_layer_inv _ (s1 <| pd := p2 |>)); [|exact Hd].
    unfold layer_inv. simpl.
    apply (fun a b => store_inv _ _ _ _ _ _ a b Es); [|done].
    eapply finish_inv; [|exact Hx|apply deliver_list_keeps|exact Ef]. exact I1.
  - eapply unlock_layer_inv; [|exact Hd]. exact I1.
Qed.

Lemma release_srb_inv n p id d p' : pdcp_inv n p -> nr_pdcp_release_srb p id d = Done p' -> pdcp_inv n p'.
Proof.
  intros I. unfold nr_pdcp_release_srb. cbv zeta. intros Hd. apply outcome_bind_done in Hd as ([x l] & W & Hd).
  eapply unlock_inv; [|exact Hd]. eapply ctx_inv; [exact (lock_inv _ _ I)|exact W|]. intros u r u' O E.
  apply outcome_bind_done in E as (z & _ & E). destruct z; [|by injection E as _ <-].
  apply outcome_bind_done in E as (u1 & E1 & E). injection E as _ <-.
  apply (fun a => slot_set_ok _ _ _ _ O a E1). done.
Qed.

Lemma remove_inv n p id p' : pdcp_inv n p -> nr_pdcp_remove_UE p id = Done p' -> pdcp_inv n p'.
Proof.
  intros [D N F]. unfold nr_pdcp_remove_UE, nr_pdcp_manager_remove_ue. apply unlock_inv. split; simpl; [lia| |].
  - by apply remove_ue_ok.
  - by apply remove_ue_forall.
Qed.

Lemma add_srb_inv n s gnb id c sec s' : layer_inv n s -> add_srb s gnb id c sec = Done s' -> layer_inv n s'.
Proof.
  intros I. unfold add_srb. cbv zeta. intros Hd. apply outcome_bind_done in Hd as (t & _ & Hd).
  apply outcome_bind_done in Hd as ([x p1] & El & Hd).
  destruct (lookup_inv _ _ _ _ _ _ _ (lock_inv _ _ I) El) as [I1 _].
  apply outcome_bind_done in Hd as (p2 & Ep & Hd). eapply (unlock_layer_inv _ (s <| pd := p2 |>)); [|exact Hd].
  unfold layer_inv. simpl. destruct x; [by injection Ep as <-|].
  apply outcome_bind_done in Ep as (e & En & Ep). apply outcome_bind_done in Ep as ([u l] & W & Ep). injection Ep as <-.
  eapply ctx_inv; [exact I1|exact W|]. intros v r v' O E. apply outcome_bind_done in E as (v1 & Ev & E).
  injection E as _ <-. revert Ev. unfold nr_pdcp_ue_add_srb_pdcp_entity. cif; [done|]. intros Ev.
  apply outcome_bind_done in Ev as ([y|] & _ & Ev); [done|]. eapply slot_set_ok; [exact O| |exact Ev].
  intros e2 [= <-]. destruct (new_ent_wf _ _ _ _ _ _ _ _ _ _ _ (or_introl eq_refl) En) as (W1 & D & T & R).
  split; [|done]. zbool. split; [lia|]. split; [done|lia].
Qed.

Lemma add_drb_inv n s gnb id c sec s' : layer_inv n s -> add_drb s gnb id c sec = Done s' -> layer_inv n s'.
Proof.
  intros I. unfold add_drb. cbv zeta. intros Hd. apply outcome_bind_done in Hd as (pc & _ & Hd).
  apply outcome_bind_done in Hd as (dc & _ & Hd). apply outcome_bind_done in Hd as (ul & _ & Hd).
  apply outcome_bind_done in Hd as (nu & _ & Hd). apply outcome_bind_done in Hd as (dl & _ & Hd).
  apply outcome_bind_done in Hd as (nd & End & Hd). apply outcome_bind_done in Hd as (dt & _ & Hd).
  apply outcome_bind_done in Hd as (d & _ & Hd). apply outcome_bind_done in Hd as (t & _ & Hd).
  apply outcome_bind_done in Hd as ([[[[[ses rx] tx] def] mapped] count] & _ & Hd). revert Hd.
  cif_head; [done|]. intros Hd. apply outcome_bind_done in Hd as ([x p1] & El & Hd).
  destruct (lookup_inv _ _ _ _ _ _ _ (lock_inv _ _ I) El) as [I1 _].
  apply outcome_bind_done in Hd as (s2 & Ep & Hd). eapply unlock_layer_inv; [|exact Hd].
  destruct x; [by injection Ep as <-|].
  apply outcome_bind_done in Ep as (e & En & Ep). apply outcome_bind_done in Ep as ([u l] & W & Ep).
  apply outcome_bind_done in Ep as ([sdap p2] & Es & Ep). injection Ep as <-. unfold layer_inv. simpl.
  eapply (new_below (pdcp_inv (n + 1))); [|exact Es|]; [intros *; apply service_inv|].
  eapply ctx_inv; [exact I1|exact W|]. intros v r v' O E1. apply outcome_bind_done in E1 as (v1 & Ev & E1).
  injection E1 as _ <-. revert Ev. unfold nr_pdcp_ue_add_drb_pdcp_entity. cif; [done|]. intros Ev.
  apply outcome_bind_done in Ev as ([y|] & _ & Ev); [done|]. eapply slot_set_ok; [exact O| |exact Ev].
  intros e2 [= <-].
  destruct (new_ent_wf _ _ _ _ _ _ _ _ _ _ _ (sn_size_cases _ _ (or_intror End)) En) as (W1 & D & T & R).
  split; [|done]. zbool. split; [lia|]. split; [done|lia].
Qed.

Lemma timer_rb_inv n s id now k s' : layer_inv n s -> timer_rb s id now k = Done s' -> layer_inv n s'.
Proof.
  intros I. unfold timer_rb. intros Hd. apply outcome_bind_done in Hd as ([x l] & W & Hd).
  destruct (slot_read_inv _ _ _ _ _ _ I W) as (_ & _ & Hx). destruct x as [e|]; [|by injection Hd as <-].
  eapply finish_inv; [exact I|by apply Hx|apply set_time_keeps|exact Hd].
Qed.

Lemma timer_ue_inv n id now : forall ks s s', layer_inv n s -> timer_ue s id now ks = Done s' -> layer_inv n s'.
Proof.
  induction ks as [|k ks IH]; intros s s' I; cbn [timer_ue]; [by intros [= <-]|]. intros Hd.
  apply outcome_bind_done in Hd as (s1 & E1 & Hd). eapply IH; [|exact Hd]. by eapply timer_rb_inv.
Qed.

Lemma timer_ues_inv n now : forall l s s', layer_inv n s -> timer_ues s l now = Done s' -> layer_inv n s'.
Proof.
  induction l as [|id l IH]; intros s s' I; cbn [timer_ues]; [by intros [= <-]|]. intros Hd.
  apply outcome_bind_done in Hd as (s1 & E1 & Hd). eapply IH; [|exact Hd]. by eapply timer_ue_inv.
Qed.

Lemma timer_inv n s s' : layer_inv n s -> nr_pdcp_timer_thread s = Done s' -> layer_inv n s'.
Proof.
  intros I. unfold nr_pdcp_timer_thread. cbv zeta. intros Hd. apply outcome_bind_done in Hd as (s1 & E1 & Hd).
  eapply unlock_layer_inv; [|exact Hd]. eapply timer_ues_inv; [|exact E1]. exact (lock_inv _ _ I).
Qed.

(** ** Sequences of calls *)

Inductive pdcp_call :=
| CDataInd (ctxt : protocol_ctxt_t) (srb_flag : bool) (rb_id : Z) (buf : list Z)
| CDataReqSrb (id rb_id mui : Z) (buf : list Z)
| CSdapDataReq (ctxt : protocol_ctxt_t) (ue rb_id mui : Z) (buf : list Z) (qfi : Z) (rqi : bool) (session : Z)
| CTimerThread
| CTick (frame subframe : Z)
| CAddSrb (gnb : bool) (id : Z) (c : NR_SRB_ToAddMod) (sec : nr_pdcp_entity_security_keys_and_algos_t)
| CAddDrb (gnb : bool) (id : Z) (c : NR_DRB_ToAddMod) (sec : nr_pdcp_entity_security_keys_and_algos_t)
| CRemoveUe (id : Z)
| CSetSecurity (id rb_id : Z) (is_srb : bool) (sec : nr_pdcp_entity_security_keys_and_algos_t)
| CSuspend (id rb_id : Z) (srb_flag : bool)
| CReconfigureSrb (id srb_id t : Z)
| CReconfigureDrb (id drb_id : Z) (c : option NR_PDCP_Config_t)
| CReleaseSrb (id srb_id : Z)
| CReleaseDrb (id drb_id : Z)
| CReestablish (id rb_id : Z) (srb_flag : bool) (sec : nr_pdcp_entity_security_keys_and_algos_t)
| CCheckIntegrity (id srb_id : Z) (msg : list Z) (size : Z) (mi : nr_pdcp_integrity_data_t)
| CStatistics (id : Z) (srb_flag : bool) (rb_id : Z).

Definition on_pdcp (s : layer2) (x : outcome pdcp_state) : outcome layer2 := p ← x; Done (s <| pd := p |>).

Definition pdcp_do (s : layer2) (c : pdcp_call) : outcome layer2 :=
  match c with
  | CDataInd ctxt f rb buf => do_pdcp_data_ind s ctxt f rb (Z.of_nat (length buf)) buf
  | CDataReqSrb id rb mui buf =>
      '(_, p) ← nr_pdcp_data_req_srb (pd s) id rb mui (Z.of_nat (length buf)) buf deliver_pdu_srb_rlc;
      Done (s <| pd := p |>)
  | CSdapDataReq ctxt ue rb mui buf qfi rqi session =>
      '(_, l, p) ← sdap_data_req (sd s) ctxt ue rb mui (Z.of_nat (length buf)) (Some buf) qfi rqi session (pd s);
      Done (s <| pd := p |> <| sd := l |>)
  | CTimerThread => nr_pdcp_timer_thread s
  | CTick f sf => Done (s <| pd ::= fun p => nr_pdcp_tick p f sf |>)
  | CAddSrb gnb id c sec => nr_pdcp_add_srbs s gnb id (Some [c]) sec
  | CAddDrb gnb id c sec => nr_pdcp_add_drbs s gnb id (Some [c]) sec
  | CRemoveUe id => on_pdcp s (nr_pdcp_remove_UE (pd s) id)
  | CSetSecurity id rb f sec => on_pdcp s (nr_pdcp_config_set_security (pd s) id rb f sec)
  | CSuspend id rb f => if f then nr_pdcp_suspend_srb s id rb else nr_pdcp_suspend_drb s id rb
  | CReconfigureSrb id d t => on_pdcp s (nr_pdcp_reconfigure_srb (pd s) id d t)
  | CReconfigureDrb id d c => on_pdcp s (nr_pdcp_reconfigure_drb (pd s) id d c)
  | CReleaseSrb id d => on_pdcp s (nr_pdcp_release_srb (pd s) id d)
  | CReleaseDrb id d => nr_pdcp_release_drb s id d
  | CReestablish id rb f sec => nr_pdcp_reestablishment s id rb f sec
  | CCheckIntegrity id d msg size mi =>
      '(_, p) ← nr_pdcp_check_integrity_srb (pd s) id d msg size mi; Done (s <| pd := p |>)
  | CStatistics id f rb => '(_, p) ← nr_pdcp_get_statistics (pd s) id f rb; Done (s <| pd := p |>)
  end.

(** The buffers that come from below hold bytes. *)
Definition call_ok (c : pdcp_call) : Prop := match c with CDataInd _ _ _ buf => Forall is_byte buf | _ => True end.

Lemma pdcp_do_inv s c s' : layer_inv 0 s -> call_ok c -> pdcp_do s c = Done s' -> layer_inv 0 s'.
Proof.
  intros I Hc E. destruct c; cbn [pdcp_do] in E.
  - by eapply data_ind_inv.
  - apply outcome_bind_done in E as ([r p] & E1 & E). injection E as <-.
    eapply data_req_srb_inv; [|exact I|exact E1]. intros p1 i rb b m k p2 I1. unfold deliver_pdu_srb_rlc. intros Hd.
    apply outcome_bind_done in Hd as (mb & _ & Hd). injection Hd as <-. by apply send_inv.
  - apply outcome_bind_done in E as ([[r l] p] & E1 & E). injection E as <-. unfold layer_inv. simpl.
    eapply (data_req_below (pdcp_inv 0)); [|exact E1|exact I]. intros *; apply service_inv.
  - by eapply timer_inv.
  - injection E as <-. unfold layer_inv. simpl. destruct I as [D N F]. unfold nr_pdcp_tick. cif; by split.
  - eapply add_srb_inv; [exact I|exact E].
  - eapply add_drb_inv; [exact I|exact E].
  - apply outcome_bind_done in E as (p & E1 & E). injection E as <-. by eapply remove_inv.
  - apply outcome_bind_done in E as (p & E1 & E). injection E as <-.
    eapply on_rb_inv; [exact I| |exact E1]. intros e e'. apply set_security_keeps.
  - destruct srb_flag; by eapply suspend_inv.
  - apply outcome_bind_done in E as (p & E1 & E). injection E as <-.
    eapply on_rb_inv; [exact I| |exact E1]. intros e e' Hd. apply outcome_bind_done in Hd as (t0 & _ & Hd).
    injection Hd as <-. split; [keeps_fields|done].
  - apply outcome_bind_done in E as (p & E1 & E). injection E as <-.
    eapply on_rb_inv; [exact I| |exact E1]. intros e e'. apply reconfigure_keeps.
  - apply outcome_bind_done in E as (p & E1 & E). injection E as <-. by eapply release_srb_inv.
  - by eapply release_drb_inv.
  - by eapply reestablish_inv.
  - apply outcome_bind_done in E as ([r p] & E1 & E). injection E as <-. unfold layer_inv. simpl.
    revert E1. unfold nr_pdcp_check_integrity_srb. intros Hd. apply outcome_bind_done in Hd as ([x p1] & El & Hd).
    destruct (lookup_inv _ _ _ _ _ _ _ (lock_inv _ _ I) El) as [I1 _]. destruct x as [[k e]|].
    + apply outcome_bind_done in Hd as (b & _ & Hd). apply outcome_bind_done in Hd as (p2 & Eu & Hd).
      injection Hd as _ <-. by eapply unlock_inv.
    + apply outcome_bind_done in Hd as (p2 & Eu & Hd). injection Hd as _ <-. by eapply unlock_inv.
  - apply outcome_bind_done in E as ([r p] & E1 & E). injection E as <-. unfold layer_inv. simpl.
    revert E1. unfold nr_pdcp_get_statistics. intros Hd. apply outcome_bind_done in Hd as ([x p1] & El & Hd).
    destruct (lookup_inv _ _ _ _ _ _ _ (lock_inv _ _ I) El) as [I1 _].
    apply outcome_bind_done in Hd as (p2 & Eu & Hd). injection Hd as _ <-. by eapply unlock_inv.
Qed.

(** The states that calls lead to. *)
Inductive pdcp_reach (is_cu tun : bool) (cu2du : f1_table) : layer2 -> Prop :=
| preach_new : pdcp_reach is_cu tun cu2du (mk_layer2 (nr_pdcp_layer_init is_cu tun cu2du) [] [])
| preach_call s c s' :
    pdcp_reach is_cu tun cu2du s -> call_ok c -> pdcp_do s c = Done s' -> pdcp_reach is_cu tun cu2du s'.

Lemma preach_inv is_cu tun cu2du s : pdcp_reach is_cu tun cu2du s -> layer_inv 0 s.
Proof.
  induction 1 as [|s c s' _ IH Hc E]; [|by eapply pdcp_do_inv].
  split; simpl; [done|apply NoDup_nil_2|constructor].
Qed.
End Layer.

(** ** The clocks of the entities *)

Definition clock (p : pdcp_state) (id : Z) (k : rb_slot) : option Z := t_current <$> ent_of p id k.

Lemma slot_get_set u k k' x u' :
  slot_set u k x = Done u' -> slot_get u' k' = if decide (k' = k) then Done x else slot_get u k'.
Proof.
  destruct k as [i|i]; cbn [slot_set]; intros Hs; apply outcome_bind_done in Hs as (l & Hw & Hs);
    injection Hs as <-; apply wr_inv in Hw as [Hi ->]; destruct k' as [j|j]; case_decide as Hk; try done.
  - injection Hk as ->. apply rd_done; [lia|]. apply list_lookup_insert_eq. lia.
  - assert (j <> i) by congruence. cbn [slot_get]. simpl. unfold rd. cif; [done|]. zbool.
    by rewrite list_lookup_insert_ne by lia.
  - injection Hk as ->. apply rd_done; [lia|]. apply list_lookup_insert_eq. lia.
  - assert (j <> i) by congruence. cbn [slot_get]. simpl. unfold rd. cif; [done|]. zbool.
    by rewrite list_lookup_insert_ne by lia.
Qed.

(** Which entity a call of [with_ue] leaves in a place. *)
Lemma with_ue_ent {R} p id (f : nr_pdcp_ue_t -> outcome (R * nr_pdcp_ue_t)) r l u :
  with_ue (p_ues p) id f = Done (r, l) -> f (ue_view (p_ues p) id) = Done (r, u) -> ue_id u = id ->
  forall id' k, ent_of (p <| p_ues := l |>) id' k =
    if decide (id' = id) then match slot_get u k with Done (Some e) => Some e | _ => None end
    else ent_of p id' k.
Proof.
  intros W Ef K id' k. destruct (with_ue_inv _ _ _ _ _ W) as (v & Ev & Hv). rewrite Ef in Ev. injection Ev as <-.
  destruct (Hv K) as (V & _ & _ & Vo). unfold ent_of. change (p_ues (p <| p_ues := l |>)) with l.
  destruct (decide (id' = id)) as [->|Hd]; [by rewrite V|]. by rewrite Vo.
Qed.

Lemma lookup_ent p id rb f x p' : lookup_rb p id rb f = Done (x, p') ->
  (forall id' k, ent_of p' id' k = ent_of p id' k) /\ forall k e, x = Some (k, e) -> ent_of p id k = Some e.
Proof.
  unfold lookup_rb. intros Hd. apply outcome_bind_done in Hd as ([y l] & W & Hd). injection Hd as -> <-.
  destruct (with_ue_inv _ _ _ _ _ W) as (u & Eu & _). pose proof Eu as Eu'.
  apply outcome_bind_done in Eu' as (z & Ez & Eu'). injection Eu' as -> <-. split.
  - intros id' k. rewrite (with_ue_ent _ _ _ _ _ _ W Eu (view_key _ _)). by destruct (decide (id' = id)) as [->|Hd].
  - intros k e ->. apply get_rb_slot in Ez as [Es _]. unfold ent_of. by rewrite Es.
Qed.

Lemma store_ent p id k x p' : store_rb p id k x = Done p' ->
  forall id' k', ent_of p' id' k' = if decide (id' = id /\ k' = k) then x else ent_of p id' k'.
Proof.
  unfold store_rb. intros Hd. apply outcome_bind_done in Hd as ([y l] & W & Hd). injection Hd as <-.
  destruct (with_ue_inv _ _ _ _ _ W) as (u & Eu & _). pose proof Eu as Eu'.
  apply outcome_bind_done in Eu' as (z & Ez & Eu'). injection Eu' as <- <-. intros id' k'.
  assert (K : ue_id z = id).
  { rewrite <- (view_key (p_ues p) id). destruct k; cbn [slot_set] in Ez;
      apply outcome_bind_done in Ez as (l1 & _ & Ez); by injection Ez as <-. }
  rewrite (with_ue_ent _ _ _ _ _ _ W Eu K), (slot_get_set _ _ _ _ _ Ez).
  destruct (decide (id' = id)) as [->|Hi], (decide (k' = k)) as [->|Hk].
  - rewrite decide_True by done. by destruct x.
  - rewrite decide_False by tauto. done.
  - rewrite decide_False by tauto. done.
  - rewrite decide_False by tauto. done.
Qed.

Section Clocks.
Context `{Crypto}.

Definition same_clocks (p p' : pdcp_state) : Prop := forall id k, clock p' id k = clock p id k.

Lemma same_ent_clocks p p' : (forall id k, ent_of p' id k = ent_of p id k) -> same_clocks p p'.
Proof. intros E id k. unfold clock. by rewrite E. Qed.

Lemma same_ues_clocks p p' : p_ues p' = p_ues p -> same_clocks p p'.
Proof. intros E. apply same_ent_clocks. intros id k. unfold ent_of. by rewrite E. Qed.

Lemma clocks_trans p1 p2 p3 : same_clocks p1 p2 -> same_clocks p2 p3 -> same_clocks p1 p3.
Proof. intros H1 H2 id k. by rewrite H2, H1. Qed.

Lemma unlock_clocks p p' : nr_pdcp_manager_unlock p = Done p' -> same_clocks p p'.
Proof. unfold nr_pdcp_manager_unlock. cif; [done|]. intros [= <-]. by apply same_ues_clocks. Qed.

Lemma process_clocks p id k e size buf r b p' :
  ent_of p id k = Some e -> process_rb p id k e size buf = Done (r, b, p') -> same_clocks p p'.
Proof.
  intros He. unfold process_rb. cbv zeta. intros Hd. apply outcome_bind_done in Hd as ([[m e'] b'] & E & Hd).
  apply outcome_bind_done in Hd as (p1 & Es & Hd). injection Hd as <- <- <-.
  apply process_sdu_keeps in E as (_ & T & _). intros id' k'. unfold clock. rewrite (store_ent _ _ _ _ _ Es).
  destruct (decide (id' = id /\ k' = k)) as [[-> ->]|]; [|done]. rewrite He. simpl. by rewrite T.
Qed.

Lemma data_req_clocks p ctxt d mui x r p' : pdcp_data_req p ctxt d mui x = Done (r, p') -> same_clocks p p'.
Proof.
  unfold pdcp_data_req, pdcp_service, nr_pdcp_data_req_drb. cif; [done|]. cbv zeta. intros Hd.
  apply outcome_bind_done in Hd as ([y p1] & El & Hd). destruct (lookup_ent _ _ _ _ _ _ El) as [L1 L2].
  assert (C1 : same_clocks p p1).
  { eapply clocks_trans; [|apply same_ent_clocks, L1]. by apply same_ues_clocks. }
  destruct y as [[k e]|].
  - apply outcome_bind_done in Hd as ([[m b] p2] & Ep & Hd). apply process_clocks in Ep; [|rewrite L1; by apply L2].
    apply outcome_bind_done in Hd as (p3 & Eu & Hd). apply unlock_clocks in Eu.
    assert (C3 : same_clocks p p3) by (eapply clocks_trans; [exact C1|]; eapply clocks_trans; [exact Ep|exact Eu]).
    revert Hd. cif; [by intros [= <- <-]|]. intros Hd. apply outcome_bind_done in Hd as (p4 & Eo & Hd).
    injection Hd as <- <-. eapply clocks_trans; [exact C3|]. apply same_ues_clocks.
    revert Eo. unfold deliver_pdu_drb_gnb, deliver_pdu_drb_ue. destruct (Pdcp.is_gnb e); intros Eo.
    + apply outcome_bind_done in Eo as (u & _ & Eo). apply outcome_bind_done in Eo as (mb & _ & Eo).
      revert Eo. by destruct (p_is_cu p3); intros [= <-].
    + apply outcome_bind_done in Eo as (mb & _ & Eo). by injection Eo as <-.
  - apply outcome_bind_done in Hd as (p3 & Eu & Hd). injection Hd as <- <-. apply unlock_clocks in Eu.
    by eapply clocks_trans.
Qed.

Lemma deliver_clocks id k e : forall sdus s s',
  deliver_sdus s id k e sdus = Done s' -> same_clocks (pd s) (pd s').
Proof.
  induction sdus as [|x sdus IH]; intros s s'; cbn [deliver_sdus]; [by intros [= <-]|]. intros Hd.
  apply outcome_bind_done in Hd as (s1 & E1 & Hd). apply IH in Hd. eapply clocks_trans; [|exact Hd].
  revert E1. unfold deliver_sdu. destruct k as [i|i].
  - unfold deliver_sdu_srb. intros E1. apply outcome_bind_done in E1 as (p & Ep & E1). injection E1 as <-.
    apply same_ues_clocks. simpl. apply outcome_bind_done in Ep as (b & _ & Ep). revert Ep. cif.
    + intros Ep. apply outcome_bind_done in Ep as (u & _ & Ep). by injection Ep as <-.
    + by intros [= <-].
  - unfold deliver_sdu_drb. intros E1. apply outcome_bind_done in E1 as ([[l p] ev] & Ep & E1). injection E1 as <-.
    cbn [pd]. revert Ep.
    destruct (p_tun (pd s)); intros Ep; (eapply (data_ind_below (same_clocks (pd s))); [|exact Ep|done]);
      intros s0 ctxt d mui y r s2 C0 E0; (eapply clocks_trans; [exact C0|]); by eapply data_req_clocks.
Qed.

(** The entity in the place has seen [now], or there is none. *)
Definition seen (now : Z) (s : layer2) (id : Z) (k : rb_slot) : Prop :=
  clock (pd s) id k = None \/ clock (pd s) id k = Some now.

Lemma timer_rb_seen s id now k s' : timer_rb s id now k = Done s' ->
  seen now s' id k /\ forall id' k', seen now s id' k' -> seen now s' id' k'.
Proof.
  unfold timer_rb. intros Hd. apply outcome_bind_done in Hd as ([x l] & W & Hd).
  destruct (with_ue_inv _ _ _ _ _ W) as (u & Eu & _). apply outcome_bind_done in Eu as (z & Ez & Eu).
  injection Eu as -> <-. assert (Hx : ent_of (pd s) id k = x) by (unfold ent_of; rewrite Ez; by destruct x).
  destruct x as [e|]; [|injection Hd as <-; split; [left; unfold clock; by rewrite Hx|done]].
  revert Hd. unfold finish_rb. intros Hd. apply outcome_bind_done in Hd as (p & Es & Hd).
  apply deliver_clocks in Hd. simpl in Hd.
  assert (C : forall id' k', clock (pd s') id' k' =
    if decide (id' = id /\ k' = k) then Some now else clock (pd s) id' k').
  { intros id' k'. rewrite Hd. unfold clock. rewrite (store_ent _ _ _ _ _ Es).
    destruct (decide (id' = id /\ k' = k)); [|done]. simpl. by rewrite set_time_now. }
  split; unfold seen.
  - right. rewrite C. by rewrite decide_True.
  - intros id' k' Hs. rewrite C. destruct (decide (id' = id /\ k' = k)); [by right|exact Hs].
Qed.

Lemma timer_ue_seen id now : forall ks s s', timer_ue s id now ks = Done s' ->
  (forall k, k ∈ ks -> seen now s' id k) /\ forall id' k', seen now s id' k' -> seen now s' id' k'.
Proof.
  induction ks as [|k ks IH]; intros s s'; cbn [timer_ue].
  - intros [= <-]. split; [|done]. intros k Hk. by apply not_elem_of_nil in Hk.
  - intros Hd. apply outcome_bind_done in Hd as (s1 & E1 & Hd). destruct (IH _ _ Hd) as [A B].
    destruct (timer_rb_seen _ _ _ _ _ E1) as [A1 B1]. split.
    + intros k' Hk. apply elem_of_cons in Hk as [-> |Hk]; [by apply B|by apply A].
    + intros id' k' Hs. by apply B, B1.
Qed.

Lemma timer_ues_seen now : forall l s s', timer_ues s l now = Done s' ->
  (forall id k, id ∈ l -> k ∈ timer_slots -> seen now s' id k) /\
  forall id' k', seen now s id' k' -> seen now s' id' k'.
Proof.
  induction l as [|id l IH]; intros s s'; cbn [timer_ues].
  - intros [= <-]. split; [|done]. intros id k Hk. by apply not_elem_of_nil in Hk.
  - intros Hd. apply outcome_bind_done in Hd as (s1 & E1 & Hd). destruct (IH _ _ Hd) as [A B].
    destruct (timer_ue_seen _ _ _ _ _ E1) as [A1 B1]. split.
    + intros id' k' Hk Hs. apply elem_of_cons in Hk as [-> |Hk]; [by apply B, A1|by apply A].
    + intros id' k' Hs. by apply B, B1.
Qed.

Lemma slots_complete k e : ent_at k e -> k ∈ timer_slots.
Proof.
  intros [Hk _]. unfold timer_slots. destruct k as [i|i]; destruct Hk as (Hi & _ & _).
  - assert (i = 0 \/ i = 1) as [-> | ->] by lia; set_solver.
  - assert (i = 0 \/ i = 1 \/ i = 2 \/ i = 3 \/ i = 4) as [-> |[-> |[-> |[-> | ->]]]] by lia; set_solver.
Qed.

(** The reordering timer of the entity is off, or does not expire at [now]. *)
Definition not_due (now : Z) (e : nr_pdcp_entity_t) : Prop :=
  t_reordering e = -1 \/ t_reordering_start e = 0 \/ now <= u64 (t_reordering_start e + u64 (t_reordering e)).
Definition quiet (now : Z) (p : pdcp_state) : Prop := forall id k e, ent_of p id k = Some e -> not_due now e.

Lemma not_due_time now e : not_due now e -> nr_pdcp_entity_set_time e now = e <| t_current := now |>.
Proof.
  intros Hn. unfold nr_pdcp_entity_set_time, check_t_reordering. cif; [done|]. cif; [done|].
  simpl in *. zbool. destruct Hn as [?|[?|?]]; lia.
Qed.

Lemma slot_total u k x : pue_ok u -> k ∈ timer_slots ->
  (exists y, slot_get u k = Done y) /\ exists u', slot_set u k x = Done u'.
Proof.
  intros [L1 L2 _] Hk. assert (Hr : forall (l : list (option nr_pdcp_entity_t)) i,
    0 <= i < Z.of_nat (length l) -> exists l', wr l i x = Done l').
  { intros l i Hi. unfold wr. cif; [zbool; lia|]. cif; [by eexists|]. zbool. lia. }
  assert (Hi : match k with Srb i => 0 <= i < 3 | Drb i => 0 <= i < 32 end)
    by (revert Hk; unfold timer_slots; rewrite !elem_of_cons, elem_of_nil; intros Hk; naive_solver lia).
  destruct k as [i|i]; cbn [slot_get slot_set].
  - split; [apply rd_in_range; lia|]. destruct (Hr (srb u) i) as [l ->]; [lia|]. by eexists.
  - split; [apply rd_in_range; lia|]. destruct (Hr (drb u) i) as [l ->]; [lia|]. by eexists.
Qed.

(** A bearer without an SDU that is due only gets the time. *)
Lemma timer_rb_quiet n s id now k : layer_inv n s -> k ∈ timer_slots -> quiet now (pd s) ->
  exists s', timer_rb s id now k = Done s' /\ layer_inv n s' /\ quiet now (pd s').
Proof.
  intros I Hk Q. pose proof (view_ok _ id (pi_ues _ _ I)) as O.
  destruct (slot_total _ k None O Hk) as [[x Ex] _].
  destruct (with_ue_done (p_ues (pd s)) id (fun ue => x ← slot_get ue k; Done (x, ue)) x
    (ue_view (p_ues (pd s)) id)) as [l W]; [by rewrite Ex|].
  assert (T : exists s', timer_rb s id now k = Done s' /\ quiet now (pd s')).
  { unfold timer_rb. rewrite W. cbn [mbind outcome_bind]. destruct x as [e|]; [|by exists s].
    assert (He : ent_of (pd s) id k = Some e) by (unfold ent_of; by rewrite Ex).
    rewrite not_due_time by (by eapply Q). unfold finish_rb, store_rb.
    assert (D : delivered e = []) by (by destruct (pu_ent _ O k e Ex) as (_ & _ & ?)).
    set (e' := Some (e <| t_current := now |> <| delivered := [] |>)).
    destruct (slot_total _ k e' O Hk) as [_ [u Eu]].
    destruct (with_ue_done (p_ues (pd s)) id (fun ue => ue ← slot_set ue k e'; Done (tt, ue)) tt u)
      as [l' W']; [by rewrite Eu|]. rewrite W'. cbn [mbind outcome_bind].
    change (delivered (e <| t_current := now |>)) with (delivered e). rewrite D. cbn [deliver_sdus].
    eexists. split; [reflexivity|]. intros id' k' e1 H1. cbn [pd upd] in H1.
    assert (Es : store_rb (pd s) id k e' = Done (pd s <| p_ues := l' |>)) by (unfold store_rb; by rewrite W').
    rewrite (store_ent _ _ _ _ _ Es) in H1. destruct (decide (id' = id /\ k' = k)); [|by eapply Q].
    injection H1 as <-. exact (Q _ _ _ He). }
  destruct T as (s' & E & Q'). exists s'. split_and!; [done| |done]. by eapply timer_rb_inv.
Qed.

Lemma timer_quiet n now : forall l s, layer_inv n s -> quiet now (pd s) ->
  exists s', timer_ues s l now = Done s' /\ layer_inv n s'.
Proof.
  assert (U : forall id ks s, (forall k, k ∈ ks -> k ∈ timer_slots) -> layer_inv n s -> quiet now (pd s) ->
    exists s', timer_ue s id now ks = Done s' /\ layer_inv n s' /\ quiet now (pd s')).
  { intros id. induction ks as [|k ks IH]; intros s Hk I Q; cbn [timer_ue]; [by exists s|].
    destruct (timer_rb_quiet n s id now k I (Hk k ltac:(left)) Q) as (s1 & -> & I1 & Q1).
    cbn [mbind outcome_bind]. apply IH; [|done|done]. intros k' Hk'. apply Hk. by right. }
  induction l as [|id l IH]; intros s I Q; cbn [timer_ues]; [by exists s|].
  destruct (U id timer_slots s (fun k H => H) I Q) as (s1 & -> & I1 & Q1). cbn [mbind outcome_bind]. by apply IH.
Qed.
End Clocks.

(** The clocks after a turn of the timer thread. *)
Lemma timer_clocks `{Crypto} s s' : layer_inv 0 s -> nr_pdcp_timer_thread s = Done s' ->
  forall id k e, ent_of (pd s') id k = Some e -> t_current e = p_timer_time (pd s).
Proof.
  intros I E id k e He. pose proof (timer_inv _ _ _ I E) as I'.
  assert (Hk : k ∈ timer_slots).
  { eapply slots_complete. eapply (pu_ent _ (view_ok _ id (pi_ues _ _ I'))). revert He. unfold ent_of.
    destruct (slot_get _ k) as [[x|]| |]; by intros [= ->]. }
  revert E. unfold nr_pdcp_timer_thread. cbv zeta. intros E. apply outcome_bind_done in E as (s1 & E1 & E).
  destruct (timer_ues_seen _ _ _ _ E1) as [A B].
  assert (Hs : seen (p_timer_time (pd s)) s1 id k).
  { destruct (decide (id ∈ ids (p_ues (pd s)))) as [Hid|Hid]; [by apply A|]. apply B. left.
    apply find_ue_none in Hid. unfold clock, ent_of, ue_view. simpl. rewrite Hid. simpl.
    destruct k as [i|i]; cbn [slot_get]; [destruct (rd (srb (calloc_pdcp_ue id)) i) as [[x|]| |] eqn:Ex|
      destruct (rd (drb (calloc_pdcp_ue id)) i) as [[x|]| |] eqn:Ex]; try done; by apply rd_replicate_none in Ex. }
  revert E. unfold unlock_layer. intros E. apply outcome_bind_done in E as (p & Eu & E). injection E as <-.
  apply unlock_clocks in Eu. specialize (Eu id k). simpl in He. unfold seen, clock in *. rewrite He in Eu.
  rewrite <- Eu in Hs. simpl in Hs. destruct Hs as [Hs|Hs]; [done|]. by injection Hs.
Qed.

Lemma timer_returns `{Crypto} s : layer_inv 0 s -> quiet (p_timer_time (pd s)) (pd s) ->
  exists s', nr_pdcp_timer_thread s = Done s'.
Proof.
  intros I Q. unfold nr_pdcp_timer_thread. cbv zeta.
  destruct (timer_quiet 1 (p_timer_time (pd s)) (ids (p_ues (pd s))) (s <| pd ::= nr_pdcp_manager_lock |>))
    as (s1 & E & I1); [exact (lock_inv _ _ I)|exact Q|].
  change (ids (p_ues (pd (s <| pd ::= nr_pdcp_manager_lock |>)))) with (ids (p_ues (pd s))). rewrite E.
  cbn [mbind outcome_bind]. unfold unlock_layer, nr_pdcp_manager_unlock.
  rewrite (pi_depth _ _ I1). by eexists.
Qed.

(** C25. The contexts of the PDCP layer stay well formed.  Whatever SDAP, RLC and
    RRC call and however the timer runs, as long as the calls return: the
    recursive lock is free between calls (every path through every function,
    and through the calls SDAP makes back from a delivery, releases it as often
    as it takes it); no two contexts have the same UE identity; a context has 3
    places for SRBs and 32 for DRBs, of which SRB 1 and 2 and DRB 1 to 5 can be
    taken, by an entity with the type and identity of its place; and in every
    entity the SN has 12 or 18 bits, SN mask and window fit one of these
    sizes, the functions of the security algorithms in use are set, and the
    state variables keep 32 bits. *)
Theorem pdcp_contexts_ok (C : Crypto) (is_cu tun : bool) (cu2du : f1_table) (s : layer2) (c : pdcp_call)
    (s' : layer2) :
  pdcp_reach is_cu tun cu2du s -> call_ok c -> pdcp_do s c = Done s' -> pdcp_inv 0 (pd s) /\ pdcp_inv 0 (pd s').
Proof.
  intros R Hc E. pose proof (preach_inv _ _ _ _ R) as I. split; [exact I|]. exact (pdcp_do_inv _ _ _ I Hc E).
Qed.

(** The timer reaches every bearer.  A turn of the timer thread looks at two
    SRBs and five DRBs of each context, out of 3 and 32; in every state that
    calls lead to these are all the bearers there are: after the turn the clock
    of every entity of every UE shows the time the thread was woken with, SDUs
    being delivered, and answered by SDAP, on the way.  A turn in which no
    reordering timer expires always returns. *)
Theorem pdcp_timer_reaches_all (C : Crypto) (is_cu tun : bool) (cu2du : f1_table) (s : layer2) :
  pdcp_reach is_cu tun cu2du s ->
  (forall s', nr_pdcp_timer_thread s = Done s' ->
     forall id k e, ent_of (pd s') id k = Some e -> t_current e = p_timer_time (pd s)) /\
  (quiet (p_timer_time (pd s)) (pd s) -> exists s', nr_pdcp_timer_thread s = Done s').
Proof.
  intros R. pose proof (preach_inv _ _ _ _ R) as I. split; [intros s' E; by eapply timer_clocks|by apply timer_returns].
Qed.

(** ** Witnesses *)

Definition demo_srb_config : NR_SRB_ToAddMod := mk_srb_to_add 1 None.
Definition demo_drb_config : NR_DRB_ToAddMod :=
  mk_drb_to_add 2 (Some (PR_sdap_Config (Some (mk_sdap_config 10 true true true [9] None))))
    (Some (mk_pdcp_config (Some (mk_pdcp_config_drb (Some 7) (Some 0) (Some 0) true)) (Some 14) false)).

Definition pdcp_after (cs : list pdcp_call) : outcome layer2 :=
  foldl (fun x c => s ← x; @pdcp_do toy_crypto s c)
    (Done (mk_layer2 (nr_pdcp_layer_init false false ∅) [] [])) cs.
Definition layer_or_new (x : outcome layer2) : layer2 :=
  match x with Done s => s | _ => mk_layer2 (nr_pdcp_layer_init false false ∅) [] [] end.

Definition demo_calls : list pdcp_call :=
  [CAddSrb true 5 demo_srb_config demo_keys; CAddDrb true 5 demo_drb_config demo_keys; CTick 0 1].
Definition demo_layer (n : nat) : layer2 := layer_or_new (pdcp_after (take n demo_calls)).

Lemma demo_layer_reach : @pdcp_reach toy_crypto false false ∅ (demo_layer 3).
Proof.
  apply (preach_call _ _ _ (demo_layer 2) (CTick 0 1)); [|exact I|vm_compute; reflexivity].
  apply (preach_call _ _ _ (demo_layer 1) (CAddDrb true 5 demo_drb_config demo_keys));
    [|exact I|vm_compute; reflexivity].
  apply (preach_call _ _ _ (demo_layer 0) (CAddSrb true 5 demo_srb_config demo_keys));
    [apply preach_new|exact I|vm_compute; reflexivity].
Qed.

Definition demo_timed : layer2 :=
  Eval vm_compute in layer_or_new (@pdcp_do toy_crypto (demo_layer 3) CTimerThread).

Lemma pdcp_contexts_ok_witness : pdcp_inv 0 (pd (demo_layer 3)) /\ pdcp_inv 0 (pd demo_timed).
Proof.
  apply (pdcp_contexts_ok toy_crypto false false ∅ (demo_layer 3) CTimerThread demo_timed).
  - exact demo_layer_reach.
  - exact I.
  - vm_compute. reflexivity.
Defined.

Lemma pdcp_timer_reaches_all_witness :
  (forall id k e, ent_of (pd demo_timed) id k = Some e -> t_current e = 1) /\
  is_Some (ent_of (pd demo_timed) 5 (Srb 0)) /\ is_Some (ent_of (pd demo_timed) 5 (Drb 1)).
Proof.
  split; [|split; vm_compute; eauto].
  apply (proj1 (pdcp_timer_reaches_all toy_crypto false false ∅ (demo_layer 3) demo_layer_reach)).
  vm_compute. reflexivity.
Defined.

(** The SN size of a DRB can be reconfigured, its SN mask and window stay: after a
    change from 12 to 18 bits, the PDU of COUNT 4096 carries SN 0, which the
    receiver, likewise reconfigured and waiting for COUNT 4096, takes for COUNT 0. *)
Lemma sn_size_reconfigured e :
  pdcp_cfg e -> sn_size e = 12 -> rx_deliv e = 4096 ->
  exists e', reconfigure_drb_entity
      (Some (mk_pdcp_config (Some (mk_pdcp_config_drb None (Some 1) (Some 1) false)) None false)) e = Done e' /\
    sn_size e' = 18 /\ Z.land 4096 (sn_max e') = 0 /\ infer_count e' 0 = 0.
Proof.
  intros Cf Hs Hd. eexists. split; [reflexivity|]. split; [done|].
  pose proof (pc_max _ Cf) as M. pose proof (pc_window _ Cf) as W. rewrite Hs in M, W.
  match goal with |- Z.land _ (sn_max ?x) = _ /\ _ => set (e' := x) end.
  assert (E1 : sn_max e' = 4095) by exact M. assert (E2 : window_size e' = 2048) by exact W.
  assert (E3 : rx_deliv e' = 4096) by exact Hd. assert (E4 : sn_size e' = 18) by done.
  unfold infer_count. by rewrite E1, E2, E3, E4.
Qed.
