(* ===== verification/UserPlane.v ===== *)
(** The user plane of a DRB, end to end: SDAP, PDCP, the queue towards RLC and RLC
    in unacknowledged mode on the sending node, RLC, the queue towards PDCP, PDCP
    and SDAP on the receiving node, in either direction, and the set-up of the
    bearer by RRC on both nodes.

    A step of the model is a call that a thread of a node makes: a packet from
    above, a turn of one of the two queue threads (a queue is the list of its
    items: see ThreadQueue), a grant of the sender's MAC whose PDU the MAC of the
    receiver gets, a tick of the clock of RLC on one of the nodes. *)

From S2P Require Import Prelude PdcpSec Pdcp PdcpRx PdcpLink RlcSdu RlcUm RlcUmLink L2Common F1Ids RlcConfig.
From S2P Require Import ThreadQueue Sdap RlcApi RlcBearers BearerRlc PdcpApi BearerPdcp.

(** ** The nodes *)

(** A bearer: the identity of the UE in the CU, in the DU (its RNTI) and in the UE
    itself, the DRB, its logical channel, the PDU session, the QoS flow, the
    flag given to [sdap_data_req], and the direction. *)
Record bearer_t := mk_bearer {
  b_cu : Z;
  b_rnti : Z;
  b_ue : Z;
  b_drb : Z;
  b_lcid : Z;
  b_session : Z;
  b_qfi : Z;
  b_rqi : bool;
  b_down : bool
}.

Definition tx_id (b : bearer_t) : Z := if b_down b then b_cu b else b_ue b.
Definition tx_rlc_id (b : bearer_t) : Z := if b_down b then b_rnti b else b_ue b.
Definition rx_rlc_id (b : bearer_t) : Z := if b_down b then b_ue b else b_rnti b.
Definition rx_id (b : bearer_t) : Z := if b_down b then b_ue b else b_cu b.

Record plane := mk_plane {
  tx_l2 : layer2;
  tx_rlc : rlc_state;
  rx_rlc : rlc_state;
  rx_ind : list pdcp_data_ind_queue_item;
  rx_l2 : layer2
}.
#[export] Instance eta_plane : Eta plane := fun r =>
  mk_plane (tx_l2 r) (tx_rlc r) (rx_rlc r) (rx_ind r) (rx_l2 r).

Inductive plane_op :=
| Packet (packet : list Z) (mui : Z)
| RlcThread (now : Z)
| MacGrant (buffer : list Z) (now : Z)
| PdcpThread
| TxTick (frame subframe : Z)
| RxTick (frame subframe : Z).

(** The items that the callbacks of RLC put into the queue towards PDCP. *)
Definition ind_items (outs : list rlc_out) : list pdcp_data_ind_queue_item :=
  outs ≫= fun o =>
    match o with
    | PdcpDataInd ctx is_srb rb_id buf => [pdcp_data_ind ctx is_srb false rb_id (Z.of_nat (length buf)) buf]
    | _ => []
    end.

Section Plane.
Context `{C : Crypto}.

Definition plane_step (b : bearer_t) (s : plane) (o : plane_op) : outcome plane :=
  match o with
  | Packet packet mui =>
      '(_, l, p) ← sdap_data_req (sd (tx_l2 s)) (ctxt_init (b_down b) (tx_id b)) (tx_id b) (b_drb b) mui
                     (Z.of_nat (length packet)) (Some packet) (b_qfi b) (b_rqi b) (b_session b) (pd (tx_l2 s));
      Done (s <| tx_l2 ::= fun x => x <| sd := l |> <| pd := p |> |>)
  | RlcThread now =>
      match p_out (pd (tx_l2 s)) with
      | RlcDataReq x :: r =>
          '(_, t) ← rlc_data_req (tx_rlc s) (ri_ctxt x) (ri_srb_flag x) (ri_rb_id x) (ri_mui x)
                      (ri_sdu_size x) (ri_sdu x) now;
          Done (s <| tx_l2 ::= fun x => x <| pd; p_out := r |> |> <| tx_rlc := t |>)
      | _ => Done s
      end
  | MacGrant buffer now =>
      '(n, buf, _, t) ← mac_rlc_data_req (tx_rlc s) (tx_rlc_id b) (b_lcid b) (Z.of_nat (length buffer)) buffer now;
      let s := s <| tx_rlc := t |> in
      if n =? 0 then Done s
      else
        '(outs, r) ← mac_rlc_data_ind (rx_rlc s) (rx_rlc_id b) 0 false (b_lcid b) (take (Z.to_nat n) buf) n;
        Done (s <| rx_rlc := r |> <| rx_ind ::= fun l => l ++ ind_items outs |>)
  | PdcpThread =>
      match rx_ind s with
      | x :: r => l ← pdcp_handle_item (rx_l2 s) x; Done (s <| rx_ind := r |> <| rx_l2 := l |>)
      | [] => Done s
      end
  | TxTick f sf => Done (s <| tx_rlc ::= fun t => nr_rlc_tick t f sf |>)
  | RxTick f sf => Done (s <| rx_rlc ::= fun t => nr_rlc_tick t f sf |>)
  end.

Fixpoint plane_run (b : bearer_t) (s : plane) (os : list plane_op) : outcome plane :=
  match os with [] => Done s | o :: r => s ← plane_step b s o; plane_run b s r end.

(** ** Set-up *)

(** What RRC configures on both nodes. *)
Record bearer_config := mk_config {
  c_drb : NR_DRB_ToAddMod;
  c_rlc : NR_RLC_BearerConfig_t;
  c_sec : nr_pdcp_entity_security_keys_and_algos_t
}.

(** A new node, with the identities of the UE in its F1 tables. *)
Definition new_layer2 (b : bearer_t) (tun : bool) : layer2 :=
  mk_layer2 (nr_pdcp_layer_init false tun {[b_cu b := mk_f1_ue_data (b_rnti b)]}) [] [].
Definition new_rlc (b : bearer_t) (gnb : bool) : rlc_state :=
  (new_nr_rlc_ue_manager gnb (if gnb then MonolithicGnb else UeNode))
    <| r_du2cu := {[b_rnti b := mk_f1_ue_data (b_cu b)]} |>.

(** The UE uses the TUN interface. *)
Definition setup (b : bearer_t) (c : bearer_config) : outcome plane :=
  let down := b_down b in
  t ← add_drb (new_layer2 b (negb down)) down (tx_id b) (c_drb c) (c_sec c);
  r ← add_drb (new_layer2 b down) (negb down) (rx_id b) (c_drb c) (c_sec c);
  tr ← nr_rlc_add_drb (new_rlc b down) (tx_rlc_id b) (b_drb b) (c_rlc c);
  rr ← nr_rlc_add_drb (new_rlc b (negb down)) (rx_rlc_id b) (b_drb b) (c_rlc c);
  Done (mk_plane t tr rr [] r).
End Plane.

(** The packets of a run, and what they need in the transmit buffer of RLC. *)
Definition packets (os : list plane_op) : list (list Z) :=
  os ≫= fun o => match o with Packet p _ => [p] | _ => [] end.
Definition budget (l : list (list Z)) : Z := foldr (fun p a => Z.of_nat (length p) + 8 + a) 0 l.

(** The SDUs not entirely sent by the entity of the bearer. *)
Definition rlc_pending (b : bearer_t) (s : rlc_state) : list (list Z) :=
  match get_rlc_entity_from_rb (ue_view (r_ues s) (tx_rlc_id b)) false (b_drb b) with
  | Done (Some (_, UM e)) => RlcUm.pending e
  | _ => []
  end.

(** The number of packets between the two SDAP layers. *)
Definition in_flight (b : bearer_t) (s : plane) : nat :=
  length (rx_ind s) + length (rlc_pending b (tx_rlc s)) + length (p_out (pd (tx_l2 s))).

(** What the receiver hands up for a packet. *)
Definition handed_up (b : bearer_t) (p : list Z) : sdap_event :=
  if b_down b then ToTun p else ToGtp (b_cu b) (b_session b) p.

(** ** The invariant of a run *)

Section Run.
Context `{CL : CryptoLaws}.
Variables (b : bearer_t) (t0 r0 : nr_pdcp_entity_t) (snl : Z).

Definition sdus_of (l : list (list Z)) : list (list Z) :=
  sdap_pdu (Pdcp.has_sdap_tx t0) (b_down b) (b_qfi b) (b_rqi b) <$> l.
Definition req_of (x : Z * list Z) : pdcp_out :=
  RlcDataReq (rlc_item (b_down b) (tx_rlc_id b) (b_drb b) x.1 x.2).
Definition ind_of (x : list Z) : pdcp_data_ind_queue_item :=
  pdcp_data_ind (ctxt_init (negb (b_down b)) (rx_id b)) false false (b_drb b) (Z.of_nat (length x)) x.

(** [dl] have been handed up; the PDUs of the [rest] are, oldest first, in the
    queue towards PDCP ([inds]), in RLC ([q], with [w] bytes to send), in the queue
    towards RLC ([out]). *)
Record plane_at (dl rest inds q : list (list Z)) (out : list (Z * list Z)) (w : Z) (s : plane) : Prop := {
  po_tx : exists st, pdcp_at (pd (tx_l2 s)) (tx_id b) (b_drb b)
            (t0 <| Pdcp.tx_next := Z.of_nat (length (dl ++ rest)) |> <| Pdcp.stats := st |>);
  po_side : rlc_side (pd (tx_l2 s)) (b_down b) (tx_id b) (tx_rlc_id b);
  po_rule : rule_at (sd (tx_l2 s)) (tx_id b) (b_session b) (b_qfi b) (b_drb b) (Pdcp.has_sdap_tx t0);
  po_enb : r_enb (rx_rlc s) = negb (b_down b);
  po_rx : pdcp_rx_at (rx_l2 s) (rx_id b) (b_drb b) r0 (b_session b) (Z.of_nat (length dl));
  po_up : up (rx_l2 s) = handed_up b <$> dl;
  po_link : rlc_link snl (tx_rlc s) (rx_rlc s) (tx_rlc_id b) (rx_rlc_id b) (b_drb b) (b_lcid b) (rx_id b) q w;
  po_ind : rx_ind s = ind_of <$> inds;
  po_out : p_out (pd (tx_l2 s)) = req_of <$> out;
  po_pdus : pdus_from t0 (Z.of_nat (length dl)) (sdus_of rest) = inds ++ q ++ out.*2
}.

Definition plane_ok (sent : list (list Z)) (s : plane) : Prop :=
  exists dl rest inds q out w, sent = dl ++ rest /\ plane_at dl rest inds q out w s.

Definition packet_ok (p : list Z) : Prop := Forall is_byte p /\ 0 < Z.of_nat (length p) <= 8999.
Definition plane_op_ok (o : plane_op) : Prop :=
  match o with
  | Packet p _ => packet_ok p
  | MacGrant buffer _ => Forall is_byte buffer /\ (snl = 12 -> length buffer <> 2%nat)
  | _ => True
  end.

Hypothesis P : peers t0 r0.
Hypothesis St : entity_suspended t0 = false.
Hypothesis Sr : entity_suspended r0 = false.
Hypothesis Gt : Pdcp.is_gnb t0 = b_down b.
Hypothesis Hd : b_drb b <> 0.
Hypothesis Hid : s32 (tx_rlc_id b) = tx_rlc_id b.

Lemma Gr : Pdcp.is_gnb r0 = negb (b_down b).
Proof using P Gt. by rewrite (pe_gnb _ _ P), Gt. Qed.

Lemma pdus_from_app t : forall l1 c l2,
  pdus_from t c (l1 ++ l2) = pdus_from t c l1 ++ pdus_from t (c + Z.of_nat (length l1)) l2.
Proof.
  induction l1 as [|x l1 IH]; intros c l2; simpl; [by rewrite Z.add_0_r|]. rewrite IH. do 3 f_equal. lia.
Qed.

Lemma pdu_bytes e sdap sdu count dir : Forall is_byte sdu -> Forall is_byte (pdu_of e sdap sdu count dir).
Proof using CL.
  intros HB. unfold pdu_of. cbv zeta. repeat (apply Forall_app; split).
  - apply header_bytes.
  - by apply Forall_take.
  - unfold cipher_of. assert (Forall is_byte (drop sdap sdu ++ mac_of e
      (header e (Z.land count (sn_max e)) ++ sdu) count dir)).
    { apply Forall_app. split; [by apply Forall_drop|apply mac_bytes]. }
    cif; [by apply ctr_bytes|done].
Qed.

(** A PDU is at most 8 bytes longer than its packet. *)
Lemma packet_pdu p c :
  packet_ok p ->
  let x := pdu_of t0 (tx_sdap t0) (sdap_pdu (Pdcp.has_sdap_tx t0) (b_down b) (b_qfi b) (b_rqi b) p) c (tx_dir t0) in
  Forall is_byte x /\ 0 < Z.of_nat (length x) <= Z.of_nat (length p) + 8.
Proof using P CL.
  intros [HB Hl] x. split; [by apply pdu_bytes, sdap_pdu_bytes|].
  unfold x. rewrite pdu_length; [|apply P|]; rewrite sdap_pdu_length.
  - assert (2 <= header_size_of t0 <= 3)
      by (unfold header_size_of, SHORT_PDCP_HEADER_SIZE, LONG_PDCP_HEADER_SIZE; cif; lia).
    assert (0 <= integrity_size_of t0 <= 4) by (unfold integrity_size_of, PDCP_INTEGRITY_SIZE; cif; lia).
    destruct (Pdcp.has_sdap_tx t0); lia.
  - unfold tx_sdap. destruct (Pdcp.has_sdap_tx t0); lia.
Qed.

Lemma pdus_good : forall l c, Forall packet_ok l ->
  Forall (fun x => Forall is_byte x /\ 0 < Z.of_nat (length x) <= NR_SDU_MAX) (pdus_from t0 c (sdus_of l)) /\
  total (pdus_from t0 c (sdus_of l)) <= budget l.
Proof using P CL.
  induction l as [|p l IH]; intros c HF; [done|]. apply Forall_cons in HF as [Hp HF].
  destruct (IH (c + 1) HF) as [F T]. destruct (packet_pdu p c Hp) as [HB Hl].
  cbn [sdus_of fmap list_fmap pdus_from]. fold (sdus_of l). split.
  - constructor; [|done]. split; [done|]. destruct Hp as [_ Hp]. unfold NR_SDU_MAX. lia.
  - cbn [total budget foldr]. fold (total (pdus_from t0 (c + 1) (sdus_of l))) (budget l). lia.
Qed.

Lemma budget_app l1 l2 : budget (l1 ++ l2) = budget l1 + budget l2.
Proof. unfold budget. induction l1 as [|p l1 IH]; simpl; lia. Qed.

Lemma budget_length l : 8 * Z.of_nat (length l) <= budget l.
Proof. unfold budget. induction l as [|p l IH]; simpl; lia. Qed.

(** ** The steps *)

Lemma step_packet dl rest inds q out w s p mui :
  plane_at dl rest inds q out w s -> packet_ok p -> Z.of_nat (length (dl ++ rest)) < 2 ^ 31 ->
  exists s' x, plane_step b s (Packet p mui) = Done s' /\
    plane_at dl (rest ++ [p]) inds q (out ++ [(mui, x)]) w s'.
Proof using P St Gt Hd CL.
  intros [(st & A) Si R En Rx Up L Ei Eo Ep] [HB Hp] Hn.
  set (t := t0 <| Pdcp.tx_next := _ |> <| Pdcp.stats := st |>) in A.
  set (sdu := sdap_pdu (Pdcp.has_sdap_tx t0) (b_down b) (b_qfi b) (b_rqi b) p).
  destruct (data_req_at (pd (tx_l2 s)) (tx_id b) (b_drb b) t (ctxt_init (b_down b) (tx_id b)) mui sdu
    (tx_rlc_id b) A) as (p' & st' & l & Er & A' & E'); try done.
  - by destruct (pe_tx _ _ P).
  - simpl. lia.
  - unfold sdu. rewrite sdap_pdu_length. change (tx_sdap t) with (tx_sdap t0). unfold tx_sdap.
    destruct (Pdcp.has_sdap_tx t0); lia.
  - change (Pdcp.is_gnb t) with (Pdcp.is_gnb t0). by rewrite Gt.
  - pose proof (sdap_req_at (sd (tx_l2 s)) _ _ _ _ _ _ mui p _ (b_drb b) _ _ _ R Hd Hp Er) as Eq.
    cbn [plane_step]. rewrite Eq. cbn [mbind outcome_bind].
    exists (s <| tx_l2 ::= fun x => x <| sd := sd (tx_l2 s) |> <| pd := p' |> |>),
      (pdu_of t0 (tx_sdap t0) sdu (Z.of_nat (length (dl ++ rest))) (tx_dir t0)). split; [reflexivity|].
    split; cbn [tx_l2 rx_rlc rx_l2 rx_ind tx_rlc upd]; try done.
    + exists st'. change (pd _) with p'. unfold t in A'. rewrite app_assoc, (length_app _ [p]). simpl length.
      replace (Z.of_nat (length (dl ++ rest) + 1)) with (Z.of_nat (length (dl ++ rest)) + 1) by lia. exact A'.
    + change (pd _) with p'. rewrite E'. exact Si.
    + change (pd _) with p'. rewrite E'. simpl p_out. rewrite Eo, fmap_app. f_equal. cbn.
      unfold req_of. cbn [fst snd]. change (Pdcp.is_gnb t) with (Pdcp.is_gnb t0). by rewrite Gt.
    + unfold sdus_of in *. rewrite fmap_app, pdus_from_app, Ep, length_fmap. cbn [fmap list_fmap pdus_from].
      rewrite fmap_app, <- !app_assoc. do 3 f_equal. cbn. f_equal. unfold sdu. f_equal.
      rewrite length_app. lia.
Qed.

Lemma step_rlc_thread dl rest inds q m x out w s now :
  plane_at dl rest inds q ((m, x) :: out) w s -> Forall packet_ok rest -> budget rest <= RLC_TX_MAXSIZE ->
  exists s' w', plane_step b s (RlcThread now) = Done s' /\ plane_at dl rest inds (q ++ [x]) out w' s'.
Proof using P Hid CL.
  intros [(st & A) Si R En Rx Up L Ei Eo Ep] HF HT. cbn [plane_step]. rewrite Eo.
  cbn [fmap list_fmap req_of fst snd rlc_item ri_ctxt ri_srb_flag ri_rb_id ri_mui ri_sdu_size ri_sdu].
  destruct (pdus_good rest (Z.of_nat (length dl)) HF) as [HG Ht]. rewrite Ep in HG, Ht.
  apply Forall_app in HG as [_ HG]. apply Forall_app in HG as [_ HG].
  apply Forall_cons in HG as [[HB Hl] _]. rewrite !total_app in Ht. cbn [fmap list_fmap total foldr snd] in Ht.
  fold (total (out.*2)) in Ht. pose proof (total_pos inds). pose proof (total_pos (out.*2)). cbn [snd] in HB, Hl.
  destruct (link_send _ _ _ _ _ _ _ _ _ _ (ctxt_init (b_down b) (tx_rlc_id b)) m x now L Hid HB Hl)
    as (t' & E & _ & w' & L'); [lia|].
  rewrite E. cbn [mbind outcome_bind]. eexists _, w'. split; [reflexivity|].
  split; cbn [tx_l2 rx_rlc rx_l2 rx_ind tx_rlc upd pd sd]; try done.
  - exists st. by destruct A.
  - rewrite Ep. cbn [fmap list_fmap snd]. by rewrite <- app_assoc.
Qed.

Lemma ind_items_of r dl :
  r = negb (b_down b) -> ind_items (PdcpDataInd (ctxt_init r (rx_id b)) false (b_drb b) <$> dl) = ind_of <$> dl.
Proof. intros ->. unfold ind_items. induction dl as [|x dl IH]; [done|]. cbn. f_equal. exact IH. Qed.

Lemma step_grant dl rest inds q out w s buffer now :
  plane_at dl rest inds q out w s -> plane_op_ok (MacGrant buffer now) ->
  exists s' new q' w', plane_step b s (MacGrant buffer now) = Done s' /\ q = new ++ q' /\
    plane_at dl rest (inds ++ new) q' out w' s' /\ w' <= w /\
    (q <> [] -> 5 <= Z.of_nat (length buffer) -> w' < w).
Proof.
  intros [(st & A) Si R En Rx Up L Ei Eo Ep] [HB H2].
  destruct (link_grant _ _ _ _ _ _ _ _ _ _ buffer now L HB H2) as (n & buf & t' & E & _ & w' & W1 & W2 & H0 & Hn).
  cbn [plane_step]. rewrite E. cbn [mbind outcome_bind]. cbv zeta.
  destruct (n =? 0) eqn:En0; zbool.
  - eexists _, [], q, w'. split; [reflexivity|]. split; [done|]. specialize (H0 En0).
    split; [|split; [done|]; intros Hq H5; by destruct (W2 Hq H5)].
    rewrite app_nil_r. split; try done. by exists st.
  - destruct (Hn En0) as (new & q' & r' & Eind & (Eb & _) & Eq & L').
    change (rx_rlc (s <| tx_rlc := t' |>)) with (rx_rlc s). rewrite Eind. cbn [mbind outcome_bind].
    eexists _, new, q', w'. split; [reflexivity|]. split; [done|].
    split; [|split; [done|]; intros Hq H5; by destruct (W2 Hq H5)].
    split; cbn [tx_l2 rx_rlc rx_l2 rx_ind tx_rlc upd]; try done.
    + by exists st.
    + by rewrite Eb.
    + simpl. rewrite Ei, fmap_app. f_equal. by apply ind_items_of.
    + rewrite Ep, Eq. by rewrite <- !app_assoc.
Qed.

Lemma step_pdcp_thread dl rest x inds q out w s :
  plane_at dl rest (x :: inds) q out w s -> Forall packet_ok rest -> Z.of_nat (length (dl ++ rest)) < 2 ^ 31 ->
  exists s' p rest', plane_step b s PdcpThread = Done s' /\ rest = p :: rest' /\
    plane_at (dl ++ [p]) rest' inds q out w s'.
Proof using P Sr Gt CL.
  intros [(st & A) Si R En Rx Up L Ei Eo Ep] HF Hlen.
  cbn [plane_step]. rewrite Ei. cbn [fmap list_fmap]. destruct rest as [|p rest]; [done|].
  cbn [sdus_of fmap list_fmap pdus_from app] in Ep. injection Ep as Ex Ep.
  apply Forall_cons in HF as [[HB Hp] HF].
  unfold pdcp_handle_item, ind_of, pdcp_data_ind.
  cbn [pi_ctxt pi_srb_flag pi_rb_id pi_sdu_buffer_size pi_sdu_buffer].
  rewrite (peers_pdu t0 r0) in Ex by done.
  destruct (data_ind_at (rx_l2 s) (rx_id b) (b_drb b) r0 (b_session b) (Z.of_nat (length dl))
    (negb (b_down b)) (b_qfi b) (b_rqi b) p Rx) as (l' & E & Rx' & Up'); try done.
  - apply P.
  - rewrite length_app in Hlen. lia.
  - intros ->. simpl in Hp. lia.
  - rewrite Gr, negb_involutive, (pe_sdap _ _ P), Ex in E. rewrite E. cbn [mbind outcome_bind].
    eexists _, p, rest. split; [reflexivity|]. split; [done|].
    split; cbn [tx_l2 rx_rlc rx_l2 rx_ind tx_rlc upd]; try done.
    + exists st. by rewrite <- app_assoc.
    + rewrite length_app. simpl length. by rewrite Nat2Z.inj_add.
    + simpl rx_l2. rewrite Up', Up, fmap_app. f_equal. cbn. f_equal. unfold handed_up, rx_id. rewrite Gr.
      by destruct (b_down b).
    + rewrite length_app. simpl length. rewrite Nat2Z.inj_add. exact Ep.
Qed.

Lemma step_ticks dl rest inds q out w s f sf :
  plane_at dl rest inds q out w s ->
  plane_at dl rest inds q out w (s <| tx_rlc ::= fun t => nr_rlc_tick t f sf |>) /\
  plane_at dl rest inds q out w (s <| rx_rlc ::= fun t => nr_rlc_tick t f sf |>).
Proof.
  intros [A Si R En Rx Up L Ei Eo Ep].
  destruct (link_ticks _ _ _ _ _ _ _ _ _ _ f sf L) as [L1 L2]. split; split; try done.
  simpl. unfold nr_rlc_tick, advance_time. by cif.
Qed.

Lemma budget_parts dl rest : budget (dl ++ rest) <= RLC_TX_MAXSIZE ->
  budget rest <= RLC_TX_MAXSIZE /\ Z.of_nat (length (dl ++ rest)) < 2 ^ 31.
Proof.
  intros HT. pose proof (budget_length (dl ++ rest)). pose proof (budget_length dl).
  unfold RLC_TX_MAXSIZE in *. rewrite budget_app in *. lia.
Qed.

Lemma plane_step_ok sent s o :
  plane_ok sent s -> Forall packet_ok sent -> budget sent <= RLC_TX_MAXSIZE -> plane_op_ok o ->
  exists s', plane_step b s o = Done s' /\ plane_ok (sent ++ packets [o]) s'.
Proof using P St Sr Gt Hd Hid CL.
  intros (dl & rest & inds & q & out & w & -> & O) HF HT Ho. apply budget_parts in HT as [HT Hn].
  apply Forall_app in HF as [_ HF]. unfold plane_ok.
  destruct o; cbn [packets mbind list_bind app]; rewrite ?app_nil_r.
  - destruct (step_packet _ _ _ _ _ _ _ packet mui O Ho Hn) as (s' & x & E & O'). exists s'. split; [done|].
    eexists dl, _, _, _, _, _. split; [|exact O']. by rewrite app_assoc.
  - destruct out as [|[m x] out].
    + exists s. split; [cbn [plane_step]; by rewrite (po_out _ _ _ _ _ _ _ O)|]. by eexists dl, _, _, _, _, _.
    + destruct (step_rlc_thread _ _ _ _ _ _ _ _ _ now O HF HT) as (s' & w' & E & O'). exists s'.
      split; [done|]. by eexists dl, _, _, _, _, _.
  - destruct (step_grant _ _ _ _ _ _ _ _ _ O Ho) as (s' & new & q' & w' & E & _ & O' & _). exists s'.
    split; [done|]. by eexists dl, _, _, _, _, _.
  - destruct inds as [|x inds].
    + exists s. split; [cbn [plane_step]; by rewrite (po_ind _ _ _ _ _ _ _ O)|]. by eexists dl, _, _, _, _, _.
    + destruct (step_pdcp_thread _ _ _ _ _ _ _ _ O HF Hn) as (s' & p & rest' & E & -> & O'). exists s'.
      split; [done|]. eexists _, _, _, _, _, _. split; [|exact O']. by rewrite <- app_assoc.
  - eexists. split; [reflexivity|]. eexists dl, _, _, _, _, _. split; [done|]. by apply step_ticks.
  - eexists. split; [reflexivity|]. eexists dl, _, _, _, _, _. split; [done|]. by apply step_ticks.
Qed.

Lemma plane_run_ok : forall os sent s,
  plane_ok sent s -> Forall packet_ok sent -> Forall plane_op_ok os ->
  budget (sent ++ packets os) <= RLC_TX_MAXSIZE ->
  exists s', plane_run b s os = Done s' /\ plane_ok (sent ++ packets os) s'.
Proof using P St Sr Gt Hd Hid CL.
  induction os as [|o os IH]; intros sent s O HF Ho HT.
  - exists s. split; [done|]. cbn. by rewrite app_nil_r.
  - apply Forall_cons in Ho as [H1 Ho].
    assert (Epk : packets (o :: os) = packets [o] ++ packets os) by (cbn; by rewrite app_nil_r).
    rewrite Epk, app_assoc in HT |- *.
    assert (0 <= budget (packets [o] ++ packets os)) by (pose proof (budget_length (packets [o] ++ packets os)); lia).
    destruct (plane_step_ok sent s o O HF) as (s1 & E & O1); [rewrite <- app_assoc, budget_app in HT; lia|done|].
    cbn [plane_run]. rewrite E. cbn [mbind outcome_bind]. apply IH; try done.
    apply Forall_app. split; [done|]. destruct o; cbn; try constructor; [exact H1|constructor].
Qed.

(** ** Draining *)

Lemma plane_run_app os1 : forall os2 s,
  plane_run b s (os1 ++ os2) = (s ← plane_run b s os1; plane_run b s os2).
Proof.
  induction os1 as [|o os1 IH]; intros os2 s; [done|]. cbn [plane_run app].
  destruct (plane_step b s o); cbn [mbind outcome_bind]; [apply IH|done|done].
Qed.

Lemma drain_out now : forall n dl rest inds q out w s,
  plane_at dl rest inds q out w s -> Forall packet_ok rest -> budget rest <= RLC_TX_MAXSIZE ->
  length out = n ->
  exists s' q' w', plane_run b s (replicate n (RlcThread now)) = Done s' /\ plane_at dl rest inds q' [] w' s'.
Proof using P Hid CL.
  induction n as [|n IH]; intros dl rest inds q out w s O HF HT Hl.
  - destruct out; [|done]. by exists s, q, w.
  - destruct out as [|[m x] out]; [done|]. injection Hl as Hl.
    destruct (step_rlc_thread _ _ _ _ _ _ _ _ _ now O HF HT) as (s1 & w1 & E & O1).
    cbn [replicate plane_run]. rewrite E. cbn [mbind outcome_bind]. by eapply IH.
Qed.

Lemma drain_rlc buffer now : plane_op_ok (MacGrant buffer now) -> 5 <= Z.of_nat (length buffer) ->
  forall n dl rest inds q w s, plane_at dl rest inds q [] w s -> w <= Z.of_nat n ->
  exists s' inds' w', plane_run b s (replicate n (MacGrant buffer now)) = Done s' /\
    plane_at dl rest inds' [] [] w' s'.
Proof.
  intros Ho H5. induction n as [|n IH]; intros dl rest inds q w s O Hw.
  - destruct (link_empty _ _ _ _ _ _ _ _ _ _ (po_link _ _ _ _ _ _ _ O)) as [H0 Hq].
    rewrite (Hq ltac:(lia)) in O. by exists s, inds, w.
  - destruct (step_grant _ _ _ _ _ _ _ _ _ O Ho) as (s1 & new & q1 & w1 & E & Eq & O1 & W1 & W2).
    cbn [replicate plane_run]. rewrite E. cbn [mbind outcome_bind]. destruct q as [|x q].
    + destruct (link_empty _ _ _ _ _ _ _ _ _ _ (po_link _ _ _ _ _ _ _ O1)) as [H1 _].
      symmetry in Eq. apply app_eq_nil in Eq as [-> ->].
      destruct (decide (w1 <= Z.of_nat n)) as [Hw1|Hw1]; [by eapply IH|].
      exfalso. destruct (po_link _ _ _ _ _ _ _ O1) as [(tx & rx & _ & _ & _ & T & _ & L & Ew) _].
      pose proof (tx_size_pending _ (lk_tx _ _ _ _ L)) as Hp. rewrite (link_pending _ _ _ _ T L) in Hp.
      unfold total in Hp. simpl in Hp. lia.
    + eapply IH; [exact O1|]. specialize (W2 ltac:(done) H5). lia.
Qed.

Lemma drain_ind : forall n dl rest inds w s,
  plane_at dl rest inds [] [] w s -> Forall packet_ok rest -> Z.of_nat (length (dl ++ rest)) < 2 ^ 31 ->
  length inds = n ->
  exists s', plane_run b s (replicate n PdcpThread) = Done s' /\ plane_at (dl ++ rest) [] [] [] [] w s'.
Proof using P Sr Gt CL.
  induction n as [|n IH]; intros dl rest inds w s O HF Hn Hl.
  - destruct inds; [|done]. exists s. split; [done|]. assert (rest = []) as ->.
    { pose proof (po_pdus _ _ _ _ _ _ _ O) as Ep. by destruct rest. }
    by rewrite app_nil_r.
  - destruct inds as [|x inds]; [done|]. injection Hl as Hl.
    destruct (step_pdcp_thread _ _ _ _ _ _ _ _ O HF Hn) as (s1 & p & rest' & E & -> & O1).
    cbn [replicate plane_run]. rewrite E. cbn [mbind outcome_bind].
    apply Forall_cons in HF as [_ HF].
    destruct (IH _ _ _ _ _ O1 HF) as (s' & E' & O'); [by rewrite <- app_assoc|done|].
    exists s'. split; [done|]. by rewrite <- app_assoc in O'.
Qed.
End Run.

(** ** The set-up of the bearer *)

(** No ciphering or nea2, no integrity protection or nia1 or nia2. *)
Definition known_algorithms (k : nr_pdcp_entity_security_keys_and_algos_t) : Prop :=
  (ciphering_algorithm k = 0 \/ ciphering_algorithm k = 2) /\
  (integrity_algorithm k = 0 \/ integrity_algorithm k = 1 \/ integrity_algorithm k = 2).

(** The configuration that RRC gives for the bearer: a DRB of 1 to 5, one QoS
    flow, the same SN size in both directions, values of the enumerations in
    range, algorithms that the layer knows, an RLC entity in unacknowledged mode
    with [snl] bits of SN. *)
Record config_ok (b : bearer_t) (c : bearer_config) (snl : Z) : Prop := {
  co_ids : s32 (b_ue b) = b_ue b /\ s32 (b_rnti b) = b_rnti b;
  co_drb : 1 <= b_drb b <= AVLBL_DRB /\ drb_Identity (c_drb c) = b_drb b;
  co_sdap : exists x, cnAssociation (c_drb c) = Some (PR_sdap_Config (Some x)) /\
    pdu_Session x = b_session b /\ defaultDRB x = true /\ mappedQoS_FlowsToAdd x = [b_qfi b];
  co_qfi : 1 <= b_qfi b < SDAP_MAX_QFI;
  co_pdcp : exists pc dc v w, drb_pdcp_Config (c_drb c) = Some pc /\ config_drb pc = Some dc /\
    pdcp_SN_SizeUL dc = Some v /\ pdcp_SN_SizeDL dc = Some v /\ (v = 0 \/ v = 1) /\
    discardTimer dc = Some w /\ 0 <= w <= 15 /\
    match config_t_Reordering pc with Some t => 0 <= t <= 35 | None => True end;
  co_algs : known_algorithms (c_sec c);
  co_rlc : exists um t, rlc_Config (c_rlc c) = Some (PR_um_Bi_Directional um) /\ decode_um um = Done (t, snl) /\
    (snl = 6 \/ snl = 12);
  co_served : servedRadioBearer (c_rlc c) = Some (PR_drb_Identity (b_drb b));
  co_lcid : logicalChannelIdentity (c_rlc c) = b_lcid b /\ 1 <= b_lcid b <= 32
}.

(** A new DRB entity. *)
Definition fresh_drb (gnb : bool) (d session : Z) (rx tx : bool) (sn t dt : Z)
    (k : nr_pdcp_entity_security_keys_and_algos_t) : nr_pdcp_entity_t :=
  mk_pdcp NR_PDCP_DRB_AM d session rx tx sn t dt (Z.shiftl 1 sn - 1) (Z.shiftl 1 (sn - 1)) 0 0 0 0 0 0
    (negb (ciphering_algorithm k =? 0)) (negb (integrity_algorithm k =? 0)) k
    (negb (ciphering_algorithm k =? 0))
    (if integrity_algorithm k =? 0 then None else Some (integrity_algorithm k, integrity_key k))
    gnb [] 0 (mk_pdcp_stats 0 0 0 0 0 0 0 0 0 0 0 0) false [].

Lemma new_drb_ok gnb d session rx tx sn t dt k :
  known_algorithms k ->
  new_nr_pdcp_entity NR_PDCP_DRB_AM gnb d session rx tx sn t dt k =
  Done (fresh_drb gnb d session rx tx sn t dt k).
Proof.
  destruct k as [ia ca ik ck]. unfold known_algorithms. cbn [ciphering_algorithm integrity_algorithm].
  intros [[-> | ->] [-> | [-> | ->]]]; reflexivity.
Qed.

Lemma fresh_inv gnb d session rx tx sn t dt k : rx_inv (fresh_drb gnb d session rx tx sn t dt k).
Proof. split; simpl; try lia; split; constructor. Qed.

Lemma fresh_peers gnb d session rx tx sn t dt k :
  1 <= d < 32 -> sn = 12 \/ sn = 18 ->
  peers (fresh_drb gnb d session rx tx sn t dt k) (fresh_drb (negb gnb) d session tx rx sn t dt k).
Proof.
  intros Hd Hs.
  assert (Cf : forall g r x, pdcp_cfg (fresh_drb g d session r x sn t dt k)).
  { intros g r x. split; simpl; try done.
    - by destruct Hs as [-> | ->].
    - destruct (integrity_algorithm k =? 0); [done|]. intros _. eauto. }
  split; try apply Cf; done.
Qed.

(** The memory of the SDAP entity of the session. *)
Definition fresh_sdap (id d session qfi : Z) (rx tx : bool) : nr_sdap_entity_t :=
  mk_sdap id d session (<[Z.to_nat qfi := mk_qfi2drb d rx tx]> empty_table).

Lemma new_sdap_ok {S} `{PdcpService S} gnb rx tx id session d qfi (p : S) :
  1 <= d <= AVLBL_DRB -> 1 <= qfi < SDAP_MAX_QFI ->
  new_nr_sdap_entity [] gnb rx tx id session true d [qfi] 1 p = Done ([fresh_sdap id d session qfi rx tx], p).
Proof.
  unfold AVLBL_DRB, SDAP_MAX_QFI. intros Hd Hq. unfold new_nr_sdap_entity. cbn [nr_sdap_get_entity].
  change (Z.to_nat 1) with 1%nat. cbn [map_update_loop]. change (rd [qfi] 0) with (Done qfi).
  cbn [mbind outcome_bind]. rewrite (u8_qfi qfi) by (unfold SDAP_MAX_QFI; lia).
  unfold nr_sdap_qfi2drb_map_update, set_rule, SDAP_MAX_QFI, SDAP_MAP_RULE_EMPTY, AVLBL_DRB.
  cbn [default_drb upd qfi2drb_table]. simpl default_drb.
  rewrite (proj2 (Z.ltb_lt _ _)), (proj2 (Z.gtb_lt _ _)), (proj2 (Z.gtb_lt _ _)), (proj2 (Z.leb_le _ _)) by lia.
  cbn [andb]. rewrite wr_done; [done|].
  simpl qfi2drb_table. unfold empty_table, SDAP_MAX_QFI. rewrite length_replicate. lia.
Qed.

Lemma decode_ok tab v : 0 <= v < Z.of_nat (length tab) -> exists x, decode tab v = Done x.
Proof.
  intros Hv. unfold decode. destruct (_ || _) eqn:E; [zbool; destruct E; zbool; lia|]. by apply rd_in_range.
Qed.

(** The contexts of a layer with one DRB. *)
Definition one_drb (id d : Z) (e : nr_pdcp_entity_t) : list nr_pdcp_ue_t :=
  [mk_pdcp_ue id (replicate 3 None) (<[Z.to_nat (d - 1) := Some e]> (replicate 32 None))].

Lemma one_drb_at id d e p : 1 <= d <= 5 -> 0 <= p_depth p -> p_ues p = one_drb id d e -> pdcp_at p id d e.
Proof.
  intros Hd H0 E. split; [done|]. rewrite E.
  assert (V : ue_view (one_drb id d e) id =
    mk_pdcp_ue id (replicate 3 None) (<[Z.to_nat (d - 1) := Some e]> (replicate 32 None))).
  { unfold ue_view, one_drb. cbn [find_ue]. change (ue_key (mk_pdcp_ue id ?a ?b)) with id.
    by rewrite Z.eqb_refl. }
  rewrite V. unfold nr_pdcp_get_rb, MAX_DRBS_PER_UE.
  destruct (_ || _) eqn:Er; [zbool; destruct Er; zbool; lia|].
  unfold at_slot. cbn [slot_get drb].
  rewrite (rd_done _ _ (Some e)); [done|lia|]. apply list_lookup_insert_eq. rewrite length_replicate. lia.
Qed.

(** [add_drb] on a new node. *)
Lemma add_drb_new `{Crypto} b c snl : config_ok b c snl ->
  exists x sn t dt k, cnAssociation (c_drb c) = Some (PR_sdap_Config (Some x)) /\ (sn = 12 \/ sn = 18) /\
    (forall gnb id tun, add_drb (new_layer2 b tun) gnb id (c_drb c) (c_sec c) =
     Done (mk_layer2
       (nr_pdcp_layer_init false tun {[b_cu b := mk_f1_ue_data (b_rnti b)]} <| p_ues := one_drb id (b_drb b)
          (fresh_drb gnb (b_drb b) (b_session b) (is_sdap_rx gnb x) (is_sdap_tx gnb x) sn t dt k) |>)
       [fresh_sdap id (b_drb b) (b_session b) (b_qfi b) (is_sdap_rx gnb x) (is_sdap_tx gnb x)] [])).
Proof.
  intros [_ [Hd Ed] (x & Ec & Es & Edef & Em) Hq (pc & dc & v & w & E1 & E2 & E3 & E4 & Hv & E5 & Hw & Ht) Ha _ _ _].
  destruct (decode_ok [10; 20; 30; 40; 50; 60; 75; 100; 150; 200; 250; 300; 500; 750; 1500; -1] w) as [dt Edt];
    [simpl; lia|]. fold (decode_discard_timer w) in Edt.
  assert (Hr : exists t, opt_t_reordering (config_t_Reordering pc) = Done t).
  { destruct (config_t_Reordering pc) as [t|]; [|by eexists]. apply decode_ok. simpl. lia. }
  destruct Hr as [t Er].
  set (sn := if v =? 0 then 12 else 18).
  assert (Esn : decode_sn_size_ul v = Done sn /\ decode_sn_size_dl v = Done sn)
    by (unfold sn; by destruct Hv as [-> | ->]).
  destruct Esn as [Esu Esd].
  set (k := c_sec c <| ciphering_algorithm ::= fun a => if cipheringDisabled pc then 0 else a |>
                    <| integrity_algorithm ::= fun a => if integrityProtection dc then a else 0 |>).
  assert (Hk : known_algorithms k).
  { unfold k, known_algorithms in *. destruct (c_sec c). simpl in *.
    destruct (cipheringDisabled pc), (integrityProtection dc); tauto. }
  exists x, sn, t, dt, k. split; [done|]. split; [unfold sn; destruct (v =? 0); auto|]. intros g i tn.
  unfold add_drb. rewrite E1. cbn [deref mbind outcome_bind]. rewrite E2. cbn [deref mbind outcome_bind].
  rewrite E3. cbn [deref mbind outcome_bind]. rewrite Esu. cbn [mbind outcome_bind]. rewrite E4.
  cbn [deref mbind outcome_bind]. rewrite Esd. cbn [mbind outcome_bind]. rewrite E5.
  cbn [deref mbind outcome_bind]. rewrite Edt. cbn [mbind outcome_bind]. rewrite Er. cbn [mbind outcome_bind].
  unfold drb_sdap_config. rewrite Ec, Em. cbn [array0 first_flow take mbind outcome_bind].
  rewrite Z.eqb_refl. cbn [negb]. fold k. rewrite Ed, Es, Edef.
  assert (Hlk : forall p, p_ues p = [] ->
    lookup_rb p i (b_drb b) false = Done (None, p <| p_ues := [calloc_pdcp_ue i] |>)).
  { intros p Hp. unfold lookup_rb. rewrite Hp. cbn [with_ue manager_get_ue find_ue length app lookup list_lookup new_ue pdcp_ue_context].
    unfold AVLBL_DRB in Hd. unfold nr_pdcp_get_rb, MAX_DRBS_PER_UE.
    destruct (_ || _) eqn:Eo; [zbool; destruct Eo; zbool; lia|]. unfold at_slot. cbn [slot_get calloc_pdcp_ue drb].
    rewrite (rd_done _ _ None); [done|lia|]. apply lookup_replicate_2. lia. }
  unfold new_layer2. cbn [pd sd]. rewrite Hlk by done. cbn [mbind outcome_bind].
  rewrite new_drb_ok by done. cbn [mbind outcome_bind]. set (e := fresh_drb _ _ _ _ _ _ _ _ _).
  assert (Hw2 : with_ue [calloc_pdcp_ue i] i (fun ue =>
      ue ← nr_pdcp_ue_add_drb_pdcp_entity ue (b_drb b) e; Done (tt, ue)) = Done (tt, one_drb i (b_drb b) e)).
  { unfold with_ue, manager_get_ue. cbn [find_ue]. change (ue_key (calloc_pdcp_ue i)) with i. rewrite Z.eqb_refl.
    change ([calloc_pdcp_ue i] !! 0%nat) with (Some (calloc_pdcp_ue i)).
    unfold AVLBL_DRB in Hd. unfold nr_pdcp_ue_add_drb_pdcp_entity.
    destruct (_ || _) eqn:Eo; [zbool; destruct Eo; zbool; lia|]. cbn [slot_get calloc_pdcp_ue drb].
    rewrite (rd_done _ _ None); [|lia|apply lookup_replicate_2; lia]. cbn [mbind outcome_bind slot_set drb].
    rewrite wr_done by (simpl; lia). done. }
  cbn [p_ues upd]. simpl p_ues. rewrite Hw2. cbn [mbind outcome_bind].
  change (u8 (Z.of_nat (length [b_qfi b]))) with 1. rewrite new_sdap_ok by done.
  cbn [mbind outcome_bind]. reflexivity.
Qed.

Lemma new_rlc_bearer b c snl gnb id : config_ok b c snl ->
  exists e s, nr_rlc_add_drb (new_rlc b gnb) id (b_drb b) (c_rlc c) = Done s /\
    r_enb s = gnb /\ r_node s = (if gnb then MonolithicGnb else UeNode) /\
    r_du2cu s = {[b_rnti b := mk_f1_ue_data (b_cu b)]} /\
    um_at s id (b_drb b) (b_lcid b) e /\ link_ok snl e e [] /\ um_quiet e /\ tx_maxsize e = RLC_TX_MAXSIZE /\
    exists um t, rlc_Config (c_rlc c) = Some (PR_um_Bi_Directional um) /\ decode_um um = Done (t, snl) /\
      new_nr_rlc_entity_um RLC_RX_MAXSIZE RLC_TX_MAXSIZE t snl = Done e.
Proof.
  intros [_ [Hd Ed] _ _ _ _ (um & t & Er & Eu & Hs) Hsv [El Hl]]. unfold AVLBL_DRB in Hd.
  destruct (link_new snl RLC_RX_MAXSIZE RLC_TX_MAXSIZE t Hs) as (e & En & L & M & T & T0 & A);
    [unfold NR_SDU_MAX, RLC_RX_MAXSIZE; lia|unfold RLC_TX_MAXSIZE; lia|].
  destruct (drb_set_up (new_rlc b gnb) id (b_drb b) (c_rlc c) (PR_um_Bi_Directional um) (UM e))
    as (s & E & B1 & B2 & B3 & B4 & K & H1 & H2 & _); try done.
  - split; simpl; [done|apply NoDup_nil_2|constructor].
  - cbn [new_of]. rewrite Eu. cbn [mbind outcome_bind]. unfold new_um. by rewrite En.
  - unfold MAX_DRBS_PER_UE. lia.
  - by rewrite El.
  - change (ue_view (r_ues (new_rlc b gnb)) id) with (calloc_rlc_ue id). cbn [get_rb calloc_rlc_ue RlcApi.drb].
    rewrite (rd_done _ _ None); [done|lia|]. apply lookup_replicate_2. lia.
  - exists e, s. rewrite El in H1. split_and!; try done. by exists um, t.
Qed.

Lemma fresh_rule id d session qfi rx tx :
  1 <= qfi < SDAP_MAX_QFI -> rule_at [fresh_sdap id d session qfi rx tx] id session qfi d tx.
Proof.
  intros Hq. exists 0%nat, (fresh_sdap id d session qfi rx tx), (mk_qfi2drb d rx tx).
  assert (E : is_entity id session (fresh_sdap id d session qfi rx tx) = true)
    by (unfold is_entity; simpl; by rewrite !Z.eqb_refl).
  split_and!; try done; [cbn [nr_sdap_get_entity walk_to]; by rewrite E|].
  apply rd_done; [unfold SDAP_MAX_QFI in *; lia|]. apply list_lookup_insert_eq.
  unfold empty_table, SDAP_MAX_QFI in *. rewrite length_replicate. lia.
Qed.

Lemma setup_ok `{CL : CryptoLaws} b c snl : config_ok b c snl ->
  exists s t0 r0, setup b c = Done s /\ peers t0 r0 /\ entity_suspended t0 = false /\
    entity_suspended r0 = false /\ Pdcp.is_gnb t0 = b_down b /\ plane_ok b t0 r0 snl [] s.
Proof.
  intros O. destruct (add_drb_new b c snl O) as (x & sn & t & dt & k & Ec & Hsn & Hadd).
  destruct (new_rlc_bearer b c snl (b_down b) (tx_rlc_id b) O)
    as (e1 & st & Et & _ & _ & _ & Ut & L & Q & M & um1 & t1 & F1 & F2 & F3).
  destruct (new_rlc_bearer b c snl (negb (b_down b)) (rx_rlc_id b) O)
    as (e2 & sr & Er & B1 & B2 & B3 & Ur & _ & _ & _ & um2 & t2 & G1 & G2 & G3).
  assert (e2 = e1) as -> by (rewrite F1 in G1; injection G1 as <-; rewrite F2 in G2; injection G2 as <-; congruence).
  pose proof (co_drb _ _ _ O) as [Hd _]. unfold AVLBL_DRB in Hd. pose proof (co_qfi _ _ _ O) as Hq.
  set (T := fresh_drb (b_down b) (b_drb b) (b_session b) (is_sdap_rx (b_down b) x) (is_sdap_tx (b_down b) x) sn t dt k).
  set (R := fresh_drb (negb (b_down b)) (b_drb b) (b_session b) (is_sdap_tx (b_down b) x)
              (is_sdap_rx (b_down b) x) sn t dt k).
  assert (Hx : is_sdap_rx (negb (b_down b)) x = is_sdap_tx (b_down b) x /\
               is_sdap_tx (negb (b_down b)) x = is_sdap_rx (b_down b) x) by (by destruct (b_down b)).
  destruct Hx as [Hx1 Hx2].
  eexists _, T, R. split.
  { unfold setup. cbv zeta. rewrite Hadd. cbn [mbind outcome_bind]. rewrite Hadd. cbn [mbind outcome_bind].
    rewrite Et. cbn [mbind outcome_bind]. rewrite Er. cbn [mbind outcome_bind]. rewrite Hx1, Hx2. reflexivity. }
  split_and!; try done; [apply fresh_peers; lia || done|].
  exists [], [], [], [], [], 0. split; [done|]. split; cbn [tx_l2 rx_rlc rx_l2 rx_ind tx_rlc pd sd]; try done.
  - exists (Pdcp.stats T). by apply one_drb_at.
  - unfold rlc_side. simpl. unfold tx_id, tx_rlc_id. destruct (b_down b); [|done].
    split; [done|]. apply (lookup_singleton_eq (b_cu b)).
  - by apply fresh_rule.
  - split.
    + exists R. split_and!; try done; [by apply one_drb_at|apply fresh_inv].
    + simpl. by destruct (b_down b).
    + destruct (fresh_rule (rx_id b) (b_drb b) (b_session b) (b_qfi b) (is_sdap_tx (b_down b) x)
        (is_sdap_rx (b_down b) x) Hq) as (i & e & r & Ei & _). by exists i.
  - split.
    + exists e1, e1. split_and!; try done; [apply Q|].
      pose proof (tx_size_pending _ (lk_tx _ _ _ _ L)) as Hp.
      rewrite (link_pending _ _ _ _ (uq_trace _ Q) L) in Hp. unfold total in Hp. simpl in Hp.
      rewrite (tx_bytes _ _ (lk_tx _ _ _ _ L)), Z.add_0_r in Hp |- *.
      pose proof (link_pending _ _ _ _ (uq_trace _ Q) L) as Hl. unfold pending in Hl.
      by apply map_eq_nil in Hl as ->.
    + unfold pdcp_side. rewrite B1, B2, B3. unfold rx_rlc_id, rx_id. destruct (b_down b); simpl; [done|].
      split_and!; try done. apply (lookup_singleton_eq (b_rnti b)).
Qed.

(** ** What arrives is what was sent *)

Lemma pending_link b s snl r ir d lc cu q w :
  rlc_link snl s r (tx_rlc_id b) ir d lc cu q w -> d = b_drb b -> rlc_pending b s = q.
Proof.
  intros [(tx & rx & Ut & _ & _ & T & _ & L & _) _] ->. unfold rlc_pending. rewrite (ua_rb _ _ _ _ _ Ut).
  by apply (link_pending snl tx rx).
Qed.

(** The state that a run from the set-up leads to. *)
Lemma run_from_setup `{CL : CryptoLaws} b c snl os :
  config_ok b c snl -> Forall (plane_op_ok snl) os -> budget (packets os) <= RLC_TX_MAXSIZE ->
  exists s0 t0 r0 s dl rest inds q out w,
    setup b c = Done s0 /\ plane_run b s0 os = Done s /\ packets os = dl ++ rest /\
    Forall packet_ok (dl ++ rest) /\ plane_at b t0 r0 snl dl rest inds q out w s /\
    peers t0 r0 /\ entity_suspended r0 = false /\ Pdcp.is_gnb t0 = b_down b /\ s32 (tx_rlc_id b) = tx_rlc_id b.
Proof.
  intros O Ho HT. destruct (setup_ok b c snl O) as (s0 & t0 & r0 & Es & P & S1 & S2 & G & I).
  assert (Hid : s32 (tx_rlc_id b) = tx_rlc_id b)
    by (destruct (co_ids _ _ _ O); unfold tx_rlc_id; by destruct (b_down b)).
  assert (Hd : b_drb b <> 0) by (pose proof (co_drb _ _ _ O); lia).
  destruct (plane_run_ok b t0 r0 snl P S1 S2 G Hd Hid os [] s0 I)
    as (s & Er & (dl & rest & inds & q & out & w & Ea & O')); try done.
  exists s0, t0, r0, s, dl, rest, inds, q, out, w. simpl in Ea. split_and!; try done.
  rewrite <- Ea. clear -Ho. induction Ho as [|o os Ho _ IH]; [constructor|]. destruct o; try exact IH.
  constructor; [exact Ho|exact IH].
Qed.

(** C1. End-to-end transfer on a DRB in unacknowledged mode.  RRC sets up a DRB on
    two new nodes, a gNB and a UE, with the same configuration; packets are then
    given to SDAP on one side (downlink or uplink), interleaved in any way with
    the turns of the queue threads, grants and clock ticks on both nodes.  The
    grants can have any size but two bytes with 12 bits of RLC SN, of which RLC
    loses the SDU.  As long as the packets of the run fit in the transmit buffer of RLC
    (10 MB), every call returns, and the receiving SDAP has handed up, to the N3
    tunnel of the session or to the TUN interface, exactly the first packets,
    byte for byte and in order: none lost, repeated or corrupted by the
    mapping of the flow, the headers, ciphering, integrity protection,
    segmentation and reassembly.  The others, and no more, are in the two
    queues and in RLC, so that once these are empty all the packets have been
    handed up. *)
Theorem user_plane_lossless (C : Crypto) (CL : CryptoLaws C) (b : bearer_t) (c : bearer_config) (snl : Z)
    (os : list plane_op) :
  config_ok b c snl -> Forall (plane_op_ok snl) os -> budget (packets os) <= RLC_TX_MAXSIZE ->
  exists s0 s dl rest,
    setup b c = Done s0 /\ plane_run b s0 os = Done s /\ packets os = dl ++ rest /\
    up (rx_l2 s) = handed_up b <$> dl /\ length rest = in_flight b s /\
    (in_flight b s = 0%nat -> up (rx_l2 s) = handed_up b <$> packets os).
Proof.
  intros O Ho HT.
  destruct (run_from_setup b c snl os O Ho HT)
    as (s0 & t0 & r0 & s & dl & rest & inds & q & out & w & Es & Er & Ea & _ & I & _).
  exists s0, s, dl, rest. destruct I as [_ _ _ _ _ Eu L Ei Eo Ep].
  assert (Hl : length rest = in_flight b s).
  { unfold in_flight. rewrite (pending_link b _ _ _ _ _ _ _ _ _ L eq_refl), Ei, Eo, !length_fmap.
    apply (f_equal length) in Ep. unfold sdus_of in Ep.
    rewrite pdus_from_length, !length_app, !length_fmap in Ep. lia. }
  split_and!; try done. intros H0. rewrite H0 in Hl. apply length_zero_iff_nil in Hl as ->.
  by rewrite Ea, app_nil_r.
Qed.

(** C2. The user plane of a DRB in unacknowledged mode does not get stuck.  From
    every state that the runs above lead to, the calls that the threads make
    anyway bring all the packets up: enough turns of the queue towards RLC, enough
    grants of any size of at least 5 bytes, enough turns of the queue towards
    PDCP, after which nothing is left between the two SDAP layers. *)
Theorem user_plane_drains (C : Crypto) (CL : CryptoLaws C) (b : bearer_t) (c : bearer_config) (snl : Z)
    (os : list plane_op) (buffer : list Z) (now : Z) :
  config_ok b c snl -> Forall (plane_op_ok snl) os -> budget (packets os) <= RLC_TX_MAXSIZE ->
  Forall is_byte buffer -> 5 <= Z.of_nat (length buffer) ->
  exists s0 s n1 n2 n3 s',
    setup b c = Done s0 /\ plane_run b s0 os = Done s /\
    plane_run b s (replicate n1 (RlcThread now) ++ replicate n2 (MacGrant buffer now) ++
                   replicate n3 PdcpThread) = Done s' /\
    up (rx_l2 s') = handed_up b <$> packets os /\ in_flight b s' = 0%nat.
Proof.
  intros O Ho HT HB H5.
  destruct (run_from_setup b c snl os O Ho HT)
    as (s0 & t0 & r0 & s & dl & rest & inds & q & out & w & Es & Er & Ea & HF & I & P & S2 & G & Hid).
  rewrite Ea in HT. apply budget_parts in HT as [HT Hn]. apply Forall_app in HF as [_ HF].
  destruct (drain_out b t0 r0 snl P Hid now _ _ _ _ _ _ _ _ I HF HT eq_refl) as (s1 & q1 & w1 & E1 & I1).
  destruct (drain_rlc b t0 r0 snl buffer now ltac:(split; [done|intros _; lia]) H5 (Z.to_nat w1) _ _ _ _ _ _ I1)
    as (s2 & inds2 & w2 & E2 & I2); [lia|].
  destruct (drain_ind b t0 r0 snl P S2 G _ _ _ _ _ _ I2 HF Hn eq_refl) as (s3 & E3 & I3).
  exists s0, s, (length out), (Z.to_nat w1), (length inds2), s3. split_and!; try done.
  - rewrite !plane_run_app, E1. cbn [mbind outcome_bind]. rewrite plane_run_app, E2. cbn [mbind outcome_bind]. exact E3.
  - rewrite Ea. apply I3.
  - unfold in_flight. rewrite (pending_link b _ _ _ _ _ _ _ _ _ (po_link _ _ _ _ _ _ _ _ _ _ _ I3) eq_refl),
      (po_ind _ _ _ _ _ _ _ _ _ _ _ I3), (po_out _ _ _ _ _ _ _ _ _ _ _ I3). done.
Qed.

(** ** A bearer of 12-bit SNs, ciphered and integrity protected, with SDAP headers *)

Definition demo_bearer (down : bool) : bearer_t := mk_bearer 1 0x4601 7 1 4 10 9 false down.
Definition demo_pdcp_config : NR_PDCP_Config_t :=
  mk_pdcp_config (Some (mk_pdcp_config_drb (Some 7) (Some 1) (Some 1) true)) (Some 14) false.
Definition demo_config : bearer_config :=
  mk_config (mk_drb_to_add 1 (Some (PR_sdap_Config (Some (mk_sdap_config 10 true true true [9] None))))
               (Some demo_pdcp_config))
    (demo_drb 1) demo_keys.

Lemma demo_config_ok down : config_ok (demo_bearer down) demo_config 12.
Proof.
  split; cbn [demo_bearer b_ue b_rnti b_drb b_qfi b_lcid b_session demo_config c_drb c_rlc c_sec].
  - done.
  - unfold AVLBL_DRB. simpl. lia.
  - by eexists.
  - unfold SDAP_MAX_QFI. lia.
  - eexists _, _, 1, 7. repeat (split; [try reflexivity; try (right; reflexivity); lia|]). simpl. lia.
  - unfold known_algorithms. simpl. auto.
  - exists demo_um, 40. split; [reflexivity|]. split; [vm_compute; reflexivity|by right].
  - reflexivity.
  - simpl. lia.
Qed.

Definition demo_run : list plane_op :=
  [Packet [0x45; 1; 2; 3] 1; Packet [0x45; 4; 5] 2; RlcThread 0; TxTick 0 1; MacGrant (replicate 8 0) 0;
   RlcThread 0; RxTick 0 1; MacGrant (replicate 12 0) 0; Packet [0x45; 6] 3; PdcpThread].

Lemma demo_run_ok : Forall (plane_op_ok 12) demo_run /\ budget (packets demo_run) <= RLC_TX_MAXSIZE.
Proof.
  split; [|vm_compute; discriminate].
  unfold demo_run. repeat constructor; simpl; unfold is_byte; try lia; done.
Qed.

(** The run, evaluated in both directions: the first packet has been handed up,
    the second is on its way through RLC, the third waits for RLC. *)
Example user_plane_run : forall down : bool,
  (s0 ← @setup toy_crypto (demo_bearer down) demo_config;
   s ← @plane_run toy_crypto (demo_bearer down) s0 demo_run;
   Done (up (rx_l2 s), in_flight (demo_bearer down) s))
  = Done ([handed_up (demo_bearer down) [0x45; 1; 2; 3]], 2%nat).
Proof. intros [|]; vm_compute; reflexivity. Qed.

Lemma user_plane_lossless_witness :
  exists s0 s dl rest,
    @setup toy_crypto (demo_bearer true) demo_config = Done s0 /\
    @plane_run toy_crypto (demo_bearer true) s0 demo_run = Done s /\ packets demo_run = dl ++ rest /\
    up (rx_l2 s) = handed_up (demo_bearer true) <$> dl /\ length rest = in_flight (demo_bearer true) s /\
    (in_flight (demo_bearer true) s = 0%nat -> up (rx_l2 s) = handed_up (demo_bearer true) <$> packets demo_run).
Proof.
  apply (user_plane_lossless toy_crypto toy_crypto_laws (demo_bearer true) demo_config 12 demo_run).
  - apply demo_config_ok.
  - apply demo_run_ok.
  - apply demo_run_ok.
Defined.

Lemma user_plane_drains_witness :
  exists s0 s n1 n2 n3 s',
    @setup toy_crypto (demo_bearer false) demo_config = Done s0 /\
    @plane_run toy_crypto (demo_bearer false) s0 demo_run = Done s /\
    @plane_run toy_crypto (demo_bearer false) s (replicate n1 (RlcThread 0) ++
      replicate n2 (MacGrant (replicate 5 0) 0) ++ replicate n3 PdcpThread) = Done s' /\
    up (rx_l2 s') = handed_up (demo_bearer false) <$> packets demo_run /\ in_flight (demo_bearer false) s' = 0%nat.
Proof.
  apply (user_plane_drains toy_crypto toy_crypto_laws (demo_bearer false) demo_config 12 demo_run (replicate 5 0) 0).
  - apply demo_config_ok.
  - apply demo_run_ok.
  - apply demo_run_ok.
  - unfold is_byte. repeat constructor; lia.
  - simpl. lia.
Defined.
