(* ===== verification/Gf2.v ===== *)
(** Polynomials over GF(2), written as non-negative integers (bit [i] is the coefficient of x^i):
    the addition is [Z.lxor], the product by x^k is a shift, the product is the carry-less
    multiplication [pmul].  [cong P] is the congruence modulo the polynomial [P]; it is compatible
    with the operations, and a remainder of degree less than the one of [P] is unique.  The files of
    the CRCs use it as the reference of what a CRC is. *)

From S2P Require Import Prelude.
From Stdlib Require Import Setoid Morphisms Btauto.

(** ** Bits *)

Lemma bits_lt a n : 0 <= a -> 0 <= n -> (forall i, n <= i -> Z.testbit a i = false) -> a < 2 ^ n.
Proof.
  intros Ha Hn H. destruct (Z.eq_dec a 0) as [->|Hz]; [apply Z.pow_pos_nonneg; lia|].
  apply Z.log2_lt_pow2; [lia|]. destruct (Z.lt_ge_cases (Z.log2 a) n) as [L|L]; [done|].
  specialize (H _ L). rewrite Z.bit_log2 in H; [done|lia].
Qed.

Lemma lt_bits a n i : 0 <= a < 2 ^ n -> n <= i -> Z.testbit a i = false.
Proof.
  intros Ha Hi. destruct (Z.eq_dec a 0) as [->|Hz]; [apply Z.testbit_0_l|].
  apply Z.bits_above_log2; [lia|]. assert (Z.log2 a < n) by (apply Z.log2_lt_pow2; lia). lia.
Qed.

Lemma lxor_lt a b n : 0 <= n -> 0 <= a < 2 ^ n -> 0 <= b < 2 ^ n -> 0 <= Z.lxor a b < 2 ^ n.
Proof.
  intros Hn Ha Hb. split; [apply Z.lxor_nonneg; lia|].
  apply bits_lt; [apply Z.lxor_nonneg; lia|done|]. intros i Hi.
  by rewrite Z.lxor_spec, (lt_bits a n), (lt_bits b n).
Qed.

Lemma shiftl_lt a n k : 0 <= k -> 0 <= n -> 0 <= a < 2 ^ n -> 0 <= Z.shiftl a k < 2 ^ (n + k).
Proof.
  intros. rewrite Z.shiftl_mul_pow2, Z.pow_add_r by lia.
  assert (0 < 2 ^ k) by (apply Z.pow_pos_nonneg; lia). nia.
Qed.

Lemma shiftr_lt a n k : 0 <= k -> 0 <= n -> 0 <= a < 2 ^ (n + k) -> 0 <= Z.shiftr a k < 2 ^ n.
Proof.
  intros. rewrite Z.shiftr_div_pow2 by lia. rewrite Z.pow_add_r in * by lia.
  assert (0 < 2 ^ k) by (apply Z.pow_pos_nonneg; lia).
  split; [apply Z.div_pos; lia | apply Z.div_lt_upper_bound; lia].
Qed.

(** A number is its high part and its low part. *)
Lemma hi_lo a k : 0 <= k -> a = Z.lxor (Z.shiftl (Z.shiftr a k) k) (a mod 2 ^ k).
Proof.
  intros Hk. apply Z.bits_inj'. intros i Hi. rewrite Z.lxor_spec.
  rewrite Z.shiftl_spec by lia. destruct (Z.lt_ge_cases i k).
  - rewrite (Z.testbit_neg_r _ (i - k)) by lia. by rewrite Z.mod_pow2_bits_low, xorb_false_l by lia.
  - rewrite Z.mod_pow2_bits_high, xorb_false_r, Z.shiftr_spec by lia. f_equal; lia.
Qed.

Lemma mod_xor a b k : 0 <= k -> (Z.lxor a b) mod 2 ^ k = Z.lxor (a mod 2 ^ k) (b mod 2 ^ k).
Proof.
  intros. apply Z.bits_inj'. intros i Hi. rewrite Z.lxor_spec. destruct (Z.lt_ge_cases i k).
  - by rewrite !Z.mod_pow2_bits_low, Z.lxor_spec by lia.
  - by rewrite !Z.mod_pow2_bits_high by lia.
Qed.

Lemma shiftl_mod_0 a k m : 0 <= m <= k -> (Z.shiftl a k) mod 2 ^ m = 0.
Proof.
  intros. apply Z.bits_inj'. intros i Hi. rewrite Z.testbit_0_l. destruct (Z.lt_ge_cases i m).
  - rewrite Z.mod_pow2_bits_low, Z.shiftl_spec by lia. apply Z.testbit_neg_r. lia.
  - by apply Z.mod_pow2_bits_high; lia.
Qed.

(** ** The product *)

(** The product of [a] by the [n] low coefficients of [b]. *)
Fixpoint pmul (n : nat) (a b : Z) : Z :=
  match n with
  | O => 0
  | S m => Z.lxor (if Z.testbit b (Z.of_nat m) then Z.shiftl a (Z.of_nat m) else 0) (pmul m a b)
  end.

Lemma lxor_swap a b c d : Z.lxor (Z.lxor a b) (Z.lxor c d) = Z.lxor (Z.lxor a c) (Z.lxor b d).
Proof.
  apply Z.bits_inj'. intros i _. rewrite !Z.lxor_spec. btauto.
Qed.

Lemma pmul_xor_l n a a' b : pmul n (Z.lxor a a') b = Z.lxor (pmul n a b) (pmul n a' b).
Proof.
  induction n as [|m IH]; simpl; [done|]. rewrite IH, Z.shiftl_lxor.
  destruct (Z.testbit b (Z.of_nat m)); [apply lxor_swap | by rewrite !Z.lxor_0_l].
Qed.

Lemma pmul_xor_r n a b b' : pmul n a (Z.lxor b b') = Z.lxor (pmul n a b) (pmul n a b').
Proof.
  induction n as [|m IH]; simpl; [done|]. rewrite IH, Z.lxor_spec, lxor_swap. f_equal.
  by destruct (Z.testbit b _), (Z.testbit b' _); simpl; rewrite ?Z.lxor_nilpotent, ?Z.lxor_0_l, ?Z.lxor_0_r.
Qed.

Lemma pmul_0_l n b : pmul n 0 b = 0.
Proof. induction n as [|m IH]; simpl; [done|]. rewrite IH, Z.shiftl_0_l. by destruct (Z.testbit b _). Qed.

Lemma pmul_shiftl_l n a b k : 0 <= k -> pmul n (Z.shiftl a k) b = Z.shiftl (pmul n a b) k.
Proof.
  intros Hk. induction n as [|m IH]; simpl; [by rewrite Z.shiftl_0_l|].
  rewrite IH, Z.shiftl_lxor. f_equal. destruct (Z.testbit b _); [|by rewrite Z.shiftl_0_l].
  rewrite !Z.shiftl_shiftl by lia. f_equal; lia.
Qed.

(** The product depends on the [n] low coefficients of the second operand only. *)
Lemma pmul_ext n a b b' :
  (forall i, 0 <= i < Z.of_nat n -> Z.testbit b i = Z.testbit b' i) -> pmul n a b = pmul n a b'.
Proof.
  induction n as [|m IH]; intros H; simpl; [done|].
  rewrite (H (Z.of_nat m)) by lia. f_equal. apply IH. intros i Hi. apply H. lia.
Qed.

Lemma pmul_mod n a b : pmul n a (b mod 2 ^ Z.of_nat n) = pmul n a b.
Proof. apply pmul_ext. intros i Hi. apply Z.mod_pow2_bits_low; lia. Qed.

Lemma pmul_more n k a b : 0 <= b < 2 ^ Z.of_nat n -> pmul (k + n) a b = pmul n a b.
Proof.
  intros Hb. induction k as [|k IH]; [done|]. simpl.
  rewrite (lt_bits b (Z.of_nat n) (Z.of_nat (k + n)) Hb) by lia. by rewrite Z.lxor_0_l.
Qed.

Lemma pmul_shiftl_r n a b k :
  pmul (n + k) a (Z.shiftl b (Z.of_nat k)) = Z.shiftl (pmul n a b) (Z.of_nat k).
Proof.
  induction n as [|m IH]; simpl.
  - rewrite Z.shiftl_0_l. transitivity (pmul k a 0).
    + apply pmul_ext. intros i Hi. rewrite Z.shiftl_spec, Z.testbit_0_l by lia. apply Z.testbit_neg_r. lia.
    + generalize k. intros k'. induction k' as [|k' IH]; simpl; [done|]. by rewrite Z.testbit_0_l, IH.
  - rewrite IH, Z.shiftl_lxor. f_equal. rewrite Z.shiftl_spec by lia.
    replace (Z.of_nat (m + k) - Z.of_nat k) with (Z.of_nat m) by lia.
    destruct (Z.testbit b _); [|by rewrite Z.shiftl_0_l].
    rewrite Z.shiftl_shiftl by lia. f_equal; lia.
Qed.

Lemma pmul_bound n a b d : 0 <= d -> 0 <= a < 2 ^ (d + 1) -> 0 <= pmul n a b < 2 ^ (d + Z.of_nat n).
Proof.
  intros Hd Ha. induction n as [|m IH]; simpl; [split; [lia|apply Z.pow_pos_nonneg; lia]|].
  apply lxor_lt; [lia| |].
  - destruct (Z.testbit b _); [|split; [lia|apply Z.pow_pos_nonneg; lia]].
    replace (d + Z.of_nat (S m)) with (d + 1 + Z.of_nat m) by lia. apply shiftl_lt; lia.
  - split; [lia|]. eapply Z.lt_le_trans; [apply IH|]. apply Z.pow_le_mono_r; lia.
Qed.

(** The coefficient of x^0 of a product. *)
Lemma pmul_bit0 m a b : Z.testbit (pmul (S m) a b) 0 = Z.testbit a 0 && Z.testbit b 0.
Proof.
  induction m as [|m IH].
  - simpl. rewrite Z.lxor_0_r, Z.shiftl_0_r.
    by destruct (Z.odd b); rewrite ?andb_true_r, ?andb_false_r.
  - change (pmul (S (S m)) a b) with
      (Z.lxor (if Z.testbit b (Z.of_nat (S m)) then Z.shiftl a (Z.of_nat (S m)) else 0) (pmul (S m) a b)).
    rewrite Z.lxor_spec, IH. destruct (Z.testbit b (Z.of_nat (S m))).
    + rewrite Z.shiftl_spec, Z.testbit_neg_r by lia. apply xorb_false_l.
    + rewrite Z.testbit_0_l. apply xorb_false_l.
Qed.

(** ** Multiples of a polynomial *)

Definition mult (P a : Z) : Prop := exists n q, a = pmul n P q.

Lemma mult_0 P : mult P 0.
Proof. by exists 0%nat, 0. Qed.

Lemma mult_xor P a b : mult P a -> mult P b -> mult P (Z.lxor a b).
Proof.
  intros (n & q & ->) (m & r & ->). exists (n + m)%nat, (Z.lxor (q mod 2 ^ Z.of_nat n) (r mod 2 ^ Z.of_nat m)).
  assert (forall k, 0 < 2 ^ Z.of_nat k) as Hp by (intros; apply Z.pow_pos_nonneg; lia).
  rewrite pmul_xor_r. f_equal.
  - rewrite Nat.add_comm, pmul_more by (apply Z.mod_pos_bound, Hp). by rewrite pmul_mod.
  - rewrite pmul_more by (apply Z.mod_pos_bound, Hp). by rewrite pmul_mod.
Qed.

Lemma mult_shiftl P a k : 0 <= k -> mult P a -> mult P (Z.shiftl a k).
Proof.
  intros Hk (n & q & ->). exists (n + Z.to_nat k)%nat, (Z.shiftl q k).
  rewrite <- (Z2Nat.id k) at 3 by lia. by rewrite pmul_shiftl_r, Z2Nat.id by lia.
Qed.

Lemma mult_self P : mult P P.
Proof. exists 1%nat, 1. simpl. by rewrite Z.shiftl_0_r, Z.lxor_0_r. Qed.

Lemma mult_pmul P n a c : mult P a -> mult P (pmul n a c).
Proof.
  intros Ha. induction n as [|m IH]; simpl; [apply mult_0|]. apply mult_xor; [|done].
  destruct (Z.testbit c _); [apply mult_shiftl; [lia|done] | apply mult_0].
Qed.

(** A multiple whose degree is less than the one of the polynomial is zero. *)
Lemma mult_small P a d : 0 <= d -> 2 ^ d <= P < 2 ^ (d + 1) -> mult P a -> 0 <= a < 2 ^ d -> a = 0.
Proof.
  intros Hd HP (n & q & ->). assert (0 < 2 ^ d) by (apply Z.pow_pos_nonneg; lia).
  induction n as [|m IH]; simpl; [done|].
  destruct (Z.testbit q (Z.of_nat m)); [|by rewrite Z.lxor_0_l].
  intros Hb. exfalso.
  assert (Z.testbit P d = true) as HPd.
  { assert (Z.log2 P = d) as <- by (apply Z.log2_unique; lia). apply Z.bit_log2; lia. }
  assert (Z.testbit (Z.lxor (Z.shiftl P (Z.of_nat m)) (pmul m P q)) (d + Z.of_nat m) = true) as Ht.
  { rewrite Z.lxor_spec, Z.shiftl_spec by lia.
    replace (d + Z.of_nat m - Z.of_nat m) with d by lia. rewrite HPd.
    rewrite (lt_bits (pmul m P q) (d + Z.of_nat m)); [done|apply pmul_bound; lia|lia]. }
  rewrite (lt_bits _ d) in Ht by lia. done.
Qed.

(** When the polynomial has a constant term, x is invertible modulo it. *)
Lemma mult_unshift1 P a : Z.testbit P 0 = true -> mult P (Z.shiftl a 1) -> mult P a.
Proof.
  intros HP (n & q & E). destruct n as [|m].
  - simpl in E. rewrite Z.shiftl_mul_pow2 in E by lia. replace a with 0 by lia. apply mult_0.
  - exists m, (Z.shiftr q 1).
    assert (Z.testbit q 0 = false) as Hq.
    { assert (Z.testbit (pmul (S m) P q) 0 = Z.testbit q 0) as <- by (by rewrite pmul_bit0, HP).
      rewrite <- E, Z.shiftl_spec by lia. apply Z.testbit_neg_r. lia. }
    assert (q = Z.shiftl (Z.shiftr q 1) (Z.of_nat 1)) as Eq.
    { apply Z.bits_inj'. intros i Hi. rewrite Z.shiftl_spec by lia. destruct (Z.eq_dec i 0) as [->|Hn].
      - by rewrite (Z.testbit_neg_r _ (0 - Z.of_nat 1)) by lia.
      - rewrite Z.shiftr_spec by lia. f_equal; lia. }
    rewrite Eq, <- Nat.add_1_r, pmul_shiftl_r in E. apply (f_equal (fun z => Z.shiftr z 1)) in E.
    change (Z.of_nat 1) with 1 in E. rewrite !Z.shiftr_shiftl_l, !Z.shiftl_0_r in E by lia. done.
Qed.

Lemma mult_unshift P a k : 0 <= k -> Z.testbit P 0 = true -> mult P (Z.shiftl a k) -> mult P a.
Proof.
  intros Hk HP. revert a. pattern k. apply natlike_ind; [| |done].
  - intros a. by rewrite Z.shiftl_0_r.
  - intros j Hj IH a H. apply IH, mult_unshift1; [done|]. rewrite Z.shiftl_shiftl by lia. done.
Qed.

(** ** Congruence *)

Definition cong (P a b : Z) : Prop := mult P (Z.lxor a b).
Notation "a ≈[ P ] b" := (cong P a b) (at level 70, P at next level, format "a  ≈[ P ]  b") : oai_scope.

Lemma lxor_tele a b c : Z.lxor a c = Z.lxor (Z.lxor a b) (Z.lxor b c).
Proof. apply Z.bits_inj'. intros i _. rewrite !Z.lxor_spec. btauto. Qed.

#[export] Instance cong_equiv P : Equivalence (cong P).
Proof.
  split.
  - intros a. unfold cong. rewrite Z.lxor_nilpotent. apply mult_0.
  - intros a b H. unfold cong. by rewrite Z.lxor_comm.
  - intros a b c H1 H2. unfold cong. rewrite (lxor_tele a b c). by apply mult_xor.
Qed.

#[export] Instance cong_lxor P : Proper (cong P ==> cong P ==> cong P) Z.lxor.
Proof.
  intros a a' Ha b b' Hb. unfold cong. rewrite lxor_swap. by apply mult_xor.
Qed.

#[export] Instance cong_pmul P n : Proper (cong P ==> eq ==> cong P) (pmul n).
Proof.
  intros a a' Ha b b' <-. unfold cong. rewrite <- pmul_xor_l. by apply mult_pmul.
Qed.

Lemma cong_shiftl P a b k : 0 <= k -> a ≈[P] b -> Z.shiftl a k ≈[P] Z.shiftl b k.
Proof. intros Hk H. unfold cong. rewrite <- Z.shiftl_lxor. by apply mult_shiftl. Qed.

(** The remainder is unique. *)
Lemma cong_unique P d a b :
  0 <= d -> 2 ^ d <= P < 2 ^ (d + 1) -> 0 <= a < 2 ^ d -> 0 <= b < 2 ^ d -> a ≈[P] b -> a = b.
Proof.
  intros Hd HP Ha Hb H. apply Z.lxor_eq. apply (mult_small P _ d); try done.
  by apply lxor_lt.
Qed.

Lemma mult_cong P a : mult P a <-> a ≈[P] 0.
Proof. unfold cong. by rewrite Z.lxor_0_r. Qed.

(** Multiples of [P] shifted: x^k divides both sides. *)
Lemma mult_shift_both P a k : 0 <= k -> mult (Z.shiftl P k) (Z.shiftl a k) <-> mult P a.
Proof.
  intros Hk. split; intros (n & q & E).
  - exists n, q. rewrite pmul_shiftl_l in E by done.
    apply (f_equal (fun z => Z.shiftr z k)) in E.
    rewrite !Z.shiftr_shiftl_l, !Z.sub_diag, !Z.shiftl_0_r in E by lia. done.
  - exists n, q. by rewrite E, pmul_shiftl_l.
Qed.

(** ** Division, to exhibit quotients *)

(** The remainder of [a] by [P] of degree [d], eliminating the coefficients of x^(d+n-1) down to x^d. *)
Fixpoint prem (n : nat) (P d a : Z) : Z :=
  match n with
  | O => a
  | S m => prem m P d (if Z.testbit a (d + Z.of_nat m) then Z.lxor a (Z.shiftl P (Z.of_nat m)) else a)
  end.

Lemma prem_cong n P d a : prem n P d a ≈[P] a.
Proof.
  revert a. induction n as [|m IH]; intros a; simpl; [reflexivity|]. rewrite IH.
  destruct (Z.testbit a _); [|reflexivity]. unfold cong.
  rewrite Z.lxor_comm, <- Z.lxor_assoc, Z.lxor_nilpotent, Z.lxor_0_l.
  apply mult_shiftl; [lia|apply mult_self].
Qed.

(** Two polynomials whose computed remainders agree are congruent. *)
Lemma cong_prem n P d a b : prem n P d a = b -> a ≈[P] b.
Proof. intros <-. symmetry. apply prem_cong. Qed.

(** ** Commutativity *)

Lemma pmul_1_l n b : pmul n 1 b = b mod 2 ^ Z.of_nat n.
Proof.
  induction n as [|m IH]; [by rewrite Z.mod_1_r|]. simpl pmul. rewrite IH.
  apply Z.bits_inj'. intros i Hi. rewrite Z.lxor_spec.
  destruct (Z.lt_trichotomy i (Z.of_nat m)) as [L|[->|L]].
  - rewrite !Z.mod_pow2_bits_low by lia. destruct (Z.testbit b (Z.of_nat m)).
    + by rewrite Z.shiftl_spec, Z.testbit_neg_r, xorb_false_l by lia.
    + by rewrite Z.testbit_0_l, xorb_false_l.
  - rewrite Z.mod_pow2_bits_high, Z.mod_pow2_bits_low, xorb_false_r by lia.
    destruct (Z.testbit b (Z.of_nat m)); [|apply Z.testbit_0_l].
    by rewrite Z.shiftl_spec, Z.sub_diag by lia.
  - rewrite !Z.mod_pow2_bits_high, xorb_false_r by lia.
    destruct (Z.testbit b (Z.of_nat m)); [|apply Z.testbit_0_l].
    rewrite Z.shiftl_spec by lia. apply (lt_bits 1 1); lia.
Qed.

Lemma pmul_pow2_r n a k : (k < n)%nat -> pmul n a (Z.shiftl 1 (Z.of_nat k)) = Z.shiftl a (Z.of_nat k).
Proof.
  intros H. replace n with (n - k + k)%nat by lia. rewrite pmul_shiftl_r. f_equal.
  replace (n - k)%nat with (n - k - 1 + 1)%nat by lia. rewrite pmul_more by (simpl; lia).
  simpl. by rewrite Z.shiftl_0_r, Z.lxor_0_r.
Qed.

Lemma pmul_0_r n a : pmul n a 0 = 0.
Proof. induction n as [|m IH]; simpl; [done|]. by rewrite Z.testbit_0_l, IH. Qed.

(** The coefficient of x^m of a polynomial of degree at most [m], set apart. *)
Lemma top_bit a m : 0 <= m -> 0 <= a < 2 ^ (m + 1) ->
  a = Z.lxor (if Z.testbit a m then Z.shiftl 1 m else 0) (a mod 2 ^ m).
Proof.
  intros Hm Ha. rewrite (hi_lo a m Hm) at 1. f_equal.
  assert (0 <= Z.shiftr a m < 2 ^ 1) as Hs by (apply shiftr_lt; [lia|lia|by rewrite Z.add_comm]).
  assert (Z.testbit a m = Z.testbit (Z.shiftr a m) 0) as -> by (by rewrite Z.shiftr_spec, Z.add_0_l by lia).
  assert (Z.shiftr a m = 0 \/ Z.shiftr a m = 1) as [-> | ->] by lia; simpl; [apply Z.shiftl_0_l | done].
Qed.

Lemma pmul_comm n a b :
  0 <= a < 2 ^ Z.of_nat n -> 0 <= b < 2 ^ Z.of_nat n -> pmul n a b = pmul n b a.
Proof.
  intros Ha Hb.
  assert (forall m a, (m <= n)%nat -> 0 <= a < 2 ^ Z.of_nat m -> pmul n a b = pmul n b a) as H;
    [|by apply (H n)].
  clear a Ha. induction m as [|m IH]; intros a Hm Ha.
  - assert (a = 0) as -> by (simpl in Ha; lia). by rewrite pmul_0_l, pmul_0_r.
  - rewrite (top_bit a (Z.of_nat m)) by (rewrite ?Nat2Z.inj_succ in Ha; unfold Z.succ in Ha; lia).
    rewrite pmul_xor_l, pmul_xor_r. f_equal.
    + destruct (Z.testbit a _); [|by rewrite pmul_0_l, pmul_0_r].
      rewrite pmul_shiftl_l, pmul_1_l, Z.mod_small, pmul_pow2_r by (done || lia). done.
    + apply IH; [lia|]. apply Z.mod_pos_bound, Z.pow_pos_nonneg; lia.
Qed.

Lemma pmul_swap n m a b c : pmul n (pmul m a b) c = pmul m (pmul n a c) b.
Proof.
  induction m as [|m IH]; simpl; [apply pmul_0_l|]. rewrite pmul_xor_l, IH. f_equal.
  destruct (Z.testbit b _); [apply pmul_shiftl_l; lia|apply pmul_0_l].
Qed.

(** The product by a polynomial whose leading term is set apart. *)
Lemma pmul_lead n a b : 0 <= b < 2 ^ Z.of_nat n ->
  pmul (S n) a (2 ^ Z.of_nat n + b) = Z.lxor (Z.shiftl a (Z.of_nat n)) (pmul n a b).
Proof.
  intros Hb. simpl. assert ((2 ^ Z.of_nat n + b) mod 2 ^ Z.of_nat n = b) as Hm.
  { rewrite Z.add_comm. rewrite <- (Z.mul_1_l (2 ^ Z.of_nat n)) at 1. rewrite Z.mod_add by lia. by apply Z.mod_small. }
  assert (Z.testbit (2 ^ Z.of_nat n + b) (Z.of_nat n) = true) as ->.
  { rewrite <- (Z.log2_unique (2 ^ Z.of_nat n + b) (Z.of_nat n)) at 2; [apply Z.bit_log2; lia|lia|].
    unfold Z.succ. rewrite Z.pow_add_r by lia. lia. }
  f_equal. by rewrite <- pmul_mod, Hm.
Qed.

Lemma prem_bound n P d a : 0 <= d -> 2 ^ d <= P < 2 ^ (d + 1) -> 0 <= a < 2 ^ (d + Z.of_nat n) -> 0 <= prem n P d a < 2 ^ d.
Proof.
  intros Hd HP. revert a. induction n as [|m IH]; intros a Ha; simpl.
  - by replace (d + Z.of_nat 0) with d in Ha by lia.
  - apply IH. set (t := d + Z.of_nat m). rewrite Nat2Z.inj_succ in Ha. unfold Z.succ in Ha. rewrite Z.add_assoc in Ha.
    fold t in Ha.
    assert (Z.testbit P d = true) as HPd.
    { assert (Z.log2 P = d) as <- by (apply Z.log2_unique; [lia|unfold Z.succ; lia]). apply Z.bit_log2. lia. }
    assert (0 <= Z.shiftl P (Z.of_nat m) < 2 ^ (d + 1 + Z.of_nat m)) as Bs by (apply shiftl_lt; lia).
    replace (d + 1 + Z.of_nat m) with (t + 1) in Bs by lia.
    destruct (Z.testbit a t) eqn:Et.
    + split; [apply Z.lxor_nonneg; lia|]. apply bits_lt; [apply Z.lxor_nonneg; lia|lia|]. intros i Hi. rewrite Z.lxor_spec.
      destruct (Z.eq_dec i t) as [->|Hn].
      * rewrite Et, Z.shiftl_spec by lia. unfold t. by replace (d + Z.of_nat m - Z.of_nat m) with d by lia; rewrite HPd.
      * by rewrite (lt_bits a (t + 1)), (lt_bits (Z.shiftl P (Z.of_nat m)) (t + 1)) by lia.
    + split; [lia|]. apply bits_lt; [lia|lia|]. intros i Hi. destruct (Z.eq_dec i t) as [->|Hn]; [done|].
      by apply (lt_bits a (t + 1)); lia.
Qed.
