(* ===== verification/CrcFold.v ===== *)
(** The CRC by carry-less multiplication, openair1/PHY/CODING/crc.h: folding of the message 16 bytes
    at a time and Barrett reduction (crc32_folding_round, crc32_reduce_128_to_64,
    crc32_reduce_64_to_32, crc32_calc_pclmulqdq), with the byte shifts of crcext.h and bswap4 of
    types.h.  A 128-bit register is an integer below 2^128; the SSE intrinsics are the operations of
    the instruction set, written out.  The result is characterized by the congruence of Gf2. *)

From S2P Require Import Prelude Gf2.
From Stdlib Require Import Setoid Morphisms Btauto.

(** ** Registers *)

Definition byte_at (a i : Z) : Z := Z.shiftr a (8 * i) mod 2 ^ 8.
(** The integer of a list of bytes, the first one being the least significant. *)
Definition of_bytes (l : list Z) : Z := foldr (fun b a => Z.lxor b (Z.shiftl a 8)) 0 l.
(** The polynomial of a message: the first bit of a byte is its most significant one. *)
Definition be (l : list Z) : Z := fold_left (fun a b => Z.lxor (Z.shiftl a 8) b) l 0.

Definition lanes : list Z := [0; 1; 2; 3; 4; 5; 6; 7; 8; 9; 10; 11; 12; 13; 14; 15].

Definition mm_loadu_si128 (buf : list Z) (off : Z) : outcome Z := l ← slice buf off 16; Done (of_bytes l).
Definition mm_shuffle_epi8 (a b : Z) : Z :=
  of_bytes (map (fun i => let m := byte_at b i in if Z.testbit m 7 then 0 else byte_at a (Z.land m 15)) lanes).
Definition mm_slli_si128 (a n : Z) : Z := Z.shiftl a (8 * n) mod 2 ^ 128.
Definition mm_srli_si128 (a n : Z) : Z := Z.shiftr a (8 * n).
Definition mm_setr_epi32 (e0 e1 e2 e3 : Z) : Z :=
  Z.lor e0 (Z.lor (Z.shiftl e1 32) (Z.lor (Z.shiftl e2 64) (Z.shiftl e3 96))).
(** [_mm_insert_epi32(a, v, 0)] and [_mm_extract_epi32(a, 0)] *)
Definition mm_insert_epi32_0 (a v : Z) : Z := Z.lxor (Z.shiftl (Z.shiftr a 32) 32) (u32 v).
Definition mm_extract_epi32_0 (a : Z) : Z := u32 a.

Definition half (a : Z) (high : bool) : Z := if high then Z.shiftr a 64 else a mod 2 ^ 64.
Definition mm_clmulepi64_si128 (a b imm : Z) : Z :=
  pmul 64 (half a (Z.testbit imm 0)) (half b (Z.testbit imm 4)).

(** ** The code *)

Record crc_pclmulqdq_ctx := mk_ctx { k1 : Z; k2 : Z; k3 : Z; q : Z; p : Z; res : Z }.

(** [simde_mm_load_si128((simde__m128i * )(&params->k1))] and the like: two adjacent 64-bit fields. *)
Definition load_pair (lo hi : Z) : Z := Z.lxor lo (Z.shiftl hi 64).

Definition crc_xmm_be_le_swap128 : Z := mm_setr_epi32 0x0c0d0e0f 0x08090a0b 0x04050607 0x00010203.

Definition crc_xmm_shift_tab : list Z :=
  [0xff; 0xff; 0xff; 0xff; 0xff; 0xff; 0xff; 0xff; 0xff; 0xff; 0xff; 0xff; 0xff; 0xff; 0xff; 0xff;
   0x00; 0x01; 0x02; 0x03; 0x04; 0x05; 0x06; 0x07; 0x08; 0x09; 0x0a; 0x0b; 0x0c; 0x0d; 0x0e; 0x0f;
   0xff; 0xff; 0xff; 0xff; 0xff; 0xff; 0xff; 0xff; 0xff; 0xff; 0xff; 0xff; 0xff; 0xff; 0xff; 0xff].

Definition xmm_shift_right (reg num : Z) : outcome Z :=
  p ← mm_loadu_si128 crc_xmm_shift_tab (16 + num); Done (mm_shuffle_epi8 reg p).
Definition xmm_shift_left (reg num : Z) : outcome Z :=
  p ← mm_loadu_si128 crc_xmm_shift_tab (16 - num); Done (mm_shuffle_epi8 reg p).

Definition bswap4 (val : Z) : Z :=
  Z.lor (Z.shiftr val 24)
    (Z.lor (Z.shiftr (Z.land val 0xff0000) 8)
       (Z.lor (u32 (Z.shiftl (Z.land val 0xff00) 8)) (u32 (Z.shiftl val 24)))).

Definition crc32_folding_round (data_block k1_k2 fold : Z) : Z :=
  let tmp := mm_clmulepi64_si128 fold k1_k2 0x11 in
  Z.lxor (mm_clmulepi64_si128 fold k1_k2 0x00) (Z.lxor data_block tmp).

Definition crc32_reduce_128_to_64 (data128 k3_q : Z) : Z :=
  let tmp := Z.lxor (mm_clmulepi64_si128 data128 k3_q 0x01) data128 in
  let data128 := Z.lxor (mm_clmulepi64_si128 tmp k3_q 0x01) data128 in
  mm_srli_si128 (mm_slli_si128 data128 8) 8.

Definition crc32_reduce_64_to_32 (fold k3_q p_res : Z) : Z :=
  let temp := mm_clmulepi64_si128 (mm_srli_si128 fold 4) k3_q 0x10 in
  let temp := mm_srli_si128 (Z.lxor temp fold) 4 in
  let temp := mm_clmulepi64_si128 temp p_res 0 in
  mm_extract_epi32_0 (Z.lxor temp fold).

(** [for (n = 16 + 16 - n; n < (data_len - 16); n += 16)] *)
Fixpoint crc32_fold_loop (fuel : nat) (data : list Z) (data_len k n fold : Z) : outcome (Z * Z) :=
  match fuel with
  | O => Undef
  | S fuel =>
      if n <? u32 (data_len - 16) then
        new_data ← mm_loadu_si128 data n;
        let new_data := mm_shuffle_epi8 new_data crc_xmm_be_le_swap128 in
        crc32_fold_loop fuel data data_len k (u32 (n + 16)) (crc32_folding_round new_data k fold)
      else Done (n, fold)
  end.

(** What follows the first round when there are more than 2 blocks; [n] is the padding. *)
Definition crc32_fold_tail (data : list Z) (data_len k n fold : Z) : outcome Z :=
  '(n, fold) ← crc32_fold_loop (S (length data)) data data_len k (u32 (16 + 16 - n)) fold;
  new_data ← mm_loadu_si128 data (u32 (n - 4));
  let new_data := mm_shuffle_epi8 new_data crc_xmm_be_le_swap128 in
  let new_data := mm_slli_si128 new_data 4 in
  Done (crc32_folding_round new_data k fold).

(** The case of a message of more than 12 bytes; [fold] is the first load. *)
Definition crc32_fold_long (data : list Z) (data_len crc : Z) (params : crc_pclmulqdq_ctx) (fold : Z)
  : outcome Z :=
  let swap := crc_xmm_be_le_swap128 in
  let n := Z.land (u32 (u32 (Z.lnot data_len) + 1)) 15 in
  let fold := Z.lxor fold (mm_insert_epi32_0 0 crc) in
  let fold := mm_shuffle_epi8 fold swap in
  next_data ← mm_loadu_si128 data 16;
  let next_data := mm_shuffle_epi8 next_data swap in
  a ← xmm_shift_right next_data n;
  b ← xmm_shift_left fold (u32 (16 - n));
  let next_data := Z.lor a b in
  fold ← xmm_shift_right fold n;
  let next_data := if data_len <=? 32 then mm_slli_si128 (mm_srli_si128 next_data 4) 4 else next_data in
  let k := load_pair (k1 params) (k2 params) in
  let fold := crc32_folding_round next_data k fold in
  if data_len >? 32 then crc32_fold_tail data data_len k n fold else Done fold.

(** The pointers [data] and [params] are not NULL. *)
Definition crc32_calc_pclmulqdq (data : list Z) (data_len crc : Z) (params : crc_pclmulqdq_ctx) : outcome Z :=
  if data_len =? 0 then Done crc
  else
    let data_len := u32 (data_len + 4) in
    fold ← mm_loadu_si128 data 0;
    fold ← (if data_len <=? 16 then
              let fold := mm_shuffle_epi8 fold crc_xmm_be_le_swap128 in
              fold ← xmm_shift_right fold (u32 (20 - data_len));
              let fold := mm_slli_si128 fold 4 in
              let temp := mm_insert_epi32_0 0 (bswap4 crc) in
              temp ← xmm_shift_left temp (u32 (data_len - 4));
              Done (Z.lxor fold temp)
            else crc32_fold_long data data_len crc params fold);
    let k := load_pair (k3 params) (q params) in
    let fold := crc32_reduce_128_to_64 fold k in
    Done (crc32_reduce_64_to_32 fold k (load_pair (p params) (res params))).

(** ** Bytes of a register *)

Lemma byte_at_range a i : is_byte (byte_at a i).
Proof. unfold byte_at, is_byte. apply (Z.mod_pos_bound _ (2 ^ 8)). lia. Qed.

Lemma byte_at_bit a j : 0 <= j -> Z.testbit a j = Z.testbit (byte_at a (j / 8)) (j mod 8).
Proof.
  intros Hj. unfold byte_at. pose proof (Z.mod_pos_bound j 8 ltac:(lia)) as Hm.
  rewrite Z.mod_pow2_bits_low, Z.shiftr_spec by lia. f_equal. rewrite (Z.div_mod j 8) at 1 by lia. lia.
Qed.

Lemma m128_ext a b :
  0 <= a < 2 ^ 128 -> 0 <= b < 2 ^ 128 -> (forall i, 0 <= i < 16 -> byte_at a i = byte_at b i) -> a = b.
Proof.
  intros Ha Hb H. apply Z.bits_inj'. intros j Hj. destruct (Z.lt_ge_cases j 128) as [L|L].
  - rewrite (byte_at_bit a), (byte_at_bit b), H; try done.
    split; [apply Z.div_pos; lia | apply Z.div_lt_upper_bound; lia].
  - by rewrite (lt_bits a 128), (lt_bits b 128) by lia.
Qed.

Lemma byte_at_high a i : 0 <= a < 2 ^ 128 -> 16 <= i -> byte_at a i = 0.
Proof.
  intros Ha Hi. unfold byte_at. apply Z.bits_inj'. intros j Hj. rewrite Z.testbit_0_l.
  destruct (Z.lt_ge_cases j 8); [|by rewrite Z.mod_pow2_bits_high by lia].
  rewrite Z.mod_pow2_bits_low, Z.shiftr_spec by lia. apply (lt_bits a 128); lia.
Qed.

Lemma byte_at_shiftr a n i : 0 <= n -> 0 <= i -> byte_at (Z.shiftr a (8 * n)) i = byte_at a (n + i).
Proof. intros. unfold byte_at. rewrite Z.shiftr_shiftr by lia. do 2 f_equal. lia. Qed.

Lemma byte_at_shiftl a n i :
  0 <= n -> 0 <= i < 16 ->
  byte_at (Z.shiftl a (8 * n) mod 2 ^ 128) i = if i <? n then 0 else byte_at a (i - n).
Proof.
  intros Hn Hi. unfold byte_at. apply Z.bits_inj'. intros j Hj.
  destruct (Z.lt_ge_cases j 8).
  - rewrite Z.mod_pow2_bits_low, Z.shiftr_spec, Z.mod_pow2_bits_low, Z.shiftl_spec by lia.
    cif; zbool.
    + rewrite Z.testbit_0_l. apply Z.testbit_neg_r. lia.
    + rewrite Z.mod_pow2_bits_low, Z.shiftr_spec by lia. f_equal; lia.
  - rewrite Z.mod_pow2_bits_high by lia. cif; [by rewrite Z.testbit_0_l|].
    by rewrite Z.mod_pow2_bits_high by lia.
Qed.

Definition bytes (l : list Z) : Prop := Forall is_byte l.

Lemma of_bytes_bound l : bytes l -> 0 <= of_bytes l < 2 ^ (8 * Z.of_nat (length l)).
Proof.
  induction 1 as [|b l Hb Hl IH]; simpl; [lia|]. unfold is_byte in Hb.
  replace (8 * Z.of_nat (S (length l))) with (8 * Z.of_nat (length l) + 8) by lia.
  apply lxor_lt; [lia| |apply shiftl_lt; lia].
  split; [lia|]. apply Z.lt_le_trans with (2 ^ 8); [lia|]. apply Z.pow_le_mono_r; lia.
Qed.

Lemma byte_at_cons b a i : is_byte b -> 0 <= i ->
  byte_at (Z.lxor b (Z.shiftl a 8)) i = if i =? 0 then b else byte_at a (i - 1).
Proof.
  intros Hb Hi. unfold byte_at, is_byte in *. cif; zbool.
  - subst i. rewrite Z.shiftr_0_r, mod_xor, shiftl_mod_0, Z.lxor_0_r by lia. apply Z.mod_small; lia.
  - f_equal. rewrite Z.shiftr_lxor, Z.shiftr_shiftl_r by lia.
    replace (Z.shiftr b (8 * i)) with 0; [|symmetry; apply Z.shiftr_eq_0; [lia|]].
    + rewrite Z.lxor_0_l. f_equal; lia.
    + destruct (Z.eq_dec b 0) as [->|]; [simpl; lia|]. apply Z.log2_lt_pow2; [lia|].
      apply Z.lt_le_trans with (2 ^ 8); [lia|]. apply Z.pow_le_mono_r; lia.
Qed.

Lemma byte_at_of_bytes l i : bytes l -> byte_at (of_bytes l) (Z.of_nat i) = nth i l 0.
Proof.
  intros H. revert i. induction H as [|b l Hb Hl IH]; intros i; simpl.
  - unfold byte_at. rewrite Z.shiftr_0_l. by destruct i.
  - rewrite byte_at_cons by (done || lia). destruct i as [|i]; [done|].
    cif; zbool; [lia|]. rewrite <- IH. f_equal; lia.
Qed.

Lemma mm_shuffle_bound a b : 0 <= mm_shuffle_epi8 a b < 2 ^ 128.
Proof.
  apply of_bytes_bound. apply Forall_forall. intros x Hx. apply list_elem_of_fmap in Hx as (i & -> & _).
  simpl. cif; [unfold is_byte; lia|apply byte_at_range].
Qed.

Lemma byte_at_shuffle a b i : 0 <= i < 16 ->
  byte_at (mm_shuffle_epi8 a b) i =
    if Z.testbit (byte_at b i) 7 then 0 else byte_at a (Z.land (byte_at b i) 15).
Proof.
  intros Hi. unfold mm_shuffle_epi8. rewrite <- (Z2Nat.id i) by lia. rewrite byte_at_of_bytes.
  - set (f := fun i => let m := byte_at b i in if Z.testbit m 7 then 0 else byte_at a (Z.land m 15)).
    rewrite (nth_indep _ 0 (f 0)) by (rewrite length_map; simpl; lia).
    rewrite map_nth. replace (nth (Z.to_nat i) lanes 0) with (Z.of_nat (Z.to_nat i)); [done|]. clear f.
    assert (Forall (fun j => nth j lanes 0 = Z.of_nat j) (seq 0 16)) as HF by (repeat constructor).
    symmetry. apply (proj1 (Forall_forall _ _) HF). apply elem_of_seq. lia.
  - apply Forall_forall. intros x Hx. apply list_elem_of_fmap in Hx as (j & -> & _).
    cif; [unfold is_byte; lia|apply byte_at_range].
Qed.

(** A check of all the pairs of a rectangle. *)
Lemma forall_lanes (N : nat) (f : Z -> Z -> bool) :
  forallb (fun n => forallb (f (Z.of_nat n)) lanes) (seq 0 N) = true ->
  forall n i, 0 <= n < Z.of_nat N -> 0 <= i < 16 -> f n i = true.
Proof.
  rewrite forallb_forall. intros H n i Hn Hi.
  specialize (H (Z.to_nat n) ltac:(apply in_seq; lia)). rewrite forallb_forall in H.
  rewrite Z2Nat.id in H by lia. apply H. unfold lanes. simpl. lia.
Qed.

(** The mask of a shift is what the table holds at the offset. *)
Definition mask_right (n i : Z) : bool :=
  match mm_loadu_si128 crc_xmm_shift_tab (16 + n) with
  | Done m => byte_at m i =? (if n + i <? 16 then n + i else 255)
  | _ => false
  end.
Definition mask_left (n i : Z) : bool :=
  match mm_loadu_si128 crc_xmm_shift_tab (16 - n) with
  | Done m => byte_at m i =? (if i <? n then 255 else i - n)
  | _ => false
  end.

Lemma mask_right_ok n i : 0 <= n <= 16 -> 0 <= i < 16 -> mask_right n i = true.
Proof. intros Hn. apply (forall_lanes 17); [vm_compute; done|lia]. Qed.

Lemma mask_left_ok n i : 0 <= n <= 16 -> 0 <= i < 16 -> mask_left n i = true.
Proof. intros Hn. apply (forall_lanes 17); [vm_compute; done|lia]. Qed.

Lemma land_15 j : 0 <= j < 16 -> Z.testbit j 7 = false /\ Z.land j 15 = j.
Proof.
  intros Hj. split; [apply (lt_bits j 4); lia|].
  change 15 with (Z.ones 4). rewrite Z.land_ones by lia. apply Z.mod_small. lia.
Qed.

Lemma xmm_shift_right_spec reg num :
  0 <= num <= 16 -> 0 <= reg < 2 ^ 128 -> xmm_shift_right reg num = Done (Z.shiftr reg (8 * num)).
Proof.
  intros Hn Hr. unfold xmm_shift_right.
  pose proof (mask_right_ok num) as M. unfold mask_right in M.
  destruct (mm_loadu_si128 crc_xmm_shift_tab (16 + num)) as [m| |]; [|by specialize (M 0 Hn ltac:(lia))..].
  simpl. f_equal. apply m128_ext; [apply mm_shuffle_bound| |].
  { apply shiftr_lt; [lia|lia|]. split; [lia|]. eapply Z.lt_le_trans; [apply Hr|]. apply Z.pow_le_mono_r; lia. }
  intros i Hi. rewrite byte_at_shuffle, byte_at_shiftr by lia. specialize (M i Hn Hi).
  apply Z.eqb_eq in M. rewrite M. destruct (num + i <? 16) eqn:E; zbool.
  - destruct (land_15 (num + i)) as [-> ->]; [lia|done].
  - simpl. symmetry. by apply byte_at_high.
Qed.

Lemma xmm_shift_left_spec reg num :
  0 <= num <= 16 -> 0 <= reg < 2 ^ 128 -> xmm_shift_left reg num = Done (Z.shiftl reg (8 * num) mod 2 ^ 128).
Proof.
  intros Hn Hr. unfold xmm_shift_left.
  pose proof (mask_left_ok num) as M. unfold mask_left in M.
  destruct (mm_loadu_si128 crc_xmm_shift_tab (16 - num)) as [m| |]; [|by specialize (M 0 Hn ltac:(lia))..].
  simpl. f_equal. apply m128_ext; [apply mm_shuffle_bound|apply Z.mod_pos_bound; lia|].
  intros i Hi. rewrite byte_at_shuffle, byte_at_shiftl by lia. specialize (M i Hn Hi).
  apply Z.eqb_eq in M. rewrite M. destruct (i <? num) eqn:E; zbool; [done|].
  destruct (land_15 (i - num)) as [-> ->]; [lia|done].
Qed.

(** ** Messages as polynomials *)

Lemma be_app_one l b : be (l ++ [b]) = Z.lxor (Z.shiftl (be l) 8) b.
Proof. unfold be. by rewrite fold_left_app. Qed.

Lemma be_bound l : bytes l -> 0 <= be l < 2 ^ (8 * Z.of_nat (length l)).
Proof.
  intros H. induction l as [|b l IH] using rev_ind; [unfold be; simpl; lia|].
  apply Forall_app in H as [Hl Hb]. apply Forall_cons_1 in Hb as [Hb _]. unfold is_byte in Hb.
  rewrite be_app_one, length_app. simpl (length [b]).
  replace (8 * Z.of_nat (length l + 1)) with (8 * Z.of_nat (length l) + 8) by lia.
  apply lxor_lt; [lia|apply shiftl_lt; [lia|lia|by apply IH]|].
  split; [lia|]. apply Z.lt_le_trans with (2 ^ 8); [lia|]. apply Z.pow_le_mono_r; lia.
Qed.

Lemma be_app a b : be (a ++ b) = Z.lxor (Z.shiftl (be a) (8 * Z.of_nat (length b))) (be b).
Proof.
  induction b as [|x b IH] using rev_ind.
  - rewrite app_nil_r. simpl. by rewrite Z.shiftl_0_r, Z.lxor_0_r.
  - rewrite app_assoc, !be_app_one, IH, Z.shiftl_lxor, Z.lxor_assoc, Z.shiftl_shiftl by lia.
    rewrite length_app. simpl (length [x]). f_equal. f_equal. lia.
Qed.

Lemma of_bytes_rev l : of_bytes (rev l) = be l.
Proof.
  unfold of_bytes, be. rewrite <- fold_left_rev_right.
  induction (rev l) as [|b r IH]; simpl; [done|]. by rewrite IH, Z.lxor_comm.
Qed.

Lemma shuffle_swap l : bytes l -> length l = 16%nat ->
  mm_shuffle_epi8 (of_bytes l) crc_xmm_be_le_swap128 = be l.
Proof.
  intros Hl Hlen. apply m128_ext; [apply mm_shuffle_bound| |].
  { replace 128 with (8 * Z.of_nat (length l)) by lia. by apply be_bound. }
  intros i Hi. rewrite byte_at_shuffle by done.
  assert (byte_at crc_xmm_be_le_swap128 i = 15 - i) as ->.
  { apply Z.eqb_eq. apply (forall_lanes 1 (fun _ i => byte_at crc_xmm_be_le_swap128 i =? 15 - i)) with (n := 0);
      [vm_compute; done|lia|done]. }
  destruct (land_15 (15 - i)) as [-> ->]; [lia|].
  rewrite <- of_bytes_rev. rewrite <- (Z2Nat.id i) at 2 by lia.
  replace (15 - i) with (Z.of_nat (15 - Z.to_nat i)) by lia.
  rewrite !byte_at_of_bytes; [|by apply Forall_rev|done].
  rewrite rev_nth by lia. f_equal. lia.
Qed.

(** ** The constants of a context

    What the comments of [struct crc_pclmulqdq_ctx] say of its fields: k1, k2 and k3 are the remainders of
    x^128, x^192 and x^64, q is the quotient of x^64 (its leading term x^32 is implicit, as in p). *)
Definition generator (c : crc_pclmulqdq_ctx) : Z := 2 ^ 32 + p c.

Class CtxOk (c : crc_pclmulqdq_ctx) : Prop := {
  ctx_k1 : 0 <= k1 c < 2 ^ 32 /\ 2 ^ 128 ≈[generator c] k1 c;
  ctx_k2 : 0 <= k2 c < 2 ^ 32 /\ 2 ^ 192 ≈[generator c] k2 c;
  ctx_k3 : 0 <= k3 c < 2 ^ 32 /\ 2 ^ 64 ≈[generator c] k3 c;
  ctx_p : 0 <= p c < 2 ^ 32;
  ctx_q : 0 <= q c < 2 ^ 32 /\
          0 <= Z.lxor (Z.shiftl 1 64) (pmul 33 (generator c) (2 ^ 32 + q c)) < 2 ^ 32
}.

Section Reduction.
Context (c : crc_pclmulqdq_ctx) {OK : CtxOk c}.
#[local] Abbreviation P := (generator c).

Lemma generator_range : 2 ^ 32 <= P < 2 ^ (32 + 1).
Proof. unfold generator. pose proof (ctx_p (c := c)). lia. Qed.

Lemma half_range a b : 0 <= a < 2 ^ 128 -> 0 <= half a b < 2 ^ 64.
Proof.
  intros. unfold half. destruct b; [apply shiftr_lt; lia | apply Z.mod_pos_bound; lia].
Qed.

Lemma half_pair lo hi : 0 <= lo < 2 ^ 64 -> half (load_pair lo hi) false = lo /\ half (load_pair lo hi) true = hi.
Proof.
  intros Hl. unfold half, load_pair. split.
  - rewrite mod_xor, shiftl_mod_0, Z.lxor_0_r by lia. by apply Z.mod_small.
  - rewrite Z.shiftr_lxor, Z.shiftr_shiftl_l, Z.sub_diag, Z.shiftl_0_r by lia.
    replace (Z.shiftr lo 64) with 0; [apply Z.lxor_0_l|].
    rewrite Z.shiftr_div_pow2 by lia. symmetry. apply Z.div_small. lia.
Qed.

(** The product by the remainder of x^m, of which the 64 low coefficients of the factor count. *)
Lemma pmul_const F k m : 0 <= m -> 0 <= F < 2 ^ 64 -> 0 <= k < 2 ^ 32 -> 2 ^ m ≈[P] k ->
  pmul 64 F k ≈[P] Z.shiftl F m /\ 0 <= pmul 64 F k < 2 ^ 95.
Proof.
  intros Hm HF Hk E. rewrite (pmul_comm 64) by (simpl Z.of_nat; lia). split; [|apply (pmul_bound 64 k F 31); lia].
  rewrite <- E. replace (2 ^ m) with (Z.shiftl 1 m) by (rewrite Z.shiftl_mul_pow2; lia).
  rewrite pmul_shiftl_l, pmul_1_l, Z.mod_small by (done || lia). reflexivity.
Qed.

Lemma lift_lt a n m : n <= m -> 0 <= a < 2 ^ n -> 0 <= a < 2 ^ m.
Proof. intros. split; [lia|]. eapply Z.lt_le_trans; [apply H0|]. apply Z.pow_le_mono_r; lia. Qed.

Lemma crc32_folding_round_spec d fold : 0 <= d < 2 ^ 128 -> 0 <= fold < 2 ^ 128 ->
  crc32_folding_round d (load_pair (k1 c) (k2 c)) fold ≈[P] Z.lxor (Z.shiftl fold 128) d /\
  0 <= crc32_folding_round d (load_pair (k1 c) (k2 c)) fold < 2 ^ 128.
Proof.
  intros Hd Hf. unfold crc32_folding_round, mm_clmulepi64_si128. simpl Z.testbit.
  destruct (ctx_k1 (c := c)) as [B1 E1], (ctx_k2 (c := c)) as [B2 E2].
  destruct (half_pair (k1 c) (k2 c)) as [-> ->]; [lia|].
  destruct (pmul_const (half fold false) (k1 c) 128) as [C1 L1]; try done; [by apply half_range|].
  destruct (pmul_const (half fold true) (k2 c) 192) as [C2 L2]; try done; [by apply half_range|].
  split.
  - rewrite C1, C2. rewrite (hi_lo fold 64) at 3 by lia. rewrite Z.shiftl_lxor, Z.shiftl_shiftl by lia.
    unfold half. match goal with |- cong _ ?a ?b => replace a with b; [reflexivity|] end.
    apply Z.bits_inj'. intros i _. rewrite !Z.lxor_spec. change (64 + 128) with 192. btauto.
  - apply lxor_lt; [lia|by apply (lift_lt _ 95)|]. apply lxor_lt; [lia|done|by apply (lift_lt _ 95)].
Qed.

Lemma crc32_reduce_128_to_64_spec d : 0 <= d < 2 ^ 128 ->
  crc32_reduce_128_to_64 d (load_pair (k3 c) (q c)) ≈[P] d /\
  0 <= crc32_reduce_128_to_64 d (load_pair (k3 c) (q c)) < 2 ^ 64.
Proof.
  intros Hd. unfold crc32_reduce_128_to_64, mm_clmulepi64_si128, mm_srli_si128, mm_slli_si128. simpl Z.testbit.
  destruct (ctx_k3 (c := c)) as [B3 E3].
  destruct (half_pair (k3 c) (q c)) as [-> _]; [lia|]. change (8 * 8) with 64.
  set (H := half d true). assert (0 <= H < 2 ^ 64) as HH by (by apply half_range).
  destruct (pmul_const H (k3 c) 64) as [C1 L1]; try done. set (A := pmul 64 H (k3 c)) in *.
  assert (half (Z.lxor A d) true = Z.lxor (Z.shiftr A 64) H) as -> by (unfold half, H; apply Z.shiftr_lxor).
  rewrite pmul_xor_l. fold A.
  assert (0 <= Z.shiftr A 64 < 2 ^ 31) as HA by (apply shiftr_lt; lia).
  destruct (pmul_const (Z.shiftr A 64) (k3 c) 64) as [C2 _]; try done; [by apply (lift_lt _ 31)|].
  assert (0 <= pmul 64 (Z.shiftr A 64) (k3 c) < 2 ^ 64) as L2.
  { change 64%nat with (32 + 32)%nat. rewrite pmul_more by (simpl Z.of_nat; lia). apply (lift_lt _ 62); [lia|]. apply (pmul_bound 32 _ _ 30); lia. }
  set (B := pmul 64 (Z.shiftr A 64) (k3 c)) in *.
  assert (Z.shiftr (Z.shiftl (Z.lxor (Z.lxor B A) d) 64 mod 2 ^ 128) 64 =
          Z.lxor (Z.lxor B (A mod 2 ^ 64)) (d mod 2 ^ 64)) as ->.
  { rewrite <- (Z.mod_small B (2 ^ 64)) at 2 by done. rewrite <- !mod_xor by lia.
    apply Z.bits_inj'. intros i Hi. rewrite Z.shiftr_spec by lia. destruct (Z.lt_ge_cases i 64).
    - rewrite !Z.mod_pow2_bits_low, Z.shiftl_spec by lia. f_equal; lia.
    - by rewrite !Z.mod_pow2_bits_high by lia. }
  split.
  - rewrite C2. rewrite <- (hi_lo A 64), C1 by lia. unfold H, half. rewrite <- (hi_lo d 64) by lia. reflexivity.
  - pose proof (Z.mod_pos_bound A (2 ^ 64)). pose proof (Z.mod_pos_bound d (2 ^ 64)). repeat (apply lxor_lt; try lia).
Qed.

(** The step of Barrett: the product of the high part by the quotient of x^64, without its low part,
    is the quotient of the division. *)
Lemma barrett H T : 0 <= H < 2 ^ 32 -> 0 <= T ->
  T = Z.shiftr (pmul 33 H (2 ^ 32 + q c)) 32 ->
  0 <= Z.lxor (Z.shiftl H 32) (pmul 33 T P) < 2 ^ 32.
Proof.
  intros HH HT E. destruct (ctx_q (c := c)) as [Bq BR]. pose proof generator_range as HP.
  set (Q := 2 ^ 32 + q c) in *. set (HQ := pmul 33 H Q) in *. set (R := Z.lxor (Z.shiftl 1 64) (pmul 33 P Q)) in *.
  assert (Z.lxor (Z.shiftl (Z.lxor (Z.shiftl H 32) (pmul 33 T P)) 32) (pmul 33 (HQ mod 2 ^ 32) P) = pmul 32 R H) as EQ.
  { unfold R. rewrite pmul_xor_l, pmul_shiftl_l, pmul_1_l, (Z.mod_small H) by (simpl Z.of_nat; lia).
    rewrite pmul_swap. replace (pmul 32 P H) with (pmul 33 H P).
    2: { rewrite pmul_comm by (simpl Z.of_nat; lia). change 33%nat with (1 + 32)%nat. apply pmul_more. simpl Z.of_nat; lia. }
    rewrite (pmul_swap 33 33 H P Q). fold HQ. rewrite (hi_lo HQ 32) at 2 by lia. rewrite <- E.
    rewrite pmul_xor_l, pmul_shiftl_l by lia. rewrite Z.shiftl_lxor, Z.shiftl_shiftl by lia.
    by rewrite Z.lxor_assoc. }
  assert (0 <= pmul 32 R H < 2 ^ 64) as B1 by (apply (lift_lt _ 63); [lia|apply (pmul_bound 32 R H 31); lia]).
  assert (0 <= pmul 33 (HQ mod 2 ^ 32) P < 2 ^ 64) as B2.
  { pose proof (Z.mod_pos_bound HQ (2 ^ 32)). apply (pmul_bound 33 _ P 31); lia. }
  set (X := Z.lxor (Z.shiftl H 32) (pmul 33 T P)) in *.
  assert (Z.shiftl X 32 = Z.lxor (pmul 32 R H) (pmul 33 (HQ mod 2 ^ 32) P)) as EX.
  { by rewrite <- EQ, Z.lxor_assoc, Z.lxor_nilpotent, Z.lxor_0_r. }
  assert (0 <= Z.shiftl X 32 < 2 ^ 64) as BX by (rewrite EX; by apply lxor_lt).
  rewrite Z.shiftl_mul_pow2 in BX by lia. lia.
Qed.

Lemma crc32_reduce_64_to_32_spec d : 0 <= d < 2 ^ 64 ->
  crc32_reduce_64_to_32 d (load_pair (k3 c) (q c)) (load_pair (p c) (res c)) ≈[P] d /\
  0 <= crc32_reduce_64_to_32 d (load_pair (k3 c) (q c)) (load_pair (p c) (res c)) < 2 ^ 32.
Proof.
  intros Hd. unfold crc32_reduce_64_to_32, mm_clmulepi64_si128, mm_srli_si128, mm_extract_epi32_0, u32.
  simpl Z.testbit. change (8 * 4) with 32. pose proof (ctx_p (c := c)) as Bp. destruct (ctx_q (c := c)) as [Bq _].
  destruct (ctx_k3 (c := c)) as [B3 _].
  destruct (half_pair (k3 c) (q c)) as [_ ->]; [lia|].
  destruct (half_pair (p c) (res c)) as [-> _]; [lia|].
  set (H := Z.shiftr d 32). assert (0 <= H < 2 ^ 32) as HH by (apply shiftr_lt; lia).
  assert (half H false = H) as -> by (unfold half; apply Z.mod_small; lia).
  assert (forall a x, 0 <= x < 2 ^ 32 -> pmul 64 a x = pmul 32 a x) as M
    by (intros; change 64%nat with (32 + 32)%nat; apply pmul_more; simpl Z.of_nat; lia).
  rewrite (M H) by done.
  set (T := Z.shiftr (Z.lxor (pmul 32 H (q c)) d) 32).
  assert (0 <= pmul 32 H (q c) < 2 ^ 64) as BHq by (apply (lift_lt _ 63); [lia|apply (pmul_bound 32 H _ 31); lia]).
  assert (0 <= T < 2 ^ 32) as BT by (apply shiftr_lt; [lia|lia|]; apply lxor_lt; lia).
  assert (half T false = T) as -> by (unfold half; apply Z.mod_small; lia).
  rewrite (M T) by done.
  assert (T = Z.shiftr (pmul 33 H (2 ^ 32 + q c)) 32) as ET.
  { change 32 with (Z.of_nat 32) at 2. rewrite (pmul_lead 32) by (simpl Z.of_nat; lia).
    unfold T. rewrite !Z.shiftr_lxor, Z.lxor_comm. f_equal.
    fold H. simpl Z.of_nat. by rewrite Z.shiftr_shiftl_l, Z.shiftl_0_r by lia. }
  pose proof (barrett H T HH ltac:(lia) ET) as BW.
  assert (pmul 33 T P = Z.lxor (Z.shiftl T 32) (pmul 32 T (p c))) as EP
    by (unfold generator; change 32 with (Z.of_nat 32) at 1; apply (pmul_lead 32); simpl Z.of_nat; lia).
  assert (0 <= Z.lxor d (pmul 33 T P) < 2 ^ 32) as BW2.
  { rewrite (hi_lo d 32) by lia. fold H. pose proof (Z.mod_pos_bound d (2 ^ 32)).
    replace (Z.lxor (Z.lxor (Z.shiftl H 32) (d mod 2 ^ 32)) (pmul 33 T P))
      with (Z.lxor (Z.lxor (Z.shiftl H 32) (pmul 33 T P)) (d mod 2 ^ 32)) by (rewrite !Z.lxor_assoc; f_equal; apply Z.lxor_comm).
    apply lxor_lt; lia. }
  assert (Z.lxor (pmul 32 T (p c)) d mod 2 ^ 32 = Z.lxor d (pmul 33 T P)) as ->.
  { rewrite <- (Z.mod_small (Z.lxor d (pmul 33 T P)) (2 ^ 32)) by done.
    rewrite EP, !mod_xor, shiftl_mod_0, Z.lxor_0_l by lia. apply Z.lxor_comm. }
  split; [|done]. unfold cong. rewrite (Z.lxor_comm d), Z.lxor_assoc, Z.lxor_nilpotent, Z.lxor_0_r.
  pose proof generator_range. rewrite pmul_comm by (simpl Z.of_nat; lia). apply mult_pmul, mult_self.
Qed.
End Reduction.

(** ** Folding *)

Lemma load_swap data off : bytes data -> 0 <= off -> off + 16 <= Z.of_nat (length data) ->
  exists x, mm_loadu_si128 data off = Done x /\ 0 <= x < 2 ^ 128 /\
    mm_shuffle_epi8 x crc_xmm_be_le_swap128 = be (take 16 (drop (Z.to_nat off) data)).
Proof.
  intros Hb Ho Hl. unfold mm_loadu_si128. rewrite slice_done by lia.
  assert (bytes (take 16 (drop (Z.to_nat off) data))) as HB by (apply Forall_take, Forall_drop, Hb).
  assert (length (take 16 (drop (Z.to_nat off) data)) = 16%nat) as HL by (rewrite length_take, length_drop; lia).
  exists (of_bytes (take 16 (drop (Z.to_nat off) data))). split; [done|]. split.
  - pose proof (of_bytes_bound _ HB) as B. rewrite HL in B. exact B.
  - by apply shuffle_swap.
Qed.

Lemma be_take_bound data n : bytes data -> 0 <= be (take n data) < 2 ^ (8 * Z.of_nat n).
Proof.
  intros Hb. apply lift_lt with (8 * Z.of_nat (length (take n data))); [rewrite length_take; lia|].
  apply be_bound, Forall_take, Hb.
Qed.

Lemma be_split data a b : (a + b <= length data)%nat ->
  be (take (a + b) data) = Z.lxor (Z.shiftl (be (take a data)) (8 * Z.of_nat b)) (be (take b (drop a data))).
Proof.
  intros H. rewrite <- (take_take_drop data a b), be_app. rewrite length_take, length_drop.
  by replace (b `min` (length data - a))%nat with b by lia.
Qed.

(** The polynomial of a prefix is the one of a longer prefix, shifted. *)
Lemma be_prefix data a b : bytes data -> (a + b <= length data)%nat ->
  Z.shiftr (be (take (a + b) data)) (8 * Z.of_nat b) = be (take a data).
Proof.
  intros Hb H. rewrite be_split, Z.shiftr_lxor, Z.shiftr_shiftl_l, Z.sub_diag, Z.shiftl_0_r by lia.
  replace (Z.shiftr (be (take b (drop a data))) (8 * Z.of_nat b)) with 0; [apply Z.lxor_0_r|].
  rewrite Z.shiftr_div_pow2 by lia. symmetry. apply Z.div_small, be_take_bound, Forall_drop, Hb.
Qed.

(** The rest of a long message after its first bytes. *)
Lemma slli_4_tail data n : bytes data -> (n + 16 <= length data)%nat ->
  mm_slli_si128 (be (take 16 (drop n data))) 4 = Z.shiftl (be (take 12 (drop (n + 4) data))) 32.
Proof.
  intros Hb Hl. unfold mm_slli_si128. change (8 * 4) with 32.
  change 16%nat with (4 + 12)%nat. rewrite be_split by (rewrite length_drop; lia). rewrite drop_drop.
  rewrite Z.shiftl_lxor, mod_xor, Z.shiftl_shiftl, shiftl_mod_0, Z.lxor_0_l by lia.
  apply Z.mod_small. change 128 with (96 + 32). apply shiftl_lt; [lia|lia|].
  change 96 with (8 * Z.of_nat 12). apply be_take_bound, Forall_drop, Hb.
Qed.

Section Fold.
Context (c : crc_pclmulqdq_ctx) {OK : CtxOk c}.
#[local] Abbreviation P := (generator c).
Variable data : list Z.
Hypothesis Hbytes : bytes data.
#[local] Abbreviation K := (load_pair (k1 c) (k2 c)).

(** One round appends 16 bytes to the prefix that has been folded. *)
Lemma folding_round_prefix n fold : (n + 16 <= length data)%nat -> 0 <= fold < 2 ^ 128 ->
  fold ≈[P] be (take n data) ->
  crc32_folding_round (be (take 16 (drop n data))) K fold ≈[P] be (take (n + 16) data) /\
  0 <= crc32_folding_round (be (take 16 (drop n data))) K fold < 2 ^ 128.
Proof.
  intros Hl Hf E. destruct (crc32_folding_round_spec c (be (take 16 (drop n data))) fold) as [C B]; [|done|].
  { change 128 with (8 * Z.of_nat 16). apply be_take_bound, Forall_drop, Hbytes. }
  split; [|done]. rewrite C, be_split by done. change (8 * Z.of_nat 16) with 128.
  apply cong_lxor; [|reflexivity]. by apply cong_shiftl.
Qed.

Lemma crc32_fold_loop_spec fuel data_len n fold :
  32 < data_len < 2 ^ 32 -> data_len - 4 <= Z.of_nat (length data) ->
  (exists j, data_len - 16 = n + 16 * Z.of_nat j /\ (j < fuel)%nat) -> 0 <= n ->
  0 <= fold < 2 ^ 128 -> fold ≈[P] be (take (Z.to_nat n) data) ->
  exists fold', crc32_fold_loop fuel data data_len K n fold = Done (data_len - 16, fold') /\
    0 <= fold' < 2 ^ 128 /\ fold' ≈[P] be (take (Z.to_nat (data_len - 16)) data).
Proof.
  intros Hd Hlen. revert n fold. induction fuel as [|fuel IH]; intros n fold (j & Ej & Hj) Hn Hf E; [lia|].
  simpl. unfold u32 at 1. rewrite Z.mod_small by lia. cif; zbool.
  - destruct j as [|j]; [lia|]. destruct (load_swap data n) as (x & -> & Hx & Sx); [done|lia|lia|]. simpl.
    rewrite Sx. unfold u32. rewrite Z.mod_small by lia.
    destruct (folding_round_prefix (Z.to_nat n) fold) as [C B]; [lia|done|done|].
    apply IH; [exists j; lia|lia|done|]. by replace (Z.to_nat (n + 16)) with (Z.to_nat n + 16)%nat by lia.
  - assert (n = data_len - 16) as -> by lia. eauto.
Qed.

(** The number of bytes that align the length to 16. *)
Lemma pad_spec data_len : 0 <= data_len < 2 ^ 32 ->
  Z.land (u32 (u32 (Z.lnot data_len) + 1)) 15 = (- data_len) mod 16.
Proof.
  intros H. change 15 with (Z.ones 4). rewrite Z.land_ones by lia. unfold u32.
  rewrite Z.add_mod_idemp_l by lia. rewrite Z.mod_mod_divide by (by exists (2 ^ 28)).
  f_equal. unfold Z.lnot. lia.
Qed.

(** The first two blocks, aligned: their concatenation is shifted by [n] bytes. *)
Lemma align_two n : 0 <= n < 16 -> (32 <= length data)%nat ->
  let f := be (take 16 data) in let d := be (take 16 (drop 16 data)) in
  Z.lor (Z.shiftr d (8 * n)) (Z.shiftl f (8 * (16 - n)) mod 2 ^ 128) = be (take 32 data) / 2 ^ (8 * n) mod 2 ^ 128 /\
  Z.shiftr f (8 * n) = Z.shiftr (be (take 32 data) / 2 ^ (8 * n)) 128.
Proof.
  intros Hn Hl f d. change 32%nat with (16 + 16)%nat. rewrite be_split by lia. fold f d.
  change (8 * Z.of_nat 16) with 128.
  assert (0 <= d < 2 ^ 128) as Bd by (change 128 with (8 * Z.of_nat 16); apply be_take_bound, Forall_drop, Hbytes).
  rewrite <- Z.shiftr_div_pow2 by lia. split; apply Z.bits_inj'; intros i Hi.
  - rewrite Z.lor_spec. destruct (Z.lt_ge_cases i 128).
    + rewrite !Z.mod_pow2_bits_low, !Z.shiftr_spec, Z.lxor_spec, !Z.shiftl_spec by lia.
      replace (i + 8 * n - 128) with (i - 8 * (16 - n)) by lia.
      destruct (Z.lt_ge_cases (i + 8 * n) 128).
      * rewrite (Z.testbit_neg_r f) by lia. by rewrite orb_false_r, xorb_false_l.
      * rewrite (lt_bits d 128) by lia. by rewrite orb_false_l, xorb_false_r.
    + rewrite !Z.mod_pow2_bits_high, Z.shiftr_spec, (lt_bits d 128) by lia. done.
  - rewrite !Z.shiftr_spec, Z.lxor_spec, Z.shiftl_spec, (lt_bits d 128) by lia.
    rewrite xorb_false_r. f_equal. lia.
Qed.

(** The first round: what is folded is the prefix of the aligned length. *)
Lemma first_round n d : 0 <= n < 16 -> (32 <= length data)%nat -> 0 <= d < 2 ^ 128 ->
  let f := Z.shiftr (be (take 32 data) / 2 ^ (8 * n)) 128 in
  crc32_folding_round d K f ≈[P] Z.lxor (Z.shiftl f 128) d /\ 0 <= crc32_folding_round d K f < 2 ^ 128.
Proof.
  intros Hn Hl Hd f. apply crc32_folding_round_spec; [done|done|].
  pose proof (be_take_bound data 32 Hbytes) as B. unfold f. rewrite <- Z.shiftr_div_pow2, Z.shiftr_shiftr by lia.
  apply shiftr_lt; [lia|lia|]. apply (lift_lt _ (8 * Z.of_nat 32)); [lia|done].
Qed.

Lemma crc32_fold_tail_spec data_len n fold :
  32 < data_len < 2 ^ 32 -> data_len - 4 <= Z.of_nat (length data) -> 0 <= n < 16 ->
  (exists j, data_len + n = 16 * j) -> 0 <= fold < 2 ^ 128 -> fold ≈[P] be (take (32 - Z.to_nat n) data) ->
  exists f, crc32_fold_tail data data_len K n fold = Done f /\ 0 <= f < 2 ^ 128 /\
    f ≈[P] Z.shiftl (be (take (Z.to_nat (data_len - 4)) data)) 32.
Proof.
  intros Hd Hlen Hn [j Ej] Hf Cf. unfold crc32_fold_tail.
  assert (u32 (16 + 16 - n) = 32 - n) as -> by (unfold u32; rewrite Z.mod_small; lia).
  destruct (crc32_fold_loop_spec (S (length data)) data_len (32 - n) fold) as (f & EL & Bf & Cf');
    [lia|lia|exists (Z.to_nat (j - 3)); lia|lia|done| |].
  { rewrite Cf. by replace (Z.to_nat (32 - n)) with (32 - Z.to_nat n)%nat by lia. }
  rewrite EL. cbn [mbind outcome_bind]. unfold u32. rewrite Z.mod_small by lia.
  destruct (load_swap data (data_len - 16 - 4)) as (z & -> & _ & Sz); [done|lia|lia|]. cbn [mbind outcome_bind].
  rewrite Sz, slli_4_tail by (done || lia).
  replace (Z.to_nat (data_len - 16 - 4) + 4)%nat with (Z.to_nat (data_len - 16)) by lia.
  set (t := be (take 12 (drop (Z.to_nat (data_len - 16)) data))).
  assert (0 <= t < 2 ^ 96) as Bt by (apply (be_take_bound _ 12), Forall_drop, Hbytes).
  destruct (crc32_folding_round_spec c (Z.shiftl t 32) f) as [C' B']; [apply (shiftl_lt _ 96 32); lia|done|].
  eexists. split; [done|]. split; [done|]. rewrite C'.
  replace (Z.to_nat (data_len - 4)) with (Z.to_nat (data_len - 16) + 12)%nat by lia.
  rewrite be_split, Z.shiftl_lxor, Z.shiftl_shiftl by lia. change (8 * Z.of_nat 12 + 32) with 128.
  apply cong_lxor; [|reflexivity]. apply cong_shiftl; [lia|done].
Qed.

(** A block whose 4 low bytes are cleared. *)
Lemma clear_low C : 0 <= C ->
  Z.lxor (Z.shiftl (Z.shiftr C 128) 128) (mm_slli_si128 (mm_srli_si128 (C mod 2 ^ 128) 4) 4)
  = Z.shiftl (Z.shiftr C 32) 32.
Proof.
  intros HC. unfold mm_slli_si128, mm_srli_si128. change (8 * 4) with 32.
  apply Z.bits_inj'. intros i Hi. rewrite Z.lxor_spec, !Z.shiftl_spec by lia.
  destruct (Z.lt_ge_cases i 128).
  - rewrite Z.mod_pow2_bits_low, Z.shiftl_spec by lia. rewrite (Z.testbit_neg_r _ (i - 128)), xorb_false_l by lia.
    destruct (Z.lt_ge_cases i 32); [by rewrite !(Z.testbit_neg_r _ (i - 32)) by lia|].
    by rewrite !Z.shiftr_spec, Z.mod_pow2_bits_low by lia.
  - rewrite Z.mod_pow2_bits_high, xorb_false_r, !Z.shiftr_spec by lia. f_equal. lia.
Qed.

Lemma crc32_fold_long_spec data_len x :
  16 < data_len < 2 ^ 32 -> data_len - 4 <= Z.of_nat (length data) -> (32 <= length data)%nat ->
  mm_shuffle_epi8 x crc_xmm_be_le_swap128 = be (take 16 data) ->
  exists f, crc32_fold_long data data_len 0 c x = Done f /\ 0 <= f < 2 ^ 128 /\
    f ≈[P] Z.shiftl (be (take (Z.to_nat (data_len - 4)) data)) 32.
Proof.
  intros Hd Hlen H32 Sx. unfold crc32_fold_long. rewrite pad_spec by lia.
  set (n := (- data_len) mod 16). assert (0 <= n < 16) as Hn by (apply Z.mod_pos_bound; lia).
  assert (exists j, data_len + n = 16 * j) as Hj.
  { exists (- (- data_len / 16)). pose proof (Z.div_mod (- data_len) 16 ltac:(lia)). unfold n. lia. }
  change (mm_insert_epi32_0 0 0) with 0. rewrite Z.lxor_0_r, Sx.
  destruct (load_swap data 16) as (y & -> & Hy & Sy); [done|lia|lia|]. cbn [mbind outcome_bind]. rewrite Sy.
  assert (0 <= be (take 16 data) < 2 ^ 128) as B0 by (apply (be_take_bound data 16 Hbytes)).
  assert (0 <= be (take 16 (drop (Z.to_nat 16) data)) < 2 ^ 128) as B1 by (apply (be_take_bound _ 16), Forall_drop, Hbytes).
  assert (u32 (16 - n) = 16 - n) as -> by (unfold u32; rewrite Z.mod_small; lia).
  rewrite !xmm_shift_right_spec, xmm_shift_left_spec by (done || lia). cbn [mbind outcome_bind].
  destruct (align_two n Hn H32) as [E1 E2]. change (Z.to_nat 16) with 16%nat. rewrite E1, E2.
  set (C := be (take 32 data) / 2 ^ (8 * n)).
  assert (C = be (take (32 - Z.to_nat n) data)) as EC.
  { unfold C. rewrite <- Z.shiftr_div_pow2 by lia.
    rewrite <- (be_prefix data (32 - Z.to_nat n) (Z.to_nat n)) by (done || lia).
    replace (32 - Z.to_nat n + Z.to_nat n)%nat with 32%nat by lia. do 2 f_equal. lia. }
  destruct (first_round n (if data_len <=? 32 then mm_slli_si128 (mm_srli_si128 (C mod 2 ^ 128) 4) 4 else C mod 2 ^ 128))
    as [R B]; [done|done|cif; apply Z.mod_pos_bound; lia|]. fold C in R, B. revert R B.
  destruct (data_len <=? 32) eqn:E32; intros R B; destruct (data_len >? 32) eqn:E33; zbool; try lia.
  - eexists. split; [done|]. split; [done|]. rewrite R, clear_low, EC by (rewrite EC; apply be_take_bound; done).
    destruct Hj as [j Ej]. assert (data_len = 32 - n) by lia.
    rewrite <- (be_prefix data (Z.to_nat (data_len - 4)) 4) by (done || lia). change (8 * Z.of_nat 4) with 32.
    replace (Z.to_nat (data_len - 4) + 4)%nat with (32 - Z.to_nat n)%nat by lia. reflexivity.
  - apply crc32_fold_tail_spec; try done; [lia|]. rewrite R, <- hi_lo, EC by lia. reflexivity.
Qed.

(** The number of bytes of the buffer that the computation for [len] bytes reads. *)
Definition crc_reads (len : Z) : Z := if len <=? 12 then 16 else if len <=? 32 then 32 else len.

Lemma crc32_calc_spec len : 1 <= len < 2 ^ 32 - 4 -> crc_reads len <= Z.of_nat (length data) ->
  exists r, crc32_calc_pclmulqdq data len 0 c = Done r /\ 0 <= r < 2 ^ 32 /\
    r ≈[P] Z.shiftl (be (take (Z.to_nat len) data)) 32.
Proof.
  intros Hl Hr. unfold crc_reads in Hr. unfold crc32_calc_pclmulqdq. cif; zbool; [lia|].
  assert (u32 (len + 4) = len + 4) as -> by (unfold u32; rewrite Z.mod_small; lia).
  destruct (load_swap data 0) as (x & -> & Hx & Sx); [done|lia|repeat (revert Hr; cif; intros; zbool); lia|].
  rewrite drop_0 in Sx. cbn [mbind outcome_bind].
  enough (exists f, (if len + 4 <=? 16
             then fold ← xmm_shift_right (mm_shuffle_epi8 x crc_xmm_be_le_swap128) (u32 (20 - (len + 4)));
                  temp ← xmm_shift_left (mm_insert_epi32_0 0 (bswap4 0)) (u32 (len + 4 - 4));
                  Done (Z.lxor (mm_slli_si128 fold 4) temp)
             else crc32_fold_long data (len + 4) 0 c x) = Done f /\ 0 <= f < 2 ^ 128 /\
             f ≈[P] Z.shiftl (be (take (Z.to_nat len) data)) 32) as (f & -> & Bf & Cf).
  { cbn [mbind outcome_bind]. destruct (crc32_reduce_128_to_64_spec c f Bf) as [C1 B1].
    destruct (crc32_reduce_64_to_32_spec c _ B1) as [C2 B2]. eexists. split; [done|]. split; [done|].
    by rewrite C2, C1, Cf. }
  destruct (len + 4 <=? 16) eqn:E16; zbool.
  - rewrite (proj2 (Z.leb_le len 12)) in Hr by lia.
    assert (u32 (20 - (len + 4)) = 16 - len) as -> by (unfold u32; rewrite Z.mod_small; lia).
    assert (u32 (len + 4 - 4) = len) as -> by (unfold u32; rewrite Z.mod_small; lia).
    change (mm_insert_epi32_0 0 (bswap4 0)) with 0. rewrite Sx.
    assert (0 <= be (take 16 data) < 2 ^ 128) as B0 by (apply (be_take_bound data 16 Hbytes)).
    rewrite xmm_shift_right_spec, xmm_shift_left_spec by (done || lia). cbn [mbind outcome_bind].
    rewrite Z.shiftl_0_l. rewrite (Z.mod_small 0) by lia. rewrite Z.lxor_0_r.
    replace (Z.shiftr (be (take 16 data)) (8 * (16 - len))) with (be (take (Z.to_nat len) data)).
    2: { rewrite <- (be_prefix data (Z.to_nat len) (Z.to_nat (16 - len))) by (done || lia).
         replace (Z.to_nat len + Z.to_nat (16 - len))%nat with 16%nat by lia. f_equal. lia. }
    pose proof (be_take_bound data (Z.to_nat len) Hbytes) as Bm.
    assert (0 <= Z.shiftl (be (take (Z.to_nat len) data)) 32 < 2 ^ 128) as Bs.
    { apply (lift_lt _ (8 * len + 32)); [lia|]. apply shiftl_lt; [lia|lia|].
      by replace (8 * len) with (8 * Z.of_nat (Z.to_nat len)) by lia. }
    eexists. split; [done|]. unfold mm_slli_si128. change (8 * 4) with 32. rewrite Z.mod_small by done.
    split; [done|reflexivity].
  - destruct (crc32_fold_long_spec (len + 4) x) as (f & Ef & Bf & Cf); try done; [lia| | |].
    + revert Hr. cif; zbool; [lia|]. cif; intros; zbool; lia.
    + revert Hr. cif; zbool; [lia|]. cif; intros; zbool; lia.
    + exists f. split; [done|]. split; [done|]. by replace (len + 4 - 4) with len in Cf by lia.
Qed.
End Fold.
