(* ===== verification/Crc.v ===== *)
(** The CRCs of openair1/PHY/CODING/crc_byte.c: the bit by bit computation crcbit, the tables that
    crcTableInit makes of it, the byte by byte functions crc24a, crc24b, crc24c, crc16, crc12, crc11,
    crc8 and crc6 with their residual bits, and check_crc; lenWithCrc and crcType of PHY/defs_gNB.h.
    Each of the functions is the remainder of the division of the message by its generator. *)

From S2P Require Import Prelude L2Common Tbs Gf2 CrcFold.
From Stdlib Require Import Setoid Morphisms.

(** ** Polynomials: the coefficient of the highest degree is implicit *)

Definition poly24a : Z := 0x864cfb00.
Definition poly24b : Z := 0x80006300.
Definition poly24c : Z := 0xb2b11700.
Definition poly16 : Z := 0x10210000.
Definition poly12 : Z := 0x80F00000.
Definition poly8 : Z := 0x9B000000.
Definition poly6 : Z := 0x84000000.
Definition poly11 : Z := 0xc4200000.

(** ** Bit by bit *)

(** [for (i = 8; i != 0; i--)] *)
Fixpoint crcbit_byte (i : nat) (c crc poly : Z) : Z :=
  match i with
  | O => crc
  | S i =>
      let crc := if negb (Z.land (Z.shiftl 1 31) (Z.lxor c crc) =? 0)
                 then Z.lxor (u32 (Z.shiftl crc 1)) poly
                 else u32 (Z.shiftl crc 1) in
      crcbit_byte i (u32 (Z.shiftl c 1)) crc poly
  end.

(** [while (octetlen-- > 0)] *)
Fixpoint crcbit_loop (octetlen : nat) (inputptr : list Z) (pos crc poly : Z) : outcome Z :=
  match octetlen with
  | O => Done crc
  | S octetlen =>
      b ← rd inputptr pos;
      crcbit_loop octetlen inputptr (pos + 1) (crcbit_byte 8 (u32 (Z.shiftl b 24)) crc poly) poly
  end.

Definition crcbit (inputptr : list Z) (octetlen poly : Z) : outcome Z :=
  crcbit_loop (Z.to_nat octetlen) inputptr 0 0 poly.

(** ** Tables *)

Record crc_tables := mk_tables {
  crc24aTable : list Z; crc24bTable : list Z; crc24cTable : list Z; crc16Table : list Z;
  crc12Table : list Z; crc11Table : list Z; crc8Table : list Z; crc6Table : list Z
}.

(** The static tables before the initialization. *)
Definition static_tables : crc_tables :=
  let z := replicate 256 0 in mk_tables z z z z z z z z.

(** [table[c] = crcbit(&c, 1, poly) >> sh] *)
Definition table_entry (c poly sh : Z) (tab : list Z) : outcome (list Z) :=
  v ← crcbit [c] 1 poly; wr tab c (Z.shiftr v sh).

(** [do { ... } while (++c);] on an [unsigned char] *)
Fixpoint crcTableInit_loop (fuel : nat) (c : Z) (T : crc_tables) : outcome crc_tables :=
  match fuel with
  | O => Undef
  | S fuel =>
      ta ← table_entry c poly24a 0 (crc24aTable T);
      tb ← table_entry c poly24b 0 (crc24bTable T);
      tc ← table_entry c poly24c 0 (crc24cTable T);
      t16 ← table_entry c poly16 16 (crc16Table T);
      t12 ← table_entry c poly12 16 (crc12Table T);
      t11 ← table_entry c poly11 16 (crc11Table T);
      t8 ← table_entry c poly8 24 (crc8Table T);
      t6 ← table_entry c poly6 24 (crc6Table T);
      let T := mk_tables ta tb tc t16 t12 t11 t8 t6 in
      let c := u8 (c + 1) in
      if negb (c =? 0) then crcTableInit_loop fuel c T else Done T
  end.

Definition crcTableInit (T : crc_tables) : outcome crc_tables := crcTableInit_loop 256 0 T.

(** ** Byte by byte *)

Definition lte_crc24a_pclmulqdq : crc_pclmulqdq_ctx :=
  mk_ctx 0x64e4d700 0x2c8c9d00 0xd9fe8c00 0xf845fe24 0x864cfb00 0.
Definition lte_crc24b_pclmulqdq : crc_pclmulqdq_ctx :=
  mk_ctx 0x80140500 0x42000100 0x90042100 0xffff83ff 0x80006300 0.

(** [while (octetlen-- > 0) crc = step(crc, *inptr++);] *)
Fixpoint octets (step : Z -> Z -> outcome Z) (octetlen : nat) (inptr : list Z) (pos crc : Z) : outcome Z :=
  match octetlen with
  | O => Done crc
  | S octetlen => b ← rd inptr pos; crc ← step crc b; octets step octetlen inptr (pos + 1) crc
  end.

(** [(crc << 8) ^ (table[b ^ (crc >> 24)] << sh)] *)
Definition step8 (tab : list Z) (sh : Z) (crc b : Z) : outcome Z :=
  t ← rd tab (Z.lxor b (Z.shiftr crc 24)); Done (Z.lxor (u32 (Z.shiftl crc 8)) (u32 (Z.shiftl t sh))).
(** [table[b ^ (crc >> 24)] << sh], of crc8 and crc6 *)
Definition step8_top (tab : list Z) (sh : Z) (crc b : Z) : outcome Z :=
  t ← rd tab (Z.lxor b (Z.shiftr crc 24)); Done (u32 (Z.shiftl t sh)).

(** [if (resbit > 0) crc = (crc << resbit) ^ (table[(b >> (8 - resbit)) ^ (crc >> (32 - resbit))] << sh)] *)
Definition residual (tab : list Z) (sh : Z) (inptr : list Z) (octetlen resbit crc : Z) : outcome Z :=
  if resbit >? 0 then
    b ← rd inptr octetlen;
    t ← rd tab (Z.lxor (Z.shiftr b (8 - resbit)) (Z.shiftr crc (32 - resbit)));
    Done (Z.lxor (u32 (Z.shiftl crc resbit)) (u32 (Z.shiftl t sh)))
  else Done crc.

Definition by_table (tab : list Z) (sh : Z) (step : Z -> Z -> outcome Z) (inptr : list Z) (bitlen : Z) : outcome Z :=
  let octetlen := Z.quot bitlen 8 in
  let resbit := Z.rem bitlen 8 in
  crc ← octets step (Z.to_nat octetlen) inptr 0 0;
  residual tab sh inptr octetlen resbit crc.

Section CrcByte.
(** The build: whether the SIMD version is compiled in. *)
Variable USE_INTEL_CRC : bool.
Variable T : crc_tables.

Definition crc24a (inptr : list Z) (bitlen : Z) : outcome Z :=
  if negb (Z.rem bitlen 8 =? 0) || negb USE_INTEL_CRC
  then by_table (crc24aTable T) 0 (step8 (crc24aTable T) 0) inptr bitlen
  else crc32_calc_pclmulqdq inptr (u32 (Z.quot bitlen 8)) 0 lte_crc24a_pclmulqdq.

Definition crc24b (inptr : list Z) (bitlen : Z) : outcome Z :=
  if negb (Z.rem bitlen 8 =? 0) || negb USE_INTEL_CRC
  then by_table (crc24bTable T) 0 (step8 (crc24bTable T) 0) inptr bitlen
  else crc32_calc_pclmulqdq inptr (u32 (Z.quot bitlen 8)) 0 lte_crc24b_pclmulqdq.

Definition crc24c (inptr : list Z) (bitlen : Z) : outcome Z :=
  by_table (crc24cTable T) 0 (step8 (crc24cTable T) 0) inptr bitlen.
Definition crc16 (inptr : list Z) (bitlen : Z) : outcome Z :=
  by_table (crc16Table T) 16 (step8 (crc16Table T) 16) inptr bitlen.
Definition crc12 (inptr : list Z) (bitlen : Z) : outcome Z :=
  by_table (crc12Table T) 16 (step8 (crc12Table T) 16) inptr bitlen.
Definition crc11 (inptr : list Z) (bitlen : Z) : outcome Z :=
  by_table (crc11Table T) 16 (step8 (crc11Table T) 16) inptr bitlen.
Definition crc8 (inptr : list Z) (bitlen : Z) : outcome Z :=
  by_table (crc8Table T) 24 (step8_top (crc8Table T) 24) inptr bitlen.
Definition crc6 (inptr : list Z) (bitlen : Z) : outcome Z :=
  by_table (crc6Table T) 24 (step8_top (crc6Table T) 24) inptr bitlen.

Definition CRC24_A : Z := 0.
Definition CRC24_B : Z := 1.
Definition CRC16 : Z := 2.
Definition CRC8 : Z := 3.

(** The switch of [crc_len]; the assertion of the default case, [AssertFatal(1, ...)], always holds. *)
Definition check_crc_len (crc_type : Z) : Z :=
  if (crc_type =? CRC24_A) || (crc_type =? CRC24_B) then 3
  else if crc_type =? CRC16 then 2
  else if crc_type =? CRC8 then 1
  else 0.

(** [for (int i = 0; i < crc_len; i++) oldcrc |= ...] for the [k] last values of [i] *)
Fixpoint check_crc_old (k : nat) (decoded_bytes : list Z) (n crc_len oldcrc : Z) : outcome Z :=
  match k with
  | O => Done oldcrc
  | S k' =>
      let i := crc_len - Z.of_nat k in
      b ← rd decoded_bytes (u32 (Z.shiftr n 3 - crc_len + i));
      check_crc_old k' decoded_bytes n crc_len (Z.lor oldcrc (Z.shiftl b (Z.shiftl (crc_len - 1 - i) 3)))
  end.

(** The values of [oldcrc] and [crc] that are compared. *)
Definition check_crc_pair (decoded_bytes : list Z) (n crc_type oldcrc : Z) : outcome (Z * Z) :=
  if crc_type =? CRC24_A then
    crc ← crc24a decoded_bytes (s32 (n - 24)); Done (Z.land oldcrc 0x00ffffff, Z.shiftr crc 8)
  else if crc_type =? CRC24_B then
    crc ← crc24b decoded_bytes (s32 (n - 24)); Done (Z.land oldcrc 0x00ffffff, Z.shiftr crc 8)
  else if crc_type =? CRC16 then
    crc ← crc16 decoded_bytes (s32 (n - 16)); Done (Z.land oldcrc 0x0000ffff, Z.shiftr crc 16)
  else if crc_type =? CRC8 then
    crc ← crc8 decoded_bytes (s32 (n - 8)); Done (Z.land oldcrc 0x000000ff, Z.shiftr crc 24)
  else Done (oldcrc, 0).

Definition check_crc (decoded_bytes : list Z) (n crc_type : Z) : outcome Z :=
  let crc_len := check_crc_len crc_type in
  oldcrc ← check_crc_old (Z.to_nat crc_len) decoded_bytes n crc_len 0;
  '(oldcrc, crc) ← check_crc_pair decoded_bytes n crc_type oldcrc;
  Done (if crc =? oldcrc then 1 else 0).
End CrcByte.

(** [lenWithCrc] and [crcType]: the length and the kind of the CRC of a transport block ([nbSeg] = 1) or of a
    code block. *)
Definition lenWithCrc (nbSeg len : Z) : Z :=
  if nbSeg >? 1 then Z.quot (len + 24 + 24 * nbSeg) nbSeg
  else len + (if len >? NR_MAX_PDSCH_TBS then 24 else 16).
Definition crcType (nbSeg len : Z) : Z :=
  if nbSeg >? 1 then CRC24_B else if len >? NR_MAX_PDSCH_TBS then CRC24_A else CRC16.

(** ** The remainder of a message *)

(** The generator, with its leading term. *)
Definition gen (poly : Z) : Z := 2 ^ 32 + poly.

Section Remainder.
Variable poly : Z.
Hypothesis Hpoly : 0 <= poly < 2 ^ 32.
#[local] Abbreviation P := (gen poly).

Lemma P_range : 2 ^ 32 <= P < 2 ^ (32 + 1).
Proof. unfold gen. lia. Qed.

Lemma P_xor : P = Z.lxor (2 ^ 32) poly.
Proof.
  unfold gen. rewrite <- Z.add_nocarry_lxor; [done|]. apply Z.bits_inj'. intros i Hi.
  rewrite Z.land_spec, Z.testbit_0_l. destruct (Z.lt_ge_cases i 32).
  - by rewrite Z.pow2_bits_false by lia.
  - by rewrite (lt_bits poly 32), andb_false_r by lia.
Qed.

Lemma x32_cong : 2 ^ 32 ≈[P] poly.
Proof. unfold cong. rewrite <- P_xor. apply mult_self. Qed.

(** What remains of a shift in 32 bits, and the bits that leave. *)
Lemma shift_out crc k : 0 <= k <= 32 -> 0 <= crc ->
  Z.shiftl crc k = Z.lxor (Z.shiftl (Z.shiftr crc (32 - k)) 32) (u32 (Z.shiftl crc k)).
Proof.
  intros Hk Hc. rewrite (hi_lo (Z.shiftl crc k) 32) at 1 by lia. unfold u32. do 2 f_equal.
  by rewrite Z.shiftr_shiftl_r by lia.
Qed.

Lemma u32_bound x : 0 <= u32 x < 2 ^ 32.
Proof. apply Z.mod_pos_bound. lia. Qed.

Lemma top_test c crc : negb (Z.land (Z.shiftl 1 31) (Z.lxor c crc) =? 0) = xorb (Z.testbit c 31) (Z.testbit crc 31).
Proof.
  rewrite <- Z.lxor_spec. destruct (Z.testbit (Z.lxor c crc) 31) eqn:E.
  - apply negb_true_iff, Z.eqb_neq. intros H. apply (f_equal (fun z => Z.testbit z 31)) in H.
    rewrite Z.land_spec, E in H. discriminate.
  - apply negb_false_iff, Z.eqb_eq. apply Z.bits_inj'. intros i Hi. rewrite Z.land_spec, Z.testbit_0_l.
    destruct (Z.eq_dec i 31) as [->|Hn]; [by rewrite E, andb_false_r|].
    rewrite Z.shiftl_mul_pow2, Z.mul_1_l, Z.pow2_bits_false by lia. done.
Qed.

(** One turn of the inner loop: the register is multiplied by x and one bit of the message enters. *)
Lemma crcbit_step c crc : 0 <= crc < 2 ^ 32 ->
  let crc' := if negb (Z.land (Z.shiftl 1 31) (Z.lxor c crc) =? 0)
              then Z.lxor (u32 (Z.shiftl crc 1)) poly else u32 (Z.shiftl crc 1) in
  0 <= crc' < 2 ^ 32 /\ crc' ≈[P] Z.lxor (Z.shiftl crc 1) (if Z.testbit c 31 then 2 ^ 32 else 0).
Proof.
  intros Hc. rewrite top_test.
  assert (Z.shiftl (Z.shiftr crc (32 - 1)) 32 = if Z.testbit crc 31 then 2 ^ 32 else 0) as E.
  { assert (0 <= Z.shiftr crc 31 < 2 ^ 1) by (apply shiftr_lt; lia).
    assert (Z.testbit crc 31 = Z.testbit (Z.shiftr crc 31) 0) as -> by (by rewrite Z.shiftr_spec by lia).
    change (32 - 1) with 31. assert (Z.shiftr crc 31 = 0 \/ Z.shiftr crc 31 = 1) as [-> | ->] by lia; done. }
  pose proof (u32_bound (Z.shiftl crc 1)) as Hu. cbv zeta. split.
  { destruct (xorb _ _); [by apply lxor_lt|done]. }
  pose proof (shift_out crc 1 ltac:(lia) ltac:(lia)) as S. rewrite E in S.
  set (u := u32 (Z.shiftl crc 1)) in *. rewrite S.
  destruct (Z.testbit c 31), (Z.testbit crc 31); simpl xorb; cbv iota; rewrite ?Z.lxor_0_l, ?Z.lxor_0_r.
  - rewrite (Z.lxor_comm _ (2 ^ 32)), <- Z.lxor_assoc, Z.lxor_nilpotent, Z.lxor_0_l. reflexivity.
  - rewrite x32_cong. reflexivity.
  - rewrite x32_cong, Z.lxor_comm. reflexivity.
  - reflexivity.
Qed.

Lemma crcbit_byte_spec k x crc : (k <= 32)%nat -> 0 <= x < 2 ^ Z.of_nat k -> 0 <= crc < 2 ^ 32 ->
  0 <= crcbit_byte k (Z.shiftl x (32 - Z.of_nat k)) crc poly < 2 ^ 32 /\
  crcbit_byte k (Z.shiftl x (32 - Z.of_nat k)) crc poly
    ≈[P] Z.lxor (Z.shiftl crc (Z.of_nat k)) (Z.shiftl x 32).
Proof.
  revert x crc. induction k as [|k IH]; intros x crc Hk Hx Hc.
  - assert (x = 0) as -> by (simpl in Hx; lia). simpl. rewrite Z.shiftl_0_r, Z.lxor_0_r. split; [done|reflexivity].
  - simpl. set (c := Z.shiftl x (32 - Z.of_nat (S k))).
    destruct (crcbit_step c crc Hc) as [B E]. cbv zeta in B, E.
    set (crc' := if negb _ then _ else _) in *.
    assert (u32 (Z.shiftl c 1) = Z.shiftl (x mod 2 ^ Z.of_nat k) (32 - Z.of_nat k)) as ->.
    { unfold u32, c. rewrite Z.shiftl_shiftl by lia. rewrite !Z.shiftl_mul_pow2 by lia.
      replace (32 - Z.of_nat (S k) + 1) with (32 - Z.of_nat k) by lia.
      replace (2 ^ 32) with (2 ^ Z.of_nat k * 2 ^ (32 - Z.of_nat k)) by (rewrite <- Z.pow_add_r by lia; f_equal; lia).
      apply Z.mul_mod_distr_r; apply Z.pow_nonzero; lia. }
    destruct (IH (x mod 2 ^ Z.of_nat k) crc') as [B' E']; [lia|apply Z.mod_pos_bound, Z.pow_pos_nonneg; lia|done|].
    split; [done|]. rewrite E', (cong_shiftl _ _ _ (Z.of_nat k) ltac:(lia) E).
    rewrite Z.shiftl_lxor, Z.shiftl_shiftl, Z.lxor_assoc by lia.
    replace (1 + Z.of_nat k) with (Z.of_nat (S k)) by lia.
    apply cong_lxor; [reflexivity|]. rewrite (top_bit x (Z.of_nat k)) at 2 by (rewrite ?Nat2Z.inj_succ in Hx; unfold Z.succ in Hx; lia).
    rewrite Z.shiftl_lxor.
    assert (Z.testbit c 31 = Z.testbit x (Z.of_nat k)) as ->.
    { unfold c. rewrite Z.shiftl_spec by lia. f_equal. lia. }
    destruct (Z.testbit x (Z.of_nat k)); [|rewrite !Z.shiftl_0_l; reflexivity].
    replace (Z.shiftl (2 ^ 32) (Z.of_nat k)) with (Z.shiftl (Z.shiftl 1 (Z.of_nat k)) 32); [reflexivity|].
    rewrite !Z.shiftl_mul_pow2 by lia. lia.
Qed.

(** The register after the first [n] bytes. *)
Definition is_crc (buf : list Z) (n : nat) (crc : Z) : Prop :=
  0 <= crc < 2 ^ 32 /\ crc ≈[P] Z.shiftl (be (take n buf)) 32.

Lemma is_crc_0 buf : is_crc buf 0 0.
Proof. split; [lia|]. unfold be. simpl. reflexivity. Qed.

(** A byte read while the message is walked. *)
Lemma rd_octet buf n : bytes buf -> (n < length buf)%nat ->
  exists b, rd buf (Z.of_nat n) = Done b /\ is_byte b /\ be (take (S n) buf) = Z.lxor (Z.shiftl (be (take n buf)) 8) b.
Proof.
  intros Hb Hn. destruct (lookup_lt_is_Some_2 buf n Hn) as [b E]. exists b.
  split; [apply rd_done; [lia|by rewrite Nat2Z.id]|]. split.
  - by apply (proj1 (Forall_lookup _ _) Hb n).
  - by rewrite (take_S_r _ _ _ E), be_app_one.
Qed.

Lemma is_crc_byte buf n b crc crc' :
  be (take (S n) buf) = Z.lxor (Z.shiftl (be (take n buf)) 8) b -> is_crc buf n crc ->
  0 <= crc' < 2 ^ 32 -> crc' ≈[P] Z.lxor (Z.shiftl crc 8) (Z.shiftl b 32) -> is_crc buf (S n) crc'.
Proof.
  intros Eb [B E] B' E'. split; [done|]. rewrite E', Eb, Z.shiftl_lxor, (cong_shiftl _ _ _ 8 ltac:(lia) E).
  rewrite !Z.shiftl_shiftl by lia. reflexivity.
Qed.

Lemma crcbit_loop_spec buf k n crc : bytes buf -> (n + k <= length buf)%nat -> is_crc buf n crc ->
  exists crc', crcbit_loop k buf (Z.of_nat n) crc poly = Done crc' /\ is_crc buf (n + k) crc'.
Proof.
  intros Hb. revert n crc. induction k as [|k IH]; intros n crc Hl HC.
  - exists crc. rewrite Nat.add_0_r. done.
  - destruct (rd_octet buf n Hb) as (b & Eb & Bb & Ebe); [lia|].
    cbn [crcbit_loop]. rewrite Eb. cbn [mbind outcome_bind].
    replace (Z.of_nat n + 1) with (Z.of_nat (S n)) by lia.
    rewrite Nat.add_succ_r, <- Nat.add_succ_l. apply IH; [lia|].
    destruct (crcbit_byte_spec 8 b crc) as [B E]; [lia|done|apply HC|].
    assert (u32 (Z.shiftl b 24) = Z.shiftl b (32 - Z.of_nat 8)) as ->.
    { unfold u32. apply Z.mod_small, (shiftl_lt b 8 24); [lia|lia|done]. }
    by apply (is_crc_byte buf n b crc).
Qed.

Lemma crcbit_spec buf n : bytes buf -> 0 <= n <= Z.of_nat (length buf) ->
  exists crc, crcbit buf n poly = Done crc /\ is_crc buf (Z.to_nat n) crc.
Proof. intros Hb Hn. apply (crcbit_loop_spec buf (Z.to_nat n) 0 0); [done|lia|apply is_crc_0]. Qed.

Lemma is_crc_unique buf n a b : is_crc buf n a -> is_crc buf n b -> a = b.
Proof.
  intros [Ba Ea] [Bb Eb]. apply (cong_unique P 32); [lia|apply P_range|done|done|]. by rewrite Ea, Eb.
Qed.

(** ** By table *)

(** What the table holds: at [i], [i] times x^32, reduced; [sh] restores the alignment. *)
Definition table_ok (tab : list Z) (sh : Z) : Prop := forall i, is_byte i ->
  exists t, rd tab i = Done t /\ 0 <= u32 (Z.shiftl t sh) < 2 ^ 32 /\ u32 (Z.shiftl t sh) ≈[P] Z.shiftl i 32.

(** [k] bits of a message enter the register through the table. *)
Lemma table_step tab sh k x crc : table_ok tab sh -> 0 <= k <= 8 -> 0 <= x < 2 ^ k -> 0 <= crc < 2 ^ 32 ->
  exists t, rd tab (Z.lxor x (Z.shiftr crc (32 - k))) = Done t /\
    0 <= Z.lxor (u32 (Z.shiftl crc k)) (u32 (Z.shiftl t sh)) < 2 ^ 32 /\
    Z.lxor (u32 (Z.shiftl crc k)) (u32 (Z.shiftl t sh)) ≈[P] Z.lxor (Z.shiftl crc k) (Z.shiftl x 32).
Proof.
  intros HT Hk Hx Hc. set (i := Z.lxor x (Z.shiftr crc (32 - k))).
  assert (0 <= i < 2 ^ k) as Bi.
  { apply lxor_lt; [lia|done|]. apply shiftr_lt; [lia|lia|]. by replace (k + (32 - k)) with 32 by lia. }
  assert (2 ^ k <= 2 ^ 8) by (apply Z.pow_le_mono_r; lia).
  destruct (HT i) as (t & Et & Bt & Ct); [unfold is_byte; lia|]. exists t. split; [done|].
  split; [apply lxor_lt; [lia|apply u32_bound|done]|].
  pose proof (shift_out crc k ltac:(lia) ltac:(lia)) as S. set (u := u32 (Z.shiftl crc k)) in *.
  rewrite Ct, S. unfold i. rewrite Z.shiftl_lxor.
  match goal with |- cong _ ?a ?b => replace a with b; [reflexivity|] end.
  rewrite (Z.lxor_comm (Z.shiftl (Z.shiftr crc (32 - k)) 32)), !Z.lxor_assoc. f_equal. apply Z.lxor_comm.
Qed.

(** A step of the walk of the octets that keeps an invariant of the register. *)
Definition step_ok (I : Z -> Prop) (step : Z -> Z -> outcome Z) : Prop := forall crc b,
  is_byte b -> 0 <= crc < 2 ^ 32 -> I crc ->
  exists crc', step crc b = Done crc' /\ 0 <= crc' < 2 ^ 32 /\ I crc' /\
    crc' ≈[P] Z.lxor (Z.shiftl crc 8) (Z.shiftl b 32).

Lemma octets_spec I step buf k n crc : step_ok I step -> bytes buf -> (n + k <= length buf)%nat ->
  is_crc buf n crc -> I crc ->
  exists crc', octets step k buf (Z.of_nat n) crc = Done crc' /\ is_crc buf (n + k) crc'.
Proof.
  intros HS Hb. revert n crc. induction k as [|k IH]; intros n crc Hl HC HI.
  - exists crc. rewrite Nat.add_0_r. done.
  - destruct (rd_octet buf n Hb) as (b & Eb & Bb & Ebe); [lia|]. cbn [octets]. rewrite Eb. cbn [mbind outcome_bind].
    destruct (HS crc b Bb (proj1 HC) HI) as (crc' & -> & B' & I' & E'). cbn [mbind outcome_bind].
    replace (Z.of_nat n + 1) with (Z.of_nat (S n)) by lia.
    rewrite Nat.add_succ_r, <- Nat.add_succ_l. apply IH; [lia| |done]. by apply (is_crc_byte buf n b crc).
Qed.

Lemma step8_ok tab sh : table_ok tab sh -> step_ok (fun _ => True) (step8 tab sh).
Proof.
  intros HT crc b Hb Hc _. unfold step8.
  destruct (table_step tab sh 8 b crc HT) as (t & Et & B & E); [lia|apply Hb|done|].
  change (32 - 8) with 24 in Et. rewrite Et. cbn [mbind outcome_bind]. eauto 10.
Qed.

(** When the CRC has at most 8 bits, nothing of the register is left after a shift by 8. *)
Lemma step8_top_ok tab sh : 24 <= sh -> table_ok tab sh -> step_ok (fun crc => crc mod 2 ^ 24 = 0) (step8_top tab sh).
Proof.
  intros Hs HT crc b Hb Hc HI. unfold step8_top.
  destruct (table_step tab sh 8 b crc HT) as (t & Et & B & E); [lia|apply Hb|done|].
  change (32 - 8) with 24 in Et. rewrite Et. cbn [mbind outcome_bind].
  assert (u32 (Z.shiftl crc 8) = 0) as E0.
  { unfold u32. rewrite Z.shiftl_mul_pow2 by lia. change (2 ^ 32) with (2 ^ 24 * 2 ^ 8).
    rewrite Z.mul_mod_distr_r by lia. by rewrite HI. }
  rewrite E0, Z.lxor_0_l in B, E. eexists. split; [done|]. split; [done|]. split; [|done].
  unfold u32. rewrite Z.mod_mod_divide by (by exists (2 ^ 8)). apply shiftl_mod_0. lia.
Qed.
End Remainder.

(** ** The functions *)

(** The polynomial of the first [bitlen] bits of a buffer. *)
Definition message (buf : list Z) (bitlen : Z) : Z :=
  let octets := (bitlen + 7) / 8 in Z.shiftr (be (take (Z.to_nat octets) buf)) (8 * octets - bitlen).

(** The CRC of the standard: the remainder of the message times x^32 (the CRC is aligned to 32 bits). *)
Definition crc_spec (poly : Z) (buf : list Z) (bitlen : Z) : Z :=
  prem (Z.to_nat bitlen) (gen poly) 32 (Z.shiftl (message buf bitlen) 32).

Lemma message_octets buf n : 0 <= n -> message buf (8 * n) = be (take (Z.to_nat n) buf).
Proof.
  intros Hn. unfold message. replace ((8 * n + 7) / 8) with n.
  - by rewrite Z.sub_diag, Z.shiftr_0_r.
  - apply (Z.div_unique _ _ _ 7); lia.
Qed.

Lemma message_bound buf bitlen : bytes buf -> 0 <= bitlen -> 0 <= message buf bitlen < 2 ^ bitlen.
Proof.
  intros Hb Hl. unfold message. set (o := (bitlen + 7) / 8).
  assert (bitlen <= 8 * o) by (pose proof (Z.div_mod (bitlen + 7) 8 ltac:(lia)); pose proof (Z.mod_pos_bound (bitlen + 7) 8 ltac:(lia)); unfold o; lia).
  apply shiftr_lt; [lia|lia|]. replace (bitlen + (8 * o - bitlen)) with (8 * Z.of_nat (Z.to_nat o)) by lia.
  by apply be_take_bound.
Qed.

Lemma crc_spec_unique poly buf bitlen r : 0 <= poly < 2 ^ 32 -> bytes buf -> 0 <= bitlen ->
  0 <= r < 2 ^ 32 -> r ≈[gen poly] Z.shiftl (message buf bitlen) 32 -> r = crc_spec poly buf bitlen.
Proof.
  intros Hp Hb Hl Br Er. pose proof (P_range poly Hp) as HP.
  apply (cong_unique (gen poly) 32); [lia|done|done| |].
  - apply prem_bound; [lia|done|]. rewrite Z2Nat.id by lia. rewrite (Z.add_comm 32). apply shiftl_lt; [lia|lia|].
    by apply message_bound.
  - unfold crc_spec. rewrite Er. symmetry. apply prem_cong.
Qed.

(** The residual bits of the last byte. *)
Lemma message_residual buf o r b : 0 <= o -> 0 < r < 8 ->
  be (take (S (Z.to_nat o)) buf) = Z.lxor (Z.shiftl (be (take (Z.to_nat o) buf)) 8) b ->
  message buf (8 * o + r) = Z.lxor (Z.shiftl (be (take (Z.to_nat o) buf)) r) (Z.shiftr b (8 - r)).
Proof.
  intros Ho Hr E. unfold message. assert ((8 * o + r + 7) / 8 = o + 1) as -> by (symmetry; apply (Z.div_unique _ _ _ (r - 1)); lia).
  replace (Z.to_nat (o + 1)) with (S (Z.to_nat o)) by lia. rewrite E, Z.shiftr_lxor.
  replace (8 * (o + 1) - (8 * o + r)) with (8 - r) by lia. rewrite Z.shiftr_shiftl_l by lia. do 2 f_equal. lia.
Qed.

Lemma by_table_spec poly tab sh I step buf bitlen :
  0 <= poly < 2 ^ 32 -> table_ok poly tab sh -> step_ok poly I step -> I 0 ->
  bytes buf -> 0 <= bitlen -> (bitlen + 7) / 8 <= Z.of_nat (length buf) ->
  by_table tab sh step buf bitlen = Done (crc_spec poly buf bitlen).
Proof.
  intros Hp HT HS HI Hb Hl Hlen. unfold by_table. rewrite Z.quot_div_nonneg, Z.rem_mod_nonneg by lia.
  pose proof (Z.div_mod bitlen 8 ltac:(lia)) as Hdm. pose proof (Z.mod_pos_bound bitlen 8 ltac:(lia)) as Hm.
  pose proof (Z.div_mod (bitlen + 7) 8 ltac:(lia)). pose proof (Z.mod_pos_bound (bitlen + 7) 8 ltac:(lia)).
  set (o := bitlen / 8) in *. set (r := bitlen mod 8) in *.
  destruct (octets_spec poly I step buf (Z.to_nat o) 0 0) as (crc & EO & HC); [done|done|lia|by apply is_crc_0|done|].
  change (Z.of_nat 0) with 0 in EO. rewrite EO.
  cbn [mbind outcome_bind]. rewrite Nat.add_0_l in HC. unfold residual. destruct (r >? 0) eqn:Er; zbool.
  - destruct (rd_octet buf (Z.to_nat o) Hb) as (b & Eb & Bb & Ebe); [lia|]. rewrite Z2Nat.id in Eb by lia.
    rewrite Eb. cbn [mbind outcome_bind].
    destruct (table_step poly tab sh r (Z.shiftr b (8 - r)) crc HT) as (t & -> & B & E); [lia| |apply HC|].
    { apply shiftr_lt; [lia|lia|]. replace (r + (8 - r)) with 8 by lia. apply Bb. }
    cbn [mbind outcome_bind]. f_equal. apply crc_spec_unique; try done.
    rewrite E, (cong_shiftl _ _ _ r ltac:(lia) (proj2 HC)). rewrite Hdm, (message_residual buf o r b) by (done || lia).
    rewrite Z.shiftl_lxor, !Z.shiftl_shiftl by lia. rewrite (Z.add_comm 32). reflexivity.
  - f_equal. apply crc_spec_unique; try done; [apply HC|]. replace bitlen with (8 * o) by lia.
    rewrite message_octets by lia. apply HC.
Qed.

(** The tables that the initialization makes. *)
Definition the_tables : crc_tables :=
  Eval vm_compute in match crcTableInit static_tables with Done T => T | _ => static_tables end.

Lemma crcTableInit_done : crcTableInit static_tables = Done the_tables.
Proof. vm_compute. reflexivity. Qed.

(** A table agrees with the bit by bit computation at every index. *)
Definition table_check (poly sh : Z) (tab : list Z) : bool :=
  forallb (fun i => match rd tab i, crcbit [i] 1 poly with
                    | Done t, Done v => u32 (Z.shiftl t sh) =? v
                    | _, _ => false
                    end) (map Z.of_nat (seq 0 256)).

Lemma table_check_ok poly sh tab : 0 <= poly < 2 ^ 32 -> table_check poly sh tab = true -> table_ok poly tab sh.
Proof.
  intros Hp H i Hi. unfold table_check in H. rewrite forallb_forall in H.
  specialize (H i). destruct (rd tab i) as [t| |]; [|discriminate H; apply in_map_iff..].
  all: try (exists (Z.to_nat i); split; [unfold is_byte in Hi; lia|apply in_seq; unfold is_byte in Hi; lia]).
  exists t. split; [done|].
  destruct (crcbit_spec poly Hp [i] 1) as (v & Ev & Bv & Cv); [by constructor|simpl; lia|].
  rewrite Ev in H. specialize (H ltac:(apply in_map_iff; exists (Z.to_nat i); split; [unfold is_byte in Hi; lia|apply in_seq; unfold is_byte in Hi; lia])).
  apply Z.eqb_eq in H. rewrite H. split; [done|]. rewrite Cv. unfold be. simpl. reflexivity.
Qed.

#[export] Instance ctx24a_ok : CtxOk lte_crc24a_pclmulqdq.
Proof.
  split; try (split; [vm_compute; split; congruence|]).
  - apply (cong_prem 128 _ 32). vm_compute. reflexivity.
  - apply (cong_prem 192 _ 32). vm_compute. reflexivity.
  - apply (cong_prem 64 _ 32). vm_compute. reflexivity.
  - vm_compute. split; congruence.
  - vm_compute. split; congruence.
Qed.

#[export] Instance ctx24b_ok : CtxOk lte_crc24b_pclmulqdq.
Proof.
  split; try (split; [vm_compute; split; congruence|]).
  - apply (cong_prem 128 _ 32). vm_compute. reflexivity.
  - apply (cong_prem 192 _ 32). vm_compute. reflexivity.
  - apply (cong_prem 64 _ 32). vm_compute. reflexivity.
  - vm_compute. split; congruence.
  - vm_compute. split; congruence.
Qed.

(** The buffer holds what the computation of the CRC of its first [bitlen] bits reads: the bytes of the
    message, and with the SIMD version the whole blocks of 16 bytes of the short messages. *)
Definition crc_buffer (intel : bool) (buf : list Z) (bitlen : Z) : Prop :=
  bytes buf /\ 0 <= bitlen < 2 ^ 31 /\ (bitlen + 7) / 8 <= Z.of_nat (length buf) /\
  (intel = true -> 0 < bitlen -> crc_reads (bitlen / 8) <= Z.of_nat (length buf)).

Section Functions.
Variables (intel : bool) (buf : list Z) (bitlen : Z).
Hypothesis HB : crc_buffer intel buf bitlen.
#[local] Abbreviation T := the_tables.

(** The SIMD version on a whole number of bytes. *)
Lemma folded_spec c : CtxOk c -> 0 <= p c < 2 ^ 32 -> intel = true -> bitlen mod 8 = 0 ->
  crc32_calc_pclmulqdq buf (u32 (Z.quot bitlen 8)) 0 c = Done (crc_spec (p c) buf bitlen).
Proof.
  intros OK Hp Hi Hm. destruct HB as (Hb & Hl & Hlen & Hr). rewrite Z.quot_div_nonneg by lia.
  pose proof (Z.div_mod bitlen 8 ltac:(lia)) as Hdm. set (o := bitlen / 8) in *.
  assert (u32 o = o) as -> by (unfold u32; apply Z.mod_small; lia).
  destruct (Z.eq_dec bitlen 0) as [->|Hz].
  - assert (o = 0) as -> by lia. unfold crc32_calc_pclmulqdq. simpl. reflexivity.
  - destruct (crc32_calc_spec c buf Hb o) as (r & -> & Br & Cr); [lia|apply Hr; [done|lia]|].
    f_equal. apply crc_spec_unique; try done; [lia|]. replace bitlen with (8 * o) by lia. by rewrite message_octets by lia.
Qed.

(** The table driven version. *)
Lemma table8_spec poly tab sh : 0 <= poly < 2 ^ 32 -> table_check poly sh tab = true ->
  by_table tab sh (step8 tab sh) buf bitlen = Done (crc_spec poly buf bitlen).
Proof.
  intros Hp HT. destruct HB as (Hb & Hl & Hlen & Hr). apply table_check_ok in HT; [|done].
  by apply (by_table_spec _ _ _ (fun _ => True)); [..|apply step8_ok| | | |]; try lia.
Qed.

Lemma table8_top_spec poly tab : 0 <= poly < 2 ^ 32 -> table_check poly 24 tab = true ->
  by_table tab 24 (step8_top tab 24) buf bitlen = Done (crc_spec poly buf bitlen).
Proof.
  intros Hp HT. destruct HB as (Hb & Hl & Hlen & Hr). apply table_check_ok in HT; [|done].
  by apply (by_table_spec _ _ _ (fun crc => crc mod 2 ^ 24 = 0)); [..|apply step8_top_ok| | | |]; try lia.
Qed.

Lemma crc24a_ok : crc24a intel T buf bitlen = Done (crc_spec poly24a buf bitlen).
Proof.
  unfold crc24a. destruct HB as (Hb & Hl & _). rewrite Z.rem_mod_nonneg by lia. cif; zbool.
  - apply table8_spec; [unfold poly24a; lia|vm_compute; done].
  - by apply (folded_spec lte_crc24a_pclmulqdq); [apply _|simpl; lia|..].
Qed.

Lemma crc24b_ok : crc24b intel T buf bitlen = Done (crc_spec poly24b buf bitlen).
Proof.
  unfold crc24b. destruct HB as (Hb & Hl & _). rewrite Z.rem_mod_nonneg by lia. cif; zbool.
  - apply table8_spec; [unfold poly24b; lia|vm_compute; done].
  - by apply (folded_spec lte_crc24b_pclmulqdq); [apply _|simpl; lia|..].
Qed.

Lemma crc24c_ok : crc24c T buf bitlen = Done (crc_spec poly24c buf bitlen).
Proof. apply table8_spec; [unfold poly24c; lia|vm_compute; done]. Qed.
Lemma crc16_ok : crc16 T buf bitlen = Done (crc_spec poly16 buf bitlen).
Proof. apply table8_spec; [unfold poly16; lia|vm_compute; done]. Qed.
Lemma crc12_ok : crc12 T buf bitlen = Done (crc_spec poly12 buf bitlen).
Proof. apply table8_spec; [unfold poly12; lia|vm_compute; done]. Qed.
Lemma crc11_ok : crc11 T buf bitlen = Done (crc_spec poly11 buf bitlen).
Proof. apply table8_spec; [unfold poly11; lia|vm_compute; done]. Qed.
Lemma crc8_ok : crc8 T buf bitlen = Done (crc_spec poly8 buf bitlen).
Proof. apply table8_top_spec; [unfold poly8; lia|vm_compute; done]. Qed.
Lemma crc6_ok : crc6 T buf bitlen = Done (crc_spec poly6 buf bitlen).
Proof. apply table8_top_spec; [unfold poly6; lia|vm_compute; done]. Qed.
End Functions.

(** C12. After [crcTableInit], each of the eight CRC functions of crc_byte.c returns, on the first [bitlen] bits
    of a buffer (a whole number of bytes or not), the remainder of the polynomial division of those bits by the
    generator of the function: the table driven loop with its residual bits, the loops of crc8 and crc6 that
    forget the shifted register, and the version of crc24a and crc24b by carry-less multiplication with its
    folding constants all compute the CRC of the standard. *)
Theorem crc_functions_remainder intel T buf bitlen :
  crcTableInit static_tables = Done T -> crc_buffer intel buf bitlen ->
  crc24a intel T buf bitlen = Done (crc_spec poly24a buf bitlen) /\
  crc24b intel T buf bitlen = Done (crc_spec poly24b buf bitlen) /\
  crc24c T buf bitlen = Done (crc_spec poly24c buf bitlen) /\
  crc16 T buf bitlen = Done (crc_spec poly16 buf bitlen) /\
  crc12 T buf bitlen = Done (crc_spec poly12 buf bitlen) /\
  crc11 T buf bitlen = Done (crc_spec poly11 buf bitlen) /\
  crc8 T buf bitlen = Done (crc_spec poly8 buf bitlen) /\
  crc6 T buf bitlen = Done (crc_spec poly6 buf bitlen).
Proof.
  rewrite crcTableInit_done. intros [= <-] HB.
  repeat split; [eapply crc24a_ok|eapply crc24b_ok|eapply crc24c_ok|eapply crc16_ok|eapply crc12_ok|
    eapply crc11_ok|eapply crc8_ok|eapply crc6_ok]; exact HB.
Qed.

(** The 12 characters of the test code of the file, and 25 more bits. *)
Definition test_buf : list Z :=
  [84; 104; 101; 98; 105; 103; 114; 101; 100; 102; 111; 120; 1; 2; 3; 255] ++ replicate 32 7.

Lemma crc_functions_remainder_witness :
  crc24a true the_tables test_buf 96 = Done (crc_spec poly24a test_buf 96) /\
  crc_spec poly24a test_buf 96 <> 0 /\
  crc16 the_tables test_buf 121 = Done (crc_spec poly16 test_buf 121).
Proof.
  assert (forall n, 0 <= n <= 300 -> crc_buffer true test_buf n) as HB.
  { intros n Hn. split; [unfold test_buf, bytes; simpl; repeat constructor; unfold is_byte; lia|]. split; [lia|].
    change (Z.of_nat (length test_buf)) with 48. split.
    - pose proof (Z.div_mod (n + 7) 8 ltac:(lia)). pose proof (Z.mod_pos_bound (n + 7) 8 ltac:(lia)). lia.
    - intros _ _. unfold crc_reads. pose proof (Z.div_mod n 8 ltac:(lia)). pose proof (Z.mod_pos_bound n 8 ltac:(lia)).
      repeat cif; lia. }
  split; [|split].
  - apply (crc_functions_remainder true the_tables test_buf 96 crcTableInit_done). apply HB. lia.
  - vm_compute. congruence.
  - apply (crc_functions_remainder true the_tables test_buf 121 crcTableInit_done). apply HB. lia.
Defined.

(** ** check_crc *)

(** The generator of a kind of CRC, of degree [8 * check_crc_len crc_type]. *)
Definition crc_generator (crc_type : Z) : Z :=
  if crc_type =? CRC24_A then 0x1864cfb
  else if crc_type =? CRC24_B then 0x1800063
  else if crc_type =? CRC16 then 0x11021
  else 0x19B.

(** The remainder without the alignment to 32 bits. *)
Lemma crc_aligned poly G s buf bitlen : 0 <= poly < 2 ^ 32 -> bytes buf -> 0 <= bitlen -> 0 <= s <= 32 ->
  gen poly = Z.shiftl G s ->
  0 <= Z.shiftr (crc_spec poly buf bitlen) s < 2 ^ (32 - s) /\
  Z.shiftr (crc_spec poly buf bitlen) s ≈[G] Z.shiftl (message buf bitlen) (32 - s).
Proof.
  intros Hp Hb Hl Hs EG. pose proof (P_range poly Hp) as HP.
  assert (0 <= crc_spec poly buf bitlen < 2 ^ 32) as Br.
  { apply prem_bound; [lia|done|]. rewrite Z2Nat.id by lia. rewrite (Z.add_comm 32). apply shiftl_lt; [lia|lia|].
    by apply message_bound. }
  split; [apply shiftr_lt; [lia|lia|by replace (32 - s + s) with 32 by lia]|].
  apply (mult_shift_both G _ s); [lia|]. rewrite <- EG, Z.shiftl_lxor, Z.shiftl_shiftl by lia.
  replace (32 - s + s) with 32 by lia.
  assert (crc_spec poly buf bitlen ≈[gen poly] Z.shiftl (message buf bitlen) 32) as [n [q0 E]] by apply prem_cong.
  exists n, q0. rewrite <- E. f_equal.
  assert (crc_spec poly buf bitlen = Z.shiftl (Z.lxor (pmul n G q0) (Z.shiftl (message buf bitlen) (32 - s))) s) as ->.
  { rewrite Z.shiftl_lxor, Z.shiftl_shiftl, <- pmul_shiftl_l, <- EG, <- E by lia. replace (32 - s + s) with 32 by lia.
    by rewrite Z.lxor_assoc, Z.lxor_nilpotent, Z.lxor_0_r. }
  by rewrite Z.shiftr_shiftl_l, Z.sub_diag, Z.shiftl_0_r by lia.
Qed.

Lemma lor_octet a b k : 0 <= k -> is_byte b ->
  Z.lor (Z.shiftl a (8 + k)) (Z.shiftl b k) = Z.shiftl (Z.lxor (Z.shiftl a 8) b) k.
Proof.
  intros Hk Hb. rewrite <- Z.shiftl_shiftl, <- Z.shiftl_lor by lia. f_equal. apply Z.bits_inj'. intros i Hi.
  rewrite Z.lor_spec, Z.lxor_spec, Z.shiftl_spec by lia. destruct (Z.lt_ge_cases i 8).
  - by rewrite (Z.testbit_neg_r _ (i - 8)) by lia.
  - rewrite (lt_bits b 8); [by rewrite orb_false_r, xorb_false_r|exact Hb|lia].
Qed.

(** The CRC that the block carries. *)
Lemma check_crc_old_spec buf n len k :
  bytes buf -> 0 <= n < 2 ^ 32 -> 0 <= Z.of_nat k <= len -> len <= Z.shiftr n 3 <= Z.of_nat (length buf) ->
  check_crc_old k buf n len (Z.shiftl (be (take (Z.to_nat (len - Z.of_nat k)) (drop (Z.to_nat (Z.shiftr n 3 - len)) buf))) (8 * Z.of_nat k))
  = Done (be (take (Z.to_nat len) (drop (Z.to_nat (Z.shiftr n 3 - len)) buf))).
Proof.
  intros Hb Hn Hk Hm. set (l := drop (Z.to_nat (Z.shiftr n 3 - len)) buf). induction k as [|k IH].
  - simpl. by rewrite Z.shiftl_0_r, Z.sub_0_r.
  - assert (Z.shiftr n 3 < 2 ^ 32) by (apply (shiftr_lt n 32 3); [lia|lia|split; [lia|]; apply Z.lt_trans with (2 ^ 32); lia]).
    cbn [check_crc_old].
    assert (u32 (Z.shiftr n 3 - len + (len - Z.of_nat (S k))) = Z.shiftr n 3 - Z.of_nat (S k)) as ->
      by (unfold u32; rewrite Z.mod_small; lia).
    assert (Forall is_byte l) as Hbl by (by apply Forall_drop).
    destruct (rd_octet l (Z.to_nat (len - Z.of_nat (S k))) Hbl) as (b & Eb & Bb & Ebe).
    { unfold l. rewrite length_drop. lia. }
    apply rd_inv in Eb as [_ Eb]. unfold l in Eb. rewrite Nat2Z.id, lookup_drop in Eb.
    assert (rd buf (Z.shiftr n 3 - Z.of_nat (S k)) = Done b) as ->.
    { apply rd_done; [lia|]. rewrite <- Eb. f_equal. lia. }
    cbn [mbind outcome_bind]. rewrite <- IH by lia. f_equal.
    replace (Z.shiftl (len - 1 - (len - Z.of_nat (S k))) 3) with (8 * Z.of_nat k) by (rewrite Z.shiftl_mul_pow2; lia).
    replace (8 * Z.of_nat (S k)) with (8 + 8 * Z.of_nat k) by lia. rewrite lor_octet by (done || lia).
    rewrite <- Ebe. do 3 f_equal. lia.
Qed.

Section Check.
Variables (intel : bool) (buf : list Z) (n crc_type : Z).
#[local] Abbreviation len := (check_crc_len crc_type).
(** A kind of CRC, and a block of a whole number of bytes. *)
Definition check_ok : Prop :=
  0 <= crc_type <= 3 /\ n mod 8 = 0 /\ 8 * check_crc_len crc_type <= n < 2 ^ 31 /\ n / 8 <= Z.of_nat (length buf) /\
  crc_buffer intel buf (n - 8 * check_crc_len crc_type).
Hypothesis H : check_ok.

Lemma check_len_range : 1 <= len <= 3.
Proof. destruct H as [Hr _]. unfold check_crc_len. repeat cif; try lia. zbool. unfold CRC24_A, CRC24_B, CRC16, CRC8 in *. lia. Qed.

Lemma land_mask r k : 0 <= r < 2 ^ k -> 0 <= k -> Z.land r (Z.ones k) = r.
Proof. intros Hr Hk. rewrite Z.land_ones by lia. by apply Z.mod_small. Qed.

Lemma check_crc_pair_spec old : 0 <= old < 2 ^ (8 * len) ->
  exists r, check_crc_pair intel the_tables buf n crc_type old = Done (old, r) /\
    0 <= r < 2 ^ (8 * len) /\ r ≈[crc_generator crc_type] Z.shiftl (message buf (n - 8 * len)) (8 * len).
Proof.
  destruct H as (Hr & Hm & Hn & Hlen & HB). intros Ho. pose proof HB as (Hbytes & Hl & _).
  assert (forall x, 0 <= x < 2 ^ 31 -> s32 x = x) as Hs.
  { intros x Hx. unfold s32, u32. rewrite Z.mod_small by lia. cif; zbool; lia. }
  unfold check_crc_pair, check_crc_len, crc_generator in *.
  assert (crc_type = 0 \/ crc_type = 1 \/ crc_type = 2 \/ crc_type = 3) as [E|[E|[E|E]]] by lia;
    rewrite E in *; cbn [Z.eqb orb Pos.eqb CRC24_A CRC24_B CRC16 CRC8] in *.
  - rewrite Hs, crc24a_ok by (done || lia). cbn [mbind outcome_bind]. rewrite (land_mask old 24 : _ -> _ -> Z.land old 0x00ffffff = old) by lia.
    eexists. split; [done|]. apply (crc_aligned poly24a _ 8); (done || lia).
  - rewrite Hs, crc24b_ok by (done || lia). cbn [mbind outcome_bind]. rewrite (land_mask old 24 : _ -> _ -> Z.land old 0x00ffffff = old) by lia.
    eexists. split; [done|]. apply (crc_aligned poly24b _ 8); (done || lia).
  - rewrite Hs, (crc16_ok intel) by (done || lia). cbn [mbind outcome_bind]. rewrite (land_mask old 16 : _ -> _ -> Z.land old 0x0000ffff = old) by lia.
    eexists. split; [done|]. apply (crc_aligned poly16 _ 16); (done || lia).
  - rewrite Hs, (crc8_ok intel) by (done || lia). cbn [mbind outcome_bind]. rewrite (land_mask old 8 : _ -> _ -> Z.land old 0x000000ff = old) by lia.
    eexists. split; [done|]. apply (crc_aligned poly8 _ 24); (done || lia).
Qed.

Lemma generator_degree : 2 ^ (8 * len) <= crc_generator crc_type < 2 ^ (8 * len + 1).
Proof.
  destruct H as [Hr _]. assert (crc_type = 0 \/ crc_type = 1 \/ crc_type = 2 \/ crc_type = 3) as [E|[E|[E|E]]] by lia;
    rewrite E; vm_compute; split; congruence.
Qed.

Lemma check_crc_spec : exists r, check_crc intel the_tables buf n crc_type = Done r /\ (r = 0 \/ r = 1) /\
  (r = 1 <-> mult (crc_generator crc_type) (be (take (Z.to_nat (n / 8)) buf))).
Proof.
  pose proof check_len_range as HL. pose proof H as (Hr & Hm & Hn & Hlen & HB). pose proof HB as (Hbytes & Hl & _).
  pose proof (Z.div_mod n 8 ltac:(lia)) as Hdm. unfold check_crc.
  assert (Z.shiftr n 3 = n / 8) as En by (rewrite Z.shiftr_div_pow2 by lia; done).
  pose proof (check_crc_old_spec buf n len (Z.to_nat len) Hbytes ltac:(lia) ltac:(lia) ltac:(rewrite En; lia)) as EO.
  rewrite Z2Nat.id, Z.sub_diag, take_0, En in EO by lia. change (be []) with 0 in EO. rewrite Z.shiftl_0_l in EO.
  rewrite EO. cbn [mbind outcome_bind]. set (old := be (take (Z.to_nat len) (drop (Z.to_nat (n / 8 - len)) buf))).
  assert (0 <= old < 2 ^ (8 * len)) as Bo.
  { replace (8 * len) with (8 * Z.of_nat (Z.to_nat len)) by lia. apply be_take_bound, Forall_drop, Hbytes. }
  destruct (check_crc_pair_spec old Bo) as (r & -> & Br & Cr). cbn [mbind outcome_bind].
  assert (be (take (Z.to_nat (n / 8)) buf) ≈[crc_generator crc_type] Z.lxor r old) as EB.
  { rewrite Cr. replace (n - 8 * len) with (8 * (n / 8 - len)) by lia. rewrite message_octets by lia.
    replace (Z.to_nat (n / 8)) with (Z.to_nat (n / 8 - len) + Z.to_nat len)%nat by lia.
    rewrite be_split by lia. fold old. rewrite Z2Nat.id by lia. reflexivity. }
  eexists. split; [done|]. split; [cif; auto|]. rewrite mult_cong, EB. fold (cong (crc_generator crc_type) r old).
  rewrite <- mult_cong. fold (cong (crc_generator crc_type) r old). destruct (r =? old) eqn:E; zbool.
  - subst r. split; [intros _; reflexivity|done].
  - split; [done|]. intros C. exfalso. apply E.
    apply (cong_unique (crc_generator crc_type) (8 * len)); try done; [lia|apply generator_degree].
Qed.
End Check.

(** The generator has a constant term. *)
Lemma generator_odd crc_type : 0 <= crc_type <= 3 -> Z.testbit (crc_generator crc_type) 0 = true.
Proof.
  intros Hr. assert (crc_type = 0 \/ crc_type = 1 \/ crc_type = 2 \/ crc_type = 3) as [->|[->|[->| ->]]] by lia; done.
Qed.

(** C26. [check_crc] decides divisibility.  For the two CRC24, CRC16 and CRC8, with the table driven and with the
    SIMD computation, it returns 1 exactly when the generator polynomial divides the block with its CRC, and 0
    otherwise; so it refuses every block that differs from an accepted one within a window of 8, 16 or 24 bits
    (the size of the CRC), wherever the window is. *)
Theorem check_crc_exact intel T buf n crc_type :
  crcTableInit static_tables = Done T -> check_ok intel buf n crc_type ->
  exists r, check_crc intel T buf n crc_type = Done r /\ (r = 0 \/ r = 1) /\
    (r = 1 <-> mult (crc_generator crc_type) (be (take (Z.to_nat (n / 8)) buf))) /\
    (r = 1 -> forall buf' e k, check_ok intel buf' n crc_type ->
       be (take (Z.to_nat (n / 8)) buf') = Z.lxor (be (take (Z.to_nat (n / 8)) buf)) (Z.shiftl e k) ->
       0 < e < 2 ^ (8 * check_crc_len crc_type) -> 0 <= k -> check_crc intel T buf' n crc_type = Done 0).
Proof.
  rewrite crcTableInit_done. intros [= <-] H. destruct (check_crc_spec intel buf n crc_type H) as (r & Er & Hr & Ir).
  exists r. split_and!; try done. intros -> buf' e k H' Ebe He Hk.
  destruct (check_crc_spec intel buf' n crc_type H') as (r' & Er' & [->| ->] & Ir'); [done|]. exfalso.
  pose proof (proj1 Ir eq_refl) as M. pose proof (proj1 Ir' eq_refl) as M'. rewrite Ebe in M'.
  assert (mult (crc_generator crc_type) (Z.shiftl e k)) as Me.
  { rewrite <- (Z.lxor_0_l (Z.shiftl e k)), <- (Z.lxor_nilpotent (be (take (Z.to_nat (n / 8)) buf))), Z.lxor_assoc.
    by apply mult_xor. }
  apply mult_unshift in Me; [|done|by apply generator_odd, H].
  pose proof (check_len_range _ _ _ _ H). apply (mult_small _ _ (8 * check_crc_len crc_type)) in Me; [lia|lia| |lia].
  apply (generator_degree intel buf n), H.
Qed.

Lemma check_ok_dec intel (buf : list Z) n crc_type :
  forallb (fun b => (0 <=? b) && (b <? 256)) buf && (48 <=? Z.of_nat (length buf)) && (n mod 8 =? 0) && (n <=? 256) &&
  (0 <=? crc_type) && (crc_type <=? 3) && (8 * check_crc_len crc_type <=? n) = true ->
  check_ok intel buf n crc_type.
Proof.
  intros H. zbool. unfold check_ok, crc_buffer. assert (0 <= check_crc_len crc_type) by (unfold check_crc_len; repeat cif; lia).
  pose proof (Z.div_mod n 8 ltac:(lia)). set (m := n - 8 * check_crc_len crc_type).
  pose proof (Z.div_mod m 8 ltac:(lia)). pose proof (Z.mod_pos_bound m 8 ltac:(lia)).
  pose proof (Z.div_mod (m + 7) 8 ltac:(lia)). pose proof (Z.mod_pos_bound (m + 7) 8 ltac:(lia)).
  do 4 (split; [lia|]). split.
  { apply Forall_forall. intros b Hb. match goal with F : forallb _ _ = true |- _ => rewrite forallb_forall in F; specialize (F b) end.
    apply list_elem_of_In in Hb. match goal with F : In b buf -> _ |- _ => specialize (F Hb) end. zbool. unfold is_byte. lia. }
  split; [lia|]. split; [lia|]. intros _ _. unfold crc_reads. repeat cif; lia.
Qed.

(** A block with its CRC24A, and the same with 24 bits of it flipped. *)
Definition good_block : list Z := [1; 2; 3; 4; 5; 6; 7; 8; 9; 10; 11; 12; 13; 14; 54; 97; 247] ++ replicate 40 0.
Definition bad_block : list Z := [1; 2; 3; 4; 5; 250; 248; 247; 9; 10; 11; 12; 13; 14; 54; 97; 247] ++ replicate 40 0.

Lemma check_crc_exact_witness :
  check_crc true the_tables good_block 136 CRC24_A = Done 1 /\
  mult (crc_generator CRC24_A) (be (take 17 good_block)) /\ check_crc true the_tables bad_block 136 CRC24_A = Done 0.
Proof.
  destruct (check_crc_exact true the_tables good_block 136 CRC24_A) as (r & Er & _ & Hm & Hb).
  - exact crcTableInit_done.
  - apply check_ok_dec. vm_compute. reflexivity.
  - assert (E : check_crc true the_tables good_block 136 CRC24_A = Done 1) by (vm_compute; reflexivity).
    assert (r = 1) as E1 by congruence. split; [exact E|]. split; [apply Hm; exact E1|].
    apply (Hb E1 bad_block 0xfcffff 72).
    + apply check_ok_dec. vm_compute. reflexivity.
    + vm_compute. reflexivity.
    + vm_compute. split; congruence.
    + lia.
Defined.

(** The assertion that guards the kind of CRC in [check_crc] is [AssertFatal(1, ...)], which cannot fail: for
    a kind that is none of the four of the file no byte of the block is read and the block is accepted. *)
Theorem check_crc_unknown_type intel T buf n crc_type :
  ~ 0 <= crc_type <= 3 -> check_crc intel T buf n crc_type = Done 1.
Proof.
  intros H. unfold check_crc, check_crc_pair, check_crc_len, CRC24_A, CRC24_B, CRC16, CRC8.
  destruct (crc_type =? 0) eqn:?; zbool; [lia|]. destruct (crc_type =? 1) eqn:?; zbool; [lia|].
  destruct (crc_type =? 2) eqn:?; zbool; [lia|]. destruct (crc_type =? 3) eqn:?; zbool; [lia|]. done.
Qed.
