(* ===== verification/Segmentation.v ===== *)
(** Code block segmentation, openair1/PHY/CODING/nr_segmentation.c: the number of code blocks, their size,
    the lifting size and the filler bits of a transport block, the copy of its bytes into the code blocks with
    a CRC24B each; get_BG of openair2/LAYER2/NR_MAC_COMMON/nr_mac_common.c. *)

From S2P Require Import Prelude L2Common Tbs Gf2 CrcFold Crc.

(** ** The parameters *)

Definition seg_Kcb (BG : Z) : Z := if BG =? 1 then 8448 else 3840.

Definition seg_L (B Kcb : Z) : Z := if B <=? Kcb then 0 else 24.

Definition seg_C (B Kcb : Z) : Z :=
  if B <=? Kcb then 1
  else
    let C := B / (Kcb - 24) in
    if u32 ((Kcb - 24) * C) <? B then u32 (C + 1) else C.

Definition seg_Bprime (B Kcb : Z) : Z := if B <=? Kcb then B else u32 (B + u32 (seg_C B Kcb * 24)).

Definition seg_Kb (B BG : Z) : Z :=
  if BG =? 1 then 22 else if B >? 640 then 10 else if B >? 560 then 9 else if B >? 192 then 8 else 6.

Definition seg_Z (Kprime Kb : Z) : Z := if Kprime mod Kb >? 0 then Kprime / Kb + 1 else Kprime / Kb.

(** [*K = (Z >> s) << s; if ( *K < Z) *K = *K + (1 << s);] *)
Definition round_up (z s : Z) : Z :=
  let K := Z.shiftl (Z.shiftr z s) s in if K <? z then K + Z.shiftl 1 s else K.

(** The lifting size; [None] is the return of -1. *)
Definition seg_Zout (z : Z) : option Z :=
  if z <=? 2 then Some 2
  else if z <=? 16 then Some z
  else if z <=? 32 then Some (round_up z 1)
  else if z <=? 64 then Some (round_up z 2)
  else if z <=? 128 then Some (round_up z 3)
  else if z <=? 256 then Some (round_up z 4)
  else if z <=? 384 then Some (round_up z 5)
  else None.

(** ** The code blocks *)

(** [while (k < ((Kprime - L) >> 3)) { output_buffers[r][k] = input_buffer[s]; k++; s++; }] *)
Fixpoint seg_copy (fuel : nat) (input out : list Z) (k s n : Z) : outcome (list Z * Z) :=
  match fuel with
  | O => Undef
  | S fuel =>
      if k <? n then
        b ← rd input s; out ← wr out k b; seg_copy fuel input out (k + 1) (s + 1) n
      else Done (out, s)
  end.

(** [for (k = Kprime >> 3; k < ( *K) >> 3; k++) output_buffers[r][k] = 0;] *)
Fixpoint seg_fill (fuel : nat) (out : list Z) (k n : Z) : outcome (list Z) :=
  match fuel with
  | O => Undef
  | S fuel => if k <? n then out ← wr out k 0; seg_fill fuel out (k + 1) n else Done out
  end.

(** Byte [i] of an unsigned int, [((uint8_t * )&crc)[i]] on a little-endian machine. *)
Definition byte_of (x i : Z) : Z := Z.shiftr x (8 * i) mod 2 ^ 8.

Section Segments.
Variables (intel : bool) (T : crc_tables).

Definition seg_block (input out : list Z) (s C K F Kprime L : Z) : outcome (list Z * Z) :=
  let n := Z.shiftr (Kprime - L) 3 in
  '(out, s) ← seg_copy (S (length out)) input out 0 s n;
  out ← (if C >? 1 then
           crc ← crc24b intel T out (Kprime - L);
           let crc := Z.shiftr crc 8 in
           out ← wr out n (byte_of crc 2);
           out ← wr out (1 + n) (byte_of crc 1);
           wr out (2 + n) (byte_of crc 0)
         else Done out);
  out ← (if F >? 0 then seg_fill (S (length out)) out (Z.shiftr Kprime 3) (Z.shiftr K 3) else Done out);
  Done (out, s).

(** [for (r = 0; r < *C; r++)], from [r] for [k] more blocks *)
Fixpoint seg_blocks (k : nat) (input : list Z) (outs : list (list Z)) (r s C K F Kprime L : Z) : outcome (list (list Z)) :=
  match k with
  | O => Done outs
  | S k =>
      out ← rd outs r;
      '(out, s) ← seg_block input out s C K F Kprime L;
      outs ← wr outs r out;
      seg_blocks k input outs (r + 1) s C K F Kprime L
  end.

(** What the call leaves in the variables of the caller; the last three are not assigned when it returns -1. *)
Record seg_result := mk_seg { seg_ret : Z; sr_C : Z; sr_K : Z; sr_Zout : Z; sr_F : Z; sr_out : list (list Z) }.

(** [bufs]: the input and the output buffers, [None] when one of them is NULL; [K], [Zout] and [F] are the values
    that the caller's variables have before the call. *)
Definition nr_segmentation (bufs : option (list Z * list (list Z))) (B BG K Zout F : Z) : outcome seg_result :=
  let Kcb := seg_Kcb BG in
  let L := seg_L B Kcb in
  let C := seg_C B Kcb in
  let Kprime := seg_Bprime B Kcb / C in
  let Kb := seg_Kb B BG in
  match seg_Zout (seg_Z Kprime Kb) with
  | None => Done (mk_seg (-1) C K Zout F (default [] (snd <$> bufs)))
  | Some Zc =>
      let K := if BG =? 1 then u32 (Zc * 22) else u32 (Zc * 10) in
      let F := u32 (K - Kprime) in
      outs ← match bufs with
             | Some (input, outs) => seg_blocks (Z.to_nat C) input outs 0 0 C K F Kprime L
             | None => Done []
             end;
      Done (mk_seg Kb C K Zc F outs)
  end.
End Segments.

(** ** The choice of the base graph

    [code_rate] is R / 10240 in single precision; for the integers R of 16 bits, [code_rate <= 0.6667] is
    [R <= 6827] and [code_rate <= 0.25] is [R <= 2560]. *)
Definition get_BG (A R : Z) : Z :=
  if (A <=? 292) || ((A <=? 3824) && (R <=? 6827)) || (R <=? 2560) then 2 else 1.

(** ** The parameters are those of the standard *)

(** The lifting sizes of table 5.3.2-1 of TS 38.212: a * 2^j, at most 384. *)
Definition lifting_sizes : list Z :=
  filter (fun z => z <= 384) (a ← [2; 3; 5; 7; 9; 11; 13; 15]; j ← [0; 1; 2; 3; 4; 5; 6; 7]; [a * 2 ^ j]).

Definition least_lifting (z zc : Z) : Prop :=
  zc ∈ lifting_sizes /\ z <= zc /\ forall y, y ∈ lifting_sizes -> z <= y -> zc <= y.

Lemma seg_Zout_check :
  forallb (fun z => match seg_Zout z with
                    | Some zc => existsb (Z.eqb zc) lifting_sizes && (z <=? zc) &&
                                 forallb (fun y => (y <? z) || (zc <=? y)) lifting_sizes
                    | None => false
                    end) (map Z.of_nat (seq 0 385)) = true.
Proof. vm_compute. reflexivity. Qed.

Lemma seg_Zout_spec z : 0 <= z <= 384 -> exists zc, seg_Zout z = Some zc /\ least_lifting z zc.
Proof.
  intros Hz. pose proof seg_Zout_check as H. rewrite forallb_forall in H. specialize (H z).
  destruct (seg_Zout z) as [zc|].
  - exists zc. split; [done|]. assert (In z (map Z.of_nat (seq 0 385))) as Hin
      by (apply in_map_iff; exists (Z.to_nat z); split; [lia|apply in_seq; lia]).
    specialize (H Hin). zbool. rewrite existsb_exists in *. rewrite forallb_forall in *.
    match goal with E : exists x, _ |- _ => destruct E as (y & Hy & Ey) end. apply Z.eqb_eq in Ey. subst y.
    split; [by apply list_elem_of_In|]. split; [done|]. intros y Hy' Hzy. apply list_elem_of_In in Hy'.
    match goal with F : forall x, In x lifting_sizes -> _ |- _ => specialize (F y Hy') end. zbool.
    match goal with F : _ \/ _ |- _ => destruct F as [F|F] end; zbool; lia.
  - exfalso. enough (false = true) by done. apply H. apply in_map_iff. exists (Z.to_nat z). split; [lia|apply in_seq; lia].
Qed.

Lemma lifting_range zc : zc ∈ lifting_sizes -> 2 <= zc <= 384.
Proof.
  intros H. apply list_elem_of_In in H.
  assert (forallb (fun z => (2 <=? z) && (z <=? 384)) lifting_sizes = true) as HF by (vm_compute; reflexivity).
  rewrite forallb_forall in HF. specialize (HF zc H). zbool. lia.
Qed.

Section Parameters.
Variables (B BG : Z).
Hypothesis HB : 0 <= B < 2 ^ 31.
Hypothesis HBG : BG = 1 \/ BG = 2.
#[local] Abbreviation Kcb := (seg_Kcb BG).
#[local] Abbreviation C := (seg_C B Kcb).
#[local] Abbreviation L := (seg_L B Kcb).
#[local] Abbreviation Kprime := (seg_Bprime B Kcb / C).

Lemma Kcb_value : Kcb = 8448 /\ BG = 1 \/ Kcb = 3840 /\ BG = 2.
Proof. unfold seg_Kcb. destruct HBG as [->| ->]; [left|right]; done. Qed.

(** The number of code blocks is the least that fits: ceil(B / (Kcb - L)) when B > Kcb. *)
Lemma seg_C_spec :
  if B <=? Kcb then C = 1 else (Kcb - 24) * (C - 1) < B <= (Kcb - 24) * C /\ 2 <= C <= B.
Proof.
  pose proof Kcb_value as HK. unfold seg_C. destruct (B <=? Kcb) eqn:E; [done|]. zbool.
  pose proof (Z.div_mod B (Kcb - 24) ltac:(lia)) as Hd. pose proof (Z.mod_pos_bound B (Kcb - 24) ltac:(lia)) as Hm.
  set (q := B / (Kcb - 24)) in *. set (m := B mod (Kcb - 24)) in *.
  assert (1 <= q /\ q * 3000 <= B) as Hq by (destruct HK as [[HK _]|[HK _]]; rewrite HK in *; lia).
  assert (u32 ((Kcb - 24) * q) = (Kcb - 24) * q) as -> by (unfold u32; apply Z.mod_small; lia).
  cif; zbool.
  - unfold u32. rewrite Z.mod_small by lia. destruct HK as [[HK _]|[HK _]]; rewrite HK in *; lia.
  - destruct HK as [[HK _]|[HK _]]; rewrite HK in *; lia.
Qed.

Lemma seg_C_pos : 1 <= C /\ (L = 24 -> 2 <= C) /\ (L = 0 \/ L = 24) /\ (L = 0 <-> B <= Kcb) /\ (L = 0 <-> C = 1).
Proof.
  pose proof seg_C_spec as H. unfold seg_L in *. destruct (B <=? Kcb) eqn:E; zbool; repeat split; lia.
Qed.

Lemma seg_Bprime_eq : seg_Bprime B Kcb = B + C * L /\ seg_Bprime B Kcb <= C * Kcb.
Proof.
  pose proof Kcb_value as HK. pose proof seg_C_spec as HC. unfold seg_Bprime, seg_L. destruct (B <=? Kcb) eqn:E; zbool.
  - rewrite HC. lia.
  - destruct HC as [HC1 HC2]. assert (C * 1900 <= B) as Hs by (destruct HK as [[HK _]|[HK _]]; rewrite HK in *; lia).
    unfold u32. rewrite (Z.mod_small (C * 24)) by lia. rewrite Z.mod_small by lia. destruct HK as [[HK _]|[HK _]]; rewrite HK in *; lia.
Qed.

Lemma seg_Kprime_le : 0 <= Kprime <= Kcb.
Proof.
  pose proof Kcb_value as HK. pose proof seg_C_pos as HC. destruct seg_Bprime_eq as [E1 E2].
  split; [apply Z.div_pos; [rewrite E1; unfold seg_L; cif; nia|lia]|].
  apply Z.div_le_upper_bound; lia.
Qed.

Lemma seg_Kb_range : 6 <= seg_Kb B BG <= (if BG =? 1 then 22 else 10).
Proof. unfold seg_Kb. destruct HBG as [->| ->]; simpl; [lia|]. repeat cif; lia. Qed.

(** ceil(Kprime / Kb) *)
Lemma seg_Z_ceil : let z := seg_Z Kprime (seg_Kb B BG) in
  0 <= z <= 384 /\ Kprime <= seg_Kb B BG * z /\ seg_Kb B BG * (z - 1) < Z.max Kprime 1.
Proof.
  pose proof seg_Kprime_le as HK. pose proof seg_Kb_range as HKb. pose proof Kcb_value as HV.
  pose proof seg_C_pos as HC. destruct seg_Bprime_eq as [E1 E2].
  intros z. unfold z, seg_Z. set (Kb := seg_Kb B BG) in *.
  pose proof (Z.div_mod Kprime Kb ltac:(lia)) as Hd. pose proof (Z.mod_pos_bound Kprime Kb ltac:(lia)) as Hm.
  pose proof (Z.div_pos Kprime Kb ltac:(lia) ltac:(lia)).
  assert (Kprime <= 384 * Kb) as Hle.
  { unfold Kb, seg_Kb in *. destruct HV as [[HV HG]|[HV HG]]; [rewrite HG in *; simpl in *; lia|].
    rewrite (proj2 (Z.eqb_neq BG 1)) by lia. destruct (B >? 640) eqn:E; zbool; [lia|].
    assert (B <= Kcb) as Hs by lia.
    assert (C = 1) as C1 by (pose proof seg_C_spec as HC'; rewrite (proj2 (Z.leb_le B _) Hs) in HC'; done).
    rewrite C1, Z.div_1_r in *. assert (L = 0) by (unfold seg_L; rewrite (proj2 (Z.leb_le B _) Hs); done).
    repeat cif; zbool; lia. }
  assert (Kprime / Kb <= 384) by (apply Z.div_le_upper_bound; lia).
  destruct (Kprime mod Kb >? 0) eqn:E; zbool; [|lia].
  assert (Kprime / Kb <> 384) by (intros E3; rewrite E3 in Hd; lia). lia.
Qed.
End Parameters.

(** ** The loops *)

Lemma take_insert_S {A} (l : list A) k x : (k < length l)%nat -> take (S k) (<[k:=x]> l) = take k l ++ [x].
Proof.
  intros H. rewrite (take_S_r _ _ x) by (by apply list_lookup_insert_eq). by rewrite take_insert_ge by lia.
Qed.

Lemma take_S_drop {A} (l : list A) s n x : l !! s = Some x -> take (S n) (drop s l) = x :: take n (drop (S s) l).
Proof. intros H. rewrite (drop_S _ _ _ H). done. Qed.

Lemma seg_copy_spec fuel input out k s n :
  0 <= k <= n -> n <= Z.of_nat (length out) -> 0 <= s -> s + (n - k) <= Z.of_nat (length input) -> n - k < Z.of_nat fuel ->
  seg_copy fuel input out k s n =
    Done (take (Z.to_nat k) out ++ take (Z.to_nat (n - k)) (drop (Z.to_nat s) input) ++ drop (Z.to_nat n) out, s + (n - k)).
Proof.
  revert out k s. induction fuel as [|fuel IH]; intros out k s Hk Hn Hs Hi Hf; [lia|]. simpl. cif; zbool.
  - destruct (rd_in_range input s) as [b Eb]; [lia|]. rewrite Eb. cbn [mbind outcome_bind].
    rewrite wr_done by lia. cbn [mbind outcome_bind]. apply rd_inv in Eb as [_ Eb].
    rewrite IH by (rewrite ?length_insert; lia). f_equal. f_equal; [|lia].
    replace (Z.to_nat (k + 1)) with (S (Z.to_nat k)) by lia. rewrite take_insert_S by lia. rewrite <- app_assoc. f_equal.
    replace (Z.to_nat (n - k)) with (S (Z.to_nat (n - (k + 1)))) by lia. rewrite (take_S_drop _ _ _ _ Eb).
    replace (Z.to_nat (s + 1)) with (S (Z.to_nat s)) by lia. simpl. do 2 f_equal. rewrite drop_insert_lt by lia. done.
  - assert (n = k) as -> by lia. rewrite Z.sub_diag, Z.add_0_r. simpl. by rewrite take_drop.
Qed.

Lemma seg_fill_spec fuel out k n :
  0 <= k <= n -> n <= Z.of_nat (length out) -> n - k < Z.of_nat fuel ->
  seg_fill fuel out k n = Done (take (Z.to_nat k) out ++ replicate (Z.to_nat (n - k)) 0 ++ drop (Z.to_nat n) out).
Proof.
  revert out k. induction fuel as [|fuel IH]; intros out k Hk Hn Hf; [lia|]. simpl. cif; zbool.
  - rewrite wr_done by lia. cbn [mbind outcome_bind]. rewrite IH by (rewrite ?length_insert; lia). f_equal.
    replace (Z.to_nat (k + 1)) with (S (Z.to_nat k)) by lia. rewrite take_insert_S by lia. rewrite <- app_assoc. f_equal.
    replace (Z.to_nat (n - k)) with (S (Z.to_nat (n - (k + 1)))) by lia. simpl. do 2 f_equal. rewrite drop_insert_lt by lia. done.
  - assert (n = k) as -> by lia. rewrite Z.sub_diag. simpl. by rewrite take_drop.
Qed.

(** ** A code block *)

Lemma byte_of_range x i : is_byte (byte_of x i).
Proof. unfold byte_of, is_byte. apply (Z.mod_pos_bound _ (2 ^ 8)). lia. Qed.

Lemma be_3 v : 0 <= v < 2 ^ 24 -> be [byte_of v 2; byte_of v 1; byte_of v 0] = v.
Proof.
  intros Hv. unfold be, byte_of. simpl fold_left. rewrite Z.shiftl_0_l, Z.lxor_0_l.
  change (8 * 2) with 16. change (8 * 1) with 8. change (8 * 0) with 0. rewrite Z.shiftr_0_r.
  rewrite (Z.mod_small (Z.shiftr v 16)) by (apply (shiftr_lt v 8 16); lia).
  replace (Z.shiftl (Z.shiftr v 16) 8) with (Z.shiftl (Z.shiftr (Z.shiftr v 8) 8) 8) by (by rewrite Z.shiftr_shiftr by lia).
  rewrite <- hi_lo by lia. by rewrite <- hi_lo by lia.
Qed.

(** The bytes of the CRC, written after the bytes of the block. *)
Lemma write_crc (M rest : list Z) n v : length M = Z.to_nat n -> 0 <= n -> (3 <= length rest)%nat ->
  (out ← wr (M ++ rest) n (byte_of v 2); out ← wr out (1 + n) (byte_of v 1); wr out (2 + n) (byte_of v 0))
  = Done (M ++ [byte_of v 2; byte_of v 1; byte_of v 0] ++ drop 3 rest).
Proof.
  intros HM Hn Hr. destruct rest as [|x [|y [|z rest]]]; simpl in Hr; try lia. simpl drop.
  rewrite (wr_mid M) by lia. cbn [mbind outcome_bind].
  rewrite cons_middle, app_assoc, (wr_mid (M ++ [_])) by (rewrite length_app; simpl; lia). cbn [mbind outcome_bind].
  rewrite cons_middle, app_assoc, (wr_mid ((M ++ [_]) ++ [_])) by (rewrite !length_app; simpl; lia).
  by rewrite <- !app_assoc.
Qed.

Lemma write_crc2 (M rest : list Z) n v : length M = Z.to_nat n -> 0 <= n -> (2 <= length rest)%nat ->
  (out ← wr (M ++ rest) n (byte_of v 1); wr out (1 + n) (byte_of v 0))
  = Done (M ++ [byte_of v 1; byte_of v 0] ++ drop 2 rest).
Proof.
  intros HM Hn Hr. destruct rest as [|x [|y rest]]; simpl in Hr; try lia. simpl drop.
  rewrite (wr_mid M) by lia. cbn [mbind outcome_bind].
  rewrite cons_middle, app_assoc, (wr_mid (M ++ [_])) by (rewrite length_app; simpl; lia).
  by rewrite <- !app_assoc.
Qed.

Lemma be_2 v : 0 <= v < 2 ^ 16 -> be [byte_of v 1; byte_of v 0] = v.
Proof.
  intros Hv. unfold be, byte_of. simpl fold_left. rewrite Z.shiftl_0_l, Z.lxor_0_l.
  change (8 * 1) with 8. change (8 * 0) with 0. rewrite Z.shiftr_0_r.
  rewrite (Z.mod_small (Z.shiftr v 8)) by (apply (shiftr_lt v 8 8); lia). by rewrite <- hi_lo by lia.
Qed.

(** A message followed by its CRC is accepted, whatever follows. *)
Lemma crc_append intel crc_type poly (M rest rest' tail : list Z) :
  0 <= crc_type <= 3 -> 0 <= poly < 2 ^ 32 -> gen poly = Z.shiftl (crc_generator crc_type) (32 - 8 * check_crc_len crc_type) ->
  let n := Z.of_nat (length M) in let len := check_crc_len crc_type in
  crc_buffer intel (M ++ rest) (8 * n) -> bytes rest' -> length rest' = length rest -> len <= Z.of_nat (length rest) ->
  8 * (n + len) < 2 ^ 31 -> take (Z.to_nat len) rest' = tail ->
  be tail = Z.shiftr (crc_spec poly (M ++ rest) (8 * n)) (32 - 8 * len) ->
  check_ok intel (M ++ rest') (8 * (n + len)) crc_type /\
  check_crc intel the_tables (M ++ rest') (8 * (n + len)) crc_type = Done 1.
Proof.
  intros Hty Hp HG n len HB Hr' Hl' Hlen Hn31 Ht Hbe.
  assert (1 <= len <= 3) as Hlr by (unfold len, check_crc_len, CRC24_A, CRC24_B, CRC16, CRC8; repeat cif; try lia; zbool; lia).
  assert (length (M ++ rest') = length (M ++ rest)) as HLEN by (rewrite !length_app; lia).
  pose proof HB as (B1 & B2 & B3 & B4). apply Forall_app in B1 as [BM BR].
  assert (check_ok intel (M ++ rest') (8 * (n + len)) crc_type) as OK.
  { unfold check_ok. fold len. split; [done|]. split; [rewrite Z.mul_comm; apply Z.mod_mul; lia|]. split; [lia|].
    split; [rewrite Z.mul_comm, Z.div_mul, HLEN, length_app by lia; lia|]. replace (8 * (n + len) - 8 * len) with (8 * n) by lia.
    split; [by apply Forall_app|]. split; [done|]. rewrite HLEN. done. }
  split; [exact OK|]. destruct (check_crc_spec _ _ _ _ OK) as (r & -> & Hr01 & Hiff). f_equal. apply Hiff.
  destruct (crc_aligned poly (crc_generator crc_type) (32 - 8 * len) (M ++ rest) (8 * n)) as [Bv Cv];
    [done|by apply Forall_app|lia|lia|done|].
  rewrite <- Hbe in Bv, Cv. replace (32 - (32 - 8 * len)) with (8 * len) in * by lia. rewrite message_octets in Cv by lia.
  unfold n in Cv. rewrite Nat2Z.id, take_app_length in Cv.
  rewrite (Z.mul_comm 8), Z.div_mul by lia.
  replace (Z.to_nat (n + len)) with (length M + Z.to_nat len)%nat by lia. rewrite take_app_add, Ht, be_app.
  assert (length tail = Z.to_nat len) as -> by (rewrite <- Ht, length_take; lia). rewrite Z2Nat.id, Z.lxor_comm by lia. exact Cv.
Qed.

Section Block.
Variables (intel : bool) (input : list Z) (C K F Kprime L : Z).
Hypothesis Hin : bytes input.
Hypothesis HL : L = 0 /\ C = 1 \/ L = 24 /\ 2 <= C.
Hypothesis HK : Kprime mod 8 = 0 /\ L <= Kprime <= K /\ K < 2 ^ 31 /\ F = K - Kprime.
#[local] Abbreviation n := ((Kprime - L) / 8).

(** Block [r] in its buffer: the bytes of the block, the CRC24B when there are several blocks (so that the
    check of the receiver passes), and zero bytes up to the last whole byte of the K bits; the rest of the buffer,
    the last K mod 8 filler bits with it, is as it was. *)
Definition code_block (r : Z) (out out' : list Z) : Prop :=
  bytes out' /\ length out' = length out /\
  take (Z.to_nat n) out' = take (Z.to_nat n) (drop (Z.to_nat (r * n)) input) /\
  (C > 1 -> check_crc intel the_tables out' Kprime CRC24_B = Done 1) /\
  (forall i, Kprime / 8 <= i < K / 8 -> out' !! Z.to_nat i = Some 0) /\
  drop (Z.to_nat (K / 8)) out' = drop (Z.to_nat (K / 8)) out.

Lemma n_facts : 8 * n = Kprime - L /\ 0 <= n /\ Kprime / 8 = n + L / 8 /\ Kprime / 8 <= K / 8 /\ 0 <= L / 8.
Proof.
  assert (exists j, Kprime = 8 * j) as [j Ej] by (exists (Kprime / 8); pose proof (Z.div_mod Kprime 8 ltac:(lia)); lia).
  assert (exists l, L = 8 * l) as [l El] by (destruct HL as [[-> _]|[-> _]]; [exists 0|exists 3]; lia).
  rewrite Ej, El. replace (8 * j - 8 * l) with ((j - l) * 8) by lia. rewrite Z.div_mul by lia.
  rewrite (Z.mul_comm 8 j), (Z.mul_comm 8 l), !Z.div_mul by lia.
  pose proof (Z.div_le_mono (j * 8) K 8 ltac:(lia) ltac:(lia)) as M. rewrite Z.div_mul in M by lia. lia.
Qed.

(** The three bytes of the CRC make the block divisible by the generator. *)
Lemma block_crc (M rest : list Z) v : bytes M -> bytes rest -> length M = Z.to_nat n -> L = 24 ->
  Kprime / 8 <= Z.of_nat (length (M ++ rest)) -> crc_buffer intel (M ++ rest) (8 * n) ->
  v = Z.shiftr (crc_spec poly24b (M ++ rest) (8 * n)) 8 -> forall rest',
  bytes rest' -> length rest' = length rest -> take 3 rest' = [byte_of v 2; byte_of v 1; byte_of v 0] ->
  check_crc intel the_tables (M ++ rest') Kprime CRC24_B = Done 1.
Proof.
  intros HM Hr Hlen EL Hk HB Ev rest' Hr' Hl' Ht. pose proof n_facts as (N1 & N2 & N3 & N4 & N5).
  assert (L / 8 = 3) as EL3 by (rewrite EL; done). rewrite length_app in Hk.
  assert (Z.of_nat (length M) = n) as EM by lia.
  replace Kprime with (8 * (Z.of_nat (length M) + check_crc_len CRC24_B)) by (change (check_crc_len CRC24_B) with 3; lia).
  apply (crc_append intel CRC24_B poly24b M rest rest' [byte_of v 2; byte_of v 1; byte_of v 0]); try done.
  - by rewrite EM.
  - change (check_crc_len CRC24_B) with 3. lia.
  - change (check_crc_len CRC24_B) with 3. lia.
  - rewrite EM. change (32 - 8 * check_crc_len CRC24_B) with 8. rewrite <- Ev. apply be_3. rewrite Ev.
    apply (crc_aligned poly24b 0x1800063 8); [unfold poly24b; lia|apply HB|lia|lia|done].
Qed.

(** The CRC is written when there are several blocks; the check passes whatever follows it. *)
Lemma crc_part (M rest : list Z) : bytes M -> bytes rest -> length M = Z.to_nat n ->
  (32 <= length (M ++ rest))%nat -> Kprime / 8 <= Z.of_nat (length (M ++ rest)) ->
  exists rest1,
    (if C >? 1 then crc ← crc24b intel the_tables (M ++ rest) (Kprime - L);
       out ← wr (M ++ rest) n (byte_of (Z.shiftr crc 8) 2);
       out ← wr out (1 + n) (byte_of (Z.shiftr crc 8) 1); wr out (2 + n) (byte_of (Z.shiftr crc 8) 0)
     else Done (M ++ rest)) = Done (M ++ rest1) /\ bytes rest1 /\ length rest1 = length rest /\
    drop (Z.to_nat (L / 8)) rest1 = drop (Z.to_nat (L / 8)) rest /\
    (C > 1 -> forall rest', bytes rest' -> length rest' = length rest -> take 3 rest' = take 3 rest1 ->
     check_crc intel the_tables (M ++ rest') Kprime CRC24_B = Done 1).
Proof.
  intros BM BR HM H32 HKl. pose proof n_facts as (N1 & N2 & N3 & N4 & N5). destruct HL as [[EL EC]|[EL EC]].
  - exists rest. rewrite EC. repeat split; try done; lia.
  - rewrite (proj2 (Z.gtb_lt C 1)) by lia. assert (L / 8 = 3) as EL3 by (rewrite EL; done). set (nn := n) in *.
    rewrite length_app in *. assert (crc_buffer intel (M ++ rest) (8 * nn)) as CB.
    { split; [by apply Forall_app|]. split; [lia|]. rewrite length_app. split.
      - replace ((8 * nn + 7) / 8) with nn by (apply (Z.div_unique _ _ _ 7); lia). lia.
      - intros _ _. rewrite Z.mul_comm, Z.div_mul by lia. unfold crc_reads. repeat cif; zbool; lia. }
    rewrite <- N1, (crc24b_ok intel _ _ CB). cbn [mbind outcome_bind].
    rewrite write_crc by (done || lia). eexists. split; [done|]. rewrite EL3. split; [|split; [|split]].
    + apply Forall_app. split; [|by apply Forall_drop]. repeat constructor; apply byte_of_range.
    + rewrite length_app, length_drop. simpl. lia.
    + done.
    + intros _ rest' B' L' T'.
      apply (block_crc M rest (Z.shiftr (crc_spec poly24b (M ++ rest) (8 * nn)) 8)); try done. rewrite length_app. lia.
Qed.

(** The filler, whether there is one or not. *)
Lemma fill_part (M rest1 out : list Z) : length M = Z.to_nat n -> length (M ++ rest1) = length out ->
  K / 8 <= Z.of_nat (length out) ->
  drop (Z.to_nat (L / 8)) rest1 = drop (Z.to_nat (L / 8)) (drop (Z.to_nat n) out) ->
  (if F >? 0 then seg_fill (S (length (M ++ rest1))) (M ++ rest1) (Kprime / 8) (K / 8) else Done (M ++ rest1)) =
  Done (M ++ take (Z.to_nat (L / 8)) rest1 ++ replicate (Z.to_nat (K / 8 - Kprime / 8)) 0 ++ drop (Z.to_nat (K / 8)) out).
Proof.
  intros HM Hl HKo D1. pose proof n_facts as (N1 & N2 & N3 & N4 & N5).
  assert (drop (Z.to_nat (K / 8)) (M ++ rest1) = drop (Z.to_nat (K / 8)) out) as ED.
  { rewrite drop_app_ge by lia. replace (Z.to_nat (K / 8) - length M)%nat with
      (Z.to_nat (L / 8) + (Z.to_nat (K / 8) - Z.to_nat n - Z.to_nat (L / 8)))%nat by lia.
    rewrite <- drop_drop, D1, !drop_drop. f_equal. lia. }
  assert (take (Z.to_nat (Kprime / 8)) (M ++ rest1) = M ++ take (Z.to_nat (L / 8)) rest1) as ET.
  { replace (Z.to_nat (Kprime / 8)) with (length M + Z.to_nat (L / 8))%nat by lia. apply take_app_add. }
  cif; zbool.
  - rewrite seg_fill_spec by lia. by rewrite ED, ET, <- app_assoc.
  - assert (K = Kprime) as EK by lia. rewrite EK in *. rewrite Z.sub_diag. cbn [Z.to_nat replicate]. f_equal.
    rewrite app_nil_l, app_assoc, <- ET, <- ED. symmetry. apply take_drop.
Qed.

Lemma seg_block_spec r out : 0 <= r -> (r + 1) * n <= Z.of_nat (length input) -> bytes out ->
  K / 8 <= Z.of_nat (length out) -> (32 <= length out)%nat ->
  exists out', seg_block intel the_tables input out (r * n) C K F Kprime L = Done (out', (r + 1) * n) /\ code_block r out out'.
Proof.
  intros Hr Hlen Hout HKo H32. pose proof n_facts as (N1 & N2 & N3 & N4 & N5).
  unfold seg_block. rewrite !Z.shiftr_div_pow2 by lia. change (2 ^ 3) with 8. set (nn := n) in *.
  rewrite seg_copy_spec by nia. cbn [mbind outcome_bind]. change (take (Z.to_nat 0) out) with (@nil Z). rewrite Z.sub_0_r, app_nil_l.
  set (M := take (Z.to_nat nn) (drop (Z.to_nat (r * nn)) input)). set (rest := drop (Z.to_nat nn) out).
  assert (length M = Z.to_nat nn) as HM by (unfold M; rewrite length_take, length_drop; nia).
  assert (length (M ++ rest) = length out) as Hall by (unfold rest; rewrite length_app, length_drop; lia).
  assert (bytes M) as BM by (apply Forall_take, Forall_drop, Hin). assert (bytes rest) as BR by (apply Forall_drop, Hout).
  destruct (crc_part M rest) as (rest1 & E1 & B1 & L1 & D1 & CK); [done|done|done|lia|lia|]. fold nn in E1. rewrite E1.
  cbn [mbind outcome_bind]. rewrite length_app in Hall.
  rewrite (fill_part M rest1 out) by (rewrite ?length_app; done || lia).
  cbn [mbind outcome_bind]. eexists. split; [f_equal; f_equal; lia|].
  set (tail := take (Z.to_nat (L / 8)) rest1 ++ replicate (Z.to_nat (K / 8 - Kprime / 8)) 0 ++ drop (Z.to_nat (K / 8)) out).
  assert (length (take (Z.to_nat (L / 8)) rest1) = Z.to_nat (L / 8)) as HT by (rewrite length_take; lia).
  assert (length tail = length rest) as HLr by (unfold tail; rewrite !length_app, length_replicate, length_drop; lia).
  assert (bytes tail) as HBt.
  { repeat apply Forall_app_2; [by apply Forall_take|apply Forall_replicate; unfold is_byte; lia|by apply Forall_drop]. }
  split; [by apply Forall_app|]. split; [rewrite length_app; lia|]. split; [|split; [|split]].
  - fold nn. transitivity M; [|done]. rewrite take_app_le by lia. apply take_ge. lia.
  - intros HC1. apply CK; try done. assert (L = 24) as EL by lia. unfold tail. rewrite EL in *.
    change (Z.to_nat (24 / 8)) with 3%nat in *. rewrite take_app_le by lia. by rewrite take_take.
  - intros i Hi. unfold tail. rewrite lookup_app_r by lia. rewrite lookup_app_r by lia. rewrite lookup_app_l by (rewrite length_replicate; lia).
    apply lookup_replicate_2. lia.
  - unfold tail. rewrite app_assoc, app_assoc. rewrite drop_app_ge by (rewrite !length_app, length_replicate; lia).
    rewrite !length_app, length_replicate. replace (_ - _)%nat with 0%nat by lia. done.
Qed.
End Block.

(** ** All the code blocks *)

Section Blocks.
Variables (intel : bool) (input : list Z) (C K F Kprime L : Z).
Hypothesis Hin : bytes input.
Hypothesis HL : L = 0 /\ C = 1 \/ L = 24 /\ 2 <= C.
Hypothesis HK : Kprime mod 8 = 0 /\ L <= Kprime <= K /\ K < 2 ^ 31 /\ F = K - Kprime.
#[local] Abbreviation n := ((Kprime - L) / 8).

Definition buffer_ok (out : list Z) : Prop := bytes out /\ K / 8 <= Z.of_nat (length out) /\ (32 <= length out)%nat.

Lemma seg_blocks_spec k r outs : 0 <= r -> (r + Z.of_nat k) * n <= Z.of_nat (length input) ->
  r + Z.of_nat k <= Z.of_nat (length outs) -> Forall buffer_ok outs ->
  exists outs', seg_blocks intel the_tables k input outs r (r * n) C K F Kprime L = Done outs' /\
    length outs' = length outs /\
    (forall i out, outs !! i = Some out ->
     if (Z.to_nat r <=? i)%nat && (i <? Z.to_nat r + k)%nat
     then exists out', outs' !! i = Some out' /\ code_block intel input C K Kprime L (Z.of_nat i) out out'
     else outs' !! i = Some out).
Proof.
  revert r outs. induction k as [|k IH]; intros r outs Hr Hlen Ho HF.
  - exists outs. split; [done|]. split; [done|]. intros i out Hi.
    destruct (Nat.leb_spec (Z.to_nat r) i), (Nat.ltb_spec i (Z.to_nat r + 0)); simpl; try done; lia.
  - cbn [seg_blocks]. pose proof (n_facts C K F Kprime L HL HK) as (N1 & N2 & N3 & N4 & N5).
    destruct (rd_in_range outs r) as [out Eo]; [lia|]. rewrite Eo. cbn [mbind outcome_bind].
    apply rd_inv in Eo as [_ Eo]. pose proof (proj1 (Forall_lookup _ _) HF _ _ Eo) as (B1 & B2 & B3).
    destruct (seg_block_spec intel input C K F Kprime L Hin HL HK r out) as (out' & -> & CB); [lia|nia|done|done|done|].
    cbn [mbind outcome_bind]. rewrite wr_done by lia. cbn [mbind outcome_bind].
    destruct (IH (r + 1) (<[Z.to_nat r:=out']> outs)) as (outs' & E' & L' & H'); [lia|nia|rewrite length_insert; lia| |].
    { apply Forall_insert; [done|]. destruct CB as (C1 & C2 & _). split; [done|]. rewrite C2. done. }
    exists outs'. rewrite E'. split; [done|]. rewrite length_insert in L'. split; [done|]. intros i o Hi.
    destruct (Nat.eq_dec i (Z.to_nat r)) as [->|Hne].
    + rewrite Eo in Hi. injection Hi as <-.
      specialize (H' (Z.to_nat r) out'). rewrite list_lookup_insert_eq in H' by lia. specialize (H' eq_refl).
      destruct (Nat.leb_spec (Z.to_nat (r + 1)) (Z.to_nat r)); [lia|]. simpl in H'.
      rewrite (proj2 (Nat.leb_le _ _)), (proj2 (Nat.ltb_lt _ _)) by lia. exists out'. split; [done|]. by rewrite Z2Nat.id by lia.
    + specialize (H' i o). rewrite list_lookup_insert_ne in H' by done. specialize (H' Hi).
      replace ((Z.to_nat r <=? i)%nat && (i <? Z.to_nat r + S k)%nat)
        with ((Z.to_nat (r + 1) <=? i)%nat && (i <? Z.to_nat (r + 1) + k)%nat); [done|].
      apply eq_true_iff_eq. rewrite !andb_true_iff, !Nat.leb_le, !Nat.ltb_lt. lia.
Qed.
End Blocks.

(** The blocks one after the other are the message. *)
Lemma concat_blocks (input : list Z) (outs : list (list Z)) n k :
  (k <= length outs)%nat ->
  (forall i, (i < k)%nat -> exists out, outs !! i = Some out /\ take n out = take n (drop (i * n) input)) ->
  concat (map (take n) (take k outs)) = take (k * n) input.
Proof.
  intros Hk H. induction k as [|k IH]; [done|]. destruct (H k) as (out & Eo & Et); [lia|].
  rewrite (take_S_r _ _ _ Eo), map_app, concat_app, IH; [|lia|intros i Hi; apply H; lia].
  simpl. rewrite app_nil_r, Et, take_take_drop. f_equal. lia.
Qed.

(** The length of a transport block with its CRC is a whole number of bytes per code block; see [tbs_exact]. *)
Definition exact (B BG : Z) : Prop := seg_Bprime B (seg_Kcb BG) mod (8 * seg_C B (seg_Kcb BG)) = 0.

(** The call, with its parameters computed. *)
Lemma nr_segmentation_eq B BG : 0 <= B < 2 ^ 31 -> BG = 1 \/ BG = 2 ->
  let C := seg_C B (seg_Kcb BG) in let Kp := seg_Bprime B (seg_Kcb BG) / C in
  exists zc K, least_lifting (seg_Z Kp (seg_Kb B BG)) zc /\ K = (if BG =? 1 then 22 else 10) * zc /\ Kp <= K <= 8448 /\
    forall intel T bufs K0 Z0 F0, nr_segmentation intel T bufs B BG K0 Z0 F0 =
      (outs ← match bufs with
              | Some (input, outs) =>
                  seg_blocks intel T (Z.to_nat C) input outs 0 0 C K (K - Kp) Kp (seg_L B (seg_Kcb BG))
              | None => Done []
              end;
       Done (mk_seg (seg_Kb B BG) C K zc (K - Kp) outs)).
Proof.
  intros HB HBG C Kp. pose proof (seg_Z_ceil B BG HB HBG) as (Hz & Hz1 & _). fold C Kp in Hz, Hz1.
  pose proof (seg_Kb_range B BG HBG) as HKb. pose proof (seg_Kprime_le B BG HB HBG) as HKp. fold C Kp in HKp.
  destruct (seg_Zout_spec _ Hz) as (zc & EZ & HL). pose proof HL as (Hin & Hle & _). apply lifting_range in Hin.
  exists zc, ((if BG =? 1 then 22 else 10) * zc). split; [done|]. split; [done|].
  assert ((if BG =? 1 then u32 (zc * 22) else u32 (zc * 10)) = (if BG =? 1 then 22 else 10) * zc) as EK
    by (cif; unfold u32; rewrite Z.mod_small; lia).
  assert (Kp <= (if BG =? 1 then 22 else 10) * zc <= 8448) as HKK.
  { split; [etransitivity; [exact Hz1|]; apply Z.mul_le_mono_nonneg; lia|cif; lia]. }
  split; [done|]. intros intel T bufs K0 Z0 F0. unfold nr_segmentation. fold C Kp. rewrite EZ, EK. set (K := _ * zc) in *.
  assert (u32 (K - Kp) = K - Kp) as -> by (unfold u32; apply Z.mod_small; lia). done.
Qed.

(** An exact split: the length of the data of a block. *)
Lemma exact_split B BG : 0 <= B < 2 ^ 31 -> BG = 1 \/ BG = 2 -> exact B BG ->
  let C := seg_C B (seg_Kcb BG) in let Kp := seg_Bprime B (seg_Kcb BG) / C in let L := seg_L B (seg_Kcb BG) in
  Kp mod 8 = 0 /\ L <= Kp /\ B = C * (Kp - L) /\ B / 8 = C * ((Kp - L) / 8).
Proof.
  intros HB HBG HE C Kp L. pose proof (seg_C_pos B BG HB HBG) as (HC1 & HC2 & HLv & HL1 & HL2).
  pose proof (proj1 (seg_Bprime_eq B BG HB HBG)) as HBp. unfold exact in HE. fold C in HC1, HC2, HL2, HBp, HE. fold L in HC2, HLv, HL1, HL2, HBp.
  pose proof (Z.div_mod (seg_Bprime B (seg_Kcb BG)) (8 * C) ltac:(lia)) as D.
  set (j := seg_Bprime B (seg_Kcb BG) / (8 * C)) in *.
  assert (Kp = 8 * j) as -> by (unfold Kp; symmetry; apply (Z.div_unique _ _ _ 0); lia).
  assert (exists l, L = 8 * l) as [l El] by (destruct HLv as [->| ->]; [exists 0|exists 3]; lia).
  assert (B = 8 * (C * (j - l))) as EB by lia. assert (0 <= j - l) by nia.
  split; [rewrite Z.mul_comm; apply Z.mod_mul; lia|]. split; [lia|]. split; [lia|].
  rewrite EB, El. replace (8 * j - 8 * l) with ((j - l) * 8) by lia. rewrite Z.div_mul, Z.mul_comm, Z.div_mul by lia. done.
Qed.

(** C37. Code block segmentation.  For every length of transport block (with its CRC) below 2^31 bits and both base
    graphs, [nr_segmentation] succeeds: the number of code blocks is 1 up to 8448 (3840) bits and otherwise the
    least that leaves 24 bits of CRC in each, the lifting size is the least of the table of the standard that
    holds a block in Kb columns, K is 22 (10) times it and F completes the block to K bits; -1 is never returned. *)
Theorem nr_segmentation_parameters intel T B BG K0 Z0 F0 :
  0 <= B < 2 ^ 31 -> BG = 1 \/ BG = 2 ->
  exists r, nr_segmentation intel T None B BG K0 Z0 F0 = Done r /\ seg_ret r = seg_Kb B BG /\
    (if B <=? seg_Kcb BG then sr_C r = 1
     else (seg_Kcb BG - 24) * (sr_C r - 1) < B <= (seg_Kcb BG - 24) * sr_C r) /\
    let Kprime := (B + (if B <=? seg_Kcb BG then 0 else 24 * sr_C r)) / sr_C r in
    (exists z, seg_Kb B BG * (z - 1) < Z.max Kprime 1 /\ Kprime <= seg_Kb B BG * z /\ least_lifting z (sr_Zout r)) /\
    sr_K r = (if BG =? 1 then 22 else 10) * sr_Zout r /\ 0 <= sr_F r /\ Kprime + sr_F r = sr_K r.
Proof.
  intros HB HBG. destruct (nr_segmentation_eq B BG HB HBG) as (zc & K & HL & EK & HK & ->).
  pose proof (seg_Z_ceil B BG HB HBG) as (Hz & Hz1 & Hz2). pose proof (seg_C_spec B BG HB HBG) as HC.
  pose proof (proj1 (seg_Bprime_eq B BG HB HBG)) as HBp. eexists. split; [done|].
  cbn [seg_ret sr_C sr_K sr_Zout sr_F].
  assert (seg_Bprime B (seg_Kcb BG) = B + (if B <=? seg_Kcb BG then 0 else 24 * seg_C B (seg_Kcb BG))) as HBp'
    by (rewrite HBp; unfold seg_L; cif; lia).
  rewrite HBp' in *. split; [done|]. split; [destruct (B <=? seg_Kcb BG); [done|apply HC]|]. split; [eauto|]. split; [done|]. lia.
Qed.

Lemma nr_segmentation_parameters_witness :
  exists r, nr_segmentation true the_tables None 20000 1 0 0 0 = Done r /\ seg_ret r = 22 /\ sr_C r = 3 /\ sr_Zout r = 320.
Proof.
  destruct (nr_segmentation_parameters true the_tables 20000 1 0 0 0 ltac:(lia) ltac:(by left)) as (r & E & H1 & _).
  exists r. split; [exact E|]. split; [exact H1|]. vm_compute in E. injection E as <-. split; reflexivity.
Defined.

(** The parameters and the blocks of an exact split. *)
Lemma seg_code_blocks intel input outs B BG :
  0 <= B < 2 ^ 31 -> BG = 1 \/ BG = 2 -> exact B BG -> bytes input -> B / 8 <= Z.of_nat (length input) ->
  Forall (fun out => bytes out /\ (1056 <= length out)%nat) outs -> seg_C B (seg_Kcb BG) <= Z.of_nat (length outs) ->
  let C := seg_C B (seg_Kcb BG) in let Kp := seg_Bprime B (seg_Kcb BG) / C in
  exists zc K outs', least_lifting (seg_Z Kp (seg_Kb B BG)) zc /\ K = (if BG =? 1 then 22 else 10) * zc /\ Kp <= K <= 8448 /\
    (forall T K0 Z0 F0, nr_segmentation intel T None B BG K0 Z0 F0 = Done (mk_seg (seg_Kb B BG) C K zc (K - Kp) [])) /\
    (forall K0 Z0 F0, nr_segmentation intel the_tables (Some (input, outs)) B BG K0 Z0 F0 = Done (mk_seg (seg_Kb B BG) C K zc (K - Kp) outs')) /\
    length outs' = length outs /\
    forall i, (i < Z.to_nat C)%nat -> exists out out', outs !! i = Some out /\ outs' !! i = Some out' /\
      code_block intel input C K Kp (seg_L B (seg_Kcb BG)) (Z.of_nat i) out out'.
Proof.
  intros HB HBG HE Hin Hilen Houts HClen C Kp.
  destruct (nr_segmentation_eq B BG HB HBG) as (zc & K & HL & EK & HK & HSeg).
  pose proof (seg_C_pos B BG HB HBG) as (HC1 & HC2 & HLv & HL1 & HL2).
  destruct (exact_split B BG HB HBG HE) as (Hm8 & HLK & EB & EB8).
  fold C in HC1, HC2, HL2, HClen, HL, HK, HSeg, Hm8, HLK, EB, EB8. fold Kp in HL, HK, HSeg, Hm8, HLK, EB, EB8. set (L := seg_L B (seg_Kcb BG)) in *.
  assert (L = 0 /\ C = 1 \/ L = 24 /\ 2 <= C) as HLC by lia.
  pose proof (n_facts C K (K - Kp) Kp L HLC ltac:(lia)) as (N1 & N2 & _).
  destruct (seg_blocks_spec intel input C K (K - Kp) Kp L Hin HLC ltac:(lia) (Z.to_nat C) 0 outs) as (outs' & Eo & Lo & Ho);
    [lia|rewrite Z.add_0_l, Z2Nat.id by lia; lia|lia| |].
  { eapply Forall_impl; [exact Houts|]. intros out [B1 B2]. split; [done|].
    pose proof (Z.div_le_mono K 8448 8 ltac:(lia) ltac:(lia)) as M. change (8448 / 8) with 1056 in M. lia. }
  rewrite Z.mul_0_l in Eo. exists zc, K, outs'. split; [done|]. split; [done|]. split; [done|].
  split; [intros; by rewrite HSeg|]. split; [intros; rewrite HSeg, Eo; done|]. split; [done|].
  intros i Hi. destruct (lookup_lt_is_Some_2 outs i ltac:(lia)) as [out Eout]. specialize (Ho i out Eout). simpl in Ho.
  rewrite (proj2 (Nat.ltb_lt _ _)) in Ho by lia. destruct Ho as (out' & Eo' & CB). eauto.
Qed.

(** Bit [i] of a block; the first one is the most significant bit of the first byte. *)
Definition block_bit (out : list Z) (i : Z) : bool := Z.testbit (default 0 (out !! Z.to_nat (i / 8))) (7 - i mod 8).

(** The filler bits of a block: zero in whole bytes, untouched in the last byte. *)
Lemma filler_bits intel input C K Kprime L r out out' :
  code_block intel input C K Kprime L r out out' -> Kprime mod 8 = 0 -> 0 <= Kprime -> forall i, Kprime <= i < K ->
  block_bit out' i = if i <? 8 * (K / 8) then false else block_bit out i.
Proof.
  intros (_ & _ & _ & _ & Hz & Hd) Hm H0 i Hi. unfold block_bit. pose proof (Z.div_mod i 8 ltac:(lia)) as Di.
  pose proof (Z.mod_pos_bound i 8 ltac:(lia)) as Mi. pose proof (Z.div_mod Kprime 8 ltac:(lia)) as DK.
  assert (0 <= i / 8) by (apply Z.div_pos; lia). assert (0 <= K / 8) by (apply Z.div_pos; lia).
  destruct (Z.ltb_spec i (8 * (K / 8))).
  - rewrite (Hz (i / 8)) by lia. apply Z.testbit_0_l.
  - f_equal. f_equal. apply (f_equal (fun l => l !! (Z.to_nat (i / 8) - Z.to_nat (K / 8))%nat)) in Hd.
    rewrite !lookup_drop in Hd. by replace (Z.to_nat (K / 8) + (Z.to_nat (i / 8) - Z.to_nat (K / 8)))%nat with (Z.to_nat (i / 8)) in Hd by lia.
Qed.

(** C14. The code blocks.  When the transport block splits into code blocks of a whole number of bytes, which is
    what the transport block sizes ensure, the blocks that [nr_segmentation] writes carry the transport block in
    order and complete (their data bytes, one block after the other, are the bytes of the input) and each of several
    blocks ends with a CRC24B that [check_crc] accepts.  Of the F filler bits that follow, those in the whole bytes
    of the K bits are zero; when K is not a multiple of 8 the last K mod 8 of them are what the buffer held before
    (see [stale_filler_bits]). *)
Theorem nr_segmentation_blocks intel T input outs B BG K0 Z0 F0 :
  crcTableInit static_tables = Done T -> 0 <= B < 2 ^ 31 -> BG = 1 \/ BG = 2 -> exact B BG ->
  bytes input -> B / 8 <= Z.of_nat (length input) ->
  Forall (fun out => bytes out /\ (1056 <= length out)%nat) outs -> seg_C B (seg_Kcb BG) <= Z.of_nat (length outs) ->
  exists r, nr_segmentation intel T (Some (input, outs)) B BG K0 Z0 F0 = Done r /\ seg_ret r = seg_Kb B BG /\
    let Kprime := sr_K r - sr_F r in
    let n := (Kprime - seg_L B (seg_Kcb BG)) / 8 in
    concat (map (take (Z.to_nat n)) (take (Z.to_nat (sr_C r)) (sr_out r))) = take (Z.to_nat (B / 8)) input /\
    forall i, (i < Z.to_nat (sr_C r))%nat -> exists out out', outs !! i = Some out /\ sr_out r !! i = Some out' /\
      code_block intel input (sr_C r) (sr_K r) Kprime (seg_L B (seg_Kcb BG)) (Z.of_nat i) out out' /\
      forall b, Kprime <= b < sr_K r -> block_bit out' b = if b <? 8 * (sr_K r / 8) then false else block_bit out b.
Proof.
  rewrite crcTableInit_done. intros [= <-] HB HBG HE Hin Hilen Houts HClen.
  destruct (seg_code_blocks intel input outs B BG HB HBG HE Hin Hilen Houts HClen) as (zc & K & outs' & _ & _ & HK & _ & -> & Lo & HCB).
  destruct (exact_split B BG HB HBG HE) as (Hm8 & HLK & EB & EB8). pose proof (seg_C_pos B BG HB HBG) as (HC1 & _ & HLv & _).
  set (C := seg_C B (seg_Kcb BG)) in *. set (L := seg_L B (seg_Kcb BG)) in *. set (Kp := seg_Bprime B (seg_Kcb BG) / C) in *.
  eexists. split; [done|]. cbn [seg_ret sr_C sr_K sr_Zout sr_F sr_out]. split; [done|]. replace (K - (K - Kp)) with Kp by lia. cbv zeta.
  assert (0 <= Kp) by lia. split.
  - assert (0 <= (Kp - L) / 8) by (apply Z.div_pos; lia). rewrite EB8, Z2Nat.inj_mul by lia. apply concat_blocks; [lia|]. intros i Hi.
    destruct (HCB i Hi) as (out & out' & _ & Eo' & CB). exists out'. split; [done|].
    destruct CB as (_ & _ & -> & _). by rewrite Z2Nat.inj_mul, Nat2Z.id by lia.
  - intros i Hi. destruct (HCB i Hi) as (out & out' & Eo & Eo' & CB). exists out, out'. split_and!; try done.
    intros b Hb. by apply (filler_bits _ _ _ _ _ _ _ _ _ CB).
Qed.

Lemma nr_segmentation_blocks_witness :
  exists r, nr_segmentation true the_tables (Some (replicate 2000 5, replicate 3 (replicate 1056 9))) 16000 1 0 0 0 = Done r /\
    seg_ret r = 22 /\
    concat (map (take (Z.to_nat ((sr_K r - sr_F r - 24) / 8))) (take (Z.to_nat (sr_C r)) (sr_out r))) = replicate 2000 5.
Proof.
  destruct (nr_segmentation_blocks true the_tables (replicate 2000 5) (replicate 3 (replicate 1056 9)) 16000 1 0 0 0)
    as (r & E & H1 & H2 & _).
  - exact crcTableInit_done.
  - lia.
  - by left.
  - vm_compute. reflexivity.
  - apply Forall_replicate. unfold is_byte. lia.
  - rewrite length_replicate. vm_compute. congruence.
  - apply Forall_replicate. split; [apply Forall_replicate; unfold is_byte; lia|]. rewrite length_replicate. lia.
  - vm_compute. congruence.
  - exists r. split; [exact E|]. split; [exact H1|]. change (seg_L 16000 (seg_Kcb 1)) with 24 in H2. rewrite H2.
    apply take_ge. rewrite length_replicate. vm_compute. lia.
Defined.

(** A block of 40 bits in base graph 2: K is 70, and the filler bits 64 to 69 keep what the buffer held. *)
Theorem stale_filler_bits :
  exists r out', nr_segmentation true the_tables (Some ([1; 2; 3; 4; 5], [replicate 1056 255])) 40 2 0 0 0 = Done r /\
    sr_C r = 1 /\ sr_K r = 70 /\ sr_F r = 30 /\ sr_out r = [out'] /\
    forallb (fun i => negb (block_bit out' i)) (seqZ 40 24) = true /\ forallb (block_bit out') (seqZ 64 6) = true.
Proof. eexists _, _. split; [vm_compute; reflexivity|]. repeat split. Qed.

(** ** Transport block sizes split exactly *)

Lemma CEILIDIV_spec a b : 0 < b -> b * (CEILIDIV a b - 1) < a <= b * CEILIDIV a b.
Proof.
  intros Hb. unfold CEILIDIV. pose proof (Z.div_mod (a + b - 1) b ltac:(lia)). pose proof (Z.mod_pos_bound (a + b - 1) b ltac:(lia)). lia.
Qed.

(** A length of 8 C k bits with C the number of code blocks of capacity Q (Q + 24 with their CRC). *)
Lemma exact_multi BG C k N : BG = 1 \/ BG = 2 -> let Q := seg_Kcb BG - 24 in
  C = CEILIDIV N Q -> k = CEILIDIV N (8 * C) -> seg_Kcb BG < N < 2 ^ 30 -> exact (8 * C * k) BG.
Proof.
  intros HBG Q EC Ek HN. assert (exists q, Q = 8 * q /\ 400 <= q <= 1100) as (q & EQ & Hq).
  { unfold Q, seg_Kcb. destruct HBG as [->| ->]; [exists 1053|exists 477]; simpl; lia. }
  pose proof (CEILIDIV_spec N Q ltac:(lia)) as H1. rewrite <- EC in H1. 
  assert (seg_Kcb BG = Q + 24) as EK by (unfold Q; lia).
  assert (2 <= C) as HC by (destruct (Z.le_gt_cases 2 C) as [|G]; [done|]; pose proof (Z.mul_le_mono_nonneg_l C 1 Q ltac:(lia) ltac:(lia)); lia).
  pose proof (CEILIDIV_spec N (8 * C) ltac:(lia)) as H2. rewrite <- Ek in H2.
  assert (8 * C * (k - 1) < 8 * C * q) as Hkq by (rewrite EQ in H1; lia). apply Z.mul_lt_mono_pos_l in Hkq; [|lia].
  assert (8 * C * k <= Q * C) as Hle.
  { rewrite EQ. replace (8 * q * C) with (8 * C * q) by lia. apply Z.mul_le_mono_nonneg_l; lia. }
  assert (Q * (C - 1) >= 3200 * (C - 1)) by (rewrite EQ; apply Z.le_ge, Z.mul_le_mono_nonneg_r; lia).
  assert (8 * C <= N) by lia.
  set (B := 8 * C * k) in *. assert (N <= B < N + 8 * C) as HBN by (unfold B; lia). assert (0 <= B < 2 ^ 31) as HB by lia.
  pose proof (seg_C_spec B BG HB HBG) as HS. pose proof (proj1 (seg_Bprime_eq B BG HB HBG)) as HBp.
  unfold exact. rewrite HBp. unfold seg_L in *. rewrite (proj2 (Z.leb_gt B (seg_Kcb BG))) in * by lia. fold Q in HS.
  set (C1 := seg_C B (seg_Kcb BG)) in *. assert (C1 = C) as ->.
  { destruct HS as [[S1 S2] _]. assert (Q * (C1 - 1) < Q * C) as U1 by lia. assert (Q * (C - 1) < Q * C1) as U2 by lia.
    apply Z.mul_lt_mono_pos_l in U1; [|lia]. apply Z.mul_lt_mono_pos_l in U2; lia. }
  replace (B + C * 24) with ((k + 3) * (8 * C)) by (unfold B; lia). apply Z.mod_mul. lia.
Qed.

Lemma exact_single BG B : BG = 1 \/ BG = 2 -> 0 <= B <= seg_Kcb BG -> B mod 8 = 0 -> exact B BG.
Proof.
  intros HBG HB Hm. unfold exact, seg_Bprime, seg_C. rewrite (proj2 (Z.leb_le B _)) by lia. done.
Qed.

Lemma first_at_least_in l x : first_at_least l x = 0 \/ In (first_at_least l x) l.
Proof. induction l as [|t l IH]; simpl; [by left|]. cif; [by auto|]. destruct IH; auto. Qed.

Lemma Tbstable_multiples t : In t Tbstable_nr -> t mod 8 = 0 /\ 0 <= t <= 3824.
Proof.
  intros H. assert (forallb (fun t => (t mod 8 =? 0) && (0 <=? t) && (t <=? 3824)) Tbstable_nr = true) as HF by (vm_compute; done).
  rewrite forallb_forall in HF. specialize (HF t H). zbool. lia.
Qed.

Lemma tbs_of_ninfo_exact R Ninfo : 0 <= Ninfo < 2 ^ 28 ->
  let A := tbs_of_ninfo R Ninfo in exact (lenWithCrc 1 A) (get_BG A R).
Proof.
  intros HN A. unfold A, tbs_of_ninfo. destruct (Ninfo <=? NR_MAX_PDSCH_TBS) eqn:E; zbool.
  - set (t := first_at_least _ _). assert (t mod 8 = 0 /\ 0 <= t <= 3824) as [Hm Hr].
    { destruct (first_at_least_in Tbstable_nr (Z.max 24 (Z.shiftl (Z.shiftr Ninfo (Z.max 3 (Z.log2 Ninfo - 6))) (Z.max 3 (Z.log2 Ninfo - 6)))))
        as [H|H]; fold t in H; [rewrite H; split; [done|lia]|by apply Tbstable_multiples]. }
    unfold lenWithCrc. simpl. destruct (t >? NR_MAX_PDSCH_TBS) eqn:E2; zbool; [unfold NR_MAX_PDSCH_TBS in *; lia|].
    apply exact_single; [unfold get_BG; cif; auto|unfold get_BG, seg_Kcb; repeat cif; lia|].
    rewrite Z.add_mod, Hm by lia. done.
  - set (n := Z.log2 (Ninfo - 24) - 5). set (Np := Z.max 3840 _).
    assert (3840 <= Np < 2 ^ 29) as HNp.
    { unfold Np, NR_MAX_PDSCH_TBS in *. split; [lia|]. apply Z.max_lub_lt; [lia|].
      assert (11 <= Z.log2 (Ninfo - 24)) as Hlog by (apply (Z.log2_le_mono 2048); lia).
      assert (0 < 2 ^ n) as Hp by (apply Z.pow_pos_nonneg; unfold n; lia).
      assert (2 * 2 ^ n <= Ninfo - 24) as Hn.
      { rewrite <- Z.pow_succ_r by (unfold n; lia). etransitivity; [apply (Z.pow_le_mono_r 2 _ (Z.log2 (Ninfo - 24))); unfold n; lia|].
        apply Z.log2_spec. lia. }
      unfold ROUNDIDIV. rewrite !Z.shiftl_mul_pow2, Z.mul_1_l by (unfold n; lia). change (2 ^ 1) with 2.
      pose proof (Z.mul_div_le ((Ninfo - 24) * 2 + 2 ^ n) (2 ^ n * 2) ltac:(lia)). lia. }
    assert (forall A, 3824 < A -> lenWithCrc 1 A = A + 24) as HLC.
    { intros a Ha. unfold lenWithCrc. simpl. rewrite (proj2 (Z.gtb_lt a _)); [done|unfold NR_MAX_PDSCH_TBS; lia]. }
    destruct (R <=? 2560) eqn:ER; zbool; [|destruct (Np >? 8424) eqn:EN; zbool].
    + set (C := CEILIDIV (Np + 24) 3816). rewrite !Z.shiftl_mul_pow2 by lia. change (2 ^ 3) with 8.
      pose proof (CEILIDIV_spec (Np + 24) 3816 ltac:(lia)) as HC. fold C in HC.
      pose proof (CEILIDIV_spec (Np + 24) (C * 8) ltac:(lia)) as Hk. rewrite HLC by lia.
      unfold get_BG. rewrite (proj2 (Z.leb_le R 2560)) by lia. rewrite orb_true_r.
      replace (C * 8 * CEILIDIV (Np + 24) (C * 8) - 24 + 24) with (8 * C * CEILIDIV (Np + 24) (8 * C)) by (rewrite (Z.mul_comm C 8); lia).
      apply (exact_multi 2 C _ (Np + 24)); [by right|done|done|]. unfold seg_Kcb. simpl. lia.
    + set (C := CEILIDIV (Np + 24) 8424). rewrite !Z.shiftl_mul_pow2 by lia. change (2 ^ 3) with 8.
      pose proof (CEILIDIV_spec (Np + 24) 8424 ltac:(lia)) as HC. fold C in HC.
      pose proof (CEILIDIV_spec (Np + 24) (C * 8) ltac:(lia)) as Hk. rewrite HLC by lia.
      set (A0 := C * 8 * CEILIDIV (Np + 24) (C * 8) - 24) in *.
      unfold get_BG. rewrite (proj2 (Z.leb_gt R 2560)), (proj2 (Z.leb_gt A0 292)), (proj2 (Z.leb_gt A0 3824)) by lia. simpl orb.
      replace (A0 + 24) with (8 * C * CEILIDIV (Np + 24) (8 * C)) by (unfold A0; rewrite (Z.mul_comm C 8); lia).
      apply (exact_multi 1 C _ (Np + 24)); [by left|done|done|]. unfold seg_Kcb. simpl. lia.
    + pose proof (CEILIDIV_spec (Np + 24) 8 ltac:(lia)) as Hk. rewrite Z.shiftl_mul_pow2 by lia. change (2 ^ 3) with 8.
      rewrite HLC by lia. unfold get_BG.
      rewrite (proj2 (Z.leb_gt R 2560)), (proj2 (Z.leb_gt (_ * 8 - 24) 292)), (proj2 (Z.leb_gt (_ * 8 - 24) 3824)) by lia. simpl orb.
      apply exact_single; [by left|unfold seg_Kcb; simpl; lia|].
      replace (CEILIDIV (Np + 24) 8 * 8 - 24 + 24) with (CEILIDIV (Np + 24) 8 * 8) by lia. apply Z.mod_mul. lia.
Qed.

(** C27. The transport block sizes of the MAC and the code block segmentation of the physical layer agree: for
    every allocation, the size of [nr_compute_tbs] with its CRC and the base graph of [get_BG] split into code
    blocks of equal size and of a whole number of bytes, the hypothesis under which segmentation is exact. *)
Theorem tbs_segments_exactly Qm R nb_rb nb_symb nb_dmrs nb_oh scaling Nl :
  0 <= scaling ->
  let A := nr_compute_tbs Qm R nb_rb nb_symb nb_dmrs nb_oh scaling Nl in
  exact (lenWithCrc 1 A) (get_BG A R).
Proof.
  intros Hs A. apply tbs_of_ninfo_exact. set (x := u32 _). assert (0 <= x < 2 ^ 32) as Hx by (apply u32_bound).
  assert (0 <= Z.shiftr x 11 < 2 ^ 21) as Hy by (apply (shiftr_lt x 21 11); lia).
  rewrite Z.shiftr_div_pow2 by lia. assert (0 < 2 ^ scaling) by (apply Z.pow_pos_nonneg; lia).
  split; [apply Z.div_pos; lia|]. apply Z.le_lt_trans with (Z.shiftr x 11); [|lia]. apply Z.div_le_upper_bound; nia.
Qed.

(** A transport block of 5 code blocks: 40 976 bits. *)
Lemma tbs_segments_exactly_witness :
  nr_compute_tbs 6 8730 60 12 12 0 0 1 = 40976 /\ get_BG 40976 8730 = 1 /\ seg_C 41000 8448 = 5 /\ exact 41000 1.
Proof.
  split; [vm_compute; reflexivity|]. split; [reflexivity|]. split; [vm_compute; reflexivity|].
  exact (tbs_segments_exactly 6 8730 60 12 12 0 0 1 ltac:(lia)).
Defined.
