(* ===== verification/RateMatch.v ===== *)
(** Rate matching of the LDPC coded channels, openair1/PHY/CODING/nr_rate_matching.c: the interleaver
    nr_interleaving_ldpc and its inverse nr_deinterleaving_ldpc, the bit selection nr_rate_matching_ldpc of the
    transmitter and the soft combining nr_rate_matching_ldpc_rx of the receiver. *)

From S2P Require Import Prelude L2Common.

(** ** Interleaving *)

Section Interleaving.
Context {A : Type}.

(** [fp[0] = e0[j]; fp[1] = e1[j]; ...]: the values [Qm - m] to [Qm - 1] of the index of the bit in the symbol [j]. *)
Fixpoint interleave_symbol (m : nat) (Qm EQm : Z) (e f : list A) (j : Z) : outcome (list A) :=
  match m with
  | O => Done f
  | S m' =>
      let i := Qm - Z.of_nat m in
      x ← rd e (i * EQm + j);
      f ← wr f (j * Qm + i) x;
      interleave_symbol m' Qm EQm e f j
  end.

(** [for (int j = 0; j < EQm; j++)], for the [k] last values of [j] *)
Fixpoint interleave_loop (k : nat) (Qm EQm : Z) (e f : list A) : outcome (list A) :=
  match k with
  | O => Done f
  | S k' =>
      f ← interleave_symbol (Z.to_nat Qm) Qm EQm e f (EQm - Z.of_nat k);
      interleave_loop k' Qm EQm e f
  end.

(** The switch on [Qm] has the cases 2, 4, 6 and 8. *)
Definition Qm_case (Qm : Z) : bool := (Qm =? 2) || (Qm =? 4) || (Qm =? 6) || (Qm =? 8).

(** [zero] is the value of a byte set to 0. *)
Definition nr_interleaving_ldpc (zero : A) (E Qm : Z) (e f : list A) : outcome (list A) :=
  if Qm =? 0 then Undef
  else
    let EQm := E / Qm in
    f ← blit f 0 (replicate (Z.to_nat E) zero);
    if Qm_case Qm then interleave_loop (Z.to_nat EQm) Qm EQm e f else Exit.

(** [*e++ = *f++; *e1++ = *f++; ...] *)
Fixpoint deinterleave_symbol (m : nat) (Qm EQm : Z) (e f : list A) (k fpos : Z) : outcome (list A) :=
  match m with
  | O => Done e
  | S m' =>
      let i := Qm - Z.of_nat m in
      x ← rd f (fpos + i);
      e ← wr e (i * EQm + k) x;
      deinterleave_symbol m' Qm EQm e f k fpos
  end.

(** [while (f < end)], with [end = f + E - (Qm - 1)] *)
Fixpoint deinterleave_loop (fuel : nat) (E Qm : Z) (e f : list A) (k fpos : Z) : outcome (list A) :=
  match fuel with
  | O => Undef
  | S fuel =>
      if fpos <? E - (Qm - 1) then
        e ← deinterleave_symbol (Z.to_nat Qm) Qm (E / Qm) e f k fpos;
        deinterleave_loop fuel E Qm e f (k + 1) (fpos + Qm)
      else Done e
  end.

Definition nr_deinterleaving_ldpc (E Qm : Z) (e f : list A) : outcome (list A) :=
  if Qm_case Qm then
    if E mod Qm =? 0 then deinterleave_loop (S (Z.to_nat E)) E Qm e f 0 0 else Exit
  else Exit.
End Interleaving.

(** ** Bit selection *)

Definition NR_NULL : Z := 2.
Definition index_k0 : list (list Z) := [[0; 17; 33; 56]; [0; 13; 25; 43]].

(** The size of the circular buffer and the first position read; C is not 0. *)
Definition rm_N (BG Zc : Z) : Z := if BG =? 1 then 66 * Zc else 50 * Zc.
Definition rm_Ncb (Tbslbrm C N : Z) : Z := if Tbslbrm =? 0 then N else Z.min N (u32 (3 * Tbslbrm) / (2 * C)).
Definition rm_ind (BG Zc rvidx Ncb N : Z) : outcome Z :=
  row ← rd index_k0 (BG - 1);
  k0 ← rd row rvidx;
  if N =? 0 then Undef else Done (u32 (u32 (k0 * Ncb) / N * Zc)).

(** [memcpy(dst + doff, src + soff, len)] *)
Definition copy (dst : list Z) (doff : Z) (src : list Z) (soff len : Z) : outcome (list Z) :=
  l ← slice src soff len; blit dst doff l.

(** [for (ind = 0; (ind < Ncb) && (k < E); ind++) if (w[ind] != NR_NULL) e[k++] = w[ind];], [m] turns left *)
Fixpoint rm_repeat (m : nat) (w e : list Z) (k Ncb E : Z) : outcome (list Z * Z) :=
  match m with
  | O => Done (e, k)
  | S m' =>
      if k <? E then
        x ← rd w (Ncb - Z.of_nat m);
        if negb (x =? NR_NULL) then e ← wr e k x; rm_repeat m' w e (k + 1) Ncb E
        else rm_repeat m' w e k Ncb E
      else Done (e, k)
  end.

(** [while (k < E)] *)
Fixpoint rm_while (fuel : nat) (w e : list Z) (k Ncb E : Z) : outcome (list Z) :=
  match fuel with
  | O => Undef
  | S fuel =>
      if k <? E then
        '(e, k) ← rm_repeat (Z.to_nat Ncb) w e k Ncb E; rm_while fuel w e k Ncb E
      else Done e
  end.

(** The copies before the repetitions: the bits written and their number. *)
Definition rm_first (w e : list Z) (ind Ncb F Foffset E : Z) : outcome (list Z * Z) :=
  if ind <? Foffset then
    e ← copy e 0 w ind (Foffset - ind);
    if u32 (E + F) <=? u32 (Ncb - ind) then
      e ← copy e (Foffset - ind) w (Foffset + F) (u32 (E - Foffset + ind)); Done (e, E)
    else
      e ← copy e (Foffset - ind) w (Foffset + F) (u32 (Ncb - Foffset - F)); Done (e, u32 (Ncb - F - ind))
  else if E <=? u32 (Ncb - ind) then
    e ← copy e 0 w ind E; Done (e, E)
  else
    e ← copy e 0 w ind (u32 (Ncb - ind)); Done (e, u32 (Ncb - ind)).

(** The returned value and the output bits. *)
Definition nr_rate_matching_ldpc (Tbslbrm BG Zc : Z) (w e : list Z) (C F Foffset rvidx E : Z) : outcome (Z * list Z) :=
  if C =? 0 then Done (-1, e)
  else
    let N := rm_N BG Zc in
    let Ncb := rm_Ncb Tbslbrm C N in
    ind ← rm_ind BG Zc rvidx Ncb N;
    if Foffset >? E then Done (-1, e)
    else if Foffset >? Ncb then Done (-1, e)
    else
      let ind := if (Foffset <=? ind) && (ind <? u32 (F + Foffset)) then u32 (F + Foffset) else ind in
      '(e, k) ← rm_first w e ind Ncb F Foffset E;
      e ← rm_while (S (Z.to_nat E)) w e k Ncb E;
      Done (0, e).

(** ** Soft combining *)

Definition s16 (z : Z) : Z := if u16 z <? 2 ^ 15 then u16 z else u16 z - 2 ^ 16.

(** [for (; (ind < lim) && (k < E); ind++) w[ind] += soft_input[k++];] *)
Fixpoint rx_for (fuel : nat) (w soft : list Z) (ind k lim E : Z) : outcome (list Z * Z * Z) :=
  match fuel with
  | O => Undef
  | S fuel =>
      if (ind <? lim) && (k <? E) then
        x ← rd w ind; y ← rd soft k;
        w ← wr w ind (s16 (x + y));
        rx_for fuel w soft (ind + 1) (k + 1) lim E
      else Done (w, ind, k)
  end.

(** [while (k < E)] *)
Fixpoint rx_while (fuel : nat) (w soft : list Z) (k Ncb F Foffset E : Z) : outcome (list Z) :=
  match fuel with
  | O => Undef
  | S fuel =>
      if k <? E then
        '(w, _, k) ← rx_for (S (length w)) w soft 0 k Foffset E;
        '(w, _, k) ← rx_for (S (length w)) w soft (u32 (Foffset + F)) k Ncb E;
        rx_while fuel w soft k Ncb F Foffset E
      else Done w
  end.

Definition nr_rate_matching_ldpc_rx (Tbslbrm BG Zc : Z) (w soft_input : list Z) (C rvidx clear E F Foffset : Z)
  : outcome (Z * list Z) :=
  if C =? 0 then Done (-1, w)
  else
    let N := rm_N BG Zc in
    let Ncb := rm_Ncb Tbslbrm C N in
    ind ← rm_ind BG Zc rvidx Ncb N;
    if Foffset >? E then Done (-1, w)
    else if Foffset >? Ncb then Done (-1, w)
    else
      w ← (if clear =? 1 then blit w 0 (replicate (Z.to_nat Ncb) 0) else Done w);
      '(w, ind, k) ← (if ind <? Foffset then rx_for (S (length w)) w soft_input ind 0 Foffset E else Done (w, ind, 0));
      let ind := if (Foffset <=? ind) && (ind <? u32 (Foffset + F)) then u32 (Foffset + F) else ind in
      '(w, _, k) ← rx_for (S (length w)) w soft_input ind k Ncb E;
      w ← rx_while (S (Z.to_nat E)) w soft_input k Ncb F Foffset E;
      Done (0, w).

(** ** The interleaver is a permutation *)

Section Permutation.
Context {A : Type}.
Variables (Qm EQm : Z).
Hypothesis HQ : 0 < Qm.
Hypothesis HE : 0 <= EQm.

(** Position [p] of the output comes from this position of the input: the block of E bits is written in rows
    of E / Qm and read by columns. *)
Definition perm (p : Z) : Z := (p mod Qm) * EQm + p / Qm.

Lemma perm_at j i : 0 <= i < Qm -> perm (j * Qm + i) = i * EQm + j.
Proof.
  intros Hi. unfold perm. rewrite (Z.add_comm (j * Qm)), Z.mod_add, Z.mod_small, Z.div_add, Z.div_small by lia. lia.
Qed.

Lemma perm_range p : 0 <= p < Qm * EQm -> 0 <= perm p < Qm * EQm.
Proof.
  intros Hp. pose proof (Z.mod_pos_bound p Qm HQ). assert (0 <= p / Qm < EQm) by (split; [apply Z.div_pos|apply Z.div_lt_upper_bound]; lia).
  unfold perm. nia.
Qed.

Lemma perm_surj q : 0 <= q < Qm * EQm -> exists p, 0 <= p < Qm * EQm /\ perm p = q.
Proof.
  intros Hq. assert (0 < EQm) by nia. pose proof (Z.mod_pos_bound q EQm ltac:(lia)) as Hm.
  assert (0 <= q / EQm < Qm) as Hd by (split; [apply Z.div_pos|apply Z.div_lt_upper_bound]; lia).
  exists ((q mod EQm) * Qm + q / EQm). split; [nia|]. rewrite perm_at by done. pose proof (Z.div_mod q EQm ltac:(lia)). lia.
Qed.

Lemma perm_inj p p' : 0 <= p < Qm * EQm -> 0 <= p' < Qm * EQm -> perm p = perm p' -> p = p'.
Proof.
  intros Hp Hp' E. unfold perm in E. assert (0 < EQm) by nia.
  pose proof (Z.div_mod p Qm ltac:(lia)) as D. pose proof (Z.div_mod p' Qm ltac:(lia)) as D'.
  assert (0 <= p / Qm < EQm) by (split; [apply Z.div_pos|apply Z.div_lt_upper_bound]; lia).
  assert (0 <= p' / Qm < EQm) by (split; [apply Z.div_pos|apply Z.div_lt_upper_bound]; lia).
  pose proof (Z.mod_pos_bound p Qm HQ). pose proof (Z.mod_pos_bound p' Qm HQ).
  destruct (Z.div_mod_unique EQm (p mod Qm) (p' mod Qm) (p / Qm) (p' / Qm)) as [E1 E2]; [lia|lia|lia|]. rewrite E1, E2 in *. lia.
Qed.

(** The first [t] positions of the output are filled. *)
Definition filled (e f : list A) (t : Z) : Prop := forall p, 0 <= p < t -> f !! Z.to_nat p = e !! Z.to_nat (perm p).

Lemma filled_step e f t x : 0 <= t < Z.of_nat (length f) -> filled e f t -> e !! Z.to_nat (perm t) = Some x ->
  filled e (<[Z.to_nat t:=x]> f) (t + 1).
Proof.
  intros Ht HF Ex p Hp. destruct (Z.eq_dec p t) as [->|Hn].
  - by rewrite list_lookup_insert_eq, Ex by lia.
  - rewrite list_lookup_insert_ne by lia. apply HF. lia.
Qed.

Lemma interleave_symbol_spec m e f j : (Z.of_nat m <= Qm) -> 0 <= j < EQm ->
  Qm * EQm <= Z.of_nat (length e) -> Qm * EQm <= Z.of_nat (length f) -> filled e f (j * Qm + (Qm - Z.of_nat m)) ->
  exists f', interleave_symbol m Qm EQm e f j = Done f' /\ length f' = length f /\ filled e f' (j * Qm + Qm).
Proof.
  intros Hm Hj He. revert f. induction m as [|m IH]; intros f Hf HF.
  - exists f. replace (Qm - Z.of_nat 0) with Qm in HF by lia. done.
  - cbn [interleave_symbol]. set (i := Qm - Z.of_nat (S m)) in *. assert (0 <= i < Qm) as Hi by lia.
    destruct (rd_in_range e (i * EQm + j)) as [x Ex]; [nia|]. rewrite Ex. cbn [mbind outcome_bind].
    apply rd_inv in Ex as [_ Ex]. rewrite wr_done by nia. cbn [mbind outcome_bind].
    destruct (IH ltac:(lia) (<[Z.to_nat (j * Qm + i):=x]> f)) as (f' & E' & L' & F').
    + rewrite length_insert. done.
    + replace (j * Qm + (Qm - Z.of_nat m)) with (j * Qm + i + 1) by lia. apply filled_step; [nia|done|]. by rewrite perm_at.
    + exists f'. rewrite length_insert in L'. done.
Qed.

Lemma interleave_loop_spec k e f : Z.of_nat k <= EQm -> Qm * EQm <= Z.of_nat (length e) -> Qm * EQm <= Z.of_nat (length f) ->
  filled e f ((EQm - Z.of_nat k) * Qm) ->
  exists f', interleave_loop k Qm EQm e f = Done f' /\ length f' = length f /\ filled e f' (Qm * EQm).
Proof.
  intros Hk He. revert f. induction k as [|k IH]; intros f Hf HF.
  - exists f. replace ((EQm - Z.of_nat 0) * Qm) with (Qm * EQm) in HF by lia. done.
  - cbn [interleave_loop].
    destruct (interleave_symbol_spec (Z.to_nat Qm) e f (EQm - Z.of_nat (S k))) as (f1 & -> & L1 & F1); [lia|lia|done|done| |].
    { by rewrite Z2Nat.id, Z.sub_diag, Z.add_0_r by lia. }
    cbn [mbind outcome_bind]. destruct (IH ltac:(lia) f1) as (f' & E' & L' & F').
    + by rewrite L1.
    + by replace ((EQm - Z.of_nat k) * Qm) with ((EQm - Z.of_nat (S k)) * Qm + Qm) by lia.
    + exists f'. rewrite L' in *. done.
Qed.

(** The first [t] positions of the interleaved sequence are back in their places. *)
Definition placed (e f : list A) (t : Z) : Prop := forall p, 0 <= p < t -> e !! Z.to_nat (perm p) = f !! Z.to_nat p.

Lemma placed_step e f t x : 0 <= t < Qm * EQm -> Qm * EQm <= Z.of_nat (length e) -> placed e f t ->
  f !! Z.to_nat t = Some x -> placed (<[Z.to_nat (perm t):=x]> e) f (t + 1).
Proof.
  intros Ht He HP Ex p Hp. pose proof (perm_range t Ht). destruct (Z.eq_dec p t) as [->|Hn].
  - by rewrite list_lookup_insert_eq, Ex by lia.
  - assert (perm p <> perm t) by (intros E; apply perm_inj in E; lia). pose proof (perm_range p ltac:(lia)).
    rewrite list_lookup_insert_ne by lia. apply HP. lia.
Qed.

Lemma deinterleave_symbol_spec m e f j : Z.of_nat m <= Qm -> 0 <= j < EQm ->
  Qm * EQm <= Z.of_nat (length e) -> Qm * EQm <= Z.of_nat (length f) -> placed e f (j * Qm + (Qm - Z.of_nat m)) ->
  exists e', deinterleave_symbol m Qm EQm e f j (j * Qm) = Done e' /\ length e' = length e /\ placed e' f (j * Qm + Qm).
Proof.
  intros Hm Hj. revert e. induction m as [|m IH]; intros e He Hf HP.
  - exists e. replace (Qm - Z.of_nat 0) with Qm in HP by lia. done.
  - cbn [deinterleave_symbol]. set (i := Qm - Z.of_nat (S m)) in *. assert (0 <= i < Qm) as Hi by lia.
    destruct (rd_in_range f (j * Qm + i)) as [x Ex]; [nia|]. rewrite Ex. cbn [mbind outcome_bind].
    apply rd_inv in Ex as [_ Ex]. rewrite wr_done by nia. cbn [mbind outcome_bind].
    destruct (IH ltac:(lia) (<[Z.to_nat (i * EQm + j):=x]> e)) as (e' & E' & L' & P').
    + by rewrite length_insert.
    + done.
    + replace (j * Qm + (Qm - Z.of_nat m)) with (j * Qm + i + 1) by lia. rewrite <- (perm_at j i Hi). apply placed_step; [nia|done|done|done].
    + exists e'. rewrite length_insert in L'. done.
Qed.

Lemma deinterleave_loop_spec fuel e f j : 0 <= j <= EQm -> EQm - j < Z.of_nat fuel ->
  Qm * EQm <= Z.of_nat (length e) -> Qm * EQm <= Z.of_nat (length f) -> placed e f (j * Qm) ->
  exists e', deinterleave_loop fuel (Qm * EQm) Qm e f j (j * Qm) = Done e' /\ length e' = length e /\ placed e' f (Qm * EQm).
Proof.
  revert e j. induction fuel as [|fuel IH]; intros e j Hj Hfu He Hf HP; [lia|]. cbn [deinterleave_loop].
  assert (Qm * EQm / Qm = EQm) as -> by (rewrite Z.mul_comm; apply Z.div_mul; lia). cif; zbool.
  - assert (j < EQm) by nia.
    destruct (deinterleave_symbol_spec (Z.to_nat Qm) e f j) as (e1 & -> & L1 & P1); [lia|lia|done|done| |].
    { by rewrite Z2Nat.id, Z.sub_diag, Z.add_0_r by lia. }
    cbn [mbind outcome_bind]. replace (j * Qm + Qm) with ((j + 1) * Qm) in * by lia.
    destruct (IH e1 (j + 1)) as (e' & E' & L' & P'); [lia|lia|by rewrite L1|done|done|]. exists e'. rewrite L' in *. done.
  - assert (j = EQm) as -> by nia. exists e. by rewrite (Z.mul_comm Qm).
Qed.
End Permutation.

Lemma Qm_case_spec Qm : Qm_case Qm = true <-> Qm = 2 \/ Qm = 4 \/ Qm = 6 \/ Qm = 8.
Proof. unfold Qm_case. rewrite !orb_true_iff, !Z.eqb_eq. lia. Qed.

(** What the interleaver writes, for a length that is a multiple of the modulation order. *)
Lemma nr_interleaving_spec {A} (zero : A) E Qm (e f : list A) :
  Qm_case Qm = true -> 0 <= E -> E mod Qm = 0 -> E <= Z.of_nat (length e) -> E <= Z.of_nat (length f) ->
  exists f', nr_interleaving_ldpc zero E Qm e f = Done f' /\ length f' = length f /\ filled Qm (E / Qm) e f' E.
Proof.
  intros HQ HE Hm He Hf. pose proof HQ as HQ'. rewrite Qm_case_spec in HQ'. unfold nr_interleaving_ldpc.
  rewrite (proj2 (Z.eqb_neq Qm 0)), HQ by lia. pose proof (Z.div_mod E Qm ltac:(lia)) as D.
  assert (0 <= E / Qm) by (apply Z.div_pos; lia).
  rewrite blit_done by (rewrite ?length_replicate; lia). cbn [mbind outcome_bind].
  set (f0 := take _ f ++ _). assert (length f0 = length f) as L0.
  { unfold f0. rewrite !length_app, length_take, length_replicate, length_drop. lia. }
  destruct (interleave_loop_spec Qm (E / Qm) ltac:(lia) ltac:(lia) (Z.to_nat (E / Qm)) e f0) as (f' & E' & L' & F');
    [lia|lia|lia| |].
  { intros p Hp. lia. }
  exists f'. rewrite E'. split; [done|]. split; [lia|]. by replace E with (Qm * (E / Qm)) at 2 by lia.
Qed.

Lemma nr_deinterleaving_spec {A} E Qm (e f : list A) :
  Qm_case Qm = true -> 0 <= E -> E mod Qm = 0 -> E <= Z.of_nat (length e) -> E <= Z.of_nat (length f) ->
  exists e', nr_deinterleaving_ldpc E Qm e f = Done e' /\ length e' = length e /\ placed Qm (E / Qm) e' f E.
Proof.
  intros HQ HE Hm He Hf. pose proof HQ as HQ'. rewrite Qm_case_spec in HQ'. unfold nr_deinterleaving_ldpc.
  rewrite HQ, Hm. simpl. pose proof (Z.div_mod E Qm ltac:(lia)) as D. assert (0 <= E / Qm) by (apply Z.div_pos; lia).
  destruct (deinterleave_loop_spec Qm (E / Qm) ltac:(lia) ltac:(lia) (S (Z.to_nat E)) e f 0) as (e' & E' & L' & P');
    [lia|nia|lia|lia|intros p Hp; lia|].
  replace (Qm * (E / Qm)) with E in * by lia. exists e'. done.
Qed.

(** C38. The receiver undoes the interleaving of the transmitter: for each modulation order of the code and a
    length that is a multiple of it, deinterleaving the images by any function [g] (from bits to soft values) of
    the interleaved bits gives the images of the bits in their order. *)
Theorem deinterleave_interleave {A B} (g : A -> B) (zero : A) E Qm (e f : list A) (e0 : list B) :
  Qm_case Qm = true -> 0 <= E -> E mod Qm = 0 -> E <= Z.of_nat (length e) -> E <= Z.of_nat (length f) ->
  E <= Z.of_nat (length e0) ->
  exists f' e', nr_interleaving_ldpc zero E Qm e f = Done f' /\ nr_deinterleaving_ldpc E Qm e0 (map g f') = Done e' /\
    take (Z.to_nat E) e' = map g (take (Z.to_nat E) e).
Proof.
  intros HQ HE Hm He Hf He0. destruct (nr_interleaving_spec zero E Qm e f) as (f' & Ef & Lf & Ff); try done.
  destruct (nr_deinterleaving_spec E Qm e0 (map g f')) as (e' & Ee & Le & Pe); try done; [by rewrite length_map, Lf|].
  exists f', e'. split; [done|]. split; [done|]. apply list_eq. intros i.
  rewrite Qm_case_spec in HQ. pose proof (Z.div_mod E Qm ltac:(lia)) as D. rewrite Hm, Z.add_0_r in D.
  assert (0 <= E / Qm) by (apply Z.div_pos; lia).
  destruct (Nat.lt_ge_cases i (Z.to_nat E)) as [Hi|Hi].
  - rewrite lookup_take_lt, list_lookup_fmap, lookup_take_lt by done.
    destruct (perm_surj Qm (E / Qm) ltac:(lia) (Z.of_nat i)) as (p & Hp & Ep); [lia|].
    specialize (Ff p ltac:(lia)). specialize (Pe p ltac:(lia)). rewrite Ep, Nat2Z.id in Ff, Pe.
    rewrite Pe, list_lookup_fmap, Ff. done.
  - rewrite !lookup_ge_None_2; [done|rewrite length_map, length_take; lia|rewrite length_take; lia].
Qed.

Lemma deinterleave_interleave_witness :
  exists f' e', nr_interleaving_ldpc 0 8 4 [1; 0; 0; 1; 1; 1; 0; 0] (replicate 10 9) = Done f' /\
    nr_deinterleaving_ldpc 8 4 (replicate 8 0) (map (fun b => 10 - 20 * b) f') = Done e' /\
    take 8 e' = [-10; 10; 10; -10; -10; -10; 10; 10].
Proof.
  apply (deinterleave_interleave (fun b => 10 - 20 * b) 0 8 4 [1; 0; 0; 1; 1; 1; 0; 0] (replicate 10 9) (replicate 8 0));
    (reflexivity || (simpl; lia)).
Defined.

(** ** The positions of the circular buffer *)

Section Selection.
(** The circular buffer of [Ncb] positions, of which the fillers are [Foffset] to [Foffset + F - 1], and the first
    position [k0] of the redundancy version. *)
Variables (Ncb F Foffset k0 : Z).
Hypothesis HF : 0 <= F /\ 0 <= Foffset /\ Foffset + F <= Ncb /\ F < Ncb < 2 ^ 31.
Hypothesis Hk0 : 0 <= k0 < Ncb.
#[local] Abbreviation M := (Ncb - F).

(** The number of the bits of the buffer, fillers excluded, that precede the first position. *)
Definition rm_start : Z := if k0 <? Foffset then k0 else Z.max k0 (Foffset + F) - F.

(** The position of the [k]-th selected bit: the buffer is read in a circle from [k0], without its fillers. *)
Definition sel (k : Z) : Z := let i := (rm_start + k) mod M in if i <? Foffset then i else i + F.

Lemma rm_start_range : 0 <= rm_start <= M.
Proof. unfold rm_start. cif; zbool; lia. Qed.

Lemma sel_range k : 0 <= sel k < Ncb /\ ~ Foffset <= sel k < Foffset + F.
Proof.
  unfold sel. pose proof (Z.mod_pos_bound (rm_start + k) M ltac:(lia)). cif; zbool; lia.
Qed.

(** The bits before the fillers and after them. *)
Lemma sel_low k t i : 0 <= t -> (rm_start + k) mod M = i -> i + t < Foffset -> sel (k + t) = i + t.
Proof.
  intros Ht Ei Hi. pose proof (Z.mod_pos_bound (rm_start + k) M ltac:(lia)). unfold sel. rewrite Z.add_assoc.
  rewrite <- Z.add_mod_idemp_l, Ei, Z.mod_small by lia. cif; zbool; lia.
Qed.

Lemma sel_high k t i : 0 <= t -> (rm_start + k) mod M = i -> Foffset <= i + t < M -> sel (k + t) = i + t + F.
Proof.
  intros Ht Ei Hi. pose proof (Z.mod_pos_bound (rm_start + k) M ltac:(lia)). unfold sel. rewrite Z.add_assoc.
  rewrite <- Z.add_mod_idemp_l, Ei, Z.mod_small by lia. cif; zbool; lia.
Qed.

Lemma start_mod k d i : (rm_start + k) mod M = i -> (rm_start + (k + d)) mod M = (i + d) mod M.
Proof. intros <-. rewrite Z.add_assoc, Z.add_mod_idemp_l by lia. done. Qed.

(** ** Soft combining *)

(** The buffer after the combination of the first [n] soft values. *)
Fixpoint combined (w soft : list Z) (n : nat) : list Z :=
  match n with
  | O => w
  | S n => alter (fun x => s16 (x + default 0 (soft !! n))) (Z.to_nat (sel (Z.of_nat n))) (combined w soft n)
  end.

Lemma length_combined w soft n : length (combined w soft n) = length w.
Proof. induction n as [|n IH]; simpl; [done|]. by rewrite length_alter. Qed.

Lemma rx_for_spec w soft fuel ind k lim E :
  0 <= ind -> 0 <= k -> lim <= Z.of_nat (length w) -> E <= Z.of_nat (length soft) -> Z.max 0 (lim - ind) < Z.of_nat fuel ->
  (forall t, 0 <= t < Z.min (lim - ind) (E - k) -> sel (k + t) = ind + t) ->
  let d := Z.max 0 (Z.min (lim - ind) (E - k)) in
  rx_for fuel (combined w soft (Z.to_nat k)) soft ind k lim E =
    Done (combined w soft (Z.to_nat (k + d)), ind + d, k + d).
Proof.
  intros Hi Hk Hlim HE. revert ind k Hi Hk. induction fuel as [|fuel IH]; intros ind k Hi Hk Hf Hsel d.
  { lia. }
  cbn [rx_for]. destruct ((ind <? lim) && (k <? E)) eqn:Ec; zbool.
  - destruct (rd_in_range (combined w soft (Z.to_nat k)) ind) as [x Ex]; [rewrite length_combined; lia|]. rewrite Ex. cbn [mbind outcome_bind].
    destruct (rd_in_range soft k) as [y Ey]; [lia|]. rewrite Ey. cbn [mbind outcome_bind].
    rewrite wr_done by (rewrite length_combined; lia). cbn [mbind outcome_bind].
    apply rd_inv in Ex as [_ Ex]. apply rd_inv in Ey as [_ Ey].
    assert (<[Z.to_nat ind:=s16 (x + y)]> (combined w soft (Z.to_nat k)) = combined w soft (Z.to_nat (k + 1))) as ->.
    { replace (Z.to_nat (k + 1)) with (S (Z.to_nat k)) by lia. cbn [combined]. rewrite Ey. simpl default.
      rewrite Z2Nat.id by lia. replace (sel k) with ind by (specialize (Hsel 0 ltac:(lia)); rewrite !Z.add_0_r in Hsel; done).
      apply list_eq. intros j. destruct (Nat.eq_dec j (Z.to_nat ind)) as [->|Hj].
      - rewrite list_lookup_insert_eq by (by eapply lookup_lt_Some). by rewrite list_lookup_alter_eq, Ex.
      - by rewrite list_lookup_insert_ne, list_lookup_alter_ne by done. }
    rewrite IH by (lia || (intros t Ht; specialize (Hsel (t + 1) ltac:(lia));
      replace (k + 1 + t) with (k + (t + 1)) by lia; rewrite Hsel; lia)).
    f_equal. unfold d. f_equal; [f_equal|]; [f_equal|..]; lia.
  - assert (d = 0) as -> by (unfold d; destruct Ec; zbool; lia). by rewrite !Z.add_0_r.
Qed.

(** The next position to combine is the first one of the buffer, or all is combined. *)
Definition at_origin (k E : Z) : Prop := k = E \/ (rm_start + k) mod M = 0.

Lemma M_mod : M mod M = 0.
Proof. apply Z.mod_same. lia. Qed.

Lemma rx_while_spec w soft fuel k E : Ncb <= Z.of_nat (length w) -> E <= Z.of_nat (length soft) ->
  0 <= k <= E -> E - k < Z.of_nat fuel -> at_origin k E ->
  rx_while fuel (combined w soft (Z.to_nat k)) soft k Ncb F Foffset E = Done (combined w soft (Z.to_nat E)).
Proof.
  intros Hw Hs. revert k. induction fuel as [|fuel IH]; intros k Hk Hf HO; [lia|]. cbn [rx_while].
  destruct (k <? E) eqn:Ek; zbool; [|by replace k with E by lia]. destruct HO as [->|HO]; [lia|].
  rewrite rx_for_spec; [|rewrite ?length_combined; lia..|].
  2: { intros t Ht. rewrite (sel_low k t 0) by lia. lia. }
  cbn [mbind outcome_bind]. set (d := Z.max 0 (Z.min (Foffset - 0) (E - k))).
  assert (u32 (Foffset + F) = Foffset + F) as -> by (unfold u32; apply Z.mod_small; lia).
  assert (k + d = E \/ d = Foffset) as Hd by lia.
  rewrite rx_for_spec; [|rewrite ?length_combined; lia..|].
  2: { intros t Ht. destruct Hd as [Hd|Hd]; [lia|]. rewrite Hd. rewrite (sel_high (k + Foffset) t Foffset); [lia|lia| |lia].
       rewrite (start_mod k Foffset 0 HO), Z.mod_small; lia. }
  cbn [mbind outcome_bind]. set (d2 := Z.max 0 (Z.min (Ncb - (Foffset + F)) (E - (k + d)))).
  apply IH; [lia|lia|]. assert (k + d + d2 = E \/ k + d + d2 = k + M) as [H|H] by lia; [by left|right].
  rewrite H, (start_mod k M 0 HO), Z.add_0_l. apply M_mod.
Qed.

(** The first pass: the position after the fillers, and the number of values combined before them. *)
Lemma rx_first_spec w soft E : Ncb <= Z.of_nat (length w) -> Foffset <= E <= Z.of_nat (length soft) ->
  exists ind k,
    (if k0 <? Foffset then rx_for (S (length w)) w soft k0 0 Foffset E else Done (w, k0, 0))
      = Done (combined w soft (Z.to_nat k), ind, k) /\
    0 <= k <= E /\ Foffset <= ind < Ncb + 1 /\
    rm_start + k = Z.max ind (Foffset + F) - F.
Proof.
  intros Hw Hs. unfold rm_start. destruct (k0 <? Foffset) eqn:E0; zbool.
  - change w with (combined w soft (Z.to_nat 0)) at 2. rewrite rx_for_spec; [|lia..|].
    + eexists _, _. split; [reflexivity|]. lia.
    + intros t Ht. rewrite (sel_low 0 t k0); [lia|lia| |lia]. rewrite Z.add_0_r. unfold rm_start.
      rewrite (proj2 (Z.ltb_lt k0 Foffset)) by lia. apply Z.mod_small. lia.
  - exists k0, 0. split; [done|]. lia.
Qed.

Lemma nr_rate_matching_rx_spec Tbslbrm BG Zc w soft C rvidx clear E :
  C <> 0 -> Ncb = rm_Ncb Tbslbrm C (rm_N BG Zc) -> rm_ind BG Zc rvidx Ncb (rm_N BG Zc) = Done k0 ->
  Ncb <= Z.of_nat (length w) -> Foffset <= E <= Z.of_nat (length soft) ->
  nr_rate_matching_ldpc_rx Tbslbrm BG Zc w soft C rvidx clear E F Foffset =
    Done (0, combined (if clear =? 1 then replicate (Z.to_nat Ncb) 0 ++ drop (Z.to_nat Ncb) w else w) soft (Z.to_nat E)).
Proof.
  intros HC EN Ek0 Hw Hs. unfold nr_rate_matching_ldpc_rx. rewrite (proj2 (Z.eqb_neq C 0) HC), <- EN, Ek0.
  cbn [mbind outcome_bind]. rewrite !Z.gtb_ltb, (proj2 (Z.ltb_ge E Foffset)), (proj2 (Z.ltb_ge Ncb Foffset)) by lia.
  set (w0 := if clear =? 1 then _ else w).
  assert ((if clear =? 1 then blit w 0 (replicate (Z.to_nat Ncb) 0) else Done w) = Done w0) as ->.
  { unfold w0. cif; [|done]. rewrite blit_done by (rewrite ?length_replicate; lia). simpl. by rewrite length_replicate. }
  assert (length w0 = length w) as L0.
  { unfold w0. cif; [|done]. rewrite length_app, length_replicate, length_drop. lia. }
  cbn [mbind outcome_bind]. destruct (rx_first_spec w0 soft E) as (ind & k & -> & Hk & Hind & HS); [lia|lia|].
  cbn [mbind outcome_bind]. assert (u32 (Foffset + F) = Foffset + F) as -> by (unfold u32; apply Z.mod_small; lia).
  assert ((if (Foffset <=? ind) && (ind <? Foffset + F) then Foffset + F else ind) = Z.max ind (Foffset + F)) as ->.
  { destruct ((Foffset <=? ind) && (ind <? Foffset + F)) eqn:Ei; zbool; [|destruct Ei; zbool]; lia. }
  set (i := Z.max ind (Foffset + F)) in *. rewrite rx_for_spec; [|rewrite ?length_combined; lia..|].
  2: { intros t Ht. rewrite (sel_high k t (i - F)); [lia|lia| |lia]. rewrite HS. apply Z.mod_small. lia. }
  cbn [mbind outcome_bind]. rewrite rx_while_spec; [done|lia|lia|lia|lia|].
  set (d := Z.max 0 (Z.min (Ncb - i) (E - k))). assert (k + d = E \/ d = Ncb - i) as [H|H] by lia; [by left|right].
  rewrite H. replace (rm_start + (k + (Ncb - i))) with M by lia. apply M_mod.
Qed.

(** ** Bit selection *)

(** The first [k] bits of the output are the selected bits of the buffer. *)
Definition sent (w e : list Z) (k : Z) : Prop := forall j, 0 <= j < k -> e !! Z.to_nat j = w !! Z.to_nat (sel j).

Lemma sent_step w e k x : 0 <= k < Z.of_nat (length e) -> sent w e k -> w !! Z.to_nat (sel k) = Some x ->
  sent w (<[Z.to_nat k:=x]> e) (k + 1).
Proof.
  intros Hk HS Ex j Hj. destruct (Z.eq_dec j k) as [->|Hn].
  - by rewrite list_lookup_insert_eq, Ex by lia.
  - rewrite list_lookup_insert_ne by lia. apply HS. lia.
Qed.

(** A [memcpy] of consecutive positions. *)
Lemma sent_copy w e k soff len : 0 <= k -> 0 <= len -> k + len <= Z.of_nat (length e) ->
  0 <= soff -> soff + len <= Z.of_nat (length w) -> sent w e k ->
  (forall t, 0 <= t < len -> sel (k + t) = soff + t) ->
  exists e', copy e k w soff len = Done e' /\ length e' = length e /\ sent w e' (k + len).
Proof.
  intros Hk Hlen He Hs Hw HS Hsel. unfold copy. rewrite slice_done by lia. cbn [mbind outcome_bind].
  set (l := take _ _). assert (length l = Z.to_nat len) as Ll by (unfold l; rewrite length_take, length_drop; lia).
  rewrite blit_done by lia. eexists. split; [done|]. split; [rewrite !length_app, length_take, length_drop; lia|].
  intros j Hj. destruct (Z.lt_ge_cases j k).
  - rewrite lookup_app_l by (rewrite length_take; lia). rewrite lookup_take_lt by lia. apply HS. lia.
  - rewrite lookup_app_r by (rewrite length_take; lia). rewrite length_take. rewrite lookup_app_l by lia.
    unfold l. rewrite lookup_take_lt, lookup_drop by lia. specialize (Hsel (j - k) ltac:(lia)).
    replace (k + (j - k)) with j in Hsel by lia. rewrite Hsel. f_equal. lia.
Qed.

(** The number of bits of the buffer before a position. *)
Definition rank (ind : Z) : Z := if ind <? Foffset then ind else if ind <? Foffset + F then Foffset else ind - F.

(** The fillers, and only they, are NR_NULL. *)
Definition fillers_ok (w : list Z) : Prop := Ncb <= Z.of_nat (length w) /\
  forall i, 0 <= i < Ncb -> (w !! Z.to_nat i = Some NR_NULL <-> Foffset <= i < Foffset + F).

Lemma rm_repeat_spec w e k E m : fillers_ok w -> Z.of_nat m <= Ncb -> 0 <= k <= E -> E <= Z.of_nat (length e) ->
  sent w e k -> k = E \/ (rm_start + k) mod M = rank (Ncb - Z.of_nat m) mod M ->
  exists e' k', rm_repeat m w e k Ncb E = Done (e', k') /\ length e' = length e /\ k <= k' <= E /\ sent w e' k' /\
    at_origin k' E /\ (k' = E \/ k' - k = M - rank (Ncb - Z.of_nat m)).
Proof.
  intros [Hw Hfill]. revert e k. induction m as [|m IH]; intros e k Hm Hk He HS HI.
  - exists e, k. split; [done|]. split; [done|]. split; [lia|]. split; [done|].
    assert (rank (Ncb - Z.of_nat 0) = M) as ER by (unfold rank; repeat cif; zbool; lia). rewrite ER in *. split.
    + destruct HI as [->|HI]; [by left|right]. by rewrite HI, M_mod.
    + destruct HI; [by left|]. lia.
  - cbn [rm_repeat]. destruct (k <? E) eqn:Ek; zbool.
    2: { exists e, k. assert (k = E) as -> by lia. split; [done|]. split; [done|]. split; [lia|]. split; [done|]. split; by left. }
    destruct HI as [->|HI]; [lia|]. set (i := Ncb - Z.of_nat (S m)) in *.
    destruct (rd_in_range w i) as [x Ex]; [lia|]. rewrite Ex. cbn [mbind outcome_bind]. apply rd_inv in Ex as [_ Ex].
    specialize (Hfill i ltac:(lia)). rewrite Ex in Hfill. destruct (x =? NR_NULL) eqn:Enull; zbool.
    + subst x. assert (Foffset <= i < Foffset + F) as Hi by (by apply Hfill). simpl.
      assert (rank (Ncb - Z.of_nat m) = rank i) as ER by (unfold rank; repeat cif; zbool; lia).
      rewrite <- ER. apply IH; [lia|done|done|done|]. right. by rewrite ER.
    + assert (~ Foffset <= i < Foffset + F) as Hi by (intros Hi; apply Hfill in Hi; congruence). simpl.
      assert (rank (Ncb - Z.of_nat m) = rank i + 1) as ER by (unfold rank; repeat cif; zbool; lia).
      assert (0 <= rank i < M) as Hr by (unfold rank; repeat cif; zbool; lia).
      assert (sel k = i) as Esel.
      { unfold sel. rewrite HI, Z.mod_small by lia. unfold rank. repeat cif; zbool; lia. }
      rewrite wr_done by lia. cbn [mbind outcome_bind].
      destruct (IH (<[Z.to_nat k:=x]> e) (k + 1)) as (e' & k' & E' & L' & K' & S' & O' & R'); [lia|lia|by rewrite length_insert| | |].
      * apply sent_step; [lia|done|]. by rewrite Esel.
      * right. rewrite ER, (start_mod k 1 _ HI), Z.add_mod_idemp_l by lia. done.
      * exists e', k'. rewrite length_insert in L'. split; [done|]. split; [done|]. split; [lia|]. split; [done|]. split; [done|]. lia.
Qed.

Lemma rm_while_spec w e k E fuel : fillers_ok w -> 0 <= k <= E -> E <= Z.of_nat (length e) -> E - k < Z.of_nat fuel ->
  sent w e k -> at_origin k E ->
  exists e', rm_while fuel w e k Ncb E = Done e' /\ length e' = length e /\ sent w e' E.
Proof.
  intros Hw. revert e k. induction fuel as [|fuel IH]; intros e k Hk He Hf HS HO; [lia|]. cbn [rm_while].
  destruct (k <? E) eqn:Ek; zbool; [|exists e; by replace E with k by lia].
  destruct (rm_repeat_spec w e k E (Z.to_nat Ncb)) as (e1 & k1 & -> & L1 & K1 & S1 & O1 & R1); [done|lia|lia|done|done| |].
  { rewrite Z2Nat.id, Z.sub_diag by lia. destruct HO as [HO|HO]; [by left|right]. rewrite HO. unfold rank.
    repeat cif; zbool; rewrite ?Z.mod_small; lia. }
  cbn [mbind outcome_bind]. rewrite Z2Nat.id, Z.sub_diag in R1 by lia.
  assert (rank 0 = 0) as R0 by (unfold rank; repeat cif; zbool; lia).
  destruct (IH e1 k1) as (e' & E' & L' & S'); [lia|lia|lia|done|done|]. exists e'. rewrite L'. done.
Qed.

(** The copies that precede the repetitions: from a position after the fillers, *)
Lemma rm_first_high w e ind E : fillers_ok w -> 0 <= E <= Z.of_nat (length e) -> Foffset + F <= ind <= Ncb ->
  rm_start = ind - F ->
  exists e' k, rm_first w e ind Ncb F Foffset E = Done (e', k) /\ length e' = length e /\ 0 <= k <= E /\ sent w e' k /\ at_origin k E.
Proof.
  intros [Hw _] He Hi ES. unfold rm_first. rewrite (proj2 (Z.ltb_ge ind Foffset)) by lia.
  assert (u32 (Ncb - ind) = Ncb - ind) as -> by (unfold u32; apply Z.mod_small; lia).
  assert (forall len, 0 <= len <= Ncb - ind -> len <= E ->
    exists e', copy e 0 w ind len = Done e' /\ length e' = length e /\ sent w e' (0 + len)) as HC.
  { intros len Hl1 Hl2. apply sent_copy; try lia; [intros j Hj; lia|]. intros t Ht. rewrite (sel_high 0 t (ind - F)); [lia|lia| |lia].
    rewrite Z.add_0_r, ES. apply Z.mod_small. lia. }
  destruct (E <=? Ncb - ind) eqn:EE; zbool.
  - destruct (HC E) as (e' & -> & L' & S'); [lia|lia|]. exists e', E. split; [done|]. split; [done|]. split; [lia|]. split; [done|by left].
  - destruct (HC (Ncb - ind)) as (e' & -> & L' & S'); [lia|lia|]. exists e', (Ncb - ind).
    split; [done|]. split; [done|]. split; [lia|]. split; [done|right]. rewrite ES.
    replace (ind - F + (Ncb - ind)) with M by lia. apply M_mod.
Qed.

(** and from a position before them. *)
Lemma rm_first_low w e E : fillers_ok w -> k0 < Foffset <= E -> E <= Z.of_nat (length e) -> E < 2 ^ 31 ->
  exists e' k, rm_first w e k0 Ncb F Foffset E = Done (e', k) /\ length e' = length e /\ 0 <= k <= E /\ sent w e' k /\ at_origin k E.
Proof.
  intros [Hw _] HFE He HE31. unfold rm_first. rewrite (proj2 (Z.ltb_lt k0 Foffset)) by lia.
  assert (rm_start = k0) as ES by (unfold rm_start; cif; zbool; lia).
  destruct (sent_copy w e 0 k0 (Foffset - k0)) as (e1 & -> & L1 & S1); [lia..|intros j Hj; lia| |].
  { intros t Ht. rewrite (sel_low 0 t k0); [lia|lia| |lia]. rewrite Z.add_0_r, ES. apply Z.mod_small. lia. }
  rewrite Z.add_0_l in S1. cbn [mbind outcome_bind]. unfold u32. rewrite !Z.mod_small by lia.
  assert (forall len, 0 <= len <= Ncb - Foffset - F -> Foffset - k0 + len <= E ->
    exists e', copy e1 (Foffset - k0) w (Foffset + F) len = Done e' /\ length e' = length e1 /\ sent w e' (Foffset - k0 + len)) as HC.
  { intros len Hl1 Hl2. apply sent_copy; try lia; [done|]. intros t Ht. rewrite (sel_high (Foffset - k0) t Foffset); [lia|lia| |lia].
    rewrite ES. replace (k0 + (Foffset - k0)) with Foffset by lia. apply Z.mod_small. lia. }
  destruct (E + F <=? Ncb - k0) eqn:EE; zbool.
  - destruct (HC (E - Foffset + k0)) as (e' & -> & L' & S'); [lia|lia|]. exists e', E.
    replace (Foffset - k0 + (E - Foffset + k0)) with E in S' by lia.
    split; [done|]. split; [lia|]. split; [lia|]. split; [done|by left].
  - destruct (HC (Ncb - Foffset - F)) as (e' & -> & L' & S'); [lia|lia|]. exists e', (Ncb - F - k0).
    replace (Foffset - k0 + (Ncb - Foffset - F)) with (Ncb - F - k0) in S' by lia.
    split; [done|]. split; [lia|]. split; [lia|]. split; [done|right]. rewrite ES.
    replace (k0 + (Ncb - F - k0)) with M by lia. apply M_mod.
Qed.

Lemma nr_rate_matching_tx_spec Tbslbrm BG Zc w e C rvidx E :
  C <> 0 -> Ncb = rm_Ncb Tbslbrm C (rm_N BG Zc) -> rm_ind BG Zc rvidx Ncb (rm_N BG Zc) = Done k0 ->
  fillers_ok w -> Foffset <= E -> E <= Z.of_nat (length e) -> E < 2 ^ 31 ->
  exists e', nr_rate_matching_ldpc Tbslbrm BG Zc w e C F Foffset rvidx E = Done (0, e') /\ length e' = length e /\ sent w e' E.
Proof.
  intros HC EN Ek0 Hw HFE He HE. unfold nr_rate_matching_ldpc. rewrite (proj2 (Z.eqb_neq C 0) HC), <- EN, Ek0.
  cbn [mbind outcome_bind]. rewrite !Z.gtb_ltb, (proj2 (Z.ltb_ge E Foffset)), (proj2 (Z.ltb_ge Ncb Foffset)) by lia.
  assert (u32 (F + Foffset) = Foffset + F) as -> by (unfold u32; rewrite Z.mod_small; lia).
  set (ind := if _ && _ then _ else k0).
  assert (exists e1 k, rm_first w e ind Ncb F Foffset E = Done (e1, k) /\ length e1 = length e /\ 0 <= k <= E /\
            sent w e1 k /\ at_origin k E) as (e1 & k & -> & L1 & K1 & S1 & O1).
  { unfold ind. destruct ((Foffset <=? k0) && (k0 <? Foffset + F)) eqn:Ei; zbool.
    - apply rm_first_high; [done|lia|lia|]. unfold rm_start. cif; zbool; lia.
    - destruct (Z.lt_ge_cases k0 Foffset); [by apply rm_first_low|]. apply rm_first_high; [done|lia|destruct Ei; zbool; lia|].
      unfold rm_start. destruct Ei; zbool; cif; zbool; lia. }
  cbn [mbind outcome_bind].
  destruct (rm_while_spec w e1 k E (S (Z.to_nat E))) as (e' & -> & L' & S'); [done|lia|lia|lia|done|done|].
  exists e'. cbn [mbind outcome_bind]. rewrite L'. done.
Qed.
End Selection.

(** ** What the receiver gets *)

Section Combining.
Variables (Ncb F Foffset k0 : Z).
Hypothesis HF : 0 <= F /\ 0 <= Foffset /\ Foffset + F <= Ncb /\ F < Ncb < 2 ^ 31.
Hypothesis Hk0 : 0 <= k0 < Ncb.

(** How many times a position is selected among the first [n]. *)
Fixpoint hits (n : nat) (p : Z) : Z :=
  match n with O => 0 | S n => hits n p + (if sel Ncb F Foffset k0 (Z.of_nat n) =? p then 1 else 0) end.

Lemma hits_nonneg n p : 0 <= hits n p.
Proof. induction n as [|n IH]; simpl; [lia|]. cif; lia. Qed.

Lemma hits_mono n m p : (n <= m)%nat -> hits n p <= hits m p.
Proof. induction 1 as [|m H IH]; simpl; [lia|]. cif; lia. Qed.

Lemma hits_filler n p : Foffset <= p < Foffset + F -> hits n p = 0.
Proof.
  intros Hp. induction n as [|n IH]; simpl; [done|]. destruct (sel_range Ncb F Foffset k0 HF (Z.of_nat n)) as [_ Hs].
  rewrite (proj2 (Z.eqb_neq _ p)) by lia. lia.
Qed.

(** One turn of the buffer selects every bit. *)
Lemma hits_all n p : 0 <= p < Ncb -> ~ Foffset <= p < Foffset + F -> Ncb - F <= Z.of_nat n -> 1 <= hits n p.
Proof.
  intros Hp Hn HM. pose proof (rm_start_range Ncb F Foffset k0 HF Hk0) as HS. set (s := rm_start F Foffset k0) in *.
  set (r := rank F Foffset p). assert (0 <= r < Ncb - F) as Hr by (unfold r, rank; repeat cif; zbool; lia).
  set (j := (r - s) mod (Ncb - F)). assert (0 <= j < Ncb - F) as Hj by (apply Z.mod_pos_bound; lia).
  assert (sel Ncb F Foffset k0 j = p) as Ej.
  { unfold sel. fold s. unfold j. rewrite Z.add_mod_idemp_r by lia. replace (s + (r - s)) with r by lia.
    rewrite Z.mod_small by lia. unfold r, rank in *. repeat cif; zbool; lia. }
  transitivity (hits (S (Z.to_nat j)) p); [|apply hits_mono; lia]. simpl. rewrite Z2Nat.id, Ej, Z.eqb_refl by lia.
  pose proof (hits_nonneg (Z.to_nat j) p). lia.
Qed.

Lemma s16_small z : - 2 ^ 15 <= z < 2 ^ 15 -> s16 z = z.
Proof.
  intros Hz. unfold s16, u16. destruct (Z.lt_ge_cases z 0).
  - replace (z mod 2 ^ 16) with (z + 2 ^ 16) by (apply (Z.mod_unique _ _ (-1)); lia). cif; zbool; lia.
  - rewrite Z.mod_small by lia. cif; zbool; lia.
Qed.

(** The buffer after the combination of soft values that are the images of the selected bits. *)
Lemma combined_value (w w0 soft : list Z) (g : Z -> Z) n : Ncb <= Z.of_nat (length w0) ->
  (forall p, 0 <= p < Ncb -> w0 !! Z.to_nat p = Some 0) ->
  (forall j, 0 <= j < Z.of_nat n -> soft !! Z.to_nat j = g <$> w !! Z.to_nat (sel Ncb F Foffset k0 j)) ->
  forall p b, 0 <= p < Ncb -> w !! Z.to_nat p = Some b -> - 2 ^ 15 <= hits n p * g b < 2 ^ 15 ->
  combined Ncb F Foffset k0 w0 soft n !! Z.to_nat p = Some (hits n p * g b).
Proof.
  intros Hlen H0. induction n as [|n IH]; intros Hsoft p b Hp Hb Hr; [simpl; by apply H0|]. cbn [combined hits] in *.
  pose proof (sel_range Ncb F Foffset k0 HF (Z.of_nat n)) as [Hs _]. set (q := sel Ncb F Foffset k0 (Z.of_nat n)) in *.
  assert (- 2 ^ 15 <= hits n p * g b < 2 ^ 15) as Hr'.
  { pose proof (hits_nonneg n p). revert Hr. cif; nia. }
  specialize (IH ltac:(intros j Hj; apply Hsoft; lia) p b Hp Hb Hr').
  destruct (q =? p) eqn:Eq; zbool.
  - rewrite Eq in *. rewrite list_lookup_alter_eq, IH. simpl. f_equal.
    specialize (Hsoft (Z.of_nat n) ltac:(lia)). rewrite Nat2Z.id in Hsoft. fold q in Hsoft. rewrite Eq, Hb in Hsoft. simpl in Hsoft.
    rewrite Hsoft. simpl. rewrite s16_small by lia. lia.
  - rewrite Z.add_0_r in *. rewrite list_lookup_alter_ne by lia. exact IH.
Qed.
End Combining.

(** The first position of a redundancy version is in the buffer. *)
Lemma rm_ind_spec BG Zc rvidx Ncb : BG = 1 \/ BG = 2 -> 1 <= Zc <= 384 -> 0 <= rvidx <= 3 -> 0 < Ncb <= rm_N BG Zc ->
  exists k0, rm_ind BG Zc rvidx Ncb (rm_N BG Zc) = Done k0 /\ 0 <= k0 < Ncb.
Proof.
  intros HBG HZ Hrv HN. assert (exists c, 50 * Zc <= rm_N BG Zc <= 66 * Zc /\ 0 <= c /\ c * Zc < rm_N BG Zc /\ c <= 56 /\
    (row ← rd index_k0 (BG - 1); rd row rvidx) = Done c) as (c & HNr & Hc & Hcz & Hc56 & Ec).
  { unfold rm_N. assert (rvidx = 0 \/ rvidx = 1 \/ rvidx = 2 \/ rvidx = 3) as Hv by lia.
    destruct HBG as [->| ->]; destruct Hv as [->|[->|[->| ->]]]; eexists; (split; [|split; [|split; [|split; [|reflexivity]]]]); simpl; lia. }
  unfold rm_ind. apply outcome_bind_done in Ec as (row & -> & E2). cbn [mbind outcome_bind]. rewrite E2. cbn [mbind outcome_bind].
  rewrite (proj2 (Z.eqb_neq (rm_N BG Zc) 0)) by lia. set (N := rm_N BG Zc) in *.
  assert (0 <= c * Ncb < 2 ^ 32) as B1 by nia. unfold u32. rewrite (Z.mod_small (c * Ncb)) by lia.
  pose proof (Z.div_pos (c * Ncb) N ltac:(lia) ltac:(lia)) as Hq. pose proof (Z.mul_div_le (c * Ncb) N ltac:(lia)) as Hle.
  set (q := c * Ncb / N) in *. assert (q * Zc < Ncb) as Hlt.
  { apply (Z.mul_lt_mono_pos_l N); [lia|]. assert (N * q * Zc <= c * Ncb * Zc) by (apply Z.mul_le_mono_nonneg_r; lia).
    assert (c * Zc * Ncb < N * Ncb) by (apply Z.mul_lt_mono_pos_r; lia). lia. }
  rewrite Z.mod_small by lia. exists (q * Zc). split; [done|]. split; [apply Z.mul_nonneg_nonneg; lia|lia].
Qed.

(** Parameters that the two sides agree on: [Ncb] positions, the fillers among them, at least one bit, and at least
    the systematic bits before the fillers sent. *)
Definition rm_params (Tbslbrm BG Zc C F Foffset rvidx E Ncb : Z) : Prop :=
  (BG = 1 \/ BG = 2) /\ 1 <= Zc <= 384 /\ 0 <= rvidx <= 3 /\ C <> 0 /\ Ncb = rm_Ncb Tbslbrm C (rm_N BG Zc) /\
  0 <= F /\ 0 <= Foffset <= E /\ Foffset + F <= Ncb /\ F < Ncb /\ E < 2 ^ 31.

Lemma rm_params_k0 Tbslbrm BG Zc C F Foffset rvidx E Ncb :
  rm_params Tbslbrm BG Zc C F Foffset rvidx E Ncb ->
  (0 <= F /\ 0 <= Foffset /\ Foffset + F <= Ncb /\ F < Ncb < 2 ^ 31) /\
  exists k0, rm_ind BG Zc rvidx Ncb (rm_N BG Zc) = Done k0 /\ 0 <= k0 < Ncb.
Proof.
  intros (HBG & HZ & Hrv & HC & EN & HF & HFo & HFN & HM & HE).
  assert (Ncb <= rm_N BG Zc) as HN by (rewrite EN; unfold rm_Ncb; cif; lia).
  assert (rm_N BG Zc <= 66 * 384) by (unfold rm_N; cif; lia). split; [lia|]. apply rm_ind_spec; (done || lia).
Qed.

(** C13. Rate matching and its inverse.  For both base graphs, every lifting size, redundancy version and size of the
    limited buffer, bit selection reads the circular buffer of the coded bits from the position of the redundancy
    version, in a circle and without the filler bits, until E bits are output; and soft combining of the soft values
    of those bits in a cleared buffer adds each value at the position its bit was read from: every bit of the buffer
    gets its own soft value as many times as it was sent (at least once when E is at least the number of bits), and
    the positions of the fillers get nothing. *)
Theorem rate_matching_roundtrip Tbslbrm BG Zc C F Foffset rvidx E Ncb (w e d0 : list Z) (g : Z -> Z) :
  rm_params Tbslbrm BG Zc C F Foffset rvidx E Ncb -> fillers_ok Ncb F Foffset w ->
  E <= Z.of_nat (length e) -> Ncb <= Z.of_nat (length d0) ->
  exists k0 e' d, rm_ind BG Zc rvidx Ncb (rm_N BG Zc) = Done k0 /\
    nr_rate_matching_ldpc Tbslbrm BG Zc w e C F Foffset rvidx E = Done (0, e') /\ length e' = length e /\
    (forall j, 0 <= j < E -> e' !! Z.to_nat j = w !! Z.to_nat (sel Ncb F Foffset k0 j)) /\
    nr_rate_matching_ldpc_rx Tbslbrm BG Zc d0 (map g e') C rvidx 1 E F Foffset = Done (0, d) /\
    (forall p b, 0 <= p < Ncb -> w !! Z.to_nat p = Some b ->
     let h := hits Ncb F Foffset k0 (Z.to_nat E) p in
     - 2 ^ 15 <= h * g b < 2 ^ 15 -> d !! Z.to_nat p = Some (h * g b) /\
     (Foffset <= p < Foffset + F -> h = 0) /\ (~ Foffset <= p < Foffset + F -> Ncb - F <= E -> 1 <= h)).
Proof.
  intros HP Hw He Hd0. destruct (rm_params_k0 _ _ _ _ _ _ _ _ _ HP) as (HF & k0 & Ek0 & Hk0).
  destruct HP as (HBG & HZ & Hrv & HC & EN & _ & HFo & _ & _ & HE).
  destruct (nr_rate_matching_tx_spec Ncb F Foffset k0 HF Hk0 Tbslbrm BG Zc w e C rvidx E) as (e' & Et & Lt & St); try done; [lia|].
  pose proof (nr_rate_matching_rx_spec Ncb F Foffset k0 HF Hk0 Tbslbrm BG Zc d0 (map g e') C rvidx 1 E HC EN Ek0 Hd0
                ltac:(rewrite length_map; lia)) as Er. simpl in Er.
  eexists k0, e', _. split; [done|]. split; [done|]. split; [done|]. split; [exact St|]. split; [exact Er|].
  intros p b Hp Hb h Hh. split; [|split].
  - apply combined_value with (w := w); try done.
    + rewrite length_app, length_replicate, length_drop. lia.
    + intros q Hq. rewrite lookup_app_l by (rewrite length_replicate; lia). apply lookup_replicate_2. lia.
    + intros j Hj. rewrite list_lookup_fmap. by rewrite (St j) by lia.
  - intros Hf. by apply hits_filler.
  - intros Hnf HM. apply hits_all; (done || lia).
Qed.

(** A small buffer: BG 2, lifting size 2 (100 coded bits), 4 fillers from position 12. *)
Definition w_small : list Z := replicate 12 1 ++ replicate 4 NR_NULL ++ concat (replicate 42 [0; 1]).

Lemma w_small_fillers : fillers_ok 100 4 12 w_small.
Proof.
  split; [vm_compute; congruence|]. intros i Hi.
  assert (forallb (fun i => eqb (match w_small !! Z.to_nat i with Some x => x =? NR_NULL | None => false end)
                                 ((12 <=? i) && (i <? 16))) (map Z.of_nat (seq 0 100)) = true) as HF by (vm_compute; done).
  rewrite forallb_forall in HF. specialize (HF i ltac:(apply in_map_iff; exists (Z.to_nat i); split; [lia|apply in_seq; lia])).
  apply eqb_prop in HF. destruct (w_small !! Z.to_nat i) as [x|] eqn:Ex.
  - split.
    + intros [= ->]. simpl in HF. symmetry in HF. zbool. lia.
    + intros H. rewrite (proj2 (Z.leb_le 12 i)), (proj2 (Z.ltb_lt i 16)) in HF by lia. simpl in HF. by apply Z.eqb_eq in HF as ->.
  - apply lookup_ge_None in Ex. change (length w_small) with 100%nat in Ex. lia.
Qed.

Lemma rate_matching_roundtrip_witness : exists e' d,
  nr_rate_matching_ldpc 0 2 2 w_small (replicate 150 9) 1 4 12 2 150 = Done (0, e') /\
  nr_rate_matching_ldpc_rx 0 2 2 (replicate 100 77) (map (fun b => 10 - 20 * b) e') 1 2 1 150 4 12 = Done (0, d) /\
  take 3 e' = [0; 1; 0] /\ d !! 0%nat = Some (-20) /\ d !! 12%nat = Some 0.
Proof.
  destruct (rate_matching_roundtrip 0 2 2 1 4 12 2 150 100 w_small (replicate 150 9) (replicate 100 77) (fun b => 10 - 20 * b))
    as (k0 & e' & d & Ek & Et & _ & _ & Er & _).
  - repeat split; try lia; done.
  - exact w_small_fillers.
  - vm_compute. congruence.
  - vm_compute. congruence.
  - exists e', d. split; [exact Et|]. split; [exact Er|]. vm_compute in Et. injection Et as <-. vm_compute in Er. injection Er as <-.
    repeat split; reflexivity.
Defined.

(** The refusals of rate matching: with no code block, or when the bits before the fillers do not fit in the E
    bits to send or in the buffer, both sides return -1 and leave their buffers as they were. *)
Theorem rate_matching_refuses Tbslbrm BG Zc w e soft C F Foffset rvidx clear E k0 :
  rm_ind BG Zc rvidx (rm_Ncb Tbslbrm C (rm_N BG Zc)) (rm_N BG Zc) = Done k0 ->
  C = 0 \/ Foffset > E \/ Foffset > rm_Ncb Tbslbrm C (rm_N BG Zc) ->
  nr_rate_matching_ldpc Tbslbrm BG Zc w e C F Foffset rvidx E = Done (-1, e) /\
  nr_rate_matching_ldpc_rx Tbslbrm BG Zc w soft C rvidx clear E F Foffset = Done (-1, w).
Proof.
  intros Ek H. unfold nr_rate_matching_ldpc, nr_rate_matching_ldpc_rx. destruct (C =? 0) eqn:EC; zbool; [done|].
  rewrite Ek. cbn [mbind outcome_bind]. rewrite !Z.gtb_ltb. destruct (E <? Foffset) eqn:E1; zbool; [done|].
  rewrite (proj2 (Z.ltb_lt (rm_Ncb _ _ _) Foffset)) by lia. done.
Qed.

Lemma rate_matching_refuses_witness :
  nr_rate_matching_ldpc 0 2 2 w_small [1; 2] 1 4 12 0 2 = Done (-1, [1; 2]).
Proof.
  apply (rate_matching_refuses 0 2 2 w_small [1; 2] [] 1 4 12 0 0 2 0); [vm_compute; reflexivity|lia].
Defined.
