(* ===== verification/UlSch.v ===== *)
(** The coding chain of the uplink shared channel.  Of the UE: nr_ulsch_encoding
    (openair1/PHY/NR_UE_TRANSPORT/nr_ulsch_coding.c), with the CRC attachment, segmentation, LDPC coding, rate
    matching and interleaving of a transport block.  Of the gNB: nr_ulsch_decoding and nr_processULSegment
    (openair1/PHY/NR_TRANSPORT/nr_ulsch_decoding.c), which prepare and decode the code blocks, and nr_postDecode
    (openair1/SCHED_NR/phy_procedures_nr_gNB.c), which collects them in any order.  nr_get_G and nr_get_E of
    openair1/PHY/NR_TRANSPORT/nr_tbs_tools.c.

    Of the LDPC decoder (openair1/PHY/CODING/nrLDPC_decoder/nrLDPC_decoder.c) the loop over the iterations is here;
    its vectorised kernels and the LDPC coder, functions of a library that is loaded at run time (ldpc_interface),
    are parameters, as is what the demodulator delivers. *)

From S2P Require Import Prelude L2Common Tbs Gf2 CrcFold Crc Segmentation RateMatch.

Definition MAX_NUM_NR_DLSCH_SEGMENTS_PER_LAYER : Z := 36.
Definition MAX_NUM_NR_ULSCH_SEGMENTS_PER_LAYER : Z := 34.
Definition NR_NB_SC_PER_RB : Z := 12.

(** ** Numbers of coded bits *)

Definition nr_get_G (nb_rb nb_symb_sch nb_re_dmrs length_dmrs unav_res Qm Nl : Z) : Z :=
  let G := u32 ((NR_NB_SC_PER_RB * nb_symb_sch - nb_re_dmrs * length_dmrs) * nb_rb * Qm * Nl) in
  u32 (G - u32 (unav_res * Qm * Nl)).

Definition nr_get_E (G C Qm Nl r : Z) : outcome Z :=
  if negb (Nl >? 0) then Exit
  else if negb (Qm >? 0) then Exit
  else if C =? 0 then Undef
  else if r <=? u32 (C - (G / (Nl * Qm)) mod C - 1)
       then Done (u32 (Nl * Qm * (G / (Nl * Qm * C))))
       else Done (u32 (Nl * Qm * (G / (Nl * Qm * C) + 1))).

(** ** CRC attachment

    In place, in the buffer [a] of the transport block; the length of the block with its CRC. *)
Definition attach_crc (intel : bool) (T : crc_tables) (a : list Z) (A max_bytes : Z) : outcome (list Z * Z) :=
  if A >? NR_MAX_PDSCH_TBS then
    crc ← crc24a intel T a A;
    let crc := Z.shiftr crc 8 in
    a ← wr a (Z.shiftr A 3) (byte_of crc 2);
    a ← wr a (1 + Z.shiftr A 3) (byte_of crc 1);
    a ← wr a (2 + Z.shiftr A 3) (byte_of crc 0);
    if A / 8 + 4 <=? max_bytes then Done (a, A + 24) else Exit
  else
    crc ← crc16 T a A;
    let crc := Z.shiftr crc 16 in
    a ← wr a (Z.shiftr A 3) (byte_of crc 1);
    a ← wr a (1 + Z.shiftr A 3) (byte_of crc 0);
    if A / 8 + 3 <=? max_bytes then Done (a, A + 16) else Exit.

(** An operation on a buffer that is given as [buf + off]. *)
Definition on_tail {R} (buf : list Z) (off : Z) (k : list Z -> outcome (R * list Z)) : outcome (R * list Z) :=
  if (off <? 0) || (Z.of_nat (length buf) <? off) then Undef
  else '(x, t) ← k (drop (Z.to_nat off) buf); Done (x, take (Z.to_nat off) buf ++ t).

(** What the scheduler tells of the transmission. *)
Record pusch_pdu_t := mk_pusch {
  new_data_indicator : bool; nrOfLayers : Z; qam_mod_order : Z; rv_index : Z; ldpcBaseGraph : Z;
  tbslbrm : Z; rb_size : Z
}.

(** ** The UE *)

Record NR_UL_UE_HARQ_t := mk_ue_harq {
  payload_AB : list Z; ue_c : list (list Z); ue_d : list (list Z); ue_e : list Z; ue_f : list Z;
  ue_C : Z; ue_K : Z; ue_Z : Z; ue_F : Z; ue_BG : Z
}.
#[export] Instance eta_ue_harq : Eta NR_UL_UE_HARQ_t := fun r =>
  mk_ue_harq (payload_AB r) (ue_c r) (ue_d r) (ue_e r) (ue_f r) (ue_C r) (ue_K r) (ue_Z r) (ue_F r) (ue_BG r).

(** [d[r][k] = NR_NULL] for [k] from [k] to [lim - 1] *)
Fixpoint set_null (fuel : nat) (d : list Z) (k lim : Z) : outcome (list Z) :=
  match fuel with
  | O => Undef
  | S fuel => if k <? lim then d ← wr d k NR_NULL; set_null fuel d (k + 1) lim else Done d
  end.

Section Encoding.
Variables (intel : bool) (T : crc_tables).
(** The coded bits of a code block, after the 2 Zc systematic bits that are not transmitted: base graph, lifting
    size, K and F, and the bytes of the block. *)
Variable ldpc_encode : Z -> Z -> Z -> Z -> list Z -> list Z.

(** [LDPCencoder(c, d, &impp)]: the blocks [8 * macro_num] to [min(8 * (macro_num + 1), n_segments) - 1], [k] left from [r] *)
Fixpoint encode_rows (k : nat) (BG Zc K F : Z) (c d : list (list Z)) (r : Z) : outcome (list (list Z)) :=
  match k with
  | O => Done d
  | S k =>
      cr ← rd c r; dr ← rd d r;
      dr ← blit dr 0 (ldpc_encode BG Zc K F cr);
      d ← wr d r dr;
      encode_rows k BG Zc K F c d (r + 1)
  end.

Definition LDPCencoder (BG Zc K F n_segments macro_num : Z) (c d : list (list Z)) : outcome (list (list Z)) :=
  let r := 8 * macro_num in
  let r_end := if n_segments >? 8 * (macro_num + 1) then 8 * (macro_num + 1) else n_segments in
  encode_rows (Z.to_nat (r_end - r)) BG Zc K F c d r.

(** [for (int j = 0; j < (impp.n_segments / 8 + 1); j++)], [k] left from [j] *)
Fixpoint encode_macros (k : nat) (BG Zc K F n_segments : Z) (c d : list (list Z)) (j : Z) : outcome (list (list Z)) :=
  match k with
  | O => Done d
  | S k => d ← LDPCencoder BG Zc K F n_segments j c d; encode_macros k BG Zc K F n_segments c d (j + 1)
  end.

(** The loop on the segments, [k] left from [r]: fillers, rate matching, interleaving; [None] is the return of -1. *)
Fixpoint ulsch_segments (k : nat) (pdu : pusch_pdu_t) (G r r_offset : Z) (h : NR_UL_UE_HARQ_t)
  : outcome (bool * NR_UL_UE_HARQ_t) :=
  match k with
  | O => Done (true, h)
  | S k =>
      let Foffset := ue_K h - ue_F h - 2 * ue_Z h in
      dr ← rd (ue_d h) r;
      dr ← (if ue_F h >? 0 then set_null (S (length dr)) dr Foffset (ue_K h - 2 * ue_Z h) else Done dr);
      d ← wr (ue_d h) r dr;
      let h := h <| ue_d := d |> in
      E ← nr_get_E G (ue_C h) (qam_mod_order pdu) (nrOfLayers pdu) r;
      '(ret, e) ← on_tail (ue_e h) r_offset (fun e =>
        nr_rate_matching_ldpc (tbslbrm pdu) (ue_BG h) (ue_Z h) dr e (ue_C h) (ue_F h) (u32 Foffset) (rv_index pdu) E);
      let h := h <| ue_e := e |> in
      if ret =? -1 then Done (false, h)
      else
        '(_, f) ← on_tail (ue_f h) r_offset (fun f =>
          f ← nr_interleaving_ldpc 0 E (qam_mod_order pdu) (drop (Z.to_nat r_offset) e) f; Done (tt, f));
        ulsch_segments k pdu G (r + 1) (r_offset + E) (h <| ue_f := f |>)
  end.

(** A new transport block: CRC, segmentation and LDPC coding.  [false] is the return of -1 for too many segments. *)
Definition ulsch_new_block (pdu : pusch_pdu_t) (A : Z) (h : NR_UL_UE_HARQ_t) : outcome (bool * NR_UL_UE_HARQ_t) :=
  '(ab, B) ← attach_crc intel T (payload_AB h) A (MAX_NUM_NR_ULSCH_SEGMENTS_PER_LAYER * nrOfLayers pdu * 1056);
  let h := h <| payload_AB := ab |> <| ue_BG := ldpcBaseGraph pdu |> in
  s ← nr_segmentation intel T (Some (ab, ue_c h)) B (ue_BG h) (ue_K h) (ue_Z h) (ue_F h);
  let h := h <| ue_c := sr_out s |> <| ue_C := sr_C s |> <| ue_K := sr_K s |> <| ue_Z := sr_Zout s |> <| ue_F := sr_F s |> in
  if ue_C h >? MAX_NUM_NR_DLSCH_SEGMENTS_PER_LAYER * nrOfLayers pdu then Done (false, h)
  else
    d ← encode_macros (Z.to_nat (ue_C h / 8 + 1)) (ue_BG h) (ue_Z h) (ue_K h) (ue_F h) (ue_C h) (ue_c h) (ue_d h) 0;
    Done (true, h <| ue_d := d |>).

(** Without an offload card.  The returned value and the HARQ process. *)
Definition nr_ulsch_encoding (pdu : pusch_pdu_t) (tb_size G : Z) (h : NR_UL_UE_HARQ_t) : outcome (Z * NR_UL_UE_HARQ_t) :=
  let A := u32 (Z.shiftl tb_size 3) in
  '(ok, h) ← (if new_data_indicator pdu then ulsch_new_block pdu A h else Done (true, h));
  if negb ok then Done (-1, h)
  else
    '(ok, h) ← ulsch_segments (Z.to_nat (ue_C h)) pdu G 0 0 h;
    Done ((if negb ok then -1 else 0), h).
End Encoding.

(** ** The gNB *)

Record NR_UL_gNB_HARQ_t := mk_gnb_harq {
  gb : list Z; gc : list (list Z); gd : list (list Z); d_to_be_cleared : list bool;
  gC : Z; gK : Z; gZ : Z; gF : Z; TBS : Z; round : Z; harq_to_be_cleared : bool;
  processedSegments : Z; abort_decode : bool
}.
#[export] Instance eta_gnb_harq : Eta NR_UL_gNB_HARQ_t := fun r =>
  mk_gnb_harq (gb r) (gc r) (gd r) (d_to_be_cleared r) (gC r) (gK r) (gZ r) (gF r) (TBS r) (round r)
    (harq_to_be_cleared r) (processedSegments r) (abort_decode r).

(** What a job carries. *)
Record ldpcDecode_t := mk_job {
  job_BG : Z; job_Z : Z; numMaxIter : Z; job_Kc : Z; segment_r : Z; job_E : Z; job_A : Z; job_Qm : Z;
  job_r_offset : Z; job_Kr_bytes : Z; job_rv : Z; job_offset : Z; job_tbslbrm : Z; decodeIterations : Z
}.
#[export] Instance eta_job : Eta ldpcDecode_t := fun r =>
  mk_job (job_BG r) (job_Z r) (numMaxIter r) (job_Kc r) (segment_r r) (job_E r) (job_A r) (job_Qm r)
    (job_r_offset r) (job_Kr_bytes r) (job_rv r) (job_offset r) (job_tbslbrm r) (decodeIterations r).

(** [harq_process->d_to_be_cleared[r] = true] for the [k] blocks from [r] *)
Fixpoint mark_cleared (k : nat) (l : list bool) (r : Z) : outcome (list bool) :=
  match k with O => Done l | S k => l ← wr l r true; mark_cleared k l (r + 1) end.

(** The jobs of the blocks, [k] left from [r]. *)
Fixpoint make_jobs (k : nat) (h : NR_UL_gNB_HARQ_t) (pdu : pusch_pdu_t) (G A max_iter r r_offset offset : Z)
  : outcome (list ldpcDecode_t) :=
  match k with
  | O => Done []
  | S k =>
      E ← nr_get_E G (gC h) (qam_mod_order pdu) (nrOfLayers pdu) r;
      let job := mk_job (ldpcBaseGraph pdu) (gZ h) max_iter (if ldpcBaseGraph pdu =? 2 then 52 else 68) r E A
                   (qam_mod_order pdu) r_offset (Z.shiftr (gK h) 3) (rv_index pdu) offset (tbslbrm pdu) 0 in
      jobs ← make_jobs k h pdu G A max_iter (r + 1) (r_offset + E)
               (offset + (Z.shiftr (gK h) 3 - Z.shiftr (gF h) 3 - (if gC h >? 1 then 3 else 0)));
      Done (job :: jobs)
  end.

(** The preparation of the decoding: the returned value, the jobs that are given to the thread pool and the HARQ
    process.  The choice of the rate of the decoder (nr_get_R_ldpc_decoder) and the statistics are left out. *)
Definition nr_ulsch_decoding (intel : bool) (T : crc_tables) (pdu : pusch_pdu_t) (tb_size G max_iter : Z)
    (h : NR_UL_gNB_HARQ_t) : outcome (Z * list ldpcDecode_t * NR_UL_gNB_HARQ_t) :=
  let h := h <| TBS := tb_size |> in
  let A := u32 (Z.shiftl tb_size 3) in
  s ← nr_segmentation intel T None (lenWithCrc 1 A) (ldpcBaseGraph pdu) (gK h) (gZ h) (gF h);
  let h := h <| gC := sr_C s |> <| gK := sr_K s |> <| gZ := sr_Zout s |> <| gF := sr_F s |> in
  let a_segments := MAX_NUM_NR_ULSCH_SEGMENTS_PER_LAYER * nrOfLayers pdu in
  if gC h >? a_segments then Done (-1, [], h)
  else
    let a_segments := if negb (rb_size pdu =? 273) then u16 (u16 (a_segments * rb_size pdu) / 273 + 1) else a_segments in
    if gC h >? a_segments then Done (-1, [], h)
    else
      h ← (if harq_to_be_cleared h then
             l ← mark_cleared (Z.to_nat (gC h)) (d_to_be_cleared h) 0;
             Done (h <| d_to_be_cleared := l |> <| harq_to_be_cleared := false |>)
           else Done h);
      let h := h <| processedSegments := 0 |> <| abort_decode := false |> in
      jobs ← make_jobs (Z.to_nat (gC h)) h pdu G A max_iter 0 0 0;
      Done (gC h, jobs, h).

(** [simde_mm_packs_epi16]: saturation to 8 bits *)
Definition sat8 (x : Z) : Z := Z.max (-128) (Z.min 127 x).

Section Decoding.
Variables (intel : bool) (T : crc_tables).
(** The kernels of the decoder (check node and bit node processing, in vector instructions): base graph, lifting
    size, redundancy version and bits of the block (from which nr_get_R_ldpc_decoder takes the part of the parity
    check matrix that is used), the soft values and a number of iterations; the output buffer, with the hard
    decisions packed into bytes. *)
Variable decisions : Z -> Z -> Z -> Z -> list Z -> Z -> list Z.

(** [while ((numIter <= numMaxIter) && (pcRes != 0))] of [nrLDPC_decoder_core], with [check_crc]: the CRC is looked
    at from the third iteration on.  [aborted] is the flag that all blocks of the transport block share. *)
Fixpoint nrLDPC_decoder_core (fuel : nat) (job : ldpcDecode_t) (len ty : Z) (l : list Z) (aborted : bool)
    (numIter : Z) (p_out : list Z) : outcome (Z * list Z) :=
  match fuel with
  | O => Undef
  | S fuel =>
      if numIter <=? numMaxIter job then
        let numIter := numIter + 1 in
        if aborted then Done (numMaxIter job + 2, p_out)
        else if 2 <? numIter then
          let p_out := decisions (job_BG job) (job_Z job) (job_rv job) (job_E job) l numIter in
          v ← check_crc intel T p_out len ty;
          if negb (v =? 0) then Done (numIter, p_out) else nrLDPC_decoder_core fuel job len ty l aborted numIter p_out
        else nrLDPC_decoder_core fuel job len ty l aborted numIter p_out
      else Done (numIter, p_out)
  end.

(** The number of iterations, the bytes and the flag. *)
Definition LDPCdecoder (job : ldpcDecode_t) (len ty : Z) (l : list Z) (aborted : bool) : outcome (Z * list Z * bool) :=
  '(numIter, p_out) ← nrLDPC_decoder_core (S (Z.to_nat (numMaxIter job))) job len ty l aborted 1 [];
  Done (numIter, p_out, aborted || (numMaxIter job <? numIter)).

(** The soft values of the whole codeword: nothing known of the first 2 Z bits, the fillers are zeros. *)
Definition llr_vector (d : list Z) (Zc K F Kc : Z) : outcome (list Z) :=
  low ← slice d 0 (K - F - 2 * Zc);
  high ← slice d (K - 2 * Zc) (Kc * Zc - K);
  Done (map sat8 (replicate (Z.to_nat (2 * Zc)) 0 ++ low ++ replicate (Z.to_nat F) 0x7f7f ++ high)).

Definition nr_processULSegment (ulsch_llr : list Z) (job : ldpcDecode_t) (h : NR_UL_gNB_HARQ_t)
  : outcome (ldpcDecode_t * NR_UL_gNB_HARQ_t) :=
  let r := segment_r job in
  if (job_r_offset job <? 0) || (Z.of_nat (length ulsch_llr) <? job_r_offset job) then Undef
  else
  harq_e ← nr_deinterleaving_ldpc (job_E job) (job_Qm job) (replicate (Z.to_nat (job_E job)) 0)
             (drop (Z.to_nat (job_r_offset job)) ulsch_llr);
  dr ← rd (gd h) r;
  clr ← rd (d_to_be_cleared h) r;
  '(ret, dr) ← nr_rate_matching_ldpc_rx (job_tbslbrm job) (job_BG job) (job_Z job) dr harq_e (gC h) (job_rv job)
                 (b2z clr) (job_E job) (gF h) (u32 (gK h - gF h - 2 * job_Z job));
  d ← wr (gd h) r dr;
  let h := h <| gd := d |> in
  if ret =? -1 then Done (job <| decodeIterations := numMaxIter job + 1 |>, h <| abort_decode := true |>)
  else
    cl ← wr (d_to_be_cleared h) r false;
    let h := h <| d_to_be_cleared := cl |> in
    cr ← rd (gc h) r;
    cr ← blit cr 0 (replicate (Z.to_nat (Z.shiftr (gK h) 3)) 0);
    l ← llr_vector dr (gZ h) (gK h) (gF h) (job_Kc job);
    '(it, out, ab) ← LDPCdecoder job (lenWithCrc (gC h) (job_A job)) (crcType (gC h) (job_A job)) l (abort_decode h);
    cr ← (if it <=? numMaxIter job then bytes ← slice out 0 (Z.shiftr (gK h) 3); blit cr 0 bytes else Done cr);
    c ← wr (gc h) r cr;
    Done (job <| decodeIterations := it |>, h <| gc := c |> <| abort_decode := ab |>).

(** The result of a block.  The last component tells what is reported when all the blocks are processed: the
    transport block is good (ACK) or not (NAK).  [DTX]: nothing was detected. *)
Definition nr_postDecode (DTX : bool) (job : ldpcDecode_t) (h : NR_UL_gNB_HARQ_t) : outcome (NR_UL_gNB_HARQ_t * option bool) :=
  let h := h <| processedSegments ::= add32 1 |> in
  h ← (if decodeIterations job <=? numMaxIter job then
         cr ← rd (gc h) (segment_r job);
         l ← slice cr 0 (job_Kr_bytes job - Z.shiftr (gF h) 3 - (if gC h >? 1 then 3 else 0));
         b ← blit (gb h) (job_offset job) l;
         Done (h <| gb := b |>)
       else Done h);
  if processedSegments h =? gC h then
    crc_valid ← (if gC h >? 1 then
                   v ← check_crc intel T (gb h) (lenWithCrc 1 (job_A job)) (crcType 1 (job_A job)); Done (negb (v =? 0))
                 else Done true);
    if crc_valid && negb (abort_decode h) && negb DTX then Done (h <| round := 0 |>, Some true) else Done (h, Some false)
  else Done (h, None).

(** The thread pool decodes the blocks and the results are collected, one block after the other in some order; the
    report is the last one that is made. *)
Fixpoint run_jobs (DTX : bool) (ulsch_llr : list Z) (jobs : list ldpcDecode_t) (h : NR_UL_gNB_HARQ_t) (rep : option bool)
  : outcome (NR_UL_gNB_HARQ_t * option bool) :=
  match jobs with
  | [] => Done (h, rep)
  | job :: jobs =>
      '(job, h) ← nr_processULSegment ulsch_llr job h;
      '(h, rep') ← nr_postDecode DTX job h;
      run_jobs DTX ulsch_llr jobs h (match rep' with Some x => Some x | None => rep end)
  end.
End Decoding.

(** ** The bits of the code blocks *)

Section Sizes.
Variables (G C Qm Nl : Z).
Hypothesis HG : 0 <= G < 2 ^ 31.
Hypothesis HC : 1 <= C < 256.
Hypothesis HQ : 0 < Qm /\ 0 < Nl.
#[local] Abbreviation q := (G / (Nl * Qm)).

(** The first blocks have Nl Qm floor(q / C) bits, the last (q mod C) ones Nl Qm more. *)
Definition E_of (r : Z) : Z := Nl * Qm * (q / C + (if r <? C - q mod C then 0 else 1)).
(** Where the bits of block [r] start. *)
Definition E_off (r : Z) : Z := Nl * Qm * (q / C * r + Z.max 0 (r - (C - q mod C))).

Lemma q_range : 0 <= q /\ 0 <= q / C /\ 0 <= q mod C < C /\ q = C * (q / C) + q mod C /\ Nl * Qm * q <= G.
Proof.
  assert (0 < Nl * Qm) as HP by nia. assert (0 <= q) by (apply Z.div_pos; lia).
  split; [done|]. split; [apply Z.div_pos; lia|]. split; [apply Z.mod_pos_bound; lia|].
  split; [apply Z.div_mod; lia|]. apply Z.mul_div_le. lia.
Qed.

Lemma nr_get_E_spec r : 0 <= r < C -> nr_get_E G C Qm Nl r = Done (E_of r).
Proof.
  intros Hr. pose proof q_range as (Q0 & Q1 & Q2 & Q3 & Q4). assert (0 < Nl * Qm) as HP by nia.
  unfold nr_get_E. rewrite (proj2 (Z.gtb_lt Nl 0)), (proj2 (Z.gtb_lt Qm 0)) by lia. simpl negb. cbv iota.
  rewrite (proj2 (Z.eqb_neq C 0)) by lia. replace (G / (Nl * Qm * C)) with (q / C) by (apply Z.div_div; lia).
  assert (forall x, 0 <= x <= q -> u32 (Nl * Qm * x) = Nl * Qm * x) as HU.
  { intros x Hx. unfold u32. apply Z.mod_small. assert (Nl * Qm * x <= Nl * Qm * q) by (apply Z.mul_le_mono_nonneg_l; lia). nia. }
  assert (u32 (C - q mod C - 1) = C - q mod C - 1) as -> by (unfold u32; apply Z.mod_small; lia).
  assert (q / C <= C * (q / C)) as Hle by nia. unfold E_of.
  destruct (r <=? C - q mod C - 1) eqn:E1, (r <? C - q mod C) eqn:E2; zbool; try lia.
  - rewrite HU, Z.add_0_r by lia. done.
  - rewrite HU by lia. done.
Qed.

Lemma E_off_0 : E_off 0 = 0.
Proof. pose proof q_range as (Q0 & Q1 & Q2 & Q3 & Q4). unfold E_off. rewrite Z.mul_0_r, Z.max_l by lia. lia. Qed.

Lemma E_off_S r : 0 <= r < C -> E_off (r + 1) = E_off r + E_of r.
Proof.
  intros Hr. unfold E_off, E_of. rewrite <- Z.mul_add_distr_l. f_equal.
  destruct (r <? C - q mod C) eqn:E; zbool; [rewrite !Z.max_l by lia | rewrite !Z.max_r by lia]; lia.
Qed.

Lemma E_off_mono r r' : 0 <= r <= r' -> E_off r <= E_off r'.
Proof.
  intros Hr. pose proof q_range as (Q0 & Q1 & Q2 & Q3 & Q4). unfold E_off. apply Z.mul_le_mono_nonneg_l; [nia|].
  apply Z.add_le_mono; [apply Z.mul_le_mono_nonneg_l; lia|lia].
Qed.

Lemma E_off_end : E_off C = Nl * Qm * q.
Proof. pose proof q_range as (Q0 & Q1 & Q2 & Q3 & Q4). unfold E_off. rewrite Z.max_r by lia. rewrite Q3 at 3. f_equal. lia. Qed.

Lemma E_of_facts r : 0 <= r < C -> 0 <= E_of r < 2 ^ 31 /\ E_of r mod Qm = 0 /\ 0 <= E_off r /\ E_off r + E_of r <= G.
Proof.
  intros Hr. pose proof q_range as (Q0 & Q1 & Q2 & Q3 & Q4). rewrite <- E_off_S by done.
  pose proof (E_off_mono 0 r ltac:(lia)) as H0. rewrite E_off_0 in H0.
  pose proof (E_off_mono (r + 1) C ltac:(lia)) as H1. rewrite E_off_end in H1. pose proof (E_off_S r Hr) as HS.
  assert (0 <= E_of r) by (unfold E_of; apply Z.mul_nonneg_nonneg; [nia|cif; lia]).
  split; [lia|]. split; [|lia]. unfold E_of. rewrite (Z.mul_comm Nl), <- Z.mul_assoc, Z.mul_comm. apply Z.mod_mul. lia.
Qed.
End Sizes.

Lemma sum_acc acc l : foldr Z.add acc l = foldr Z.add 0 l + acc.
Proof. induction l as [|y l IH]; simpl; lia. Qed.

(** The coded bits that the channel offers are shared out without loss: the sizes of [nr_get_E] for the code
    blocks are multiples of the bits of a symbol on all layers, they differ by at most one symbol, and together they
    are all the G bits when G is a whole number of symbols. *)
Theorem nr_get_E_partition G C Qm Nl : 0 <= G < 2 ^ 31 -> 1 <= C < 256 -> 0 < Qm -> 0 < Nl -> G mod (Nl * Qm) = 0 ->
  exists Es, Forall2 (fun r E => nr_get_E G C Qm Nl r = Done E) (seqZ 0 C) Es /\
    foldr Z.add 0 Es = G /\ Forall (fun E => E mod (Nl * Qm) = 0) Es /\
    (forall E E', E ∈ Es -> E' ∈ Es -> Z.abs (E - E') <= Nl * Qm).
Proof.
  intros HG HC HQ HN Hm. exists (E_of G C Qm Nl <$> seqZ 0 C). split; [|split; [|split]].
  - apply Forall2_fmap_r, Forall_Forall2_diag, Forall_forall. intros r Hr. apply elem_of_seqZ in Hr.
    apply nr_get_E_spec; lia.
  - assert (forall k, (k <= Z.to_nat C)%nat -> foldr Z.add 0 (E_of G C Qm Nl <$> seqZ 0 (Z.of_nat k)) = E_off G C Qm Nl (Z.of_nat k)) as H.
    { induction k as [|k IH]; intros Hk; [by rewrite E_off_0|].
      rewrite Nat2Z.inj_succ, <- Z.add_1_r, seqZ_app, fmap_app, foldr_app by lia.
      change (seqZ (0 + Z.of_nat k) 1) with [Z.of_nat 0 + (0 + Z.of_nat k)]. change (Z.of_nat 0) with 0. rewrite !Z.add_0_l.
      cbn [fmap list_fmap foldr]. rewrite sum_acc, IH, E_off_S by lia. lia. }
    specialize (H (Z.to_nat C) ltac:(lia)). rewrite Z2Nat.id in H by lia. rewrite H, E_off_end by lia.
    pose proof (Z.div_mod G (Nl * Qm) ltac:(nia)). lia.
  - apply Forall_fmap, Forall_forall. intros r _. unfold E_of. simpl. rewrite Z.mul_comm. apply Z.mod_mul. nia.
  - intros E E' (r & -> & _)%list_elem_of_fmap (r' & -> & _)%list_elem_of_fmap. unfold E_of. assert (0 < Nl * Qm) by nia.
    repeat cif; nia.
Qed.

Lemma nr_get_E_partition_witness : exists Es,
  Forall2 (fun r E => nr_get_E 1000 3 4 1 r = Done E) (seqZ 0 3) Es /\ foldr Z.add 0 Es = 1000.
Proof.
  destruct (nr_get_E_partition 1000 3 4 1) as (Es & H1 & H2 & _); [lia|lia|lia|lia|reflexivity|]. exists Es. split; [exact H1|exact H2].
Defined.

(** ** The CRC of the transport block *)

(** The first [n] bits of the buffer are a block with a right CRC. *)
Definition crc_valid (a : list Z) (n crc_type : Z) : Prop :=
  mult (crc_generator crc_type) (be (take (Z.to_nat (n / 8)) a)).

Lemma crc_valid_check intel a n ty : check_ok intel a n ty -> crc_valid a n ty <-> check_crc intel the_tables a n ty = Done 1.
Proof.
  intros OK. destruct (check_crc_spec intel a n ty OK) as (r & -> & _ & H). unfold crc_valid. rewrite <- H. split; congruence.
Qed.

Lemma lenWithCrc_1 A : lenWithCrc 1 A = A + 8 * check_crc_len (crcType 1 A) /\ 0 <= crcType 1 A <= 3 /\ 2 <= check_crc_len (crcType 1 A) <= 3.
Proof.
  unfold lenWithCrc, crcType. simpl. destruct (A >? NR_MAX_PDSCH_TBS);
    [change (check_crc_len CRC24_A) with 3|change (check_crc_len CRC16) with 2]; unfold CRC24_A, CRC16; lia.
Qed.

Section Attach.
Variables (intel : bool) (a : list Z) (m max_bytes : Z).
#[local] Abbreviation A := (8 * m).
Hypothesis Ha : bytes a.
Hypothesis Hm : 1 <= m /\ A < 2 ^ 30 /\ m + 4 <= max_bytes /\ m + 3 <= Z.of_nat (length a) /\ (32 <= length a)%nat.
#[local] Abbreviation M := (take (Z.to_nat m) a).
#[local] Abbreviation rest := (drop (Z.to_nat m) a).

Lemma attach_lengths : a = M ++ rest /\ length M = Z.to_nat m /\ Z.shiftr A 3 = m /\ A / 8 = m /\
  8 * Z.of_nat (length M) = A /\ (3 <= length rest)%nat.
Proof.
  split; [symmetry; apply take_drop|]. rewrite length_take, length_drop, Z.shiftr_div_pow2 by lia. change (2 ^ 3) with 8.
  rewrite (Z.mul_comm 8 m), Z.div_mul by lia. lia.
Qed.

Lemma attach_buffer : crc_buffer intel (M ++ rest) (8 * Z.of_nat (length M)).
Proof.
  destruct attach_lengths as (Ea & HM & _ & ED & EA & _). rewrite <- Ea, EA. split; [done|]. split; [lia|]. split.
  - replace ((A + 7) / 8) with m by (apply (Z.div_unique _ _ _ 7); lia). lia.
  - intros _ _. rewrite ED. unfold crc_reads. repeat cif; zbool; lia.
Qed.

(** The bytes [tail] of the CRC, written after the block. *)
Lemma attached ty poly tail : crcType 1 A = ty -> 0 <= poly < 2 ^ 32 ->
  gen poly = Z.shiftl (crc_generator ty) (32 - 8 * check_crc_len ty) -> bytes tail ->
  Z.of_nat (length tail) = check_crc_len ty ->
  be tail = Z.shiftr (crc_spec poly a A) (32 - 8 * check_crc_len ty) ->
  let a' := M ++ tail ++ drop (length tail) rest in
  bytes a' /\ length a' = length a /\ take (Z.to_nat m) a' = M /\ crc_valid a' (lenWithCrc 1 A) ty.
Proof.
  intros Hty Hp HG Ht Hl Hbe a'. destruct attach_lengths as (Ea & HM & _ & ED & EA & HR).
  destruct (lenWithCrc_1 A) as (EL & Hr & Hcl). rewrite Hty in *.
  assert (bytes (tail ++ drop (length tail) rest)) as HB by (apply Forall_app; split; [done|apply Forall_drop, Forall_drop, Ha]).
  assert (length (tail ++ drop (length tail) rest) = length rest) as HL by (rewrite length_app, !length_drop; rewrite length_drop in HR; lia).
  unfold a'. split; [apply Forall_app; split; [by apply Forall_take|done]|]. split; [rewrite length_app, HL, <- length_app, <- Ea; done|].
  split; [rewrite <- HM at 1; apply take_app_length|].
  destruct (crc_append intel ty poly M rest (tail ++ drop (length tail) rest) tail) as [OK EC]; try done; try lia.
  - apply attach_buffer.
  - rewrite <- Hl, Nat2Z.id. apply take_app_length.
  - by rewrite EA, <- Ea.
  - apply (crc_valid_check intel) in EC; [|done].
    by replace (8 * (Z.of_nat (length M) + check_crc_len ty)) with (lenWithCrc 1 A) in EC by lia.
Qed.

Lemma attach_crc_spec :
  exists a', attach_crc intel the_tables a A max_bytes = Done (a', lenWithCrc 1 A) /\ bytes a' /\ length a' = length a /\
    take (Z.to_nat m) a' = M /\ crc_valid a' (lenWithCrc 1 A) (crcType 1 A).
Proof.
  destruct attach_lengths as (Ea & HM & ES & ED & EA & HR). pose proof attach_buffer as CB. rewrite EA, <- Ea in CB.
  unfold attach_crc. rewrite ES, ED. unfold crcType, lenWithCrc. simpl (1 >? 1). cbv iota.
  destruct (A >? NR_MAX_PDSCH_TBS) eqn:EG.
  - rewrite (crc24a_ok intel _ _ CB). cbn [mbind outcome_bind]. set (v := Z.shiftr _ 8).
    pose proof (write_crc M rest m v HM ltac:(lia) HR) as EW. rewrite <- Ea in EW.
    apply outcome_bind_done in EW as (o1 & E1 & EW). apply outcome_bind_done in EW as (o2 & E2 & EW).
    rewrite E1. cbn [mbind outcome_bind]. rewrite E2. cbn [mbind outcome_bind]. rewrite EW. cbn [mbind outcome_bind].
    rewrite (proj2 (Z.leb_le (m + 4) max_bytes)) by lia. eexists. split; [done|].
    replace (A + 24) with (lenWithCrc 1 A) by (unfold lenWithCrc; simpl; by rewrite EG).
    apply (attached CRC24_A poly24a [byte_of v 2; byte_of v 1; byte_of v 0]).
    + unfold crcType. simpl. by rewrite EG.
    + unfold poly24a. lia.
    + done.
    + repeat constructor; apply byte_of_range.
    + done.
    + change (32 - 8 * check_crc_len CRC24_A) with 8. fold v. apply be_3. unfold v.
      apply (crc_aligned poly24a 0x1864cfb 8); [unfold poly24a; lia|apply CB|lia|lia|done].
  - rewrite (crc16_ok intel _ _ CB). cbn [mbind outcome_bind]. set (v := Z.shiftr _ 16).
    pose proof (write_crc2 M rest m v HM ltac:(lia) ltac:(lia)) as EW. rewrite <- Ea in EW.
    apply outcome_bind_done in EW as (o1 & E1 & EW).
    rewrite E1. cbn [mbind outcome_bind]. rewrite EW. cbn [mbind outcome_bind].
    rewrite (proj2 (Z.leb_le (m + 3) max_bytes)) by lia. eexists. split; [done|].
    replace (A + 16) with (lenWithCrc 1 A) by (unfold lenWithCrc; simpl; by rewrite EG).
    apply (attached CRC16 poly16 [byte_of v 1; byte_of v 0]).
    + unfold crcType. simpl. by rewrite EG.
    + unfold poly16. lia.
    + done.
    + repeat constructor; apply byte_of_range.
    + done.
    + change (32 - 8 * check_crc_len CRC16) with 16. fold v. apply be_2. unfold v.
      apply (crc_aligned poly16 0x11021 16); [unfold poly16; lia|apply CB|lia|lia|done].
Qed.
End Attach.

(** ** The UE sends the selected bits of its code blocks *)

(** An LDPC coder writes rm_N bits for a code block. *)
Class LdpcEncoder (ldpc_encode : Z -> Z -> Z -> Z -> list Z -> list Z) : Prop := {
  encode_length BG Zc K F c : Z.of_nat (length (ldpc_encode BG Zc K F c)) = Z.max 0 (rm_N BG Zc);
  encode_bits BG Zc K F c : Forall (fun b => b = 0 \/ b = 1) (ldpc_encode BG Zc K F c)
}.

Section Coding.
Context (ldpc_encode : Z -> Z -> Z -> Z -> list Z -> list Z) {ENC : LdpcEncoder ldpc_encode}.
Variables (BG Zc K F n : Z).
#[local] Abbreviation enc := (ldpc_encode BG Zc K F).

(** The buffer of the coded bits of a block. *)
Definition coded (c d : list Z) : list Z := enc c ++ drop (length (enc c)) d.

Definition row_ok (c d : list (list Z)) (i : nat) : Prop :=
  exists ci di, c !! i = Some ci /\ d !! i = Some di /\ rm_N BG Zc <= Z.of_nat (length di).

Definition rows_coded (lo hi : Z) (c d d' : list (list Z)) : Prop :=
  length d' = length d /\ forall i ci di, c !! i = Some ci -> d !! i = Some di ->
    d' !! i = Some (if (lo <=? Z.of_nat i) && (Z.of_nat i <? hi) then coded ci di else di).

Lemma encode_rows_spec k c d r : 0 <= r -> length c = length d ->
  (forall i, r <= Z.of_nat i < r + Z.of_nat k -> row_ok c d i) ->
  exists d', encode_rows ldpc_encode k BG Zc K F c d r = Done d' /\ rows_coded r (r + Z.of_nat k) c d d'.
Proof.
  revert d r. induction k as [|k IH]; intros d r Hr Hcd Hrow.
  - exists d. split; [done|]. split; [done|]. intros i ci di _ Hd. rewrite Hd. f_equal. cif; zbool; [lia|done].
  - cbn [encode_rows]. destruct (Hrow (Z.to_nat r)) as (ci & di & Ec & Ed & Hl); [lia|].
    rewrite (rd_done c r ci), (rd_done d r di) by (done || lia). cbn [mbind outcome_bind].
    pose proof (encode_length BG Zc K F ci) as HEL. rewrite blit_done by lia. cbn [mbind outcome_bind].
    change (take (Z.to_nat 0) di) with (@nil Z). rewrite app_nil_l. change (Z.to_nat 0 + length (enc ci))%nat with (length (enc ci)).
    fold (coded ci di). apply lookup_lt_Some in Ed as Hlt. rewrite wr_done by lia. cbn [mbind outcome_bind].
    destruct (IH (<[Z.to_nat r:=coded ci di]> d) (r + 1)) as (d' & E' & L' & R'); [lia|by rewrite length_insert| |].
    { intros i Hi. destruct (Hrow i) as (c1 & d1 & H1 & H2 & H3); [lia|]. exists c1, d1. rewrite list_lookup_insert_ne by lia. done. }
    exists d'. split; [done|]. rewrite length_insert in L'. split; [done|]. intros i c1 d1 H1 H2.
    destruct (Nat.eq_dec i (Z.to_nat r)) as [->|Hn].
    + specialize (R' (Z.to_nat r) ci (coded ci di) Ec). rewrite list_lookup_insert_eq in R' by lia. specialize (R' eq_refl). rewrite R'.
      rewrite Ec in H1. injection H1 as <-. rewrite Ed in H2. injection H2 as <-. f_equal.
      repeat cif; zbool; try done; repeat match goal with H : _ \/ _ |- _ => destruct H end; zbool; lia.
    + specialize (R' i c1 d1 H1). rewrite list_lookup_insert_ne in R' by done. rewrite (R' H2). f_equal.
      destruct ((r + 1 <=? Z.of_nat i) && (Z.of_nat i <? r + 1 + Z.of_nat k)) eqn:A1,
        ((r <=? Z.of_nat i) && (Z.of_nat i <? r + Z.of_nat (S k))) eqn:A2; zbool; try done;
        repeat match goal with H : _ \/ _ |- _ => destruct H end; zbool; lia.
Qed.

Lemma encode_macros_spec k c d j : 0 <= j -> 0 <= n -> length c = length d ->
  (forall i, Z.of_nat i < n -> row_ok c d i) ->
  exists d', encode_macros ldpc_encode k BG Zc K F n c d j = Done d' /\
    rows_coded (8 * j) (Z.min n (8 * (j + Z.of_nat k))) c d d'.
Proof.
  revert d j. induction k as [|k IH]; intros d j Hj Hn Hcd Hrow.
  - exists d. split; [done|]. split; [done|]. intros i ci di _ Hd. rewrite Hd. f_equal. cif; zbool; [lia|done].
  - cbn [encode_macros]. unfold LDPCencoder. set (hi := if n >? 8 * (j + 1) then 8 * (j + 1) else n).
    assert (hi = Z.min n (8 * (j + 1))) as Ehi by (unfold hi; cif; zbool; lia).
    destruct (encode_rows_spec (Z.to_nat (hi - 8 * j)) c d (8 * j)) as (d1 & -> & L1 & R1); [lia|done|intros i Hi; apply Hrow; lia|].
    cbn [mbind outcome_bind]. destruct (IH d1 (j + 1)) as (d' & E' & L' & R'); [lia|done|lia| |].
    { intros i Hi. destruct (Hrow i Hi) as (ci & di & H1 & H2 & H3). specialize (R1 i ci di H1 H2). eexists ci, _. split; [done|].
      split; [exact R1|]. cif; [|done]. unfold coded. rewrite length_app, length_drop. pose proof (encode_length BG Zc K F ci). lia. }
    exists d'. split; [done|]. split; [lia|]. intros i ci di H1 H2. specialize (R1 i ci di H1 H2). specialize (R' i ci _ H1 R1).
    rewrite R'. f_equal.
    destruct ((8 * (j + 1) <=? Z.of_nat i) && (Z.of_nat i <? Z.min n (8 * (j + 1 + Z.of_nat k)))) eqn:A1,
      ((8 * j <=? Z.of_nat i) && (Z.of_nat i <? 8 * j + Z.of_nat (Z.to_nat (hi - 8 * j)))) eqn:A2,
      ((8 * j <=? Z.of_nat i) && (Z.of_nat i <? Z.min n (8 * (j + Z.of_nat (S k))))) eqn:A3; zbool; try done;
      repeat match goal with H : _ \/ _ |- _ => destruct H end; zbool; lia.
Qed.

(** The fillers. *)
Definition nullified (d : list Z) : list Z :=
  let o := Z.to_nat (K - F - 2 * Zc) in take o d ++ replicate (Z.to_nat F) NR_NULL ++ drop (o + Z.to_nat F) d.

Lemma set_null_spec fuel d k lim : 0 <= k <= lim -> lim <= Z.of_nat (length d) -> lim - k < Z.of_nat fuel ->
  set_null fuel d k lim = Done (take (Z.to_nat k) d ++ replicate (Z.to_nat (lim - k)) NR_NULL ++ drop (Z.to_nat lim) d).
Proof.
  revert d k. induction fuel as [|fuel IH]; intros d k Hk Hn Hf; [lia|]. cbn [set_null]. cif; zbool.
  - rewrite wr_done by lia. cbn [mbind outcome_bind]. rewrite IH by (rewrite ?length_insert; lia). f_equal.
    replace (Z.to_nat (k + 1)) with (S (Z.to_nat k)) by lia. rewrite take_insert_S by lia. rewrite <- app_assoc. f_equal.
    replace (Z.to_nat (lim - k)) with (S (Z.to_nat (lim - (k + 1)))) by lia. simpl. do 2 f_equal. rewrite drop_insert_lt by lia. done.
  - assert (lim = k) as -> by lia. rewrite Z.sub_diag. simpl. by rewrite take_drop.
Qed.

Lemma set_null_nullified d : 0 <= F -> 0 <= K - F - 2 * Zc -> K - 2 * Zc <= Z.of_nat (length d) ->
  (if F >? 0 then set_null (S (length d)) d (K - F - 2 * Zc) (K - 2 * Zc) else Done d) = Done (nullified d).
Proof.
  intros HF Ho Hl. unfold nullified. cif; zbool.
  - rewrite set_null_spec by lia. replace (K - 2 * Zc - (K - F - 2 * Zc)) with F by lia. do 4 f_equal. lia.
  - assert (F = 0) as -> by lia. simpl. by rewrite Nat.add_0_r, take_drop.
Qed.

Lemma nullified_lookup d i : 0 <= F -> 0 <= K - F - 2 * Zc -> K - 2 * Zc <= Z.of_nat (length d) -> 0 <= i ->
  nullified d !! Z.to_nat i = if (K - F - 2 * Zc <=? i) && (i <? K - 2 * Zc) then Some NR_NULL else d !! Z.to_nat i.
Proof.
  intros HF Ho Hl Hi. unfold nullified. set (o := K - F - 2 * Zc) in *.
  assert (length (take (Z.to_nat o) d) = Z.to_nat o) as HT by (rewrite length_take; lia).
  destruct (Z.lt_ge_cases i o); [|destruct (Z.lt_ge_cases i (K - 2 * Zc))].
  - rewrite (proj2 (Z.leb_gt o i)) by lia. simpl. rewrite lookup_app_l by lia. apply lookup_take_lt. lia.
  - rewrite (proj2 (Z.leb_le o i)), (proj2 (Z.ltb_lt i (K - 2 * Zc))) by lia. simpl.
    rewrite lookup_app_r, lookup_app_l by (rewrite ?length_replicate; lia). apply lookup_replicate_2. lia.
  - rewrite (proj2 (Z.ltb_ge i (K - 2 * Zc))), andb_false_r by lia.
    rewrite lookup_app_r, lookup_app_r by (rewrite ?length_replicate; lia). rewrite lookup_drop, length_replicate. f_equal. lia.
Qed.

(** The coded bits of a block with its fillers: what rate matching assumes. *)
Lemma coded_fillers c d Ncb : 0 <= F -> 0 <= K - F - 2 * Zc -> K - 2 * Zc <= Ncb <= rm_N BG Zc -> rm_N BG Zc <= Z.of_nat (length d) ->
  fillers_ok Ncb F (K - F - 2 * Zc) (nullified (coded c d)).
Proof.
  intros HF Ho HN Hd. pose proof (encode_length BG Zc K F c) as HEL. pose proof (encode_bits BG Zc K F c) as HEB.
  assert (length (coded c d) = length d) as HLc by (unfold coded; rewrite length_app, length_drop; lia).
  split.
  - unfold nullified. rewrite !length_app, length_take, length_replicate, length_drop. lia.
  - intros i Hi. rewrite nullified_lookup by lia. destruct ((K - F - 2 * Zc <=? i) && (i <? K - 2 * Zc)) eqn:E; zbool.
    + split; [lia|done].
    + split; [|destruct E; zbool; lia]. intros Hx. exfalso. unfold coded in Hx. rewrite lookup_app_l in Hx by lia.
      apply (proj1 (Forall_lookup _ _) HEB) in Hx. unfold NR_NULL in Hx. lia.
Qed.
End Coding.

(** ** The transmitted bits *)

Section Transmission.
(** A transmission: what the two sides know of it, and the rows of the coded blocks. *)
Variables (pdu : pusch_pdu_t) (G C K Zc F Ncb k0 : Z) (rows : list (list Z)).
#[local] Abbreviation BG := (ldpcBaseGraph pdu).
#[local] Abbreviation Qm := (qam_mod_order pdu).
#[local] Abbreviation Nl := (nrOfLayers pdu).
#[local] Abbreviation Foffset := (K - F - 2 * Zc).
#[local] Abbreviation E r := (E_of G C Qm Nl r).
#[local] Abbreviation off r := (E_off G C Qm Nl r).
#[local] Abbreviation w r := (default [] (rows !! Z.to_nat r)).

Definition transmission : Prop :=
  0 <= G < 2 ^ 31 /\ 1 <= C < 256 /\ Qm_case Qm = true /\ 0 < Nl /\ length rows = Z.to_nat C /\ 2 * Zc <= K /\
  rm_ind BG Zc (rv_index pdu) Ncb (rm_N BG Zc) = Done k0 /\ 0 <= k0 < Ncb /\
  (forall r, 0 <= r < C -> rm_params (tbslbrm pdu) BG Zc C F Foffset (rv_index pdu) (E r) Ncb /\
                           fillers_ok Ncb F Foffset (nullified Zc K F (w r))).
Hypothesis HT : transmission.

(** The bit at position [p] of block [r] in the sequence that is sent. *)
Definition sent_bit (r p : Z) : option Z :=
  nullified Zc K F (w r) !! Z.to_nat (sel Ncb F Foffset k0 (perm Qm (E r / Qm) p)).

Lemma sizes r : 0 <= r < C -> 0 <= E r < 2 ^ 31 /\ E r mod Qm = 0 /\ 0 <= off r /\ off r + E r <= G /\ nr_get_E G C Qm Nl r = Done (E r) /\ off (r + 1) = off r + E r.
Proof.
  destruct HT as (HG & HC & HQ & HN & _). rewrite Qm_case_spec in HQ. intros Hr.
  destruct (E_of_facts G C Qm Nl HG HC ltac:(lia) r Hr) as (H1 & H2 & H3 & H4).
  split; [done|]. split; [done|]. split; [done|]. split; [done|]. split; [apply nr_get_E_spec|apply E_off_S]; lia.
Qed.

Lemma on_tail_done {R} buf o (k : list Z -> outcome (R * list Z)) x t : 0 <= o <= Z.of_nat (length buf) ->
  k (drop (Z.to_nat o) buf) = Done (x, t) -> on_tail buf o k = Done (x, take (Z.to_nat o) buf ++ t).
Proof.
  intros Ho Ek. unfold on_tail. rewrite (proj2 (Z.ltb_ge o 0)), (proj2 (Z.ltb_ge (Z.of_nat (length buf)) o)) by lia.
  simpl. by rewrite Ek.
Qed.

(** One block: its bits are sent in their place and what was sent before stays. *)
Lemma segment_step r e f : 0 <= r < C -> G <= Z.of_nat (length e) -> G <= Z.of_nat (length f) ->
  exists e' f',
    on_tail e (off r) (fun e => nr_rate_matching_ldpc (tbslbrm pdu) BG Zc (nullified Zc K F (w r)) e C F Foffset (rv_index pdu) (E r)) = Done (0, e') /\
    on_tail f (off r) (fun f => f ← nr_interleaving_ldpc 0 (E r) Qm (drop (Z.to_nat (off r)) e') f; Done (tt, f)) = Done (tt, f') /\
    length e' = length e /\ length f' = length f /\
    (forall p, 0 <= p < off r -> f' !! Z.to_nat p = f !! Z.to_nat p) /\
    (forall p, 0 <= p < E r -> f' !! Z.to_nat (off r + p) = sent_bit r p).
Proof.
  intros Hr He Hf. destruct (sizes r Hr) as (S1 & S2 & S3 & S4 & _ & _).
  destruct HT as (HG & HC & HQ & HN & _ & HZK & Ek0 & Hk0 & HR). destruct (HR r Hr) as [HP HW].
  destruct (rm_params_k0 _ _ _ _ _ _ _ _ _ HP) as (HF & _). destruct HP as (HBG & HZ & Hrv & HC0 & EN & _ & HFo & _ & _ & _).
  destruct (nr_rate_matching_tx_spec Ncb F Foffset k0 HF Hk0 (tbslbrm pdu) BG Zc (nullified Zc K F (w r)) (drop (Z.to_nat (off r)) e) C
              (rv_index pdu) (E r)) as (e1 & Et & Lt & St); try done; [lia|rewrite length_drop; lia|lia|].
  destruct (nr_interleaving_spec 0 (E r) Qm e1 (drop (Z.to_nat (off r)) f)) as (f1 & Ei & Li & Fi); try done; [lia|rewrite Lt, length_drop; lia|rewrite length_drop; lia|].
  exists (take (Z.to_nat (off r)) e ++ e1), (take (Z.to_nat (off r)) f ++ f1).
  assert (length (take (Z.to_nat (off r)) e) = Z.to_nat (off r)) as T1 by (rewrite length_take; lia).
  assert (length (take (Z.to_nat (off r)) f) = Z.to_nat (off r)) as T2 by (rewrite length_take; lia).
  split; [apply on_tail_done; [lia|done]|]. split.
  { apply on_tail_done; [lia|]. rewrite drop_app_ge, T1, Nat.sub_diag, drop_0 by lia. by rewrite Ei. }
  rewrite length_drop in Lt, Li. split; [rewrite length_app; lia|]. split; [rewrite length_app; lia|]. split.
  - intros p Hp. rewrite lookup_app_l by lia. apply lookup_take_lt. lia.
  - intros p Hp. rewrite lookup_app_r, T2 by lia. replace (Z.to_nat (off r + p) - Z.to_nat (off r))%nat with (Z.to_nat p) by lia.
    rewrite (Fi p Hp). rewrite Qm_case_spec in HQ. pose proof (Z.div_mod (E r) Qm ltac:(lia)) as D. rewrite S2, Z.add_0_r in D.
    assert (0 <= E r / Qm) as HEQ by (apply Z.div_pos; lia). pose proof (perm_range Qm (E r / Qm) ltac:(lia) HEQ p ltac:(lia)) as Hpr. rewrite (St (perm Qm (E r / Qm) p)) by lia. done.
Qed.

(** The state of the process when block [r] is next. *)
Definition sending (r : Z) (h : NR_UL_UE_HARQ_t) : Prop :=
  ue_C h = C /\ ue_K h = K /\ ue_Z h = Zc /\ ue_F h = F /\ ue_BG h = BG /\
  G <= Z.of_nat (length (ue_e h)) /\ G <= Z.of_nat (length (ue_f h)) /\
  (forall i, r <= i < C -> ue_d h !! Z.to_nat i = Some (w i) /\ K - 2 * Zc <= Z.of_nat (length (w i))) /\
  (forall i p, 0 <= i < r -> 0 <= p < E i -> ue_f h !! Z.to_nat (off i + p) = sent_bit i p).

Lemma sending_step r h : 0 <= r < C -> sending r h ->
  exists e f d, let h' := h <| ue_d := d |> <| ue_e := e |> <| ue_f := f |> in
    (forall ldk, ulsch_segments (S ldk) pdu G r (off r) h = ulsch_segments ldk pdu G (r + 1) (off (r + 1)) h') /\ sending (r + 1) h'.
Proof.
  intros Hr (EC & EK & EZ & EF & EB & He & Hf & Hd & Hs). destruct (sizes r Hr) as (S1 & S2 & S3 & S4 & SE & SO).
  pose proof HT as (HG & HC & HQ & HN & HL & HZK & Ek0 & Hk0 & HR). destruct (HR r Hr) as [HP HW].
  destruct (rm_params_k0 _ _ _ _ _ _ _ _ _ HP) as (HF & _). pose proof HP as (_ & HZ & _ & _ & _ & _ & HFo & HFN & _ & _).
  destruct (Hd r ltac:(lia)) as [Ed Hlen]. apply lookup_lt_Some in Ed as Hlt.
  destruct (segment_step r (ue_e h) (ue_f h) Hr He Hf) as (e' & f' & Ee & Ef & Le & Lf & F1 & F2).
  exists e', f', (<[Z.to_nat r:=nullified Zc K F (w r)]> (ue_d h)). split.
  - intros k. cbn [ulsch_segments]. rewrite (rd_done (ue_d h) r (w r)) by (done || lia). cbn [mbind outcome_bind]. rewrite EF, EK, EZ.
    rewrite set_null_nullified by lia. cbn [mbind outcome_bind]. rewrite wr_done by lia. cbn [mbind outcome_bind].
    unfold upd; simpl. rewrite EC, EF, EK, EZ, EB, SE. cbn [mbind outcome_bind].
    assert (u32 Foffset = Foffset) as -> by (unfold u32; apply Z.mod_small; lia).
    rewrite Ee. cbn [mbind outcome_bind]. simpl (0 =? -1). cbv iota. rewrite Ef. cbn [mbind outcome_bind]. rewrite SO.
    done.
  - unfold sending, upd; simpl. do 5 (split; [done|]). split; [lia|]. split; [lia|]. split.
    + intros i Hi. rewrite list_lookup_insert_ne by lia. apply Hd. lia.
    + intros i p Hi Hp. destruct (Z.eq_dec i r) as [->|Hn]; [by apply F2|]. rewrite F1; [apply Hs; lia|].
      destruct (sizes i ltac:(lia)) as (_ & _ & I3 & _ & _ & I6). pose proof HQ as HQ'. rewrite Qm_case_spec in HQ'.
      pose proof (E_off_mono G C Qm Nl ltac:(lia) ltac:(lia) ltac:(lia) (i + 1) r ltac:(lia)). lia.
Qed.

Lemma ulsch_segments_spec k r h : 0 <= r -> r + Z.of_nat k = C -> sending r h ->
  exists h', ulsch_segments k pdu G r (off r) h = Done (true, h') /\ sending C h'.
Proof.
  revert r h. induction k as [|k IH]; intros r h Hr Hk HS.
  - exists h. split; [done|]. by replace C with r by lia.
  - destruct (sending_step r h ltac:(lia) HS) as (e & f & d & E1 & S1). rewrite E1. apply IH; [lia|lia|done].
Qed.
End Transmission.
