(* ===== verification/UlSchLink.v ===== *)
(** The uplink shared channel from the UE to the gNB: what nr_ulsch_encoding sends is what nr_ulsch_decoding, the
    jobs of nr_processULSegment in any order and nr_postDecode put together, for an LDPC coder and kernels of a
    decoder that fit each other (the classes LdpcEncoder and LdpcKernels). *)

From S2P Require Import Prelude L2Common Tbs Gf2 CrcFold Crc Segmentation RateMatch UlSch.

(** ** The gNB decodes what was sent *)

(** A soft value for the coded bit [b]: with the right sign (positive for 0), or nothing known, which is possible
    outside the set [S] of the known positions. *)
Definition soft_ok (known : Prop) (b x : Z) : Prop :=
  (known -> x <> 0) /\ (x = 0 \/ (if b =? 0 then 0 < x else x < 0)).

(** The values given to the decoder for a codeword: fillers are sure, the other bits are soft. *)
Definition agrees (BG Zc K F : Z) (S : Z -> Prop) (cw l : list Z) : Prop :=
  Z.of_nat (length l) = rm_N BG Zc + 2 * Zc /\
  forall p b, 0 <= p < rm_N BG Zc -> cw !! Z.to_nat p = Some b ->
  exists x, l !! Z.to_nat (2 * Zc + p) = Some x /\
    if (K - F - 2 * Zc <=? p) && (p <? K - 2 * Zc) then x = 127 else soft_ok (S p) b x.

(** The filler bits of a block are zero. *)
Definition fillers_zero (K F : Z) (c : list Z) : Prop := forall i, K - F <= i < K -> block_bit c i = false.

(** What the kernels promise: the output buffer is as large as a code block, and from soft values without errors, of
    enough positions ([decodable]), the decisions are those of the coder from the third iteration on, the first one
    after which the decoder looks at them. *)
Class LdpcKernels (ldpc_encode : Z -> Z -> Z -> Z -> list Z -> list Z)
    (decisions : Z -> Z -> Z -> Z -> list Z -> Z -> list Z)
    (decodable : Z -> Z -> Z -> Z -> Z -> Z -> (Z -> Prop) -> Prop) : Prop := {
  decisions_buffer BG Zc rv E l it : bytes (decisions BG Zc rv E l it) /\ (1056 <= length (decisions BG Zc rv E l it))%nat;
  decisions_right BG Zc rv E K F c l S it :
    BG = 1 \/ BG = 2 -> 1 <= Zc <= 384 -> K = (if BG =? 1 then 22 else 10) * Zc -> 0 <= F <= K - 2 * Zc ->
    bytes c -> K / 8 <= Z.of_nat (length c) -> fillers_zero K F c -> decodable BG Zc rv E K F S ->
    agrees BG Zc K F S (ldpc_encode BG Zc K F c) l -> 3 <= it ->
    take (Z.to_nat (K / 8)) (decisions BG Zc rv E l it) = take (Z.to_nat (K / 8)) c
}.

(** ** The loop of the decoder *)

Section Decoder.
Variables (intel : bool) (T : crc_tables) (decisions : Z -> Z -> Z -> Z -> list Z -> Z -> list Z) (job : ldpcDecode_t) (len ty : Z) (l : list Z).
#[local] Abbreviation out it := (decisions (job_BG job) (job_Z job) (job_rv job) (job_E job) l it).

(** A block that is right after three iterations is accepted then, if three are allowed. *)
Lemma decoder_accepts : 3 <= numMaxIter job -> check_crc intel T (out 3) len ty = Done 1 ->
  LDPCdecoder intel T decisions job len ty l false = Done (3, out 3, false).
Proof.
  intros Hm E. unfold LDPCdecoder. destruct (Z.to_nat (numMaxIter job)) as [|[|k]] eqn:En; [lia|lia|].
  cbn [nrLDPC_decoder_core]. rewrite (proj2 (Z.leb_le 1 _)) by lia. change (1 + 1) with 2. change (2 <? 2) with false. cbv iota.
  rewrite (proj2 (Z.leb_le 2 _)) by lia. change (2 + 1) with 3. change (2 <? 3) with true. cbv iota.
  rewrite E. cbn [mbind outcome_bind Z.eqb negb]. by rewrite (proj2 (Z.ltb_ge _ _)) by lia.
Qed.

(** With one or two iterations allowed every block is given up, and with it the transport block. *)
Lemma decoder_gives_up : 1 <= numMaxIter job <= 2 -> (forall it, exists v, check_crc intel T (out it) len ty = Done v) ->
  exists p_out it, LDPCdecoder intel T decisions job len ty l false = Done (it, p_out, true) /\ numMaxIter job < it.
Proof.
  intros Hm E. unfold LDPCdecoder. assert (numMaxIter job = 1 \/ numMaxIter job = 2) as [En|En] by lia; rewrite En.
  - change (S (Z.to_nat 1)) with 2%nat. cbn [nrLDPC_decoder_core]. rewrite En. eexists _, _. split; [reflexivity|]. lia.
  - change (S (Z.to_nat 2)) with 3%nat. cbn [nrLDPC_decoder_core]. rewrite En. change (1 <=? 2) with true. change (1 + 1) with 2.
    change (2 <? 2) with false. change (2 <=? 2) with true. change (2 + 1) with 3. change (2 <? 3) with true. cbv iota.
    destruct (E 3) as [v ->]. cbn [mbind outcome_bind]. destruct (v =? 0); cbn [negb]; eexists _, _; (split; [reflexivity|lia]).
Qed.
End Decoder.

(** The buffers of the decoder are large enough for the check of the CRC. *)
Lemma check_ok_block intel out n ty : 0 <= ty <= 3 -> n mod 8 = 0 -> 8 * check_crc_len ty <= n <= 8448 -> 1 <= check_crc_len ty ->
  bytes out -> (1056 <= length out)%nat -> check_ok intel out n ty.
Proof.
  intros Ht Hm Hn Hc Hb Hl. unfold check_ok, crc_buffer. set (k := n - 8 * check_crc_len ty) in *.
  assert (0 <= k <= 8440) by (unfold k; lia).
  assert (n / 8 <= 1056) by (change 1056 with (8448 / 8); apply Z.div_le_mono; lia).
  assert ((k + 7) / 8 <= 1056) by (apply Z.div_le_upper_bound; lia).
  assert (k / 8 <= 1056) by (change 1056 with (8448 / 8); apply Z.div_le_mono; lia).
  split; [done|]. split; [done|]. split; [lia|]. split; [lia|]. split; [done|]. split; [lia|]. split; [lia|].
  intros _ _. unfold crc_reads. repeat cif; lia.
Qed.

Section Reception.
Context (ldpc_encode : Z -> Z -> Z -> Z -> list Z -> list Z) {ENC : LdpcEncoder ldpc_encode}.
Context (decisions : Z -> Z -> Z -> Z -> list Z -> Z -> list Z) (decodable : Z -> Z -> Z -> Z -> Z -> Z -> (Z -> Prop) -> Prop).
Context {DEC : LdpcKernels ldpc_encode decisions decodable}.
Variables (intel : bool) (pdu : pusch_pdu_t) (G C K Zc F k0 A max_iter n : Z) (cs rows : list (list Z)) (g : Z -> Z) (llr : list Z).
#[local] Abbreviation BG := (ldpcBaseGraph pdu).
#[local] Abbreviation Qm := (qam_mod_order pdu).
#[local] Abbreviation Nl := (nrOfLayers pdu).
#[local] Abbreviation Ncb := (rm_N BG Zc).
#[local] Abbreviation Foffset := (K - F - 2 * Zc).
#[local] Abbreviation E r := (E_of G C Qm Nl r).
#[local] Abbreviation off r := (E_off G C Qm Nl r).
#[local] Abbreviation times r p := (hits Ncb F Foffset k0 (Z.to_nat (E r)) p).
#[local] Abbreviation Kc := (if BG =? 2 then 52 else 68).

(** The code blocks and their coded bits, the soft values that arrive. *)
Definition blocks_sent : Prop :=
  transmission pdu G C K Zc F Ncb k0 rows /\ K = (if BG =? 1 then 22 else 10) * Zc /\ 3 <= max_iter /\
  (lenWithCrc C A <= K /\ forall out, bytes out -> (1056 <= length out)%nat -> check_ok intel out (lenWithCrc C A) (crcType C A)) /\
  forall r, 0 <= r < C -> exists c d, cs !! Z.to_nat r = Some c /\
    rows !! Z.to_nat r = Some (coded ldpc_encode BG Zc K F c d) /\ Ncb <= Z.of_nat (length d) /\
    bytes c /\ K / 8 <= Z.of_nat (length c) /\ fillers_zero K F c /\ crc_valid c (lenWithCrc C A) (crcType C A).
Definition soft_received : Prop :=
  0 < g 0 /\ g 1 < 0 /\ G <= Z.of_nat (length llr) /\
  (forall r p, 0 <= r < C -> 0 <= p < E r -> llr !! Z.to_nat (off r + p) = g <$> sent_bit pdu G C K Zc F Ncb k0 rows r p) /\
  (forall r p, 0 <= r < C -> 0 <= p < Ncb -> times r p * g 0 < 2 ^ 15 /\ - 2 ^ 15 <= times r p * g 1) /\
  (forall r, 0 <= r < C -> decodable BG Zc (rv_index pdu) (E r) K F (fun p => 1 <= times r p)).
Hypothesis HB : blocks_sent.
Hypothesis HS : soft_received.

Lemma sat8_sign x : (x = 0 -> sat8 x = 0) /\ (0 < x -> 0 < sat8 x) /\ (x < 0 -> sat8 x < 0).
Proof. unfold sat8. lia. Qed.

(** The circular buffer of a block after its reception. *)
Lemma soft_block r dr : 0 <= r < C -> Ncb <= Z.of_nat (length dr) ->
  exists e dr', nr_deinterleaving_ldpc (E r) Qm (replicate (Z.to_nat (E r)) 0) (drop (Z.to_nat (off r)) llr) = Done e /\
    nr_rate_matching_ldpc_rx (tbslbrm pdu) BG Zc dr e C (rv_index pdu) 1 (E r) F Foffset = Done (0, dr') /\
    length dr' = length dr /\
    forall c p b, cs !! Z.to_nat r = Some c -> 0 <= p < Ncb -> ldpc_encode BG Zc K F c !! Z.to_nat p = Some b ->
      ~ Foffset <= p < Foffset + F -> exists x, dr' !! Z.to_nat p = Some x /\ soft_ok (1 <= times r p) b x.
Proof.
  intros Hr Hdr. destruct HB as (HT & EK & _ & _ & HBl). destruct HS as (Hg0 & Hg1 & HL & Hll & Hh & _).
  destruct (sizes pdu G C K Zc F Ncb k0 rows HT r Hr) as (S1 & S2 & S3 & S4 & _ & _).
  pose proof HT as (HG & HC & HQ & HN & _ & HZK & Ek0 & Hk0 & HR). destruct (HR r Hr) as [HP HW].
  destruct (rm_params_k0 _ _ _ _ _ _ _ _ _ HP) as (HF & _). destruct HP as (HBG & HZ & Hrv & HC0 & EN & _ & HFo & _ & _ & _).
  destruct (nr_deinterleaving_spec (E r) Qm (replicate (Z.to_nat (E r)) 0) (drop (Z.to_nat (off r)) llr)) as (e & Ee & Le & Pe);
    [done|lia|done|rewrite length_replicate; lia|rewrite length_drop; lia|].
  rewrite length_replicate in Le.
  pose proof (nr_rate_matching_rx_spec Ncb F Foffset k0 HF Hk0 (tbslbrm pdu) BG Zc dr e C (rv_index pdu) 1 (E r) HC0 EN Ek0 Hdr
                ltac:(lia)) as Er. simpl in Er.
  eexists e, _. split; [done|]. split; [exact Er|].
  split; [rewrite length_combined, length_app, length_replicate, length_drop; lia|]. intros c p b Ec Hp Hb Hnf.
  destruct (HBl r Hr) as (c' & d & Ec' & Ed & Hd & _). rewrite Ec' in Ec. injection Ec as ->. rewrite Ed in HW. simpl in HW.
  assert (nullified Zc K F (coded ldpc_encode BG Zc K F c d) !! Z.to_nat p = Some b) as Hw.
  { rewrite nullified_lookup; [|lia|lia| |lia].
    - destruct ((Foffset <=? p) && (p <? K - 2 * Zc)) eqn:Ef; zbool; [exfalso; lia|]. unfold coded. rewrite lookup_app_l; [done|]. by apply lookup_lt_Some in Hb.
    - unfold coded. rewrite length_app, length_drop. pose proof (encode_length BG Zc K F c). lia. }
  assert (b = 0 \/ b = 1) as Hb01 by (apply (proj1 (Forall_lookup _ _) (encode_bits BG Zc K F c)) in Hb; done).
  exists (times r p * g b). pose proof (hits_nonneg Ncb F Foffset k0 (Z.to_nat (E r)) p) as Hpos. destruct (Hh r p Hr Hp) as [Hmax Hmin]. split.
  - eapply combined_value with (w := nullified Zc K F (coded ldpc_encode BG Zc K F c d)); try done.
    + rewrite length_app, length_replicate, length_drop. lia.
    + intros q Hq. rewrite lookup_app_l by (rewrite length_replicate; lia). apply lookup_replicate_2. lia.
    + intros j Hj. rewrite Qm_case_spec in HQ. pose proof (Z.div_mod (E r) Qm ltac:(lia)) as D. rewrite S2, Z.add_0_r in D.
      destruct (perm_surj Qm (E r / Qm) ltac:(lia) j ltac:(lia)) as (q & Hq & <-). rewrite (Pe q) by lia.
      rewrite lookup_drop. replace (Z.to_nat (off r) + Z.to_nat q)%nat with (Z.to_nat (off r + q)) by lia.
      rewrite (Hll r q) by lia. unfold sent_bit. by rewrite Ed.
    + destruct Hb01 as [->| ->]; nia.
  - split; [destruct Hb01 as [->| ->]; nia|]. destruct (Z.eq_dec (times r p) 0) as [->|]; [by left|right].
    destruct Hb01 as [->| ->]; simpl; nia.
Qed.

(** The values that are given to the decoder. *)
Lemma llr_vector_agrees r dr c : 0 <= r < C -> cs !! Z.to_nat r = Some c -> Ncb <= Z.of_nat (length dr) ->
  (forall p b, 0 <= p < Ncb -> ldpc_encode BG Zc K F c !! Z.to_nat p = Some b ->
      ~ Foffset <= p < Foffset + F -> exists x, dr !! Z.to_nat p = Some x /\ soft_ok (1 <= times r p) b x) ->
  exists l, llr_vector dr Zc K F Kc = Done l /\ agrees BG Zc K F (fun p => 1 <= times r p) (ldpc_encode BG Zc K F c) l.
Proof.
  intros Hr Ec Hdr Hx. destruct HB as (HT & EK & _ & _ & HBl). pose proof HT as (_ & _ & _ & _ & _ & HZK & _ & _ & HR). destruct (HR r Hr) as [HP _].
  destruct (rm_params_k0 _ _ _ _ _ _ _ _ _ HP) as (HF & _). destruct HP as (HBG & HZ & _ & _ & _ & _ & HFo & _ & _ & _).
  assert (Kc * Zc = Ncb + 2 * Zc) as EKc by (unfold rm_N; destruct HBG as [-> | ->]; simpl; lia).
  unfold llr_vector. rewrite EKc, !slice_done by lia. cbn [mbind outcome_bind]. eexists. split; [done|]. split.
  - rewrite length_map, !length_app, !length_replicate, !length_take, !length_drop. lia.
  - intros p b Hp Hb. rewrite list_lookup_fmap, lookup_app_r by (rewrite length_replicate; lia). rewrite length_replicate.
    replace (Z.to_nat (2 * Zc + p) - Z.to_nat (2 * Zc))%nat with (Z.to_nat p) by lia. rewrite drop_0.
    destruct (Z.lt_ge_cases p Foffset) as [H1|H1]; [|destruct (Z.lt_ge_cases p (K - 2 * Zc)) as [H2|H2]].
    + rewrite (proj2 (Z.leb_gt Foffset p)) by lia. cbn [andb]. rewrite lookup_app_l by (rewrite length_take; lia). rewrite lookup_take_lt by lia.
      destruct (Hx p b Hp Hb ltac:(lia)) as (x & -> & K1 & K2). eexists. split; [done|]. pose proof (sat8_sign x). revert K2. unfold soft_ok. cif; lia.
    + rewrite (proj2 (Z.leb_le Foffset p)), (proj2 (Z.ltb_lt p (K - 2 * Zc))) by lia. cbn [andb].
      rewrite lookup_app_r, lookup_app_l by (rewrite ?length_take, ?length_replicate; lia).
      rewrite lookup_replicate_2 by (rewrite length_take; lia). eexists. split; [done|]. reflexivity.
    + rewrite (proj2 (Z.ltb_ge p (K - 2 * Zc))), andb_false_r by lia.
      rewrite lookup_app_r, lookup_app_r by (rewrite ?length_take, ?length_replicate; lia). rewrite length_take, length_replicate, lookup_take_lt, lookup_drop by lia.
      replace (Z.to_nat (K - 2 * Zc) + (Z.to_nat p - Z.to_nat Foffset `min` length dr - Z.to_nat F))%nat with (Z.to_nat p) by lia.
      destruct (Hx p b Hp Hb ltac:(lia)) as (x & -> & K1 & K2). eexists. split; [done|]. pose proof (sat8_sign x). revert K2. unfold soft_ok. cif; lia.
Qed.

Definition job_of (r : Z) : ldpcDecode_t :=
  mk_job BG Zc max_iter Kc r (E r) A Qm (off r) (Z.shiftr K 3) (rv_index pdu) (r * n) (tbslbrm pdu) 0.

(** The process agrees with the transmission. *)
Definition same_sizes (h : NR_UL_gNB_HARQ_t) : Prop := gC h = C /\ gK h = K /\ gZ h = Zc /\ gF h = F.

(** A buffer with the bytes of the block has its CRC. *)
Lemma same_crc c out : check_ok intel out (lenWithCrc C A) (crcType C A) -> lenWithCrc C A <= K ->
  crc_valid c (lenWithCrc C A) (crcType C A) -> take (Z.to_nat (K / 8)) out = take (Z.to_nat (K / 8)) c ->
  check_crc intel the_tables out (lenWithCrc C A) (crcType C A) = Done 1.
Proof.
  intros Hck HlK Hcv Hout. apply crc_valid_check; [done|]. unfold crc_valid in *.
  replace (take (Z.to_nat (lenWithCrc C A / 8)) out) with (take (Z.to_nat (lenWithCrc C A / 8)) c); [done|].
  assert (lenWithCrc C A / 8 <= K / 8) by (apply Z.div_le_mono; lia).
  apply (f_equal (take (Z.to_nat (lenWithCrc C A / 8)))) in Hout. rewrite !take_take in Hout.
  by replace (Z.to_nat (lenWithCrc C A / 8) `min` Z.to_nat (K / 8))%nat with (Z.to_nat (lenWithCrc C A / 8)) in Hout by lia.
Qed.

Lemma process_block r h dr crow c : 0 <= r < C -> same_sizes h -> abort_decode h = false ->
  gd h !! Z.to_nat r = Some dr -> Ncb <= Z.of_nat (length dr) -> d_to_be_cleared h !! Z.to_nat r = Some true ->
  gc h !! Z.to_nat r = Some crow -> K / 8 <= Z.of_nat (length crow) -> cs !! Z.to_nat r = Some c ->
  exists it dr', it <= max_iter /\
    nr_processULSegment intel the_tables decisions llr (job_of r) h =
      Done (job_of r <| decodeIterations := it |>,
            h <| gd := <[Z.to_nat r:=dr']> (gd h) |> <| d_to_be_cleared := <[Z.to_nat r:=false]> (d_to_be_cleared h) |>
              <| gc := <[Z.to_nat r:=take (Z.to_nat (K / 8)) c ++ drop (Z.to_nat (K / 8)) crow]> (gc h) |>).
Proof.
  intros Hr (EC & EKh & EZ & EF) Eab Ed Hdr Ecl Ecr Hcr Ec.
  destruct (soft_block r dr Hr Hdr) as (e & dr' & Ee & Erx & Lr & Hsoft).
  destruct (llr_vector_agrees r dr' c Hr Ec ltac:(lia) (fun p b => Hsoft c p b Ec)) as (l & El & Hag).
  pose proof HB as (HT & EK & Hmi & (HlK & Hck) & HBl). pose proof HS as (_ & _ & HL & _ & _ & Hdec).
  destruct (sizes pdu G C K Zc F Ncb k0 rows HT r Hr) as (S1 & S2 & S3 & S4 & _ & _).
  pose proof HT as (_ & _ & _ & _ & _ & HZK & _ & _ & HR). destruct (HR r Hr) as [HP _].
  destruct (rm_params_k0 _ _ _ _ _ _ _ _ _ HP) as (HF & _). destruct HP as (HBG & HZ & _ & _ & _ & _ & HFo & _ & _ & _).
  destruct (HBl r Hr) as (c' & d & Ec' & _ & _ & Hbc & Hlc & Hfz & Hcv). rewrite Ec' in Ec. injection Ec as ->.
  destruct (decisions_buffer BG Zc (rv_index pdu) (E r) l 3) as [Hbo Hlo].
  pose proof (decisions_right BG Zc (rv_index pdu) (E r) K F c l (fun p => 1 <= times r p) 3 HBG HZ EK ltac:(lia) Hbc Hlc Hfz
    (Hdec r Hr) Hag ltac:(lia)) as Hout.
  pose proof (decoder_accepts intel the_tables decisions (job_of r) (lenWithCrc C A) (crcType C A) l Hmi) as Edec.
  cbn [job_of job_BG job_Z job_rv job_E] in Edec. set (out := decisions BG Zc (rv_index pdu) (E r) l 3) in *.
  specialize (Edec (same_crc c out (Hck out Hbo Hlo) HlK Hcv Hout)).
  assert (K / 8 <= 1056) by (change 1056 with (8448 / 8); apply Z.div_le_mono; [lia|]; rewrite EK; cif; lia).
  exists 3, dr'. split; [done|]. unfold nr_processULSegment. set (job := job_of r) in *.
  change (segment_r job) with r. change (job_r_offset job) with (off r). change (job_E job) with (E r). change (job_Qm job) with Qm.
  change (job_tbslbrm job) with (tbslbrm pdu). change (job_BG job) with BG. change (job_Z job) with Zc. change (job_rv job) with (rv_index pdu).
  change (job_Kc job) with Kc. change (numMaxIter job) with max_iter. change (job_A job) with A.
  rewrite (proj2 (Z.ltb_ge (off r) 0)), (proj2 (Z.ltb_ge (Z.of_nat (length llr)) (off r))) by lia. cbn [orb].
  rewrite Ee. cbn [mbind outcome_bind]. rewrite (rd_done (gd h) r dr) by (done || lia). cbn [mbind outcome_bind].
  rewrite (rd_done (d_to_be_cleared h) r true) by (done || lia). cbn [mbind outcome_bind b2z]. rewrite EC, EF, EKh.
  assert (u32 Foffset = Foffset) as -> by (unfold u32; apply Z.mod_small; lia). rewrite Erx. cbn [mbind outcome_bind].
  apply lookup_lt_Some in Ed, Ecl. rewrite wr_done by lia. cbn [mbind outcome_bind]. change (0 =? -1) with false. cbv iota.
  unfold upd; simpl. rewrite wr_done by lia. cbn [mbind outcome_bind]. rewrite (rd_done (gc h) r crow) by (done || lia). cbn [mbind outcome_bind].
  assert (Z.shiftr K 3 = K / 8) as EK8 by (rewrite Z.shiftr_div_pow2 by lia; done). rewrite EK8 in *.
  assert (0 <= K / 8) by (apply Z.div_pos; lia).
  rewrite EKh, EK8, blit_done by (rewrite ?length_replicate; lia). cbn [mbind outcome_bind]. rewrite EZ, EF, El. cbn [mbind outcome_bind].
  rewrite EC, Eab, Edec. cbn [mbind outcome_bind]. rewrite (proj2 (Z.leb_le 3 max_iter) Hmi), slice_done by lia. cbn [mbind outcome_bind].
  rewrite blit_done by (rewrite ?length_app, ?length_take, ?length_drop, ?length_replicate; lia). cbn [mbind outcome_bind].
  apply lookup_lt_Some in Ecr. rewrite wr_done by lia. cbn [mbind outcome_bind]. rewrite drop_0, Hout.
  rewrite length_take, length_replicate. change (Z.to_nat 0) with 0%nat. rewrite !take_0, !Nat.add_0_l. simpl app.
  rewrite drop_app_ge, length_replicate by (rewrite length_replicate; lia).
  replace (Z.to_nat (K / 8) `min` length c - Z.to_nat (K / 8))%nat with 0%nat by lia. by rewrite drop_0.
Qed.

(** The data bytes of the blocks that are done are in their place. *)
Definition collected (done : list Z) (b : list Z) : Prop :=
  forall r c i, r ∈ done -> cs !! Z.to_nat r = Some c -> 0 <= i < n -> b !! Z.to_nat (r * n + i) = c !! Z.to_nat i.

(** The state of the process when the blocks [done] are decoded, in any order. *)
Definition receiving (done : list Z) (h : NR_UL_gNB_HARQ_t) : Prop :=
  same_sizes h /\ abort_decode h = false /\ processedSegments h = Z.of_nat (length done) /\
  bytes (gb h) /\ C * n <= Z.of_nat (length (gb h)) /\ (32 <= length (gb h))%nat /\
  (forall r, 0 <= r < C -> exists crow, gc h !! Z.to_nat r = Some crow /\ K / 8 <= Z.of_nat (length crow)) /\
  (forall r, 0 <= r < C -> r ∉ done -> d_to_be_cleared h !! Z.to_nat r = Some true /\
     exists dr, gd h !! Z.to_nat r = Some dr /\ Ncb <= Z.of_nat (length dr)) /\
  collected done (gb h).

Hypothesis Hn : n = K / 8 - F / 8 - (if C >? 1 then 3 else 0) /\ 0 <= n.
(** A transport block that is complete has a right CRC. *)
Hypothesis Hcrc : forall done b, (forall r, 0 <= r < C -> r ∈ done) -> bytes b -> C * n <= Z.of_nat (length b) -> (32 <= length b)%nat -> collected done b ->
  1 < C -> check_crc intel the_tables b (lenWithCrc 1 A) (crcType 1 A) = Done 1.

Lemma collect_step done b r c : collected done b -> 0 <= r < C -> cs !! Z.to_nat r = Some c -> r ∉ done ->
  C * n <= Z.of_nat (length b) -> n <= Z.of_nat (length c) -> Forall (fun r => 0 <= r) done ->
  collected (r :: done) (take (Z.to_nat (r * n)) b ++ take (Z.to_nat n) c ++ drop (Z.to_nat (r * n) + Z.to_nat n) b).
Proof.
  intros HC0 Hr Ec Hnd Hl Hlc Hpos r' c' i Hr' Ec' Hi. assert (r * n + n <= Z.of_nat (length b)) as Hfit by nia.
  assert (length (take (Z.to_nat (r * n)) b) = Z.to_nat (r * n)) as T1 by (rewrite length_take; nia).
  assert (length (take (Z.to_nat n) c) = Z.to_nat n) as T2 by (rewrite length_take; lia).
  apply elem_of_cons in Hr' as [->|Hr'].
  - rewrite Ec in Ec'. injection Ec' as <-. rewrite lookup_app_r, lookup_app_l by nia. rewrite lookup_take_lt by nia. f_equal. nia.
  - rewrite <- (HC0 r' c' i Hr' Ec' Hi). assert (0 <= r') by (by apply (proj1 (Forall_forall _ _) Hpos)).
    assert (r' <> r) by (intros ->; done). destruct (Z.lt_ge_cases r' r).
    + assert (r' * n + i < r * n) by nia. rewrite lookup_app_l by nia. apply lookup_take_lt. nia.
    + assert (r * n + n <= r' * n + i) by nia. rewrite lookup_app_r, lookup_app_r by nia. rewrite lookup_drop. f_equal. nia.
Qed.

Lemma all_done done : NoDup done -> Forall (fun r => 0 <= r < C) done -> C <= Z.of_nat (length done) -> forall x, 0 <= x < C -> x ∈ done.
Proof.
  intros Hd Hr Hl x Hx. assert (done ≡ₚ seqZ 0 C) as ->; [|apply elem_of_seqZ; lia].
  apply submseteq_length_Permutation; [|rewrite length_seqZ; lia].
  apply NoDup_submseteq; [done|]. intros y Hy. apply elem_of_seqZ. apply (proj1 (Forall_forall _ _) Hr) in Hy. lia.
Qed.

(** The next block, decoded and collected. *)
Lemma receive_block r done h : receiving done h -> 0 <= r < C -> r ∉ done -> Forall (fun r => 0 <= r < C) done -> NoDup done ->
  exists job h1 h', nr_processULSegment intel the_tables decisions llr (job_of r) h = Done (job, h1) /\
    nr_postDecode intel the_tables false job h1 =
      Done (h', if Z.of_nat (length done) + 1 =? C then Some true else None) /\ receiving (r :: done) h'.
Proof.
  intros (HZ & Eab & EP & HBb & HBl & HB32 & Hc & Hd & Hcol) Hr Hnd Hrg Hdup.
  pose proof HB as (HT & EK & _ & _ & HBk). pose proof HT as (_ & HC & _ & _ & _ & HZK & _ & _ & HR). destruct (HR r Hr) as [HP _].
  destruct (rm_params_k0 _ _ _ _ _ _ _ _ _ HP) as (HF & _). pose proof HP as (_ & HZc & _).
  destruct (Hc r Hr) as (crow & Ecrow & Hcrow). destruct (Hd r Hr Hnd) as (Ecl & dr & Edr & Hdr).
  destruct (HBk r Hr) as (c & _ & Ec & _ & _ & Hbc & Hlc & _).
  destruct (process_block r h dr crow c Hr HZ Eab Edr Hdr Ecl Ecrow Hcrow Ec) as (it & dr' & Hit & Ep).
  match type of Ep with _ = Done (?j, ?h1) => set (hh := h1) in Ep; exists j, hh end. rewrite Ep.
  assert (Z.of_nat (length done) < C) as Hlt.
  { destruct (Nat.le_gt_cases (Z.to_nat C) (length done)); [|lia]. exfalso. apply Hnd. apply all_done; done || lia. }
  assert (C * n <= Z.of_nat (length (gb h)) -> r * n + n <= Z.of_nat (length (gb h))) as Hfit by nia. specialize (Hfit HBl).
  assert (0 <= K / 8 /\ 0 <= F / 8) as [HK8 HF8] by (split; apply Z.div_pos; lia).
  assert (n <= K / 8) as HnK by (destruct Hn as [Hn' _]; revert Hn'; cif; lia).
  pose proof HZ as (EC & EKh & EZ & EF). cut (exists h', nr_postDecode intel the_tables false (job_of r <| decodeIterations := it |>) hh =
      Done (h', if Z.of_nat (length done) + 1 =? C then Some true else None) /\ receiving (r :: done) h').
  { intros (h' & H1 & H2). exists h'. done. }
  unfold hh. unfold nr_postDecode, job_of, upd; simpl.
  rewrite (proj2 (Z.leb_le it max_iter) Hit). set (cr := take (Z.to_nat (K / 8)) c ++ drop (Z.to_nat (K / 8)) crow).
  rewrite (rd_done _ r cr) by (lia || apply list_lookup_insert_eq; by apply lookup_lt_Some in Ecrow). cbn [mbind outcome_bind].
  rewrite EC, EF, !Z.shiftr_div_pow2 by lia. change (2 ^ 3) with 8. rewrite <- (proj1 Hn).
  assert (length cr = length crow) as Lcr by (unfold cr; rewrite length_app, length_take, length_drop; lia).
  rewrite slice_done by lia. cbn [mbind outcome_bind]. rewrite drop_0.
  assert (take (Z.to_nat n) cr = take (Z.to_nat n) c) as -> by (unfold cr; rewrite take_app_le, take_take by (rewrite length_take; lia); f_equal; lia).
  assert (length (take (Z.to_nat n) c) = Z.to_nat n) as Ltn by (rewrite length_take; lia).
  rewrite blit_done by nia. cbn [mbind outcome_bind]. rewrite Ltn, EP. unfold add32, u32. rewrite Z.mod_small by lia.
  set (b' := take (Z.to_nat (r * n)) (gb h) ++ _).
  assert (length b' = length (gb h)) as Lb by (unfold b'; rewrite !length_app, length_take, length_drop, Ltn; nia).
  assert (bytes b') as Bb by (unfold b'; apply Forall_app; split; [by apply Forall_take|]; apply Forall_app; split; [by apply Forall_take|by apply Forall_drop]).
  assert (collected (r :: done) b') as Cb.
  { apply collect_step; try done; [lia|]. eapply Forall_impl; [exact Hrg|]. simpl. lia. }
  assert (forall rd', receiving (r :: done) (mk_gnb_harq b' (<[Z.to_nat r:=cr]> (gc h)) (<[Z.to_nat r:=dr']> (gd h))
            (<[Z.to_nat r:=false]> (d_to_be_cleared h)) C (gK h) (gZ h) F (TBS h) rd' (harq_to_be_cleared h)
            (Z.of_nat (length done) + 1) (abort_decode h))) as HRec.
  { intros rd'. split; [done|]. split; [done|]. split; [simpl; lia|]. split; [done|]. simpl. rewrite Lb. split; [done|]. split; [done|]. split; [|split].
    - intros r' Hr'. destruct (Z.eq_dec r' r) as [->|].
      + exists cr. rewrite list_lookup_insert_eq by (by apply lookup_lt_Some in Ecrow). rewrite Lcr. done.
      + rewrite list_lookup_insert_ne by lia. by apply Hc.
    - intros r' Hr' Hn'. apply not_elem_of_cons in Hn' as [Hne Hnd']. rewrite !list_lookup_insert_ne by lia. by apply Hd.
    - done. }
  cbn [processedSegments gC gb gc gd d_to_be_cleared gK gZ gF TBS harq_to_be_cleared abort_decode].
  destruct (Z.of_nat (length done) + 1 =? C) eqn:ECnt; zbool; [|eexists; split; [reflexivity|apply HRec]].
  assert (forall x, 0 <= x < C -> x ∈ r :: done) as Hall by (apply all_done; simpl; [by constructor|by constructor|lia]).
  destruct (C >? 1) eqn:EC1; zbool.
  - rewrite (Hcrc (r :: done) b' Hall Bb ltac:(lia) ltac:(lia) Cb) by lia. cbn [mbind outcome_bind]. rewrite Eab. eexists. split; [reflexivity|]. specialize (HRec 0). rewrite Eab in HRec. exact HRec.
  - cbn [mbind outcome_bind]. rewrite Eab. eexists. split; [reflexivity|]. specialize (HRec 0). rewrite Eab in HRec. exact HRec.
Qed.

Lemma run_jobs_spec rs : forall fin h rep, receiving fin h -> NoDup (rs ++ fin) -> Forall (fun r => 0 <= r < C) (rs ++ fin) ->
  rs <> [] -> Z.of_nat (length rs + length fin) = C ->
  exists h', run_jobs intel the_tables decisions false llr (map job_of rs) h rep = Done (h', Some true) /\ receiving (rev rs ++ fin) h'.
Proof.
  induction rs as [|r rs IH]; intros fin h rep HRc Hd Hf Hne Hl; [done|]. cbn [map run_jobs]. rewrite <- app_comm_cons in Hd, Hf.
  apply NoDup_cons in Hd as [Hnin Hd]. apply Forall_cons in Hf as [Hr Hf]. pose proof Hd as (_ & _ & Hdd)%NoDup_app.
  destruct (receive_block r fin h HRc Hr) as (job & h1 & h' & -> & E2 & HRc'); [intros Hx; apply Hnin, elem_of_app; by right|by apply Forall_app in Hf as [_ ?]|done|].
  cbn [mbind outcome_bind]. rewrite E2. cbn [mbind outcome_bind]. simpl in Hl. cbn [rev]. rewrite <- app_assoc. cbn [app].
  destruct rs as [|r2 rs].
  - rewrite (proj2 (Z.eqb_eq _ C)) by (simpl in Hl; lia). exists h'. done.
  - apply IH; [done| | |done|simpl in *; lia].
    + rewrite <- Permutation_middle. by constructor.
    + rewrite <- Permutation_middle. by constructor.
Qed.

(** The thread pool may finish the blocks in any order. *)
Lemma run_jobs_any_order jobs h : receiving [] h -> jobs ≡ₚ map job_of (seqZ 0 C) ->
  exists h' done, run_jobs intel the_tables decisions false llr jobs h None = Done (h', Some true) /\
    receiving done h' /\ forall r, 0 <= r < C -> r ∈ done.
Proof.
  intros HR0 Hp. pose proof HB as ((_ & HC & _) & _). apply Permutation_map_inv in Hp as (rs & -> & Hrs). symmetry in Hrs.
  assert (NoDup rs) as Hnd by (rewrite Hrs; apply NoDup_seqZ).
  assert (Forall (fun r => 0 <= r < C) rs) as Hrg by (rewrite Hrs; apply Forall_forall; intros x Hx%elem_of_seqZ; lia).
  pose proof (Permutation_length Hrs) as Hl. rewrite length_seqZ in Hl.
  destruct (run_jobs_spec rs [] h None HR0) as (h' & E1 & HR1); rewrite ?app_nil_r; try done; [intros ->; simpl in Hl; lia|simpl; lia|].
  rewrite app_nil_r in HR1. exists h', (rev rs). split; [done|]. split; [done|]. intros r Hr. rewrite <- (Permutation_rev rs), Hrs. apply elem_of_seqZ. lia.
Qed.
End Reception.

(** ** From the UE to the gNB *)

(** A new transport block of [m] bytes, its transmission and what both sides compute of it: the parameters [s] of
    the segmentation, within the limits of the two sides and with the whole circular buffer in use. *)
Record link_ok (intel : bool) (pdu : pusch_pdu_t) (m G max_iter : Z) (s : seg_result) : Prop := mk_link {
  link_new : new_data_indicator pdu = true;
  link_tb : 1 <= m /\ 8 * m < 2 ^ 30 /\ m + 4 <= 34 * nrOfLayers pdu * 1056;
  link_BG : ldpcBaseGraph pdu = 1 \/ ldpcBaseGraph pdu = 2;
  link_exact : exact (lenWithCrc 1 (8 * m)) (ldpcBaseGraph pdu);
  link_mod : Qm_case (qam_mod_order pdu) = true /\ 1 <= nrOfLayers pdu /\ 0 <= rv_index pdu <= 3;
  link_G : 0 <= G < 2 ^ 31;
  link_iter : 3 <= max_iter;
  link_seg : nr_segmentation intel the_tables None (lenWithCrc 1 (8 * m)) (ldpcBaseGraph pdu) 0 0 0 = Done s;
  link_C : sr_C s <= 34 * nrOfLayers pdu /\ sr_C s < 256 /\
           (rb_size pdu <> 273 -> sr_C s <= u16 (u16 (34 * nrOfLayers pdu * rb_size pdu) / 273 + 1));
  link_Ncb : rm_Ncb (tbslbrm pdu) (sr_C s) (rm_N (ldpcBaseGraph pdu) (sr_Zout s)) = rm_N (ldpcBaseGraph pdu) (sr_Zout s);
  link_E : 0 <= sr_K s - sr_F s - 2 * sr_Zout s /\
           forall r, 0 <= r < sr_C s -> sr_K s - sr_F s - 2 * sr_Zout s <= E_of G (sr_C s) (qam_mod_order pdu) (nrOfLayers pdu) r
}.

(** The filler bits that the segmentation does not write: there are some only when K is not a multiple of 8. *)
Definition tail_clear (K : Z) (out : list Z) : Prop := forall b, 8 * (K / 8) <= b < K -> block_bit out b = false.

Definition ue_ready (m G C : Z) (h : NR_UL_UE_HARQ_t) : Prop :=
  bytes (payload_AB h) /\ m + 3 <= Z.of_nat (length (payload_AB h)) /\ (32 <= length (payload_AB h))%nat /\
  Forall (fun out => bytes out /\ (1056 <= length out)%nat) (ue_c h) /\ C <= Z.of_nat (length (ue_c h)) /\
  length (ue_d h) = length (ue_c h) /\ Forall (fun d => 25344 <= Z.of_nat (length d)) (ue_d h) /\
  G <= Z.of_nat (length (ue_e h)) /\ G <= Z.of_nat (length (ue_f h)).

Definition gnb_ready (m C : Z) (h : NR_UL_gNB_HARQ_t) : Prop :=
  harq_to_be_cleared h = true /\ C <= Z.of_nat (length (d_to_be_cleared h)) /\
  C <= Z.of_nat (length (gc h)) /\ Forall (fun c => (1056 <= length c)%nat) (gc h) /\
  C <= Z.of_nat (length (gd h)) /\ Forall (fun d => 25344 <= Z.of_nat (length d)) (gd h) /\
  bytes (gb h) /\ m + 3 <= Z.of_nat (length (gb h)) /\ (32 <= length (gb h))%nat.

Section Link.
Context (ldpc_encode : Z -> Z -> Z -> Z -> list Z -> list Z) {ENC : LdpcEncoder ldpc_encode}.
Variables (intel : bool) (pdu : pusch_pdu_t) (m G max_iter : Z) (s : seg_result).
Hypothesis LK : link_ok intel pdu m G max_iter s.
#[local] Abbreviation BG := (ldpcBaseGraph pdu).
#[local] Abbreviation Qm := (qam_mod_order pdu).
#[local] Abbreviation Nl := (nrOfLayers pdu).
#[local] Abbreviation B := (lenWithCrc 1 (8 * m)).
#[local] Abbreviation C := (sr_C s).
#[local] Abbreviation K := (sr_K s).
#[local] Abbreviation Zc := (sr_Zout s).
#[local] Abbreviation F := (sr_F s).
#[local] Abbreviation N := (rm_N BG Zc).
#[local] Abbreviation n := ((K - F - (if C >? 1 then 24 else 0)) / 8).

Lemma link_B : 0 <= B < 2 ^ 31 /\ m + 2 <= B / 8 <= m + 3.
Proof.
  destruct LK as [_ (H1 & H2 & _) _ _ _ _ _ _ _ _ _]. destruct (lenWithCrc_1 (8 * m)) as (-> & _ & Hc).
  replace (8 * m + 8 * check_crc_len (crcType 1 (8 * m))) with ((m + check_crc_len (crcType 1 (8 * m))) * 8) by lia. rewrite Z.div_mul by lia. lia.
Qed.

(** The two sides have the same parameters, and the blocks of the UE. *)
Lemma link_params input outs : bytes input -> B / 8 <= Z.of_nat (length input) ->
  Forall (fun out => bytes out /\ (1056 <= length out)%nat) outs -> C <= Z.of_nat (length outs) ->
  (K = (if BG =? 1 then 22 else 10) * Zc /\ 1 <= Zc <= 384 /\ 1 <= C /\ 0 <= F /\ K <= 8448) /\
  (K - F) mod 8 = 0 /\ 0 <= n /\ B / 8 = C * n /\ (1 < C -> B + 24 * C = C * (K - F) /\ 24 <= K - F) /\
  (C = 1 -> B = K - F) /\
  (forall K0 Z0 F0, nr_segmentation intel the_tables None B BG K0 Z0 F0 = Done s) /\
  exists outs', (forall K0 Z0 F0, nr_segmentation intel the_tables (Some (input, outs)) B BG K0 Z0 F0 = Done (mk_seg (seg_ret s) C K Zc F outs')) /\
    length outs' = length outs /\
    forall i, (i < Z.to_nat C)%nat -> exists out', outs' !! i = Some out' /\ bytes out' /\ (1056 <= length out')%nat /\
      take (Z.to_nat n) out' = take (Z.to_nat n) (drop (Z.to_nat (Z.of_nat i * n)) input) /\
      (C > 1 -> check_crc intel the_tables out' (K - F) CRC24_B = Done 1) /\
      (Forall (tail_clear K) outs -> fillers_zero K F out').
Proof.
  intros Hin Hil Houts HCl. destruct LK as [_ _ HBG HE _ _ _ Es _ _ _]. pose proof (proj1 link_B) as HB.
  assert (C = seg_C B (seg_Kcb BG)) as EC.
  { destruct (nr_segmentation_eq B BG HB HBG) as (zc & K' & _ & _ & _ & HSeg). rewrite HSeg in Es. simpl in Es. by injection Es as <-. }
  rewrite EC in HCl. destruct (seg_code_blocks intel input outs B BG HB HBG HE Hin Hil Houts HCl) as (zc & K' & outs' & HL & EK & HK & HN & HS & Lo & HCB).
  destruct (exact_split B BG HB HBG HE) as (Hm8 & HLK & EB & EB8). pose proof (seg_C_pos B BG HB HBG) as (HC1 & HC2 & HLv & HL1 & HL2).
  rewrite HN in Es. injection Es as <-. cbn [sr_C sr_K sr_Zout sr_F seg_ret] in *. clear EC.
  set (C1 := seg_C B (seg_Kcb BG)) in *. set (L := seg_L B (seg_Kcb BG)) in *. set (Kp := seg_Bprime B (seg_Kcb BG) / C1) in *.
  assert ((if C1 >? 1 then 24 else 0) = L) as EL by (cif; zbool; lia). replace (K' - (K' - Kp)) with Kp by lia. rewrite EL.
  destruct HL as (Hzc & _). apply lifting_range in Hzc.
  split; [lia|]. split; [done|]. split; [apply Z.div_pos; lia|]. split; [done|]. split; [nia|]. split; [intros; nia|]. split; [intros; apply HN|].
  exists outs'. split; [intros; apply HS|]. split; [done|]. intros i Hi. destruct (HCB i Hi) as (out & out' & Eo & Eo' & CB). pose proof CB as (C1' & C2' & C3' & C4' & _).
  exists out'. pose proof (proj1 (Forall_lookup _ _) Houts _ _ Eo) as [_ Hlen]. rewrite C2'. split_and!; try done.
  intros Hcl b Hb. pose proof (proj1 (Forall_lookup _ _) Hcl _ _ Eo) as Ht.
  rewrite (filler_bits _ _ _ _ _ _ _ _ _ CB) by lia. cif; zbool; [done|]. apply Ht. lia.
Qed.

(** The length with CRC that the gNB gives to the decoder is that of the block. *)
Lemma link_block_length : 1 <= C -> (1 < C -> B + 24 * C = C * (K - F)) -> (C = 1 -> B = K - F) -> lenWithCrc C (8 * m) = K - F.
Proof.
  intros HC1 HC2 HC. destruct (Z.eq_dec C 1) as [E1|Hne]; [rewrite E1; by apply HC|]. specialize (HC2 ltac:(lia)).
  unfold lenWithCrc at 1. rewrite (proj2 (Z.gtb_lt C 1)) by lia. destruct LK as [_ (Hm & _) HBG _ _ _ _ Es _ _ _].
  assert (8 * m > NR_MAX_PDSCH_TBS) as HA.
  { pose proof (proj1 link_B) as HB. destruct (nr_segmentation_eq B BG HB HBG) as (zc & K' & _ & _ & _ & HSeg). rewrite HSeg in Es. simpl in Es.
    pose proof (seg_C_pos B BG HB HBG) as (_ & _ & _ & HL1 & HL2). assert (C = seg_C B (seg_Kcb BG)) as EC by (by injection Es as <-).
    assert (seg_Kcb BG < B) as HBK by lia. assert (3840 <= seg_Kcb BG) by (unfold seg_Kcb; cif; lia).
    unfold lenWithCrc in HBK. simpl in HBK. revert HBK. cif; zbool; unfold NR_MAX_PDSCH_TBS in *; lia. }
  replace (8 * m + 24 + 24 * C) with (B + 24 * C) by (unfold lenWithCrc; simpl; rewrite (proj2 (Z.gtb_lt _ _)) by lia; lia).
  rewrite HC2, Z.mul_comm. apply Z.quot_mul. lia.
Qed.

(** The CRC of a block can be checked. *)
Lemma block_check_ok out : (1 < C -> B + 24 * C = C * (K - F) /\ 24 <= K - F) -> (C = 1 -> B = K - F) -> 1 <= C -> 0 <= F -> K <= 8448 ->
  (K - F) mod 8 = 0 -> bytes out -> (1056 <= length out)%nat -> check_ok intel out (K - F) (crcType C (8 * m)).
Proof.
  intros HC2 HC1 HC HF HK Hm8 Hb Hl. destruct (Z.eq_dec C 1) as [EC|Hne].
  - destruct (lenWithCrc_1 (8 * m)) as (EB & Hty & Hlen). pose proof LK as [_ (Hm1 & _) _ _ _ _ _ _ _ _ _].
    specialize (HC1 EC). rewrite EC. apply check_ok_block; try done; lia.
  - destruct (HC2 ltac:(lia)) as [_ H24]. unfold crcType. rewrite (proj2 (Z.gtb_lt C 1)) by lia.
    apply check_ok_block; try done; change (check_crc_len CRC24_B) with 3; unfold CRC24_B; lia.
Qed.

Lemma block_crc_valid c a' i : bytes c -> (1056 <= length c)%nat -> bytes a' -> crc_valid a' B (crcType 1 (8 * m)) ->
  (K = (if BG =? 1 then 22 else 10) * Zc /\ 1 <= Zc <= 384 /\ 1 <= C /\ 0 <= F /\ K <= 8448) ->
  (K - F) mod 8 = 0 -> (1 < C -> B + 24 * C = C * (K - F) /\ 24 <= K - F) -> (C = 1 -> B = K - F) -> B / 8 = C * n ->
  (i < Z.to_nat C)%nat -> take (Z.to_nat n) c = take (Z.to_nat n) (drop (Z.to_nat (Z.of_nat i * n)) a') ->
  (C > 1 -> check_crc intel the_tables c (K - F) CRC24_B = Done 1) ->
  crc_valid c (lenWithCrc C (8 * m)) (crcType C (8 * m)).
Proof.
  intros Hbc Hlc Hba Hva HK Hm8 HC2 HC1 Hn Hi Htk Hck. rewrite link_block_length by (try lia; intros; by apply HC2).
  destruct (Z.eq_dec C 1) as [EC|Hne].
  - specialize (HC1 EC). rewrite EC in *. simpl in Htk, Hn. replace i with 0%nat in Htk by lia. simpl in Htk. rewrite drop_0 in Htk. unfold crc_valid.
    replace ((K - F) / 8) with ((K - F - 0) / 8) by (f_equal; lia). rewrite Htk. unfold crc_valid in Hva. rewrite HC1 in Hva. by rewrite Z.sub_0_r.
  - assert (1 < C) as H1 by lia. destruct (HC2 H1) as [_ H24]. unfold crcType. rewrite (proj2 (Z.gtb_lt C 1)) by lia.
    apply (crc_valid_check intel); [|apply Hck; lia].
    apply check_ok_block; try done; change (check_crc_len CRC24_B) with 3; unfold CRC24_B; lia.
Qed.

Lemma rm_N_bounds bg zc k : bg = 1 \/ bg = 2 -> k = (if bg =? 1 then 22 else 10) * zc -> 1 <= zc <= 384 -> rm_N bg zc <= 25344 /\ k - 2 * zc < rm_N bg zc.
Proof. unfold rm_N. intros [->| ->] ->; simpl; lia. Qed.

Lemma ulsch_new_block_eq h a' outs d' :
  attach_crc intel the_tables (payload_AB h) (8 * m) (34 * Nl * 1056) = Done (a', B) ->
  nr_segmentation intel the_tables (Some (a', ue_c h)) B BG (ue_K h) (ue_Z h) (ue_F h) = Done (mk_seg (seg_ret s) C K Zc F outs) ->
  0 <= C <= 34 * Nl -> encode_macros ldpc_encode (Z.to_nat (C / 8 + 1)) BG Zc K F C outs (ue_d h) 0 = Done d' ->
  ulsch_new_block intel the_tables ldpc_encode pdu (8 * m) h =
    Done (true, mk_ue_harq a' outs d' (ue_e h) (ue_f h) C K Zc F BG).
Proof.
  intros Ea ES HC Ed. unfold ulsch_new_block, MAX_NUM_NR_ULSCH_SEGMENTS_PER_LAYER, MAX_NUM_NR_DLSCH_SEGMENTS_PER_LAYER.
  rewrite Ea. cbn [mbind outcome_bind upd payload_AB ue_c ue_d ue_e ue_f ue_C ue_K ue_Z ue_F ue_BG eta_ue_harq]. rewrite ES.
  cbn [mbind outcome_bind upd payload_AB ue_c ue_d ue_e ue_f ue_C ue_K ue_Z ue_F ue_BG eta_ue_harq sr_out sr_C sr_K sr_Zout sr_F].
  rewrite Z.gtb_ltb, (proj2 (Z.ltb_ge (36 * Nl) C)) by lia. rewrite Ed. reflexivity.
Qed.

(** The UE: the blocks are coded and everything is in place for rate matching. *)
Lemma new_block_sent h : ue_ready m G C h -> Forall (tail_clear K) (ue_c h) ->
  exists h1 cs rows a' k0, ulsch_new_block intel the_tables ldpc_encode pdu (8 * m) h = Done (true, h1) /\
    blocks_sent ldpc_encode intel pdu G C K Zc F k0 (8 * m) max_iter cs rows /\ sending pdu G C K Zc F N k0 rows 0 h1 /\
    bytes a' /\ take (Z.to_nat m) a' = take (Z.to_nat m) (payload_AB h) /\ m + 3 <= Z.of_nat (length a') /\ crc_valid a' B (crcType 1 (8 * m)) /\
    forall i, (i < Z.to_nat C)%nat -> exists c, cs !! i = Some c /\ take (Z.to_nat n) c = take (Z.to_nat n) (drop (Z.to_nat (Z.of_nat i * n)) a').
Proof.
  intros (Hab & Hlab & H32 & Hc & HCc & Hdc & Hd & He & Hf) Hcl. pose proof LK as [_ (Hm1 & Hm2 & Hm3) HBG _ (HQ & HN & Hrv) HG Hmi _ HCs HNcb (HFo & HFE)].
  destruct (attach_crc_spec intel (payload_AB h) m (34 * Nl * 1056) Hab ltac:(lia)) as (a' & Ea & Ba & La & Ta & Va).
  destruct link_B as [HB HB8]. 
  destruct (link_params a' (ue_c h) Ba ltac:(lia) Hc HCc) as (HK & Hm8 & Hn0 & HBn & HC2 & HC1 & _ & outs & ES & Lo & Ho).
  pose proof HK as (EK & HZ & HCp & HF & HK8).
  assert (rm_N BG Zc <= 25344 /\ K - 2 * Zc < N) as [HN25 HKN] by (by apply rm_N_bounds).
  destruct (encode_macros_spec ldpc_encode BG Zc K F C (Z.to_nat (C / 8 + 1)) outs (ue_d h) 0) as (d' & Ed & Ld & Rd); [lia|lia|lia| |].
  { intros i Hi. destruct (Ho i ltac:(lia)) as (c & Ec & _). destruct (lookup_lt_is_Some_2 (ue_d h) i ltac:(lia)) as [di Edi].
    exists c, di. split; [done|]. split; [done|]. apply (proj1 (Forall_lookup _ _) Hd) in Edi. lia. }
  assert (Z.min C (8 * (0 + Z.of_nat (Z.to_nat (C / 8 + 1)))) = C) as Emin.
  { pose proof (Z.div_mod C 8 ltac:(lia)). pose proof (Z.mod_pos_bound C 8 ltac:(lia)). lia. }
  rewrite Emin in Rd. change (8 * 0) with 0 in Rd. set (rows := take (Z.to_nat C) d').
  assert (forall r, 0 <= r < C -> exists c d, outs !! Z.to_nat r = Some c /\ d' !! Z.to_nat r = Some (coded ldpc_encode BG Zc K F c d) /\
    rows !! Z.to_nat r = Some (coded ldpc_encode BG Zc K F c d) /\ N <= Z.of_nat (length d) /\ bytes c /\ K / 8 <= Z.of_nat (length c) /\
    fillers_zero K F c /\ crc_valid c (lenWithCrc C (8 * m)) (crcType C (8 * m))) as Hrows.
  { intros r Hr. destruct (Ho (Z.to_nat r) ltac:(lia)) as (c & Ec & Bc & Lc & Tc & Kc & Fc).
    destruct (lookup_lt_is_Some_2 (ue_d h) (Z.to_nat r) ltac:(lia)) as [d Edi]. exists c, d. specialize (Rd _ _ _ Ec Edi).
    rewrite (proj2 (Z.leb_le 0 _)), (proj2 (Z.ltb_lt _ C)) in Rd by lia. simpl in Rd.
    apply (proj1 (Forall_lookup _ _) Hd) in Edi. split; [done|]. split; [done|]. split; [unfold rows; by rewrite lookup_take_lt by lia|].
    split; [lia|]. split; [done|]. split; [pose proof (Z.div_le_mono K 8448 8 ltac:(lia) ltac:(lia)) as M; change (8448 / 8) with 1056 in M; lia|]. split; [by apply Fc|].
    by apply (block_crc_valid c a' (Z.to_nat r)); try done; lia. }
  assert (forall r, 0 <= r < C -> rm_params (tbslbrm pdu) BG Zc C F (K - F - 2 * Zc) (rv_index pdu) (E_of G C Qm Nl r) N) as HP.
  { intros r Hr. rewrite Qm_case_spec in HQ. destruct (E_of_facts G C Qm Nl HG ltac:(lia) ltac:(lia) r Hr) as ([_ HE31] & _). specialize (HFE r Hr).
    split; [done|]. split; [lia|]. split; [lia|]. split; [lia|]. split; [by symmetry|]. split; [done|]. split; [lia|]. split; [lia|]. split; [|lia].
    lia. }
  destruct (rm_params_k0 _ _ _ _ _ _ _ _ _ (HP 0 ltac:(lia))) as (_ & k0 & Ek0 & Hk0).
  assert (transmission pdu G C K Zc F N k0 rows) as HT.
  { split; [done|]. split; [lia|]. split; [done|]. split; [lia|]. split; [unfold rows; rewrite length_take; lia|]. split; [lia|].
    split; [done|]. split; [done|]. intros r Hr. split; [by apply HP|]. destruct (Hrows r Hr) as (c & d & _ & _ & -> & HNd & _). simpl.
    apply coded_fillers; [done|lia|lia|lia|lia]. }
  exists (mk_ue_harq a' outs d' (ue_e h) (ue_f h) C K Zc F BG), outs, rows, a', k0. split; [|split; [|split]].
  - apply (ulsch_new_block_eq h a' outs d'); [done|apply ES|lia|done].
  - split; [done|]. split; [done|]. split; [done|]. split; [|intros r Hr; destruct (Hrows r Hr) as (c & d & Q1 & _ & Q3 & Q4); exists c, d; done].
    rewrite link_block_length by (try lia; intros; by apply HC2). split; [lia|]. intros out. apply block_check_ok; try done; lia.
  - repeat (split; [done|]). simpl. split; [|intros; lia]. intros i Hi. destruct (Hrows i Hi) as (c & d & _ & Q2 & Q3 & Q4 & _). rewrite Q3. simpl. split; [done|].
    unfold coded. rewrite length_app, length_drop. pose proof (encode_length BG Zc K F c). lia.
  - split; [done|]. split; [done|]. split; [lia|]. split; [done|]. intros i Hi. destruct (Ho i Hi) as (c & Ec & _ & _ & Tc & _). eauto.
Qed.

(** The gNB: the jobs of the blocks, and the process ready to receive. *)
Lemma mark_cleared_spec k : forall l r, 0 <= r -> r + Z.of_nat k <= Z.of_nat (length l) ->
  exists l', mark_cleared k l r = Done l' /\ forall i, r <= i < r + Z.of_nat k -> l' !! Z.to_nat i = Some true.
Proof.
  induction k as [|k IH]; intros l r Hr Hl; [exists l; split; [done|lia]|]. cbn [mark_cleared]. rewrite wr_done by lia. cbn [mbind outcome_bind].
  destruct (IH (<[Z.to_nat r:=true]> l) (r + 1)) as (l' & E' & H'); [lia|rewrite length_insert; lia|].
  exists l'. split; [done|]. intros i Hi. destruct (Z.eq_dec i r) as [->|]; [|apply H'; lia].
  assert (forall k l r q x l', mark_cleared k l r = Done l' -> 0 <= q < r -> l !! Z.to_nat q = Some x -> l' !! Z.to_nat q = Some x) as Hkeep.
  { clear. induction k as [|k IH]; intros l r q x l' E Hq Hx; [by injection E as <-|]. cbn [mark_cleared] in E. unfold wr in E.
    destruct (r <? 0); [done|]. destruct (r <? Z.of_nat (length l)); [|done]. apply (IH _ _ _ _ _ E); [lia|]. by rewrite list_lookup_insert_ne by lia. }
  apply (Hkeep _ _ _ r true _ E'); [lia|]. apply list_lookup_insert_eq. lia.
Qed.

Lemma make_jobs_spec h k : forall r, same_sizes C K Zc F h -> 0 <= r -> r + Z.of_nat k = C -> 1 <= C ->
  Z.shiftr K 3 - Z.shiftr F 3 - (if C >? 1 then 3 else 0) = n ->
  make_jobs k h pdu G (8 * m) max_iter r (E_off G C Qm Nl r) (r * n) = Done (map (job_of pdu G C K Zc (8 * m) max_iter n) (seqZ r (Z.of_nat k))).
Proof.
  pose proof LK as [_ _ _ _ (HQ & HN & _) HG _ _ HCs _ _]. rewrite Qm_case_spec in HQ.
  induction k as [|k IH]; intros r HS Hr Hk HC Hn; [done|]. cbn [make_jobs]. pose proof HS as (EC & EK & EZ & EF).
  rewrite EC, EK, EF, EZ, nr_get_E_spec by lia. cbn [mbind outcome_bind]. rewrite Hn, <- E_off_S by lia.
  replace (r * n + n) with ((r + 1) * n) by lia. rewrite (IH (r + 1)) by (done || lia). cbn [mbind outcome_bind].
  rewrite (seqZ_cons r (Z.of_nat (S k))) by lia. cbn [map]. rewrite <- Z.add_1_r. by replace (Z.pred (Z.of_nat (S k))) with (Z.of_nat k) by lia.
Qed.

Lemma n_shift : (K - F) mod 8 = 0 -> Z.shiftr K 3 - Z.shiftr F 3 - (if C >? 1 then 3 else 0) = n.
Proof.
  intros Hm. rewrite !Z.shiftr_div_pow2 by lia. change (2 ^ 3) with 8. pose proof (Z.div_mod (K - F) 8 ltac:(lia)) as D.
  set (j := (K - F) / 8) in *. replace K with (F + j * 8) by lia. rewrite Z.div_add by lia.
  replace (F + j * 8 - F - (if C >? 1 then 24 else 0)) with ((j - (if C >? 1 then 3 else 0)) * 8) by (cif; lia). rewrite Z.div_mul; lia.
Qed.

Lemma decoding_prepared hg cs : gnb_ready m C hg ->
  (K = (if BG =? 1 then 22 else 10) * Zc /\ 1 <= Zc <= 384 /\ 1 <= C /\ 0 <= F /\ K <= 8448) -> (K - F) mod 8 = 0 ->
  B / 8 = C * n -> (forall K0 Z0 F0, nr_segmentation intel the_tables None B BG K0 Z0 F0 = Done s) ->
  exists h1, nr_ulsch_decoding intel the_tables pdu m G max_iter hg =
      Done (C, map (job_of pdu G C K Zc (8 * m) max_iter n) (seqZ 0 C), h1) /\ receiving pdu C K Zc F n cs [] h1.
Proof.
  intros (Hcl & Hlcl & Hlc & Hc & Hld & Hd & Hb & Hlb & H32) HK Hm8 HBn ES. pose proof HK as (EK & HZ & HC & HF & HK8).
  pose proof LK as [_ (Hm1 & Hm2 & _) HBG _ (HQ & HN & _) HG _ _ (HC1 & HC2 & HC3) _ _]. destruct (link_B) as [_ HB8].
  assert (u32 (Z.shiftl m 3) = 8 * m) as EA by (rewrite Z.shiftl_mul_pow2 by lia; unfold u32; rewrite Z.mod_small; lia).
  destruct (mark_cleared_spec (Z.to_nat C) (d_to_be_cleared hg) 0) as (l & El & Hl); [lia|lia|].
  destruct (rm_N_bounds BG Zc K HBG EK HZ) as [HN25 _].
  exists (mk_gnb_harq (gb hg) (gc hg) (gd hg) l C K Zc F m (round hg) false 0 false). split.
  - unfold nr_ulsch_decoding, MAX_NUM_NR_ULSCH_SEGMENTS_PER_LAYER. rewrite EA, ES.
    cbn [mbind outcome_bind upd gb gc gd d_to_be_cleared gC gK gZ gF TBS round harq_to_be_cleared processedSegments abort_decode eta_gnb_harq].
    rewrite (Z.gtb_ltb C (34 * Nl)), (proj2 (Z.ltb_ge (34 * Nl) C)) by lia.
    assert ((C >? (if negb (rb_size pdu =? 273) then u16 (u16 (34 * Nl * rb_size pdu) / 273 + 1) else 34 * Nl)) = false) as ->.
    { rewrite Z.gtb_ltb. apply Z.ltb_ge. cif; zbool; [by apply HC3|lia]. }
    rewrite Hcl, El. cbn [mbind outcome_bind upd gb gc gd d_to_be_cleared gC gK gZ gF TBS round harq_to_be_cleared processedSegments abort_decode eta_gnb_harq].
    pose proof (make_jobs_spec (mk_gnb_harq (gb hg) (gc hg) (gd hg) l C K Zc F m (round hg) false 0 false) (Z.to_nat C) 0) as EJ.
    rewrite Z2Nat.id in EJ by lia. rewrite E_off_0, Z.mul_0_l in EJ by (rewrite ?Qm_case_spec in HQ; lia). rewrite EJ; [done|done|lia|lia|lia|by apply n_shift].
  - split; [done|]. split; [done|]. split; [done|]. split; [done|]. cbn [gb gc gd d_to_be_cleared]. split; [lia|]. split; [done|]. split; [|split].
    + intros r Hr. destruct (lookup_lt_is_Some_2 (gc hg) (Z.to_nat r) ltac:(lia)) as [c Ec]. exists c. split; [done|].
      apply (proj1 (Forall_lookup _ _) Hc) in Ec. pose proof (Z.div_le_mono K 8448 8 ltac:(lia) ltac:(lia)) as M. change (8448 / 8) with 1056 in M. lia.
    + intros r Hr _. split; [apply Hl; lia|]. destruct (lookup_lt_is_Some_2 (gd hg) (Z.to_nat r) ltac:(lia)) as [d Ed]. exists d. split; [done|].
      apply (proj1 (Forall_lookup _ _) Hd) in Ed. lia.
    + intros r c i Hr. by apply elem_of_nil in Hr.
Qed.

End Link.

(** The blocks that are collected are the transport block with its CRC. *)
Lemma collected_block (C n : Z) cs a' done b : (forall r, 0 <= r < C -> r ∈ done) -> 0 <= n -> C * n <= Z.of_nat (length b) -> C * n <= Z.of_nat (length a') ->
  (forall i, (i < Z.to_nat C)%nat -> exists c, cs !! i = Some c /\ take (Z.to_nat n) c = take (Z.to_nat n) (drop (Z.to_nat (Z.of_nat i * n)) a')) ->
  collected n cs done b -> take (Z.to_nat (C * n)) b = take (Z.to_nat (C * n)) a'.
Proof.
  intros Hall Hn Hb Ha Hcs Hcol. apply list_eq. intros q. destruct (Nat.lt_ge_cases q (Z.to_nat (C * n))) as [Hq|Hq].
  - rewrite !lookup_take_lt by done. assert (0 < n) as Hn0 by (destruct (Z.eq_dec n 0) as [E0|]; [rewrite E0, Z.mul_0_r in Hq; simpl in Hq; lia|lia]). set (r := Z.of_nat q / n). set (i := Z.of_nat q mod n).
    pose proof (Z.div_mod (Z.of_nat q) n ltac:(lia)) as D. fold r i in D. pose proof (Z.mod_pos_bound (Z.of_nat q) n Hn0) as Hi. fold i in Hi.
    assert (0 <= r < C) as Hr by (split; [apply Z.div_pos|apply Z.div_lt_upper_bound]; lia).
    destruct (Hcs (Z.to_nat r) ltac:(lia)) as (c & Ec & Tc). pose proof (Hcol r c i (Hall r Hr) Ec Hi) as E1.
    replace (Z.to_nat (r * n + i)) with q in E1 by lia. rewrite E1.
    transitivity (take (Z.to_nat n) c !! Z.to_nat i); [symmetry; apply lookup_take_lt; lia|]. rewrite Tc, lookup_take_lt, lookup_drop by lia. f_equal. nia.
  - rewrite !lookup_ge_None_2; [done|rewrite length_take; lia|rewrite length_take; lia].
Qed.

(** What arrives when the bits were sent. *)
Lemma soft_from_sent decodable pdu G C K Zc F k0 rows g h' : let N := rm_N (ldpcBaseGraph pdu) Zc in
  let times r := hits N F (K - F - 2 * Zc) k0 (Z.to_nat (E_of G C (qam_mod_order pdu) (nrOfLayers pdu) r)) in
  sending pdu G C K Zc F N k0 rows C h' -> 0 < g 0 -> g 1 < 0 ->
  (forall r p, 0 <= r < C -> 0 <= p < N -> times r p * g 0 < 2 ^ 15 /\ - 2 ^ 15 <= times r p * g 1) ->
  (forall r, 0 <= r < C -> decodable (ldpcBaseGraph pdu) Zc (rv_index pdu) (E_of G C (qam_mod_order pdu) (nrOfLayers pdu) r) K F
     (fun p => 1 <= times r p)) ->
  soft_received decodable pdu G C K Zc F k0 rows g (map g (ue_f h')).
Proof.
  intros N times (_ & _ & _ & _ & _ & _ & Hf & _ & Hs) H0 H1 Hov Hdec. split; [done|]. split; [done|]. split; [by rewrite length_map|].
  split; [|done]. intros r p Hr Hp. rewrite list_lookup_fmap. by rewrite Hs.
Qed.

(** The transport block at the gNB has the CRC of that of the UE. *)
Lemma transport_crc intel m a' b : let B := lenWithCrc 1 (8 * m) in 1 <= m -> 8 * m < 2 ^ 30 -> bytes b -> B / 8 <= Z.of_nat (length b) -> (32 <= length b)%nat ->
  crc_valid a' B (crcType 1 (8 * m)) -> take (Z.to_nat (B / 8)) b = take (Z.to_nat (B / 8)) a' ->
  check_crc intel the_tables b B (crcType 1 (8 * m)) = Done 1.
Proof.
  intros B Hm HA Hb Hl H32 Hv Ht. destruct (lenWithCrc_1 (8 * m)) as (EB & Hty & Hlen). fold B in EB. apply crc_valid_check.
  - assert (B / 8 = m + check_crc_len (crcType 1 (8 * m))) as EB8 by (rewrite EB; symmetry; apply (Z.div_unique _ _ _ 0); lia).
    split; [lia|]. split; [rewrite EB; replace (8 * m + 8 * _) with ((m + check_crc_len (crcType 1 (8 * m))) * 8) by lia; apply Z.mod_mul; lia|].
    split; [lia|]. split; [done|]. replace (B - 8 * check_crc_len (crcType 1 (8 * m))) with (8 * m) by lia.
    split; [done|]. split; [lia|]. split; [replace ((8 * m + 7) / 8) with m by (apply (Z.div_unique _ _ _ 7); lia); lia|].
    intros _ _. replace (8 * m / 8) with m by (apply (Z.div_unique _ _ _ 0); lia). unfold crc_reads. repeat cif; lia.
  - unfold crc_valid. by rewrite Ht.
Qed.

(** C3. The uplink shared channel delivers.  The UE codes a new transport block and the gNB gets soft values with
    the right sign for the bits that were sent: then the gNB prepares one job for each code block, and in whatever
    order the thread pool finishes the jobs, the report is ACK and the bytes of the transport block are those of the
    UE.  For both base graphs, all modulations, numbers of layers, redundancy versions and numbers of code blocks,
    for sizes that the two sides accept, as long as the soft values do not overflow, the positions that were sent
    are enough for the kernels of the decoder to be right after three iterations, at least three iterations are
    allowed (with one or two the decoder gives up every block, [decoder_gives_up]), and the filler bits that the
    segmentation leaves as they were, which exist only when K is not a multiple of 8, were zero. *)
Theorem ulsch_delivers ldpc_encode decisions decodable intel T pdu m G max_iter s k0 (g : Z -> Z) h hg :
  LdpcEncoder ldpc_encode -> LdpcKernels ldpc_encode decisions decodable -> crcTableInit static_tables = Done T ->
  link_ok intel pdu m G max_iter s -> ue_ready m G (sr_C s) h -> Forall (tail_clear (sr_K s)) (ue_c h) -> gnb_ready m (sr_C s) hg ->
  let N := rm_N (ldpcBaseGraph pdu) (sr_Zout s) in
  let E r := E_of G (sr_C s) (qam_mod_order pdu) (nrOfLayers pdu) r in
  let times r := hits N (sr_F s) (sr_K s - sr_F s - 2 * sr_Zout s) k0 (Z.to_nat (E r)) in
  rm_ind (ldpcBaseGraph pdu) (sr_Zout s) (rv_index pdu) N N = Done k0 ->
  0 < g 0 -> g 1 < 0 ->
  (forall r p, 0 <= r < sr_C s -> 0 <= p < N -> times r p * g 0 < 2 ^ 15 /\ - 2 ^ 15 <= times r p * g 1) ->
  (forall r, 0 <= r < sr_C s -> decodable (ldpcBaseGraph pdu) (sr_Zout s) (rv_index pdu) (E r) (sr_K s) (sr_F s) (fun p => 1 <= times r p)) ->
  exists h', nr_ulsch_encoding intel T ldpc_encode pdu m G h = Done (0, h') /\
  exists jobs hg1, nr_ulsch_decoding intel T pdu m G max_iter hg = Done (sr_C s, jobs, hg1) /\
  forall jobs', jobs' ≡ₚ jobs -> exists hg2,
    run_jobs intel T decisions false (map g (ue_f h')) jobs' hg1 None = Done (hg2, Some true) /\
    take (Z.to_nat m) (gb hg2) = take (Z.to_nat m) (payload_AB h).
Proof.
  rewrite crcTableInit_done. intros ENC DEC [= <-] LK HU Hcl HGn N E times Ek0 Hg0 Hg1 Hov Hdec.
  destruct (new_block_sent ldpc_encode intel pdu m G max_iter s LK h HU Hcl) as (h1 & cs & rows & a' & k0' & E1 & HB & HSd & Ba & Ta & La & Va & Hcs).
  assert (k0' = k0) as -> by (destruct HB as ((_ & _ & _ & _ & _ & _ & Ek0' & _) & _); unfold N in Ek0; rewrite Ek0' in Ek0; by injection Ek0).
  pose proof LK as [Hnew (Hm1 & Hm2 & _) HBG _ (HQ & HNl & _) HG _ _ (_ & HC256 & _) _ _]. pose proof HQ as HQ'. rewrite Qm_case_spec in HQ'. destruct (link_B _ _ _ _ _ _ LK) as [HB31 HB8].
  destruct HU as (_ & _ & _ & HUc & HUC & _).
  destruct (link_params _ _ _ _ _ _ LK a' (ue_c h) Ba ltac:(lia) HUc HUC) as (HK & Hm8 & Hn0 & HBn & _ & _ & HS & _).
  pose proof HK as (_ & _ & HC1 & _).
  destruct (ulsch_segments_spec pdu G _ _ _ _ _ k0 rows (proj1 HB) (Z.to_nat (sr_C s)) 0 h1) as (h' & E2 & HSd'); [lia|lia|done|].
  exists h'. split.
  { unfold nr_ulsch_encoding. rewrite Hnew. replace (u32 (Z.shiftl m 3)) with (8 * m) by (rewrite Z.shiftl_mul_pow2 by lia; unfold u32; rewrite Z.mod_small; lia).
    rewrite E1. cbn [mbind outcome_bind negb]. pose proof HSd as (-> & _). rewrite E_off_0 in E2 by lia. rewrite E2. done. }
  destruct (decoding_prepared _ _ _ _ _ _ LK hg cs HGn HK Hm8 HBn HS) as (hg1 & E3 & HRc).
  eexists _, hg1. split; [exact E3|]. intros jobs' Hp.
  set (n := (sr_K s - sr_F s - (if sr_C s >? 1 then 24 else 0)) / 8) in *.
  destruct (run_jobs_any_order ldpc_encode decisions decodable intel pdu G (sr_C s) (sr_K s) (sr_Zout s) (sr_F s) k0 (8 * m) max_iter n cs rows g
              (map g (ue_f h')) HB) with (jobs := jobs') (h := hg1) as (hg2 & done & E4 & (_ & _ & _ & _ & Hl2 & _ & _ & _ & Hc2) & Hall).
  - by apply soft_from_sent.
  - split; [|done]. pose proof (n_shift s Hm8) as Hns. rewrite !Z.shiftr_div_pow2 in Hns by lia. by symmetry.
  - intros done b Hall Hb Hlb H32 Hcol _. apply (transport_crc intel m a'); [lia|lia|done|by rewrite HBn|done|done|].
    rewrite HBn. apply (collected_block _ _ cs a' done); (done || lia).
  - done.
  - done.
  - exists hg2. split; [done|]. rewrite <- Ta.
    pose proof (collected_block (sr_C s) n cs a' done (gb hg2) Hall ltac:(lia) ltac:(lia) ltac:(lia) Hcs Hc2) as Hcb.
    apply (f_equal (take (Z.to_nat m))) in Hcb. rewrite !take_take in Hcb. by replace (Z.to_nat m `min` Z.to_nat (sr_C s * n))%nat with (Z.to_nat m) in Hcb by lia.
Qed.
(** ** A coder and a decoder that fit: the bits of the block are repeated after the fillers *)

Definition bit_of (c : list Z) (i : Z) : Z := b2z (Z.testbit (default 0 (c !! Z.to_nat (i / 8))) (i mod 8)).

Definition repetition_encode (BG Zc K F : Z) (c : list Z) : list Z :=
  map (fun p => if (K - 2 * Zc <=? p) && (p <? 2 * K - 2 * Zc) then bit_of c (p - (K - 2 * Zc)) else 0) (seqZ 0 (rm_N BG Zc)).

Definition repetition_decisions (BG Zc rv E : Z) (l : list Z) (it : Z) : list Z :=
  let K := (if BG =? 1 then 22 else 10) * Zc in
  map (fun j => foldr (fun i acc => 2 * acc + b2z (default 0 (l !! Z.to_nat (K + 8 * j + i)) <? 0)) 0 (seqZ 0 8)) (seqZ 0 (K / 8))
  ++ replicate 1056 0.

Definition repetition_decodable (BG Zc rv E K F : Z) (S : Z -> Prop) : Prop := forall p, K - 2 * Zc <= p < 2 * K - 2 * Zc -> S p.

#[export] Instance repetition_encoder : LdpcEncoder repetition_encode.
Proof.
  split; intros BG Zc K F c; unfold repetition_encode.
  - rewrite length_map, length_seqZ. lia.
  - apply Forall_fmap, Forall_forall. intros p _. simpl. cif; [|by left]. unfold bit_of, b2z. cif; auto.
Qed.

Lemma byte_bits x : is_byte x -> foldr (fun i acc => 2 * acc + b2z (Z.testbit x i)) 0 (seqZ 0 8) = x.
Proof.
  intros Hx. assert (forallb (fun x => foldr (fun i acc => 2 * acc + b2z (Z.testbit x i)) 0 (seqZ 0 8) =? x) (seqZ 0 256) = true) as HF by (vm_compute; done).
  rewrite forallb_forall in HF. apply Z.eqb_eq, HF, list_elem_of_In, elem_of_seqZ. unfold is_byte in Hx. lia.
Qed.

#[export] Instance repetition_kernels : LdpcKernels repetition_encode repetition_decisions repetition_decodable.
Proof.
  split.
  { intros BG Zc rv E l it. unfold repetition_decisions. split; [|rewrite length_app, length_replicate; lia].
    apply Forall_app; split; [|apply Forall_replicate; unfold is_byte; lia]. apply Forall_fmap, Forall_forall. intros j _.
    change (seqZ 0 8) with [0; 1; 2; 3; 4; 5; 6; 7]. cbn [foldr compose]. unfold is_byte, b2z. repeat case_match; lia. }
  intros BG Zc rv E K F c l S it HBG HZ EK HF Hbc Hlc _ HS [Hll Hag] _.
  unfold repetition_decisions. rewrite <- EK. apply list_eq. intros j.
  assert (0 <= K / 8) as HK8 by (apply Z.div_pos; destruct HBG as [->| ->]; simpl in EK; lia).
  destruct (Nat.lt_ge_cases j (Z.to_nat (K / 8))) as [Hj|Hj];
    [|rewrite !lookup_ge_None_2; [done|rewrite length_take; lia|rewrite length_take; lia]].
  rewrite !lookup_take_lt by done. destruct (lookup_lt_is_Some_2 c j ltac:(lia)) as [x Ex]. rewrite Ex.
  rewrite lookup_app_l by (rewrite length_map, length_seqZ; lia).
  rewrite list_lookup_fmap, lookup_seqZ_lt by lia. simpl fmap. f_equal. rewrite Z.add_0_l.
  pose proof (proj1 (Forall_lookup _ _) Hbc _ _ Ex) as Hx.
  assert (8 * (K / 8) <= K) as HK by (apply Z.mul_div_le; lia).
  assert (2 * K - 2 * Zc <= rm_N BG Zc) as HKN by (unfold rm_N; destruct HBG as [->| ->]; simpl in *; lia).
  assert (forall i, 0 <= i < 8 -> (default 0 (l !! Z.to_nat (K + 8 * Z.of_nat j + i)) <? 0) = Z.testbit x i) as Hbit.
  { intros i Hi. set (p := K - 2 * Zc + (8 * Z.of_nat j + i)).
    assert (repetition_encode BG Zc K F c !! Z.to_nat p = Some (b2z (Z.testbit x i))) as Ep.
    { unfold repetition_encode. rewrite list_lookup_fmap, lookup_seqZ_lt by lia. simpl fmap. rewrite Z.add_0_l, Z2Nat.id by lia.
      rewrite (proj2 (Z.leb_le _ p)), (proj2 (Z.ltb_lt p _)) by lia. simpl. unfold p. replace (K - 2 * Zc + _ - _) with (i + Z.of_nat j * 8) by lia.
      unfold bit_of. rewrite Z.div_add, Z.mod_add, Z.div_small, Z.mod_small, Z.add_0_l, Nat2Z.id, Ex by lia. done. }
    destruct (Hag p _ ltac:(lia) Ep) as (y & Ey & Hy). replace (2 * Zc + p) with (K + 8 * Z.of_nat j + i) in Ey by lia. rewrite Ey. simpl default.
    rewrite (proj2 (Z.ltb_ge p (K - 2 * Zc))), andb_false_r in Hy by lia. destruct Hy as [Hk Hs]. specialize (Hk (HS p ltac:(lia))).
    destruct (Z.testbit x i); simpl in Hs; [apply Z.ltb_lt|apply Z.ltb_ge]; lia. }
  change (seqZ 0 8) with [0; 1; 2; 3; 4; 5; 6; 7]. cbn [foldr]. rewrite !Hbit by lia. exact (byte_bits x Hx).
Qed.

(** A transport block of 3 bytes in one code block of 70 bits, all its 320 bits sent once with QPSK. *)
Definition example_pdu : pusch_pdu_t := mk_pusch true 1 2 0 2 0 273.
Definition example_ue : NR_UL_UE_HARQ_t :=
  mk_ue_harq ([1; 2; 3] ++ replicate 60 0) [replicate 1056 3] [replicate (Z.to_nat 25344) 0] (replicate 320 0) (replicate 320 0) 0 0 0 0 0.
Definition example_gnb : NR_UL_gNB_HARQ_t :=
  mk_gnb_harq (replicate 60 7) [replicate 1056 9] [replicate (Z.to_nat 25344) 5] [false] 0 0 0 0 0 0 true 0 false.
Definition example_seg : seg_result := mk_seg 6 1 70 7 30 [].

Lemma example_link : link_ok true example_pdu 3 320 5 example_seg.
Proof.
  split; try done; try (unfold example_pdu, example_seg; simpl; lia).
  split; [done|]. intros r Hr. simpl in *. assert (r = 0) as -> by lia. done.
Qed.

Lemma example_times p : 0 <= p < 350 -> let t := hits 350 30 26 0 320 p in 0 <= t <= 1 /\ (56 <= p -> 1 <= t).
Proof.
  intros Hp t. assert (forallb (fun p => let t := hits 350 30 26 0 320 p in (0 <=? t) && (t <=? 1) && ((p <? 56) || (1 <=? t))) (seqZ 0 350) = true) as HF
    by (vm_compute; done).
  rewrite forallb_forall in HF. specialize (HF p ltac:(apply list_elem_of_In, elem_of_seqZ; lia)). cbv zeta in HF. fold t in HF.
  zbool. split; [lia|]. intros Hge. repeat match goal with X : _ \/ _ |- _ => destruct X end; zbool; lia.
Qed.

Lemma example_ready : ue_ready 3 320 1 example_ue /\ gnb_ready 3 1 example_gnb.
Proof.
  assert (forall n x, is_byte x -> bytes (replicate n x)) as HR by (intros n x Hx; by apply Forall_replicate).
  assert (25344 <= Z.of_nat (length (replicate (Z.to_nat 25344) 0)) /\ 25344 <= Z.of_nat (length (replicate (Z.to_nat 25344) 5))) as [L0 L5]
    by (rewrite !length_replicate; lia).
  split.
  - split; [repeat constructor; unfold is_byte; lia|]. split; [vm_compute; congruence|]. split; [vm_compute; lia|].
    split; [constructor; [split; [apply HR; unfold is_byte; lia|rewrite length_replicate; done]|constructor]|].
    split; [done|]. split; [done|]. split; [by constructor|]. done.
  - split; [done|]. split; [done|]. split; [done|]. split; [constructor; [rewrite length_replicate; done|constructor]|].
    split; [done|]. split; [by constructor|]. split; [apply HR; unfold is_byte; lia|]. split; [vm_compute; congruence|vm_compute; lia].
Qed.

Lemma example_clear : Forall (tail_clear (sr_K example_seg)) (ue_c example_ue).
Proof.
  constructor; [|constructor]. intros b Hb. change (sr_K example_seg) with 70 in Hb. change (8 * (70 / 8)) with 64 in Hb.
  assert (b = 64 \/ b = 65 \/ b = 66 \/ b = 67 \/ b = 68 \/ b = 69) as H by lia.
  by repeat (destruct H as [->|H]; [reflexivity|]); subst.
Qed.

#[local] Abbreviation times r p := (hits (rm_N (ldpcBaseGraph example_pdu) (sr_Zout example_seg)) (sr_F example_seg)
  (sr_K example_seg - sr_F example_seg - 2 * sr_Zout example_seg) 0
  (Z.to_nat (E_of 320 (sr_C example_seg) (qam_mod_order example_pdu) (nrOfLayers example_pdu) r)) p).

Lemma example_times_0 p : times 0 p = hits 350 30 26 0 320 p.
Proof. reflexivity. Qed.

Lemma example_soft r p : 0 <= r < sr_C example_seg -> 0 <= p < rm_N (ldpcBaseGraph example_pdu) (sr_Zout example_seg) ->
  times r p * (if 0 =? 0 then 10 else -10) < 2 ^ 15 /\ - 2 ^ 15 <= times r p * (if 1 =? 0 then 10 else -10).
Proof.
  intros Hr Hp. assert (r = 0) as -> by (change (sr_C example_seg) with 1 in Hr; lia). rewrite example_times_0.
  destruct (example_times p Hp) as [Ht _]. simpl Z.eqb. cbv iota. lia.
Qed.

Lemma example_decodable r : 0 <= r < sr_C example_seg ->
  repetition_decodable (ldpcBaseGraph example_pdu) (sr_Zout example_seg) (rv_index example_pdu)
    (E_of 320 (sr_C example_seg) (qam_mod_order example_pdu) (nrOfLayers example_pdu) r) (sr_K example_seg) (sr_F example_seg) (fun p => 1 <= times r p).
Proof.
  intros Hr p Hp. assert (r = 0) as -> by (change (sr_C example_seg) with 1 in Hr; lia). rewrite example_times_0.
  change (sr_K example_seg) with 70 in Hp. change (sr_Zout example_seg) with 7 in Hp. apply (example_times p); lia.
Qed.

Lemma ulsch_delivers_witness : exists h' jobs hg1 hg2,
  nr_ulsch_encoding true the_tables repetition_encode example_pdu 3 320 example_ue = Done (0, h') /\
  nr_ulsch_decoding true the_tables example_pdu 3 320 5 example_gnb = Done (1, jobs, hg1) /\
  run_jobs true the_tables repetition_decisions false (map (fun b => if b =? 0 then 10 else -10) (ue_f h')) jobs hg1 None = Done (hg2, Some true) /\
  take 3 (gb hg2) = [1; 2; 3].
Proof.
  destruct (ulsch_delivers repetition_encode repetition_decisions repetition_decodable true the_tables example_pdu 3 320 5 example_seg 0
              (fun b => if b =? 0 then 10 else -10) example_ue example_gnb) as (h' & E1 & jobs & hg1 & E2 & H).
  - exact repetition_encoder.
  - exact repetition_kernels.
  - exact crcTableInit_done.
  - exact example_link.
  - exact (proj1 example_ready).
  - exact example_clear.
  - exact (proj2 example_ready).
  - reflexivity.
  - reflexivity.
  - reflexivity.
  - exact example_soft.
  - exact example_decodable.
  - destruct (H jobs (Permutation_refl jobs)) as (hg2 & E3 & E4). exists h', jobs, hg1, hg2.
    split; [exact E1|]. split; [exact E2|]. split; [exact E3|]. exact E4.
Defined.
