(* ===== verification/MacPdu.v ===== *)
(** * The MAC PDU of the uplink shared channel, at the gNB

    [nr_process_mac_pdu] of openair2/LAYER2/NR_MAC_gNB/gNB_scheduler_ulsch.c
    walks the sub-PDUs of a decoded transport block: it gives the SDUs to RLC,
    and keeps what the control elements report (the buffer of the UE, its power
    headroom).  The file holds the walk with its helpers ([get_mac_len], the
    estimates of the buffer status reports, [lcid_crnti_lookahead]), the format
    of a MAC PDU as TS 38.321 6.1.2 lays it out, and the proof that the walk
    takes such a PDU apart into exactly its sub-PDUs.  The PDU is read at an
    offset of the memory it lies in, so that what the code reads behind the PDU
    is visible. *)
From S2P Require Import Prelude.

(** ** Constants and tables *)

Definition UL_SCH_LCID_CCCH1 : Z := 0x00.
Definition UL_SCH_LCID_SRB1 : Z := 0x01.
Definition UL_SCH_LCID_SRB2 : Z := 0x02.
Definition UL_SCH_LCID_SRB3 : Z := 0x03.
Definition UL_SCH_LCID_DTCH : Z := 0x04.
Definition UL_SCH_LCID_CCCH : Z := 0x34.
Definition UL_SCH_LCID_RECOMMENDED_BITRATE_QUERY : Z := 0x35.
Definition UL_SCH_LCID_MULTI_ENTRY_PHR_4_OCT : Z := 0x36.
Definition UL_SCH_LCID_CONFIGURED_GRANT_CONFIRMATION : Z := 0x37.
Definition UL_SCH_LCID_MULTI_ENTRY_PHR_1_OCT : Z := 0x38.
Definition UL_SCH_LCID_SINGLE_ENTRY_PHR : Z := 0x39.
Definition UL_SCH_LCID_C_RNTI : Z := 0x3A.
Definition UL_SCH_LCID_S_TRUNCATED_BSR : Z := 0x3B.
Definition UL_SCH_LCID_L_TRUNCATED_BSR : Z := 0x3C.
Definition UL_SCH_LCID_S_BSR : Z := 0x3D.
Definition UL_SCH_LCID_L_BSR : Z := 0x3E.
Definition UL_SCH_LCID_PADDING : Z := 0x3F.

Definition NR_SHORT_BSR_TABLE : list Z := [
    0;    10;    14;    20;    28;     38;     53;     74;
  102;   142;   198;   276;   384;    535;    745;   1038;
 1446;  2014;  2806;  3909;  5446;   7587;  10570;  14726;
20516; 28581; 39818; 55474; 77284; 107669; 150000; 300000].

Definition NR_LONG_BSR_TABLE : list Z := [
       0;       10;       11;       12;       13;       14;       15;       16;       17;       18;       19;       20;       22;       23;        25;         26;
      28;       30;       32;       34;       36;       38;       40;       43;       46;       49;       52;       55;       59;       62;        66;         71;
      75;       80;       85;       91;       97;      103;      110;      117;      124;      132;      141;      150;      160;      170;       181;        193;
     205;      218;      233;      248;      264;      281;      299;      318;      339;      361;      384;      409;      436;      464;       494;        526;
     560;      597;      635;      677;      720;      767;      817;      870;      926;      987;     1051;     1119;     1191;     1269;      1351;       1439;
    1532;     1631;     1737;     1850;     1970;     2098;     2234;     2379;     2533;     2698;     2873;     3059;     3258;     3469;      3694;       3934;
    4189;     4461;     4751;     5059;     5387;     5737;     6109;     6506;     6928;     7378;     7857;     8367;     8910;     9488;     10104;      10760;
   11458;    12202;    12994;    13838;    14736;    15692;    16711;    17795;    18951;    20181;    21491;    22885;    24371;    25953;     27638;      29431;
   31342;    33376;    35543;    37850;    40307;    42923;    45709;    48676;    51836;    55200;    58784;    62599;    66663;    70990;     75598;      80505;
   85730;    91295;    97221;   103532;   110252;   117409;   125030;   133146;   141789;   150992;   160793;   171231;   182345;   194182;    206786;     220209;
  234503;   249725;   265935;   283197;   301579;   321155;   342002;   364202;   387842;   413018;   439827;   468377;   498780;   531156;    565634;     602350;
  641449;   683087;   727427;   774645;   824928;   878475;   935498;   996222;  1060888;  1129752;  1203085;  1281179;  1364342;  1452903;   1547213;    1647644;
 1754595;  1868488;  1989774;  2118933;  2256475;  2402946;  2558924;  2725027;  2901912;  3090279;  3290873;  3504487;  3731968;  3974215;   4232186;    4506902;
 4799451;  5110989;  5442750;  5796046;  6172275;  6572925;  6999582;  7453933;  7937777;  8453028;  9001725;  9586039; 10208280; 10870913;  11576557;   12328006;
13128233; 13980403; 14887889; 15854280; 16883401; 17979324; 19146385; 20389201; 21712690; 23122088; 24622972; 26221280; 27923336; 29735875;  31666069;   33721553;
35910462; 38241455; 40723756; 43367187; 46182206; 49179951; 52372284; 55771835; 59392055; 63247269; 67352729; 71724679; 76380419; 81338368; 162676736; 4294967295].

(** ** State

    The fields of [NR_UE_info_t] that the walk reads or writes: those of
    [UE_sched_ctrl], [mac_stats.ul] and whether [CellGroup] is set. *)
Record ul_ue_t := mk_ul_ue {
  ul_rnti : Z;
  ul_CellGroup : bool;
  estimated_ul_buffer : Z;
  ph : Z;
  ph0 : Z;
  pcmax : Z;
  ul_total_sdu_bytes : Z;
  ul_num_mac_sdu : Z;
  ul_lc_bytes : list Z
}.
#[export] Instance ul_ue_eta : Eta ul_ue_t := fun u =>
  mk_ul_ue (ul_rnti u) (ul_CellGroup u) (estimated_ul_buffer u) (ph u) (ph0 u) (pcmax u)
    (ul_total_sdu_bytes u) (ul_num_mac_sdu u) (ul_lc_bytes u).

(** The state and the RNTI of a random access procedure. *)
Record NR_RA_t := mk_ra { ra_state : Z; ra_rnti : Z }.
Definition nrRA_gNB_IDLE : Z := 0.

(** What the walk hands to the other layers. *)
Inductive mac_out :=
| InitialUlRrcMessage
| RlcDataInd (lcid : Z) (sdu : list Z).

(** ** Sub-headers *)

Definition get_mac_len (mem : list Z) (pdu pdu_len : Z) : outcome (option (Z * Z)) :=
  if pdu_len <? 2 then Done None
  else
    b ← rd mem pdu;
    if Z.testbit b 6 && (pdu_len <? 3) then Done None
    else if Z.testbit b 6 then
      hi ← rd mem (pdu + 1);
      lo ← rd mem (pdu + 2);
      Done (Some (Z.lor (Z.shiftl hi 8) lo, 3))
    else
      L ← rd mem (pdu + 1);
      Done (Some (L, 2)).

(** [while (pdu_len >= 3)]; every turn moves at least two bytes on. *)
Fixpoint crnti_loop (fuel : nat) (mem : list Z) (pdu pdu_len : Z) : outcome Z :=
  match fuel with
  | O => Undef
  | S fuel =>
      if pdu_len <? 3 then Done 0
      else
        b ← rd mem pdu;
        if Z.land b 0x3F =? UL_SCH_LCID_C_RNTI then
          hi ← rd mem (pdu + 1);
          lo ← rd mem (pdu + 2);
          Done (Z.lor (Z.shiftl (Z.land hi 0xFF) 8) (Z.land lo 0xFF))
        else
          r ← get_mac_len mem pdu pdu_len;
          match r with
          | None => Done 0
          | Some (mac_len, mac_subheader_len) =>
              crnti_loop fuel mem (pdu + (mac_len + mac_subheader_len))
                (if mac_len + mac_subheader_len <=? pdu_len
                 then pdu_len - (mac_len + mac_subheader_len) else 0)
          end
  end.

Definition lcid_crnti_lookahead (mem : list Z) (pdu pdu_len : Z) : outcome Z :=
  crnti_loop (S (Z.to_nat pdu_len)) mem pdu pdu_len.

(** ** Buffer status reports *)

Definition overestim_bsr_index (real_index : Z) : Z :=
  let add_overestim := 1 in
  if 0 <? real_index then real_index + add_overestim else real_index.

(** [bsr]: the byte of the report. *)
Definition estimate_ul_buffer_short_bsr (bsr : Z) : outcome Z :=
  let rep_idx := Z.land bsr 0x1F in
  let estim_idx := overestim_bsr_index rep_idx in
  let max := Z.of_nat (length NR_SHORT_BSR_TABLE) - 1 in
  let idx := Z.min estim_idx max in
  v ← rd NR_SHORT_BSR_TABLE idx;
  Done (s32 v).

(** [estim_size += NR_LONG_BSR_TABLE[idx]] is an addition of 32-bit unsigned
    integers whose result goes back to an [int]. *)
Fixpoint long_bsr_loop (bsr_active : list bool) (mem : list Z) (payload m estim_size : Z) : outcome Z :=
  match bsr_active with
  | [] => Done estim_size
  | false :: l => long_bsr_loop l mem payload m estim_size
  | true :: l =>
      rep_idx ← rd mem (payload + m);
      let estim_idx := overestim_bsr_index rep_idx in
      let max := Z.of_nat (length NR_LONG_BSR_TABLE) - 1 in
      let idx := Z.min estim_idx max in
      v ← rd NR_LONG_BSR_TABLE idx;
      long_bsr_loop l mem payload (m + 1) (s32 (estim_size + v))
  end.

Definition estimate_ul_buffer_long_bsr (mem : list Z) (bsr : Z) : outcome Z :=
  b ← rd mem bsr;
  long_bsr_loop (Z.testbit b <$> [0; 1; 2; 3; 4; 5; 6; 7]) mem (bsr + 1) 0 0.

(** ** The walk

    What the [switch] leaves: the flag [done] and the lengths to skip, or a
    return from the function. *)
Inductive subpdu_end :=
| Skip (done : bool) (mac_subheader_len mac_len : Z)
| Return (r : Z).

(** What a sub-PDU changes: the UE, the local [sdus] and the messages out. *)
Record walk := mk_walk { w_ue : ul_ue_t; w_sdus : Z; w_outs : list mac_out }.
#[export] Instance walk_eta : Eta walk := fun w => mk_walk (w_ue w) (w_sdus w) (w_outs w).

Section walk.
(** The random access procedures of the cell, the HARQ process the transport
    block came by, and [compute_ph_factor] of its [sched_pusch] (a computation on floats). *)
Context (ra : list NR_RA_t) (harq_pid : Z) (ph_factor : Z -> Z).

Definition case_short_bsr (mem : list Z) (pdu pdu_len : Z) (w : walk) : outcome (subpdu_end * walk) :=
  if pdu_len <? 1 then Done (Return 0, w)
  else
    bsr ← rd mem (pdu + 1);
    v ← estimate_ul_buffer_short_bsr bsr;
    Done (Skip false 1 1, w <| w_ue; estimated_ul_buffer := v |>).

Definition case_long_bsr (mem : list Z) (pdu pdu_len : Z) (w : walk) : outcome (subpdu_end * walk) :=
  r ← get_mac_len mem pdu pdu_len;
  match r with
  | None => Done (Return 0, w)
  | Some (mac_len, mac_subheader_len) =>
      v ← estimate_ul_buffer_long_bsr mem (pdu + mac_subheader_len);
      Done (Skip false mac_subheader_len mac_len, w <| w_ue; estimated_ul_buffer := v |>)
  end.

Definition case_crnti (mem : list Z) (pdu : Z) (w : walk) : outcome (subpdu_end * walk) :=
  if existsb (fun r => (ra_state r =? nrRA_gNB_IDLE) && (ra_rnti r =? ul_rnti (w_ue w))) ra
  then _ ← rd mem (pdu + 1); _ ← rd mem (pdu + 2); Exit
  else Done (Skip false 1 2, w).

Definition ph_of (PH : Z) : Z := if PH <? 55 then PH - 32 else PH - 32 + (PH - 54).

Definition case_single_phr (mem : list Z) (pdu : Z) (w : walk) : outcome (subpdu_end * walk) :=
  if harq_pid <? 0 then Done (Skip true 1 0, w)
  else
    b1 ← rd mem (pdu + 1);
    b2 ← rd mem (pdu + 2);
    let PCMAX := Z.land b2 0x3F in
    let PH := ph_of (Z.land b1 0x3F) in
    Done (Skip false 1 2,
      w <| w_ue; ph := PH + ph_factor harq_pid |> <| w_ue; ph0 := PH |> <| w_ue; pcmax := PCMAX - 29 |>).

Definition case_multi_phr (mem : list Z) (pdu pdu_len : Z) (w : walk) : outcome (subpdu_end * walk) :=
  r ← get_mac_len mem pdu pdu_len;
  match r with
  | None => Done (Return 0, w)
  | Some (mac_len, mac_subheader_len) => Done (Skip true mac_subheader_len mac_len, w)
  end.

Definition case_srb (rx_lcid : Z) (mem : list Z) (pdu pdu_len : Z) (w : walk) : outcome (subpdu_end * walk) :=
  r ← get_mac_len mem pdu pdu_len;
  match r with
  | None => Done (Return 0, w)
  | Some (mac_len, mac_subheader_len) =>
      if negb (ul_CellGroup (w_ue w)) then Exit
      else
        sdu ← slice mem (pdu + mac_subheader_len) mac_len;
        Done (Skip false mac_subheader_len mac_len,
          w <| w_outs ::= fun o => o ++ [RlcDataInd rx_lcid sdu] |>
            <| w_ue; ul_total_sdu_bytes ::= add64 mac_len |>
            <| w_ue; ul_lc_bytes ::= alter (add64 mac_len) (Z.to_nat rx_lcid) |>)
  end.

(** The nine bytes of a CCCH1 sub-PDU are all 0. *)
Definition case_ccch (rx_lcid : Z) (mem : list Z) (pdu pdu_len : Z) (w : walk) : outcome (subpdu_end * walk) :=
  let mac_subheader_len := 1 in
  let mac_len := if rx_lcid =? UL_SCH_LCID_CCCH1 then 8 else 6 in
  if (rx_lcid =? UL_SCH_LCID_CCCH1) && (pdu_len <? mac_subheader_len + mac_len) then Done (Return 0, w)
  else
    zeros ← (if rx_lcid =? UL_SCH_LCID_CCCH1
             then l ← slice mem pdu (mac_subheader_len + mac_len); Done (forallb (Z.eqb 0) l)
             else Done false);
    if (zeros : bool) then Done (Skip true mac_subheader_len mac_len, w)
    else
      sdu ← slice mem (pdu + mac_subheader_len) mac_len;
      Done (Skip false mac_subheader_len mac_len,
        w <| w_outs ::= fun o => o ++ [InitialUlRrcMessage; RlcDataInd 0 sdu] |>).

Definition case_dtch (rx_lcid : Z) (mem : list Z) (pdu pdu_len : Z) (w : walk) : outcome (subpdu_end * walk) :=
  r ← get_mac_len mem pdu pdu_len;
  match r with
  | None => Done (Return 0, w)
  | Some (mac_len, mac_subheader_len) =>
      sdu ← slice mem (pdu + mac_subheader_len) mac_len;
      Done (Skip false mac_subheader_len mac_len,
        w <| w_ue; ul_lc_bytes ::= alter (add64 mac_len) (Z.to_nat rx_lcid) |>
          <| w_outs ::= fun o => o ++ [RlcDataInd rx_lcid sdu] |>
          <| w_sdus ::= Z.add 1 |>
          <| w_ue; estimated_ul_buffer ::= fun e => if mac_len <=? e then e - mac_len else 0 |>)
  end.

(** [switch(rx_lcid)] *)
Definition nr_mac_subpdu (mem : list Z) (pdu pdu_len : Z) (w : walk) : outcome (subpdu_end * walk) :=
  b ← rd mem pdu;
  let rx_lcid := Z.land b 0x3F in
  if rx_lcid =? UL_SCH_LCID_RECOMMENDED_BITRATE_QUERY then Done (Skip false 1 2, w)
  else if rx_lcid =? UL_SCH_LCID_CONFIGURED_GRANT_CONFIRMATION then Done (Skip false 1 0, w)
  else if (rx_lcid =? UL_SCH_LCID_S_BSR) || (rx_lcid =? UL_SCH_LCID_S_TRUNCATED_BSR)
  then case_short_bsr mem pdu pdu_len w
  else if (rx_lcid =? UL_SCH_LCID_L_BSR) || (rx_lcid =? UL_SCH_LCID_L_TRUNCATED_BSR)
  then case_long_bsr mem pdu pdu_len w
  else if rx_lcid =? UL_SCH_LCID_C_RNTI then case_crnti mem pdu w
  else if rx_lcid =? UL_SCH_LCID_SINGLE_ENTRY_PHR then case_single_phr mem pdu w
  else if (rx_lcid =? UL_SCH_LCID_MULTI_ENTRY_PHR_1_OCT) || (rx_lcid =? UL_SCH_LCID_MULTI_ENTRY_PHR_4_OCT)
  then case_multi_phr mem pdu pdu_len w
  else if rx_lcid =? UL_SCH_LCID_PADDING then Done (Skip true 1 0, w)
  else if (rx_lcid =? UL_SCH_LCID_SRB1) || (rx_lcid =? UL_SCH_LCID_SRB2)
  then case_srb rx_lcid mem pdu pdu_len w
  else if (rx_lcid =? UL_SCH_LCID_CCCH) || (rx_lcid =? UL_SCH_LCID_CCCH1)
  then case_ccch rx_lcid mem pdu pdu_len w
  else if (UL_SCH_LCID_DTCH <=? rx_lcid) && (rx_lcid <=? UL_SCH_LCID_DTCH + 28)
  then case_dtch rx_lcid mem pdu pdu_len w
  else Done (Return (-1), w).

(** [while (!done && pdu_len > 0)].  [pdu_len] is a [uint32_t]: its decrement
    wraps, and the test for a negative residual length that follows never
    holds. *)
Fixpoint mac_pdu_loop (fuel : nat) (mem : list Z) (pdu pdu_len : Z) (w : walk) : outcome (Z * walk) :=
  match fuel with
  | O => Undef
  | S fuel =>
      if 0 <? pdu_len then
        '(e, w) ← nr_mac_subpdu mem pdu pdu_len w;
        match e with
        | Return r => Done (r, w)
        | Skip done mac_subheader_len mac_len =>
            let pdu := pdu + (mac_subheader_len + mac_len) in
            let pdu_len := u32 (pdu_len - (mac_subheader_len + mac_len)) in
            if pdu_len <? 0 then Done (0, w)
            else if (done : bool) then Done (0, w <| w_ue; ul_num_mac_sdu ::= add32 (w_sdus w) |>)
            else mac_pdu_loop fuel mem pdu pdu_len w
        end
      else Done (0, w <| w_ue; ul_num_mac_sdu ::= add32 (w_sdus w) |>)
  end.

Definition nr_process_mac_pdu (mem : list Z) (pduP pdu_len : Z) (UE : ul_ue_t)
  : outcome (Z * ul_ue_t * list mac_out) :=
  _ ← rd mem pduP;
  '(r, w) ← mac_pdu_loop (S (length mem)) mem pduP pdu_len (mk_walk UE 0 []);
  Done (r, w_ue w, w_outs w).
End walk.

(** ** The format of a MAC PDU (TS 38.321 6.1.2)

    A sub-PDU with the fields of its sub-header that the sender chooses; the
    long buffer status report has one entry for each logical channel group. *)
Inductive subpdu :=
| SubSdu (F : bool) (lcid : Z) (sdu : list Z)
| SubCcch (sdu : list Z)
| SubCcch1 (sdu : list Z)
| SubShortBsr (truncated : bool) (LcgID Buffer_size : Z)
| SubLongBsr (F truncated : bool) (Buffer_sizes : list (option Z))
| SubPhr (PH PCMAX : Z)
| SubCrnti (crnti : Z)
| SubBitrateQuery (x y : Z)
| SubGrantConfirmation.

Definition var_header (F : bool) (lcid len : Z) : list Z :=
  if F then [64 + lcid; len / 256; len mod 256] else [lcid; len].

Fixpoint lcg_bitmap (l : list (option Z)) : Z :=
  match l with
  | [] => 0
  | o :: l => 2 * lcg_bitmap l + Z.b2z (bool_decide (is_Some o))
  end.
Definition long_bsr_ce (l : list (option Z)) : list Z := lcg_bitmap l :: omap id l.

Definition encode_sub (s : subpdu) : list Z :=
  match s with
  | SubSdu F lcid sdu => var_header F lcid (Z.of_nat (length sdu)) ++ sdu
  | SubCcch sdu => UL_SCH_LCID_CCCH :: sdu
  | SubCcch1 sdu => UL_SCH_LCID_CCCH1 :: sdu
  | SubShortBsr t g b => [if t then UL_SCH_LCID_S_TRUNCATED_BSR else UL_SCH_LCID_S_BSR; 32 * g + b]
  | SubLongBsr F t l =>
      var_header F (if t then UL_SCH_LCID_L_TRUNCATED_BSR else UL_SCH_LCID_L_BSR)
        (Z.of_nat (length (long_bsr_ce l))) ++ long_bsr_ce l
  | SubPhr PH PCMAX => [UL_SCH_LCID_SINGLE_ENTRY_PHR; PH; PCMAX]
  | SubCrnti c => [UL_SCH_LCID_C_RNTI; c / 256; c mod 256]
  | SubBitrateQuery x y => [UL_SCH_LCID_RECOMMENDED_BITRATE_QUERY; x; y]
  | SubGrantConfirmation => [UL_SCH_LCID_CONFIGURED_GRANT_CONFIRMATION]
  end.
Definition encode (l : list subpdu) : list Z := l ≫= encode_sub.

(** The values that the fields of a sub-PDU can take. *)
Definition wf_sub (s : subpdu) : Prop :=
  match s with
  | SubSdu F lcid sdu =>
      (1 <= lcid <= 2 \/ 4 <= lcid <= 32) /\ Z.of_nat (length sdu) < (if F then 65536 else 256)
  | SubCcch sdu => length sdu = 6%nat
  | SubCcch1 sdu => length sdu = 8%nat /\ Exists (fun b => b <> 0) sdu
  | SubShortBsr _ g b => 0 <= g < 8 /\ 0 <= b < 32
  | SubLongBsr _ _ l => length l = 8%nat /\ Forall (fun o => forall i, o = Some i -> is_byte i) l
  | SubPhr PH PCMAX => 0 <= PH < 64 /\ 0 <= PCMAX < 64
  | SubCrnti c => 0 <= c < 65536
  | SubBitrateQuery _ _ | SubGrantConfirmation => True
  end.

(** The bytes waiting at the UE that an index of a report stands for. *)
Definition short_size (i : Z) : Z :=
  default 0 (NR_SHORT_BSR_TABLE !! Z.to_nat (Z.min (overestim_bsr_index i) 31)).
Definition long_size (i : Z) : Z :=
  default 0 (NR_LONG_BSR_TABLE !! Z.to_nat (Z.min (overestim_bsr_index i) 255)).
Definition long_sizes (l : list (option Z)) : Z :=
  foldl (fun a i => s32 (a + long_size i)) 0 (omap id l).

Section format.
Context (ra : list NR_RA_t) (harq_pid : Z) (ph_factor : Z -> Z).

(** What the gNB needs to take the sub-PDU. *)
Definition takes (UE : ul_ue_t) (s : subpdu) : Prop :=
  match s with
  | SubSdu _ lcid _ => lcid <= 2 -> ul_CellGroup UE = true
  | SubPhr _ _ => 0 <= harq_pid
  | SubCrnti _ => Forall (fun r => ra_state r = nrRA_gNB_IDLE -> ra_rnti r <> ul_rnti UE) ra
  | _ => True
  end.

(** What a sub-PDU means. *)
Definition sub_effect (w : walk) (s : subpdu) : walk :=
  match s with
  | SubSdu _ lcid sdu =>
      let n := Z.of_nat (length sdu) in
      let w := w <| w_outs ::= fun o => o ++ [RlcDataInd lcid sdu] |>
                 <| w_ue; ul_lc_bytes ::= alter (add64 n) (Z.to_nat lcid) |> in
      if lcid <=? 2 then w <| w_ue; ul_total_sdu_bytes ::= add64 n |>
      else w <| w_sdus ::= Z.add 1 |>
             <| w_ue; estimated_ul_buffer ::= fun e => if n <=? e then e - n else 0 |>
  | SubCcch sdu | SubCcch1 sdu => w <| w_outs ::= fun o => o ++ [InitialUlRrcMessage; RlcDataInd 0 sdu] |>
  | SubShortBsr _ _ b => w <| w_ue; estimated_ul_buffer := short_size b |>
  | SubLongBsr _ _ l => w <| w_ue; estimated_ul_buffer := long_sizes l |>
  | SubPhr PH PCMAX =>
      w <| w_ue; ph := ph_of PH + ph_factor harq_pid |> <| w_ue; ph0 := ph_of PH |>
        <| w_ue; pcmax := PCMAX - 29 |>
  | SubCrnti _ | SubBitrateQuery _ _ | SubGrantConfirmation => w
  end.
End format.

(** ** Sub-headers *)

Lemma lcid_field (F : Z) lcid : 0 <= lcid < 64 -> Z.land (64 * F + lcid) 0x3F = lcid.
Proof. intros. change 0x3F with (Z.ones 6). rewrite Z.land_ones by lia. change (2 ^ 6) with 64.
  replace (64 * F + lcid) with (lcid + F * 64) by lia. rewrite Z_mod_plus_full. by apply Z.mod_small. Qed.

Lemma f_field lcid : 0 <= lcid < 64 -> Z.testbit (64 + lcid) 6 = true /\ Z.testbit lcid 6 = false.
Proof.
  intros. split.
  - rewrite Z.testbit_eqb by lia. change (2 ^ 6) with 64.
    replace (64 + lcid) with (lcid + 1 * 64) by lia. rewrite Z_div_plus_full, Z.div_small by lia. done.
  - rewrite Z.testbit_eqb by lia. change (2 ^ 6) with 64. by rewrite Z.div_small by lia.
Qed.

Lemma be16 n : 0 <= n -> Z.lor (Z.shiftl (n / 256) 8) (n mod 256) = n.
Proof.
  intros. rewrite lor_shift_add by (try lia; apply Z.mod_pos_bound; lia).
  change (2 ^ 8) with 256. rewrite (Z.div_mod n 256) at 3 by lia. lia.
Qed.

Lemma get_mac_len_var pre (F : bool) lcid n post pdu_len :
  0 <= lcid < 64 -> 0 <= n < (if F then 65536 else 256) ->
  Z.of_nat (length (var_header F lcid n)) <= pdu_len ->
  get_mac_len (pre ++ var_header F lcid n ++ post) (Z.of_nat (length pre)) pdu_len =
    Done (Some (n, Z.of_nat (length (var_header F lcid n)))).
Proof.
  intros Hl Hn Hp. destruct (f_field lcid Hl) as [F1 F2]. unfold get_mac_len.
  destruct F; cbn [var_header app length] in *;
    rewrite rd_off0, !rd_off by lia; rewrite (proj2 (Z.ltb_ge pdu_len 2)) by lia.
  - change (rd _ 0) with (Done (64 + lcid)). change (rd _ 1) with (Done (n / 256)).
    change (rd _ 2) with (Done (n mod 256)). cbn [mbind outcome_bind].
    rewrite F1, (proj2 (Z.ltb_ge pdu_len 3)) by lia. cbn [andb]. by rewrite be16 by lia.
  - change (rd _ 0) with (Done lcid). change (rd _ 1) with (Done n). cbn [mbind outcome_bind].
    by rewrite F2.
Qed.

Lemma lcid_of_var (F : bool) lcid n post : 0 <= lcid < 64 ->
  exists b, rd (var_header F lcid n ++ post) 0 = Done b /\ Z.land b 0x3F = lcid.
Proof.
  intros. destruct F; eexists; (split; [reflexivity|]).
  - replace (64 + lcid) with (64 * 1 + lcid) by lia. by apply lcid_field.
  - replace lcid with (64 * 0 + lcid) at 1 by lia. by apply lcid_field.
Qed.

(** ** Reports *)

Lemma overestim_pos i : 0 <= i -> 0 <= overestim_bsr_index i.
Proof. intros. unfold overestim_bsr_index. cif; lia. Qed.

Lemma rd_entry (T : list Z) i : 0 <= i < Z.of_nat (length T) -> rd T i = Done (default 0 (T !! Z.to_nat i)).
Proof.
  intros. destruct (lookup_lt_is_Some_2 T (Z.to_nat i)) as [v E]; [lia|].
  rewrite E. by apply rd_done; [lia|].
Qed.

Lemma short_table_small : Forall (fun v => 0 <= v < 2 ^ 31) NR_SHORT_BSR_TABLE.
Proof. repeat constructor; lia. Qed.

Lemma short_estimate g b :
  0 <= g < 8 -> 0 <= b < 32 -> estimate_ul_buffer_short_bsr (32 * g + b) = Done (short_size b).
Proof.
  intros Hg Hb. unfold estimate_ul_buffer_short_bsr, short_size.
  assert (E : Z.land (32 * g + b) 0x1F = b).
  { change 0x1F with (Z.ones 5). rewrite Z.land_ones by lia. change (2 ^ 5) with 32.
    replace (32 * g + b) with (b + g * 32) by lia. rewrite Z_mod_plus_full. by apply Z.mod_small. }
  rewrite E. change (Z.of_nat (length NR_SHORT_BSR_TABLE) - 1) with 31.
  pose proof (overestim_pos b). rewrite rd_entry by (change (Z.of_nat (length NR_SHORT_BSR_TABLE)) with 32; lia).
  cbn [mbind outcome_bind]. f_equal. apply s32_small.
  destruct (_ !! _) as [v|] eqn:L; cbn [default]; [|lia].
  exact (proj1 (Forall_lookup _ _) short_table_small _ _ L).
Qed.

Lemma bitmap_bits l n o :
  l !! n = Some o -> Z.testbit (lcg_bitmap l) (Z.of_nat n) = bool_decide (is_Some o).
Proof.
  revert n. induction l as [|o' l IH]; intros [|n] E; cbn [lookup list_lookup lcg_bitmap] in *; simplify_eq.
  - rewrite Z.add_comm. apply Z.add_b2z_double_bit0.
  - replace (Z.of_nat (S n)) with (Z.succ (Z.of_nat n)) by lia.
    rewrite Z.testbit_succ_r by lia. by apply IH.
Qed.

Lemma long_loop_ok l pre q post acc :
  Forall (fun o => forall i, o = Some i -> is_byte i) l ->
  long_bsr_loop ((fun o => bool_decide (is_Some o)) <$> l) (pre ++ q ++ omap id l ++ post)
    (Z.of_nat (length pre)) (Z.of_nat (length q)) acc =
  Done (foldl (fun a i => s32 (a + long_size i)) acc (omap id l)).
Proof.
  revert q acc. induction l as [|[i|] l IH]; intros q acc H; [done| |].
  - apply Forall_cons in H as [Hi Hl]. specialize (Hi i eq_refl). unfold is_byte in Hi.
    cbn [fmap list_fmap omap list_omap long_bsr_loop]. rewrite (bool_decide_true (is_Some (Some i))) by done.
    cbn [id foldl]. rewrite rd_off, rd_off0 by lia. change (rd ((i :: omap id l) ++ post) 0) with (Done i).
    cbn [mbind outcome_bind]. change (Z.of_nat (length NR_LONG_BSR_TABLE) - 1) with 255.
    pose proof (overestim_pos i).
    rewrite rd_entry by (change (Z.of_nat (length NR_LONG_BSR_TABLE)) with 256; lia). cbn [mbind outcome_bind].
    specialize (IH (q ++ [i]) (s32 (acc + long_size i)) Hl). rewrite length_app, Nat2Z.inj_add in IH.
    change (Z.of_nat (length [i])) with 1 in IH. rewrite <- (app_assoc q [i]) in IH. exact IH.
  - apply Forall_cons in H as [_ Hl]. exact (IH q acc Hl).
Qed.

Lemma long_estimate pre l post :
  length l = 8%nat -> Forall (fun o => forall i, o = Some i -> is_byte i) l ->
  estimate_ul_buffer_long_bsr (pre ++ long_bsr_ce l ++ post) (Z.of_nat (length pre)) = Done (long_sizes l).
Proof.
  intros E H. unfold estimate_ul_buffer_long_bsr. rewrite rd_off0.
  change (rd (long_bsr_ce l ++ post) 0) with (Done (lcg_bitmap l)). cbn [mbind outcome_bind].
  replace (Z.testbit (lcg_bitmap l) <$> [0; 1; 2; 3; 4; 5; 6; 7])
    with ((fun o => bool_decide (is_Some o)) <$> l).
  - pose proof (long_loop_ok l (pre ++ [lcg_bitmap l]) [] post 0 H) as L.
    rewrite <- app_assoc, length_app, Nat2Z.inj_add in L. exact L.
  - change [0; 1; 2; 3; 4; 5; 6; 7] with (Z.of_nat <$> seq 0 8). rewrite <- E. apply list_eq. intros n.
    rewrite !list_lookup_fmap. destruct (l !! n) as [o|] eqn:L.
    + rewrite lookup_seq_lt by (by eapply lookup_lt_Some). cbn [fmap option_fmap option_map Nat.add].
      by rewrite (bitmap_bits _ _ _ L).
    + rewrite lookup_seq_ge by (by apply lookup_ge_None). done.
Qed.

(** ** A sub-PDU is taken apart *)

Section steps.
Context (ra : list NR_RA_t) (harq_pid : Z) (ph_factor : Z -> Z).

Lemma omap_id_length (l : list (option Z)) : (length (omap id l) <= length l)%nat.
Proof. induction l as [|[] l IH]; cbn [omap list_omap id length]; lia. Qed.

(** The branch of the [switch] that an identifier takes. *)
Lemma switch_sdu mem pdu pdu_len w b lcid :
  rd mem pdu = Done b -> Z.land b 0x3F = lcid -> 1 <= lcid <= 2 \/ 4 <= lcid <= 32 ->
  nr_mac_subpdu ra harq_pid ph_factor mem pdu pdu_len w =
    if lcid <=? 2 then case_srb lcid mem pdu pdu_len w else case_dtch lcid mem pdu pdu_len w.
Proof.
  intros Hb Hl H. unfold nr_mac_subpdu. rewrite Hb. cbn [mbind outcome_bind]. rewrite Hl. clear Hb Hl b.
  unfold UL_SCH_LCID_RECOMMENDED_BITRATE_QUERY, UL_SCH_LCID_CONFIGURED_GRANT_CONFIRMATION, UL_SCH_LCID_S_BSR,
    UL_SCH_LCID_S_TRUNCATED_BSR, UL_SCH_LCID_L_BSR, UL_SCH_LCID_L_TRUNCATED_BSR, UL_SCH_LCID_C_RNTI,
    UL_SCH_LCID_SINGLE_ENTRY_PHR, UL_SCH_LCID_MULTI_ENTRY_PHR_1_OCT, UL_SCH_LCID_MULTI_ENTRY_PHR_4_OCT,
    UL_SCH_LCID_PADDING, UL_SCH_LCID_CCCH, UL_SCH_LCID_CCCH1, UL_SCH_LCID_SRB1, UL_SCH_LCID_SRB2, UL_SCH_LCID_DTCH.
  do 11 (rewrite (proj2 (Z.eqb_neq lcid _)) by lia; cbn [orb]).
  destruct (Z.leb_spec lcid 2).
  - destruct (decide (lcid = 1)) as [->|]; [done|]. by replace lcid with 2 by lia.
  - rewrite !(proj2 (Z.eqb_neq lcid _)) by lia. cbn [orb].
    by rewrite !(proj2 (Z.leb_le _ _)) by lia.
Qed.

(** What a branch that goes on leaves. *)
Definition step_ok (mem : list Z) (pdu pdu_len : Z) (w : walk) (s : subpdu) : Prop :=
  exists h n, nr_mac_subpdu ra harq_pid ph_factor mem pdu pdu_len w =
      Done (Skip false h n, sub_effect harq_pid ph_factor w s) /\
    h + n = Z.of_nat (length (encode_sub s)) /\ 0 < h /\ 0 <= n.

Lemma step_sdu pre F lcid sdu post pdu_len w :
  wf_sub (SubSdu F lcid sdu) -> takes ra harq_pid (w_ue w) (SubSdu F lcid sdu) ->
  Z.of_nat (length (encode_sub (SubSdu F lcid sdu))) <= pdu_len ->
  step_ok (pre ++ encode_sub (SubSdu F lcid sdu) ++ post) (Z.of_nat (length pre)) pdu_len w (SubSdu F lcid sdu).
Proof.
  cbn [wf_sub takes encode_sub]. intros [Hl Hn] Ht Hp. rewrite length_app, Nat2Z.inj_add in Hp.
  set (n := Z.of_nat (length sdu)) in *. set (h := Z.of_nat (length (var_header F lcid n))) in *.
  assert (Hh : 2 <= h) by (subst h; destruct F; cbn [var_header length]; lia).
  exists h, n. rewrite <- app_assoc.
  destruct (lcid_of_var F lcid n (sdu ++ post)) as (b & Hb & Hb2); [lia|].
  rewrite (switch_sdu _ _ _ _ b lcid); [|by rewrite rd_off0|done|done].
  assert (G : get_mac_len (pre ++ var_header F lcid n ++ sdu ++ post) (Z.of_nat (length pre)) pdu_len = Done (Some (n, h)))
    by (apply get_mac_len_var; lia).
  assert (S : slice (pre ++ var_header F lcid n ++ sdu ++ post) (Z.of_nat (length pre) + h) n = Done sdu).
  { rewrite slice_off by lia. unfold h. rewrite slice_off0. by apply slice_head. }
  split; [|cbn [encode_sub]; rewrite length_app, Nat2Z.inj_add; fold n; fold h; lia].
  unfold case_srb, case_dtch. cbn [sub_effect]. fold n. destruct (Z.leb_spec lcid 2).
  - rewrite G. cbn [mbind outcome_bind]. rewrite (Ht ltac:(done)). cbn [negb]. rewrite S. cbn [mbind outcome_bind].
    by destruct w as [[] ? ?].
  - rewrite G. cbn [mbind outcome_bind]. rewrite S. cbn [mbind outcome_bind]. by destruct w as [[] ? ?].
Qed.

Lemma step_long_bsr pre F t l post pdu_len w :
  wf_sub (SubLongBsr F t l) -> Z.of_nat (length (encode_sub (SubLongBsr F t l))) <= pdu_len ->
  step_ok (pre ++ encode_sub (SubLongBsr F t l) ++ post) (Z.of_nat (length pre)) pdu_len w (SubLongBsr F t l).
Proof.
  cbn [wf_sub encode_sub]. intros [E8 Hi] Hp. rewrite length_app, Nat2Z.inj_add in Hp.
  set (lcid := if t then _ else _) in *.
  set (n := Z.of_nat (length (long_bsr_ce l))) in *. set (h := Z.of_nat (length (var_header F lcid n))) in *.
  assert (Hh : 2 <= h) by (subst h; destruct F; cbn [var_header length]; lia).
  assert (Hn : 0 <= n <= 9).
  { subst n. unfold long_bsr_ce. cbn [length]. pose proof (omap_id_length l). lia. }
  assert (Hl : 0 <= lcid < 64) by (subst lcid; destruct t; done).
  exists h, n. rewrite <- app_assoc.
  destruct (lcid_of_var F lcid n (long_bsr_ce l ++ post) Hl) as (b & Hb & Hb2).
  assert (G : get_mac_len (pre ++ var_header F lcid n ++ long_bsr_ce l ++ post) (Z.of_nat (length pre)) pdu_len = Done (Some (n, h)))
    by (apply get_mac_len_var; destruct F; lia).
  split; [|cbn [encode_sub]; rewrite length_app, Nat2Z.inj_add; fold lcid; fold n; fold h; lia].
  unfold nr_mac_subpdu. rewrite rd_off0, Hb. cbn [mbind outcome_bind]. rewrite Hb2.
  transitivity (case_long_bsr (pre ++ var_header F lcid n ++ long_bsr_ce l ++ post) (Z.of_nat (length pre)) pdu_len w).
  { subst lcid. by destruct t. }
  unfold case_long_bsr. rewrite G. cbn [mbind outcome_bind].
  pose proof (long_estimate (pre ++ var_header F lcid n) l post E8 Hi) as L.
  rewrite <- app_assoc, length_app, Nat2Z.inj_add in L. fold h in L. rewrite L. done.
Qed.

Lemma step_ccch pre (b : bool) sdu post pdu_len w :
  let s := if b then SubCcch1 sdu else SubCcch sdu in
  wf_sub s -> Z.of_nat (length (encode_sub s)) <= pdu_len ->
  step_ok (pre ++ encode_sub s ++ post) (Z.of_nat (length pre)) pdu_len w s.
Proof.
  intros s. unfold s. clear s.
  assert (R : forall x, slice (pre ++ (x :: sdu) ++ post) (Z.of_nat (length pre) + 1) (Z.of_nat (length sdu)) = Done sdu).
  { intros x. rewrite slice_off by lia. exact (slice_mid [x] sdu post 1 _ eq_refl eq_refl). }
  destruct b; cbn [wf_sub encode_sub length].
  - intros [E8 Hz] Hp. exists 1, 8. cbn [encode_sub length]. split; [|lia].
    unfold nr_mac_subpdu. rewrite rd_off0. change (rd ((UL_SCH_LCID_CCCH1 :: sdu) ++ post) 0) with (Done UL_SCH_LCID_CCCH1).
    cbn [mbind outcome_bind]. change (Z.land UL_SCH_LCID_CCCH1 63) with UL_SCH_LCID_CCCH1.
    cbv [Z.eqb orb Pos.eqb UL_SCH_LCID_RECOMMENDED_BITRATE_QUERY UL_SCH_LCID_CONFIGURED_GRANT_CONFIRMATION UL_SCH_LCID_S_BSR
      UL_SCH_LCID_S_TRUNCATED_BSR UL_SCH_LCID_L_BSR UL_SCH_LCID_L_TRUNCATED_BSR UL_SCH_LCID_C_RNTI
      UL_SCH_LCID_SINGLE_ENTRY_PHR UL_SCH_LCID_MULTI_ENTRY_PHR_1_OCT UL_SCH_LCID_MULTI_ENTRY_PHR_4_OCT
      UL_SCH_LCID_PADDING UL_SCH_LCID_CCCH UL_SCH_LCID_CCCH1 UL_SCH_LCID_SRB1 UL_SCH_LCID_SRB2].
    unfold case_ccch. cbn [Z.eqb andb Z.add UL_SCH_LCID_CCCH1].
    rewrite (proj2 (Z.ltb_ge pdu_len _)) by lia.
    rewrite slice_off0. rewrite slice_head by (cbn [length]; lia). cbn [mbind outcome_bind forallb].
    replace (forallb (Z.eqb 0) sdu) with false.
    + specialize (R UL_SCH_LCID_CCCH1). rewrite E8 in R. unfold UL_SCH_LCID_CCCH1 in R.
      cbn [andb Z.eqb mbind outcome_bind]. change (Z.of_nat 8) with 8 in R. rewrite R. done.
    + symmetry. apply not_true_iff_false. intros Hf. rewrite forallb_forall in Hf.
      apply Exists_exists in Hz as (x & Hx & Hn). apply Hn. symmetry. apply Z.eqb_eq, Hf. by apply list_elem_of_In.
  - intros E6 Hp. exists 1, 6. cbn [encode_sub length]. split; [|lia].
    unfold nr_mac_subpdu. rewrite rd_off0. change (rd ((UL_SCH_LCID_CCCH :: sdu) ++ post) 0) with (Done UL_SCH_LCID_CCCH).
    specialize (R UL_SCH_LCID_CCCH). rewrite E6 in R. change (Z.of_nat 6) with 6 in R.
    transitivity (case_ccch UL_SCH_LCID_CCCH (pre ++ (UL_SCH_LCID_CCCH :: sdu) ++ post) (Z.of_nat (length pre)) pdu_len w); [done|].
    unfold case_ccch. change (UL_SCH_LCID_CCCH =? UL_SCH_LCID_CCCH1) with false. cbn [andb mbind outcome_bind].
    rewrite R. done.
Qed.

Lemma step_short_bsr pre t g b post pdu_len w :
  wf_sub (SubShortBsr t g b) -> 2 <= pdu_len ->
  step_ok (pre ++ encode_sub (SubShortBsr t g b) ++ post) (Z.of_nat (length pre)) pdu_len w (SubShortBsr t g b).
Proof.
  cbn [wf_sub]. intros [Hg Hb] Hp. exists 1, 1. split; [|done].
  unfold nr_mac_subpdu. rewrite rd_off0.
  transitivity (case_short_bsr (pre ++ encode_sub (SubShortBsr t g b) ++ post) (Z.of_nat (length pre)) pdu_len w);
    [by destruct t|].
  unfold case_short_bsr. rewrite (proj2 (Z.ltb_ge pdu_len _)) by lia.
  rewrite rd_off by lia. change (rd (encode_sub (SubShortBsr t g b) ++ post) 1) with (Done (32 * g + b)).
  cbn [mbind outcome_bind]. rewrite short_estimate by done. done.
Qed.

Lemma step_phr pre PH PCMAX post pdu_len w :
  wf_sub (SubPhr PH PCMAX) -> 0 <= harq_pid ->
  step_ok (pre ++ encode_sub (SubPhr PH PCMAX) ++ post) (Z.of_nat (length pre)) pdu_len w (SubPhr PH PCMAX).
Proof.
  cbn [wf_sub]. intros [H1 H2] Hp. exists 1, 2. split; [|done].
  unfold nr_mac_subpdu. rewrite rd_off0.
  transitivity (case_single_phr harq_pid ph_factor (pre ++ encode_sub (SubPhr PH PCMAX) ++ post) (Z.of_nat (length pre)) w);
    [done|].
  unfold case_single_phr. rewrite (proj2 (Z.ltb_ge harq_pid _)) by lia. rewrite !rd_off by lia.
  change (rd _ 1) with (Done PH). change (rd _ 2) with (Done PCMAX). cbn [mbind outcome_bind].
  rewrite (lcid_field 0 PH H1 : Z.land PH 63 = PH), (lcid_field 0 PCMAX H2 : Z.land PCMAX 63 = PCMAX). done.
Qed.

Lemma step_crnti pre c post pdu_len w :
  takes ra harq_pid (w_ue w) (SubCrnti c) ->
  step_ok (pre ++ encode_sub (SubCrnti c) ++ post) (Z.of_nat (length pre)) pdu_len w (SubCrnti c).
Proof.
  cbn [takes]. intros H. exists 1, 2. split; [|done].
  unfold nr_mac_subpdu. rewrite rd_off0.
  transitivity (case_crnti ra (pre ++ encode_sub (SubCrnti c) ++ post) (Z.of_nat (length pre)) w); [done|].
  unfold case_crnti. destruct (existsb _ ra) eqn:E; [|done]. exfalso.
  apply existsb_exists in E as (r & Hr & E). zbool.
  rewrite Forall_forall in H. apply (H r); [by apply list_elem_of_In|done|done].
Qed.

Lemma step_sub pre s post pdu_len w :
  wf_sub s -> takes ra harq_pid (w_ue w) s -> Z.of_nat (length (encode_sub s)) <= pdu_len ->
  step_ok (pre ++ encode_sub s ++ post) (Z.of_nat (length pre)) pdu_len w s.
Proof.
  destruct s as [F lcid sdu|sdu|sdu|t g b|F t l|PH PC|c|x y|]; intros W T L.
  - by apply step_sdu.
  - by apply (step_ccch pre false sdu).
  - by apply (step_ccch pre true sdu).
  - by apply step_short_bsr.
  - by apply step_long_bsr.
  - by apply step_phr.
  - by apply step_crnti.
  - exists 1, 2. split; [|done]. unfold nr_mac_subpdu. by rewrite rd_off0.
  - exists 1, 0. split; [|done]. unfold nr_mac_subpdu. by rewrite rd_off0.
Qed.
End steps.

(** ** The whole PDU *)

(** What a sub-PDU hands to the other layers. *)
Definition sub_outs (s : subpdu) : list mac_out :=
  match s with
  | SubSdu _ lcid sdu => [RlcDataInd lcid sdu]
  | SubCcch sdu | SubCcch1 sdu => [InitialUlRrcMessage; RlcDataInd 0 sdu]
  | _ => []
  end.

(** The UE after the sub-PDUs and the count of the SDUs of its data bearers. *)
Definition ue_after (harq_pid : Z) (ph_factor : Z -> Z) (UE : ul_ue_t) (l : list subpdu) : ul_ue_t :=
  let w := foldl (sub_effect harq_pid ph_factor) (mk_walk UE 0 []) l in
  w_ue w <| ul_num_mac_sdu ::= add32 (w_sdus w) |>.

Lemma effect_outs h f w s : w_outs (sub_effect h f w s) = w_outs w ++ sub_outs s.
Proof. destruct s; cbn [sub_effect sub_outs]; rewrite ?app_nil_r; try done. by cif. Qed.

Lemma effects_outs h f l w : w_outs (foldl (sub_effect h f) w l) = w_outs w ++ (l ≫= sub_outs).
Proof.
  revert w. induction l as [|s l IH]; intros w; [by rewrite app_nil_r|].
  cbn [foldl mbind list_bind]. by rewrite IH, effect_outs, <- app_assoc.
Qed.

Lemma effect_takes ra h f w s s' : takes ra h (w_ue w) s' -> takes ra h (w_ue (sub_effect h f w s)) s'.
Proof. intros H. destruct s; cbn [sub_effect]; try cif; exact H. Qed.

Lemma encode_sub_pos s : (0 < length (encode_sub s))%nat.
Proof. destruct s as [[]| | | |[]| | | |]; cbn [encode_sub var_header app length]; lia. Qed.

Lemma encode_length l : (length l <= length (encode l))%nat.
Proof.
  unfold encode. induction l as [|s l IH]; [done|]. cbn [mbind list_bind length]. rewrite length_app.
  pose proof (encode_sub_pos s). cbn [mbind] in IH. lia.
Qed.

Section pdus.
Context (ra : list NR_RA_t) (harq_pid : Z) (ph_factor : Z -> Z).

(** The walk over sub-PDUs, whatever follows them. *)
Lemma loop_subs l : forall k pre tail r w,
  Forall wf_sub l -> Forall (takes ra harq_pid (w_ue w)) l ->
  0 <= r -> Z.of_nat (length (encode l)) + r < 2 ^ 32 ->
  mac_pdu_loop ra harq_pid ph_factor (length l + k) (pre ++ encode l ++ tail) (Z.of_nat (length pre))
    (Z.of_nat (length (encode l)) + r) w =
  mac_pdu_loop ra harq_pid ph_factor k (pre ++ encode l ++ tail)
    (Z.of_nat (length (pre ++ encode l))) r (foldl (sub_effect harq_pid ph_factor) w l).
Proof.
  induction l as [|s l IH]; intros k pre tail r w W T Hr Hl.
  { by rewrite app_nil_r. }
  apply Forall_cons in W as [Ws Wl]. apply Forall_cons in T as [Ts Tl].
  change (encode (s :: l)) with (encode_sub s ++ encode l) in *. rewrite length_app, Nat2Z.inj_add in Hl |- *.
  pose proof (encode_sub_pos s) as Hpos. rewrite <- (app_assoc (encode_sub s)).
  destruct (step_sub ra harq_pid ph_factor pre s (encode l ++ tail)
    (Z.of_nat (length (encode_sub s)) + Z.of_nat (length (encode l)) + r) w Ws Ts)
    as (h & n & E & En & Hh & Hn); [lia|].
  cbn [length Nat.add mac_pdu_loop]. rewrite (proj2 (Z.ltb_lt 0 _)) by lia.
  rewrite E. cbn [mbind outcome_bind]. rewrite En.
  replace (u32 _) with (Z.of_nat (length (encode l)) + r)
    by (unfold u32; rewrite Z.mod_small; lia).
  rewrite (proj2 (Z.ltb_ge _ 0)) by lia.
  replace (Z.of_nat (length pre) + Z.of_nat (length (encode_sub s)))
    with (Z.of_nat (length (pre ++ encode_sub s))) by (rewrite length_app; lia).
  rewrite (app_assoc pre (encode_sub s) (encode l ++ tail)). rewrite IH; [|done| |done|lia].
  - cbn [foldl]. by rewrite <- !app_assoc.
  - eapply Forall_impl; [exact Tl|]. intros s' Hs'. by apply effect_takes.
Qed.

(** C15. The gNB takes a MAC PDU apart into exactly its sub-PDUs: for every list of
    well-formed sub-PDUs (SDUs of SRB1, SRB2 and the data bearers with either
    length of the L field, CCCH messages, buffer status reports, power headroom
    reports, C-RNTI and the other control elements), followed by nothing or by
    padding of any content, [nr_process_mac_pdu] returns 0, hands the SDUs in
    their order and byte for byte to RLC, and leaves the estimate of the buffer,
    the power headroom and the statistics that the sub-PDUs say; it reads
    nothing outside of the PDU. *)
Theorem nr_process_mac_pdu_decodes l pad pre behind UE :
  Forall wf_sub l -> Forall (takes ra harq_pid UE) l -> encode l ++ pad <> [] ->
  head pad = None \/ head pad = Some UL_SCH_LCID_PADDING ->
  Z.of_nat (length (encode l ++ pad)) < 2 ^ 32 ->
  nr_process_mac_pdu ra harq_pid ph_factor (pre ++ (encode l ++ pad) ++ behind) (Z.of_nat (length pre))
    (Z.of_nat (length (encode l ++ pad))) UE =
  Done (0, ue_after harq_pid ph_factor UE l, l ≫= sub_outs).
Proof.
  intros W T N P L. unfold nr_process_mac_pdu. rewrite rd_off0.
  replace (rd ((encode l ++ pad) ++ behind) 0) with (Done (hd 0 (encode l ++ pad)))
    by (by destruct (encode l ++ pad)).
  cbn [mbind outcome_bind]. rewrite <- (app_assoc (encode l)). pose proof (encode_length l) as Hl.
  rewrite (length_app (encode l) pad), Nat2Z.inj_add in L |- *.
  set (mem := pre ++ _).
  replace (S (length mem)) with (length l + (S (length mem) - length l))%nat
    by (unfold mem; rewrite !length_app; lia).
  unfold mem at 2. rewrite loop_subs by (done || lia). fold mem.
  set (w := foldl _ _ l).
  assert (F : w_outs w = l ≫= sub_outs) by (unfold w; by rewrite effects_outs).
  destruct (S (length mem) - length l)%nat as [|k] eqn:K.
  { exfalso. unfold mem in K. rewrite !length_app in K. lia. }
  cbn [mac_pdu_loop]. destruct pad as [|x pad]; cbn [length].
  - cbn [Z.of_nat Z.ltb Z.compare]. cbn [mbind outcome_bind]. by rewrite <- F.
  - destruct P as [P|P]; [done|]. cbn [head] in P. injection P as ->.
    rewrite (proj2 (Z.ltb_lt 0 _)) by lia.
    assert (E : nr_mac_subpdu ra harq_pid ph_factor mem (Z.of_nat (length (pre ++ encode l)))
      (Z.of_nat (S (length pad))) w = Done (Skip true 1 0, w)).
    { unfold nr_mac_subpdu, mem. rewrite (app_assoc pre), rd_off0. done. }
    rewrite E. cbn [mbind outcome_bind]. unfold u32. rewrite Z.mod_small by (cbn [length] in L; lia).
    rewrite (proj2 (Z.ltb_ge _ 0)) by lia. cbn [mbind outcome_bind]. by rewrite <- F.
Qed.
End pdus.

Definition example_subs : list subpdu :=
  [SubSdu true 4 [11; 12; 13]; SubSdu false 1 [7]; SubLongBsr false false [Some 5; None; None; Some 9; None; None; None; None];
   SubPhr 40 50; SubShortBsr true 3 20; SubSdu false 32 []; SubCrnti 0x4601].
Definition example_ul_ue : ul_ue_t := mk_ul_ue 0x1234 true 0 0 0 0 0 0 (replicate 64 0).

Lemma nr_process_mac_pdu_decodes_witness :
  nr_process_mac_pdu [] 0 (fun _ => 3) ([9; 9] ++ (encode example_subs ++ [63; 0; 0]) ++ [8]) (Z.of_nat (length [9; 9]))
    (Z.of_nat (length (encode example_subs ++ [63; 0; 0]))) example_ul_ue =
  Done (0, ue_after 0 (fun _ => 3) example_ul_ue example_subs, example_subs ≫= sub_outs).
Proof.
  apply (nr_process_mac_pdu_decodes [] 0 (fun _ => 3) example_subs [63; 0; 0] [9; 9] [8] example_ul_ue).
  - unfold example_subs. rewrite !Forall_cons. cbn [wf_sub length]. unfold is_byte.
    rewrite !Forall_cons. repeat split; try apply Forall_nil_2; try lia; intros; simplify_eq; lia.
  - repeat constructor; cbn; lia || done.
  - discriminate.
  - by right.
  - vm_compute. done.
Defined.

(** The same PDU, run. *)
Example example_decodes :
  (fun '(r, u, o) => (r, estimated_ul_buffer u, ul_num_mac_sdu u, ph u, o)) <$>
    match nr_process_mac_pdu [] 0 (fun _ => 3) (encode example_subs) 0 (Z.of_nat (length (encode example_subs))) example_ul_ue
    with Done x => Some x | _ => None end =
  Some (0, 7587, 2, 11, [RlcDataInd 4 [11; 12; 13]; RlcDataInd 1 [7]; RlcDataInd 32 []]).
Proof. vm_compute. reflexivity. Qed.

(** ** Termination

    Every turn of the walk moves at least one byte on in the memory. *)
Lemma get_mac_len_bounds mem pdu pdu_len n h :
  get_mac_len mem pdu pdu_len = Done (Some (n, h)) -> Forall is_byte mem -> 0 <= n < 65536 /\ 2 <= h <= 3.
Proof.
  unfold get_mac_len. cif; [done|]. intros H B.
  apply outcome_bind_done in H as (b & _ & H). revert H. cif; [done|]. cif; intros H.
  - apply outcome_bind_done in H as (hi & R1 & E2). apply outcome_bind_done in E2 as (lo & R2 & E3).
    injection E3 as <- <-. pose proof (rd_byte _ _ _ B R1). pose proof (rd_byte _ _ _ B R2). unfold is_byte in *.
    rewrite lor_shift_add by lia. lia.
  - apply outcome_bind_done in H as (L & R1 & H). injection H as <- <-.
    pose proof (rd_byte _ _ _ B R1). unfold is_byte in *. lia.
Qed.

(** Inverts the binds and conditions of a branch that ended normally. *)
Ltac run_inv :=
  repeat match goal with
  | |- (if ?c then _ else _) = _ -> _ => destruct c eqn:?
  | |- Done _ = Done _ -> _ => let H := fresh in intros H; simplify_eq H
  | |- Exit = _ -> _ => discriminate
  | |- Undef = _ -> _ => discriminate
  | |- mbind _ _ = Done _ -> _ =>
      let H := fresh in let x := fresh "x" in let R := fresh "R" in
      intros H; apply outcome_bind_done in H as (x & R & H); revert H; cbn beta iota
  | x : option (Z * Z) |- match ?x with _ => _ end = _ -> _ => destruct x as [[? ?]|]
  end.

Lemma subpdu_moves ra h f mem pdu pdu_len w d a n w' :
  Forall is_byte mem -> nr_mac_subpdu ra h f mem pdu pdu_len w = Done (Skip d a n, w') -> 1 <= a /\ 0 <= n.
Proof.
  intros B. unfold nr_mac_subpdu.
  unfold case_short_bsr, case_long_bsr, case_crnti, case_single_phr, case_multi_phr, case_srb, case_ccch, case_dtch.
  run_inv; intros; simplify_eq; try lia.
  all: try match goal with G : get_mac_len _ _ _ = Done (Some _) |- _ =>
    apply get_mac_len_bounds in G; [lia|done] end.
  all: split; [lia|]; cif; lia.
Qed.

(** A turn of the loop, from its condition on: the function returns, or the walk goes on from another place. *)
Definition cursor : Type := Z * Z * walk.
Definition mac_pdu_turn (ra : list NR_RA_t) (h : Z) (f : Z -> Z) (mem : list Z) (c : cursor) : outcome (Z * walk + cursor) :=
  let '(pdu, pdu_len, w) := c in
  if 0 <? pdu_len then
    '(e, w) ← nr_mac_subpdu ra h f mem pdu pdu_len w;
    match e with
    | Return r => Done (inl (r, w))
    | Skip done mac_subheader_len mac_len =>
        let pdu_len := u32 (pdu_len - (mac_subheader_len + mac_len)) in
        if pdu_len <? 0 then Done (inl (0, w))
        else if (done : bool) then Done (inl (0, w <| w_ue; ul_num_mac_sdu ::= add32 (w_sdus w) |>))
        else Done (inr (pdu + (mac_subheader_len + mac_len), pdu_len, w))
    end
  else Done (inl (0, w <| w_ue; ul_num_mac_sdu ::= add32 (w_sdus w) |>)).

(** [k] turns after which the walk goes on. *)
Inductive turns (ra : list NR_RA_t) (h : Z) (f : Z -> Z) (mem : list Z) : nat -> cursor -> cursor -> Prop :=
| turns_none c : turns ra h f mem 0 c c
| turns_more k c c1 c2 : mac_pdu_turn ra h f mem c = Done (inr c1) -> turns ra h f mem k c1 c2 -> turns ra h f mem (S k) c c2.

Lemma loop_turn ra h f fuel mem pdu pdu_len w :
  mac_pdu_loop ra h f (S fuel) mem pdu pdu_len w =
    t ← mac_pdu_turn ra h f mem (pdu, pdu_len, w);
    match t with inl x => Done x | inr (pdu, pdu_len, w) => mac_pdu_loop ra h f fuel mem pdu pdu_len w end.
Proof.
  cbn [mac_pdu_loop mac_pdu_turn]. cif; [|done].
  destruct (nr_mac_subpdu _ _ _ _ _ _ _) as [[[d a n|r] w']| |]; cbn [mbind outcome_bind]; try done.
  cif; [done|]. by destruct d.
Qed.

(** A turn that goes on was inside of the memory. *)
Lemma turn_moves ra h f mem pdu pdu_len w pdu' pdu_len' w' :
  Forall is_byte mem -> 0 <= pdu -> mac_pdu_turn ra h f mem (pdu, pdu_len, w) = Done (inr (pdu', pdu_len', w')) ->
  pdu < Z.of_nat (length mem) /\ pdu < pdu'.
Proof.
  intros B Hp. unfold mac_pdu_turn. cif; [|done].
  destruct (nr_mac_subpdu _ _ _ _ _ _ _) as [[[d a n|r] w1]| |] eqn:E1; cbn [mbind outcome_bind]; try done.
  pose proof (subpdu_moves _ _ _ _ _ _ _ _ _ _ _ B E1) as [Ha Hn]. cif; [done|]. destruct d; [done|]. intros [= <- _ _].
  split; [|lia]. destruct (decide (pdu < Z.of_nat (length mem))); [done|]. unfold nr_mac_subpdu, rd in E1.
  rewrite (proj2 (Z.ltb_ge pdu 0)), (proj2 (lookup_ge_None mem _)) in E1 by lia. done.
Qed.

Lemma turns_end ra h f mem : Forall is_byte mem -> forall m pdu pdu_len w, 0 <= pdu ->
  Z.of_nat (length mem) - pdu <= Z.of_nat m ->
  exists k last, (k <= m)%nat /\ turns ra h f mem k (pdu, pdu_len, w) last /\
    (forall c, mac_pdu_turn ra h f mem last <> Done (inr c)) /\
    forall fuel, (k < fuel)%nat -> mac_pdu_loop ra h f fuel mem pdu pdu_len w =
      t ← mac_pdu_turn ra h f mem last; match t with inl x => Done x | inr _ => Undef end.
Proof.
  intros B. induction m as [|m IH]; intros pdu pdu_len w Hp Hm;
    (destruct (mac_pdu_turn ra h f mem (pdu, pdu_len, w)) as [[x|[[pdu' pdu_len'] w']]| |] eqn:E;
     [exists 0%nat, (pdu, pdu_len, w)| |exists 0%nat, (pdu, pdu_len, w)|exists 0%nat, (pdu, pdu_len, w)]).
  all: try (split; [lia|]; split; [constructor|]; rewrite E; split; [done|]; intros [|fuel] Hf; [lia|]; by rewrite loop_turn, E).
  - destruct (turn_moves _ _ _ _ _ _ _ _ _ _ B Hp E). lia.
  - destruct (turn_moves _ _ _ _ _ _ _ _ _ _ B Hp E) as [H1 H2].
    destruct (IH pdu' pdu_len' w') as (k & last & Hk & T & N & F); [lia|lia|].
    exists (S k), last. split; [lia|]. split; [by econstructor|]. split; [done|]. intros [|fuel] Hf; [lia|].
    rewrite loop_turn, E. cbn [mbind outcome_bind]. apply F. lia.
Qed.

(** C29. The walk over the sub-PDUs ends, whatever bytes were received and although
    the remaining length wraps: after at most as many turns as there are bytes of
    memory the walk is at a turn that does not go on (it returns, or it reads
    outside of the memory), and the loop gives what this turn gives, for every
    number of turns allowed above that, the one of [nr_process_mac_pdu]
    included. *)
Theorem nr_process_mac_pdu_terminates ra h f mem pdu pdu_len w :
  Forall is_byte mem -> 0 <= pdu ->
  exists k last, (k <= length mem)%nat /\ turns ra h f mem k (pdu, pdu_len, w) last /\
    (forall c, mac_pdu_turn ra h f mem last <> Done (inr c)) /\
    forall fuel, (k < fuel)%nat -> mac_pdu_loop ra h f fuel mem pdu pdu_len w =
      t ← mac_pdu_turn ra h f mem last; match t with inl x => Done x | inr _ => Undef end.
Proof. intros B Hp. apply turns_end; [done|lia..]. Qed.

Lemma nr_process_mac_pdu_terminates_witness :
  exists k last, (k <= 5)%nat /\ turns [] 0 (fun _ => 0) [68; 0; 1; 5; 63] k (0, 5, mk_walk example_ul_ue 0 []) last /\
    (forall c, mac_pdu_turn [] 0 (fun _ => 0) [68; 0; 1; 5; 63] last <> Done (inr c)) /\
    mac_pdu_loop [] 0 (fun _ => 0) 6 [68; 0; 1; 5; 63] 0 5 (mk_walk example_ul_ue 0 []) =
      t ← mac_pdu_turn [] 0 (fun _ => 0) [68; 0; 1; 5; 63] last; match t with inl x => Done x | inr _ => Undef end.
Proof.
  destruct (nr_process_mac_pdu_terminates [] 0 (fun _ => 0) [68; 0; 1; 5; 63] 0 5 (mk_walk example_ul_ue 0 []))
    as (k & last & Hk & T & N & F).
  - repeat constructor; done.
  - lia.
  - exists k, last. split; [exact Hk|]. split; [exact T|]. split; [exact N|]. apply F. cbn in Hk. lia.
Defined.

(** ** Malformed PDUs *)

Section malformed.
Context (ra : list NR_RA_t) (harq_pid : Z) (ph_factor : Z -> Z).

(** The run of the walk up to a sub-PDU that stops it. *)
Lemma process_prefix l tail UE :
  Forall wf_sub l -> Forall (takes ra harq_pid UE) l -> tail <> [] ->
  Z.of_nat (length (encode l ++ tail)) < 2 ^ 32 ->
  exists k, nr_process_mac_pdu ra harq_pid ph_factor (encode l ++ tail) 0 (Z.of_nat (length (encode l ++ tail))) UE =
    '(r, w) ← mac_pdu_loop ra harq_pid ph_factor (S k) (encode l ++ tail) (Z.of_nat (length (encode l)))
      (Z.of_nat (length tail)) (foldl (sub_effect harq_pid ph_factor) (mk_walk UE 0 []) l);
    Done (r, w_ue w, w_outs w).
Proof.
  intros W T N L. pose proof (encode_length l) as Hl.
  assert (Ht : (0 < length tail)%nat) by (destruct tail; cbn [length]; lia || done).
  exists (length (encode l ++ tail) - length l)%nat. unfold nr_process_mac_pdu.
  rewrite rd_entry by (rewrite length_app in *; lia). cbn [mbind outcome_bind]. rewrite length_app, Nat2Z.inj_add in L |- *.
  replace (S (length (encode l) + length tail))
    with (length l + S (length (encode l) + length tail - length l))%nat by lia.
  pose proof (loop_subs ra harq_pid ph_factor l (S (length (encode l) + length tail - length l)) [] tail
    (Z.of_nat (length tail)) (mk_walk UE 0 []) W T) as E.
  rewrite !app_nil_l in E. change (Z.of_nat (length [])) with 0 in E. rewrite E by lia. done.
Qed.

(** The length field of an SDU is not checked against what is left of the PDU:
    when the sub-header of the last sub-PDU announces more bytes than follow,
    the SDU given to RLC is read from behind the PDU, an access out of bounds
    when nothing lies there. *)
Theorem nr_process_mac_pdu_overread l F lcid n rest UE :
  Forall wf_sub l -> Forall (takes ra harq_pid UE) l -> 4 <= lcid <= 32 ->
  Z.of_nat (length rest) < n < (if F : bool then 65536 else 256) ->
  Z.of_nat (length (encode l ++ var_header F lcid n ++ rest)) < 2 ^ 32 ->
  nr_process_mac_pdu ra harq_pid ph_factor (encode l ++ var_header F lcid n ++ rest) 0
    (Z.of_nat (length (encode l ++ var_header F lcid n ++ rest))) UE = Undef.
Proof.
  intros W T Hl Hn L.
  destruct (process_prefix l (var_header F lcid n ++ rest) UE W T) as (k & ->); [by destruct F|done|].
  cbn [mac_pdu_loop]. set (w := foldl _ _ _).
  assert (Hh : (2 <= length (var_header F lcid n))%nat) by (destruct F; cbn [var_header length]; lia).
  rewrite (proj2 (Z.ltb_lt 0 _)) by (rewrite length_app; lia).
  destruct (lcid_of_var F lcid n rest) as (b & Hb & Hb2); [lia|].
  rewrite (switch_sdu ra harq_pid ph_factor _ _ _ _ b lcid); [|by rewrite rd_off0|done|lia].
  rewrite (proj2 (Z.leb_gt lcid 2)) by lia. unfold case_dtch.
  rewrite get_mac_len_var; [|lia|lia|rewrite length_app; lia]. cbn [mbind outcome_bind].
  unfold slice. rewrite !length_app.
  rewrite (proj2 (Z.ltb_lt (Z.of_nat (length (encode l) + (length (var_header F lcid n) + length rest))) _)) by lia.
  by rewrite orb_true_r.
Qed.

(** SRB3 has an identifier ([UL_SCH_LCID_SRB3]) but no branch: a sub-PDU of
    SRB3 ends the walk with -1, whatever SDUs follow it are lost, and the SDUs
    in front of it, though delivered, are not counted in [num_mac_sdu]. *)
Theorem nr_process_mac_pdu_srb3 l F sdu rest UE :
  Forall wf_sub l -> Forall (takes ra harq_pid UE) l ->
  Z.of_nat (length (encode l ++ encode_sub (SubSdu F UL_SCH_LCID_SRB3 sdu) ++ rest)) < 2 ^ 32 ->
  nr_process_mac_pdu ra harq_pid ph_factor (encode l ++ encode_sub (SubSdu F UL_SCH_LCID_SRB3 sdu) ++ rest) 0
    (Z.of_nat (length (encode l ++ encode_sub (SubSdu F UL_SCH_LCID_SRB3 sdu) ++ rest))) UE =
  Done (-1, w_ue (foldl (sub_effect harq_pid ph_factor) (mk_walk UE 0 []) l), l ≫= sub_outs).
Proof.
  intros W T L.
  destruct (process_prefix l (encode_sub (SubSdu F UL_SCH_LCID_SRB3 sdu) ++ rest) UE W T) as (k & ->);
    [by destruct F|done|].
  cbn [mac_pdu_loop]. set (w := foldl _ _ _).
  rewrite (proj2 (Z.ltb_lt 0 _))
    by (rewrite length_app; pose proof (encode_sub_pos (SubSdu F UL_SCH_LCID_SRB3 sdu)); lia).
  assert (F' : w_outs w = l ≫= sub_outs) by (unfold w; by rewrite effects_outs).
  unfold nr_mac_subpdu. rewrite rd_off0. rewrite <- F'. by destruct F.
Qed.
End malformed.

Lemma nr_process_mac_pdu_overread_witness :
  nr_process_mac_pdu [] 0 (fun _ => 0) (encode [SubSdu true 4 [1; 2]] ++ var_header false 5 9 ++ [1]) 0
    (Z.of_nat (length (encode [SubSdu true 4 [1; 2]] ++ var_header false 5 9 ++ [1]))) example_ul_ue = Undef.
Proof.
  apply (nr_process_mac_pdu_overread [] 0 (fun _ => 0) [SubSdu true 4 [1; 2]] false 5 9 [1] example_ul_ue);
    [rewrite Forall_singleton; cbn; lia | rewrite Forall_singleton; done | lia | cbn; lia | vm_compute; done].
Defined.

Lemma nr_process_mac_pdu_srb3_witness :
  nr_process_mac_pdu [] 0 (fun _ => 0) (encode [SubSdu true 4 [1; 2]] ++ encode_sub (SubSdu true 3 [7]) ++ [5; 1; 6]) 0
    (Z.of_nat (length (encode [SubSdu true 4 [1; 2]] ++ encode_sub (SubSdu true 3 [7]) ++ [5; 1; 6]))) example_ul_ue =
  Done (-1, w_ue (foldl (sub_effect 0 (fun _ => 0)) (mk_walk example_ul_ue 0 []) [SubSdu true 4 [1; 2]]),
    [RlcDataInd 4 [1; 2]]).
Proof.
  apply (nr_process_mac_pdu_srb3 [] 0 (fun _ => 0) [SubSdu true 4 [1; 2]] true [7] [5; 1; 6] example_ul_ue);
    [rewrite Forall_singleton; cbn; lia | rewrite Forall_singleton; done | vm_compute; done].
Defined.

(** ** What no PDU changes *)

(** The fields that a walk keeps: the identity of the UE, the size of the
    statistics, and the entry of the identifier that has no branch. *)
Record same_ue (u v : ul_ue_t) : Prop := {
  su_rnti : ul_rnti v = ul_rnti u;
  su_group : ul_CellGroup v = ul_CellGroup u;
  su_length : length (ul_lc_bytes v) = length (ul_lc_bytes u);
  su_srb3 : ul_lc_bytes v !! Z.to_nat UL_SCH_LCID_SRB3 = ul_lc_bytes u !! Z.to_nat UL_SCH_LCID_SRB3
}.

#[export] Instance same_ue_preorder : PreOrder same_ue.
Proof. split; [done|]. intros u v w [] []. split; congruence. Qed.

Lemma lc_bytes_alter f lcid u v :
  ul_rnti v = ul_rnti u -> ul_CellGroup v = ul_CellGroup u ->
  ul_lc_bytes v = alter f (Z.to_nat lcid) (ul_lc_bytes u) -> 0 <= lcid -> lcid <> UL_SCH_LCID_SRB3 -> same_ue u v.
Proof.
  intros E1 E2 E3 H N. split; [done|done|by rewrite E3, length_alter|].
  rewrite E3, list_lookup_alter_ne; [done|]. unfold UL_SCH_LCID_SRB3 in *. lia.
Qed.

Lemma subpdu_same ra h f mem pdu pdu_len w e w' :
  nr_mac_subpdu ra h f mem pdu pdu_len w = Done (e, w') -> same_ue (w_ue w) (w_ue w').
Proof.
  unfold nr_mac_subpdu. intros E. apply outcome_bind_done in E as (b & R & E). revert E. cbn zeta.
  assert (Hb : 0 <= Z.land b 0x3F) by (apply Z.land_nonneg; lia). set (lcid := Z.land b 0x3F) in *.
  unfold case_short_bsr, case_long_bsr, case_crnti, case_single_phr, case_multi_phr, case_srb, case_ccch, case_dtch.
  run_inv; intros; simplify_eq; try done.
  all: eapply lc_bytes_alter; [done|done|reflexivity|done|].
  all: zbool; unfold UL_SCH_LCID_SRB3, UL_SCH_LCID_SRB1, UL_SCH_LCID_SRB2, UL_SCH_LCID_DTCH in *; try lia.
  all: destruct_or?; zbool; lia.
Qed.

Lemma loop_same ra h f fuel : forall mem pdu pdu_len w r w',
  mac_pdu_loop ra h f fuel mem pdu pdu_len w = Done (r, w') -> same_ue (w_ue w) (w_ue w').
Proof.
  induction fuel as [|fuel IH]; intros mem pdu pdu_len w r w'; [done|]. cbn [mac_pdu_loop]. cif.
  - intros H. apply outcome_bind_done in H as ([e w1] & E1 & H). apply subpdu_same in E1.
    transitivity (w_ue w1); [done|]. revert H. destruct e as [d a n|r0]; [|by intros; simplify_eq].
    cif; [by intros; simplify_eq|]. destruct d; [by intros; simplify_eq|]. apply IH.
  - by intros; simplify_eq.
Qed.

(** No uplink PDU, well formed or not, changes the byte counter of logical
    channel 3: the walk has no branch for it and the data bearers start at 4.
    The E2 agent reports this counter as the uplink volume of the UE
    ([ul_aggr_bytes_sdus] of ran_func_mac.c), which therefore stays constant. *)
Theorem ul_lc_bytes_3_constant ra h f mem pdu pdu_len UE r UE' outs :
  nr_process_mac_pdu ra h f mem pdu pdu_len UE = Done (r, UE', outs) ->
  ul_lc_bytes UE' !! 3%nat = ul_lc_bytes UE !! 3%nat.
Proof.
  unfold nr_process_mac_pdu. intros H. apply outcome_bind_done in H as (b & _ & H).
  apply outcome_bind_done in H as ([r0 w] & E & H). injection H as <- <- <-.
  apply loop_same in E. exact (su_srb3 _ _ E).
Qed.

Lemma ul_lc_bytes_3_constant_witness :
  ul_lc_bytes (ue_after 0 (fun _ => 3) example_ul_ue example_subs) !! 3%nat = ul_lc_bytes example_ul_ue !! 3%nat.
Proof.
  eapply (ul_lc_bytes_3_constant [] 0 (fun _ => 3) (encode example_subs) 0 (Z.of_nat (length (encode example_subs)))
    example_ul_ue). vm_compute. reflexivity.
Defined.

(** ** The look-ahead for a C-RNTI *)

(** A sub-PDU whose sub-header has a length field. *)
Definition var_sub (s : subpdu) : Prop :=
  match s with SubSdu _ _ _ | SubLongBsr _ _ _ => True | _ => False end.

Lemma var_sub_shape s : wf_sub s -> var_sub s -> exists F lcid body,
  encode_sub s = var_header F lcid (Z.of_nat (length body)) ++ body /\ 0 <= lcid < 64 /\ lcid <> UL_SCH_LCID_C_RNTI /\
  Z.of_nat (length body) < (if F : bool then 65536 else 256).
Proof.
  destruct s as [F lcid sdu| | | |F t l| | | |]; try done; cbn [wf_sub encode_sub]; intros H _.
  - exists F, lcid, sdu. unfold UL_SCH_LCID_C_RNTI. repeat split; try done; lia.
  - exists F, (if t then UL_SCH_LCID_L_TRUNCATED_BSR else UL_SCH_LCID_L_BSR), (long_bsr_ce l).
    destruct H as [H8 _]. pose proof (omap_id_length l). unfold long_bsr_ce. cbn [length].
    repeat split; destruct t, F; try done; lia.
Qed.

Lemma crnti_loop_subs l : forall k pre tail r,
  Forall wf_sub l -> Forall var_sub l -> 3 <= r ->
  crnti_loop (length l + k) (pre ++ encode l ++ tail) (Z.of_nat (length pre)) (Z.of_nat (length (encode l)) + r) =
  crnti_loop k (pre ++ encode l ++ tail) (Z.of_nat (length (pre ++ encode l))) r.
Proof.
  induction l as [|s l IH]; intros k pre tail r W V Hr; [by rewrite app_nil_r|].
  apply Forall_cons in W as [Ws Wl]. apply Forall_cons in V as [Vs Vl].
  change (encode (s :: l)) with (encode_sub s ++ encode l).
  destruct (var_sub_shape s Ws Vs) as (F & lcid & body & E & Hl & Hc & Hb). rewrite E.
  set (n := Z.of_nat (length body)) in *. set (h := var_header F lcid n).
  rewrite !length_app, !Nat2Z.inj_add. rewrite <- !(app_assoc h), <- (app_assoc body). fold n.
  cbn [length Nat.add crnti_loop]. rewrite (proj2 (Z.ltb_ge _ 3)) by lia.
  destruct (lcid_of_var F lcid n (body ++ encode l ++ tail) Hl) as (b & Hb1 & Hb2).
  rewrite rd_off0. fold h in Hb1. rewrite Hb1. cbn [mbind outcome_bind]. rewrite Hb2, (proj2 (Z.eqb_neq _ _)) by done.
  assert (G := get_mac_len_var pre F lcid n (body ++ encode l ++ tail)
    (Z.of_nat (length h) + n + Z.of_nat (length (encode l)) + r) Hl ltac:(lia) ltac:(fold h; lia)).
  fold h in G. rewrite G. cbn [mbind outcome_bind].
  rewrite (proj2 (Z.leb_le _ _)) by lia.
  replace (Z.of_nat (length h) + n + Z.of_nat (length (encode l)) + r - (n + Z.of_nat (length h)))
    with (Z.of_nat (length (encode l)) + r) by lia.
  specialize (IH k (pre ++ h ++ body) tail r Wl Vl Hr).
  rewrite !length_app, !Nat2Z.inj_add, <- !app_assoc in IH. fold n in IH.
  replace (Z.of_nat (length pre) + (n + Z.of_nat (length h)))
    with (Z.of_nat (length pre) + (Z.of_nat (length h) + n)) by lia.
  rewrite IH. f_equal. lia.
Qed.

(** The look-ahead of the gNB finds the C-RNTI that an uplink PDU carries:
    behind any SDUs and long buffer status reports it returns the identity of
    the control element, read with its most significant byte first as TS 38.321
    6.1.3.2 defines it, whatever follows. *)
Theorem lcid_crnti_lookahead_finds l crnti rest :
  Forall wf_sub l -> Forall var_sub l -> 0 <= crnti < 65536 ->
  lcid_crnti_lookahead (encode l ++ encode_sub (SubCrnti crnti) ++ rest) 0
    (Z.of_nat (length (encode l ++ encode_sub (SubCrnti crnti) ++ rest))) = Done crnti.
Proof.
  intros W V H. unfold lcid_crnti_lookahead. rewrite Nat2Z.id.
  pose proof (encode_length l) as Hl. rewrite !length_app, Nat2Z.inj_add.
  replace (S (length (encode l) + (length (encode_sub (SubCrnti crnti)) + length rest)))
    with (length l + S (length (encode l) - length l + (3 + length rest)))%nat by (cbn [encode_sub length]; lia).
  pose proof (crnti_loop_subs l (S (length (encode l) - length l + (3 + length rest))) []
    (encode_sub (SubCrnti crnti) ++ rest) (Z.of_nat (length (encode_sub (SubCrnti crnti)) + length rest)) W V) as E.
  rewrite !app_nil_l in E. change (Z.of_nat (length [])) with 0 in E.
  rewrite E by (cbn [encode_sub length]; lia). cbn [crnti_loop].
  rewrite (proj2 (Z.ltb_ge _ 3)) by (cbn [encode_sub length]; lia).
  rewrite rd_off0, !rd_off by lia. cbn [encode_sub app].
  change (rd _ 0) with (Done UL_SCH_LCID_C_RNTI). change (rd _ 1) with (Done (crnti / 256)).
  change (rd _ 2) with (Done (crnti mod 256)). cbn [mbind outcome_bind].
  change (Z.land UL_SCH_LCID_C_RNTI 63 =? UL_SCH_LCID_C_RNTI) with true. cbn iota.
  change 255 with (Z.ones 8). rewrite !Z.land_ones by lia. change (2 ^ 8) with 256.
  rewrite (Z.mod_small (crnti / 256)) by (split; [apply Z.div_pos|apply Z.div_lt_upper_bound]; lia). rewrite Zmod_mod, be16 by lia. done.
Qed.

Lemma lcid_crnti_lookahead_finds_witness :
  lcid_crnti_lookahead (encode [SubSdu true 1 [5; 6]] ++ encode_sub (SubCrnti 0x4601) ++ [63]) 0
    (Z.of_nat (length (encode [SubSdu true 1 [5; 6]] ++ encode_sub (SubCrnti 0x4601) ++ [63]))) = Done 0x4601.
Proof.
  apply (lcid_crnti_lookahead_finds [SubSdu true 1 [5; 6]] 0x4601 [63]);
    [rewrite Forall_singleton; cbn; lia | by rewrite Forall_singleton | lia].
Defined.
