(* ===== verification/MacUe.v ===== *)
(** * Buffer status of the UE's MAC

    The scheduling information that the MAC entity of the UE keeps per logical
    channel and per logical channel group (NR_UE_SCHEDULING_INFO of
    openair2/LAYER2/NR_MAC_UE/mac_defs.h), the timers of common/utils/nr, and the
    procedures of nr_ue_scheduler.c that keep it: [nr_update_bsr] at every slot,
    [update_mac_timers], the refill of the token buckets [Bj], the pending
    scheduling requests, and the search of the index that stands for a buffer
    size in a report.  RLC is behind an interface, [UeRlc]. *)
From S2P Require Import Prelude MacPdu.

(** ** Timers (common/utils/nr/nr_common.c) *)

Definition UINT_MAX : Z := 2 ^ 32 - 1.
Definition INT_MAX : Z := 2 ^ 31 - 1.

Record NR_timer_t := mk_nr_timer { active : bool; counter : Z; target : Z; step : Z }.
#[export] Instance nr_timer_eta : Eta NR_timer_t := fun t => mk_nr_timer (active t) (counter t) (target t) (step t).

Definition nr_timer_start (timer : NR_timer_t) : NR_timer_t := timer <| active := true |> <| counter := 0 |>.
Definition nr_timer_stop (timer : NR_timer_t) : NR_timer_t := timer <| active := false |> <| counter := 0 |>.
Definition is_nr_timer_active (timer : NR_timer_t) : bool := active timer.
Definition nr_timer_expired (timer : NR_timer_t) : bool :=
  if target timer =? UINT_MAX then false else target timer <=? counter timer.
Definition nr_timer_tick (timer : NR_timer_t) : bool * NR_timer_t :=
  if active timer then
    let timer := timer <| counter ::= add32 (step timer) |> in
    if target timer =? UINT_MAX then (false, timer)
    else if nr_timer_expired timer then (true, timer <| active := false |>) else (false, timer)
  else (false, timer).
Definition nr_timer_elapsed_time (timer : NR_timer_t) : Z := counter timer.
Definition nr_timer_setup (timer : NR_timer_t) (tgt stp : Z) : NR_timer_t :=
  nr_timer_stop (timer <| target := tgt |> <| step := stp |>).

(** ** Scheduling information *)

Definition NR_MAX_NUM_LCID : Z := 32.
Definition NR_MAX_NUM_LCGID : Z := 8.
Definition NR_INVALID_LCGID : Z := NR_MAX_NUM_LCGID.
Definition NR_MAX_SR_ID : Z := 8.
Definition NR_BSR_TRIGGER_NONE : Z := 0.
Definition NR_BSR_TRIGGER_REGULAR : Z := 1.
Definition NR_BSR_TRIGGER_PERIODIC : Z := 2.
Definition NR_BSR_TRIGGER_PADDING : Z := 4.

Record NR_LC_SCHEDULING_INFO := mk_lc {
  LCID_buffer_remain : Z;
  LCID_buffer_with_data : bool;
  LCGID : Z;
  Bj : Z;
  Bj_timer : NR_timer_t
}.
#[export] Instance lc_eta : Eta NR_LC_SCHEDULING_INFO := fun l =>
  mk_lc (LCID_buffer_remain l) (LCID_buffer_with_data l) (LCGID l) (Bj l) (Bj_timer l).

Record NR_LCG_SCHEDULING_INFO := mk_lcg { BSR : Z; BSR_bytes : Z }.
#[export] Instance lcg_eta : Eta NR_LCG_SCHEDULING_INFO := fun g => mk_lcg (BSR g) (BSR_bytes g).

Record nr_sr_info_t := mk_sr {
  active_SR_ID : bool;
  sr_pending : bool;
  sr_counter : Z;
  prohibitTimer : NR_timer_t;
  maxTransmissions : Z
}.
#[export] Instance sr_eta : Eta nr_sr_info_t := fun s =>
  mk_sr (active_SR_ID s) (sr_pending s) (sr_counter s) (prohibitTimer s) (maxTransmissions s).

Record NR_UE_SCHEDULING_INFO := mk_sched {
  lc_sched_info : list NR_LC_SCHEDULING_INFO;
  lcg_sched_info : list NR_LCG_SCHEDULING_INFO;
  sr_info : list nr_sr_info_t;
  BSR_reporting_active : Z;
  regularBSR_trigger_lcid : Z;
  sr_DelayTimer : NR_timer_t;
  retxBSR_Timer : NR_timer_t;
  periodicBSR_Timer : NR_timer_t
}.
#[export] Instance sched_eta : Eta NR_UE_SCHEDULING_INFO := fun s =>
  mk_sched (lc_sched_info s) (lcg_sched_info s) (sr_info s) (BSR_reporting_active s) (regularBSR_trigger_lcid s)
    (sr_DelayTimer s) (retxBSR_Timer s) (periodicBSR_Timer s).

Record nr_lcordered_info_t := mk_lco {
  lcid : Z;
  sr_id : Z;
  priority : Z;
  pbr : Z;
  bucket_size : Z;
  sr_DelayTimerApplied : bool;
  lc_SRMask : bool
}.

(** The fields of [NR_UE_MAC_INST_t] that the multiplexing uses. *)
Record NR_UE_MAC_INST_t := mk_mac {
  lc_ordered_list : list nr_lcordered_info_t;
  scheduling_info : NR_UE_SCHEDULING_INFO
}.
#[export] Instance mac_eta : Eta NR_UE_MAC_INST_t := fun m => mk_mac (lc_ordered_list m) (scheduling_info m).

Definition get_lc_info_from_lcid (mac : NR_UE_MAC_INST_t) (id : Z) : option nr_lcordered_info_t :=
  List.find (fun l => lcid l =? id) (lc_ordered_list mac).

Definition lcid_buffer_index (id : Z) : outcome Z :=
  if (0 <? id) && (id <=? NR_MAX_NUM_LCID) then Done (id - 1) else Exit.

Definition get_scheduling_info_from_lcid (mac : NR_UE_MAC_INST_t) (id : Z) : outcome NR_LC_SCHEDULING_INFO :=
  idx ← lcid_buffer_index id;
  rd (lc_sched_info (scheduling_info mac)) idx.

(** An assignment through the pointer of [get_scheduling_info_from_lcid]. *)
Definition set_lc (mac : NR_UE_MAC_INST_t) (id : Z) (f : NR_LC_SCHEDULING_INFO -> NR_LC_SCHEDULING_INFO)
  : NR_UE_MAC_INST_t := mac <| scheduling_info; lc_sched_info ::= alter f (Z.to_nat (id - 1)) |>.
(** An assignment to [lcg_sched_info[g]]. *)
Definition set_lcg (mac : NR_UE_MAC_INST_t) (g : Z) (f : NR_LCG_SCHEDULING_INFO -> NR_LCG_SCHEDULING_INFO)
  : NR_UE_MAC_INST_t := mac <| scheduling_info; lcg_sched_info ::= alter f (Z.to_nat g) |>.

(** ** RLC of the UE, as MAC sees it

    [mac_rlc_status_ind] and [mac_rlc_data_req] for a logical channel: the bytes
    waiting, and a PDU of at most the size asked for. *)
Class UeRlc (S : Type) := {
  mac_rlc_status_ind : S -> Z -> outcome (Z * S);
  mac_rlc_data_req : S -> Z -> Z -> outcome (list Z * S)
}.

(** What MAC relies on.  [rlc_pdus] bounds the number of PDUs that are left. *)
Class UeRlcOk (S : Type) `{UeRlc S} := {
  rlc_ok : S -> Prop;
  rlc_pdus : S -> nat;
  rlc_status_spec s id : rlc_ok s -> exists n s', mac_rlc_status_ind s id = Done (n, s') /\
    0 <= n < 2 ^ 25 /\ rlc_ok s' /\ rlc_pdus s' = rlc_pdus s;
  rlc_data_spec s id size : rlc_ok s -> 0 <= size -> exists sdu s', mac_rlc_data_req s id size = Done (sdu, s') /\
    Z.of_nat (length sdu) <= size /\ rlc_ok s' /\
    (rlc_pdus s' + (if decide (sdu = []) then 0 else 1) <= rlc_pdus s)%nat
}.

(** ** Buffer status *)

Definition trigger_regular_bsr (mac : NR_UE_MAC_INST_t) (id : Z) (DelayTimerApplied : bool) : NR_UE_MAC_INST_t :=
  let mac := mac <| scheduling_info; BSR_reporting_active ::= Z.lor NR_BSR_TRIGGER_REGULAR |>
                 <| scheduling_info; regularBSR_trigger_lcid := id |> in
  if DelayTimerApplied then mac <| scheduling_info; sr_DelayTimer ::= nr_timer_start |>
  else mac <| scheduling_info; sr_DelayTimer ::= nr_timer_stop |>.

Section update.
Context {S : Type} `{UeRlc S}.

(** The body of the loop over the logical channels; [bsr_regular_triggered] is a local of the function. *)
Definition update_bsr_lc (mac : NR_UE_MAC_INST_t) (bsr_regular_triggered : bool) (s : S) (lc_info : nr_lcordered_info_t)
  : outcome (NR_UE_MAC_INST_t * bool * S) :=
  let id := lcid lc_info in
  info ← get_scheduling_info_from_lcid mac id;
  let lcgid := LCGID info in
  if negb (lcgid =? NR_INVALID_LCGID) then
    '(bytes, s) ← mac_rlc_status_ind s id;
    let mac := set_lc mac id (fun i => i <| LCID_buffer_remain := bytes |>) in
    if 0 <? bytes then
      let mac := set_lc mac id (fun i => i <| LCID_buffer_with_data := true |>) in
      _ ← rd (lcg_sched_info (scheduling_info mac)) lcgid;
      let mac := set_lcg mac lcgid (fun g => g <| BSR_bytes ::= Z.add bytes |>) in
      if negb bsr_regular_triggered
      then Done (trigger_regular_bsr mac id (sr_DelayTimerApplied lc_info), true, s)
      else Done (mac, bsr_regular_triggered, s)
    else Done (mac, bsr_regular_triggered, s)
  else Done (mac, bsr_regular_triggered, s).

Fixpoint update_bsr_loop (l : list nr_lcordered_info_t) (mac : NR_UE_MAC_INST_t) (bsr_regular_triggered : bool) (s : S)
  : outcome (NR_UE_MAC_INST_t * S) :=
  match l with
  | [] => Done (mac, s)
  | lc_info :: l =>
      '(mac, bsr_regular_triggered, s) ← update_bsr_lc mac bsr_regular_triggered s lc_info;
      update_bsr_loop l mac bsr_regular_triggered s
  end.

Definition nr_update_bsr (mac : NR_UE_MAC_INST_t) (s : S) : outcome (NR_UE_MAC_INST_t * S) :=
  let mac := mac <| scheduling_info; lc_sched_info ::= fmap (fun i => i <| LCID_buffer_with_data := false |>) |>
                 <| scheduling_info; lcg_sched_info ::= fmap (fun _ => mk_lcg 0 0) |> in
  let bsr_regular_triggered :=
    negb (Z.land (BSR_reporting_active (scheduling_info mac)) NR_BSR_TRIGGER_REGULAR =? 0) in
  update_bsr_loop (lc_ordered_list mac) mac bsr_regular_triggered s.
End update.

(** [update_mac_timers], without the contention resolution timer of random access. *)
Fixpoint retx_bsr_loop (l : list nr_lcordered_info_t) (mac : NR_UE_MAC_INST_t) : outcome NR_UE_MAC_INST_t :=
  match l with
  | [] => Done mac
  | lc_info :: l =>
      info ← get_scheduling_info_from_lcid mac (lcid lc_info);
      if negb (LCGID info =? NR_INVALID_LCGID) && (0 <? LCID_buffer_remain info)
      then Done (trigger_regular_bsr mac (lcid lc_info) (sr_DelayTimerApplied lc_info))
      else retx_bsr_loop l mac
  end.

Definition update_mac_timers (mac : NR_UE_MAC_INST_t) : outcome NR_UE_MAC_INST_t :=
  let mac := mac <| scheduling_info; sr_info ::= fmap (fun s => s <| prohibitTimer ::= fun t => snd (nr_timer_tick t) |>) |>
                 <| scheduling_info; sr_DelayTimer ::= fun t => snd (nr_timer_tick t) |> in
  let retxBSR_expired := fst (nr_timer_tick (retxBSR_Timer (scheduling_info mac))) in
  let mac := mac <| scheduling_info; retxBSR_Timer ::= fun t => snd (nr_timer_tick t) |> in
  mac ← (if retxBSR_expired then retx_bsr_loop (lc_ordered_list mac) mac else Done mac);
  let periodicBSR_expired := fst (nr_timer_tick (periodicBSR_Timer (scheduling_info mac))) in
  let mac := mac <| scheduling_info; periodicBSR_Timer ::= fun t => snd (nr_timer_tick t) |> in
  let mac := if periodicBSR_expired
    then mac <| scheduling_info; BSR_reporting_active ::= Z.lor NR_BSR_TRIGGER_PERIODIC |> else mac in
  if existsb (fun i => fst (nr_timer_tick (Bj_timer i))) (lc_sched_info (scheduling_info mac)) then Exit
  else Done (mac <| scheduling_info; lc_sched_info ::= fmap (fun i => i <| Bj_timer ::= fun t => snd (nr_timer_tick t) |>) |>).

(** The update of [Bj] that ends [nr_ue_ul_scheduler].  [min] compares an [int]
    with a [uint32_t]: as unsigned numbers.  [scs]: of the current bandwidth part. *)
Definition update_Bj_lc (scs : Z) (mac : NR_UE_MAC_INST_t) (lc_info : nr_lcordered_info_t) : outcome NR_UE_MAC_INST_t :=
  let bucketSize_max := bucket_size lc_info in
  info ← get_scheduling_info_from_lcid mac (lcid lc_info);
  let bj := Bj info in
  let bj :=
    if pbr lc_info <? UINT_MAX then
      let slots_elapsed := nr_timer_elapsed_time (Bj_timer info) in
      let pbr_ms := pbr lc_info / 1000 in
      s32 (bj + Z.shiftr (u32 (pbr_ms * slots_elapsed)) scs)
    else INT_MAX in
  Done (set_lc mac (lcid lc_info) (fun i =>
    i <| Bj := s32 (Z.min (u32 bj) bucketSize_max) |> <| Bj_timer ::= nr_timer_start |>)).

Fixpoint update_Bj (scs : Z) (l : list nr_lcordered_info_t) (mac : NR_UE_MAC_INST_t) : outcome NR_UE_MAC_INST_t :=
  match l with
  | [] => Done mac
  | lc_info :: l => mac ← update_Bj_lc scs mac lc_info; update_Bj scs l mac
  end.

(** [nr_update_sr]: [configuredGrantConfig] of the bandwidth part, the answer of
    [check_pucchres_for_pending_SR]; the first component tells whether
    [schedule_RA_after_SR_failure] is called. *)
Definition clear_sr (s : nr_sr_info_t) : nr_sr_info_t :=
  s <| sr_pending := false |> <| sr_counter := 0 |> <| prohibitTimer ::= nr_timer_stop |>.

Definition nr_update_sr (mac : NR_UE_MAC_INST_t) (configuredGrantConfig : bool) (pucchres : Z -> bool)
  : outcome (bool * NR_UE_MAC_INST_t) :=
  let data_avail := existsb (fun i => 0 <? LCID_buffer_remain i) (lc_sched_info (scheduling_info mac)) in
  let mac := if data_avail then mac
    else mac <| scheduling_info; sr_info ::= fmap (fun s => if active_SR_ID s then clear_sr s else s) |> in
  let sched := scheduling_info mac in
  if (Z.land (BSR_reporting_active sched) NR_BSR_TRIGGER_REGULAR =? 0) || is_nr_timer_active (sr_DelayTimer sched)
  then Done (false, mac)
  else match get_lc_info_from_lcid mac (regularBSR_trigger_lcid sched) with
  | None => Exit
  | Some lc_info =>
      if configuredGrantConfig && lc_SRMask lc_info then Done (false, mac)
      else if (sr_id lc_info <? 0) || (NR_MAX_SR_ID <=? sr_id lc_info) then Done (false, mac)
      else
        sr ← rd (sr_info sched) (sr_id lc_info);
        if sr_pending sr then Done (false, mac)
        else if pucchres (sr_id lc_info)
        then Done (false, mac <| scheduling_info; sr_info ::=
               alter (fun s => s <| sr_pending := true |> <| sr_counter := 0 |>) (Z.to_nat (sr_id lc_info)) |>)
        else Done (true, mac <| scheduling_info; sr_info ::= alter clear_sr (Z.to_nat (sr_id lc_info)) |>)
  end.

(** ** The index of a buffer size *)

(** [while (ju - jl > 1)]; the difference halves. *)
Fixpoint locate_loop (fuel : nat) (table : list Z) (value : Z) (ascend : bool) (jl ju : Z) : outcome Z :=
  match fuel with
  | O => Undef
  | S fuel =>
      if 1 <? ju - jl then
        let jm := Z.shiftr (ju + jl) 1 in
        t ← rd table jm;
        if eqb (t <=? u32 value) ascend then locate_loop fuel table value ascend jm ju
        else locate_loop fuel table value ascend jl jm
      else Done jl
  end.

Definition nr_locate_BsrIndexByBufferSize (table : list Z) (size value : Z) : outcome Z :=
  if value =? 0 then Done 0
  else
    let jl := 0 in
    let ju := u8 (size - 1) in
    tu ← rd table ju;
    tl ← rd table jl;
    let ascend := tl <=? tu in
    jl ← locate_loop (Z.to_nat size) table value ascend jl ju;
    t ← rd table jl;
    if u32 value =? t then Done jl else Done (u8 (jl + 1)).

(** ** Reports: what the UE says and what the gNB understands *)

Definition at_idx (table : list Z) (i : Z) : Z := default 0 (table !! Z.to_nat i).

(** A table of buffer sizes: it starts at 0, ascends, and has at most 256 entries. *)
Record bsr_table (table : list Z) : Prop := {
  bt_size : 2 <= Z.of_nat (length table) <= 256;
  bt_zero : at_idx table 0 = 0;
  bt_ascends i j : 0 <= i < j -> j < Z.of_nat (length table) -> at_idx table i < at_idx table j
}.

Fixpoint ascends (l : list Z) : bool :=
  match l with x :: (y :: _) as l' => (x <? y) && ascends l' | _ => true end.

Lemma ascends_lt l : ascends l = true -> forall i j a b, (i < j)%nat -> l !! i = Some a -> l !! j = Some b -> a < b.
Proof.
  intros A. assert (St : StronglySorted Z.lt l).
  { apply Sorted_StronglySorted; [intros x y z; lia|]. revert A. induction l as [|x [|y l] IH]; intros A.
    - constructor.
    - repeat constructor.
    - cbn [ascends] in A. zbool. constructor; [by apply IH|by constructor]. }
  clear A. induction St as [|x l St IH F]; intros [|i] [|j] a b L Ea Eb; try lia; try done; cbn in *; simplify_eq.
  - rewrite Forall_lookup in F. by apply (F j).
  - apply (IH i j); done || lia.
Qed.

Lemma ascends_table l : ascends l = true -> 2 <= Z.of_nat (length l) <= 256 -> l !! 0%nat = Some 0 -> bsr_table l.
Proof.
  intros A L E0. split; [done|by unfold at_idx; change (Z.to_nat 0) with 0%nat; rewrite E0|]. intros i j Hi Hj. unfold at_idx.
  destruct (lookup_lt_is_Some_2 l (Z.to_nat i)) as [a Ea]; [lia|].
  destruct (lookup_lt_is_Some_2 l (Z.to_nat j)) as [b Eb]; [lia|]. rewrite Ea, Eb.
  apply (ascends_lt l A (Z.to_nat i) (Z.to_nat j)); done || lia.
Qed.

Lemma short_table_ok : bsr_table NR_SHORT_BSR_TABLE.
Proof. apply ascends_table; [vm_compute; reflexivity|cbn; lia|done]. Qed.

Lemma long_table_ok : bsr_table NR_LONG_BSR_TABLE.
Proof. apply ascends_table; [vm_compute; reflexivity|cbn; lia|done]. Qed.

Section locate.
Context (table : list Z) (T : bsr_table table).

Lemma rd_idx i : 0 <= i < Z.of_nat (length table) -> rd table i = Done (at_idx table i).
Proof. apply rd_entry. Qed.

(** The binary search keeps the value between its two bounds. *)
Lemma locate_loop_ok value : 0 <= value < 2 ^ 32 -> forall fuel jl ju,
  0 <= jl < ju -> ju < Z.of_nat (length table) -> at_idx table jl <= value -> value < at_idx table ju \/ ju = Z.of_nat (length table) - 1 ->
  ju - jl <= Z.of_nat fuel ->
  exists r, locate_loop fuel table value true jl ju = Done r /\ 0 <= r < Z.of_nat (length table) - 1 /\ at_idx table r <= value /\
    (value < at_idx table (r + 1) \/ r + 1 = Z.of_nat (length table) - 1).
Proof.
  intros Hv. induction fuel as [|fuel IH]; intros jl ju Hj Hu Hl Hr Hf; [lia|]. cbn [locate_loop].
  destruct (Z.ltb_spec 1 (ju - jl)) as [E|E].
  - assert (Hm : jl < Z.shiftr (ju + jl) 1 < ju).
    { rewrite Z.shiftr_div_pow2 by lia. change (2 ^ 1) with 2.
      pose proof (Z.div_mod (ju + jl) 2) as D. pose proof (Z.mod_pos_bound (ju + jl) 2). lia. }
    rewrite rd_idx by lia. cbn [mbind outcome_bind]. unfold u32. rewrite Z.mod_small by lia.
    destruct (Z.leb_spec (at_idx table (Z.shiftr (ju + jl) 1)) value); cbn [eqb]; apply IH; lia || by left.
  - exists jl. replace (jl + 1) with ju by lia. split_and!; done || lia.
Qed.

Lemma locate_ok value : 0 < value < 2 ^ 32 ->
  exists i, nr_locate_BsrIndexByBufferSize table (Z.of_nat (length table)) value = Done i /\ 0 < i < Z.of_nat (length table) /\
    at_idx table (i - 1) < value /\ (value <= at_idx table i \/ i = Z.of_nat (length table) - 1).
Proof.
  intros Hv. pose proof (bt_size _ T) as Hs. unfold nr_locate_BsrIndexByBufferSize.
  rewrite (proj2 (Z.eqb_neq value 0)) by lia. unfold u8. rewrite (Z.mod_small (Z.of_nat (length table) - 1)) by lia.
  rewrite (rd_idx (Z.of_nat (length table) - 1)), (rd_idx 0) by lia. cbn [mbind outcome_bind].
  rewrite (proj2 (Z.leb_le _ _)) by (pose proof (bt_ascends _ T 0 (Z.of_nat (length table) - 1)); lia).
  destruct (locate_loop_ok value ltac:(lia) (Z.to_nat (Z.of_nat (length table))) 0 (Z.of_nat (length table) - 1)) as (r & -> & Hr & Hl & Hn);
    [lia|lia|rewrite (bt_zero _ T); lia|by right|lia|].
  cbn [mbind outcome_bind]. rewrite rd_idx by lia. cbn [mbind outcome_bind].
  unfold u32. rewrite Z.mod_small by lia. destruct (Z.eqb_spec value (at_idx table r)) as [E|E].
  - exists r. assert (r <> 0) by (intros ->; rewrite (bt_zero _ T) in E; lia).
    pose proof (bt_ascends _ T (r - 1) r). split_and!; done || lia.
  - exists (r + 1). rewrite Z.mod_small by lia. replace (r + 1 - 1) with r by lia.
    split_and!; try done; lia.
Qed.
End locate.

(** The entry of a group in a long report: none when its index is 0. *)
Definition lcg_entry (i : Z) : option Z := if i =? 0 then None else Some i.
Definition sum_z (l : list Z) : Z := foldr Z.add 0 l.

Lemma at_idx_le table i j : bsr_table table -> 0 <= i <= j -> j < Z.of_nat (length table) ->
  at_idx table i <= at_idx table j.
Proof.
  intros T H L. destruct (decide (i = j)) as [->|]; [lia|].
  pose proof (bt_ascends _ T i j). lia.
Qed.

Lemma overestim_s i : 0 < i -> overestim_bsr_index i = i + 1.
Proof. intros. unfold overestim_bsr_index. by rewrite (proj2 (Z.ltb_lt 0 i)) by lia. Qed.

Lemma short_covers B : 0 <= B <= 300000 ->
  exists i, nr_locate_BsrIndexByBufferSize NR_SHORT_BSR_TABLE 32 B = Done i /\ 0 <= i < 32 /\
    B <= short_size i /\ (short_size i = 0 -> B = 0).
Proof.
  intros H. destruct (decide (B = 0)) as [->|]; [by exists 0|].
  destruct (locate_ok NR_SHORT_BSR_TABLE short_table_ok B) as (i & E & Hi & Hl & Hn); [lia|].
  change (Z.of_nat (length NR_SHORT_BSR_TABLE)) with 32 in *. exists i. split; [done|]. split; [lia|].
  assert (Hc : B <= at_idx NR_SHORT_BSR_TABLE i) by (destruct Hn as [?| ->]; [done|]; exact (proj2 H)).
  assert (B <= short_size i); [|lia]. unfold short_size. rewrite overestim_s by lia.
  change (default 0 _) with (at_idx NR_SHORT_BSR_TABLE (Z.min (i + 1) 31)).
  transitivity (at_idx NR_SHORT_BSR_TABLE i); [done|].
  apply (at_idx_le _ _ _ short_table_ok); cbn; lia.
Qed.

Lemma long_index B : 0 <= B <= 81338368 ->
  exists i, nr_locate_BsrIndexByBufferSize NR_LONG_BSR_TABLE 256 B = Done i /\ 0 <= i <= 253 /\
    (i = 0 <-> B = 0) /\ B <= long_size i <= 162676736.
Proof.
  intros H. destruct (decide (B = 0)) as [->|]; [by exists 0|].
  destruct (locate_ok NR_LONG_BSR_TABLE long_table_ok B) as (i & E & Hi & Hl & Hn); [lia|].
  change (Z.of_nat (length NR_LONG_BSR_TABLE)) with 256 in *.
  assert (E253 : at_idx NR_LONG_BSR_TABLE 253 = 81338368) by (vm_compute; done).
  assert (i <= 253).
  { destruct (decide (i <= 253)); [done|]. pose proof (at_idx_le NR_LONG_BSR_TABLE 253 (i - 1) long_table_ok).
    change (Z.of_nat (length NR_LONG_BSR_TABLE)) with 256 in *. lia. }
  exists i. split; [done|]. split; [lia|]. split; [lia|].
  unfold long_size. rewrite overestim_s by lia. rewrite Z.min_l by lia.
  change (default 0 _) with (at_idx NR_LONG_BSR_TABLE (i + 1)).
  pose proof (at_idx_le NR_LONG_BSR_TABLE i (i + 1) long_table_ok) as H1.
  pose proof (at_idx_le NR_LONG_BSR_TABLE (i + 1) 254 long_table_ok) as H2.
  change (Z.of_nat (length NR_LONG_BSR_TABLE)) with 256 in *.
  change (at_idx NR_LONG_BSR_TABLE 254) with 162676736 in H2. lia.
Qed.

Lemma long_sum ix : forall acc, Forall (fun i => i = 0 \/ 0 <= long_size i <= 162676736) ix ->
  0 <= acc -> acc + 162676736 * Z.of_nat (length ix) < 2 ^ 31 ->
  foldl (fun a i => s32 (a + long_size i)) acc (omap id (lcg_entry <$> ix)) =
    acc + sum_z ((fun i => if i =? 0 then 0 else long_size i) <$> ix).
Proof.
  induction ix as [|i ix IH]; intros acc F Ha Hb; [cbn; lia|].
  apply Forall_cons in F as [Fi Fl]. cbn [length] in Hb. cbn [fmap list_fmap sum_z foldr].
  unfold lcg_entry at 1. destruct (Z.eqb_spec i 0).
  - cbn [omap list_omap id]. rewrite IH; [unfold sum_z; cbn; lia|done|lia|lia].
  - cbn [omap list_omap id foldl]. rewrite s32_small by lia. rewrite IH; [unfold sum_z; lia|done|lia|lia].
Qed.

(** C17. What the gNB makes of a buffer status report covers the buffer: for a short
    report of up to 300000 bytes, and for a long report of up to 81338368 bytes
    in each of at most eight logical channel groups, the index that the UE finds
    by its binary search ([nr_locate_BsrIndexByBufferSize]) is read back by the
    gNB as at least the bytes waiting, as nothing only when nothing waits, and
    the sum over the groups does not overflow. *)
Theorem bsr_estimate_covers :
  (forall B, 0 <= B <= 300000 ->
    exists i, nr_locate_BsrIndexByBufferSize NR_SHORT_BSR_TABLE 32 B = Done i /\ 0 <= i < 32 /\
      B <= short_size i /\ (short_size i = 0 -> B = 0)) /\
  (forall Bs, Forall (fun B => 0 <= B <= 81338368) Bs -> (length Bs <= 8)%nat ->
    exists ix, Forall2 (fun B i => nr_locate_BsrIndexByBufferSize NR_LONG_BSR_TABLE 256 B = Done i /\ 0 <= i < 256) Bs ix /\
      sum_z Bs <= long_sizes (lcg_entry <$> ix) < 2 ^ 31 /\ (long_sizes (lcg_entry <$> ix) = 0 -> sum_z Bs = 0)).
Proof.
  split; [exact short_covers|]. intros Bs F L.
  assert (exists ix, Forall2 (fun B i => nr_locate_BsrIndexByBufferSize NR_LONG_BSR_TABLE 256 B = Done i /\
    0 <= i <= 253 /\ (i = 0 <-> B = 0) /\ B <= long_size i <= 162676736) Bs ix) as (ix & R).
  { induction F as [|B Bs HB F IH]; [exists []; constructor|].
    destruct (long_index B HB) as (i & Hi). destruct IH as (ix & R); [cbn in L; lia|]. exists (i :: ix). by constructor. }
  exists ix. split; [eapply Forall2_impl; [exact R|]; intros B i (? & ? & ?); split; [done|lia]|].
  assert (Hl : length ix = length Bs) by (symmetry; by eapply Forall2_length).
  assert (E : long_sizes (lcg_entry <$> ix) = sum_z ((fun i => if i =? 0 then 0 else long_size i) <$> ix)).
  { unfold long_sizes. rewrite long_sum; [lia| |lia|lia].
    clear -R F. revert F. induction R as [|B i Bs ix (? & ? & ? & ?) R IH]; intros F; [constructor|].
    apply Forall_cons in F as [? F]. constructor; [right; lia|by apply IH]. }
  rewrite E. assert (Hs : sum_z Bs <= sum_z ((fun i => if i =? 0 then 0 else long_size i) <$> ix)
      <= 162676736 * Z.of_nat (length ix)); [|assert (0 <= sum_z Bs); [clear -F; unfold sum_z; induction F; cbn [foldr]; lia|lia]].
  clear -R F. revert F. induction R as [|B i Bs ix (? & ? & ? & ?) R IH]; intros F; [cbn; lia|].
  apply Forall_cons in F as [? F]. specialize (IH F). cbn [fmap list_fmap sum_z foldr length].
  change (foldr Z.add 0) with sum_z. destruct (Z.eqb_spec i 0); lia.
Qed.

(** A report of more than 81338368 bytes in a group is misread: the gNB raises the
    index by one to the last entry of the table, 4294967295, and the [int] it
    adds that to becomes -1, an estimate below an empty buffer. *)
Theorem bsr_estimate_overflows B :
  81338368 < B < 2 ^ 31 ->
  exists i, nr_locate_BsrIndexByBufferSize NR_LONG_BSR_TABLE 256 B = Done i /\
    long_sizes [Some i] = -1.
Proof.
  intros H. destruct (locate_ok NR_LONG_BSR_TABLE long_table_ok B) as (i & E & Hi & Hl & Hn); [lia|].
  change (Z.of_nat (length NR_LONG_BSR_TABLE)) with 256 in *. exists i. split; [done|].
  assert (Hi2 : i = 254 \/ i = 255); [|by destruct Hi2 as [->| ->]; vm_compute].
  assert (253 < i); [|lia]. destruct (decide (253 < i)); [done|].
  pose proof (at_idx_le NR_LONG_BSR_TABLE i 253 long_table_ok) as H2.
  change (Z.of_nat (length NR_LONG_BSR_TABLE)) with 256 in *.
  change (at_idx NR_LONG_BSR_TABLE 253) with 81338368 in H2. lia.
Qed.

Lemma bsr_estimate_overflows_witness :
  exists i, nr_locate_BsrIndexByBufferSize NR_LONG_BSR_TABLE 256 100000000 = Done i /\ long_sizes [Some i] = -1.
Proof. apply (bsr_estimate_overflows 100000000). lia. Defined.

(** ** The buffer status of a slot *)

(** The scheduling information of a logical channel. *)
Definition lc_of (mac : NR_UE_MAC_INST_t) (id : Z) : option NR_LC_SCHEDULING_INFO :=
  lc_sched_info (scheduling_info mac) !! Z.to_nat (id - 1).

(** The configuration: sizes of the tables, identifiers and groups in range. *)
Record mac_wf (mac : NR_UE_MAC_INST_t) : Prop := {
  mw_lc : length (lc_sched_info (scheduling_info mac)) = 32%nat;
  mw_lcg : length (lcg_sched_info (scheduling_info mac)) = 8%nat;
  mw_sr : length (sr_info (scheduling_info mac)) = 8%nat;
  mw_count : (length (lc_ordered_list mac) <= 32)%nat;
  mw_ids : Forall (fun lc => 1 <= lcid lc <= 32) (lc_ordered_list mac);
  mw_nodup : NoDup (lcid <$> lc_ordered_list mac);
  mw_groups id i : lc_of mac id = Some i -> 0 <= LCGID i <= 8
}.

(** The flags of the report: no padding report is pending between two slots, and
    the channel that triggered a regular report is configured. *)
Record bsr_wf (mac : NR_UE_MAC_INST_t) : Prop := {
  bw_flags : 0 <= BSR_reporting_active (scheduling_info mac) < 4;
  bw_lcid : regularBSR_trigger_lcid (scheduling_info mac) <= 0 \/
    regularBSR_trigger_lcid (scheduling_info mac) ∈ lcid <$> lc_ordered_list mac
}.

(** The bytes of the channels of a group. *)
Definition lc_bytes_in (mac : NR_UE_MAC_INST_t) (g : Z) (lc : nr_lcordered_info_t) : Z :=
  match lc_of mac (lcid lc) with
  | Some i => if (LCGID i =? g) && LCID_buffer_with_data i then LCID_buffer_remain i else 0
  | None => 0
  end.
Definition group_bytes (mac : NR_UE_MAC_INST_t) (l : list nr_lcordered_info_t) (g : Z) : Z :=
  sum_z (lc_bytes_in mac g <$> l).

(** A channel with data has a group and a number of bytes in range. *)
Definition lc_ready (mac : NR_UE_MAC_INST_t) : Prop :=
  forall id i, 1 <= id -> lc_of mac id = Some i -> LCID_buffer_with_data i = true ->
    0 <= LCGID i < 8 /\ 0 <= LCID_buffer_remain i < 2 ^ 25.

(** *** Lookups after an assignment *)

Lemma lc_of_set mac id f id' : 1 <= id -> 1 <= id' ->
  lc_of (set_lc mac id f) id' = if decide (id = id') then f <$> lc_of mac id' else lc_of mac id'.
Proof.
  intros. unfold lc_of, set_lc. cbn [scheduling_info lc_sched_info upd].
  destruct (decide (id = id')) as [->|N]; [apply list_lookup_alter_eq|].
  apply list_lookup_alter_ne. lia.
Qed.

Lemma set_lc_wf mac id f : (forall i, LCGID (f i) = LCGID i) -> mac_wf mac -> mac_wf (set_lc mac id f).
Proof.
  intros Hf []. split; try done.
  - unfold set_lc. cbn. by rewrite length_alter.
  - intros id' i. unfold lc_of, set_lc. cbn. intros E.
    rewrite list_lookup_alter in E. case_decide as D; [|by apply (mw_groups0 id')].
    apply fmap_Some in E as (j & E & ->). rewrite Hf. rewrite D in E. by apply (mw_groups0 id').
Qed.

Lemma set_lcg_wf mac g f : mac_wf mac -> mac_wf (set_lcg mac g f).
Proof. intros []. split; try done. unfold set_lcg. cbn. by rewrite length_alter. Qed.

Lemma trigger_wf mac id b : mac_wf mac -> mac_wf (trigger_regular_bsr mac id b).
Proof. intros []. unfold trigger_regular_bsr. destruct b; by split. Qed.

Lemma get_info mac id : mac_wf mac -> 1 <= id <= 32 ->
  exists i, get_scheduling_info_from_lcid mac id = Done i /\ lc_of mac id = Some i.
Proof.
  intros W H. unfold get_scheduling_info_from_lcid, lcid_buffer_index, NR_MAX_NUM_LCID, lc_of.
  rewrite (proj2 (Z.ltb_lt 0 id)), (proj2 (Z.leb_le id 32)) by lia. cbn [andb mbind outcome_bind].
  destruct (lookup_lt_is_Some_2 (lc_sched_info (scheduling_info mac)) (Z.to_nat (id - 1))) as [i E];
    [rewrite (mw_lc _ W); lia|].
  exists i. split; [|done]. by apply rd_done; [lia|].
Qed.

Lemma group_bytes_ext mac mac' l g :
  (forall lc, lc ∈ l -> lc_bytes_in mac' g lc = lc_bytes_in mac g lc) -> group_bytes mac' l g = group_bytes mac l g.
Proof.
  intros H. unfold group_bytes. induction l as [|lc l IH]; [done|]. cbn [fmap list_fmap sum_z foldr].
  change (foldr Z.add 0) with sum_z. rewrite IH by (intros; apply H; by right). by rewrite H by left.
Qed.

Lemma group_bytes_app mac l lc g : group_bytes mac (l ++ [lc]) g = group_bytes mac l g + lc_bytes_in mac g lc.
Proof.
  unfold group_bytes, sum_z. rewrite fmap_app, foldr_app. cbn [fmap list_fmap foldr].
  induction l as [|x l IH]; cbn [fmap list_fmap foldr]; lia.
Qed.

Lemma flags_lor a b : 0 <= a < 4 -> b = 1 \/ b = 2 -> 0 <= Z.lor b a < 4.
Proof.
  intros Ha Hb. assert (A : a = 0 \/ a = 1 \/ a = 2 \/ a = 3) by lia.
  by destruct A as [->|[->|[->| ->]]], Hb as [->| ->].
Qed.

Definition regular_pending (mac : NR_UE_MAC_INST_t) : bool :=
  negb (Z.land (BSR_reporting_active (scheduling_info mac)) NR_BSR_TRIGGER_REGULAR =? 0).

Lemma trigger_regular mac id b : 0 <= BSR_reporting_active (scheduling_info mac) < 4 ->
  regular_pending (trigger_regular_bsr mac id b) = true.
Proof.
  intros H. unfold regular_pending, trigger_regular_bsr. destruct b; cbn [scheduling_info BSR_reporting_active upd].
  all: set (a := BSR_reporting_active _) in *; assert (A : a = 0 \/ a = 1 \/ a = 2 \/ a = 3) by lia.
  all: by destruct A as [->|[->|[->| ->]]].
Qed.

Lemma trigger_bsr_wf mac id b : bsr_wf mac -> id ∈ lcid <$> lc_ordered_list mac -> bsr_wf (trigger_regular_bsr mac id b).
Proof.
  intros [F _] H. unfold trigger_regular_bsr.
  destruct b; (split; cbn; [apply flags_lor; [done|by left]|by right]).
Qed.

(** The bytes of a group in the table. *)
Definition lcg_bytes (mac : NR_UE_MAC_INST_t) (g : Z) : option Z :=
  BSR_bytes <$> lcg_sched_info (scheduling_info mac) !! Z.to_nat g.

Section update_bsr.
Context {S : Type} `{UeRlcOk S}.

(** A channel: its own entry says what RLC answered, its group has its bytes
    added, a channel with data leaves a regular report pending, the rest stays. *)
Record lc_updated (mac mac' : NR_UE_MAC_INST_t) (lc : nr_lcordered_info_t) : Prop := {
  lu_wf : mac_wf mac';
  lu_bsr : bsr_wf mac';
  lu_list : lc_ordered_list mac' = lc_ordered_list mac;
  lu_same id : 1 <= id -> id <> lcid lc -> lc_of mac' id = lc_of mac id;
  lu_own i : lc_of mac' (lcid lc) = Some i -> LCID_buffer_with_data i = true ->
    0 <= LCGID i < 8 /\ 0 <= LCID_buffer_remain i < 2 ^ 25 /\ regular_pending mac' = true;
  lu_bytes g : 0 <= g < 8 -> lcg_bytes mac' g = Z.add (lc_bytes_in mac' g lc) <$> lcg_bytes mac g;
  lu_pending : regular_pending mac = true -> regular_pending mac' = true
}.

(** What RLC reports, for channels given with their group: each channel of a group is asked once, in the order of
    the list; the others are not asked. *)
Fixpoint rlc_reports (l : list (Z * Z)) (s : S) : outcome (list (option Z) * S) :=
  match l with
  | [] => Done ([], s)
  | (id, g) :: l =>
      if g =? NR_INVALID_LCGID then '(rs, s) ← rlc_reports l s; Done (None :: rs, s)
      else '(n, s) ← mac_rlc_status_ind s id; '(rs, s) ← rlc_reports l s; Done (Some n :: rs, s)
  end.

Definition group_of (mac : NR_UE_MAC_INST_t) (lc : nr_lcordered_info_t) : Z :=
  match lc_of mac (lcid lc) with Some i => LCGID i | None => NR_INVALID_LCGID end.
Definition channels (mac : NR_UE_MAC_INST_t) (l : list nr_lcordered_info_t) : list (Z * Z) :=
  (fun lc => (lcid lc, group_of mac lc)) <$> l.

(** A channel after its report. *)
Definition lc_reported (mac mac' : NR_UE_MAC_INST_t) (lc : nr_lcordered_info_t) (r : option Z) : Prop :=
  0 <= default 0 r < 2 ^ 25 /\
  lc_of mac' (lcid lc) = (fun i =>
    match r with
    | Some n => i <| LCID_buffer_remain := n |> <| LCID_buffer_with_data := 0 <? n |>
    | None => i <| LCID_buffer_with_data := false |>
    end) <$> lc_of mac (lcid lc).

Lemma update_bsr_lc_ok mac s lc i :
  mac_wf mac -> bsr_wf mac -> rlc_ok s -> lc ∈ lc_ordered_list mac ->
  lc_of mac (lcid lc) = Some i -> LCID_buffer_with_data i = false ->
  exists mac' s', update_bsr_lc mac (regular_pending mac) s lc = Done (mac', regular_pending mac', s') /\
    lc_updated mac mac' lc /\ rlc_ok s' /\ rlc_pdus s' = rlc_pdus s /\
    exists r, rlc_reports (channels mac [lc]) s = Done ([r], s') /\ lc_reported mac mac' lc r.
Proof.
  intros W B R L Ei Hd. unfold update_bsr_lc.
  assert (Hid : 1 <= lcid lc <= 32) by (pose proof (mw_ids _ W) as F; rewrite Forall_forall in F; by apply F).
  destruct (get_info mac (lcid lc) W Hid) as (i' & Eg & Ei'). rewrite Ei in Ei'. injection Ei' as <-.
  rewrite Eg. cbn [mbind outcome_bind]. pose proof (mw_groups _ W _ _ Ei) as Hg. unfold NR_INVALID_LCGID, NR_MAX_NUM_LCGID.
  unfold channels, lc_reported. cbn [fmap list_fmap rlc_reports]. unfold group_of. rewrite Ei.
  unfold NR_INVALID_LCGID, NR_MAX_NUM_LCGID.
  destruct (Z.eqb_spec (LCGID i) 8) as [E8|E8]; cbn [negb].
  { exists mac, s. split; [done|]. split; [|split; [done|]; split; [done|]; exists None; split; [done|]; split; [done|];
      cbn; rewrite <- Hd; by destruct i]. split; try done.
    - intros j Ej Hj. congruence.
    - intros g Hgg. unfold lc_bytes_in. rewrite Ei, Hd, andb_false_r. by destruct (lcg_bytes mac g) as [[]|]. }
  destruct (rlc_status_spec s (lcid lc) R) as (n & s' & -> & Hn & R' & P). cbn [mbind outcome_bind].
  set (mac1 := set_lc mac (lcid lc) (fun i => i <| LCID_buffer_remain := n |>)).
  assert (W1 : mac_wf mac1) by (by apply set_lc_wf).
  destruct (Z.ltb_spec 0 n) as [Hp|Hp].
  2:{ exists mac1, s'. split; [done|]. assert (E1 : lc_of mac1 (lcid lc) = Some (i <| LCID_buffer_remain := n |>))
        by (unfold mac1; rewrite lc_of_set by lia; by rewrite decide_True, Ei).
      split; [|split; [done|]; split; [done|]; exists (Some n); split; [done|]; split; [done|]; rewrite E1;
        rewrite (proj2 (Z.ltb_ge 0 n)) by lia; cbn; rewrite <- Hd; by destruct i].
      split; try done.
      - by destruct B.
      - intros id H1 N. unfold mac1. rewrite lc_of_set by lia. by rewrite decide_False by done.
      - intros j Ej Hj. rewrite E1 in Ej. injection Ej as <-. cbn in Hj. congruence.
      - intros g Hgg. unfold lc_bytes_in. rewrite E1. cbn [LCGID LCID_buffer_with_data upd]. rewrite Hd, andb_false_r.
        change (lcg_bytes mac1 g) with (lcg_bytes mac g). by destruct (lcg_bytes mac g) as [[]|]. }
  set (mac2 := set_lc mac1 (lcid lc) (fun i => i <| LCID_buffer_with_data := true |>)).
  set (mac3 := set_lcg mac2 (LCGID i) (fun g => g <| BSR_bytes ::= Z.add n |>)).
  assert (W3 : mac_wf mac3) by (by apply set_lcg_wf, set_lc_wf).
  destruct (lookup_lt_is_Some_2 (lcg_sched_info (scheduling_info mac2)) (Z.to_nat (LCGID i))) as [x Ex];
    [unfold mac2, mac1; cbn; rewrite (mw_lcg _ W); lia|].
  rewrite (rd_done _ _ x) by (done || lia). cbn [mbind outcome_bind].
  set (i3 := i <| LCID_buffer_remain := n |> <| LCID_buffer_with_data := true |>).
  assert (E3 : lc_of mac3 (lcid lc) = Some i3).
  { change (lc_of mac3 (lcid lc)) with (lc_of mac2 (lcid lc)). unfold mac2, mac1. rewrite !lc_of_set by lia.
    by rewrite !decide_True, Ei by done. }
  assert (O3 : forall id, 1 <= id -> id <> lcid lc -> lc_of mac3 id = lc_of mac id).
  { intros id H1 N. change (lc_of mac3 id) with (lc_of mac2 id). unfold mac2, mac1. rewrite !lc_of_set by lia.
    by rewrite !decide_False by done. }
  assert (G3 : forall g, 0 <= g < 8 -> lcg_bytes mac3 g = Z.add (lc_bytes_in mac3 g lc) <$> lcg_bytes mac g).
  { intros g Hgg. unfold lc_bytes_in. rewrite E3. cbn [i3 LCGID LCID_buffer_with_data LCID_buffer_remain upd].
    unfold lcg_bytes, mac3, set_lcg. cbn [scheduling_info lcg_sched_info upd]. rewrite list_lookup_alter.
    rewrite andb_true_r. destruct (Z.eqb_spec (LCGID i) g) as [<-|N].
    - rewrite decide_True by done. change (lcg_sched_info (scheduling_info mac2)) with (lcg_sched_info (scheduling_info mac)).
      by destruct (lcg_sched_info _ !! _).
    - rewrite decide_False by lia. change (lcg_sched_info (scheduling_info mac2)) with (lcg_sched_info (scheduling_info mac)).
      by destruct (lcg_sched_info (scheduling_info mac) !! Z.to_nat g). }
  assert (L3 : lcid lc ∈ lcid <$> lc_ordered_list mac3) by (by apply list_elem_of_fmap_2).
  assert (B3 : bsr_wf mac3) by (by destruct B).
  change (regular_pending mac) with (regular_pending mac3). destruct (regular_pending mac3) eqn:RP; cbn [negb].
  - exists mac3, s'. rewrite RP. split; [done|]. split; [|split; [done|]; split; [done|]; exists (Some n); split; [done|]; split; [done|];
      rewrite E3, (proj2 (Z.ltb_lt 0 n)) by lia; done]. split; try done.
    intros j Ej Hj. rewrite E3 in Ej. injection Ej as <-. split; [cbn; lia|]. split; [cbn; lia|done].
  - set (mac4 := trigger_regular_bsr mac3 (lcid lc) (sr_DelayTimerApplied lc)).
    assert (RP4 : regular_pending mac4 = true) by (apply trigger_regular; by destruct B3).
    assert (S4 : lc_sched_info (scheduling_info mac4) = lc_sched_info (scheduling_info mac3) /\
      lcg_sched_info (scheduling_info mac4) = lcg_sched_info (scheduling_info mac3) /\
      lc_ordered_list mac4 = lc_ordered_list mac3)
      by (unfold mac4, trigger_regular_bsr; by destruct (sr_DelayTimerApplied lc)).
    destruct S4 as (S4 & S5 & S6).
    assert (E4 : forall id, lc_of mac4 id = lc_of mac3 id) by (intros; unfold lc_of; by rewrite S4).
    exists mac4, s'. rewrite RP4. split; [done|]. split; [|split; [done|]; split; [done|]; exists (Some n); split; [done|]; split; [done|];
      rewrite E4, E3, (proj2 (Z.ltb_lt 0 n)) by lia; done]. split; try done.
    + by apply trigger_wf.
    + by apply trigger_bsr_wf.
    + intros id H1 N. rewrite E4. by apply O3.
    + intros j Ej Hj. rewrite E4, E3 in Ej. injection Ej as <-. split; [cbn; lia|]. split; [cbn; lia|done].
    + intros g Hgg. unfold lcg_bytes, lc_bytes_in. rewrite S5, E4. by apply G3.
Qed.

(** The loop, from a point where the channels [p] have been seen and the
    channels [l] are still without data. *)
Lemma update_bsr_loop_ok l : forall mac s p,
  lc_ordered_list mac = p ++ l -> mac_wf mac -> bsr_wf mac -> rlc_ok s -> lc_ready mac ->
  (forall g, 0 <= g < 8 -> lcg_bytes mac g = Some (group_bytes mac p g)) ->
  (forall lc, lc ∈ l -> exists i, lc_of mac (lcid lc) = Some i /\ LCID_buffer_with_data i = false) ->
  (forall lc i, lc ∈ p -> lc_of mac (lcid lc) = Some i -> LCID_buffer_with_data i = true -> regular_pending mac = true) ->
  exists mac' s', update_bsr_loop l mac (regular_pending mac) s = Done (mac', s') /\
    lc_ordered_list mac' = p ++ l /\ mac_wf mac' /\ bsr_wf mac' /\ lc_ready mac' /\
    rlc_ok s' /\ rlc_pdus s' = rlc_pdus s /\
    (forall g, 0 <= g < 8 -> lcg_bytes mac' g = Some (group_bytes mac' (p ++ l) g)) /\
    (forall lc i, lc ∈ p ++ l -> lc_of mac' (lcid lc) = Some i -> LCID_buffer_with_data i = true ->
       regular_pending mac' = true) /\
    (forall lc, lc ∈ p -> lc_of mac' (lcid lc) = lc_of mac (lcid lc)) /\
    exists rs, rlc_reports (channels mac l) s = Done (rs, s') /\ Forall2 (lc_reported mac mac') l rs.
Proof.
  induction l as [|lc l IH]; intros mac s p L W B R Rd G F T.
  { exists mac, s. rewrite app_nil_r in *. split_and!; try done. by exists []. }
  destruct (F lc) as (i & Ei & Hi); [by left|].
  destruct (update_bsr_lc_ok mac s lc i W B R) as (mac1 & s1 & E & U & R1 & P1 & r & Er & Hr);
    [rewrite L; apply elem_of_app; right; by left|done|done|].
  cbn [update_bsr_loop]. rewrite E. cbn [mbind outcome_bind]. destruct U as [W1 B1 L1 Sm Own By Pd].
  assert (N : NoDup (lcid <$> p ++ lc :: l)) by (rewrite <- L; apply W).
  assert (I : forall x, x ∈ p ++ lc :: l -> 1 <= lcid x <= 32)
    by (rewrite <- L; apply Forall_forall, W).
  rewrite fmap_app in N. cbn [fmap list_fmap] in N. apply NoDup_app in N as (_ & N1 & N2).
  apply NoDup_cons in N2 as [N2 _].
  assert (D : forall x, x ∈ p \/ x ∈ l -> lc_of mac1 (lcid x) = lc_of mac (lcid x)).
  { intros x Hx. apply Sm.
    - apply I. rewrite elem_of_app, elem_of_cons. tauto.
    - intros Ex. destruct Hx as [Hx|Hx].
      + apply (N1 (lcid x)); [by apply list_elem_of_fmap_2|]. rewrite Ex. left.
      + apply N2. rewrite <- Ex. by apply list_elem_of_fmap_2. }
  assert (Hlc : 1 <= lcid lc <= 32) by (apply I; rewrite elem_of_app, elem_of_cons; tauto).
  destruct (IH mac1 s1 (p ++ [lc])) as (mac2 & s2 & E2 & K); try done.
  - rewrite L1, L, <- app_assoc. done.
  - intros id j H1 Ej Hj. destruct (decide (id = lcid lc)) as [->|Ne]; [destruct (Own j Ej Hj) as (? & ? & ?); done|].
    rewrite (Sm id H1 Ne) in Ej. by apply (Rd id).
  - intros g Hg. rewrite (By g Hg), (G g Hg). cbn [fmap option_fmap option_map]. rewrite group_bytes_app.
    rewrite (group_bytes_ext mac mac1 p g); [f_equal; lia|].
    intros x Hx. unfold lc_bytes_in. by rewrite D by (by left).
  - intros x Hx. rewrite D by (by right). apply F. by right.
  - intros x j Hx Ej Hj. apply elem_of_app in Hx as [Hx|Hx].
    + rewrite D in Ej by (by left). apply Pd. by apply (T x j).
    + apply list_elem_of_singleton in Hx as ->. by destruct (Own j Ej Hj) as (_ & _ & ?).
  - exists mac2, s2. rewrite E2. split; [done|]. rewrite <- app_assoc in K. cbn [app] in K.
    destruct K as (K1 & K2 & K3 & K4 & K5 & K6 & K7 & K8 & K9 & rs & Ers & Hrs). rewrite K6, P1. split_and!; try done.
    + intros x Hx. rewrite K9 by (apply elem_of_app; by left). apply D. by left.
    + exists (r :: rs). split; [|constructor].
      * assert (Ec : channels mac1 l = channels mac l).
        { apply list_fmap_ext. intros k x Hk. unfold group_of. rewrite D; [done|]. right. by eapply list_elem_of_lookup_2. }
        rewrite Ec in Ers. revert Er. unfold channels. cbn [fmap list_fmap rlc_reports]. fold (channels mac l). cif.
        -- intros [= <- <-]. by rewrite Ers.
        -- destruct (mac_rlc_status_ind s (lcid lc)) as [[n s0]| |]; cbn [mbind outcome_bind]; try done. intros [= <- <-]. by rewrite Ers.
      * destruct Hr as [Hr1 Hr2]. split; [done|]. rewrite K9; [done|]. apply elem_of_app. right. by left.
      * eapply Forall2_impl; [|intros x y Hxy; exact Hxy]. apply Forall2_same_length_lookup_2; [by eapply Forall2_length|].
        intros k x y Hk Hy. pose proof (Forall2_lookup_lr _ _ _ _ _ _ Hrs Hk Hy) as [Hx1 Hx2]. split; [done|]. rewrite Hx2, D; [done|].
        right. by eapply list_elem_of_lookup_2.
Qed.

(** The bytes of a group, as reported. *)
Definition reported_bytes (mac : NR_UE_MAC_INST_t) (l : list nr_lcordered_info_t) (rs : list (option Z)) (g : Z) : Z :=
  sum_z (zip_with (fun lc r => if group_of mac lc =? g then default 0 r else 0) l rs).

Lemma group_bytes_reported mac mac' l rs g : Forall2 (lc_reported mac mac') l rs -> 0 <= g < 8 ->
  group_bytes mac' l g = reported_bytes mac l rs g.
Proof.
  intros F Hg. induction F as [|lc r l rs [Hr Hx] F IH]; [done|]. unfold group_bytes, reported_bytes in *.
  cbn [fmap list_fmap zip_with sum_z foldr]. change (foldr Z.add 0) with sum_z. rewrite IH. f_equal.
  unfold lc_bytes_in, group_of. rewrite Hx. destruct (lc_of mac (lcid lc)) as [i|]; cbn [fmap option_fmap option_map].
  - destruct r as [n|]; cbn [LCGID LCID_buffer_with_data LCID_buffer_remain upd default from_option id] in *.
    + destruct (LCGID i =? g); cbn [andb]; [|done]. destruct (Z.ltb_spec 0 n); lia.
    + rewrite andb_false_r. by destruct (LCGID i =? g).
  - unfold NR_INVALID_LCGID, NR_MAX_NUM_LCGID. by rewrite (proj2 (Z.eqb_neq 8 g)) by lia.
Qed.

End update_bsr.

(** ** A queue of PDUs as the RLC of the examples

    The PDUs of all channels in one list; a request takes the first PDU of its
    channel if it fits. *)
Definition pdu_queue := list (Z * list Z).

Fixpoint queue_req (q : pdu_queue) (id size : Z) : list Z * pdu_queue :=
  match q with
  | [] => ([], [])
  | (c, d) :: q =>
      if c =? id then (if Z.of_nat (length d) <=? size then (d, q) else ([], (c, d) :: q))
      else let '(x, q') := queue_req q id size in (x, (c, d) :: q')
  end.

#[export] Instance queue_rlc : UeRlc pdu_queue := {
  mac_rlc_status_ind q id :=
    Done (Z.min (sum_z ((fun x => if fst x =? id then Z.of_nat (length (snd x)) else 0) <$> q)) 1000000, q);
  mac_rlc_data_req q id size := Done (queue_req q id size)
}.

Lemma queue_req_ok q id size : 0 <= size ->
  let '(d, q') := queue_req q id size in
  Z.of_nat (length d) <= size /\ (length q' + (if decide (d = []) then 0 else 1) <= length q)%nat.
Proof.
  intros Hs. induction q as [|[c d] q IH]; cbn [queue_req length]; [by rewrite decide_True by done; cbn; lia|].
  destruct (c =? id).
  - destruct (Z.leb_spec (Z.of_nat (length d)) size); cbn [length]; destruct (decide _); cbn [length]; try lia; done.
  - destruct (queue_req q id size) as [x q']. cbn [length] in *. lia.
Qed.

Lemma queue_status (q : pdu_queue) id : True -> exists n q', mac_rlc_status_ind q id = Done (n, q') /\
  0 <= n < 2 ^ 25 /\ True /\ length q' = length q.
Proof.
  intros _. eexists _, q. split; [reflexivity|]. split; [|done].
  assert (0 <= sum_z ((fun x => if fst x =? id then Z.of_nat (length (snd x)) else 0) <$> q)); [|lia].
  unfold sum_z. induction q as [|[c d] q IH]; cbn [fmap list_fmap foldr fst snd]; [lia|]. destruct (c =? id); lia.
Qed.

Lemma queue_data (q : pdu_queue) id size : True -> 0 <= size -> exists d q', mac_rlc_data_req q id size = Done (d, q') /\
  Z.of_nat (length d) <= size /\ True /\ (length q' + (if decide (d = []) then 0 else 1) <= length q)%nat.
Proof.
  intros _ Hs. pose proof (queue_req_ok q id size Hs) as H. destruct (queue_req q id size) as [d q'] eqn:E.
  exists d, q'. cbn [mac_rlc_data_req queue_rlc]. rewrite E. by destruct H.
Qed.

#[export] Instance queue_rlc_ok : UeRlcOk pdu_queue := {
  rlc_ok _ := True;
  rlc_pdus := length;
  rlc_status_spec := queue_status;
  rlc_data_spec := queue_data
}.

(** Two channels of one group and a channel of another, with PDUs waiting. *)
Definition idle_timer : NR_timer_t := mk_nr_timer false 0 100 1.
Definition example_lc (g : Z) : NR_LC_SCHEDULING_INFO := mk_lc 0 false g 1000 idle_timer.
Definition example_mac : NR_UE_MAC_INST_t :=
  mk_mac [mk_lco 1 0 1 UINT_MAX UINT_MAX false false; mk_lco 4 0 7 8000 50 false false; mk_lco 5 0 8 8000 50 false false]
    (mk_sched ([example_lc 0; example_lc 8; example_lc 8; example_lc 1; example_lc 1] ++ replicate 27 (example_lc 8))
      (replicate 8 (mk_lcg 0 0)) (replicate 8 (mk_sr true false 0 idle_timer 4)) 0 0 idle_timer idle_timer idle_timer).
Definition example_pdus : pdu_queue := [(4, [1; 2; 3]); (5, [4; 5]); (4, [6])].

Lemma example_mac_wf : mac_wf example_mac /\ bsr_wf example_mac.
Proof.
  split; split; try (vm_compute; done || lia).
  - repeat constructor; cbn; lia.
  - apply (bool_decide_unpack _). by vm_compute.
  - intros id i E. assert (F : Forall (fun i => 0 <= LCGID i <= 8) (lc_sched_info (scheduling_info example_mac)))
      by (repeat constructor; cbn; lia).
    rewrite Forall_lookup in F. exact (F _ _ E).
  - by left.
Qed.


(** The same slot, run: six bytes in group 1 and a regular report for channel 4. *)
Example example_bsr :
  match nr_update_bsr example_mac example_pdus with
  | Done (m, _) => (lcg_bytes m 0, lcg_bytes m 1, regularBSR_trigger_lcid (scheduling_info m))
  | _ => (None, None, 0)
  end = (Some 0, Some 6, 4).
Proof. vm_compute. reflexivity. Qed.

(** ** The token bucket *)

(** A bucket below zero is filled up at once: [Bj] goes below 0 when a channel is
    served more than its bucket holds, but the update that should raise it by
    the prioritised bit rate compares it as an unsigned number with the size of
    the bucket, and takes the full bucket instead of the debt. *)
Theorem update_Bj_forgets_debt scs mac lc i :
  mac_wf mac -> 1 <= lcid lc <= 32 -> lc_of mac (lcid lc) = Some i -> 0 <= pbr lc < UINT_MAX -> 0 <= scs ->
  0 <= bucket_size lc < 2 ^ 31 -> - 2 ^ 31 <= Bj i ->
  Bj i + Z.shiftr (u32 (pbr lc / 1000 * counter (Bj_timer i))) scs < 0 ->
  exists i', update_Bj_lc scs mac lc = Done (set_lc mac (lcid lc) (fun _ => i')) /\ Bj i' = bucket_size lc.
Proof.
  intros W Hid Ei Hp Hs Hb Hj Hn. unfold update_Bj_lc.
  destruct (get_info mac (lcid lc) W Hid) as (j & -> & Ej). rewrite Ei in Ej. injection Ej as <-.
  cbn [mbind outcome_bind]. rewrite (proj2 (Z.ltb_lt (pbr lc) UINT_MAX)) by lia.
  set (a := Z.shiftr _ scs) in *. assert (Ha : 0 <= a).
  { unfold a. apply Z.shiftr_nonneg. unfold u32. apply Z.mod_pos_bound. lia. }
  assert (E : s32 (Bj i + a) = Bj i + a).
  { unfold s32, u32. replace ((Bj i + a) mod 2 ^ 32) with (Bj i + a + 2 ^ 32)
      by (symmetry; rewrite <- (Z_mod_plus_full _ 1); apply Z.mod_small; lia).
    rewrite (proj2 (Z.ltb_ge _ _)) by lia. lia. }
  assert (M : s32 (Z.min (u32 (Bj i + a)) (bucket_size lc)) = bucket_size lc).
  { replace (u32 (Bj i + a)) with (Bj i + a + 2 ^ 32)
      by (symmetry; unfold u32; rewrite <- (Z_mod_plus_full _ 1); apply Z.mod_small; lia).
    rewrite Z.min_r by lia. by apply s32_small. }
  unfold nr_timer_elapsed_time. fold a. rewrite E, M.
  exists (i <| Bj := bucket_size lc |> <| Bj_timer ::= nr_timer_start |>). split; [|done]. f_equal.
  unfold set_lc. destruct mac as [l s]. cbn [scheduling_info upd]. f_equal. destruct s. cbn [lc_sched_info upd]. f_equal.
  apply list_eq. intros k. rewrite !list_lookup_alter. case_decide as D; [|done].
  unfold lc_of in Ei. cbn in Ei. by rewrite Ei.
Qed.

Lemma update_Bj_forgets_debt_witness :
  exists i', update_Bj_lc 1 (set_lc example_mac 4 (fun i => i <| Bj := -30 |>)) (mk_lco 4 0 7 8000 50 false false) =
    Done (set_lc (set_lc example_mac 4 (fun i => i <| Bj := -30 |>)) 4 (fun _ => i')) /\ Bj i' = 50.
Proof.
  apply (update_Bj_forgets_debt 1 (set_lc example_mac 4 (fun i => i <| Bj := -30 |>)) (mk_lco 4 0 7 8000 50 false false)
    (mk_lc 0 false 1 (-30) idle_timer)); try (vm_compute; done || lia).
  apply set_lc_wf; [done|apply example_mac_wf].
Defined.
